(* ===== verification/_CoqProject ===== *)
-Q . S2P
Prelude.v
UtilityMacro.v
X86Tables.v
X86Decode.v
X86DecodeFacts.v
X86Length.v
CodeMemBuffer.v
Arm64Kit.v
Arm64Assembler.v
Arm64Relocation.v
Arm64Machine.v
BitFields.v
Arm64Simulation.v
Arm64Trampoline.v
CodePatch.v
LinearAllocator.v
MemoryAllocator.v
MemoryAllocatorSpec.v
HookRouting.v
HookBlocks.v
HookSpec.v
InstrumentRouting.v
InstrumentSpec.v
NearAllocator.v
NearAllocatorSpec.v
X64Machine.v
X64Assembler.v
X64Encoding.v
X64Relocation.v
X64Simulation.v
X64RelocationSpec.v
X64RipRelative.v
X64Trampoline.v
LinearBlocks.v
Arm32Assembler.v
Arm32Relocation.v
Arm32Emission.v
Arm32Block.v
Arm32Machine.v
Arm32Simulation.v
Arm32Thumb.v
Arm32Arm.v
Arm32Trampoline.v
Arm32Closure.v
Arm32Instrument.v
Arm32ClosureSpec.v
V2Util.v
V2Memory.v
V2Hooker.v
V2Branch.v
V2HookTable.v
V2HookerSpec.v
V2CallSite.v
V2Waiter.v
V2Breakpoint.v
V2Guard.v
V2Plt.v
V2Init.v
