(* ===== verification/Prelude.v ===== *)
(** * Dobby: a verification library

    Dobby hooks functions at run time.  [DobbyHookEx] overwrites the first instructions of a function with a
    trampoline to a replacement and gives the caller a pointer to a relocated copy of the overwritten instructions,
    followed by a jump back; [DobbyInstrument] leads a function through a callback first.  The repository holds two
    engines.  The classic one (source/ and common/) is modelled on ARM64 under Linux and Android, with the assemblers, the
    relocators and the trampolines of its x64 and ARM32 back ends, the x86 decoder, and the ARM32 closure bridge.  The second
    one (src/, what CMakeLists.txt builds), for 32-bit ARM under Android, is modelled as a whole but for its log and its
    assembler front end.

    ** Parts of the program and files of the library

    - Prelude: machine integers ([wrap], [sext], [u8] ... [i64]), the [outcome] of code that can fault ([Ret], [UB] for
      undefined behaviour, [Fatal] for the deliberate crash of FATAL_LOG, UNIMPLEMENTED and UNREACHABLE), little-endian
      bytes, shared lemmas and tactics.
    - UtilityMacro: source/dobby/utility_macro.h, bit fields and alignment.
    - X86Tables, X86Decode, X86DecodeFacts, X86Length: the decoder of
      source/InstructionRelocation/x86/x86_insn_decode: its opcode tables row by row, the byte reader over its 20-byte
      buffer, all decoding stages, then safety, layout and the comparison with the lengths of the Intel manual.
    - CodeMemBuffer: source/MemoryAllocator/CodeMemBuffer.h, the growing code buffer, and the class [CodeBuffer] with its
      laws, against which the assembler is proved.
    - Arm64Kit, Arm64Assembler: constants-arm64.h, inst_constants.h, inst_decode_encode_kit.h (offset codecs),
      registers-arm64.h, assembler.h, pseudo_label.h, assembler-arm64.h, codegen-arm64.h.
    - Arm64Relocation: [relo_ctx_t::relocate] of InstructionRelocationARM64.cc, and the sequence each instruction
      contributes ([relo_item]).
    - Arm64Machine: a reference semantics of the A64 instructions involved, after the Arm manual; Arm64Simulation: the
      relocated code runs like the original.
    - Arm64Trampoline: trampoline_arm64.cc and near_trampoline_arm64.cc.
    - CodePatch: [DobbyCodePatch] of code-patch-tool-posix.cc; the address space is the record [vm], the kernel's
      answers to mprotect are a list in it.
    - LinearAllocator: [simple_linear_allocator_t] of common/linear_allocator.h.
    - MemoryAllocator, MemoryAllocatorSpec: [MemRange] and [MemoryAllocator] of source/MemoryAllocator/MemoryAllocator.h;
      the allocator objects are in a heap keyed by address because two lists point to the same objects.
    - HookRouting: Interceptor.h, InterceptRouting.h, InlineHookRouting.h, AssemblerCodeBuilder.h and
      os_arch_features.h: everything [DobbyHookEx] does.  HookBlocks joins the contracts of the parts (an executable
      block is allocated, written and freed without disturbing other memory), HookSpec proves the hook.
    - InstrumentRouting, InstrumentSpec: InstrumentRouting.h, ClosureTrampoline.h and ClosureTrampolineARM64.cc:
      [DobbyInstrument], on top of the hook.
    - NearAllocator, NearAllocatorSpec: source/MemoryAllocator/NearMemoryAllocator.h, blocks within reach of a branch.
    - LinearBlocks: [linear_allocator_t] of common/linear_allocator.h, whose blocks carry headers in memory.
    - X64Machine: a reference semantics of the x86-64 instructions involved, with a decoder after the Intel manual.
    - X64Assembler, X64Encoding: assembler-x64.h, registers-x64.h, constants-x64.h, codegen-x64.h, and what the emitted
      bytes decode to on X64Machine.
    - X64Relocation: InstructionRelocationX86Shared.cc and InstructionRelocationX64.cc over the decoder, the page
      allocator, the near allocator and [DobbyCodePatch]; X64Simulation: the relocated code runs like the original;
      X64RelocationSpec: the search for a large enough block, and the jumps that are not relocated;
      X64RipRelative: operands relative to the instruction pointer, rebuilt near their data.
    - X64Trampoline: trampoline_x64.cc.
    - BitFields: fields of instruction words as numbers, for the reference semantics.
    - Arm32Assembler: registers-arm.h, constants-arm.h, assembler-arm.h, assembler-arm.cc, codegen-arm.cc and the typed
      accesses of CodeMemBuffer.h, in ARM and Thumb state.
    - Arm32Relocation: InstructionRelocationARM.cc, the A32 and both Thumb relocators with the changes of the execution
      state; Arm32Emission: what each instruction contributes ([item]); Arm32Block: the block with its literals bound.
    - Arm32Machine: a reference semantics of the A32 and T32 instructions involved, with interworking; Arm32Simulation,
      Arm32Thumb and Arm32Arm: the relocated code runs like the original.
    - Arm32Trampoline: trampoline_arm.cc, and the steps of a hook that depend on the architecture.
    - Arm32Closure: the closure bridge (closure_bridge_arm.cc), the closure trampoline (ClosureTrampolineARM.cc) and the
      handlers they lead to; Arm32Instrument: a call through them on Arm32Machine; Arm32ClosureSpec: what generating
      them leaves in the address space.
    - V2Util: src/util.cpp, stealth.cpp, events.cpp of the second engine: protections and accesses on pages of 4 KiB (the
      record [vm] of CodePatch), the integrity table, the event bus; V2Memory: what they do to the address space.
    - V2Hooker: src/hooker.cpp, the inline hooks, on the record [engine] the operations share; V2Branch: the encoding of
      Thumb calls; V2HookTable: the table of hooks against a finite map; V2HookerSpec: what the written code does on
      Arm32Machine.
    - V2CallSite: src/callsite.cpp, hooks of single Thumb calls.
    - V2Waiter: src/waiter.cpp, hooks that wait for a library; a history is a sequence of submissions, passes of the
      worker and cancellations.
    - V2Breakpoint: src/breakpoint.cpp, breakpoints and their signal handler.
    - V2Guard: src/guard_slot.cpp and src/instrument.cpp.
    - V2Plt: src/plt_hooker.cpp, plt_regex.cpp, initarray.cpp, symbols.cpp: ELF images in memory and import-table hooks.
    - V2Init: src/main.cpp, linker_monitor.cpp, initarray_linker.cpp, android_api.cpp: initialisation, with the depth of
      nested calls as an argument, and the entry points with logic of their own.

    How they interact: the trampoline and the relocator emit through the assembler into a code buffer; the builder takes
    a block from the page allocator, which carves it from pages with the linear allocator, and writes the code with
    [DobbyCodePatch]; activation patches the function; the table keeps the entry with the original bytes, which its
    destructor writes back.

    ** What the theorems show

    - The hook (HookSpec): on a hookable function [DobbyHookEx] installs it and calls behave as intended
      ([hook_installs]); deleting the entry takes it back ([hook_roundtrip]); a refused page leaves no trace ([hook_errors]);
      a refused mprotect of the block of the relocated code is overlooked ([hook_ignores_patch_failure]).
    - Relocation (Arm64Relocation, Arm64Simulation): what is emitted ([relocate_emits_items]) and that running it has the
      effect of the original instructions ([relocation_simulates], [relocation_jumps_back]); the encodings for which it
      has not ([b_always_falls_through], [ldr_w_loads_64_bits], [relocate_unsupported_literal]).
    - Trampolines (Arm64Trampoline): both kinds arrive at their target ([normal_trampoline_jumps],
      [near_trampoline_jumps]); the first says at which distance it does not.
    - x64 (X64Encoding, X64Simulation, X64RelocationSpec, X64Trampoline): memory operands round trip through assembler and
      decoder ([memory_operand_roundtrip], and [extended_register_lost] for the forms that drop a register bit); relocated
      jumps and calls of one opcode byte and copied instructions have the effect of the original
      ([x64_relocation_simulates]), and so have loads, stores and LEA with RIP-relative operands if the near allocator gives
      a block ([x64_rip_relocates]); jcc rel32 has not ([x64_jcc_rel32_misdirected]); the search for a block ends, with
      the relocated code or where the kernel refuses a page ([x64_search_delivers]); the trampoline arrives ([x64_trampoline_jumps]).
    - ARM32 (Arm32Arm, Arm32Thumb, Arm32Trampoline): relocated A32 and Thumb code has the effect of the original
      ([arm_relocation_simulates], [thumb_relocation_simulates]); the instructions for which it has not
      ([arm_relocation_takes_for], [thumb_adr_w_runs_into_literal], [thumb_b_cond_ignores_flags]); trampolines arrive
      ([arm32_trampoline_jumps]), trampoline and relocated code of an ARM function fit together, instruction by instruction
      ([arm32_hook_arm_function]), and Thumb functions are treated as ARM ([thumb_function_hooked_as_arm]).
    - Instrumentation: on ARM64 [DobbyInstrument] leads the function to a closure trampoline that carries its entry
      ([instrument_installs]) and overlooks one failure ([instrument_without_trampoline]); on ARM32 generating closure
      trampolines keeps the address space in order ([closure_trampoline_generated]), and a call through one gives the
      callback the registers and then runs the function ([instrumented_call_resumes]; the compiled handler is a
      hypothesis, [compiled], that its witness discharges for concrete code).
    - Near and block allocators: the search for zero bytes is right ([memmem_finds_run]); the headers of
      [linear_allocator_t] tile its buffer in every reachable state ([linear_allocator_refines]), and what it does when no
      block fits ([linear_allocator_exhausted]).
    - Memory: patching writes all bytes, or none, or faults in its rollback, by the kernel's answers ([code_patch_atomic]); blocks handed out never overlap, lie on mapped pages and
      pages are released exactly when unused ([alloc_block_spec], [free_block_spec]); bump allocation and code buffers
      keep their invariants ([simple_alloc_spec], [emit_all_dup], [store_load_word]) and what happens at the end of
      their 32-bit sizes ([simple_alloc_wraps], [ensure_capacity_hangs]).
    - Encodings (Arm64Kit, Arm64Simulation): offset codecs round trip, moves and calls are
      the architectural words.
    - The second engine, inline hooks (V2HookerSpec, V2HookTable): a hook of an ARM function redirects it
      ([arm_hook_redirects]) and Unhook takes it back, but for the protection of the
      function's pages ([arm_hook_unhook]; not when the kernel refuses, [unhook_refused]); the
      table is a finite map ([hooker_refines]); a hook of a Thumb function never jumps ([thumb_hook_falls_through]), and taking it
      back may damage the function ([thumb_unhook_corrupts]); the integrity check is inverted ([integrity_inverted]).
    - The second engine, the rest: a forward BLX as a call site, by its distance ([callsite_blx_hooked]), and call sites that do not work ([callsite_bl_exchanges],
      [callsite_backward_stuck]); the waiter loses and repeats nothing ([waiter_conserves], [worker_round_waits]) but hides
      failures ([submit_hides_failed_hook]); breakpoints come off ([breakpoint_roundtrip]) but a hit faults
      ([breakpoint_hit_faults]); guards are restored, or their worker faults on a
      page without write permission ([guard_round_restores]); patches round trip ([patch_roundtrip]);
      intercepts are confused by removal ([unintercept_confuses]); a scan of relocations replaces the slots of the symbol
      ([plt_scan_replaces]), what it does besides ([plt_hook_drops_exec], [plt_unhook_restores_nothing]); initialisation
      never returns where android_dlopen_ext resolves, nor does any entry point that initialises first
      ([init_never_returns]), and returns elsewhere ([init_returns]).
    - x86 decoding: no access outside the reader's buffer and the tables for at most eight prefixes ([decode_no_ub], with
      [decode_overread] showing the bound is needed), the layout of the result ([decode_length_bounds]), and for which
      encodings the length is right ([decode_length_exact]).

    ** Bounds and fuel

    Loops that are not structural take fuel: [grow] 34 doublings, more than a 32-bit capacity has; [relocate_loop] one
    unit per byte of the block, four times what it uses; [collect_pages] one per byte of the patch plus two, more than
    its pages; [decode_prefix_loop] is structural in the 20 bytes of the reader's buffer; the loops over the blocks of
    [linear_allocator_t] one per byte of its buffer, where a block takes at least eight; the x64 loop one per byte, every
    instruction having at least one; [try_again] as many attempts as steps of 16 bytes lead to the size of the code;
    [allocNearBlockLocked] one answer of the process per page it maps; the ARM32 loops one per byte of the block, where an
    instruction takes at least two, and [relocate_remain] one more than the bytes, each change of state taking one
    instruction.  Running out of fuel is [UB] and the theorems show
    that it does not happen, or, where the code itself does not end ([ensure_capacity_hangs],
    [linear_allocator_exhausted], [init_never_returns]), that no amount is enough.  In the second engine the scan of a
    function's head has one unit per byte, where it uses one per halfword; its other loops are structural.  Relocated ARM64 blocks are assumed smaller than 1 MiB, the
    range of a literal load; the blocks of a hook have at most 140 bytes.  Pages are powers of two from 4 KiB to 1 GiB.

    ** What is not modelled

    System calls, /proc/self/maps and [new] are answers given to the model, with what the kernel promises of them as
    hypotheses ([os_ok], [answer_ok]).  Locks make the operations atomic, so they are sequential here.  Instruction
    caches are not modelled.  [HookRuntime] is not in the repository and is a parameter.  The block that the ARM64 near
    trampoline takes from the near allocator is an argument of [DobbyHookEx].  The closure bridges of ARM64 and x64 are
    assembly files; the ARM64 one is a parameter by its address.  The machine of ARM32 has no IT blocks.  Not modelled
    yet: the destructors of trampolines that own near blocks, the IA32 assembler, driver and closure bridge, the plugins.
    Of the second engine: prctl, which only names pages, the log, Keystone behind asm.cpp, and entry points that only
    forward their arguments; the text of /proc/self/maps is a list of mappings, and xDL, dlsym, POSIX regular
    expressions, the clock and the page mmap picks are arguments; callbacks are recorded with what they are given, except
    those of breakpoints, which are functions on the state.  Vendored code is left out.

    ** Plan

    In this order: the disjointness of near blocks and hooks through near trampolines; the release of near blocks by the
    destructors; the ARM64 closure bridge; the IA32 back end. *)

From Stdlib Require Export ZArith Lia Bool List Btauto.
From stdpp Require Export base tactics list numbers.

#[global] Open Scope Z_scope.

(** ** Notations *)

Declare Scope machine_scope.
Delimit Scope machine_scope with machine.
Notation "x .& y" := (Z.land x y) (at level 37, left associativity) : machine_scope.
Notation "x .| y" := (Z.lor x y) (at level 39, left associativity) : machine_scope.
Notation "x .^ y" := (Z.lxor x y) (at level 38, left associativity) : machine_scope.
Notation "x << n" := (Z.shiftl x n) (at level 36, left associativity) : machine_scope.
Notation "x >> n" := (Z.shiftr x n) (at level 36, left associativity) : machine_scope.

(** ** Machine integers

    An unsigned [w]-bit integer is a [Z] in [[0, 2^w)]; a C conversion to it is
    [wrap w].  A conversion to a signed [w]-bit type is [sext w]. *)

Definition wrap (w z : Z) : Z := z mod 2 ^ w.
Definition sext (w z : Z) : Z :=
  let m := z mod 2 ^ w in if m <? 2 ^ (w - 1) then m else m - 2 ^ w.

Abbreviation u8 := (wrap 8).
Abbreviation u16 := (wrap 16).
Abbreviation u32 := (wrap 32).
Abbreviation u64 := (wrap 64).
Abbreviation i8 := (sext 8).
Abbreviation i32 := (sext 32).
Abbreviation i64 := (sext 64).

(** ** Outcomes

    Code that can fault returns an [outcome]: [Ret] is normal completion, [UB] undefined behaviour (an
    access outside the object it addresses, a read of an unset variable), [Fatal] the deliberate crash of the
    [FATAL_LOG] family ([UNIMPLEMENTED], [UNREACHABLE], [CHECK]), which stores to
    the unmapped address 0x41414141. *)

Inductive outcome (A : Type) : Type :=
| Ret (a : A)
| UB
| Fatal.
Arguments Ret {A} a.
Arguments UB {A}.
Arguments Fatal {A}.

#[export] Instance outcome_ret : MRet outcome := @Ret.
#[export] Instance outcome_bind : MBind outcome :=
  fun A B f o => match o with Ret a => f a | UB => UB | Fatal => Fatal end.
#[export] Instance outcome_fmap : FMap outcome :=
  fun A B f o => match o with Ret a => Ret (f a) | UB => UB | Fatal => Fatal end.

Definition returns {A} (o : outcome A) : bool :=
  match o with Ret _ => true | _ => false end.

Lemma outcome_bind_Ret {A B} (f : A -> outcome B) (o : outcome A) b :
  (o ≫= f) = Ret b -> exists a, o = Ret a /\ f a = Ret b.
Proof. destruct o; simpl; intros; try discriminate; eauto. Qed.

Lemma returns_inv {A} (o : outcome A) : returns o = true -> exists a, o = Ret a.
Proof. destruct o; try discriminate; eauto. Qed.

(** Peel the binds of a hypothesis [e = Ret b]. *)
Ltac peel :=
  repeat match goal with
    | H : (_ ≫= _) = Ret _ |- _ =>
        let a := fresh "a" in let E := fresh "E" in
        apply outcome_bind_Ret in H; destruct H as (a & E & H)
    | H : Ret _ = Ret _ |- _ => injection H as H; subst
    | H : mret _ = Ret _ |- _ => injection H as H; subst
    end.

(** ** Facts about [wrap] and [sext] *)

Lemma wrap_range w z : 0 <= w -> 0 <= wrap w z < 2 ^ w.
Proof. intros. apply Z.mod_pos_bound, Z.pow_pos_nonneg; lia. Qed.

Lemma wrap_small w z : 0 <= z < 2 ^ w -> wrap w z = z.
Proof. intros. apply Z.mod_small; lia. Qed.

Lemma wrap_wrap w z : wrap w (wrap w z) = wrap w z.
Proof. apply Zmod_mod. Qed.

Lemma wrap_add_l w a b : wrap w (wrap w a + b) = wrap w (a + b).
Proof. apply Zplus_mod_idemp_l. Qed.

Lemma wrap_add_r w a b : wrap w (a + wrap w b) = wrap w (a + b).
Proof. apply Zplus_mod_idemp_r. Qed.

Lemma wrap_sub_l w a b : wrap w (wrap w a - b) = wrap w (a - b).
Proof. apply Zminus_mod_idemp_l. Qed.

Lemma wrap_sub_r w a b : wrap w (a - wrap w b) = wrap w (a - b).
Proof. apply Zminus_mod_idemp_r. Qed.

Lemma sext_cong w z : 0 < w -> exists k, sext w z = z + k * 2 ^ w.
Proof.
  intros Hw. unfold sext.
  pose proof (Z.div_mod z (2 ^ w) ltac:(apply Z.pow_nonzero; lia)).
  destruct (_ <? _); [exists (- (z / 2 ^ w)) | exists (- (z / 2 ^ w) - 1)]; nia.
Qed.

Lemma wrap_add_mul w z k : 0 <= w -> wrap w (z + k * 2 ^ w) = wrap w z.
Proof. intros. unfold wrap. apply Z_mod_plus_full. Qed.

Lemma wrap_sext w z : 0 < w -> wrap w (sext w z) = wrap w z.
Proof. intros. destruct (sext_cong w z) as [k ->]; [done|]. apply wrap_add_mul; lia. Qed.

Lemma sext_range w z : 0 < w -> - 2 ^ (w - 1) <= sext w z < 2 ^ (w - 1).
Proof.
  intros Hw. unfold sext.
  pose proof (Z.mod_pos_bound z (2 ^ w) ltac:(apply Z.pow_pos_nonneg; lia)).
  assert (2 ^ w = 2 * 2 ^ (w - 1)).
  { rewrite <- Z.pow_succ_r by lia. f_equal. lia. }
  destruct (Z.ltb_spec (z mod 2 ^ w) (2 ^ (w - 1))); lia.
Qed.

Lemma sext_small w z : 0 < w -> - 2 ^ (w - 1) <= z < 2 ^ (w - 1) -> sext w z = z.
Proof.
  intros Hw Hz. pose proof (sext_range w z Hw). destruct (sext_cong w z Hw) as [k E].
  assert (2 ^ w = 2 * 2 ^ (w - 1)).
  { rewrite <- Z.pow_succ_r by lia. f_equal. lia. }
  assert (k = 0) by nia. lia.
Qed.

Create Rewrite HintDb wrapdb.
#[export] Hint Rewrite wrap_wrap wrap_add_l wrap_add_r wrap_sub_l wrap_sub_r : wrapdb.

(** ** Exhaustive checks over an interval *)

Definition Zrange (lo : Z) (n : nat) : list Z :=
  map (fun i => lo + Z.of_nat i) (seq 0 n).

Lemma Zrange_In lo n x : lo <= x < lo + Z.of_nat n -> In x (Zrange lo n).
Proof.
  intros. apply in_map_iff. exists (Z.to_nat (x - lo)).
  rewrite in_seq. lia.
Qed.

Lemma forallb_Zrange f lo n :
  forallb f (Zrange lo n) = true -> forall x, lo <= x < lo + Z.of_nat n -> f x = true.
Proof. rewrite forallb_forall. intros H x Hx. apply H, Zrange_In, Hx. Qed.

(** ** Bytes and little-endian words *)

Definition is_byte (b : Z) : Prop := 0 <= b < 256.
Definition bytes_ok (l : list Z) : Prop := Forall is_byte l.

Fixpoint le_bytes (n : nat) (z : Z) : list Z :=
  match n with
  | O => []
  | S n => z mod 256 :: le_bytes n (z / 256)
  end.

Fixpoint le_val (l : list Z) : Z :=
  match l with
  | [] => 0
  | b :: l => b + 256 * le_val l
  end.

Lemma length_le_bytes n z : length (le_bytes n z) = n.
Proof. revert z; induction n; simpl; intros; f_equal; auto. Qed.

Lemma le_bytes_ok n z : bytes_ok (le_bytes n z).
Proof.
  revert z; induction n; simpl; intros; constructor; [|apply IHn].
  unfold is_byte. apply Z.mod_pos_bound; lia.
Qed.

Lemma le_val_bytes n z : le_val (le_bytes n z) = z mod 2 ^ (8 * Z.of_nat n).
Proof.
  revert z; induction n as [|n IH]; intros z.
  { simpl. by rewrite Z.mod_1_r. }
  cbn [le_bytes le_val]. rewrite IH.
  replace (8 * Z.of_nat (S n)) with (8 + 8 * Z.of_nat n) by lia.
  rewrite Z.pow_add_r by lia. change (2 ^ 8) with 256.
  rewrite Z.rem_mul_r; lia.
Qed.

Lemma le_bytes_val l : bytes_ok l -> le_bytes (length l) (le_val l) = l.
Proof.
  induction 1 as [|b l Hb Hl IH]; [done|]. cbn [length le_bytes le_val].
  unfold is_byte in Hb.
  rewrite (Z.mul_comm 256), Z.mod_add, Z.mod_small by lia.
  rewrite Z.div_add, Z.div_small, Z.add_0_l by lia. by rewrite IH.
Qed.

Lemma le_val_range l : bytes_ok l -> 0 <= le_val l < 2 ^ (8 * Z.of_nat (length l)).
Proof.
  intros H. rewrite <- (le_bytes_val l H) at 1 2. rewrite le_val_bytes.
  apply Z.mod_pos_bound, Z.pow_pos_nonneg; lia.
Qed.

Lemma bytes_ok_app l1 l2 : bytes_ok (l1 ++ l2) <-> bytes_ok l1 /\ bytes_ok l2.
Proof. apply Forall_app. Qed.

(** ** Bit-level reasoning

    [zbits] proves an equation between [Z]s bit by bit: it rewrites [Z.testbit]
    through the operators with the [zbit] database and splits on the index
    comparisons that remain. *)

Lemma testbit_high n a i : 0 <= a < 2 ^ n -> n <= i -> Z.testbit a i = false.
Proof.
  intros Ha Hi. destruct (Z.eq_dec a 0) as [->|]; [apply Z.testbit_0_l|].
  apply Z.bits_above_log2; [lia|].
  apply Z.lt_le_trans with n; [|done]. apply Z.log2_lt_pow2; lia.
Qed.

Lemma testbit_shiftl a n i :
  0 <= i -> Z.testbit (Z.shiftl a n) i = Z.testbit a (i - n).
Proof. apply Z.shiftl_spec. Qed.

Lemma testbit_wrap w a i :
  0 <= w -> Z.testbit (wrap w a) i = (i <? w) && Z.testbit a i.
Proof. intros. unfold wrap. by rewrite Z.testbit_mod_pow2. Qed.

Lemma lor_lt_pow2 n a b : 0 <= n -> 0 <= a < 2 ^ n -> 0 <= b < 2 ^ n -> 0 <= Z.lor a b < 2 ^ n.
Proof.
  intros Hn Ha Hb. replace (Z.lor a b) with (wrap n (Z.lor a b)); [by apply wrap_range|].
  apply Z.bits_inj'. intros i Hi. rewrite testbit_wrap by done.
  destruct (Z.ltb_spec i n); [done|]. rewrite Z.lor_spec, !(testbit_high n); auto; lia.
Qed.

Lemma lor_disjoint_add a b : Z.land a b = 0 -> Z.lor a b = a + b.
Proof. intros. rewrite <- Z.lxor_lor by done. symmetry. by apply Z.add_nocarry_lxor. Qed.

Create Rewrite HintDb zbit.
#[export] Hint Rewrite Z.land_spec Z.lor_spec Z.lxor_spec Z.testbit_0_l : zbit.
#[export] Hint Rewrite testbit_shiftl Z.shiftr_spec Z.lnot_spec testbit_wrap
  Z.testbit_ones_nonneg using lia : zbit.

Ltac zbit_split :=
  repeat match goal with
    | |- context [?a <? ?b] => destruct (Z.ltb_spec a b)
    | |- context [?a <=? ?b] => destruct (Z.leb_spec a b)
    | |- context [?a =? ?b] => destruct (Z.eqb_spec a b)
    end; try (exfalso; lia).

Ltac zbit_neg :=
  repeat match goal with
    | |- context [Z.testbit ?a ?i] => rewrite (Z.testbit_neg_r a i) by lia
    end.

Ltac zbits :=
  apply Z.bits_inj'; intros ?i ?Hi; autorewrite with zbit; zbit_split;
  zbit_neg; simpl; rewrite ?andb_true_r, ?andb_false_r, ?orb_false_r;
  try reflexivity; try (f_equal; lia); try btauto.

Lemma nth_drop {A} (l : list A) off i d : nth i (drop off l) d = nth (off + i) l d.
Proof.
  revert off. induction l as [|x l IH]; intros [|off]; simpl; try done; by destruct i.
Qed.

(** Run a tactic for each of the [n] values of an index below [n]. *)
Ltac each_index i n tac :=
  let rec go k :=
    match k with
    | O => exfalso; lia
    | S ?k' => destruct (Z.eq_dec i (Z.of_nat k')) as [->|]; [tac | go k']
    end in go n.
