(* ===== verification/UtilityMacro.v ===== *)
(** * Bit-field and alignment macros (source/dobby/utility_macro.h)

    The macros every encoder and decoder is written with.  A C expression of the
    macros is computed in [int], [long] or [uintptr_t]; here it is the integer it
    denotes, and the assignments through [set_bit] and [set_bits] truncate to the
    32-bit object they update. *)

From S2P Require Import Prelude.
#[local] Open Scope machine_scope.

Definition LeftShift (a b c : Z) : Z := (a .& ((1 << b) - 1)) << c.
Definition RightShift (a b c : Z) : Z := (a >> c) .& ((1 << b) - 1).

Definition ALIGN_FLOOR (address range : Z) : Z := address .& Z.lnot (range - 1).
Definition ALIGN_CEIL (address range : Z) : Z :=
  u64 (address + range - 1) .& Z.lnot (range - 1).

Definition submask (x : Z) : Z := (1 << (x + 1)) - 1.
Definition bits (obj st fn : Z) : Z := (obj >> st) .& submask (fn - st).
Definition bit (obj st : Z) : Z := (obj >> st) .& 1.
Definition sbits (obj st fn : Z) : Z :=
  bits obj st fn .| (bit obj fn * Z.lnot (submask (fn - st))).

Definition set_bit (obj st b : Z) : Z :=
  u32 ((Z.lnot (1 << st) .& obj) .| (b << st)).
Definition set_bits (obj st fn b : Z) : Z :=
  u32 ((Z.lnot (submask (fn - st) << st) .& obj) .| (b << st)).

(** ** Field extraction *)

Lemma submask_ones x : 0 <= x + 1 -> submask x = Z.ones (x + 1).
Proof. intros. unfold submask. rewrite Z.ones_equiv, Z.shiftl_1_l. lia. Qed.

Lemma testbit_submask x i : 0 <= x + 1 -> 0 <= i -> Z.testbit (submask x) i = (i <=? x).
Proof.
  intros. rewrite submask_ones, Z.testbit_ones_nonneg by lia.
  destruct (Z.ltb_spec i (x + 1)), (Z.leb_spec i x); lia || done.
Qed.

Lemma bits_alt obj st fn :
  0 <= st <= fn -> bits obj st fn = (obj / 2 ^ st) mod 2 ^ (fn - st + 1).
Proof.
  intros. unfold bits. rewrite submask_ones by lia.
  rewrite Z.land_ones, Z.shiftr_div_pow2 by lia. done.
Qed.

Lemma bits_range obj st fn : 0 <= st <= fn -> 0 <= bits obj st fn < 2 ^ (fn - st + 1).
Proof. intros. rewrite bits_alt by done. apply Z.mod_pos_bound, Z.pow_pos_nonneg; lia. Qed.

Lemma testbit_bits obj st fn i :
  0 <= st <= fn -> 0 <= i -> Z.testbit (bits obj st fn) i = (i <=? fn - st) && Z.testbit obj (i + st).
Proof.
  intros. unfold bits. rewrite Z.land_spec, Z.shiftr_spec, testbit_submask by lia.
  apply andb_comm.
Qed.

Lemma bit_testbit obj st : 0 <= st -> bit obj st = Z.b2z (Z.testbit obj st).
Proof.
  intros. unfold bit. rewrite Z.testbit_spec' by done.
  rewrite <- Z.shiftr_div_pow2 by done. apply (Z.land_ones _ 1). lia.
Qed.

Lemma LeftShift_alt a b c : 0 <= b -> 0 <= c -> LeftShift a b c = (a mod 2 ^ b) * 2 ^ c.
Proof.
  intros. unfold LeftShift. rewrite Z.shiftl_1_l.
  replace (2 ^ b - 1) with (Z.ones b) by (rewrite Z.ones_equiv; lia).
  by rewrite Z.land_ones, Z.shiftl_mul_pow2.
Qed.

Lemma testbit_LeftShift a b c i :
  0 <= b -> 0 <= c -> 0 <= i ->
  Z.testbit (LeftShift a b c) i = (c <=? i) && (i <? c + b) && Z.testbit a (i - c).
Proof.
  intros. unfold LeftShift. rewrite Z.shiftl_1_l.
  replace (2 ^ b - 1) with (Z.ones b) by (rewrite Z.ones_equiv; lia).
  autorewrite with zbit.
  destruct (Z.leb_spec c i).
  - rewrite Z.testbit_ones_nonneg by lia. zbit_split; simpl; btauto.
  - by rewrite !(Z.testbit_neg_r _ (i - c)) by lia.
Qed.

#[export] Hint Rewrite testbit_submask testbit_bits testbit_LeftShift using lia : zbit.

(** ** Field update *)

Lemma set_bits_range obj st fn b : 0 <= set_bits obj st fn b < 2 ^ 32.
Proof. apply wrap_range; lia. Qed.

Lemma testbit_set_bits obj st fn b i :
  0 <= st <= fn -> fn < 32 -> 0 <= b < 2 ^ (fn - st + 1) -> 0 <= i ->
  Z.testbit (set_bits obj st fn b) i =
    (i <? 32) && (if (st <=? i) && (i <=? fn) then Z.testbit b (i - st) else Z.testbit obj i).
Proof.
  intros Hst Hfn Hb Hi. unfold set_bits.
  rewrite testbit_wrap, Z.lor_spec, Z.land_spec, Z.lnot_spec, !testbit_shiftl by lia.
  destruct (Z.leb_spec st i); simpl.
  - rewrite testbit_submask by lia.
    replace (i - st <=? fn - st) with (i <=? fn) by (zbit_split; done).
    destruct (Z.leb_spec i fn); simpl; [done|].
    rewrite (testbit_high (fn - st + 1) b) by lia. btauto.
  - rewrite !(Z.testbit_neg_r _ (i - st)) by lia. simpl. btauto.
Qed.

#[export] Hint Rewrite testbit_set_bits using lia : zbit.

Lemma bits_set_bits_same obj st fn b :
  0 <= st <= fn -> fn < 32 -> 0 <= b < 2 ^ (fn - st + 1) -> bits (set_bits obj st fn b) st fn = b.
Proof.
  intros. apply Z.bits_inj'. intros i Hi. autorewrite with zbit. zbit_split; simpl.
  all: first [f_equal; lia | symmetry; apply (testbit_high (fn - st + 1)); lia].
Qed.

Lemma bits_set_bits_other obj st fn b st' fn' :
  0 <= st <= fn -> fn < 32 -> 0 <= b < 2 ^ (fn - st + 1) ->
  0 <= st' <= fn' -> fn' < 32 -> (fn' < st \/ fn < st') ->
  bits (set_bits obj st fn b) st' fn' = bits obj st' fn'.
Proof. intros. zbits. Qed.

Lemma set_bit_bits obj st b :
  0 <= st < 32 -> 0 <= b < 2 -> set_bit obj st b = set_bits obj st st b.
Proof.
  intros. unfold set_bit, set_bits. rewrite Z.sub_diag.
  by replace (submask 0) with 1 by reflexivity.
Qed.

(** ** Alignment *)

Lemma ALIGN_FLOOR_alt address k :
  0 <= k -> ALIGN_FLOOR address (2 ^ k) = address - address mod 2 ^ k.
Proof.
  intros. unfold ALIGN_FLOOR.
  replace (2 ^ k - 1) with (Z.ones k) by (rewrite Z.ones_equiv; lia).
  rewrite <- Z.ldiff_land, Z.ldiff_ones_r, Z.shiftl_mul_pow2, Z.shiftr_div_pow2 by lia.
  pose proof (Z.div_mod address (2 ^ k) ltac:(apply Z.pow_nonzero; lia)). lia.
Qed.

Lemma ALIGN_CEIL_alt address k :
  0 <= k -> 0 <= address -> address + 2 ^ k - 1 < 2 ^ 64 ->
  ALIGN_CEIL address (2 ^ k) = address + (- address) mod 2 ^ k.
Proof.
  intros Hk Ha Hb. unfold ALIGN_CEIL.
  assert (0 < 2 ^ k) by (apply Z.pow_pos_nonneg; lia).
  rewrite wrap_small by lia. fold (ALIGN_FLOOR (address + 2 ^ k - 1) (2 ^ k)).
  rewrite ALIGN_FLOOR_alt by done.
  assert (E : address = (address / 2 ^ k) * 2 ^ k + address mod 2 ^ k)
    by (rewrite Z.mul_comm; apply Z.div_mod; lia).
  pose proof (Z.mod_pos_bound address (2 ^ k) ltac:(lia)).
  destruct (Z.eq_dec (address mod 2 ^ k) 0) as [Ez|Ez].
  - rewrite (Z_mod_zero_opp_full address), Z.add_0_r by done.
    replace ((address + 2 ^ k - 1) mod 2 ^ k) with (2 ^ k - 1); [lia|].
    rewrite E, Ez, Z.add_0_r.
    replace (address / 2 ^ k * 2 ^ k + 2 ^ k - 1) with (2 ^ k - 1 + address / 2 ^ k * 2 ^ k) by ring.
    rewrite Z_mod_plus_full, Z.mod_small; lia.
  - rewrite Z_mod_nz_opp_full by done.
    replace ((address + 2 ^ k - 1) mod 2 ^ k) with (address mod 2 ^ k - 1); [lia|].
    rewrite E at 2.
    replace (address / 2 ^ k * 2 ^ k + address mod 2 ^ k + 2 ^ k - 1)
      with (address mod 2 ^ k - 1 + (address / 2 ^ k + 1) * 2 ^ k) by ring.
    rewrite Z_mod_plus_full, (Z.mod_small (_ - 1)); lia.
Qed.
