(* ===== verification/X86Decode.v ===== *)
(** * The x86 instruction decoder

    x86_insn_reader.c ([Module Reader]) and x86_insn_decode.c ([Module Decoder]).
    The reader walks the 20-byte buffer that [init_reader] fills; every access is
    checked against it, so a read past the end is the outcome [UB].  The decoder
    threads the reader and the [x86_insn_decode_t] it fills. *)

From Stdlib Require Import String Ascii.
From S2P Require Import Prelude UtilityMacro X86Tables.
#[local] Open Scope machine_scope.
#[local] Open Scope Z_scope.

Module Reader.

(** The pointers of [x86_insn_reader_t] are offsets into the object they point to:
    [mem] is that object, and [owned] says whether it is the reader's own [buffer]. *)
Record x86_insn_reader_t := {
  mem : list Z;
  owned : bool;
  prefix : Z;
  opcode : Z;
  modrm : Z;
  buffer_cursor : Z;
}.

Definition sizeof_buffer : Z := 20.

Definition mk_reader (m : list Z) (own : bool) : x86_insn_reader_t :=
  {| mem := m; owned := own; prefix := 0; opcode := 0; modrm := 0; buffer_cursor := 0 |}.

(** [init_reader(rd, begin, begin + n)]; [begin] is the memory readable from the
    [begin] pointer. *)
Definition init_reader (begin : list Z) (n : Z) : outcome x86_insn_reader_t :=
  if n <? sizeof_buffer then
    if n <=? Z.of_nat (length begin) then
      Ret (mk_reader (take (Z.to_nat n) begin ++ replicate (Z.to_nat (sizeof_buffer - n)) 0xcc) true)
    else UB
  else Ret (mk_reader begin false).

Definition set_cursor (rd : x86_insn_reader_t) (c : Z) : x86_insn_reader_t :=
  {| mem := mem rd; owned := owned rd; prefix := prefix rd; opcode := opcode rd;
     modrm := modrm rd; buffer_cursor := c |}.
Definition set_modrm (rd : x86_insn_reader_t) (c : Z) : x86_insn_reader_t :=
  {| mem := mem rd; owned := owned rd; prefix := prefix rd; opcode := opcode rd;
     modrm := c; buffer_cursor := buffer_cursor rd |}.
Definition set_opcode (rd : x86_insn_reader_t) (c : Z) : x86_insn_reader_t :=
  {| mem := mem rd; owned := owned rd; prefix := prefix rd; opcode := c;
     modrm := modrm rd; buffer_cursor := buffer_cursor rd |}.

(** The [n] bytes at offset [off]. *)
Definition load (rd : x86_insn_reader_t) (off n : Z) : outcome (list Z) :=
  if (0 <=? off) && (off + n <=? Z.of_nat (length (mem rd)))
  then Ret (take (Z.to_nat n) (drop (Z.to_nat off) (mem rd))) else UB.

(** The pointer difference is defined only inside the reader's own buffer. *)
Definition reader_offset (rd : x86_insn_reader_t) : outcome Z :=
  if owned rd then Ret (u32 (buffer_cursor rd)) else UB.

Definition peek_byte (rd : x86_insn_reader_t) : outcome Z :=
  le_val <$> load rd (buffer_cursor rd) 1.

Definition read_le (rd : x86_insn_reader_t) (n step : Z) : outcome (Z * x86_insn_reader_t) :=
  b ← load rd (buffer_cursor rd) n;
  Ret (le_val b, set_cursor rd (buffer_cursor rd + step)).

Definition read_byte (rd : x86_insn_reader_t) := read_le rd 1 1.
Definition read_word (rd : x86_insn_reader_t) := read_le rd 2 2.
Definition read_dword (rd : x86_insn_reader_t) := read_le rd 4 4.
Definition read_qword (rd : x86_insn_reader_t) := read_le rd 8 4.

Definition read_imm (rd : x86_insn_reader_t) (size : Z) : outcome (Z * x86_insn_reader_t) :=
  if size =? 8 then read_byte rd
  else if size =? 16 then read_word rd
  else if size =? 32 then read_dword rd
  else Ret (0, rd).

Definition read_modrm (rd : x86_insn_reader_t) : outcome (Z * x86_insn_reader_t) :=
  let rd := if buffer_cursor rd =? modrm rd then set_cursor rd (buffer_cursor rd + 1) else rd in
  b ← load rd (modrm rd) 1;
  Ret (le_val b, rd).

Definition continue_modrm (rd : x86_insn_reader_t) : x86_insn_reader_t :=
  set_modrm rd (buffer_cursor rd).

Definition continue_opcode (rd : x86_insn_reader_t) : x86_insn_reader_t :=
  set_modrm (set_opcode rd (buffer_cursor rd)) (buffer_cursor rd).

End Reader.

Module Decoder.
Import Reader.

(** ** The decoded instruction *)

Record mem_operand := { base : Z; index : Z; scale : Z; disp : Z }.
Record x86_insn_operand_t := { reg : Z; op_mem : mem_operand }.

Record x86_insn_decode_t := {
  d_flags : Z;
  d_length : Z;
  displacement_offset : Z;
  immediate_offset : Z;
  op0_ : x86_insn_operand_t;
  op1_ : x86_insn_operand_t;
  op2_ : x86_insn_operand_t;
  d_prefix : Z;
  rex : Z;
  primary_opcode : Z;
  d_modrm : Z;
  sib : Z;
  immediate : Z;
  insn_spec : x86_insn_spec_t;
}.

Definition operand_zero : x86_insn_operand_t :=
  {| reg := 0; op_mem := {| base := 0; index := 0; scale := 0; disp := 0 |} |}.

(** The [memset(&insn, 0, sizeof(insn))] of the callers. *)
Definition insn_zero : x86_insn_decode_t :=
  {| d_flags := 0; d_length := 0; displacement_offset := 0; immediate_offset := 0;
     op0_ := operand_zero; op1_ := operand_zero; op2_ := operand_zero;
     d_prefix := 0; rex := 0; primary_opcode := 0; d_modrm := 0; sib := 0; immediate := 0;
     insn_spec := spec_zero |}.

Record x86_options_t := { mode : Z }.

(** Field assignments. *)
Definition with_flags (v : Z) (i : x86_insn_decode_t) : x86_insn_decode_t :=
  {| d_flags := v; d_length := d_length i; displacement_offset := displacement_offset i;
     immediate_offset := immediate_offset i; op0_ := op0_ i; op1_ := op1_ i; op2_ := op2_ i;
     d_prefix := d_prefix i; rex := rex i; primary_opcode := primary_opcode i; d_modrm :=
     d_modrm i; sib := sib i; immediate := immediate i; insn_spec := insn_spec i |}.
Definition with_length (v : Z) (i : x86_insn_decode_t) : x86_insn_decode_t :=
  {| d_flags := d_flags i; d_length := v; displacement_offset := displacement_offset i;
     immediate_offset := immediate_offset i; op0_ := op0_ i; op1_ := op1_ i; op2_ := op2_ i;
     d_prefix := d_prefix i; rex := rex i; primary_opcode := primary_opcode i; d_modrm :=
     d_modrm i; sib := sib i; immediate := immediate i; insn_spec := insn_spec i |}.
Definition with_displacement_offset (v : Z) (i : x86_insn_decode_t) : x86_insn_decode_t :=
  {| d_flags := d_flags i; d_length := d_length i; displacement_offset := v; immediate_offset
     := immediate_offset i; op0_ := op0_ i; op1_ := op1_ i; op2_ := op2_ i; d_prefix :=
     d_prefix i; rex := rex i; primary_opcode := primary_opcode i; d_modrm := d_modrm i; sib :=
     sib i; immediate := immediate i; insn_spec := insn_spec i |}.
Definition with_immediate_offset (v : Z) (i : x86_insn_decode_t) : x86_insn_decode_t :=
  {| d_flags := d_flags i; d_length := d_length i; displacement_offset := displacement_offset
     i; immediate_offset := v; op0_ := op0_ i; op1_ := op1_ i; op2_ := op2_ i; d_prefix :=
     d_prefix i; rex := rex i; primary_opcode := primary_opcode i; d_modrm := d_modrm i; sib :=
     sib i; immediate := immediate i; insn_spec := insn_spec i |}.
Definition with_op0_ (v : x86_insn_operand_t) (i : x86_insn_decode_t) : x86_insn_decode_t :=
  {| d_flags := d_flags i; d_length := d_length i; displacement_offset := displacement_offset
     i; immediate_offset := immediate_offset i; op0_ := v; op1_ := op1_ i; op2_ := op2_ i;
     d_prefix := d_prefix i; rex := rex i; primary_opcode := primary_opcode i; d_modrm :=
     d_modrm i; sib := sib i; immediate := immediate i; insn_spec := insn_spec i |}.
Definition with_op1_ (v : x86_insn_operand_t) (i : x86_insn_decode_t) : x86_insn_decode_t :=
  {| d_flags := d_flags i; d_length := d_length i; displacement_offset := displacement_offset
     i; immediate_offset := immediate_offset i; op0_ := op0_ i; op1_ := v; op2_ := op2_ i;
     d_prefix := d_prefix i; rex := rex i; primary_opcode := primary_opcode i; d_modrm :=
     d_modrm i; sib := sib i; immediate := immediate i; insn_spec := insn_spec i |}.
Definition with_prefix (v : Z) (i : x86_insn_decode_t) : x86_insn_decode_t :=
  {| d_flags := d_flags i; d_length := d_length i; displacement_offset := displacement_offset
     i; immediate_offset := immediate_offset i; op0_ := op0_ i; op1_ := op1_ i; op2_ := op2_ i;
     d_prefix := v; rex := rex i; primary_opcode := primary_opcode i; d_modrm := d_modrm i; sib
     := sib i; immediate := immediate i; insn_spec := insn_spec i |}.
Definition with_rex (v : Z) (i : x86_insn_decode_t) : x86_insn_decode_t :=
  {| d_flags := d_flags i; d_length := d_length i; displacement_offset := displacement_offset
     i; immediate_offset := immediate_offset i; op0_ := op0_ i; op1_ := op1_ i; op2_ := op2_ i;
     d_prefix := d_prefix i; rex := v; primary_opcode := primary_opcode i; d_modrm := d_modrm
     i; sib := sib i; immediate := immediate i; insn_spec := insn_spec i |}.
Definition with_primary_opcode (v : Z) (i : x86_insn_decode_t) : x86_insn_decode_t :=
  {| d_flags := d_flags i; d_length := d_length i; displacement_offset := displacement_offset
     i; immediate_offset := immediate_offset i; op0_ := op0_ i; op1_ := op1_ i; op2_ := op2_ i;
     d_prefix := d_prefix i; rex := rex i; primary_opcode := v; d_modrm := d_modrm i; sib :=
     sib i; immediate := immediate i; insn_spec := insn_spec i |}.
Definition with_modrm (v : Z) (i : x86_insn_decode_t) : x86_insn_decode_t :=
  {| d_flags := d_flags i; d_length := d_length i; displacement_offset := displacement_offset
     i; immediate_offset := immediate_offset i; op0_ := op0_ i; op1_ := op1_ i; op2_ := op2_ i;
     d_prefix := d_prefix i; rex := rex i; primary_opcode := primary_opcode i; d_modrm := v;
     sib := sib i; immediate := immediate i; insn_spec := insn_spec i |}.
Definition with_sib (v : Z) (i : x86_insn_decode_t) : x86_insn_decode_t :=
  {| d_flags := d_flags i; d_length := d_length i; displacement_offset := displacement_offset
     i; immediate_offset := immediate_offset i; op0_ := op0_ i; op1_ := op1_ i; op2_ := op2_ i;
     d_prefix := d_prefix i; rex := rex i; primary_opcode := primary_opcode i; d_modrm :=
     d_modrm i; sib := v; immediate := immediate i; insn_spec := insn_spec i |}.
Definition with_immediate (v : Z) (i : x86_insn_decode_t) : x86_insn_decode_t :=
  {| d_flags := d_flags i; d_length := d_length i; displacement_offset := displacement_offset
     i; immediate_offset := immediate_offset i; op0_ := op0_ i; op1_ := op1_ i; op2_ := op2_ i;
     d_prefix := d_prefix i; rex := rex i; primary_opcode := primary_opcode i; d_modrm :=
     d_modrm i; sib := sib i; immediate := v; insn_spec := insn_spec i |}.
Definition with_insn_spec (v : x86_insn_spec_t) (i : x86_insn_decode_t) : x86_insn_decode_t :=
  {| d_flags := d_flags i; d_length := d_length i; displacement_offset := displacement_offset
     i; immediate_offset := immediate_offset i; op0_ := op0_ i; op1_ := op1_ i; op2_ := op2_ i;
     d_prefix := d_prefix i; rex := rex i; primary_opcode := primary_opcode i; d_modrm :=
     d_modrm i; sib := sib i; immediate := immediate i; insn_spec := v |}.

Definition or_flags (f : Z) (i : x86_insn_decode_t) := with_flags (d_flags i .| f) i.
Definition set_op0_reg (r : Z) (i : x86_insn_decode_t) :=
  with_op0_ {| reg := r; op_mem := op_mem (op0_ i) |} i.
Definition set_op1_reg (r : Z) (i : x86_insn_decode_t) :=
  with_op1_ {| reg := r; op_mem := op_mem (op1_ i) |} i.
Definition set_op1_mem (m : mem_operand) (i : x86_insn_decode_t) :=
  with_op1_ {| reg := reg (op1_ i); op_mem := m |} i.
Definition set_base (b : Z) (i : x86_insn_decode_t) :=
  let m := op_mem (op1_ i) in
  set_op1_mem {| base := b; index := index m; scale := scale m; disp := disp m |} i.
Definition set_index (x : Z) (i : x86_insn_decode_t) :=
  let m := op_mem (op1_ i) in
  set_op1_mem {| base := base m; index := x; scale := scale m; disp := disp m |} i.
Definition set_scale (s : Z) (i : x86_insn_decode_t) :=
  let m := op_mem (op1_ i) in
  set_op1_mem {| base := base m; index := index m; scale := s; disp := disp m |} i.
Definition set_disp (d : Z) (i : x86_insn_decode_t) :=
  let m := op_mem (op1_ i) in
  set_op1_mem {| base := base m; index := index m; scale := scale m; disp := d |} i.

(** ** Bit fields of the REX, ModR/M and SIB bytes *)

Definition REX_W (b : Z) : Z := (b .& 8) >> 3.
Definition REX_R (b : Z) : Z := (b .& 4) >> 2.
Definition REX_X (b : Z) : Z := (b .& 2) >> 1.
Definition REX_B (b : Z) : Z := (b .& 1) >> 0.

Definition modrm_rm (b : Z) : Z := b .& 7.
Definition modrm_reg (b : Z) : Z := (b >> 3) .& 7.
Definition modrm_mode (b : Z) : Z := (b >> 6) .& 3.
Definition sib_base (b : Z) : Z := b .& 7.
Definition sib_index (b : Z) : Z := (b >> 3) .& 7.
Definition sib_log2_scale (b : Z) : Z := (b >> 6) .& 3.

(** ** Prefixes *)

(** The [switch] on a legacy prefix byte; 0 when the byte is not one. *)
Definition legacy_prefix (c : Z) : Z :=
  if c =? 0xF0 then INSN_PREFIX_LOCK
  else if c =? 0xF2 then INSN_PREFIX_REPNE
  else if c =? 0xF3 then INSN_PREFIX_REPE
  else if c =? 0x2E then INSN_PREFIX_CS
  else if c =? 0x36 then INSN_PREFIX_SS
  else if c =? 0x3E then INSN_PREFIX_DS
  else if c =? 0x26 then INSN_PREFIX_ES
  else if c =? 0x64 then INSN_PREFIX_FS
  else if c =? 0x65 then INSN_PREFIX_GS
  else if c =? 0x66 then INSN_PREFIX_OPERAND_SIZE
  else if c =? 0x67 then INSN_PREFIX_ADDRESS_SIZE
  else 0.

(** The [for (;;)] of [x86_insn_decode_prefix].  [rest] is the buffer from the
    cursor on: every iteration peeks one byte and either stops or consumes it, so
    the loop is structural in [rest], and running off its end is the
    out-of-buffer peek. *)
Fixpoint decode_prefix_loop (rest : list Z) (rd : x86_insn_reader_t) (insn : x86_insn_decode_t)
    (conf : x86_options_t) (insn_prefix : Z) : outcome (Z * x86_insn_reader_t * x86_insn_decode_t) :=
  match rest with
  | [] => UB
  | c :: rest =>
      let next := set_cursor rd (buffer_cursor rd + 1) in
      if (mode conf =? 64) && (0x40 <=? c) && (c <=? 0x4f) then
        let insn := if negb (REX_W c =? 0)
                    then or_flags X86_INSN_DECODE_FLAG_OPERAND_SIZE_64 insn else insn in
        Ret (insn_prefix, next, with_rex c insn)
      else
        let t := legacy_prefix c in
        if t =? 0 then Ret (insn_prefix, rd, insn)
        else decode_prefix_loop rest next insn conf (insn_prefix .| t)
  end.

Definition x86_insn_decode_prefix (rd : x86_insn_reader_t) (insn : x86_insn_decode_t)
    (conf : x86_options_t) : outcome (Z * x86_insn_reader_t * x86_insn_decode_t) :=
  decode_prefix_loop (drop (Z.to_nat (buffer_cursor rd)) (mem rd)) rd insn conf 0.

(** ** Operand specifications *)

Definition is_modrm_code (c : ascii) : bool :=
  Ascii.eqb c "G"%char || Ascii.eqb c "E"%char || Ascii.eqb c "M"%char || Ascii.eqb c "R"%char.
Definition is_imm_code (c : ascii) : bool :=
  Ascii.eqb c "J"%char || Ascii.eqb c "I"%char || Ascii.eqb c "O"%char.

Definition x86_insn_has_modrm_byte (insn : x86_insn_spec_t) : bool :=
  existsb (fun o => is_modrm_code (code o)) (operands insn).

(** The loop bound is [sizeof(insn->operands)], 9 bytes, not the 3 elements of the
    array: without an immediate operand the fourth iteration reads past it. *)
Fixpoint immediate_type_loop (ops : list x86_insn_operand_spec_t) : outcome ascii :=
  match ops with
  | [] => UB
  | o :: ops => if is_imm_code (code o) then Ret (type o) else immediate_type_loop ops
  end.
Definition x86_insn_immediate_type (insn : x86_insn_spec_t) : outcome ascii :=
  immediate_type_loop (operands insn).

Definition x86_insn_has_immediate (insn : x86_insn_spec_t) : bool :=
  existsb (fun o => is_imm_code (code o)) (operands insn).

Definition x86_insn_imm_bits (insn : x86_insn_spec_t) (operand_bits : Z) : outcome Z :=
  t ← x86_insn_immediate_type insn;
  Ret (if Ascii.eqb t "b"%char then 8
       else if Ascii.eqb t "w"%char then 16
       else if Ascii.eqb t "d"%char then 32
       else if Ascii.eqb t "q"%char then 64
       else if Ascii.eqb t "z"%char then (if operand_bits =? 64 then 32 else operand_bits)
       else if Ascii.eqb t "v"%char then operand_bits
       else 0).

(** ** Numbers *)

(** [*out_number = disp], an [int64_t]. *)
Definition x86_insn_decode_number (rd : x86_insn_reader_t) (number_bits : Z)
    : outcome (Z * x86_insn_reader_t) :=
  if number_bits =? 64 then '(n, rd) ← read_qword rd; Ret (i64 n, rd)
  else if number_bits =? 32 then read_dword rd
  else if number_bits =? 16 then read_word rd
  else if number_bits =? 8 then read_byte rd
  else Fatal.

(** ** ModR/M and SIB *)

(** The SIB byte: [disp_bits] comes in from the ModR/M decision and goes out
    as the SIB rules change it. *)
Definition decode_sib (rd : x86_insn_reader_t) (insn : x86_insn_decode_t)
    (effective_address_bits mod_ disp_bits : Z)
    : outcome (Z * x86_insn_reader_t * x86_insn_decode_t) :=
  '(s, rd) ← read_byte rd;
  let insn := with_sib s insn in
  let b := u8 (sib_base s .| (REX_B (rex insn) << 3)) in
  let x := u8 (sib_index s .| (REX_X (rex insn) << 3)) in
  let sc := u8 (1 << sib_log2_scale s) in
  let insn := or_flags X86_INSN_DECODE_FLAG_HAS_BASE insn in
  let has_index := negb (sib_index s =? X86_INSN_GP_REG_SP) in
  let insn := if has_index then or_flags X86_INSN_DECODE_FLAG_HAS_INDEX insn else insn in
  let insn := set_scale sc (set_index x (set_base b insn)) in
  let insn := if has_index then insn else set_scale 0 (set_index RNone insn) in
  let no_base insn :=
    let insn := if mod_ =? 0 then set_base RNone insn else insn in
    (if mod_ =? 1 then 8 else 32, insn) in
  (* for 64 bit *)
  let '(disp_bits, insn) :=
    if effective_address_bits =? 64 then
      let '(disp_bits, insn) :=
        if (b =? RBP) || (b =? R13) then no_base insn else (disp_bits, insn) in
      (disp_bits, if has_index then or_flags X86_INSN_DECODE_FLAG_HAS_INDEX insn else insn)
    else (disp_bits, insn) in
  (* for 32 bit *)
  let '(disp_bits, insn) :=
    if effective_address_bits =? 32 then
      if b =? RBP then no_base insn else (disp_bits, insn)
    else (disp_bits, insn) in
  Ret (disp_bits, rd, insn).

(** The 16-bit addressing forms. *)
Definition decode_modrm16 (m : Z) (insn : x86_insn_decode_t) (disp_bits : Z) : Z * x86_insn_decode_t :=
  if (modrm_mode m =? 0) && (modrm_rm m =? 6) then (16, insn)
  else
    let both := X86_INSN_DECODE_FLAG_HAS_BASE .| X86_INSN_DECODE_FLAG_HAS_INDEX in
    let si_di := X86_INSN_GP_REG_SI + (modrm_rm m .& 1) in
    let insn :=
      if (modrm_rm m =? 0) || (modrm_rm m =? 1) then
        or_flags both (set_index si_di (set_base X86_INSN_GP_REG_BX insn))
      else if (modrm_rm m =? 2) || (modrm_rm m =? 3) then
        or_flags both (set_index si_di (set_base X86_INSN_GP_REG_BP insn))
      else if (modrm_rm m =? 4) || (modrm_rm m =? 5) then
        or_flags X86_INSN_DECODE_FLAG_HAS_BASE (set_base si_di insn)
      else if modrm_rm m =? 6 then
        or_flags X86_INSN_DECODE_FLAG_HAS_BASE (set_base X86_INSN_GP_REG_BP insn)
      else
        or_flags X86_INSN_DECODE_FLAG_HAS_BASE (set_base X86_INSN_GP_REG_BX insn) in
    (if negb (modrm_mode m =? 0) then (if modrm_mode m =? 1 then 8 else 16) else disp_bits, insn).

(** [effective_address_bits]; unset in any other mode. *)
Definition address_bits (insn : x86_insn_decode_t) (conf : x86_options_t) : outcome Z :=
  let override := negb (d_prefix insn .& INSN_PREFIX_ADDRESS_SIZE =? 0) in
  if mode conf =? 64 then Ret (if override then 32 else 64)
  else if mode conf =? 32 then Ret (if override then 16 else 32)
  else UB.

(** The 32- and 64-bit addressing forms. *)
Definition decode_modrm_wide (rd : x86_insn_reader_t) (insn : x86_insn_decode_t)
    (effective_address_bits mod_ rm : Z) : outcome (Z * x86_insn_reader_t * x86_insn_decode_t) :=
  let insn := or_flags X86_INSN_DECODE_FLAG_HAS_BASE (set_base rm insn) in
  let '(disp_bits, insn) :=
    if (mod_ =? 0) && (rm .& 7 =? 5) then
      (32, set_base RIP (with_flags X86_INSN_DECODE_FLAG_IP_RELATIVE insn))
    else if mod_ =? 0 then (0, insn)
    else if mod_ =? 1 then (8, insn)
    else if mod_ =? 2 then (32, insn)
    else (0, insn) in
  if rm .& 7 =? 4 then decode_sib rd insn effective_address_bits mod_ disp_bits
  else Ret (disp_bits, rd, insn).

Definition x86_insn_decode_modrm_sib (rd : x86_insn_reader_t) (insn : x86_insn_decode_t)
    (conf : x86_options_t) : outcome (x86_insn_reader_t * x86_insn_decode_t) :=
  '(m, rd) ← read_byte rd;
  let insn := with_modrm m insn in
  let mod_ := modrm_mode m in
  let rm := u8 ((REX_B (rex insn) << 3) .| modrm_rm m) in
  let r := u8 ((REX_R (rex insn) << 3) .| modrm_reg m) in
  let insn := set_op0_reg r insn in
  if mod_ =? 3 then Ret (rd, set_op1_reg rm insn)
  else
    let disp_bits := u8 (-1) in
    let insn := or_flags X86_INSN_DECODE_FLAG_IS_ADDRESS insn in
    effective_address_bits ← address_bits insn conf;
    '(disp_bits, rd, insn) ←
      (if (effective_address_bits =? 32) || (effective_address_bits =? 64)
       then decode_modrm_wide rd insn effective_address_bits mod_ rm
       else Ret (disp_bits, rd, insn));
    let '(disp_bits, insn) :=
      if effective_address_bits =? 16 then decode_modrm16 m insn disp_bits
      else (disp_bits, insn) in
    if negb (disp_bits =? 0) then
      off ← reader_offset rd;
      let insn := with_displacement_offset (u8 off) insn in
      '(d, rd) ← x86_insn_decode_number rd disp_bits;
      Ret (rd, set_disp (u32 d) insn)
    else Ret (rd, insn).

(** ** Opcode *)

Definition table_lookup (tab : list x86_insn_spec_t) (i : Z) : outcome x86_insn_spec_t :=
  match nth_error tab (Z.to_nat i) with Some s => Ret s | None => UB end.

Definition x86_insn_decode_opcode (rd : x86_insn_reader_t) (insn : x86_insn_decode_t)
    (conf : x86_options_t) : outcome (x86_insn_reader_t * x86_insn_decode_t) :=
  '(opc, rd) ← read_byte rd;
  '(opc, spec, rd) ←
    (if opc =? 0x0f then
       '(opc, rd) ← read_byte rd;
       s ← table_lookup x86_opcode_map_two_byte opc;
       Ret (opc, s, rd)
     else
       s ← table_lookup x86_opcode_map_one_byte opc;
       Ret (opc, s, rd));
  let group_ndx := X86_INSN_FLAG_GET_GROUP (flags spec) in
  if X86_INSN_SSE_GROUP_START <? group_ndx then Fatal
  else
    spec ←
      (if (X86_INSN_GROUP_START <? group_ndx) && (group_ndx <? X86_INSN_SSE_GROUP_START) then
         m ← peek_byte rd;
         g ← group_insn x86_insn_modrm_reg_groups group_ndx (modrm_reg m);
         Ret {| name := name g; flags := flags g; operands := operands spec |}
       else Ret spec);
    Ret (rd, with_insn_spec spec (with_primary_opcode opc insn)).

(** ** Immediate *)

Definition operand_bits (insn : x86_insn_decode_t) (conf : x86_options_t) : Z :=
  let bits := if negb (d_prefix insn .& INSN_PREFIX_OPERAND_SIZE =? 0) then 16 else 32 in
  let bits := if negb (d_flags insn .& X86_INSN_DECODE_FLAG_OPERAND_SIZE_64 =? 0) then 64 else bits in
  if (mode conf =? 64) && negb (flags (insn_spec insn) .& X86_INSN_SPEC_DEFAULT_64_BIT =? 0)
  then 64 else bits.

Definition x86_insn_decode_immediate (rd : x86_insn_reader_t) (insn : x86_insn_decode_t)
    (conf : x86_options_t) : outcome (x86_insn_reader_t * x86_insn_decode_t) :=
  imm_bits ← x86_insn_imm_bits (insn_spec insn) (operand_bits insn conf);
  if imm_bits =? 0 then Ret (rd, insn)
  else
    off ← reader_offset rd;
    let insn := with_immediate_offset (u8 off) insn in
    '(n, rd) ← x86_insn_decode_number rd imm_bits;
    Ret (rd, with_immediate n insn).

(** ** The decoder *)

Definition x86_insn_decode (insn : x86_insn_decode_t) (buffer : list Z) (conf : x86_options_t)
    : outcome x86_insn_decode_t :=
  rd ← init_reader buffer 15;
  '(p, rd, insn) ← x86_insn_decode_prefix rd insn conf;
  let insn := with_prefix p insn in
  '(rd, insn) ← x86_insn_decode_opcode rd insn conf;
  '(rd, insn) ← (if x86_insn_has_modrm_byte (insn_spec insn)
                 then x86_insn_decode_modrm_sib rd insn conf else Ret (rd, insn));
  '(rd, insn) ← (if x86_insn_has_immediate (insn_spec insn)
                 then x86_insn_decode_immediate rd insn conf else Ret (rd, insn));
  len ← reader_offset rd;
  Ret (with_length len insn).

End Decoder.
