(* ===== verification/X86DecodeFacts.v ===== *)
(** * The x86 decoder is memory-safe and makes progress

    A reader invariant, what each stage of the decoder consumes, and from these:
    no access outside the 20-byte buffer as long as the instruction starts with at
    most eight prefix bytes, and a decoded length between 1 and 20. *)

From Stdlib Require Import String Ascii.
From S2P Require Import Prelude UtilityMacro X86Tables X86Decode.
Import Reader Decoder.
#[local] Open Scope Z_scope.

(** ** The reader *)

Record reader_ok (rd : x86_insn_reader_t) : Prop := {
  ro_owned : owned rd = true;
  ro_length : length (mem rd) = 20%nat;
  ro_bytes : bytes_ok (mem rd);
  ro_cursor : 0 <= buffer_cursor rd <= 20;
}.

(** The byte at an offset of the buffer. *)
Definition byte_at (rd : x86_insn_reader_t) (off : Z) : Z := nth (Z.to_nat off) (mem rd) 0.

(** [advance rd n] is [rd] with the cursor [n] bytes further. *)
Definition advance (rd : x86_insn_reader_t) (n : Z) : x86_insn_reader_t :=
  set_cursor rd (buffer_cursor rd + n).

Lemma advance_cursor rd n : buffer_cursor (advance rd n) = buffer_cursor rd + n.
Proof. reflexivity. Qed.

Lemma advance_mem rd n : mem (advance rd n) = mem rd.
Proof. reflexivity. Qed.

Lemma advance_advance rd a b : advance (advance rd a) b = advance rd (a + b).
Proof. unfold advance, set_cursor; simpl. f_equal; lia. Qed.

Lemma advance_0 rd : advance rd 0 = rd.
Proof. destruct rd. unfold advance, set_cursor; simpl. f_equal; lia. Qed.

Lemma byte_at_advance rd n off : byte_at (advance rd n) off = byte_at rd off.
Proof. reflexivity. Qed.

Lemma advance_ok rd n :
  reader_ok rd -> 0 <= n -> buffer_cursor rd + n <= 20 -> reader_ok (advance rd n).
Proof. intros [] ??. split; simpl; try done; lia. Qed.

Lemma byte_at_range rd off : reader_ok rd -> 0 <= byte_at rd off < 256.
Proof.
  intros [_ _ Hb _]. unfold byte_at.
  destruct (nth_in_or_default (Z.to_nat off) (mem rd) 0) as [Hin| ->]; [|lia].
  unfold bytes_ok in Hb. rewrite List.Forall_forall in Hb. by apply Hb in Hin.
Qed.

Lemma load_ok rd off n :
  reader_ok rd -> 0 <= off -> off + n <= 20 ->
  load rd off n = Ret (take (Z.to_nat n) (drop (Z.to_nat off) (mem rd))).
Proof.
  intros [_ Hl _ _] ??. unfold load. rewrite Hl.
  destruct (Z.leb_spec 0 off), (Z.leb_spec (off + n) (Z.of_nat 20)); try done; lia.
Qed.

Lemma load_byte rd off :
  reader_ok rd -> 0 <= off < 20 -> load rd off 1 = Ret [byte_at rd off].
Proof.
  intros Hok ?. rewrite load_ok by (done || lia). f_equal. unfold byte_at.
  assert (Hlt : (Z.to_nat off < length (mem rd))%nat) by (rewrite (ro_length rd Hok); lia).
  change (Z.to_nat 1) with 1%nat.
  destruct (drop (Z.to_nat off) (mem rd)) as [|x l] eqn:E.
  { apply (f_equal length) in E. rewrite length_drop in E. simpl in E. lia. }
  rewrite <- (firstn_skipn (Z.to_nat off) (mem rd)), app_nth2; rewrite length_firstn; [|lia].
  replace (_ - _)%nat with 0%nat by lia. by rewrite E.
Qed.

Lemma peek_byte_ok rd :
  reader_ok rd -> buffer_cursor rd < 20 -> peek_byte rd = Ret (byte_at rd (buffer_cursor rd)).
Proof.
  intros Hok ?. unfold peek_byte. rewrite load_byte by (done || pose proof (ro_cursor rd Hok); lia).
  simpl. f_equal. lia.
Qed.

Lemma read_byte_ok rd :
  reader_ok rd -> buffer_cursor rd < 20 ->
  read_byte rd = Ret (byte_at rd (buffer_cursor rd), advance rd 1).
Proof.
  intros Hok ?. unfold read_byte, read_le.
  rewrite load_byte by (done || pose proof (ro_cursor rd Hok); lia). simpl. do 2 f_equal. lia.
Qed.

Lemma read_le_ok rd n step :
  reader_ok rd -> 0 <= n -> buffer_cursor rd + n <= 20 ->
  exists v, read_le rd n step = Ret (v, advance rd step).
Proof.
  intros Hok ??. unfold read_le.
  rewrite load_ok by (done || pose proof (ro_cursor rd Hok); lia). simpl. eauto.
Qed.

Lemma reader_offset_ok rd : reader_ok rd -> reader_offset rd = Ret (buffer_cursor rd).
Proof.
  intros [Ho _ _ Hc]. unfold reader_offset. rewrite Ho, wrap_small; [done|]. lia.
Qed.

Lemma decode_number_ok rd n :
  reader_ok rd -> In n [8; 16; 32; 64] -> buffer_cursor rd + n / 8 <= 20 ->
  exists v, x86_insn_decode_number rd n = Ret (v, advance rd (Z.min 4 (n / 8))).
Proof.
  intros Hok Hn Hc. unfold x86_insn_decode_number.
  simpl in Hn. destruct Hn as [<-|[<-|[<-|[<-|[]]]]]; simpl Z.eqb; cbn iota.
  - apply (read_le_ok rd 1 1); done || lia.
  - apply (read_le_ok rd 2 2); done || lia.
  - apply (read_le_ok rd 4 4); done || lia.
  - destruct (read_le_ok rd 8 4) as [v E]; [done|lia|exact Hc|].
    unfold read_qword. rewrite E. simpl. eauto.
Qed.

Lemma init_reader_ok buffer :
  bytes_ok buffer -> (15 <= length buffer)%nat ->
  exists rd, init_reader buffer 15 = Ret rd /\ reader_ok rd /\ buffer_cursor rd = 0 /\
    mem rd = take 15 buffer ++ replicate 5 0xcc.
Proof.
  intros Hb Hl. unfold init_reader. change (15 <? sizeof_buffer) with true. cbn iota.
  destruct (Z.leb_spec 15 (Z.of_nat (length buffer))); [|lia].
  eexists. split; [reflexivity|]. split; [|done].
  split; cbn [owned mem mk_reader buffer_cursor]; [done| | |lia].
  - rewrite length_app, length_take, length_replicate. unfold sizeof_buffer. lia.
  - apply bytes_ok_app. split; [by apply Forall_take|].
    repeat constructor; unfold is_byte; lia.
Qed.

(** ** Prefixes *)

(** What the prefix loop computes from the bytes alone: how many it consumes, the
    prefix set and the REX byte (0 when there is none). *)
Fixpoint scan_prefix (conf : x86_options_t) (rest : list Z) : Z * Z * Z :=
  match rest with
  | [] => (0, 0, 0)
  | c :: rest =>
      if (mode conf =? 64) && (0x40 <=? c) && (c <=? 0x4f) then (1, 0, c)
      else if legacy_prefix c =? 0 then (0, 0, 0)
      else let '(n, f, r) := scan_prefix conf rest in (n + 1, Z.lor (legacy_prefix c) f, r)
  end.

Definition apply_rex (r : Z) (insn : x86_insn_decode_t) : x86_insn_decode_t :=
  if r =? 0 then insn
  else with_rex r (if negb (REX_W r =? 0)
                   then or_flags X86_INSN_DECODE_FLAG_OPERAND_SIZE_64 insn else insn).

Lemma scan_prefix_length conf pre post :
  let '(n, _, _) := scan_prefix conf (pre ++ 0xcc :: post) in 0 <= n <= Z.of_nat (length pre).
Proof.
  induction pre as [|c pre IH]; cbn [app scan_prefix length].
  - rewrite andb_false_r. simpl. lia.
  - destruct (_ && _ && _); [lia|]. destruct (_ =? 0); [lia|].
    destruct (scan_prefix conf (pre ++ _)) as [[n f] r]. lia.
Qed.

Lemma decode_prefix_loop_ok conf pre post rd insn p :
  let '(n, f, r) := scan_prefix conf (pre ++ 0xcc :: post) in
  decode_prefix_loop (pre ++ 0xcc :: post) rd insn conf p =
    Ret (Z.lor p f, advance rd n, apply_rex r insn).
Proof.
  revert rd p. induction pre as [|c pre IH]; intros rd p; cbn [app scan_prefix decode_prefix_loop].
  - rewrite andb_false_r. simpl. by rewrite Z.lor_0_r, advance_0.
  - destruct (_ && _ && _) eqn:Erex.
    { rewrite Z.lor_0_r. unfold apply_rex.
      destruct (Z.eqb_spec c 0) as [->|]; [by rewrite andb_false_r in Erex|done]. }
    destruct (_ =? 0); [by rewrite Z.lor_0_r, advance_0|].
    specialize (IH (set_cursor rd (buffer_cursor rd + 1)) (Z.lor p (legacy_prefix c))).
    destruct (scan_prefix conf (pre ++ _)) as [[n f] r]. rewrite IH, <- Z.lor_assoc.
    do 3 f_equal. fold (advance rd 1). by rewrite advance_advance, Z.add_comm.
Qed.

(** On the buffer [init_reader] builds, the 0xcc padding stops the loop after at
    most 15 bytes. *)
Lemma decode_prefix_ok conf insn rd code :
  buffer_cursor rd = 0 -> mem rd = take 15 code ++ replicate 5 0xcc ->
  let '(n, f, r) := scan_prefix conf (mem rd) in
  0 <= n <= 15 /\
  x86_insn_decode_prefix rd insn conf = Ret (f, advance rd n, apply_rex r insn).
Proof.
  intros Hc Hm. unfold x86_insn_decode_prefix. rewrite Hc, Hm.
  change (drop (Z.to_nat 0) ?l) with l. change (replicate 5 0xcc) with (0xcc :: replicate 4 0xcc).
  pose proof (scan_prefix_length conf (take 15 code) (replicate 4 0xcc)) as Hn.
  pose proof (decode_prefix_loop_ok conf (take 15 code) (replicate 4 0xcc) rd insn 0) as Hl.
  destruct (scan_prefix _ _) as [[n f] r]. rewrite Hl. split; [|done].
  rewrite length_take in Hn. lia.
Qed.

(** ** Opcode tables *)

Definition imm_type_in (l : list ascii) (s : x86_insn_spec_t) : bool :=
  match x86_insn_immediate_type s with
  | Ret t => existsb (Ascii.eqb t) l
  | _ => false
  end.

(** Every row of the opcode maps: three operands, an immediate of a size the
    decoder knows (at most 32 bits wide next to a ModR/M byte), and a group number
    whose eight entries exist. *)
Definition spec_ok (s : x86_insn_spec_t) : bool :=
  (Nat.eqb (length (operands s)) 3) &&
  implb (x86_insn_has_immediate s)
    (imm_type_in (if x86_insn_has_modrm_byte s then ["b"; "z"]%char else ["b"; "w"; "z"; "v"]%char) s) &&
  (let g := X86_INSN_FLAG_GET_GROUP (flags s) in
   (g =? 0) || (19 <? g) ||
   (g <? 19) && forallb (fun r => returns (group_insn x86_insn_modrm_reg_groups g r)) (Zrange 0 8)).

Lemma one_byte_ok : forallb spec_ok x86_opcode_map_one_byte = true.
Proof. vm_compute. reflexivity. Qed.

Lemma two_byte_ok : forallb spec_ok x86_opcode_map_two_byte = true.
Proof. vm_compute. reflexivity. Qed.

Lemma table_lookup_ok tab b :
  length tab = 256%nat -> forallb spec_ok tab = true -> 0 <= b < 256 ->
  exists s, table_lookup tab b = Ret s /\ spec_ok s = true.
Proof.
  intros Hl Hok Hb. unfold table_lookup.
  destruct (nth_error tab (Z.to_nat b)) as [s|] eqn:E.
  - exists s. split; [done|]. rewrite forallb_forall in Hok.
    eapply Hok, nth_error_In, E.
  - apply nth_error_None in E. lia.
Qed.

Lemma modrm_reg_range m : 0 <= modrm_reg m < 8.
Proof.
  unfold modrm_reg. change 7 with (Z.ones 3). rewrite Z.land_ones by lia.
  apply Z.mod_pos_bound; lia.
Qed.

(** The opcode stage as a function of the three bytes it can see: opcode length,
    primary opcode and specification. *)
Definition resolve_group (spec : x86_insn_spec_t) (m : Z) : outcome x86_insn_spec_t :=
  let g := X86_INSN_FLAG_GET_GROUP (flags spec) in
  if X86_INSN_SSE_GROUP_START <? g then Fatal
  else if (X86_INSN_GROUP_START <? g) && (g <? X86_INSN_SSE_GROUP_START) then
    e ← group_insn x86_insn_modrm_reg_groups g (modrm_reg m);
    Ret {| name := name e; flags := flags e; operands := operands spec |}
  else Ret spec.

Definition lookup_opcode (b0 b1 b2 : Z) : outcome (Z * Z * x86_insn_spec_t) :=
  if b0 =? 0x0f then
    s ← table_lookup x86_opcode_map_two_byte b1; s ← resolve_group s b2; Ret (2, b1, s)
  else
    s ← table_lookup x86_opcode_map_one_byte b0; s ← resolve_group s b1; Ret (1, b0, s).

(** The operand part of [spec_ok], which a group entry does not change. *)
Definition operands_ok (s : x86_insn_spec_t) : Prop :=
  implb (x86_insn_has_immediate s)
    (imm_type_in (if x86_insn_has_modrm_byte s then ["b"; "z"]%char else ["b"; "w"; "z"; "v"]%char) s) = true.

Lemma resolve_group_ok s m :
  spec_ok s = true ->
  resolve_group s m = Fatal \/ exists s', resolve_group s m = Ret s' /\ operands_ok s'.
Proof.
  intros H. unfold spec_ok in H. rewrite !andb_true_iff in H. destruct H as [[_ Hi] Hg].
  rewrite !orb_true_iff, Z.eqb_eq, Z.ltb_lt in Hg.
  unfold resolve_group.
  change X86_INSN_SSE_GROUP_START with 19 in *. change X86_INSN_GROUP_START with 0 in *.
  set (g := X86_INSN_FLAG_GET_GROUP (flags s)) in *.
  destruct (Z.ltb_spec 19 g); [by left|]. right.
  destruct (Z.ltb_spec 0 g); [|by eexists]. destruct (Z.ltb_spec g 19); simpl; [|by eexists].
  destruct Hg as [Hg|Hg]; [lia|]. apply andb_true_iff in Hg as [_ Hg].
  apply (forallb_Zrange _ 0 8) with (x := modrm_reg m) in Hg; [|apply modrm_reg_range].
  apply returns_inv in Hg as [e ->]. simpl. eexists. split; [done|]. exact Hi.
Qed.

Lemma lookup_opcode_ok b0 b1 b2 :
  0 <= b0 < 256 -> 0 <= b1 < 256 ->
  lookup_opcode b0 b1 b2 = Fatal \/
  exists k o s, lookup_opcode b0 b1 b2 = Ret (k, o, s) /\ 1 <= k <= 2 /\ operands_ok s.
Proof.
  intros H0 H1. unfold lookup_opcode.
  destruct (b0 =? 0x0f).
  - destruct (table_lookup_ok x86_opcode_map_two_byte b1 eq_refl two_byte_ok H1) as (s & -> & Hs). simpl.
    destruct (resolve_group_ok s b2 Hs) as [->|(s' & -> & ?)]; [by left|right].
    do 3 eexists. split; [done|]. split; [lia|done].
  - destruct (table_lookup_ok x86_opcode_map_one_byte b0 eq_refl one_byte_ok H0) as (s & -> & Hs). simpl.
    destruct (resolve_group_ok s b1 Hs) as [->|(s' & -> & ?)]; [by left|right].
    do 3 eexists. split; [done|]. split; [lia|done].
Qed.

Lemma decode_opcode_eq rd insn conf :
  reader_ok rd -> buffer_cursor rd <= 17 ->
  x86_insn_decode_opcode rd insn conf =
    ('(k, o, s) ← lookup_opcode (byte_at rd (buffer_cursor rd)) (byte_at rd (buffer_cursor rd + 1))
                    (byte_at rd (buffer_cursor rd + 2));
     Ret (advance rd k, with_insn_spec s (with_primary_opcode o insn))).
Proof.
  intros Hok Hc. pose proof (ro_cursor rd Hok) as Hr.
  unfold x86_insn_decode_opcode, lookup_opcode.
  rewrite read_byte_ok by (done || lia). cbn [mbind outcome_bind].
  assert (Hok1 : reader_ok (advance rd 1)) by (apply advance_ok; done || lia).
  assert (Hok2 : reader_ok (advance rd 2)) by (apply advance_ok; done || lia).
  destruct (_ =? 0x0f).
  - rewrite read_byte_ok by (done || simpl; lia). rewrite advance_advance. cbn [mbind outcome_bind].
    change (byte_at (advance rd 1) ?x) with (byte_at rd x).
    rewrite !advance_cursor.
    destruct (table_lookup _ _) as [s| |]; [|done|done]. cbn [mbind outcome_bind].
    unfold resolve_group.
    destruct (X86_INSN_SSE_GROUP_START <? _); [done|].
    destruct (_ && _); [|done]. rewrite peek_byte_ok by (done || rewrite advance_cursor; lia).
    change (byte_at (advance rd (1 + 1)) ?x) with (byte_at rd x). rewrite advance_cursor.
    cbn [mbind outcome_bind].
    replace (buffer_cursor rd + (1 + 1)) with (buffer_cursor rd + 2) by lia.
    by destruct (group_insn _ _ _).
  - destruct (table_lookup _ _) as [s| |]; [|done|done]. cbn [mbind outcome_bind].
    unfold resolve_group.
    destruct (X86_INSN_SSE_GROUP_START <? _); [done|].
    destruct (_ && _); [|done]. rewrite peek_byte_ok by (done || rewrite advance_cursor; lia).
    change (byte_at (advance rd 1) ?x) with (byte_at rd x). rewrite advance_cursor.
    cbn [mbind outcome_bind]. by destruct (group_insn _ _ _).
Qed.

(** ** ModR/M and SIB *)

(** The ModR/M stage leaves alone everything decoded before it. *)
Record keeps (i j : x86_insn_decode_t) : Prop := {
  k_prefix : d_prefix j = d_prefix i;
  k_rex : rex j = rex i;
  k_opcode : primary_opcode j = primary_opcode i;
  k_spec : insn_spec j = insn_spec i;
  k_immediate_offset : immediate_offset j = immediate_offset i;
}.

Create HintDb keepdb.
Lemma keeps_refl i : keeps i i.
Proof. by split. Qed.
Lemma keeps_flags f i j : keeps i j -> keeps i (with_flags f j).
Proof. intros []; by split. Qed.
Lemma keeps_op0 o i j : keeps i j -> keeps i (with_op0_ o j).
Proof. intros []; by split. Qed.
Lemma keeps_op1 o i j : keeps i j -> keeps i (with_op1_ o j).
Proof. intros []; by split. Qed.
Lemma keeps_modrm m i j : keeps i j -> keeps i (with_modrm m j).
Proof. intros []; by split. Qed.
Lemma keeps_sib s i j : keeps i j -> keeps i (with_sib s j).
Proof. intros []; by split. Qed.
Lemma keeps_disp_off o i j : keeps i j -> keeps i (with_displacement_offset o j).
Proof. intros []; by split. Qed.
Lemma keeps_if (c : bool) i j k : keeps i j -> keeps i k -> keeps i (if c then j else k).
Proof. by destruct c. Qed.
Lemma keeps_or_flags f i j : keeps i j -> keeps i (or_flags f j).
Proof. apply keeps_flags. Qed.
Lemma keeps_op0_reg r i j : keeps i j -> keeps i (set_op0_reg r j).
Proof. apply keeps_op0. Qed.
Lemma keeps_op1_reg r i j : keeps i j -> keeps i (set_op1_reg r j).
Proof. apply keeps_op1. Qed.
Lemma keeps_base b i j : keeps i j -> keeps i (set_base b j).
Proof. apply keeps_op1. Qed.
Lemma keeps_index x i j : keeps i j -> keeps i (set_index x j).
Proof. apply keeps_op1. Qed.
Lemma keeps_scale s i j : keeps i j -> keeps i (set_scale s j).
Proof. apply keeps_op1. Qed.
Lemma keeps_disp d i j : keeps i j -> keeps i (set_disp d j).
Proof. apply keeps_op1. Qed.
#[export] Hint Resolve keeps_refl keeps_flags keeps_modrm keeps_sib keeps_disp_off keeps_if
  keeps_or_flags keeps_op0_reg keeps_op1_reg keeps_base keeps_index keeps_scale keeps_disp : keepdb.
Ltac keeps := cbv zeta; auto 40 with keepdb.

Definition sib_disp_bits (abits r mod_ s d0 : Z) : Z :=
  let b := u8 (Z.lor (sib_base s) (Z.shiftl (REX_B r) 3)) in
  if (abits =? 64) && ((b =? RBP) || (b =? R13)) || (abits =? 32) && (b =? RBP)
  then (if mod_ =? 1 then 8 else 32) else d0.

Definition modrm_disp_bits (mod_ rm : Z) : Z :=
  if mod_ =? 0 then (if rm =? 5 then 32 else 0) else if mod_ =? 1 then 8 else 32.

(** How many bytes the stage consumes, from the ModR/M byte on; [None] where it
    crashes. *)
Definition modrm_extent (abits r m s : Z) : option Z :=
  if modrm_mode m =? 3 then Some 1
  else if abits =? 16 then
    if modrm_mode m =? 0 then (if modrm_rm m =? 6 then Some 3 else None)
    else Some (if modrm_mode m =? 1 then 2 else 3)
  else
    let d0 := modrm_disp_bits (modrm_mode m) (modrm_rm m) in
    Some (if modrm_rm m =? 4 then 2 + sib_disp_bits abits r (modrm_mode m) s d0 / 8 else 1 + d0 / 8).

Lemma decode_sib_ok rd insn abits mod_ d0 :
  reader_ok rd -> buffer_cursor rd < 20 -> abits = 32 \/ abits = 64 ->
  exists insn', keeps insn insn' /\
  decode_sib rd insn abits mod_ d0 =
    Ret (sib_disp_bits abits (rex insn) mod_ (byte_at rd (buffer_cursor rd)) d0, advance rd 1, insn').
Proof.
  intros Hok Hc Ha. unfold decode_sib. rewrite read_byte_ok by done. cbn [mbind outcome_bind].
  unfold sib_disp_bits. set (s := byte_at rd (buffer_cursor rd)).
  change (rex (with_sib s insn)) with (rex insn).
  set (b := u8 (Z.lor (sib_base s) _)).
  destruct Ha as [-> | ->]; simpl Z.eqb; cbn iota.
  - rewrite andb_false_l, orb_false_l, andb_true_l.
    destruct (b =? RBP); eexists; (split; [|reflexivity]); keeps.
  - rewrite andb_false_l, orb_false_r, andb_true_l.
    destruct (_ || _); eexists; (split; [|reflexivity]); keeps.
Qed.

Lemma modrm_fields m :
  0 <= m < 256 -> 0 <= modrm_mode m < 4 /\ 0 <= modrm_rm m < 8.
Proof.
  intros. unfold modrm_mode, modrm_rm. change 3 with (Z.ones 2). change 7 with (Z.ones 3).
  rewrite !Z.land_ones by lia. split; apply Z.mod_pos_bound; lia.
Qed.

(** REX.B extends the register number without changing its low three bits. *)
Lemma rm_low r m : 0 <= m < 256 ->
  Z.land (u8 (Z.lor (Z.shiftl (REX_B r) 3) (modrm_rm m))) 7 = modrm_rm m.
Proof.
  intros Hm. unfold modrm_rm. apply Z.bits_inj'. intros i Hi.
  rewrite !Z.land_spec, testbit_wrap, Z.lor_spec, testbit_shiftl, Z.land_spec by lia.
  destruct (Z.ltb_spec i 3).
  - rewrite (Z.testbit_neg_r _ (i - 3)) by lia.
    destruct (Z.ltb_spec i 8); [|lia]. simpl. btauto.
  - rewrite (testbit_high 3 7 i) by lia. by rewrite !andb_false_r.
Qed.

(** What one run of the stage is: the reader [n] bytes further, everything decoded
    before it kept. *)
Definition stage_ok (rd : x86_insn_reader_t) (insn : x86_insn_decode_t) (n : Z)
    (o : outcome (x86_insn_reader_t * x86_insn_decode_t)) : Prop :=
  exists insn', keeps insn insn' /\ o = Ret (advance rd n, insn').

Lemma decode_modrm_wide_ok rd insn abits mod_ rm :
  reader_ok rd -> buffer_cursor rd < 20 -> abits = 32 \/ abits = 64 -> 0 <= mod_ < 3 ->
  exists insn', keeps insn insn' /\
  decode_modrm_wide rd insn abits mod_ rm =
    (let d0 := modrm_disp_bits mod_ (Z.land rm 7) in
     if Z.land rm 7 =? 4 then
       Ret (sib_disp_bits abits (rex insn) mod_ (byte_at rd (buffer_cursor rd)) d0, advance rd 1, insn')
     else Ret (d0, rd, insn')).
Proof.
  intros Hok Hc Ha Hm. unfold decode_modrm_wide, modrm_disp_bits. cbv zeta.
  set (lo := Z.land rm 7). set (i1 := or_flags _ _).
  assert (K1 : keeps insn i1) by (unfold i1; keeps).
  assert (Hsib : forall d0 i2, keeps insn i2 -> exists insn', keeps insn insn' /\
            decode_sib rd i2 abits mod_ d0 =
            Ret (sib_disp_bits abits (rex insn) mod_ (byte_at rd (buffer_cursor rd)) d0, advance rd 1, insn')).
  { intros d0 i2 K2. destruct (decode_sib_ok rd i2 abits mod_ d0 Hok Hc Ha) as (i3 & K3 & ->).
    exists i3. rewrite (k_rex _ _ K2). split; [|done]. destruct K2, K3; split; congruence. }
  destruct (Z.eqb_spec mod_ 0) as [E0|]; simpl andb; cbn iota.
  - destruct (Z.eqb_spec lo 5) as [E5|].
    + rewrite E5. simpl Z.eqb. cbn iota. eexists. split; [|done]. keeps.
    + destruct (lo =? 4); [by apply Hsib|]. by exists i1.
  - destruct (Z.eqb_spec mod_ 1).
    + destruct (lo =? 4); [by apply Hsib|]. by exists i1.
    + destruct (Z.eqb_spec mod_ 2) as [_|]; [|lia].
      destruct (lo =? 4); [by apply Hsib|]. by exists i1.
Qed.

(** The displacement read that ends the stage. *)
Lemma decode_disp_ok rd insn n :
  reader_ok rd -> In n [0; 8; 16; 32] -> buffer_cursor rd + n / 8 <= 20 ->
  stage_ok rd insn (n / 8)
    (if negb (n =? 0) then
       off ← reader_offset rd;
       '(d, rd) ← x86_insn_decode_number rd n;
       Ret (rd, set_disp (u32 d) (with_displacement_offset (u8 off) insn))
     else Ret (rd, insn)).
Proof.
  intros Hok Hn Hc. destruct (Z.eqb_spec n 0) as [->|Hnz]; simpl negb; cbn iota.
  { exists insn. rewrite advance_0. split; [apply keeps_refl|done]. }
  rewrite reader_offset_ok by done. cbn [mbind outcome_bind].
  destruct (decode_number_ok rd n) as [v ->]; [done| |done|].
  { simpl in *. lia. }
  cbn [mbind outcome_bind].
  replace (Z.min 4 (n / 8)) with (n / 8)
    by (simpl in Hn; destruct Hn as [<-|[<-|[<-|[<-|[]]]]]; reflexivity).
  eexists. split; [|reflexivity]. keeps.
Qed.

Lemma keeps_trans i j k : keeps i j -> keeps j k -> keeps i k.
Proof. intros [] []; split; congruence. Qed.

Lemma stage_ok_keeps rd i j n o : keeps i j -> stage_ok rd j n o -> stage_ok rd i n o.
Proof. intros K (i' & K' & ->). exists i'. split; [by eapply keeps_trans|done]. Qed.

Lemma stage_ok_advance rd i a n o :
  stage_ok (advance rd a) i n o -> stage_ok rd i (a + n) o.
Proof. intros (i' & K & ->). exists i'. by rewrite advance_advance. Qed.

Lemma modrm_disp_bits_in mod_ rm : In (modrm_disp_bits mod_ rm) [0; 8; 16; 32].
Proof. unfold modrm_disp_bits. repeat case_match; simpl; tauto. Qed.

Lemma sib_disp_bits_in abits r mod_ s d0 :
  In d0 [0; 8; 16; 32] -> In (sib_disp_bits abits r mod_ s d0) [0; 8; 16; 32].
Proof. unfold sib_disp_bits. cbv zeta. intros. repeat case_match; simpl; tauto. Qed.

Lemma decode_modrm16_keeps m insn d : keeps insn (snd (decode_modrm16 m insn d)).
Proof. unfold decode_modrm16. destruct (_ && _); [apply keeps_refl|]. simpl snd. keeps. Qed.

Lemma decode_modrm16_bits m insn d :
  0 <= m < 256 -> modrm_mode m <> 3 ->
  fst (decode_modrm16 m insn d) =
    if modrm_mode m =? 0 then (if modrm_rm m =? 6 then 16 else d) else if modrm_mode m =? 1 then 8 else 16.
Proof. intros. unfold decode_modrm16. repeat (case_match; simpl in * ); done. Qed.

Lemma disp_bytes d : In d [0; 8; 16; 32] -> 0 <= d / 8 <= 4.
Proof. intros [<-|[<-|[<-|[<-|[]]]]]; split; by vm_compute. Qed.

(** The ModR/M stage consumes [modrm_extent] bytes, and crashes exactly where that
    is [None]. *)
Lemma decode_modrm_sib_ok rd insn conf abits :
  reader_ok rd -> buffer_cursor rd + 6 <= 20 -> address_bits insn conf = Ret abits ->
  match modrm_extent abits (rex insn) (byte_at rd (buffer_cursor rd)) (byte_at rd (buffer_cursor rd + 1)) with
  | Some n => 1 <= n <= 6 /\ stage_ok rd insn n (x86_insn_decode_modrm_sib rd insn conf)
  | None => x86_insn_decode_modrm_sib rd insn conf = Fatal
  end.
Proof.
  intros Hok Hc Ha. pose proof (ro_cursor rd Hok) as Hr.
  assert (Hok1 : reader_ok (advance rd 1)) by (apply advance_ok; done || lia).
  assert (Hok2 : reader_ok (advance rd 2)) by (apply advance_ok; done || lia).
  unfold x86_insn_decode_modrm_sib. rewrite read_byte_ok by (done || lia). cbn [mbind outcome_bind].
  unfold modrm_extent. set (m := byte_at rd (buffer_cursor rd)).
  assert (Hm : 0 <= m < 256) by by apply byte_at_range.
  destruct (modrm_fields m Hm) as [Hmod Hrm].
  destruct (Z.eqb_spec (modrm_mode m) 3) as [|Hne].
  { split; [lia|]. eexists. split; [|reflexivity]. keeps. }
  set (i1 := or_flags _ _). assert (K1 : keeps insn i1) by (unfold i1; keeps).
  replace (address_bits i1 conf) with (Ret abits) by (rewrite <- Ha; unfold address_bits; by rewrite (k_prefix _ _ K1)).
  cbn [mbind outcome_bind].
  change (rex (with_modrm m insn)) with (rex insn).
  destruct (Z.eqb_spec abits 16) as [->|Hn16].
  - simpl Z.eqb. cbn [orb mbind outcome_bind].
    pose proof (decode_modrm16_keeps m i1 (u8 (-1))) as K2.
    pose proof (decode_modrm16_bits m i1 (u8 (-1)) Hm Hne) as Eb.
    destruct (decode_modrm16 m i1 (u8 (-1))) as [d i2]. simpl in K2, Eb.
    assert (Hd : In d [8; 16] -> stage_ok rd insn (1 + d / 8)
              (if negb (d =? 0) then
                 off ← reader_offset (advance rd 1);
                 '(d0, rd) ← x86_insn_decode_number (advance rd 1) d;
                 Ret (rd, set_disp (u32 d0) (with_displacement_offset (u8 off) i2))
               else Ret (advance rd 1, i2))).
    { intros Hin. apply stage_ok_advance, (stage_ok_keeps _ _ i2); [by eapply keeps_trans|].
      apply decode_disp_ok; [done| |rewrite advance_cursor]; clear Eb; simpl in Hin |- *; [tauto|].
      destruct Hin as [<-|[<-|[]]]; [change (8 / 8) with 1|change (16 / 8) with 2]; lia. }
    destruct (modrm_mode m =? 0).
    + destruct (modrm_rm m =? 6); subst d.
      * split; [lia|]. apply (Hd ltac:(simpl; tauto)).
      * rewrite reader_offset_ok by done. reflexivity.
    + destruct (modrm_mode m =? 1); subst d; (split; [lia|]); apply (Hd ltac:(simpl; tauto)).
  - assert (Ha' : abits = 32 \/ abits = 64).
    { unfold address_bits in Ha. repeat case_match; simplify_eq; auto. }
    replace ((abits =? 32) || (abits =? 64)) with true by (destruct Ha' as [-> | ->]; done).
    cbn iota.
    destruct (decode_modrm_wide_ok (advance rd 1) i1 abits (modrm_mode m)
                (u8 (Z.lor (Z.shiftl (REX_B (rex insn)) 3) (modrm_rm m)))) as (i2 & K2 & ->);
      [done|simpl; lia|done|lia|].
    rewrite rm_low by done. cbv zeta. rewrite (k_rex _ _ K1), advance_cursor, byte_at_advance.
    pose proof (modrm_disp_bits_in (modrm_mode m) (modrm_rm m)) as Hd.
    set (d0 := modrm_disp_bits _ _) in *.
    assert (K : keeps insn i2) by by eapply keeps_trans.
    destruct (modrm_rm m =? 4); cbn [mbind outcome_bind].
    + pose proof (sib_disp_bits_in abits (rex insn) (modrm_mode m) (byte_at rd (buffer_cursor rd + 1)) d0 Hd) as Hd'.
      set (d := sib_disp_bits _ _ _ _ _) in *.
      pose proof (disp_bytes d Hd').
      split; [lia|]. rewrite advance_advance. apply stage_ok_advance, (stage_ok_keeps _ _ i2); [done|].
      apply decode_disp_ok; [done|done|rewrite advance_cursor; lia].
    + pose proof (disp_bytes d0 Hd).
      split; [lia|]. apply stage_ok_advance, (stage_ok_keeps _ _ i2); [done|].
      apply decode_disp_ok; [done|done|rewrite advance_cursor; lia].
Qed.

(** *** Where the ModR/M byte and the displacement are *)

(** Everything that the stage does before the displacement leaves these two fields alone. *)
Definition same_head (i j : x86_insn_decode_t) : Prop :=
  displacement_offset j = displacement_offset i /\ d_modrm j = d_modrm i.

Lemma same_head_if (c : bool) i j k : same_head i j -> same_head i k -> same_head i (if c then j else k).
Proof. by destruct c. Qed.

Lemma decode_sib_head rd insn abits mod_ d0 d rd' insn' :
  reader_ok rd -> buffer_cursor rd < 20 -> decode_sib rd insn abits mod_ d0 = Ret (d, rd', insn') ->
  rd' = advance rd 1 /\ same_head insn insn'.
Proof.
  intros Hok Hc. unfold decode_sib. rewrite read_byte_ok by done. cbn [mbind outcome_bind].
  destruct (_ =? 64), (_ =? 32); repeat case_match; simplify_eq; intros [= _ <- <-]; (split; [done|]);
    repeat apply same_head_if; done.
Qed.

Lemma decode_modrm_wide_head rd insn abits mod_ rm d rd' insn' :
  reader_ok rd -> buffer_cursor rd < 20 -> decode_modrm_wide rd insn abits mod_ rm = Ret (d, rd', insn') ->
  (exists h, 0 <= h <= 1 /\ rd' = advance rd h) /\ same_head insn insn'.
Proof.
  intros Hok Hc. unfold decode_modrm_wide.
  assert (Hpick : forall d0 i1, same_head insn i1 ->
    (if Z.land rm 7 =? 4 then decode_sib rd i1 abits mod_ d0 else Ret (d0, rd, i1)) = Ret (d, rd', insn') ->
    (exists h, 0 <= h <= 1 /\ rd' = advance rd h) /\ same_head insn insn').
  { intros d0 i1 [H1 H2]. destruct (_ =? 4).
    - intros [-> [H3 H4]]%decode_sib_head; [|done|done]. split; [exists 1; split; [lia|done]|]. split; congruence.
    - intros [= _ <- <-]. split; [exists 0; by rewrite advance_0|done]. }
  repeat case_match; simplify_eq; intros E; (eapply Hpick; [|exact E]); done.
Qed.

Lemma decode_modrm16_head m insn d : same_head insn (snd (decode_modrm16 m insn d)).
Proof. unfold decode_modrm16. destruct (_ && _); [done|]. cbn [snd]. repeat apply same_head_if; done. Qed.

Lemma decode_number_inv rd bits v rd' :
  x86_insn_decode_number rd bits = Ret (v, rd') -> exists z, 1 <= z <= 4 /\ rd' = advance rd z.
Proof.
  unfold x86_insn_decode_number, read_qword, read_dword, read_word, read_byte, read_le. intros E.
  repeat case_match; simplify_eq; destruct (load _ _ _); simplify_eq/=; eexists; (split; [|reflexivity]); lia.
Qed.

(** The ModR/M byte is the first byte of the stage; with [h] bytes of ModR/M and SIB the displacement starts behind
    them and takes the remaining [z]. *)
Lemma decode_modrm_sib_layout rd insn conf rd' insn' :
  reader_ok rd -> buffer_cursor rd + 6 <= 20 -> displacement_offset insn = 0 ->
  x86_insn_decode_modrm_sib rd insn conf = Ret (rd', insn') ->
  d_modrm insn' = byte_at rd (buffer_cursor rd) /\
  exists h z, 1 <= h <= 2 /\ 0 <= z <= 4 /\ rd' = advance rd (h + z) /\
    displacement_offset insn' = if z =? 0 then 0 else buffer_cursor rd + h.
Proof.
  intros Hok Hc H0. pose proof (ro_cursor rd Hok) as Hr.
  assert (Hok1 : reader_ok (advance rd 1)) by (apply advance_ok; done || lia).
  unfold x86_insn_decode_modrm_sib. rewrite read_byte_ok by (done || lia). cbn [mbind outcome_bind].
  set (m := byte_at rd (buffer_cursor rd)). destruct (modrm_mode m =? 3).
  { intros [= <- <-]. split; [done|]. exists 1, 0. split; [lia|]. split; [lia|]. by split. }
  intros (abits & _ & E)%outcome_bind_Ret. apply outcome_bind_Ret in E as ([[d rd1] i1] & E1 & E).
  assert (H1 : (exists h, 0 <= h <= 1 /\ rd1 = advance (advance rd 1) h) /\ displacement_offset i1 = 0 /\ d_modrm i1 = m).
  { destruct (_ || _).
    - apply decode_modrm_wide_head in E1 as [Hh [-> ->]]; [done|done|cbn; lia].
    - injection E1 as <- <- <-. split; [exists 0; by rewrite advance_0|done]. }
  destruct H1 as [(h & Hh & ->) [Hd Hm]].
  assert (H2 : exists d2 i2, (if abits =? 16 then decode_modrm16 m i1 d else (d, i1)) = (d2, i2) /\ displacement_offset i2 = 0 /\ d_modrm i2 = m).
  { destruct (abits =? 16); [|by exists d, i1]. pose proof (decode_modrm16_head m i1 d) as [Hd' Hm'].
    destruct (decode_modrm16 m i1 d) as [d2 i2]. cbn [snd] in Hd', Hm'. exists d2, i2. split; [done|]. split; congruence. }
  destruct H2 as (d2 & i2 & E2 & Hd2 & Hm2). rewrite E2 in E. rewrite advance_advance in E. destruct (negb (d2 =? 0)).
  - rewrite reader_offset_ok in E by (apply advance_ok; done || lia). cbn [mbind outcome_bind] in E.
    apply outcome_bind_Ret in E as ([v rd2] & (z & Hz & ->)%decode_number_inv & E). injection E as <- <-.
    split; [done|]. exists (1 + h), z. split; [lia|]. split; [lia|]. rewrite advance_advance. split; [done|].
    cbn [displacement_offset set_disp set_op1_mem with_op1_ with_displacement_offset]. rewrite wrap_small by lia.
    by rewrite (proj2 (Z.eqb_neq z 0)) by lia.
  - injection E as <- <-. split; [done|]. exists (1 + h), 0. split; [lia|]. split; [lia|]. rewrite Z.add_0_r. by split.
Qed.

(** ** Immediate *)

Lemma operand_bits_in insn conf : In (operand_bits insn conf) [16; 32; 64].
Proof. unfold operand_bits. cbv zeta. repeat case_match; simpl; tauto. Qed.

(** How far the cursor moves over an immediate of type [t]; a 64-bit one moves it
    only four bytes. *)
Definition imm_extent (t : ascii) (obits : Z) : Z :=
  if Ascii.eqb t "b"%char then 1
  else if Ascii.eqb t "w"%char then 2
  else if obits =? 16 then 2 else 4.

Definition imm_type (s : x86_insn_spec_t) : ascii :=
  match x86_insn_immediate_type s with Ret t => t | _ => "b"%char end.

Lemma imm_extent_range t obits : 1 <= imm_extent t obits <= 4.
Proof. unfold imm_extent. repeat case_match; lia. Qed.

(** An immediate next to a ModR/M byte takes at most four bytes of the buffer, any
    other at most eight. *)
Lemma imm_bits_ok s obits :
  operands_ok s -> x86_insn_has_immediate s = true -> In obits [16; 32; 64] ->
  exists n, x86_insn_imm_bits s obits = Ret n /\ In n [8; 16; 32; 64] /\
    n / 8 <= (if x86_insn_has_modrm_byte s then 4 else 8) /\
    Z.min 4 (n / 8) = imm_extent (imm_type s) obits.
Proof.
  intros Hs Hi Ho. unfold operands_ok in Hs. rewrite Hi in Hs. simpl in Hs.
  unfold imm_type_in in Hs. unfold x86_insn_imm_bits, imm_type.
  destruct (x86_insn_immediate_type s) as [t| |]; [|done|done]. cbn [mbind outcome_bind].
  eexists. split; [reflexivity|].
  destruct (x86_insn_has_modrm_byte s); apply existsb_exists in Hs as (t' & Hin & E);
    apply Ascii.eqb_eq in E; subst t';
    repeat (destruct Hin as [<-|Hin]; [|try done]);
    repeat (destruct Ho as [<-|Ho]; [|try done]); (split; [simpl; tauto|]); split; by vm_compute.
Qed.

Lemma decode_immediate_ok rd insn conf :
  reader_ok rd -> operands_ok (insn_spec insn) -> x86_insn_has_immediate (insn_spec insn) = true ->
  buffer_cursor rd + (if x86_insn_has_modrm_byte (insn_spec insn) then 4 else 8) <= 20 ->
  exists v, x86_insn_decode_immediate rd insn conf =
    Ret (advance rd (imm_extent (imm_type (insn_spec insn)) (operand_bits insn conf)),
         with_immediate v (with_immediate_offset (buffer_cursor rd) insn)).
Proof.
  intros Hok Hs Hi Hc. pose proof (ro_cursor rd Hok). unfold x86_insn_decode_immediate.
  destruct (imm_bits_ok (insn_spec insn) (operand_bits insn conf) Hs Hi (operand_bits_in _ _))
    as (n & -> & Hn & Hle & <-). cbn [mbind outcome_bind].
  replace (n =? 0) with false by (destruct Hn as [<-|[<-|[<-|[<-|[]]]]]; done).
  rewrite reader_offset_ok by done. cbn [mbind outcome_bind].
  destruct (decode_number_ok rd n) as [v ->]; [done|done|lia|].
  cbn [mbind outcome_bind]. exists v. rewrite wrap_small by lia. reflexivity.
Qed.

(** ** The whole decoder *)

(** The bytes [init_reader] copies out of the instruction stream. *)
Definition window (code : list Z) : list Z := take 15 code ++ replicate 5 0xcc.
Definition win_byte (code : list Z) (off : Z) : Z := nth (Z.to_nat off) (window code) 0.
Definition prefix_count (conf : x86_options_t) (code : list Z) : Z :=
  fst (fst (scan_prefix conf (window code))).


Definition abits_of (conf : x86_options_t) (f : Z) : Z :=
  let override := negb (Z.land f INSN_PREFIX_ADDRESS_SIZE =? 0) in
  if mode conf =? 64 then (if override then 32 else 64) else (if override then 16 else 32).

(** The three parts the bytes determine; the immediate follows. *)
Definition insn_parts (conf : x86_options_t) (code : list Z)
    : outcome (Z * Z * Z * Z * x86_insn_spec_t) :=
  let '(n, f, r) := scan_prefix conf (window code) in
  '(k, o, s) ← lookup_opcode (win_byte code n) (win_byte code (n + 1)) (win_byte code (n + 2));
  if x86_insn_has_modrm_byte s then
    match modrm_extent (abits_of conf f) r (win_byte code (n + k)) (win_byte code (n + k + 1)) with
    | Some m => Ret (n, k, m, o, s)
    | None => Fatal
    end
  else Ret (n, k, 0, o, s).

Lemma scan_prefix_count conf code n f r :
  scan_prefix conf (window code) = (n, f, r) -> 0 <= n <= 15.
Proof.
  intros E. pose proof (scan_prefix_length conf (take 15 code) (replicate 4 0xcc)) as H.
  change (0xcc :: replicate 4 0xcc) with (replicate 5 0xcc) in H. fold (window code) in H.
  rewrite E, length_take in H. lia.
Qed.

Lemma rex_apply_rex r : rex (apply_rex r insn_zero) = r.
Proof. unfold apply_rex. destruct (Z.eqb_spec r 0) as [->|]; [done|]. by case_match. Qed.

Lemma operand_bits_32 insn conf :
  Z.land (d_prefix insn) INSN_PREFIX_OPERAND_SIZE = 0 -> operand_bits insn conf <> 16.
Proof. intros H. unfold operand_bits. rewrite H. simpl. repeat case_match; lia. Qed.

(** The [m] bytes at [start] are the ModR/M byte, a SIB byte or none, and the displacement, whose offset is recorded if
    it is there. *)
Definition operand_layout (code : list Z) (s : x86_insn_spec_t) (start m : Z) (insn : x86_insn_decode_t) : Prop :=
  if x86_insn_has_modrm_byte s then
    d_modrm insn = win_byte code start /\
    exists h z, 1 <= h <= 2 /\ 0 <= z <= 4 /\ m = h + z /\ displacement_offset insn = if z =? 0 then 0 else start + h
  else m = 0 /\ displacement_offset insn = 0.

(** What a successful run of the decoder leaves in the instruction. *)
Record decoded (conf : x86_options_t) (code : list Z) (n k m o : Z) (s : x86_insn_spec_t)
    (insn : x86_insn_decode_t) : Prop := {
  dec_opcode : primary_opcode insn = o;
  dec_spec : insn_spec insn = s;
  dec_prefix : scan_prefix conf (window code) = (n, d_prefix insn, rex insn);
  dec_immediate_offset :
    immediate_offset insn = if x86_insn_has_immediate s then n + k + m else 0;
  dec_operand : operand_layout code s (n + k) m insn;
  dec_length : exists obits, In obits [16; 32; 64] /\
    (Z.land (d_prefix insn) INSN_PREFIX_OPERAND_SIZE = 0 -> obits <> 16) /\
    d_length insn = n + k + m + if x86_insn_has_immediate s then imm_extent (imm_type s) obits else 0;
}.

(** The stages after the opcode, run one after the other. *)
Definition decode_rest (rd : x86_insn_reader_t) (insn : x86_insn_decode_t) (conf : x86_options_t)
    : outcome x86_insn_decode_t :=
  '(rd, insn) ← (if x86_insn_has_modrm_byte (insn_spec insn)
                 then x86_insn_decode_modrm_sib rd insn conf else Ret (rd, insn));
  '(rd, insn) ← (if x86_insn_has_immediate (insn_spec insn)
                 then x86_insn_decode_immediate rd insn conf else Ret (rd, insn));
  len ← reader_offset rd;
  Ret (with_length len insn).

(** The immediate and the final length. *)
Lemma decode_tail_ok conf code rd insn n k m :
  reader_ok rd -> buffer_cursor rd = n + k + m ->
  operands_ok (insn_spec insn) -> immediate_offset insn = 0 ->
  n + k + m + (if x86_insn_has_modrm_byte (insn_spec insn) then 4 else 8) <= 20 ->
  scan_prefix conf (window code) = (n, d_prefix insn, rex insn) -> operand_layout code (insn_spec insn) (n + k) m insn ->
  exists insn', decoded conf code n k m (primary_opcode insn) (insn_spec insn) insn' /\
   ('(rd, insn) ← (if x86_insn_has_immediate (insn_spec insn)
                   then x86_insn_decode_immediate rd insn conf else Ret (rd, insn));
    len ← reader_offset rd; Ret (with_length len insn)) = Ret insn'.
Proof.
  intros Hok Hc Hs Hz Hr Hp Hlay. pose proof (ro_cursor rd Hok).
  destruct (x86_insn_has_immediate (insn_spec insn)) eqn:Hi.
  - destruct (decode_immediate_ok rd insn conf Hok Hs Hi) as [v ->]; [lia|]. cbn [mbind outcome_bind].
    pose proof (imm_extent_range (imm_type (insn_spec insn)) (operand_bits insn conf)) as Hx.
    set (e := imm_extent _ _) in *.
    rewrite reader_offset_ok by
      (apply advance_ok; [done|lia|destruct (x86_insn_has_modrm_byte _); lia]).
    cbn [mbind outcome_bind]. eexists. split; [|reflexivity].
    split; simpl; rewrite ?Hi; try done.
    exists (operand_bits insn conf). split; [apply operand_bits_in|]. split; [apply operand_bits_32|].
    unfold e in *. lia.
  - cbn [mbind outcome_bind]. rewrite reader_offset_ok by done. cbn [mbind outcome_bind].
    eexists. split; [|reflexivity]. split; simpl; rewrite ?Hi; try done.
    exists 32. simpl. split; [tauto|]. split; [done|lia].
Qed.

Lemma abits_of_ok insn conf :
  mode conf = 32 \/ mode conf = 64 -> address_bits insn conf = Ret (abits_of conf (d_prefix insn)).
Proof. unfold address_bits, abits_of. intros [-> | ->]; reflexivity. Qed.

(** Everything after the opcode, from offset [n + k] of the window on. *)
Lemma decode_rest_ok conf code rd insn n k :
  reader_ok rd -> mem rd = window code -> buffer_cursor rd = n + k ->
  mode conf = 32 \/ mode conf = 64 -> 0 <= n <= 8 -> 1 <= k <= 2 ->
  operands_ok (insn_spec insn) -> immediate_offset insn = 0 -> displacement_offset insn = 0 ->
  scan_prefix conf (window code) = (n, d_prefix insn, rex insn) ->
  match (if x86_insn_has_modrm_byte (insn_spec insn) then
           modrm_extent (abits_of conf (d_prefix insn)) (rex insn) (win_byte code (n + k)) (win_byte code (n + k + 1))
         else Some 0) with
  | Some m => 0 <= m <= 6 /\ exists insn', decode_rest rd insn conf = Ret insn' /\
                decoded conf code n k m (primary_opcode insn) (insn_spec insn) insn'
  | None => decode_rest rd insn conf = Fatal
  end.
Proof.
  intros Hok Hm Hc Hmode Hn Hk Hs Hz Hdz Hp. unfold decode_rest.
  destruct (x86_insn_has_modrm_byte (insn_spec insn)) eqn:Hmod.
  - pose proof (decode_modrm_sib_ok rd insn conf _ Hok ltac:(lia) (abits_of_ok insn conf Hmode)) as Hd.
    unfold byte_at in Hd. rewrite Hm, Hc in Hd.
    fold (win_byte code (n + k)) (win_byte code (n + k + 1)) in Hd.
    destruct (modrm_extent _ _ _ _) as [m|]; [|by rewrite Hd].
    destruct Hd as [Hmr (i2 & K & Ei)]. rewrite Ei. cbn [mbind outcome_bind]. split; [lia|].
    assert (Hlay : operand_layout code (insn_spec i2) (n + k) m i2).
    { destruct (decode_modrm_sib_layout rd insn conf _ _ Hok ltac:(lia) Hdz Ei) as (Hb & h & z & Hh & Hz' & Ea & Ed).
      unfold operand_layout. rewrite (k_spec _ _ K), Hmod. unfold byte_at in Hb. rewrite Hm, Hc in Hb. split; [exact Hb|].
      apply (f_equal buffer_cursor) in Ea. rewrite !advance_cursor in Ea. exists h, z. rewrite Ed, Hc. split; [lia|]. split; [lia|]. by split; [lia|]. }
    destruct (decode_tail_ok conf code (advance rd m) i2 n k m) as (i3 & Hdec & ->);
      rewrite ?(k_spec _ _ K), ?(k_opcode _ _ K) in *; rewrite ?(k_immediate_offset _ _ K), ?Hmod; try done.
    + apply advance_ok; [done|lia|lia].
    + rewrite advance_cursor. lia.
    + lia.
    + by rewrite (k_prefix _ _ K), (k_rex _ _ K).
    + by exists i3.
  - cbn [mbind outcome_bind]. split; [lia|].
    destruct (decode_tail_ok conf code rd insn n k 0) as (i3 & Hdec & ->); rewrite ?Hmod; try done; try lia.
    { unfold operand_layout. by rewrite Hmod. }
    by exists i3.
Qed.

Lemma decode_runs conf code :
  bytes_ok code -> (15 <= length code)%nat -> mode conf = 32 \/ mode conf = 64 ->
  prefix_count conf code <= 8 ->
  match insn_parts conf code with
  | Ret (n, k, m, o, s) =>
      exists insn, x86_insn_decode insn_zero code conf = Ret insn /\
        decoded conf code n k m o s insn /\ 0 <= n <= 8 /\ 1 <= k <= 2 /\ 0 <= m <= 6
  | UB => False
  | Fatal => x86_insn_decode insn_zero code conf = Fatal
  end.
Proof.
  intros Hb Hl Hmode Hp. unfold x86_insn_decode, insn_parts, prefix_count in *.
  destruct (init_reader_ok code Hb Hl) as (rd & -> & Hok & Hc & Hm). cbn [mbind outcome_bind].
  pose proof (decode_prefix_ok conf insn_zero rd code Hc Hm) as Hpre. rewrite Hm in Hpre.
  fold (window code) in Hm, Hpre.
  destruct (scan_prefix conf (window code)) as [[n f] r] eqn:Es. simpl in Hp.
  destruct Hpre as [Hn ->]. cbn [mbind outcome_bind].
  rewrite decode_opcode_eq by (apply advance_ok || rewrite advance_cursor; done || lia).
  rewrite !advance_cursor, Hc, !byte_at_advance, Z.add_0_l. unfold byte_at. rewrite Hm.
  fold (win_byte code n) (win_byte code (n + 1)) (win_byte code (n + 2)).
  assert (Hwb : forall off, 0 <= win_byte code off < 256).
  { intros off. pose proof (byte_at_range rd off Hok) as H. unfold byte_at in H. by rewrite Hm in H. }
  destruct (lookup_opcode_ok (win_byte code n) (win_byte code (n + 1)) (win_byte code (n + 2))
              (Hwb _) (Hwb _)) as [->|(k & o & s & -> & Hk & Hs)]; [done|].
  cbn [mbind outcome_bind]. rewrite advance_advance. set (insn := with_insn_spec s _).
  assert (Hrex : rex insn = r) by apply rex_apply_rex.
  assert (Hz : immediate_offset insn = 0).
  { unfold insn, apply_rex. destruct (r =? 0); [done|]. simpl. by case_match. }
  assert (Hdz : displacement_offset insn = 0).
  { unfold insn, apply_rex. destruct (r =? 0); [done|]. simpl. by case_match. }
  pose proof (decode_rest_ok conf code (advance rd (n + k)) insn n k) as Hr.
  change (insn_spec insn) with s in Hr. change (primary_opcode insn) with o in Hr.
  change (d_prefix insn) with f in Hr. rewrite Hrex in Hr.
  specialize (Hr ltac:(apply advance_ok; done || lia) Hm ltac:(rewrite advance_cursor; lia)
                Hmode ltac:(lia) Hk Hs Hz Hdz Es).
  fold (decode_rest (advance rd (n + k)) insn conf).
  destruct (x86_insn_has_modrm_byte s); [destruct (modrm_extent _ _ _ _) as [m|]; [|done]|];
    destruct Hr as [Hmr (i & E & Hdec)]; exists i; (split; [exact E|]); (split; [exact Hdec|lia]).
Qed.

(** ** Properties *)

(** C23: On any readable code of at least 15 bytes, in 32- or 64-bit mode, with at most eight prefix bytes,
    the decoder never reads outside its 20-byte buffer, never indexes an opcode table out of range and never
    uses an unset variable. *)
Theorem decode_no_ub conf code :
  bytes_ok code -> (15 <= length code)%nat -> mode conf = 32 \/ mode conf = 64 ->
  prefix_count conf code <= 8 ->
  x86_insn_decode insn_zero code conf <> UB.
Proof.
  intros Hb Hl Hm Hp. pose proof (decode_runs conf code Hb Hl Hm Hp) as H.
  destruct (insn_parts conf code) as [[[[[n k] m] o] s]| |]; [|done|by rewrite H].
  destruct H as (insn & -> & _). done.
Qed.

Lemma sample_bytes_ok : bytes_ok ([0xf0; 0x0f; 0xb1; 0x94; 0x24; 0x10; 0x20; 0x30; 0x40] ++ replicate 6 0x90).
Proof. repeat constructor; unfold is_byte; lia. Qed.

(** [lock cmpxchg [esp + 0x40302010], edx] in 32-bit mode. *)
Example decode_no_ub_witness :
  x86_insn_decode insn_zero ([0xf0; 0x0f; 0xb1; 0x94; 0x24; 0x10; 0x20; 0x30; 0x40] ++ replicate 6 0x90)
    {| mode := 32 |} <> UB.
Proof.
  apply (decode_no_ub {| mode := 32 |}); [exact sample_bytes_ok|reflexivity|left; reflexivity|].
  vm_compute. discriminate.
Defined.

(** C25: The layout of a decoded instruction.  Whenever the decoder returns on at least 15 readable bytes, in 32- or
    64-bit mode and with at most eight prefixes, the instruction is a sequence of parts: the prefixes, an opcode of one or
    two bytes, and, where the opcode has operands in a ModR/M byte, that byte, at most one SIB byte and a displacement of
    at most four bytes, and last an immediate of one to four bytes where the opcode has one.  The recorded ModR/M byte is the
    one that follows the opcode, [displacement_offset] and [immediate_offset] are the positions of those parts, or 0 where there is
    none, and the length is the sum of all parts, at most 20. *)
Theorem decode_length_bounds conf code insn :
  bytes_ok code -> (15 <= length code)%nat -> mode conf = 32 \/ mode conf = 64 ->
  prefix_count conf code <= 8 ->
  x86_insn_decode insn_zero code conf = Ret insn ->
  exists opcode head disp imm, 1 <= opcode <= 2 /\ 0 <= head <= 2 /\ 0 <= disp <= 4 /\ 0 <= imm <= 4 /\
    let start := prefix_count conf code + opcode in
    (if x86_insn_has_modrm_byte (insn_spec insn) then 1 <= head /\ d_modrm insn = win_byte code start else head + disp = 0) /\
    displacement_offset insn = (if disp =? 0 then 0 else start + head) /\
    (if x86_insn_has_immediate (insn_spec insn) then 1 <= imm /\ immediate_offset insn = start + head + disp
     else imm = 0 /\ immediate_offset insn = 0) /\
    d_length insn = start + head + disp + imm /\ d_length insn <= 20.
Proof.
  intros Hb Hl Hm Hp E. pose proof (decode_runs conf code Hb Hl Hm Hp) as H. rewrite E in H.
  destruct (insn_parts conf code) as [[[[[n k] m] o] s]| |]; [|done|done].
  destruct H as (i & [= <-] & Hd & Hn & Hk & Hmr).
  pose proof (dec_prefix _ _ _ _ _ _ _ _ Hd) as Ep. unfold prefix_count. rewrite Ep. simpl fst.
  destruct (dec_length _ _ _ _ _ _ _ _ Hd) as (ob & Hob & _ & El).
  pose proof (dec_immediate_offset _ _ _ _ _ _ _ _ Hd) as Ei. pose proof (dec_operand _ _ _ _ _ _ _ _ Hd) as Hlay.
  rewrite (dec_spec _ _ _ _ _ _ _ _ Hd). pose proof (imm_extent_range (imm_type s) ob) as Hx. unfold operand_layout in Hlay.
  set (imm := if x86_insn_has_immediate s then imm_extent (imm_type s) ob else 0) in *.
  assert (Himm : 0 <= imm <= 4) by (unfold imm; destruct (x86_insn_has_immediate s); lia).
  assert (Htail : if x86_insn_has_immediate s then 1 <= imm /\ immediate_offset insn = n + k + m else imm = 0 /\ immediate_offset insn = 0).
  { unfold imm. destruct (x86_insn_has_immediate s); lia. }
  destruct (x86_insn_has_modrm_byte s).
  - destruct Hlay as (Hmod & h & z & Hh & Hz & -> & Hdisp). rewrite !Z.add_assoc in Htail, El. exists k, h, z, imm. cbv zeta. split_and!; try lia; done.
  - destruct Hlay as [-> Hdisp]. exists k, 0, 0, imm. cbv zeta. rewrite Z.add_0_r in Htail, El. rewrite !Z.add_0_r. split_and!; try lia; done.
Qed.

(** [mov word [rip + 0x04030201], 0x0605]: a prefix, the opcode, ModR/M at 2, the displacement at 3, the immediate at 7. *)
Example decode_length_bounds_witness :
  exists insn, x86_insn_decode insn_zero ([0x66; 0xc7; 0x05; 1; 2; 3; 4; 5; 6] ++ replicate 6 0x90) {| mode := 64 |}
    = Ret insn /\ displacement_offset insn = 3 /\ immediate_offset insn = 7 /\ d_length insn = 9 /\
  exists opcode head disp imm, 9 = 1 + opcode + head + disp + imm /\ 3 = (if disp =? 0 then 0 else 1 + opcode + head).
Proof.
  eexists. split; [vm_compute; reflexivity|]. split; [reflexivity|]. split; [reflexivity|]. split; [reflexivity|].
  destruct (decode_length_bounds {| mode := 64 |} ([0x66; 0xc7; 0x05; 1; 2; 3; 4; 5; 6] ++ replicate 6 0x90) _
    ltac:(repeat constructor; unfold is_byte; lia) ltac:(cbn; lia) ltac:(right; reflexivity) ltac:(vm_compute; discriminate)
    ltac:(vm_compute; reflexivity)) as (opcode & head & disp & imm & _ & _ & _ & _ & _ & Hdisp & _ & Hlen & _).
  exists opcode, head, disp, imm. split; [exact Hlen|exact Hdisp].
Defined.

(** The bound on the prefixes is needed: with thirteen of them the immediate of
    [mov dword [..+disp32], imm32] lies past the end of the 20-byte buffer and the decoder
    reads it. *)
Theorem decode_overread :
  x86_insn_decode insn_zero (replicate 13 0x2e ++ [0xc7; 0x84]) {| mode := 64 |} = UB.
Proof. vm_compute. reflexivity. Qed.

(** A 16-bit [mod = 0] addressing form other than [disp16] crashes the decoder instead of
    decoding with no displacement. *)
Theorem decode_addr16_fatal m rest :
  0 <= m < 64 -> modrm_rm m <> 6 -> (12 <= length rest)%nat -> bytes_ok rest ->
  x86_insn_decode insn_zero (0x67 :: 0x8b :: m :: rest) {| mode := 32 |} = Fatal.
Proof.
  intros Hm H6 Hl Hr. set (code := 0x67 :: _).
  assert (Hb : bytes_ok code) by (repeat constructor; unfold is_byte; try done; lia).
  pose proof (decode_runs {| mode := 32 |} code Hb ltac:(simpl; lia) (or_introl eq_refl)) as H.
  assert (Es : scan_prefix {| mode := 32 |} (window code) = (1, INSN_PREFIX_ADDRESS_SIZE, 0)) by reflexivity.
  unfold prefix_count, insn_parts in H. rewrite Es in H. simpl fst in H. specialize (H ltac:(lia)).
  change (win_byte code 1) with 0x8b in H.
  assert (El : exists s, lookup_opcode 0x8b (win_byte code (1 + 1)) (win_byte code (1 + 2)) = Ret (1, 0x8b, s)
                 /\ x86_insn_has_modrm_byte s = true) by (eexists; split; vm_compute; reflexivity).
  destruct El as (s & El & Hs). rewrite El in H. cbn [mbind outcome_bind] in H. rewrite Hs in H.
  change (win_byte code (1 + 1)) with m in H. change (abits_of _ _) with 16 in H.
  assert (Hmode : modrm_mode m = 0).
  { unfold modrm_mode. rewrite Z.shiftr_div_pow2, (Z.div_small m) by (simpl; lia). reflexivity. }
  unfold modrm_extent in H. rewrite Hmode in H. simpl (0 =? 3) in H. simpl (16 =? 16) in H. simpl (0 =? 0) in H.
  cbn iota in H. destruct (Z.eqb_spec (modrm_rm m) 6); done.
Qed.

Example decode_addr16_fatal_witness :
  x86_insn_decode insn_zero (0x67 :: 0x8b :: 0x07 :: replicate 12 0x90) {| mode := 32 |} = Fatal.
Proof.
  apply decode_addr16_fatal; [lia|vm_compute; discriminate|reflexivity|repeat constructor; unfold is_byte; lia].
Defined.
