(* ===== verification/X86Length.v ===== *)
(** * Instruction lengths: the decoder against the architecture

    [ref_length] is the length of a 64-bit-mode instruction according to the
    Intel SDM (volume 2, chapter 2 and the opcode maps of appendix A), for the
    default operand and address sizes and the general-purpose opcodes.  It shares
    no definition with the decoder.  The theorem at the end says on exactly which
    of these encodings the decoder computes that length. *)

From Stdlib Require Import String Ascii.
From S2P Require Import Prelude UtilityMacro X86Tables X86Decode X86DecodeFacts.
Import Reader Decoder.
#[local] Open Scope Z_scope.

(** ** The reference *)

Definition within (lo hi b : Z) : bool := (lo <=? b) && (b <=? hi).
Definition one_of (l : list Z) (b : Z) : bool := existsb (Z.eqb b) l.

(** The shape of what follows an opcode: a ModR/M byte or none, and the size of the
    immediate. *)
Definition plain (n : Z) : option (bool * Z) := Some (false, n).
Definition with_rm (n : Z) : option (bool * Z) := Some (true, n).

(** One-byte opcodes in 64-bit mode.  [w] is REX.W, [reg] the opcode extension of
    the ModR/M byte.  [None]: a prefix, an escape or an opcode 64-bit mode does not
    have. *)
Definition ref_form1 (b : Z) (w : bool) (reg : Z) : option (bool * Z) :=
  if within 0x00 0x3f b then
    let op := b mod 8 in
    if op <=? 3 then with_rm 0 else if op =? 4 then plain 1 else if op =? 5 then plain 4 else None
  else if within 0x50 0x5f b then plain 0
  else if b =? 0x63 then with_rm 0
  else if b =? 0x68 then plain 4
  else if b =? 0x69 then with_rm 4
  else if b =? 0x6a then plain 1
  else if b =? 0x6b then with_rm 1
  else if within 0x6c 0x6f b then plain 0
  else if within 0x70 0x7f b then plain 1
  else if one_of [0x80; 0x83] b then with_rm 1
  else if b =? 0x81 then with_rm 4
  else if within 0x84 0x8f b then with_rm 0
  else if b =? 0x9a then None
  else if within 0x90 0x9f b then plain 0
  else if within 0xa0 0xa3 b then plain 8
  else if b =? 0xa8 then plain 1
  else if b =? 0xa9 then plain 4
  else if within 0xa4 0xaf b then plain 0
  else if within 0xb0 0xb7 b then plain 1
  else if within 0xb8 0xbf b then plain (if w then 8 else 4)
  else if one_of [0xc0; 0xc1; 0xc6] b then with_rm 1
  else if one_of [0xc2; 0xca] b then plain 2
  else if b =? 0xc7 then with_rm 4
  else if b =? 0xc8 then plain 3
  else if b =? 0xcd then plain 1
  else if one_of [0xc3; 0xc9; 0xcb; 0xcc; 0xcf; 0xd7] b then plain 0
  else if within 0xd0 0xd3 b then with_rm 0
  else if within 0xd8 0xdf b then with_rm 0
  else if within 0xe0 0xe7 b then plain 1
  else if one_of [0xe8; 0xe9] b then plain 4
  else if b =? 0xeb then plain 1
  else if within 0xec 0xef b then plain 0
  else if b =? 0xf6 then with_rm (if reg <=? 1 then 1 else 0)
  else if b =? 0xf7 then with_rm (if reg <=? 1 then 4 else 0)
  else if one_of [0xfe; 0xff] b then with_rm 0
  else if one_of [0xf1; 0xf4; 0xf5] b then plain 0
  else if within 0xf8 0xfd b then plain 0
  else None.

(** Two-byte opcodes (after 0F), general-purpose instructions. *)
Definition ref_form2 (b : Z) : option (bool * Z) :=
  if one_of [0x00; 0x01; 0x02; 0x03; 0x0d] b then with_rm 0
  else if one_of [0x05; 0x06; 0x07; 0x08; 0x09; 0x0b] b then plain 0
  else if within 0x18 0x1f b then with_rm 0
  else if within 0x30 0x35 b then plain 0
  else if within 0x40 0x4f b then with_rm 0
  else if within 0x71 0x73 b then with_rm 1
  else if within 0x80 0x8f b then plain 4
  else if within 0x90 0x9f b then with_rm 0
  else if one_of [0xa0; 0xa1; 0xa2; 0xa8; 0xa9; 0xaa] b then plain 0
  else if one_of [0xa4; 0xac; 0xba] b then with_rm 1
  else if one_of [0xa3; 0xa5; 0xab; 0xad; 0xae; 0xaf] b then with_rm 0
  else if within 0xb0 0xc1 b then with_rm 0
  else if one_of [0xc3; 0xc7] b then with_rm 0
  else if within 0xc8 0xcf b then plain 0
  else None.

(** ModR/M byte, SIB byte and displacement together. *)
Definition ref_modrm_length (m s : Z) : Z :=
  let md := m / 64 in
  let rm := m mod 8 in
  let sib := (negb (md =? 3)) && (rm =? 4) in
  let disp :=
    if md =? 1 then 1
    else if md =? 2 then 4
    else if md =? 0 then
      (if (rm =? 5) || sib && (s mod 8 =? 5) then 4 else 0)
    else 0 in
  1 + (if sib then 1 else 0) + disp.

(** Prefix bytes: the number of them and the REX byte.  The operand- and
    address-size prefixes are not among them. *)
Definition ref_is_prefix (c : Z) : bool :=
  one_of [0xf0; 0xf2; 0xf3; 0x2e; 0x36; 0x3e; 0x26; 0x64; 0x65] c.

Fixpoint ref_prefixes (code : list Z) : Z * Z :=
  match code with
  | [] => (0, 0)
  | c :: code =>
      if ref_is_prefix c then let '(n, r) := ref_prefixes code in (n + 1, r)
      else if within 0x40 0x4f c then (1, c) else (0, 0)
  end.

Definition ref_byte (code : list Z) (off : Z) : Z := nth (Z.to_nat off) code 0.

(** Opcode length and shape of the instruction at the head of [code]. *)
Definition ref_shape (code : list Z) : option (Z * (bool * Z)) :=
  let '(n, r) := ref_prefixes code in
  let b0 := ref_byte code n in
  let b1 := ref_byte code (n + 1) in
  if b0 =? 0x0f then pair 2 <$> ref_form2 b1
  else pair 1 <$> ref_form1 b0 (Z.testbit r 3) (b1 / 8 mod 8).

Definition ref_length (code : list Z) : option Z :=
  let '(n, _) := ref_prefixes code in
  '(k, (rm, imm)) ← ref_shape code;
  let md := if (rm : bool) then ref_modrm_length (ref_byte code (n + k)) (ref_byte code (n + k + 1)) else 0 in
  Some (n + k + md + imm).

(** ** Where the decoder departs from it

    Opcodes whose row of the table lacks an operand or has it too short: the moffs
    forms of [mov], [mov r64, imm64], [enter], x87, groups 3 and 5, and of the two-byte
    map groups 6, 7, P, 12 to 16, 10, the multi-byte [nop] and [popcnt]. *)
Definition opcode_departs (b0 b1 : Z) (w : bool) : bool :=
  if b0 =? 0x0f then one_of [0x00; 0x01; 0x0d; 0xae; 0xb8; 0xb9] b1 || within 0x18 0x1f b1 || within 0x71 0x73 b1
  else within 0xa0 0xa3 b0 || w && within 0xb8 0xbf b0 || (b0 =? 0xc8) || within 0xd8 0xdf b0
       || one_of [0xf6; 0xf7; 0xff] b0.

(** SIB bytes without ModR/M displacement: the architecture adds a displacement for
    base 5 (and 13), the decoder for bases 7 and 14. *)
Definition sib_departs (rexb : bool) (m s : Z) : bool :=
  (m / 64 =? 0) && (m mod 8 =? 4) &&
  ((s mod 8 =? 5) || (if rexb then s mod 8 =? 6 else s mod 8 =? 7)).

Definition departs (code : list Z) : bool :=
  let '(n, r) := ref_prefixes code in
  let b0 := ref_byte code n in
  let k := if b0 =? 0x0f then 2 else 1 in
  opcode_departs b0 (ref_byte code (n + 1)) (Z.testbit r 3)
  || match ref_shape code with
     | Some (_, (true, _)) => sib_departs (Z.testbit r 0) (ref_byte code (n + k)) (ref_byte code (n + k + 1))
     | _ => false
     end.

(** ** The tables agree with the reference *)

Definition spec_imm (s : x86_insn_spec_t) : Z :=
  if x86_insn_has_immediate s then imm_extent (imm_type s) 32 else 0.

(** A row against the shape of the reference: equal, or strictly shorter and
    without a ModR/M byte where it departs. *)
Definition row_matches (dep : bool) (o : outcome (Z * Z * x86_insn_spec_t)) (k : Z) (f : option (bool * Z)) : bool :=
  match f with
  | None => true
  | Some (rm, imm) =>
      match o with
      | Ret (k', _, s) =>
          (k' =? k) &&
          if dep then negb (x86_insn_has_modrm_byte s) && (spec_imm s <? imm + (if rm then 1 else 0)) && (0 <=? imm)
          else Bool.eqb (x86_insn_has_modrm_byte s) rm && (spec_imm s =? imm)
      | _ => false
      end
  end.

Definition row1_matches (w : bool) (b0 reg : Z) : bool :=
  (b0 =? 0x0f) ||
  row_matches (opcode_departs b0 (8 * reg) w) (lookup_opcode b0 (8 * reg) 0) 1 (ref_form1 b0 w reg).
Definition row2_matches (b1 reg : Z) : bool :=
  row_matches (opcode_departs 0x0f b1 false) (lookup_opcode 0x0f b1 (8 * reg)) 2 (ref_form2 b1).

Lemma rows1_match w :
  forallb (fun b0 => forallb (row1_matches w b0) (Zrange 0 8)) (Zrange 0 256) = true.
Proof. destruct w; vm_compute; reflexivity. Qed.

Lemma rows2_match :
  forallb (fun b1 => forallb (row2_matches b1) (Zrange 0 8)) (Zrange 0 256) = true.
Proof. vm_compute. reflexivity. Qed.

(** Only the [reg] field of the ModR/M byte matters to the opcode stage. *)
Lemma modrm_reg_alt m : modrm_reg m = m / 8 mod 8.
Proof.
  unfold modrm_reg. change 7 with (Z.ones 3). rewrite Z.land_ones by lia.
  by rewrite Z.shiftr_div_pow2 by lia.
Qed.

Lemma resolve_group_reg s m : resolve_group s m = resolve_group s (8 * modrm_reg m).
Proof.
  unfold resolve_group. assert (E : modrm_reg (8 * modrm_reg m) = modrm_reg m); [|by rewrite E].
  pose proof (modrm_reg_range m). rewrite (modrm_reg_alt (8 * _)), (Z.mul_comm 8), Z.div_mul, Z.mod_small; lia.
Qed.

Lemma opcode_departs_1 b0 b1 b1' w : b0 <> 0x0f -> opcode_departs b0 b1 w = opcode_departs b0 b1' w.
Proof. intros. unfold opcode_departs. by destruct (Z.eqb_spec b0 0x0f). Qed.

Lemma row1_ok b0 b1 b2 w :
  0 <= b0 < 256 -> b0 <> 0x0f ->
  row_matches (opcode_departs b0 b1 w) (lookup_opcode b0 b1 b2) 1 (ref_form1 b0 w (b1 / 8 mod 8)) = true.
Proof.
  intros H0 Hne. pose proof (rows1_match w) as H.
  apply (forallb_Zrange _ 0 256) with (x := b0) in H; [|lia].
  apply (forallb_Zrange _ 0 8) with (x := modrm_reg b1) in H; [|apply modrm_reg_range].
  unfold row1_matches in H. destruct (Z.eqb_spec b0 0x0f) as [|_]; [done|]. simpl orb in H.
  rewrite <- modrm_reg_alt, (opcode_departs_1 b0 b1 (8 * modrm_reg b1)) by done.
  unfold lookup_opcode in *. destruct (Z.eqb_spec b0 0x0f) as [|_]; [done|].
  destruct (table_lookup _ _); [|done|done]. cbn [mbind outcome_bind] in *. by rewrite resolve_group_reg.
Qed.

Lemma row2_ok b1 b2 w :
  0 <= b1 < 256 ->
  row_matches (opcode_departs 0x0f b1 w) (lookup_opcode 0x0f b1 b2) 2 (ref_form2 b1) = true.
Proof.
  intros H1. pose proof rows2_match as H.
  apply (forallb_Zrange _ 0 256) with (x := b1) in H; [|lia].
  apply (forallb_Zrange _ 0 8) with (x := modrm_reg b2) in H; [|apply modrm_reg_range].
  unfold row2_matches, lookup_opcode in *. simpl Z.eqb in *. cbn iota in *.
  destruct (table_lookup _ _); [|done|done]. cbn [mbind outcome_bind] in *. by rewrite resolve_group_reg.
Qed.

(** ** ModR/M *)

Lemma modrm_mode_alt m : 0 <= m < 256 -> modrm_mode m = m / 64.
Proof.
  intros. unfold modrm_mode. change 3 with (Z.ones 2). rewrite Z.land_ones, Z.shiftr_div_pow2 by lia.
  apply Z.mod_small. split; [apply Z.div_pos; lia|apply Z.div_lt_upper_bound; simpl; lia].
Qed.

Lemma modrm_rm_alt m : modrm_rm m = m mod 8.
Proof. unfold modrm_rm. change 7 with (Z.ones 3). by rewrite Z.land_ones. Qed.

Lemma REX_B_alt r : REX_B r = Z.b2z (Z.testbit r 0).
Proof.
  unfold REX_B. rewrite Z.shiftr_0_r. change 1 with (Z.ones 1). rewrite Z.land_ones by lia.
  rewrite Z.bit0_mod. reflexivity.
Qed.

(** The decoder takes the SIB base for one without register. *)
Definition sib_no_base (rexb : bool) (s : Z) : bool :=
  if rexb then s mod 8 =? 6 else s mod 8 =? 7.

Lemma sib_disp_bits_64 r mod_ s d0 :
  sib_disp_bits 64 r mod_ s d0 =
    if sib_no_base (Z.testbit r 0) s then (if mod_ =? 1 then 8 else 32) else d0.
Proof.
  unfold sib_disp_bits, sib_no_base. rewrite REX_B_alt. change (sib_base s) with (modrm_rm s).
  rewrite modrm_rm_alt. assert (Hs : 0 <= s mod 8 < 8) by (apply Z.mod_pos_bound; lia).
  set (x := s mod 8) in *. cbv zeta. destruct (Z.testbit r 0).
  - each_index x 8%nat ltac:(vm_compute; reflexivity).
  - each_index x 8%nat ltac:(vm_compute; reflexivity).
Qed.

Lemma modrm_extent_ref r m s :
  0 <= m < 256 ->
  exists x, modrm_extent 64 r m s = Some x /\
    (x = ref_modrm_length m s <-> sib_departs (Z.testbit r 0) m s = false).
Proof.
  intros Hm. unfold modrm_extent, ref_modrm_length, sib_departs, modrm_disp_bits.
  rewrite sib_disp_bits_64, modrm_mode_alt, modrm_rm_alt by done. simpl (64 =? 16). cbn iota.
  fold (sib_no_base (Z.testbit r 0) s).
  assert (Hd : 0 <= m / 64 < 4) by (split; [apply Z.div_pos | apply Z.div_lt_upper_bound]; lia).
  assert (Hb : sib_no_base (Z.testbit r 0) s = true -> (s mod 8 =? 5) = false).
  { unfold sib_no_base. destruct (Z.testbit r 0); intros ->%Z.eqb_eq; done. }
  set (md := m / 64) in *. set (rm := m mod 8) in *.
  destruct (Z.eqb_spec md 3) as [->|]; [eexists; split; [done|]; simpl; done|].
  eexists. split; [reflexivity|]. cbv zeta. simpl negb. simpl andb.
  destruct (Z.eqb_spec rm 4) as [->|H4].
  - destruct (Z.eqb_spec md 1) as [->|]; [by destruct (sib_no_base _ _)|].
    destruct (Z.eqb_spec md 2) as [->|]; [by destruct (sib_no_base _ _)|].
    assert (md = 0) as -> by lia. simpl.
    destruct (sib_no_base _ s).
    + rewrite (Hb eq_refl). split; [by vm_compute|done].
    + destruct (s mod 8 =? 5); split; by vm_compute.
  - destruct (Z.eqb_spec md 0) as [->|]; simpl.
    + by destruct (rm =? 5).
    + destruct (Z.eqb_spec md 1) as [->|]; [done|]. assert (md = 2) as -> by lia. done.
Qed.

(** ** Prefixes *)

Lemma legacy_prefix_ref c :
  ref_is_prefix c = true -> legacy_prefix c <> 0 /\ within 0x40 0x4f c = false /\
    Z.land (legacy_prefix c) (Z.lor INSN_PREFIX_OPERAND_SIZE INSN_PREFIX_ADDRESS_SIZE) = 0.
Proof.
  unfold ref_is_prefix, one_of. intros (x & Hin & ->%Z.eqb_eq)%existsb_exists.
  repeat (destruct Hin as [<-|Hin]; [by vm_compute|]). destruct Hin.
Qed.

Lemma legacy_prefix_none c :
  ref_is_prefix c = false -> c <> 0x66 -> c <> 0x67 -> legacy_prefix c = 0.
Proof.
  unfold ref_is_prefix, one_of, legacy_prefix. cbn [existsb]. rewrite !orb_false_iff.
  intros H H1%Z.eqb_neq H2%Z.eqb_neq. rewrite H1, H2.
  repeat match goal with H : _ /\ _ |- _ => destruct H as [?E H] end.
  repeat match goal with E : (_ =? _) = false |- _ => rewrite E; clear E end. reflexivity.
Qed.

Lemma ref_prefixes_nonneg code : 0 <= fst (ref_prefixes code).
Proof.
  induction code as [|c code IH]; simpl; [lia|].
  destruct (ref_is_prefix c); [destruct (ref_prefixes code); simpl in *; lia|].
  destruct (within _ _ _); simpl; lia.
Qed.

(** The prefix loop sees what the reference sees, provided that what stops it is
    not an operand- or address-size prefix. *)
Lemma scan_prefix_ref conf code j pad n r :
  mode conf = 64 -> ref_prefixes code = (n, r) -> n < Z.of_nat j -> (j <= length code)%nat ->
  ref_byte code n <> 0x66 -> ref_byte code n <> 0x67 ->
  exists f, scan_prefix conf (take j code ++ pad) = (n, f, r) /\
    Z.land f (Z.lor INSN_PREFIX_OPERAND_SIZE INSN_PREFIX_ADDRESS_SIZE) = 0.
Proof.
  intros Hmode. revert j n. induction code as [|c code IH]; intros j n E Hn Hj H66 H67.
  { simpl in *. simplify_eq. lia. }
  pose proof (ref_prefixes_nonneg code) as Hnn.
  destruct j as [|j]; [pose proof (ref_prefixes_nonneg (c :: code)) as H; rewrite E in H; simpl in H; lia|].
  cbn [ref_prefixes] in E. cbn [take app scan_prefix]. rewrite Hmode. simpl (64 =? 64). simpl andb.
  fold (within 0x40 0x4f c).
  destruct (ref_is_prefix c) eqn:Ep.
  - apply legacy_prefix_ref in Ep as (Hl & -> & Hland).
    destruct (ref_prefixes code) as [n' r'] eqn:E'. simplify_eq. simpl in Hnn.
    assert (Hb : ref_byte (c :: code) (n' + 1) = ref_byte code n').
    { unfold ref_byte. by replace (Z.to_nat (n' + 1)) with (S (Z.to_nat n')) by lia. }
    rewrite Hb in *. simpl length in Hj.
    destruct (IH j n' eq_refl ltac:(lia) ltac:(lia) H66 H67) as (f & -> & Hf).
    destruct (Z.eqb_spec (legacy_prefix c) 0); [done|]. eexists. split; [done|].
    by rewrite Z.land_lor_distr_l, Hland, Hf.
  - destruct (within 0x40 0x4f c); simplify_eq; [by exists 0|].
    change (ref_byte (c :: code) 0) with c in *.
    rewrite legacy_prefix_none by done. by exists 0.
Qed.

Lemma ref_form1_sizes b w reg : b = 0x66 \/ b = 0x67 -> ref_form1 b w reg = None.
Proof. intros [-> | ->]; reflexivity. Qed.

Lemma ref_byte_window code off :
  (15 <= length code)%nat -> 0 <= off < 15 -> win_byte code off = ref_byte code off.
Proof.
  intros. unfold win_byte, ref_byte, window.
  rewrite app_nth1 by (rewrite length_take; lia).
  rewrite <- (firstn_skipn 15 code) at 2. rewrite app_nth1; [done|rewrite length_firstn; lia].
Qed.

(** ** Composition *)

(** The opcode stage on the bytes after the prefixes. *)
Lemma lookup_ref code n r k rm imm :
  bytes_ok code -> ref_prefixes code = (n, r) -> ref_shape code = Some (k, (rm, imm)) ->
  exists o s,
    lookup_opcode (ref_byte code n) (ref_byte code (n + 1)) (ref_byte code (n + 2)) = Ret (k, o, s) /\
    k = (if ref_byte code n =? 0x0f then 2 else 1) /\
    if opcode_departs (ref_byte code n) (ref_byte code (n + 1)) (Z.testbit r 3)
    then x86_insn_has_modrm_byte s = false /\ spec_imm s < imm + (if rm then 1 else 0) /\ 0 <= imm
    else x86_insn_has_modrm_byte s = rm /\ spec_imm s = imm.
Proof.
  intros Hb Hp Hs. unfold ref_shape in Hs. rewrite Hp in Hs.
  assert (Hr : forall off, 0 <= ref_byte code off < 256).
  { intros off. unfold ref_byte. destruct (nth_in_or_default (Z.to_nat off) code 0) as [Hin| ->]; [|lia].
    unfold bytes_ok in Hb. rewrite List.Forall_forall in Hb. by apply Hb in Hin. }
  assert (Hrow : row_matches (opcode_departs (ref_byte code n) (ref_byte code (n + 1)) (Z.testbit r 3))
            (lookup_opcode (ref_byte code n) (ref_byte code (n + 1)) (ref_byte code (n + 2)))
            (if ref_byte code n =? 0x0f then 2 else 1) (Some (rm, imm)) = true
          /\ k = if ref_byte code n =? 0x0f then 2 else 1).
  { destruct (Z.eqb_spec (ref_byte code n) 0x0f) as [E|E].
    - pose proof (row2_ok (ref_byte code (n + 1)) (ref_byte code (n + 2)) (Z.testbit r 3) (Hr _)) as H.
      destruct (ref_form2 _); simpl in Hs; simplify_eq. by rewrite E.
    - pose proof (row1_ok (ref_byte code n) (ref_byte code (n + 1)) (ref_byte code (n + 2))
                    (Z.testbit r 3) (Hr _) E) as H.
      destruct (ref_form1 _ _ _); simpl in Hs; simplify_eq. done. }
  destruct Hrow as [Hrow ->]. unfold row_matches in Hrow.
  destruct (lookup_opcode _ _ _) as [[[k' o] s]| |]; [|done|done].
  apply andb_true_iff in Hrow as [->%Z.eqb_eq Hrow]. exists o, s. split; [done|]. split; [done|].
  destruct (opcode_departs _ _ _).
  - rewrite !andb_true_iff, negb_true_iff, Z.ltb_lt, Z.leb_le in Hrow. tauto.
  - by rewrite andb_true_iff, Bool.eqb_true_iff, Z.eqb_eq in Hrow.
Qed.

Lemma ref_shape_sizes code n r x :
  ref_prefixes code = (n, r) -> ref_shape code = Some x -> ref_byte code n <> 0x66 /\ ref_byte code n <> 0x67.
Proof.
  intros Hp Hs. unfold ref_shape in Hs. rewrite Hp in Hs.
  split; intros E; rewrite E in Hs; simpl in Hs; discriminate.
Qed.

Lemma spec_imm_obits s obits :
  In obits [16; 32; 64] -> obits <> 16 ->
  (if x86_insn_has_immediate s then imm_extent (imm_type s) obits else 0) = spec_imm s.
Proof.
  intros H H16. unfold spec_imm, imm_extent. destruct (x86_insn_has_immediate s); [|done].
  destruct (Z.eqb_spec obits 16); done.
Qed.

Lemma ref_modrm_length_pos m s : 1 <= ref_modrm_length m s.
Proof. unfold ref_modrm_length. cbv zeta. repeat case_match; lia. Qed.

Lemma ref_byte_range code off : bytes_ok code -> 0 <= ref_byte code off < 256.
Proof.
  intros Hb. unfold ref_byte. destruct (nth_in_or_default (Z.to_nat off) code 0) as [Hin| ->]; [|lia].
  unfold bytes_ok in Hb. rewrite List.Forall_forall in Hb. by apply Hb in Hin.
Qed.

Lemma abits_of_64 conf f : mode conf = 64 -> Z.land f INSN_PREFIX_ADDRESS_SIZE = 0 -> abits_of conf f = 64.
Proof. intros Hm Hf. unfold abits_of. by rewrite Hm, Hf. Qed.

(** The decoder on an instruction the reference covers: what it adds up. *)
Lemma decode_length_parts conf code n r k rm imm :
  mode conf = 64 -> bytes_ok code -> (15 <= length code)%nat ->
  ref_prefixes code = (n, r) -> n <= 8 -> ref_shape code = Some (k, (rm, imm)) ->
  exists insn o s,
    x86_insn_decode insn_zero code conf = Ret insn /\
    lookup_opcode (ref_byte code n) (ref_byte code (n + 1)) (ref_byte code (n + 2)) = Ret (k, o, s) /\
    exists x, modrm_extent 64 r (ref_byte code (n + k)) (ref_byte code (n + k + 1)) = Some x /\
      d_length insn = n + k + (if x86_insn_has_modrm_byte s then x else 0) + spec_imm s.
Proof.
  intros Hmode Hb Hl Ep Hp Es.
  pose proof (ref_prefixes_nonneg code) as Hn. rewrite Ep in Hn. simpl in Hn.
  destruct (ref_shape_sizes code n r _ Ep Es) as [H66 H67].
  destruct (scan_prefix_ref conf code 15 (replicate 5 0xcc) n r) as (f & Hscan & Hf); [done|done|lia|done|done|done|].
  fold (window code) in Hscan. rewrite Z.land_lor_distr_r in Hf. apply Z.lor_eq_0_iff in Hf as [Hf1 Hf2].
  pose proof (decode_runs conf code Hb Hl (or_intror Hmode)) as Hrun.
  unfold prefix_count, insn_parts in Hrun. rewrite Hscan in Hrun. simpl fst in Hrun.
  specialize (Hrun Hp).
  destruct (lookup_ref code n r k rm imm Hb Ep Es) as (o & s & Hlook & Hk & _).
  assert (1 <= k <= 2) by (destruct (ref_byte code n =? 0x0f); lia).
  rewrite (ref_byte_window code n), (ref_byte_window code (n + 1)), (ref_byte_window code (n + 2)), Hlook
    in Hrun by (done || lia).
  cbn [mbind outcome_bind] in Hrun. rewrite !ref_byte_window in Hrun by (done || lia).
  rewrite abits_of_64 in Hrun by done.
  destruct (modrm_extent_ref r (ref_byte code (n + k)) (ref_byte code (n + k + 1))) as (x & Hx & _);
    [by apply ref_byte_range|].
  rewrite Hx in Hrun.
  destruct (x86_insn_has_modrm_byte s) eqn:Hmod; destruct Hrun as (insn & E & Hd & _); exists insn, o, s;
    rewrite Hmod; (split; [exact E|]); (split; [done|]); exists x; (split; [done|]);
    destruct (dec_length _ _ _ _ _ _ _ _ Hd) as (ob & Hob & H16 & ->);
    rewrite spec_imm_obits; try done; apply H16;
    pose proof (dec_prefix _ _ _ _ _ _ _ _ Hd) as P; congruence.
Qed.

(** C11: For every 64-bit-mode instruction the reference covers, with at most eight prefix bytes, the
    decoder returns, and the length it computes is the architectural length exactly when the encoding is not
    one of the listed departures (a table row without its operands, or a SIB byte whose base the decoder
    confuses). *)
Theorem decode_length_exact conf code L :
  mode conf = 64 -> bytes_ok code -> (15 <= length code)%nat -> fst (ref_prefixes code) <= 8 ->
  ref_length code = Some L ->
  exists insn, x86_insn_decode insn_zero code conf = Ret insn /\
    (d_length insn = L <-> departs code = false).
Proof.
  intros Hmode Hb Hl Hp HL. unfold ref_length, departs in *.
  destruct (ref_prefixes code) as [n r] eqn:Ep. simpl in Hp.
  destruct (ref_shape code) as [[k [rm imm]]|] eqn:Es; [|done]. simpl in HL. injection HL as <-.
  destruct (lookup_ref code n r k rm imm Hb Ep Es) as (o & s & Hlook & Hk & Hrow).
  destruct (decode_length_parts conf code n r k rm imm Hmode Hb Hl Ep Hp Es)
    as (insn & o' & s' & E & Hlook' & x & Hx & Hlen).
  rewrite Hlook in Hlook'. injection Hlook' as <- <-.
  destruct (modrm_extent_ref r (ref_byte code (n + k)) (ref_byte code (n + k + 1))) as (x' & Hx' & Hiff);
    [by apply ref_byte_range|].
  rewrite Hx in Hx'. injection Hx' as <-. rewrite <- Hk.
  pose proof (ref_modrm_length_pos (ref_byte code (n + k)) (ref_byte code (n + k + 1))) as Hpos.
  exists insn. split; [exact E|]. rewrite Hlen.
  destruct (opcode_departs _ _ _); simpl orb.
  - destruct Hrow as (-> & Hlt & Hi). destruct rm; split; done || lia.
  - destruct Hrow as (-> & ->). destruct rm; [rewrite <- Hiff; lia|split; done || lia].
Qed.

(** [mov rax, [rsp + 8]]: five bytes, and the decoder agrees. *)
Example decode_length_exact_witness :
  exists insn, x86_insn_decode insn_zero ([0x48; 0x8b; 0x44; 0x24; 0x08] ++ replicate 10 0x90) {| mode := 64 |}
    = Ret insn /\ (d_length insn = 5 <-> departs ([0x48; 0x8b; 0x44; 0x24; 0x08] ++ replicate 10 0x90) = false).
Proof.
  apply (decode_length_exact {| mode := 64 |}); try reflexivity.
  - repeat constructor; unfold is_byte; lia.
  - vm_compute. discriminate.
Defined.
