(* ===== verification/CodeMemBuffer.v ===== *)
(** * The growable code buffer (source/MemoryAllocator/CodeMemBuffer.h)

    [MemBuffer] owns a heap block of [buffer_capacity] bytes of which the first
    [buffer_size] are used; a byte [operator new] has not initialised is [None].
    [CodeMemBuffer] adds typed accesses.  [CodeBuffer] is the contract the
    assemblers rely on: an append-only byte string with random access to what was
    already emitted; [MemBuffer] implements it as long as the code stays below 2 GiB. *)

From S2P Require Import Prelude UtilityMacro.
#[local] Open Scope machine_scope.
#[local] Open Scope Z_scope.

Record MemBuffer := mkMemBuffer {
  buffer : list (option Z);
  buffer_size : Z;
  buffer_capacity : Z;
}.

(** [operator new(n)]. *)
Definition new_block (n : Z) : list (option Z) := replicate (Z.to_nat n) None.

Definition MemBuffer_new : MemBuffer :=
  {| buffer := new_block 64; buffer_size := 0; buffer_capacity := 64 |}.

Definition size (m : MemBuffer) : Z := buffer_size m.

(** [memcpy] out of the block; a negative [size] converts to a huge [size_t]. *)
Definition read (m : MemBuffer) (offset size : Z) : outcome (list (option Z)) :=
  if (0 <=? offset) && (0 <=? size) && (offset + size <=? Z.of_nat (length (buffer m)))
  then Ret (take (Z.to_nat size) (drop (Z.to_nat offset) (buffer m)))
  else UB.

Definition splice {A} (l : list A) (off : nat) (bs : list A) : list A :=
  take off l ++ bs ++ drop (off + length bs) l.

(** [memcpy] into the block. *)
Definition write (m : MemBuffer) (offset : Z) (in_buffer : list (option Z)) : outcome MemBuffer :=
  if (0 <=? offset) && (offset + Z.of_nat (length in_buffer) <=? Z.of_nat (length (buffer m)))
  then Ret {| buffer := splice (buffer m) (Z.to_nat offset) in_buffer;
              buffer_size := buffer_size m; buffer_capacity := buffer_capacity m |}
  else UB.

(** [while (new_capacity < wanted) new_capacity *= 2;] in 32-bit arithmetic.  After
    33 doublings the capacity is 0 and the loop never ends, which a C++ program may
    not do. *)
Fixpoint grow (fuel : nat) (new_capacity wanted : Z) : outcome Z :=
  match fuel with
  | O => UB
  | S fuel => if new_capacity <? wanted then grow fuel (u32 (new_capacity * 2)) wanted else Ret new_capacity
  end.

Definition ensure_capacity (m : MemBuffer) (in_size : Z) : outcome MemBuffer :=
  let wanted := u32 (buffer_size m + in_size) in
  if buffer_capacity m <? wanted then
    new_capacity ← grow 34 (u32 (buffer_capacity m * 2)) wanted;
    old ← read m 0 (buffer_size m);
    if buffer_size m <=? new_capacity then
      Ret {| buffer := splice (new_block new_capacity) 0 old;
             buffer_size := buffer_size m; buffer_capacity := new_capacity |}
    else UB
  else Ret m.

Definition emit (m : MemBuffer) (in_buffer : list (option Z)) : outcome MemBuffer :=
  let size := Z.of_nat (length in_buffer) in
  m ← ensure_capacity m size;
  m ← write m (buffer_size m) in_buffer;
  Ret {| buffer := buffer m; buffer_size := u32 (buffer_size m + size); buffer_capacity := buffer_capacity m |}.

(** The object representation of an [n]-byte integer, and back: using an
    uninitialised byte is undefined. *)
Definition to_object (n : nat) (v : Z) : list (option Z) := map Some (le_bytes n v).
Definition of_object (l : list (option Z)) : outcome Z :=
  match mapM id l with Some bs => Ret (le_val bs) | None => UB end.

Definition Load (n : nat) (m : MemBuffer) (offset : Z) : outcome Z :=
  l ← read m offset (Z.of_nat n); of_object l.
Definition Store (n : nat) (m : MemBuffer) (offset value : Z) : outcome MemBuffer :=
  write m offset (to_object n value).

Definition EmitBuffer (m : MemBuffer) (bs : list Z) : outcome MemBuffer := emit m (map Some bs).
Definition Emit (n : nat) (m : MemBuffer) (value : Z) : outcome MemBuffer := EmitBuffer m (le_bytes n value).

(** [dup]: the used bytes in a block of their own. *)
Definition dup (m : MemBuffer) : outcome (list (option Z)) := read m 0 (buffer_size m).

(** ** The contract of a code buffer *)

Class CodeBuffer (B : Type) := {
  cb_new : B;
  cb_size : B -> Z;
  cb_emit : B -> list Z -> outcome B;
  cb_load : B -> Z -> outcome Z;          (** a 32-bit word *)
  cb_store : B -> Z -> Z -> outcome B;    (** a 32-bit word *)
  cb_data : B -> outcome (list (option Z));
}.

(** [cb_rep b l]: the buffer holds exactly the bytes [l]. *)
Definition cb_limit : Z := 2 ^ 31.

Class CodeBufferLaws (B : Type) `{CodeBuffer B} := {
  cb_rep : B -> list Z -> Prop;
  cb_new_rep : cb_rep cb_new [];
  cb_size_rep : forall b l, cb_rep b l -> cb_size b = Z.of_nat (length l);
  cb_bytes_rep : forall b l, cb_rep b l -> bytes_ok l;
  cb_emit_rep : forall b l bs, cb_rep b l -> bytes_ok bs ->
    Z.of_nat (length l) + Z.of_nat (length bs) <= cb_limit ->
    exists b', cb_emit b bs = Ret b' /\ cb_rep b' (l ++ bs);
  cb_load_rep : forall b l off, cb_rep b l -> 0 <= off -> off + 4 <= Z.of_nat (length l) ->
    cb_load b off = Ret (le_val (take 4 (drop (Z.to_nat off) l)));
  cb_store_rep : forall b l off v, cb_rep b l -> 0 <= off -> off + 4 <= Z.of_nat (length l) ->
    exists b', cb_store b off v = Ret b' /\ cb_rep b' (splice l (Z.to_nat off) (le_bytes 4 v));
  cb_data_rep : forall b l, cb_rep b l -> cb_data b = Ret (map Some l);
}.

#[export] Instance MemBuffer_CodeBuffer : CodeBuffer MemBuffer := {
  cb_new := MemBuffer_new;
  cb_size := size;
  cb_emit := EmitBuffer;
  cb_load := Load 4;
  cb_store := Store 4;
  cb_data := dup;
}.

(** ** [MemBuffer] implements it *)

(** Invariant: the block has the recorded capacity, a power of two between 2^6 and
    2^31, and the used bytes are initialised. *)
Record membuffer_rep (m : MemBuffer) (l : list Z) : Prop := {
  mb_capacity : exists k, 6 <= k <= 31 /\ buffer_capacity m = 2 ^ k;
  mb_block : Z.of_nat (length (buffer m)) = buffer_capacity m;
  mb_size : buffer_size m = Z.of_nat (length l);
  mb_fits : buffer_size m <= buffer_capacity m;
  mb_used : take (length l) (buffer m) = map Some l;
  mb_bytes : bytes_ok l;
}.

Lemma length_splice {A} (l : list A) off bs :
  (off + length bs <= length l)%nat -> length (splice l off bs) = length l.
Proof. intros. unfold splice. rewrite !length_app, length_take, length_drop. lia. Qed.

Lemma take_splice {A} (l : list A) off bs n :
  (off + length bs <= n)%nat -> (n <= length l)%nat ->
  take n (splice l off bs) = splice (take n l) off bs.
Proof.
  intros. unfold splice.
  assert (Hl : length (take off l) = off) by (rewrite length_take; lia).
  rewrite firstn_app, Hl, (firstn_all2 (n := n) (take off l)) by lia.
  rewrite firstn_app, (firstn_all2 bs) by lia.
  rewrite take_take, Nat.min_l by lia. do 2 f_equal.
  rewrite firstn_skipn_comm. do 2 f_equal. lia.
Qed.

Lemma splice_end {A} (l : list A) bs : splice l (length l) bs = l ++ bs.
Proof. unfold splice. by rewrite take_ge, drop_ge, app_nil_r by lia. Qed.

Lemma splice_map {A B} (f : A -> B) l off bs : splice (map f l) off (map f bs) = map f (splice l off bs).
Proof. unfold splice. by rewrite !map_app, length_map, firstn_map, skipn_map. Qed.

Lemma bytes_ok_splice l off bs : bytes_ok l -> bytes_ok bs -> bytes_ok (splice l off bs).
Proof.
  intros. unfold splice. rewrite !bytes_ok_app. split; [by apply Forall_take|].
  split; [done|by apply Forall_drop].
Qed.

Lemma read_used m l off n :
  membuffer_rep m l -> 0 <= off -> 0 <= n -> off + n <= Z.of_nat (length l) ->
  read m off n = Ret (map Some (take (Z.to_nat n) (drop (Z.to_nat off) l))).
Proof.
  intros [_ Hb Hs Hf Hu _] Ho Hn Hle. unfold read.
  destruct (Z.leb_spec 0 off); [|lia]. destruct (Z.leb_spec 0 n); [|lia].
  destruct (Z.leb_spec (off + n) (Z.of_nat (length (buffer m)))); [|lia]. simpl. f_equal.
  rewrite <- firstn_map, <- skipn_map, <- Hu, skipn_firstn_comm, take_take. f_equal. lia.
Qed.

Lemma grow_ok wanted k fuel :
  0 <= k <= 31 -> wanted <= 2 ^ 31 -> (32 - k <= Z.of_nat fuel) ->
  exists j, k <= j <= 31 /\ wanted <= 2 ^ j /\ grow fuel (2 ^ k) wanted = Ret (2 ^ j).
Proof.
  revert k. induction fuel as [|fuel IH]; intros k Hk Hw Hf; [lia|]. cbn [grow].
  destruct (Z.ltb_spec (2 ^ k) wanted) as [Hlt|]; [|exists k; split; [lia|done]].
  assert (k < 31). { destruct (Z.eq_dec k 31) as [->|]; [simpl in *; lia|lia]. }
  replace (u32 (2 ^ k * 2)) with (2 ^ (k + 1)).
  - destruct (IH (k + 1)) as (j & Hj & Hwj & E); [lia|lia|lia|]. exists j. split; [lia|done].
  - rewrite Z.pow_add_r, wrap_small; [done| |lia|lia].
    split; [apply Z.mul_nonneg_nonneg; [apply Z.pow_nonneg|]; lia|].
    change (2 ^ k * 2) with (2 ^ k * 2 ^ 1). rewrite <- Z.pow_add_r by lia. apply Z.pow_lt_mono_r; lia.
Qed.

Lemma rep_length m l : membuffer_rep m l -> (length l <= length (buffer m))%nat.
Proof. intros [_ Hb Hs Hf _ _]. lia. Qed.

Lemma ensure_capacity_ok m l n :
  membuffer_rep m l -> 0 <= n -> Z.of_nat (length l) + n <= cb_limit ->
  exists m', ensure_capacity m n = Ret m' /\ membuffer_rep m' l /\
    Z.of_nat (length l) + n <= buffer_capacity m'.
Proof.
  intros Hm Hn Hlim. pose proof (rep_length m l Hm) as Hlen.
  pose proof Hm as [[k [Hk Hc]] Hb Hs Hf Hu Hby]. unfold ensure_capacity. unfold cb_limit in Hlim.
  rewrite Hs, (wrap_small 32 (_ + n)) by (simpl in *; lia).
  destruct (Z.ltb_spec (buffer_capacity m) (Z.of_nat (length l) + n)) as [Hlt|]; [|by exists m].
  rewrite Hc in *.
  assert (k < 31). { destruct (Z.eq_dec k 31) as [->|]; [simpl in *; lia|lia]. }
  assert (2 ^ (k + 1) <= 2 ^ 31) by (apply Z.pow_le_mono_r; lia).
  assert (E2 : 2 ^ (k + 1) = 2 ^ k * 2) by (rewrite Z.pow_add_r by lia; done).
  rewrite (wrap_small 32 (2 ^ k * 2)), <- E2 by (simpl in *; lia).
  destruct (grow_ok (Z.of_nat (length l) + n) (k + 1) 34) as (j & Hj & Hw & ->); [lia|done|lia|].
  cbn [mbind outcome_bind].
  rewrite (read_used m l) by (done || lia). cbn [mbind outcome_bind].
  destruct (Z.leb_spec (Z.of_nat (length l)) (2 ^ j)); [|lia].
  change (drop (Z.to_nat 0) l) with l. rewrite take_ge by lia.
  eexists. split; [reflexivity|]. split; [|done].
  split; cbn [buffer buffer_size buffer_capacity]; try done; try lia.
  - exists j. split; [lia|done].
  - rewrite length_splice; unfold new_block; rewrite ?length_map, length_replicate; lia.
  - unfold splice. change (take 0 (new_block (2 ^ j))) with (@nil (option Z)). rewrite app_nil_l. apply take_app_length'. by rewrite length_map.
Qed.

Lemma emit_ok m l bs :
  membuffer_rep m l -> bytes_ok bs -> Z.of_nat (length l) + Z.of_nat (length bs) <= cb_limit ->
  exists m', EmitBuffer m bs = Ret m' /\ membuffer_rep m' (l ++ bs).
Proof.
  intros Hm Hbs Hlim. unfold EmitBuffer, emit. rewrite length_map.
  destruct (ensure_capacity_ok m l (Z.of_nat (length bs)) Hm) as (m1 & -> & H1 & Hcap); [lia|done|].
  cbn [mbind outcome_bind]. unfold write. rewrite length_map, (mb_size m1 l H1).
  destruct (Z.leb_spec 0 (Z.of_nat (length l))); [|lia].
  pose proof (mb_block m1 l H1) as Hblk.
  destruct (Z.leb_spec (Z.of_nat (length l) + Z.of_nat (length bs)) (Z.of_nat (length (buffer m1)))); [|lia].
  cbn [andb mbind outcome_bind]. eexists. split; [reflexivity|].
  unfold cb_limit in Hlim.
  split; cbn [buffer buffer_size buffer_capacity].
  - apply (mb_capacity m1 l H1).
  - rewrite length_splice; [done|]. rewrite length_map. lia.
  - rewrite length_app, wrap_small by (simpl in *; lia). lia.
  - rewrite wrap_small by (simpl in *; lia). lia.
  - rewrite Nat2Z.id, take_splice by (rewrite ?length_map, length_app; lia).
    unfold splice. rewrite take_take, length_app, Nat.min_l, (mb_used m1 l H1), length_map by lia.
    rewrite drop_ge by (rewrite length_take; lia). by rewrite app_nil_r, map_app.
  - apply bytes_ok_app. split; [apply (mb_bytes m1 l H1)|done].
Qed.

Lemma of_object_map bs : of_object (map Some bs) = Ret (le_val bs).
Proof.
  unfold of_object. replace (mapM id (map Some bs)) with (Some bs); [done|].
  symmetry. induction bs as [|b bs IH]; [done|]. simpl. by rewrite IH.
Qed.

Lemma store_n_ok n m l off v :
  membuffer_rep m l -> 0 <= off -> off + Z.of_nat n <= Z.of_nat (length l) ->
  exists m', Store n m off v = Ret m' /\ membuffer_rep m' (splice l (Z.to_nat off) (le_bytes n v)).
Proof.
  intros Hm Ho Hle. pose proof (rep_length m l Hm) as Hlen. pose proof Hm as [Hk Hb Hs Hf Hu Hby].
  unfold Store, write, to_object. rewrite length_map, length_le_bytes.
  destruct (Z.leb_spec 0 off); [|lia].
  destruct (Z.leb_spec (off + Z.of_nat n) (Z.of_nat (length (buffer m)))); [|lia].
  eexists. split; [reflexivity|].
  assert (Hsp : length (splice l (Z.to_nat off) (le_bytes n v)) = length l)
    by (rewrite length_splice; rewrite ?length_le_bytes; lia).
  split; cbn [buffer buffer_size buffer_capacity]; rewrite ?Hsp; try done.
  - rewrite length_splice; rewrite ?length_map, ?length_le_bytes; lia.
  - rewrite take_splice by (rewrite ?length_map, ?length_le_bytes; lia). by rewrite Hu, splice_map.
  - apply bytes_ok_splice; [done|apply le_bytes_ok].
Qed.

Lemma store_ok m l off v :
  membuffer_rep m l -> 0 <= off -> off + 4 <= Z.of_nat (length l) ->
  exists m', Store 4 m off v = Ret m' /\ membuffer_rep m' (splice l (Z.to_nat off) (le_bytes 4 v)).
Proof. apply (store_n_ok 4). Qed.

Lemma new_ok : membuffer_rep MemBuffer_new [].
Proof. split; simpl; try done; [|constructor]. exists 6. split; [lia|done]. Qed.

Lemma load_n_ok n m l off :
  membuffer_rep m l -> 0 <= off -> off + Z.of_nat n <= Z.of_nat (length l) ->
  Load n m off = Ret (le_val (take n (drop (Z.to_nat off) l))).
Proof.
  intros Hm Ho Hle. unfold Load. rewrite (read_used m l) by (done || lia).
  cbn [mbind outcome_bind]. rewrite Nat2Z.id. apply of_object_map.
Qed.

Lemma buffer_load_ok m l off :
  membuffer_rep m l -> 0 <= off -> off + 4 <= Z.of_nat (length l) ->
  Load 4 m off = Ret (le_val (take 4 (drop (Z.to_nat off) l))).
Proof. apply (load_n_ok 4). Qed.

Lemma dup_ok m l : membuffer_rep m l -> dup m = Ret (map Some l).
Proof.
  intros Hm. unfold dup. rewrite (mb_size m l Hm), (read_used m l) by (done || lia).
  change (drop (Z.to_nat 0) l) with l. by rewrite take_ge by lia.
Qed.

#[export] Instance MemBuffer_laws : CodeBufferLaws MemBuffer := {
  cb_rep := membuffer_rep;
  cb_new_rep := new_ok;
  cb_size_rep := mb_size;
  cb_bytes_rep := mb_bytes;
  cb_emit_rep := emit_ok;
  cb_load_rep := buffer_load_ok;
  cb_store_rep := store_ok;
  cb_data_rep := dup_ok;
}.

(** ** Properties *)

Fixpoint emit_all (m : MemBuffer) (chunks : list (list Z)) : outcome MemBuffer :=
  match chunks with
  | [] => Ret m
  | bs :: chunks => m ← EmitBuffer m bs; emit_all m chunks
  end.

Lemma emit_all_rep chunks : forall m l,
  membuffer_rep m l -> Forall bytes_ok chunks -> Z.of_nat (length l + length (concat chunks)) <= cb_limit ->
  exists m', emit_all m chunks = Ret m' /\ membuffer_rep m' (l ++ concat chunks).
Proof.
  induction chunks as [|bs chunks IH]; intros m l Hm Hc Hlim; cbn [emit_all concat] in *.
  { exists m. by rewrite app_nil_r. }
  inversion Hc as [|? ? Hbs Hrest]; subst. rewrite length_app in Hlim.
  destruct (emit_ok m l bs Hm Hbs ltac:(lia)) as (m1 & -> & H1). cbn [mbind outcome_bind].
  destruct (IH m1 (l ++ bs) H1 Hrest) as (m2 & -> & H2); [rewrite length_app; lia|].
  exists m2. by rewrite <- app_assoc in H2.
Qed.

(** Emitting any sequence of byte strings of at most 2 GiB in total into a fresh buffer never faults and
    never leaves the growth loop running; the buffer then reads back as their concatenation, in a block that
    is large enough. *)
Theorem emit_all_dup chunks :
  Forall bytes_ok chunks -> Z.of_nat (length (concat chunks)) <= cb_limit ->
  exists m, emit_all MemBuffer_new chunks = Ret m /\ dup m = Ret (map Some (concat chunks)) /\
    buffer_size m <= buffer_capacity m /\ Z.of_nat (length (buffer m)) = buffer_capacity m.
Proof.
  intros Hc Hlim.
  destruct (emit_all_rep chunks MemBuffer_new [] new_ok Hc Hlim) as (m & E & Hm).
  exists m. split; [done|]. split; [exact (dup_ok m _ Hm)|].
  split; [apply (mb_fits m _ Hm)|apply (mb_block m _ Hm)].
Qed.

Example emit_all_dup_witness :
  exists m, emit_all MemBuffer_new (replicate 20 [1; 2; 3; 4]) = Ret m /\
    dup m = Ret (map Some (concat (replicate 20 [1; 2; 3; 4]))) /\
    buffer_size m <= buffer_capacity m /\ Z.of_nat (length (buffer m)) = buffer_capacity m.
Proof.
  apply emit_all_dup; [|vm_compute; discriminate].
  repeat constructor; unfold is_byte; lia.
Defined.

(** Patching a word of emitted code changes that word and nothing else: it loads back as the 32-bit value
    stored, every other aligned word and the size are as before. *)
Theorem store_load_word m l off v :
  membuffer_rep m l -> 0 <= off -> off + 4 <= Z.of_nat (length l) ->
  exists m', Store 4 m off v = Ret m' /\ size m' = size m /\ Load 4 m' off = Ret (u32 v) /\
    forall off', 0 <= off' -> off' + 4 <= Z.of_nat (length l) -> off' + 4 <= off \/ off + 4 <= off' ->
      Load 4 m' off' = Load 4 m off'.
Proof.
  intros Hm Ho Hle. destruct (store_ok m l off v Hm Ho Hle) as (m' & E & Hm'). exists m'.
  assert (Hlen : length (splice l (Z.to_nat off) (le_bytes 4 v)) = length l)
    by (rewrite length_splice; rewrite ?length_le_bytes; lia).
  split; [done|]. split; [unfold size; by rewrite (mb_size _ _ Hm'), (mb_size _ _ Hm), Hlen|].
  assert (Hload : forall o, 0 <= o -> o + 4 <= Z.of_nat (length l) ->
            Load 4 m' o = Ret (le_val (take 4 (drop (Z.to_nat o) (splice l (Z.to_nat off) (le_bytes 4 v)))))).
  { intros. apply (buffer_load_ok m' _ o Hm'); [done|]. by rewrite Hlen. }
  split.
  - rewrite Hload by done. unfold splice.
    rewrite drop_app_length' by (rewrite length_take; lia).
    rewrite take_app_length' by (by rewrite length_le_bytes). by rewrite le_val_bytes.
  - intros o' H0 H1 Hd. rewrite Hload by done.
    rewrite (buffer_load_ok m l o' Hm H0 H1). do 2 f_equal.
    destruct Hd; unfold splice.
    + rewrite !skipn_app, length_take.
      rewrite (firstn_app 4), length_drop, length_take.
      replace (4 - _)%nat with 0%nat by lia. rewrite firstn_O, app_nil_r.
      rewrite skipn_firstn_comm, take_take. f_equal. lia.
    + rewrite app_assoc, drop_app_ge by (rewrite length_app, length_take, length_le_bytes; lia).
      rewrite drop_drop, length_app, length_take, length_le_bytes. do 2 f_equal. lia.
Qed.

Example store_load_word_witness :
  exists m m', Emit 4 MemBuffer_new 0x58000011 = Ret m /\
    Store 4 m 0 0x58000051 = Ret m' /\ Load 4 m' 0 = Ret (u32 0x58000051).
Proof.
  destruct (emit_ok MemBuffer_new [] (le_bytes 4 0x58000011) new_ok (le_bytes_ok 4 _)) as (m & E & Hm);
    [vm_compute; discriminate|].
  destruct (store_load_word m _ 0 0x58000051 Hm) as (m' & E' & _ & El & _);
    [lia|vm_compute; discriminate|].
  exists m, m'. split; [exact E|]. split; [exact E'|exact El].
Defined.

(** The growth loop does not terminate for code past 2 GiB: at a capacity of 2^31 the doubled 32-bit
    capacity is 0, so whatever is emitted beyond it hangs. *)
Theorem ensure_capacity_hangs m l n :
  membuffer_rep m l -> buffer_capacity m = 2 ^ 31 -> 0 <= n < 2 ^ 31 ->
  2 ^ 31 < Z.of_nat (length l) + n < 2 ^ 32 ->
  ensure_capacity m n = UB.
Proof.
  intros Hm Hc Hn Hr. unfold ensure_capacity. rewrite (mb_size m l Hm), (wrap_small 32), Hc by lia.
  destruct (Z.ltb_spec (2 ^ 31) (Z.of_nat (length l) + n)); [|lia].
  assert (Hg : forall fuel, grow fuel 0 (Z.of_nat (length l) + n) = UB).
  { induction fuel as [|fuel IH]; [done|]. cbn [grow].
    destruct (Z.ltb_spec 0 (Z.of_nat (length l) + n)); [exact IH|lia]. }
  change (u32 (2 ^ 31 * 2)) with 0. by rewrite Hg.
Qed.

(** A full-size block of which two bytes are used. *)
Definition huge_buffer : MemBuffer :=
  {| buffer := Some 1 :: Some 2 :: replicate (Z.to_nat (2 ^ 31 - 2)) None;
     buffer_size := 2; buffer_capacity := 2 ^ 31 |}.

Lemma huge_buffer_rep : membuffer_rep huge_buffer [1; 2].
Proof.
  split; unfold huge_buffer; cbn [buffer buffer_size buffer_capacity].
  - exists 31. split; [lia|reflexivity].
  - cbn [length]. rewrite length_replicate, !Nat2Z.inj_succ, Z2Nat.id; lia.
  - reflexivity.
  - lia.
  - reflexivity.
  - repeat constructor; unfold is_byte; lia.
Qed.

Example ensure_capacity_hangs_witness : ensure_capacity huge_buffer (2 ^ 31 - 1) = UB.
Proof.
  apply (ensure_capacity_hangs huge_buffer [1; 2] (2 ^ 31 - 1) huge_buffer_rep eq_refl); cbn [length]; lia.
Defined.
