(* ===== verification/Arm64Kit.v ===== *)
(** * ARM64 instruction constants and field codecs

    The enumerators of source/core/arch/arm64/constants-arm64.h and
    source/InstructionRelocation/arm64/inst_constants.h that the assembler and the
    relocator use, and the offset codecs of inst_decode_encode_kit.h with their round trips. *)

From S2P Require Import Prelude UtilityMacro.
#[local] Open Scope machine_scope.
#[local] Open Scope Z_scope.

(** ** constants-arm64.h *)

Inductive Shift := NO_SHIFT | LSL | LSR | ASR | ROR | MSL.
Definition Shift_value (s : Shift) : Z :=
  match s with NO_SHIFT => -1 | LSL => 0 | LSR => 1 | ASR => 2 | ROR => 3 | MSL => 4 end.

Inductive Extend := NO_EXTEND | UXTB | UXTH | UXTW | UXTX | SXTB | SXTH | SXTW | SXTX.

Inductive AddrMode := Offset | PreIndex | PostIndex.

Definition kRdShift : Z := 0.
Definition kRnShift : Z := 5.
Definition kRmShift : Z := 16.
Definition kRtShift : Z := 0.
Definition kRt2Shift : Z := 10.

Definition ExceptionFixed : Z := 0xD4000000.
Definition BRK : Z := ExceptionFixed .| 0x00200000.

Definition UnconditionalBranchFixed : Z := 0x14000000.
Definition UnconditionalBranchFixedMask : Z := 0x7C000000.
Definition UnconditionalBranchMask : Z := 0xFC000000.
Definition B : Z := UnconditionalBranchFixed .| 0x00000000.
Definition BL : Z := UnconditionalBranchFixed .| 0x80000000.

Definition UnconditionalBranchToRegisterFixed : Z := 0xD6000000.
Definition BR : Z := UnconditionalBranchToRegisterFixed .| 0x001F0000.
Definition BLR : Z := UnconditionalBranchToRegisterFixed .| 0x003F0000.

Definition LoadRegLiteralFixed : Z := 0x18000000.
Definition LoadRegLiteralFixedMask : Z := 0x3B000000.
Definition LoadRegLiteralSub (opc V : Z) : Z :=
  LoadRegLiteralFixed .| LeftShift opc 2 30 .| LeftShift V 1 26.
Definition LDR_w_literal : Z := LoadRegLiteralSub 0 0.
Definition LDR_x_literal : Z := LoadRegLiteralSub 1 0.
Definition LDR_s_literal : Z := LoadRegLiteralSub 0 1.
Definition LDR_d_literal : Z := LoadRegLiteralSub 1 1.
Definition LDR_q_literal : Z := LoadRegLiteralSub 2 1.

(** [LOAD_STORE_OP_LIST]: the operations and their (size, V, opc) fields. *)
Inductive LoadStoreOp :=
| STRB_w | LDRB_w | LDRSB_x | LDRSB_w | STR_b | LDR_b | STR_q | LDR_q
| STRH_w | LDRH_w | LDRSH_x | LDRSH_w | STR_h | LDR_h
| STR_w | LDR_w | LDRSW | STR_s | LDR_s
| STR_x | LDR_x | PRFM | STR_d | LDR_d.

Definition LOAD_STORE_OP_LIST (op : LoadStoreOp) : Z * Z * Z :=
  match op with
  | STRB_w => (0, 0, 0) | LDRB_w => (0, 0, 1) | LDRSB_x => (0, 0, 2) | LDRSB_w => (0, 0, 3)
  | STR_b => (0, 1, 0) | LDR_b => (0, 1, 1) | STR_q => (0, 1, 2) | LDR_q => (0, 1, 3)
  | STRH_w => (1, 0, 0) | LDRH_w => (1, 0, 1) | LDRSH_x => (1, 0, 2) | LDRSH_w => (1, 0, 3)
  | STR_h => (1, 1, 0) | LDR_h => (1, 1, 1)
  | STR_w => (2, 0, 0) | LDR_w => (2, 0, 1) | LDRSW => (2, 0, 2) | STR_s => (2, 1, 0) | LDR_s => (2, 1, 1)
  | STR_x => (3, 0, 0) | LDR_x => (3, 0, 1) | PRFM => (3, 0, 2) | STR_d => (3, 1, 0) | LDR_d => (3, 1, 1)
  end.

Definition LoadStoreOpSub (size V opc : Z) : Z :=
  LeftShift size 2 30 .| LeftShift V 1 26 .| LeftShift opc 2 22.
Definition LoadStoreOp_value (op : LoadStoreOp) : Z :=
  let '(size, V, opc) := LOAD_STORE_OP_LIST op in LoadStoreOpSub size V opc.

Definition LoadStoreUnsignedOffsetFixed : Z := 0x39000000.
Definition LoadStoreUnsignedOffsetFixedMask : Z := 0x3B000000.

(** [LOAD_STORE_PAIR_OP_LIST]: (opc, V, L). *)
Inductive LoadStorePairOp :=
| STP_w | LDP_w | STP_s | LDP_s | LDPSW | STP_d | LDP_d | STP_x | LDP_x | STP_q | LDP_q.

Definition LOAD_STORE_PAIR_OP_LIST (op : LoadStorePairOp) : Z * Z * Z :=
  match op with
  | STP_w => (0, 0, 0) | LDP_w => (0, 0, 1) | STP_s => (0, 1, 0) | LDP_s => (0, 1, 1)
  | LDPSW => (1, 0, 1) | STP_d => (1, 1, 0) | LDP_d => (1, 1, 1)
  | STP_x => (2, 0, 0) | LDP_x => (2, 0, 1) | STP_q => (2, 1, 0) | LDP_q => (2, 1, 1)
  end.
Definition LoadStorePairOp_value (op : LoadStorePairOp) : Z :=
  let '(opc, V, L) := LOAD_STORE_PAIR_OP_LIST op in
  LeftShift opc 2 30 .| LeftShift V 1 26 .| LeftShift L 1 22.

Definition LoadStorePairOffsetFixed : Z := 0x29000000.
Definition LoadStorePairPostIndexFixed : Z := 0x28800000.
Definition LoadStorePairPreIndexFixed : Z := 0x29800000.
Definition LoadStorePairFixedMask : Z := 0x3B800000.

Definition SixtyFourBits : Z := 0x80000000.

Definition MoveWideImmediateFixed : Z := 0x12800000.
Definition MOVN : Z := 0x00000000.
Definition MOVZ : Z := 0x40000000.
Definition MOVK : Z := 0x60000000.

Definition AddSubImmediateFixed : Z := 0x11000000.
Definition AddSubImmediateOpSub (sf op S : Z) : Z :=
  AddSubImmediateFixed .| LeftShift sf 1 31 .| LeftShift op 1 30 .| LeftShift S 1 29.
Definition ADD_w_imm : Z := AddSubImmediateOpSub 0 0 0.
Definition SUB_w_imm : Z := AddSubImmediateOpSub 0 1 0.
Definition ADD_x_imm : Z := AddSubImmediateOpSub 1 0 0.
Definition SUB_x_imm : Z := AddSubImmediateOpSub 1 1 0.

Definition ORR : Z := 0x20000000.
Definition LogicalImmediateFixed : Z := 0x12000000.
Definition LogicalShiftedFixed : Z := 0x0A000000.

Definition PCRelAddressingFixed : Z := 0x10000000.
Definition PCRelAddressingFixedMask : Z := 0x1F000000.
Definition PCRelAddressingMask : Z := 0x9F000000.
Definition ADR : Z := PCRelAddressingFixed .| 0x00000000.
Definition ADRP : Z := PCRelAddressingFixed .| 0x80000000.

(** ** inst_constants.h *)

Definition CompareBranchFixed : Z := 0x34000000.
Definition CompareBranchFixedMask : Z := 0x7E000000.
Definition ConditionalBranchFixed : Z := 0x54000000.
Definition ConditionalBranchFixedMask : Z := 0xFE000000.
Definition TestBranchFixed : Z := 0x36000000.
Definition TestBranchFixedMask : Z := 0x7E000000.

(** ** inst_decode_encode_kit.h *)

Definition SignExtend (x M N : Z) : Z :=
  let sign_bit := bit x (M - 1) in
  let sign_mask := u64 (0 - sign_bit) in
  let x := x .| u64 ((sign_mask >> M) << M) in
  i64 x.

Definition decode_imm14_offset (instr : Z) : Z :=
  let imm14 := bits instr 5 18 in
  let offset := imm14 << 2 in
  SignExtend offset (2 + 14) 64.
Definition encode_imm14_offset (instr offset : Z) : Z :=
  let imm14 := u32 (bits (offset >> 2) 0 13) in
  set_bits instr 5 18 imm14.

Definition decode_imm19_offset (instr : Z) : Z :=
  let imm19 := bits instr 5 23 in
  let offset := imm19 << 2 in
  SignExtend offset (2 + 19) 64.
Definition encode_imm19_offset (instr offset : Z) : Z :=
  let imm19 := u32 (bits (offset >> 2) 0 18) in
  set_bits instr 5 23 imm19.

Definition decode_imm26_offset (instr : Z) : Z :=
  let imm26 := bits instr 0 25 in
  let offset := imm26 << 2 in
  SignExtend offset (2 + 26) 64.
Definition encode_imm26_offset (instr offset : Z) : Z :=
  let imm26 := u32 (bits (offset >> 2) 0 25) in
  set_bits instr 0 25 imm26.

(** The bit-field struct: [Rd:5 immhi:19 dummy:5 immlo:2 op:1]; an assignment to a
    member keeps the low bits of the value. *)
Definition decode_immhi_immlo_offset (instr : Z) : Z :=
  let immhi := bits instr 5 23 in
  let immlo := bits instr 29 30 in
  let imm := u32 (immlo + (immhi << 2)) in
  SignExtend imm (2 + 19) 64.
Definition encode_immhi_immlo_offset (instr offset : Z) : Z :=
  let instr := set_bits instr 29 30 (wrap 2 (bits offset 0 2)) in
  set_bits instr 5 23 (wrap 19 (bits offset 2 (2 + 19))).

Definition decode_immhi_immlo_zero12_offset (instr : Z) : Z :=
  decode_immhi_immlo_offset instr << 12.
Definition encode_immhi_immlo_zero12_offset (instr offset : Z) : Z :=
  encode_immhi_immlo_offset instr (offset >> 12).

Definition decode_rt (instr : Z) : Z := bits instr 0 4.
Definition decode_rd (instr : Z) : Z := bits instr 0 4.

(** ** The codecs against arithmetic *)

(** [SignExtend] is two's-complement sign extension of an [M]-bit value. *)
Lemma SignExtend_sext x M : 0 < M < 64 -> 0 <= x < 2 ^ M -> SignExtend x M 64 = sext M x.
Proof.
  intros HM Hx. unfold SignExtend. rewrite bit_testbit by lia.
  assert (E : 2 ^ M = 2 * 2 ^ (M - 1)) by (rewrite <- Z.pow_succ_r by lia; f_equal; lia).
  assert (2 ^ M <= 2 ^ 63) by (apply Z.pow_le_mono_r; lia).
  assert (Hlt : 2 ^ (M - 1) < 2 ^ 63) by (apply Z.pow_lt_mono_r; lia).
  rewrite Z.testbit_eqb by lia.
  unfold sext at 2. rewrite (Z.mod_small x) by lia.
  destruct (Z.ltb_spec x (2 ^ (M - 1))) as [Hs|Hs].
  - rewrite Z.div_small by lia. simpl (Z.b2z _). change (u64 (0 - 0)) with 0.
    rewrite Z.shiftr_0_l, Z.shiftl_0_l. change (u64 0) with 0. rewrite Z.lor_0_r.
    apply sext_small; simpl; lia.
  - replace (x / 2 ^ (M - 1)) with 1 by (apply Z.div_unique with (x - 2 ^ (M - 1)); lia).
    simpl (Z.b2z _). change (u64 (0 - 1)) with (Z.ones 64).
    assert (Em : u64 (Z.shiftl (Z.shiftr (Z.ones 64) M) M) = 2 ^ 64 - 2 ^ M).
    { rewrite Z.shiftr_div_pow2, Z.shiftl_mul_pow2, Z.ones_equiv by lia.
      assert (Hd : Z.pred (2 ^ 64) / 2 ^ M = 2 ^ (64 - M) - 1).
      { symmetry. apply Z.div_unique with (2 ^ M - 1); [lia|].
        replace (2 ^ 64) with (2 ^ M * 2 ^ (64 - M)); [lia|].
        rewrite <- Z.pow_add_r by lia. f_equal. lia. }
      rewrite Hd, Z.mul_sub_distr_r, <- Z.pow_add_r by lia.
      replace (64 - M + M) with 64 by lia. rewrite Z.mul_1_l. apply wrap_small. lia. }
    rewrite Em.
    assert (Hdis : Z.land x (2 ^ 64 - 2 ^ M) = 0).
    { apply Z.bits_inj'. intros i Hi. rewrite Z.land_spec, Z.testbit_0_l.
      destruct (Z.ltb_spec i M).
      - replace (2 ^ 64 - 2 ^ M) with ((2 ^ (64 - M) - 1) * 2 ^ M).
        + rewrite Z.mul_pow2_bits_low by lia. apply andb_false_r.
        + rewrite Z.mul_sub_distr_r, <- Z.pow_add_r, Z.mul_1_l by lia. by replace (64 - M + M) with 64 by lia.
      - rewrite (testbit_high M x) by lia. done. }
    rewrite lor_disjoint_add by done.
    unfold sext. rewrite Z.mod_small by lia.
    destruct (Z.ltb_spec (x + (2 ^ 64 - 2 ^ M)) (2 ^ (64 - 1))) as [Hc|]; [|lia].
    change (2 ^ (64 - 1)) with (2 ^ 63) in Hc. lia.
Qed.

Lemma sext_mod w z : 0 < w -> sext w (z mod 2 ^ w) = sext w z.
Proof. intros. unfold sext. by rewrite Zmod_mod. Qed.

(** A word offset stored in an [n]-bit field comes back sign-extended. *)
Lemma word_field_sext n offset :
  0 < n < 62 -> offset mod 4 = 0 -> - 2 ^ (n + 1) <= offset < 2 ^ (n + 1) ->
  SignExtend (bits (offset >> 2) 0 (n - 1) << 2) (2 + n) 64 = offset.
Proof.
  intros Hn H4 Hr.
  rewrite bits_alt, Z.div_1_r, Z.shiftr_div_pow2, Z.shiftl_mul_pow2 by lia.
  replace (n - 1 - 0 + 1) with n by lia. change (2 ^ 2) with 4.
  assert (E : offset / 4 mod 2 ^ n * 4 = offset mod 2 ^ (2 + n)).
  { rewrite Z.mul_comm, <- Z.mul_mod_distr_l by (try apply Z.pow_nonzero; lia).
    rewrite Z.pow_add_r by lia. f_equal. pose proof (Z.div_mod offset 4 ltac:(lia)). lia. }
  rewrite E, SignExtend_sext by (try lia; apply Z.mod_pos_bound, Z.pow_pos_nonneg; lia).
  rewrite sext_mod, sext_small by (replace (2 + n - 1) with (n + 1) by lia; lia). done.
Qed.

Lemma bits_wrap_small x st fn w : 0 <= st <= fn -> fn - st + 1 <= w -> wrap w (bits x st fn) = bits x st fn.
Proof.
  intros Hs Hw. apply wrap_small. pose proof (bits_range x st fn Hs).
  assert (2 ^ (fn - st + 1) <= 2 ^ w) by (apply Z.pow_le_mono_r; lia). lia.
Qed.

(** [same_outside st fn a b]: the two instructions differ at most in that field. *)
Definition same_outside (st fn a b : Z) : Prop :=
  forall i, 0 <= i < 32 -> ~ (st <= i <= fn) -> Z.testbit a i = Z.testbit b i.

Lemma set_bits_same_outside instr st fn v :
  0 <= st <= fn -> fn < 32 -> 0 <= v < 2 ^ (fn - st + 1) -> same_outside st fn (set_bits instr st fn v) instr.
Proof.
  intros ??? i Hi Ho. rewrite testbit_set_bits by lia. zbit_split; simpl; done || lia.
Qed.

(** What the ADR fields hold. *)
Lemma immhi_immlo_split offset :
  bits offset 0 1 + (bits offset 2 20 << 2) = offset mod 2 ^ 21.
Proof.
  rewrite !bits_alt, Z.shiftl_mul_pow2, Z.div_1_r by lia.
  change (1 - 0 + 1) with 2. change (20 - 2 + 1) with 19.
  change (2 ^ 21) with (2 ^ 2 * 2 ^ 19). rewrite Z.rem_mul_r by lia. lia.
Qed.

Lemma wrap_bits offset st fn w : 0 <= st -> 0 < w -> st + w - 1 <= fn ->
  wrap w (bits offset st fn) = bits offset st (st + w - 1).
Proof. intros. zbits. Qed.

Lemma decode_immhi_immlo_sext instr :
  decode_immhi_immlo_offset instr = sext 21 (bits instr 29 30 + (bits instr 5 23 << 2)).
Proof.
  unfold decode_immhi_immlo_offset.
  pose proof (bits_range instr 29 30 ltac:(lia)). pose proof (bits_range instr 5 23 ltac:(lia)).
  rewrite Z.shiftl_mul_pow2 by lia. simpl in *.
  rewrite (wrap_small 32), SignExtend_sext by (simpl; lia). done.
Qed.

(** ** Properties *)

(** The three branch-offset codecs round trip: an offset that is a multiple of four and in the range of the
    field is read back exactly, and encoding changes no bit outside the field. *)
Theorem branch_offset_roundtrip instr offset :
  offset mod 4 = 0 ->
  (- 2 ^ 15 <= offset < 2 ^ 15 ->
     decode_imm14_offset (encode_imm14_offset instr offset) = offset /\
     same_outside 5 18 (encode_imm14_offset instr offset) instr) /\
  (- 2 ^ 20 <= offset < 2 ^ 20 ->
     decode_imm19_offset (encode_imm19_offset instr offset) = offset /\
     same_outside 5 23 (encode_imm19_offset instr offset) instr) /\
  (- 2 ^ 27 <= offset < 2 ^ 27 ->
     decode_imm26_offset (encode_imm26_offset instr offset) = offset /\
     same_outside 0 25 (encode_imm26_offset instr offset) instr).
Proof.
  intros H4.
  unfold decode_imm14_offset, encode_imm14_offset, decode_imm19_offset, encode_imm19_offset,
    decode_imm26_offset, encode_imm26_offset.
  rewrite !(bits_wrap_small (offset >> 2)) by lia.
  pose proof (bits_range (offset >> 2) 0 13 ltac:(lia)) as R14.
  pose proof (bits_range (offset >> 2) 0 18 ltac:(lia)) as R19.
  pose proof (bits_range (offset >> 2) 0 25 ltac:(lia)) as R26.
  split; [|split]; intros Hr; (split; [|apply set_bits_same_outside; done || lia]);
    rewrite bits_set_bits_same by (done || lia).
  - by apply (word_field_sext 14).
  - by apply (word_field_sext 19).
  - by apply (word_field_sext 26).
Qed.

Example branch_offset_roundtrip_witness :
  decode_imm19_offset (encode_imm19_offset 0x54000001 (-4096)) = -4096.
Proof. apply (branch_offset_roundtrip 0x54000001 (-4096)); [reflexivity|lia]. Defined.

(** The ADR codec round trips over its whole signed 21-bit range, the ADRP codec over the page-aligned
    signed 33-bit range, and neither touches the register, the opcode bits or the ADR/ADRP bit. *)
Theorem adr_offset_roundtrip instr offset :
  (- 2 ^ 20 <= offset < 2 ^ 20 ->
     decode_immhi_immlo_offset (encode_immhi_immlo_offset instr offset) = offset) /\
  (offset mod 4096 = 0 -> - 2 ^ 32 <= offset < 2 ^ 32 ->
     decode_immhi_immlo_zero12_offset (encode_immhi_immlo_zero12_offset instr offset) = offset) /\
  (forall i, 0 <= i < 5 \/ 24 <= i < 29 \/ i = 31 ->
     Z.testbit (encode_immhi_immlo_offset instr offset) i = Z.testbit instr i).
Proof.
  assert (Hrt : forall o, - 2 ^ 20 <= o < 2 ^ 20 ->
            decode_immhi_immlo_offset (encode_immhi_immlo_offset instr o) = o).
  { intros o Hr. rewrite decode_immhi_immlo_sext. unfold encode_immhi_immlo_offset.
    rewrite !wrap_bits by lia. simpl (0 + 2 - 1). simpl (2 + 19 - 1).
    pose proof (bits_range o 0 1 ltac:(lia)) as R1. pose proof (bits_range o 2 20 ltac:(lia)) as R2.
    rewrite (bits_set_bits_other _ 5 23 _ 29 30) by (done || lia).
    rewrite !bits_set_bits_same, immhi_immlo_split by (done || lia).
    rewrite sext_mod, sext_small by (simpl; lia). done. }
  split; [by apply Hrt|]. split.
  - intros H12 Hr. unfold decode_immhi_immlo_zero12_offset, encode_immhi_immlo_zero12_offset.
    rewrite Z.shiftr_div_pow2, Z.shiftl_mul_pow2 by lia. change (2 ^ 12) with 4096.
    pose proof (Z.div_mod offset 4096 ltac:(lia)). rewrite Hrt; simpl in *; lia.
  - intros i Hi. unfold encode_immhi_immlo_offset. rewrite !wrap_bits by lia.
    pose proof (bits_range offset 0 1 ltac:(lia)) as R1. pose proof (bits_range offset 2 20 ltac:(lia)) as R2.
    simpl (0 + 2 - 1). simpl (2 + 19 - 1).
    rewrite !testbit_set_bits by (done || lia). zbit_split; simpl; done || lia.
Qed.

(** The load/store and load/store-pair operation codes are pairwise distinct, and each lies outside the
    addressing-mode bits it is combined with, so an encoding determines its operation. *)
Theorem load_store_ops_distinct :
  (forall op op', LoadStoreOp_value op = LoadStoreOp_value op' -> op = op') /\
  (forall op, LoadStoreOp_value op .& LoadStoreUnsignedOffsetFixedMask = 0) /\
  (forall op op', LoadStorePairOp_value op = LoadStorePairOp_value op' -> op = op') /\
  (forall op, LoadStorePairOp_value op .& LoadStorePairFixedMask = 0).
Proof.
  split; [|split; [|split]].
  - intros [] []; vm_compute; intros; congruence.
  - intros []; reflexivity.
  - intros [] []; vm_compute; intros; congruence.
  - intros []; reflexivity.
Qed.
