(* ===== verification/Arm64Assembler.v ===== *)
(** * The ARM64 assembler

    registers-arm64.h, assembler.h, pseudo_label.h, assembler-arm64.h and
    codegen-arm64.h.  An assembler is its code buffer and the data labels created so
    far; a [RelocDataLabel *] is the index of the label in [data_labels], so that the
    references [Ldr] records through the pointer are seen by [relocDataLabels].  The
    buffer is any implementation of [CodeBuffer]. *)

From S2P Require Import Prelude UtilityMacro CodeMemBuffer Arm64Kit.
#[local] Open Scope machine_scope.
#[local] Open Scope Z_scope.

(** ** registers-arm64.h *)

Inductive RegisterType :=
| kRegister_32 | kRegister_64 | kRegister | kVRegister
| kSIMD_FP_Register_8 | kSIMD_FP_Register_16 | kSIMD_FP_Register_32 | kSIMD_FP_Register_64
| kSIMD_FP_Register_128 | kInvalid.

Definition RegisterType_value (t : RegisterType) : Z :=
  match t with
  | kRegister_32 => 0 | kRegister_64 => 1 | kRegister => 2 | kVRegister => 3
  | kSIMD_FP_Register_8 => 4 | kSIMD_FP_Register_16 => 5 | kSIMD_FP_Register_32 => 6
  | kSIMD_FP_Register_64 => 7 | kSIMD_FP_Register_128 => 8 | kInvalid => 9
  end.

Record CPURegister := { reg_id : Z; reg_size_ : Z; reg_type_ : RegisterType }.

Definition X (code : Z) : CPURegister := {| reg_id := code; reg_size_ := 64; reg_type_ := kRegister_64 |}.
Definition W (code : Z) : CPURegister := {| reg_id := code; reg_size_ := 32; reg_type_ := kRegister_32 |}.
Definition Q (code : Z) : CPURegister := {| reg_id := code; reg_size_ := 128; reg_type_ := kSIMD_FP_Register_128 |}.
Definition InvalidRegister : CPURegister := {| reg_id := 0; reg_size_ := 0; reg_type_ := kInvalid |}.

(** Only the register number is compared. *)
Definition Is (r reg : CPURegister) : bool := reg_id reg =? reg_id r.
Definition Is64Bits (r : CPURegister) : bool := reg_size_ r =? 64.
Definition IsRegister (r : CPURegister) : bool := RegisterType_value (reg_type_ r) <? RegisterType_value kRegister.
Definition IsVRegister (r : CPURegister) : bool := RegisterType_value kVRegister <? RegisterType_value (reg_type_ r).
Definition code (r : CPURegister) : Z := reg_id r.

Definition SP : CPURegister := X 31.
Definition xzr : CPURegister := X 31.
Definition wzr : CPURegister := W 31.
Definition TMP_REG_0 : CPURegister := X 17.

Definition Rd (r : CPURegister) : Z := code r << kRdShift.
Definition Rt (r : CPURegister) : Z := code r << kRtShift.
Definition Rt2 (r : CPURegister) : Z := code r << kRt2Shift.
Definition Rn (r : CPURegister) : Z := code r << kRnShift.
Definition Rm (r : CPURegister) : Z := code r << kRmShift.

Definition Low16Bits (value : Z) : Z := u16 (value .& 0xffff).
Definition High16Bits (value : Z) : Z := u16 (value >> 16).
Definition Low32Bits (value : Z) : Z := u32 value.
Definition High32Bits (value : Z) : Z := u32 (value >> 32).

(** ** Operands *)

Record Operand := {
  o_immediate : Z;
  o_reg : CPURegister;
  o_shift : Shift;
  o_extend : Extend;
  o_shift_extend_imm : Z;
}.

Definition Operand_imm (imm : Z) : Operand :=
  {| o_immediate := imm; o_reg := InvalidRegister; o_shift := NO_SHIFT; o_extend := NO_EXTEND;
     o_shift_extend_imm := 0 |}.
Definition Operand_reg (reg : CPURegister) (shift : Shift) (shift_imm : Z) : Operand :=
  {| o_immediate := 0; o_reg := reg; o_shift := shift; o_extend := NO_EXTEND;
     o_shift_extend_imm := shift_imm |}.

Definition IsImmediate (o : Operand) : bool := Is (o_reg o) InvalidRegister.

Record MemOperand := { m_base : CPURegister; m_offset : Z; m_addrmode : AddrMode }.

Definition IsImmediateOffset (m : MemOperand) : bool :=
  match m_addrmode m with Offset => true | _ => false end.
Definition IsPreIndex (m : MemOperand) : bool :=
  match m_addrmode m with PreIndex => true | _ => false end.

(** ** OpEncode *)

Definition sf (reg : CPURegister) : Z := if Is64Bits reg then LeftShift 1 1 31 else 0.
Definition enc_shift (s : Shift) : Z := LeftShift (Shift_value s) 2 22.

Definition EncodeLogicalImmediate (rd rn : CPURegister) (operand : Operand) : Z :=
  let imm := o_immediate operand in
  let immr := bits imm 0 5 in
  let imms := bits imm 6 11 in
  sf rd .| LeftShift immr 6 16 .| LeftShift imms 6 10 .| Rd rd .| Rn rn.

Definition EncodeLogicalShift (rd rn : CPURegister) (operand : Operand) : Z :=
  sf rd .| enc_shift (o_shift operand) .| Rm (o_reg operand) .| LeftShift (o_shift_extend_imm operand) 6 10
  .| Rn rn .| Rd rd.

Definition enc_LoadStorePair (op : LoadStorePairOp) (rt rt2 : CPURegister) (addr : MemOperand) : Z :=
  let opc := bits (LoadStorePairOp_value op) 30 31 in
  let scale := if IsRegister rt then 2 + bit opc 1 else if IsVRegister rt then 2 + opc else 2 in
  let imm7 := i32 (m_offset addr >> scale) in
  LeftShift imm7 7 15.

Definition enc_scale (op : Z) : Z :=
  if op .& LoadStoreUnsignedOffsetFixed =? LoadStoreUnsignedOffsetFixed then bits op 30 31 else 0.

(** ** Labels *)

Inductive ref_label_type_t := kLabelImm19.
Record ref_inst_t := { link_type : ref_label_type_t; inst_offset : Z }.

Record RelocDataLabel := {
  pos : Z;
  ref_insts : list ref_inst_t;
  data_ : list Z;
}.

(** [RelocDataLabel((uint64_t)data)]. *)
Definition RelocDataLabel_new (data : Z) : RelocDataLabel :=
  {| pos := 0; ref_insts := []; data_ := le_bytes 8 data |}.
Definition bind_to (p : Z) (l : RelocDataLabel) : RelocDataLabel :=
  {| pos := p; ref_insts := ref_insts l; data_ := data_ l |}.
Definition has_confused_instructions (l : RelocDataLabel) : bool :=
  match ref_insts l with [] => false | _ => true end.
Definition link_to (t : ref_label_type_t) (pc_offset : Z) (l : RelocDataLabel) : RelocDataLabel :=
  {| pos := pos l; ref_insts := ref_insts l ++ [{| link_type := t; inst_offset := u32 pc_offset |}];
     data_ := data_ l |}.

Section Assembler.
Context {Buf : Type} `{CB : CodeBuffer Buf}.

Record AssemblerT := {
  fixed_addr : Z;
  code_buffer_ : Buf;
  data_labels : list RelocDataLabel;
}.

Definition with_buffer (a : AssemblerT) (b : Buf) : AssemblerT :=
  {| fixed_addr := fixed_addr a; code_buffer_ := b; data_labels := data_labels a |}.
Definition with_labels (a : AssemblerT) (l : list RelocDataLabel) : AssemblerT :=
  {| fixed_addr := fixed_addr a; code_buffer_ := code_buffer_ a; data_labels := l |}.

Definition AssemblerBase (addr : Z) : AssemblerT :=
  {| fixed_addr := addr; code_buffer_ := cb_new; data_labels := [] |}.

(** ** AssemblerBase *)

Definition pc_offset (a : AssemblerT) : Z := cb_size (code_buffer_ a).

Definition set_fixed_addr (addr : Z) (a : AssemblerT) : AssemblerT :=
  {| fixed_addr := addr; code_buffer_ := code_buffer_ a; data_labels := data_labels a |}.

Definition createDataLabel (data : Z) (a : AssemblerT) : nat * AssemblerT :=
  (length (data_labels a), with_labels a (data_labels a ++ [RelocDataLabel_new data])).

(** [PseudoLabel::link_confused_instructions] of assembler-arm64.h. *)
Fixpoint link_confused_instructions (p : Z) (refs : list ref_inst_t) (b : Buf) : outcome Buf :=
  match refs with
  | [] => Ret b
  | r :: refs =>
      let fixup_offset := i64 (p - inst_offset r) in
      inst ← cb_load b (inst_offset r);
      let new_inst := match link_type r with kLabelImm19 => encode_imm19_offset inst fixup_offset end in
      b ← cb_store b (inst_offset r) new_inst;
      link_confused_instructions p refs b
  end.

(** [bindLabel], then the data of the label. *)
Definition bind_and_emit (l : RelocDataLabel) (a : AssemblerT) : outcome (RelocDataLabel * AssemblerT) :=
  let l := bind_to (pc_offset a) l in
  b ← (if has_confused_instructions l
       then link_confused_instructions (pos l) (ref_insts l) (code_buffer_ a) else Ret (code_buffer_ a));
  b ← cb_emit b (data_ l);
  Ret (l, with_buffer a b).

Fixpoint reloc_labels (ls : list RelocDataLabel) (a : AssemblerT) : outcome (list RelocDataLabel * AssemblerT) :=
  match ls with
  | [] => Ret ([], a)
  | l :: ls =>
      '(l, a) ← bind_and_emit l a;
      '(ls, a) ← reloc_labels ls a;
      Ret (l :: ls, a)
  end.

Definition relocDataLabels (a : AssemblerT) : outcome AssemblerT :=
  '(ls, a) ← reloc_labels (data_labels a) a;
  Ret (with_labels a ls).

(** ** Assembler *)

Definition Emit (value : Z) (a : AssemblerT) : outcome AssemblerT :=
  b ← cb_emit (code_buffer_ a) (le_bytes 4 (u32 value));
  Ret (with_buffer a b).

Definition EmitInt64 (value : Z) (a : AssemblerT) : outcome AssemblerT :=
  b ← cb_emit (code_buffer_ a) (le_bytes 8 (u64 value));
  Ret (with_buffer a b).

Definition nop : AssemblerT -> outcome AssemblerT := Emit 0xD503201F.
Definition brk (c : Z) : AssemblerT -> outcome AssemblerT := Emit (BRK .| LeftShift c 16 5).
Definition ret : AssemblerT -> outcome AssemblerT := Emit 0xD65F03C0.

Definition adrp (rd : CPURegister) (imm : Z) : AssemblerT -> outcome AssemblerT :=
  let immlo := u32 (LeftShift (bits (imm >> 12) 0 1) 2 29) in
  let immhi := u32 (LeftShift (bits (imm >> 12) 2 20) 19 5) in
  Emit (ADRP .| Rd rd .| immlo .| immhi).

Definition AddSubImmediate (rd rn : CPURegister) (operand : Operand) (op : Z) (a : AssemblerT)
    : outcome AssemblerT :=
  if IsImmediate operand then
    let imm12 := LeftShift (o_immediate operand) 12 10 in
    Emit (op .| Rd rd .| Rn rn .| imm12) a
  else Fatal.

Definition add (rd rn : CPURegister) (imm : Z) : AssemblerT -> outcome AssemblerT :=
  if Is64Bits rd && Is64Bits rn then AddSubImmediate rd rn (Operand_imm imm) ADD_x_imm
  else AddSubImmediate rd rn (Operand_imm imm) ADD_w_imm.
Definition adds (rd rn : CPURegister) (imm : Z) (a : AssemblerT) : outcome AssemblerT := Fatal.
Definition sub (rd rn : CPURegister) (imm : Z) : AssemblerT -> outcome AssemblerT :=
  if Is64Bits rd && Is64Bits rn then AddSubImmediate rd rn (Operand_imm imm) SUB_x_imm
  else AddSubImmediate rd rn (Operand_imm imm) SUB_w_imm.
Definition subs (rd rn : CPURegister) (imm : Z) (a : AssemblerT) : outcome AssemblerT := Fatal.

Definition b (imm : Z) : AssemblerT -> outcome AssemblerT := Emit (B .| bits (imm >> 2) 0 25).
Definition br (rn : CPURegister) : AssemblerT -> outcome AssemblerT := Emit (BR .| Rn rn).
Definition blr (rn : CPURegister) : AssemblerT -> outcome AssemblerT := Emit (BLR .| Rn rn).

Definition EmitLoadRegLiteral (op : Z) (rt : CPURegister) (imm : Z) : AssemblerT -> outcome AssemblerT :=
  Emit (op .| LeftShift (imm >> 2) 26 5 .| Rt rt).

(** [ldr(Register rt, int64_t imm)]. *)
Definition ldr_literal (rt : CPURegister) (imm : Z) (a : AssemblerT) : outcome AssemblerT :=
  match reg_type_ rt with
  | kRegister_32 => EmitLoadRegLiteral LDR_w_literal rt imm a
  | kRegister_64 => EmitLoadRegLiteral LDR_x_literal rt imm a
  | kSIMD_FP_Register_32 => EmitLoadRegLiteral LDR_s_literal rt imm a
  | kSIMD_FP_Register_64 => EmitLoadRegLiteral LDR_d_literal rt imm a
  | kSIMD_FP_Register_128 => EmitLoadRegLiteral LDR_q_literal rt imm a
  | _ => Fatal
  end.

Definition LoadStore (op : LoadStoreOp) (rt : CPURegister) (addr : MemOperand) (a : AssemblerT)
    : outcome AssemblerT :=
  if IsImmediateOffset addr then
    let imm12 := m_offset addr >> enc_scale (LoadStoreUnsignedOffsetFixed .| LoadStoreOp_value op) in
    Emit (LoadStoreUnsignedOffsetFixed .| LoadStoreOp_value op .| LeftShift imm12 12 10
          .| Rn (m_base addr) .| Rt rt) a
  else Fatal.

(** [ldr(const CPURegister &rt, const MemOperand &src)]: always the 64-bit form. *)
Definition ldr (rt : CPURegister) (src : MemOperand) : AssemblerT -> outcome AssemblerT := LoadStore LDR_x rt src.
Definition str (rt : CPURegister) (src : MemOperand) : AssemblerT -> outcome AssemblerT := LoadStore STR_x rt src.

Definition LoadStorePair (op : LoadStorePairOp) (rt rt2 : CPURegister) (addr : MemOperand)
    : AssemblerT -> outcome AssemblerT :=
  let combine_fields_op := enc_LoadStorePair op rt rt2 addr .| Rt2 rt2 .| Rn (m_base addr) .| Rt rt in
  let addrmodeop :=
    if IsImmediateOffset addr then LoadStorePairOffsetFixed
    else if IsPreIndex addr then LoadStorePairPreIndexFixed else LoadStorePairPostIndexFixed in
  Emit (LoadStorePairOp_value op .| addrmodeop .| combine_fields_op).

Definition ldp (rt rt2 : CPURegister) (src : MemOperand) (a : AssemblerT) : outcome AssemblerT :=
  match reg_type_ rt with
  | kSIMD_FP_Register_128 => LoadStorePair LDP_q rt rt2 src a
  | kRegister_64 => LoadStorePair LDP_x rt rt2 src a
  | _ => Fatal
  end.
Definition stp (rt rt2 : CPURegister) (dst : MemOperand) (a : AssemblerT) : outcome AssemblerT :=
  match reg_type_ rt with
  | kSIMD_FP_Register_128 => LoadStorePair STP_q rt rt2 dst a
  | kRegister_64 => LoadStorePair STP_x rt rt2 dst a
  | _ => Fatal
  end.

Definition MoveWide (rd : CPURegister) (imm shift op : Z) : AssemblerT -> outcome AssemblerT :=
  let shift := if 0 <? shift then Z.quot shift 16 else 0 in
  let imm16 := LeftShift imm 16 5 in
  Emit (MoveWideImmediateFixed .| op .| sf rd .| LeftShift shift 2 21 .| imm16 .| Rd rd).
Definition movk (rd : CPURegister) (imm shift : Z) : AssemblerT -> outcome AssemblerT := MoveWide rd imm shift MOVK.
Definition movz (rd : CPURegister) (imm shift : Z) : AssemblerT -> outcome AssemblerT := MoveWide rd imm shift MOVZ.

(** No [LogicalImmediateFixed] here. *)
Definition LogicalImmediate (rd rn : CPURegister) (operand : Operand) (op : Z) : AssemblerT -> outcome AssemblerT :=
  Emit (op .| EncodeLogicalImmediate rd rn operand).
Definition LogicalShift (rd rn : CPURegister) (operand : Operand) (op : Z) : AssemblerT -> outcome AssemblerT :=
  Emit (op .| LogicalShiftedFixed .| EncodeLogicalShift rd rn operand).
Definition Logical (rd rn : CPURegister) (operand : Operand) (op : Z) : AssemblerT -> outcome AssemblerT :=
  if IsImmediate operand then LogicalImmediate rd rn operand op else LogicalShift rd rn operand op.
Definition orr (rd rn : CPURegister) (operand : Operand) : AssemblerT -> outcome AssemblerT :=
  Logical rd rn operand ORR.

Definition mov (rd rn : CPURegister) : AssemblerT -> outcome AssemblerT :=
  if Is rd SP || Is rn SP then add rd rn 0
  else if Is64Bits rd then orr rd xzr (Operand_reg rn LSL 0)
  else orr rd wzr (Operand_reg rn LSL 0).

(** ** TurboAssembler *)

Definition Mov (rd : CPURegister) (imm : Z) (a : AssemblerT) : outcome AssemblerT :=
  let w0 := Low32Bits imm in
  let w1 := High32Bits imm in
  let h0 := Low16Bits w0 in
  let h1 := High16Bits w0 in
  let h2 := Low16Bits w1 in
  let h3 := High16Bits w1 in
  a ← movz rd h0 0 a;
  a ← movk rd h1 16 a;
  a ← movk rd h2 32 a;
  movk rd h3 48 a.

Definition CallFunction (function : Z) (a : AssemblerT) : outcome AssemblerT :=
  a ← Mov TMP_REG_0 function a;
  blr TMP_REG_0 a.

(** [Ldr(Register rt, PseudoLabel *label)]: [label] points into [data_labels]. *)
Definition Ldr (rt : CPURegister) (label : nat) (a : AssemblerT) : outcome AssemblerT :=
  match data_labels a !! label with
  | Some l =>
      ldr_literal rt 0 (with_labels a (<[label := link_to kLabelImm19 (pc_offset a) l]> (data_labels a)))
  | None => UB
  end.

Definition AdrpAdd (rd : CPURegister) (from to : Z) (a : AssemblerT) : outcome AssemblerT :=
  let from_PAGE := ALIGN_FLOOR from 0x1000 in
  let to_PAGE := ALIGN_FLOOR to 0x1000 in
  let to_PAGEOFF := to mod 0x1000 in
  a ← adrp rd (i64 (to_PAGE - from_PAGE)) a;
  add rd rd to_PAGEOFF a.

(** ** codegen-arm64.h *)

Definition LiteralLdrBranch (address : Z) (a : AssemblerT) : outcome AssemblerT :=
  let '(label, a) := createDataLabel address a in
  a ← Ldr TMP_REG_0 label a;
  br TMP_REG_0 a.

End Assembler.
Arguments AssemblerT : clear implicits.
