(* ===== verification/Arm64Relocation.v ===== *)
(** * ARM64 instruction relocation (InstructionRelocationARM64.cc)

    [relocate] walks the words of the origin block and emits for each an equivalent
    sequence that does not depend on where it runs; the absolute addresses it needs
    are 64-bit literals behind the code.  First the model, then [relo_item], what one
    instruction contributes, and the proof that the assembler ends up holding exactly
    the concatenation of the items followed by their literals. *)

From S2P Require Import Prelude UtilityMacro CodeMemBuffer Arm64Kit Arm64Assembler.
#[local] Open Scope machine_scope.
#[local] Open Scope Z_scope.

(** ** Instruction classes *)

Definition inst_is_b_bl (instr : Z) : bool :=
  instr .& UnconditionalBranchFixedMask =? UnconditionalBranchFixed.
Definition inst_is_ldr_literal (instr : Z) : bool :=
  instr .& LoadRegLiteralFixedMask =? LoadRegLiteralFixed.
Definition inst_is_adr (instr : Z) : bool :=
  (instr .& PCRelAddressingFixedMask =? PCRelAddressingFixed) && (instr .& PCRelAddressingMask =? ADR).
Definition inst_is_adrp (instr : Z) : bool :=
  (instr .& PCRelAddressingFixedMask =? PCRelAddressingFixed) && (instr .& PCRelAddressingMask =? ADRP).
Definition inst_is_b_cond (instr : Z) : bool :=
  instr .& ConditionalBranchFixedMask =? ConditionalBranchFixed.
Definition inst_is_compare_b (instr : Z) : bool :=
  instr .& CompareBranchFixedMask =? CompareBranchFixed.
Definition inst_is_test_b (instr : Z) : bool :=
  instr .& TestBranchFixedMask =? TestBranchFixed.

Definition arm64_trunc_page (x : Z) : Z := x .& Z.lnot (0x1000 - 1).

(** The inverted branch over the next two instructions ([offset = 4 * 3]). *)
Definition invert_b_cond (inst : Z) : Z :=
  let cond := bits inst 0 3 .^ 1 in
  let branch_inst := set_bits inst 0 3 cond in
  set_bits branch_inst 5 23 ((4 * 3) >> 2).
Definition invert_compare_b (inst : Z) : Z :=
  let op := bit inst 24 .^ 1 in
  let branch_inst := set_bit inst 24 op in
  set_bits branch_inst 5 23 ((4 * 3) >> 2).
Definition invert_test_b (inst : Z) : Z :=
  let op := bit inst 24 .^ 1 in
  let branch_inst := set_bit inst 24 op in
  set_bits branch_inst 5 18 ((4 * 3) >> 2).

Section Relocate.
Context {Buf : Type} `{CB : CodeBuffer Buf}.

(** [DEFINE_DATA_LABEL(dst, dst); _ Ldr(TMP_REG_0, dst_data_label); _ br(TMP_REG_0)], after [pre]. *)
Definition emit_branch (pre : AssemblerT Buf -> outcome (AssemblerT Buf)) (dst : Z) (link : bool)
    (a : AssemblerT Buf) : outcome (AssemblerT Buf) :=
  let '(dst_data_label, a) := createDataLabel dst a in
  a ← pre a;
  a ← Ldr TMP_REG_0 dst_data_label a;
  if link then blr TMP_REG_0 a else br TMP_REG_0 a.

(** The body of the loop, for the instruction [inst] at [origin_cursor]. *)
Definition relocate_inst (origin_cursor inst : Z) (a : AssemblerT Buf) : outcome (AssemblerT Buf) :=
  if inst_is_b_bl inst then
    let offset := decode_imm26_offset inst in
    let dst := u64 (origin_cursor + offset) in
    emit_branch Ret dst (inst .& UnconditionalBranchMask =? BL) a
  else if inst_is_ldr_literal inst then
    let offset := decode_imm19_offset inst in
    let dst := u64 (origin_cursor + offset) in
    let rt := decode_rt inst in
    let opc := bits inst 30 31 in
    a ← Mov TMP_REG_0 dst a;
    if opc =? 0 then ldr (W rt) {| m_base := TMP_REG_0; m_offset := 0; m_addrmode := Offset |} a
    else if opc =? 1 then ldr (X rt) {| m_base := TMP_REG_0; m_offset := 0; m_addrmode := Offset |} a
    else Fatal
  else if inst_is_adr inst then
    let offset := decode_immhi_immlo_offset inst in
    let dst := u64 (origin_cursor + offset) in
    Mov (X (decode_rd inst)) dst a
  else if inst_is_adrp inst then
    let offset := decode_immhi_immlo_zero12_offset inst in
    let dst := arm64_trunc_page (u64 (origin_cursor + offset)) in
    Mov (X (decode_rd inst)) dst a
  else if inst_is_b_cond inst then
    let dst := u64 (origin_cursor + decode_imm19_offset inst) in
    emit_branch (Emit (invert_b_cond inst)) dst false a
  else if inst_is_compare_b inst then
    let dst := u64 (origin_cursor + decode_imm19_offset inst) in
    emit_branch (Emit (invert_compare_b inst)) dst false a
  else if inst_is_test_b inst then
    let dst := u64 (origin_cursor + decode_imm14_offset inst) in
    emit_branch (Emit (invert_test_b inst)) dst false a
  else Emit inst a.

(** [*(uint32_t * )origin_cursor()]; [code] is what is readable from the origin
    address on. *)
Definition load_inst (code : list Z) (off : Z) : outcome Z :=
  if off + 4 <=? Z.of_nat (length code) then Ret (le_val (take 4 (drop (Z.to_nat off) code))) else UB.

(** [while (relo_size() < preferred_relo_size())]; [relo_size] is the number of
    bytes done.  The fuel is the largest number of iterations. *)
Fixpoint relocate_loop (fuel : nat) (origin_addr preferred relo_size : Z) (code : list Z)
    (a : AssemblerT Buf) : outcome (Z * AssemblerT Buf) :=
  if relo_size <? preferred then
    match fuel with
    | O => UB
    | S fuel =>
        inst ← load_inst code relo_size;
        a ← relocate_inst (u64 (origin_addr + relo_size)) inst a;
        relocate_loop fuel origin_addr preferred (u32 (relo_size + 4)) code a
    end
  else Ret (relo_size, a).

(** [relocate] up to [FinalizeFromTurboAssembler]: the new size of the origin block
    and the assembler. *)
Definition relocate (origin_addr origin_size : Z) (code : list Z) (branch : bool)
    : outcome (Z * AssemblerT Buf) :=
  let preferred := u32 origin_size in
  '(relo_size, a) ← relocate_loop (Z.to_nat preferred) origin_addr preferred 0 code (AssemblerBase 0);
  a ← (if branch then LiteralLdrBranch (u64 (origin_addr + relo_size)) a else Ret a);
  a ← relocDataLabels a;
  Ret (relo_size, a).

End Relocate.

(** ** What one instruction contributes *)

(** The instruction words, and the word that loads the literal [dst], by index. *)
Record item := { i_words : list Z; i_lit : option (nat * Z) }.

Definition LDR_TMP : Z := LDR_x_literal .| Rt TMP_REG_0.
Definition mov_words (rd imm : Z) : list Z :=
  let w (op shift h : Z) := u32 (MoveWideImmediateFixed .| op .| SixtyFourBits .| LeftShift shift 2 21
                                  .| LeftShift h 16 5 .| rd) in
  [w MOVZ 0 (bits imm 0 15); w MOVK 1 (bits imm 16 31); w MOVK 2 (bits imm 32 47); w MOVK 3 (bits imm 48 63)].
Definition branch_item (pre : list Z) (dst : Z) (link : bool) : item :=
  {| i_words := pre ++ [LDR_TMP; (if link then BLR else BR) .| Rn TMP_REG_0]; i_lit := Some (length pre, dst) |}.

Definition relo_item (pc inst : Z) : option item :=
  if inst_is_b_bl inst then
    Some (branch_item [] (u64 (pc + decode_imm26_offset inst)) (inst .& UnconditionalBranchMask =? BL))
  else if inst_is_ldr_literal inst then
    if bits inst 30 31 <=? 1 then
      Some {| i_words := mov_words 17 (u64 (pc + decode_imm19_offset inst))
                         ++ [u32 (LoadStoreUnsignedOffsetFixed .| LoadStoreOp_value LDR_x
                                  .| Rn TMP_REG_0 .| decode_rt inst)];
              i_lit := None |}
    else None
  else if inst_is_adr inst then
    Some {| i_words := mov_words (decode_rd inst) (u64 (pc + decode_immhi_immlo_offset inst)); i_lit := None |}
  else if inst_is_adrp inst then
    Some {| i_words := mov_words (decode_rd inst)
                         (arm64_trunc_page (u64 (pc + decode_immhi_immlo_zero12_offset inst))); i_lit := None |}
  else if inst_is_b_cond inst then
    Some (branch_item [invert_b_cond inst] (u64 (pc + decode_imm19_offset inst)) false)
  else if inst_is_compare_b inst then
    Some (branch_item [invert_compare_b inst] (u64 (pc + decode_imm19_offset inst)) false)
  else if inst_is_test_b inst then
    Some (branch_item [invert_test_b inst] (u64 (pc + decode_imm14_offset inst)) false)
  else Some {| i_words := [inst]; i_lit := None |}.

(** The items of consecutive instructions, their words, and the literals with the
    number of the word that loads each, the first word being number [o]. *)
Fixpoint relo_items (pc : Z) (insts : list Z) : option (list item) :=
  match insts with
  | [] => Some []
  | w :: insts => it ← relo_item pc w; its ← relo_items (u64 (pc + 4)) insts; Some (it :: its)
  end.
Definition all_words (its : list item) : list Z := concat (map i_words its).
Fixpoint all_lits (o : nat) (its : list item) : list (nat * Z) :=
  match its with
  | [] => []
  | it :: its =>
      match i_lit it with Some (k, dst) => [((o + k)%nat, dst)] | None => [] end
      ++ all_lits (o + length (i_words it)) its
  end.

(** What [relocDataLabels] makes of the words: literal number [j] is bound at byte
    [p + 8 * j] and the word that loads it gets the distance. *)
Fixpoint patch (lits : list (nat * Z)) (p : Z) (ws : list Z) : list Z :=
  match lits with
  | [] => ws
  | (k, _) :: lits =>
      patch lits (p + 8) (alter (fun w => encode_imm19_offset (u32 w) (p - 4 * Z.of_nat k)) k ws)
  end.
Definition lit_bytes (lits : list (nat * Z)) : list Z := concat (map (fun l => le_bytes 8 (snd l)) lits).

(** ** The assembler emits the items *)

Definition flat (ws : list Z) : list Z := concat (map (le_bytes 4) ws).

Lemma flat_app ws ws' : flat (ws ++ ws') = flat ws ++ flat ws'.
Proof. unfold flat. by rewrite map_app, concat_app. Qed.

Lemma length_flat ws : length (flat ws) = (4 * length ws)%nat.
Proof. induction ws as [|w ws IH]; [done|]. unfold flat in *. cbn [map concat]. rewrite length_app, IH, length_le_bytes. simpl length. lia. Qed.

Lemma flat_bytes_ok ws : bytes_ok (flat ws).
Proof.
  induction ws as [|w ws IH]; [constructor|]. apply bytes_ok_app. split; [apply le_bytes_ok|exact IH].
Qed.

(** A label with its one reference, before it is bound. *)
Definition label_of (r : nat * Z) : RelocDataLabel :=
  {| pos := 0; ref_insts := [{| link_type := kLabelImm19; inst_offset := 4 * Z.of_nat (fst r) |}];
     data_ := le_bytes 8 (snd r) |}.

Section Refinement.
Context {Buf : Type} `{CBL : CodeBufferLaws Buf}.

(** [asm_rep a ws ls]: the assembler holds the words [ws]; the labels [ls] are
    pending, each with the number of the word that loads it and its data. *)
Record asm_rep (a : AssemblerT Buf) (ws : list Z) (ls : list (nat * Z)) : Prop := {
  ar_buffer : cb_rep (code_buffer_ a) (flat ws);
  ar_labels : data_labels a = map label_of ls;
}.

Definition fits (ws ws' : list Z) : Prop := 4 * Z.of_nat (length ws + length ws') <= cb_limit.

(** [appends f ws' lit]: [f] appends the words [ws'] and, if [lit] is given, a label
    loaded by the word with that index. *)
Definition appends (f : AssemblerT Buf -> outcome (AssemblerT Buf)) (ws' : list Z) (lit : option (nat * Z)) : Prop :=
  forall a ws ls, asm_rep a ws ls -> fits ws ws' ->
  exists a', f a = Ret a' /\
    asm_rep a' (ws ++ ws')
      (ls ++ match lit with Some (k, dst) => [((length ws + k)%nat, dst)] | None => [] end).

Lemma asm_rep_pc a ws ls : asm_rep a ws ls -> pc_offset a = 4 * Z.of_nat (length ws).
Proof. intros [Hb _]. unfold pc_offset. rewrite (cb_size_rep _ _ Hb), length_flat. lia. Qed.

Lemma emit_word a ws v :
  cb_rep (code_buffer_ a) (flat ws) -> fits ws [u32 v] ->
  exists b, cb_emit (code_buffer_ a) (le_bytes 4 (u32 v)) = Ret b /\ cb_rep b (flat (ws ++ [u32 v])).
Proof.
  intros Hb Hf. unfold fits in Hf. simpl length in Hf.
  destruct (cb_emit_rep _ _ (le_bytes 4 (u32 v)) Hb (le_bytes_ok 4 _)) as (b & E & Hb').
  { rewrite length_flat, length_le_bytes. lia. }
  exists b. split; [done|]. rewrite flat_app. unfold flat at 2. cbn [map concat]. by rewrite app_nil_r.
Qed.

Lemma appends_Emit v : appends (Emit v) [u32 v] None.
Proof.
  intros a ws ls [Hb Hl] Hf. unfold Emit.
  destruct (emit_word a ws v Hb Hf) as (b & -> & Hb'). cbn [mbind outcome_bind].
  eexists. split; [reflexivity|]. rewrite app_nil_r. by split.
Qed.

Lemma appends_word v : u32 v = v -> appends (Emit v) [v] None.
Proof. intros E. rewrite <- E at 2. apply appends_Emit. Qed.

Lemma appends_nil : appends Ret [] None.
Proof. intros a ws ls Ha _. exists a. by rewrite !app_nil_r. Qed.

Lemma appends_bind f g w1 w2 lit :
  appends f w1 None -> appends g w2 lit ->
  appends (fun a => a ← f a; g a) (w1 ++ w2)
    match lit with Some (k, dst) => Some ((length w1 + k)%nat, dst) | None => None end.
Proof.
  intros Hf Hg a ws ls Ha Hfit. unfold fits in Hfit. rewrite length_app in Hfit.
  destruct (Hf a ws ls Ha) as (a1 & -> & H1); [unfold fits; lia|]. cbn [mbind outcome_bind].
  rewrite app_nil_r in H1.
  destruct (Hg a1 _ _ H1) as (a2 & -> & H2); [unfold fits; rewrite length_app; lia|].
  exists a2. split; [done|]. rewrite <- app_assoc in H2. rewrite length_app in H2.
  destruct lit as [[k dst]|]; [|done]. by rewrite Nat.add_assoc.
Qed.

Lemma Low16Bits_bits x : Low16Bits x = bits x 0 15.
Proof. unfold Low16Bits. change 0xffff with (Z.ones 16). zbits. Qed.
Lemma High16Bits_bits x : 0 <= x < 2 ^ 32 -> High16Bits x = bits x 16 31.
Proof. intros. unfold High16Bits. zbits. Qed.

Lemma appends_Mov rd imm : appends (Mov (X rd) imm) (mov_words rd imm) None.
Proof.
  unfold Mov. rewrite !Low16Bits_bits, !High16Bits_bits by (apply wrap_range; lia).
  unfold Low32Bits, High32Bits.
  replace (bits (u32 imm) 0 15) with (bits imm 0 15) by zbits.
  replace (bits (u32 imm) 16 31) with (bits imm 16 31) by zbits.
  replace (bits (u32 (imm >> 32)) 0 15) with (bits imm 32 47) by zbits.
  replace (bits (u32 (imm >> 32)) 16 31) with (bits imm 48 63) by zbits.
  unfold movz, movk, MoveWide, mov_words, Rd, code. simpl (0 <? _). cbn iota.
  change (reg_id (X rd)) with rd. change kRdShift with 0. rewrite Z.shiftl_0_r.
  change (sf (X rd)) with SixtyFourBits.
  change (Z.quot 16 16) with 1. change (Z.quot 32 16) with 2. change (Z.quot 48 16) with 3.
  match goal with |- appends _ [u32 ?a; u32 ?b; u32 ?c; u32 ?d] _ =>
    apply (appends_bind (Emit a) _ [u32 a] [u32 b; u32 c; u32 d] None (appends_Emit a));
    apply (appends_bind (Emit b) _ [u32 b] [u32 c; u32 d] None (appends_Emit b));
    apply (appends_bind (Emit c) _ [u32 c] [u32 d] None (appends_Emit c)); apply appends_Emit
  end.
Qed.

(** [emits f ws']: [f] touches the buffer only. *)
Definition emits (f : AssemblerT Buf -> outcome (AssemblerT Buf)) (ws' : list Z) : Prop :=
  forall a ws, cb_rep (code_buffer_ a) (flat ws) -> fits ws ws' ->
  exists b, f a = Ret (with_buffer a b) /\ cb_rep b (flat (ws ++ ws')).

Lemma emits_Emit v : emits (Emit v) [u32 v].
Proof.
  intros a ws Hb Hf. unfold Emit. destruct (emit_word a ws v Hb Hf) as (b & -> & Hb'). by exists b.
Qed.

Lemma emits_word v : u32 v = v -> emits (Emit v) [v].
Proof. intros E. rewrite <- E at 2. apply emits_Emit. Qed.

Lemma emits_Ret : emits Ret [].
Proof. intros a ws Hb _. exists (code_buffer_ a). rewrite app_nil_r. split; [by destruct a|done]. Qed.

Lemma u32_LDR_TMP : u32 (LDR_x_literal .| LeftShift (0 >> 2) 26 5 .| Rt TMP_REG_0) = LDR_TMP.
Proof. reflexivity. Qed.

Lemma appends_branch pre wp dst link :
  emits pre wp -> 0 <= dst < 2 ^ 64 ->
  appends (emit_branch pre dst link) (i_words (branch_item wp dst link)) (i_lit (branch_item wp dst link)).
Proof.
  intros Hpre Hdst a ws ls Ha Hf. pose proof Ha as [Hb Hl].
  unfold branch_item, fits in Hf. cbn [i_words] in Hf. rewrite length_app in Hf. simpl length in Hf.
  unfold emit_branch, createDataLabel. cbn zeta beta iota.
  set (a0 := with_labels a _).
  destruct (Hpre a0 ws) as (b1 & -> & Hb1); [done|unfold fits; lia|]. cbn [mbind outcome_bind].
  unfold Ldr. change (data_labels (with_buffer a0 b1)) with (data_labels a ++ [RelocDataLabel_new dst]).
  rewrite lookup_app_r, Nat.sub_diag by lia. cbn [lookup list_lookup].
  rewrite insert_app_r_alt, Nat.sub_diag by lia. cbn [insert list_insert].
  assert (Hpc : pc_offset (with_buffer a0 b1) = 4 * Z.of_nat (length ws + length wp)).
  { unfold pc_offset. cbn [code_buffer_ with_buffer]. rewrite (cb_size_rep _ _ Hb1), length_flat, length_app. lia. }
  rewrite Hpc. unfold link_to. cbn [pos ref_insts data_ RelocDataLabel_new app].
  rewrite wrap_small by (unfold cb_limit in Hf; simpl in Hf; lia).
  unfold ldr_literal. cbn [reg_type_ TMP_REG_0 X]. unfold EmitLoadRegLiteral.
  destruct (emits_Emit (LDR_x_literal .| LeftShift (0 >> 2) 26 5 .| Rt TMP_REG_0)
             (with_labels (with_buffer a0 b1)
                (data_labels a ++ [label_of ((length ws + length wp)%nat, dst)])) (ws ++ wp))
    as (b2 & E2 & Hb2); [done|unfold fits; rewrite length_app; simpl length; lia|].
  rewrite u32_LDR_TMP in Hb2. unfold label_of in E2. cbn [fst snd] in E2. rewrite E2. cbn [mbind outcome_bind].
  set (a2 := with_buffer _ b2).
  assert (Hlast : exists b3, (if link then blr TMP_REG_0 a2 else br TMP_REG_0 a2) = Ret (with_buffer a2 b3) /\
            cb_rep b3 (flat (((ws ++ wp) ++ [LDR_TMP]) ++ [(if link then BLR else BR) .| Rn TMP_REG_0]))).
  { unfold blr, br. destruct link; apply (emits_word _ eq_refl a2); try done;
      unfold fits; rewrite !length_app; simpl length; lia. }
  destruct Hlast as (b3 & -> & Hb3). eexists. split; [reflexivity|].
  cbn [branch_item i_words i_lit]. split.
  - rewrite <- !app_assoc in Hb3. exact Hb3.
  - cbn [data_labels with_buffer with_labels a2]. rewrite map_app, Hl. reflexivity.
Qed.

Lemma dst_range x : 0 <= u64 x < 2 ^ 64.
Proof. apply wrap_range. lia. Qed.

Lemma u32_set_bits instr st fn v : u32 (set_bits instr st fn v) = set_bits instr st fn v.
Proof. unfold set_bits. apply wrap_wrap. Qed.

Lemma appends_ldr rt :
  0 <= rt < 32 ->
  appends (ldr (X rt) {| m_base := TMP_REG_0; m_offset := 0; m_addrmode := Offset |})
    [u32 (LoadStoreUnsignedOffsetFixed .| LoadStoreOp_value LDR_x .| Rn TMP_REG_0 .| rt)] None.
Proof.
  intros Hrt a ws ls Ha Hf.
  replace (ldr (X rt) _ a)
    with (Emit (LoadStoreUnsignedOffsetFixed .| LoadStoreOp_value LDR_x .| Rn TMP_REG_0 .| rt) a).
  { by apply appends_Emit. }
  unfold ldr, LoadStore, IsImmediateOffset. cbn [m_base m_offset m_addrmode].
  unfold Rt, code. cbn [reg_id X]. change kRtShift with 0.
  rewrite Z.shiftr_0_l, Z.shiftl_0_r. change (LeftShift 0 12 10) with 0. by rewrite Z.lor_0_r.
Qed.

(** One iteration emits one item. *)
Lemma relocate_inst_item pc inst it :
  0 <= inst < 2 ^ 32 -> relo_item pc inst = Some it ->
  appends (relocate_inst pc inst) (i_words it) (i_lit it).
Proof.
  intros Hi. unfold relo_item, relocate_inst.
  destruct (inst_is_b_bl inst).
  { intros [= <-]. apply appends_branch; [apply emits_Ret|apply dst_range]. }
  destruct (inst_is_ldr_literal inst).
  { destruct (Z.leb_spec (bits inst 30 31) 1) as [Hopc|]; [|done]. intros [= <-]. cbn [i_words i_lit].
    pose proof (bits_range inst 30 31 ltac:(lia)) as H3. pose proof (bits_range inst 0 4 ltac:(lia)) as Hrt.
    refine (appends_bind _ _ _ _ None (appends_Mov 17 _) _).
    assert (bits inst 30 31 = 0 \/ bits inst 30 31 = 1) as [-> | ->] by lia; apply appends_ldr; exact Hrt. }
  destruct (inst_is_adr inst); [intros [= <-]; apply appends_Mov|].
  destruct (inst_is_adrp inst); [intros [= <-]; apply appends_Mov|].
  destruct (inst_is_b_cond inst).
  { intros [= <-]. apply appends_branch; [|apply dst_range].
    apply emits_word, u32_set_bits. }
  destruct (inst_is_compare_b inst).
  { intros [= <-]. apply appends_branch; [|apply dst_range].
    apply emits_word, u32_set_bits. }
  destruct (inst_is_test_b inst).
  { intros [= <-]. apply appends_branch; [|apply dst_range].
    apply emits_word, u32_set_bits. }
  intros [= <-]. cbn [i_words i_lit].
  apply (appends_word inst), wrap_small, Hi.
Qed.

(** ** The loop *)

Definition word_at (code : list Z) (i : nat) : Z := le_val (take 4 (drop (4 * i) code)).
Definition words_from (code : list Z) (i n : nat) : list Z := map (word_at code) (seq i n).

Lemma word_at_range code i : bytes_ok code -> (4 * (i + 1) <= length code)%nat -> 0 <= word_at code i < 2 ^ 32.
Proof.
  intros Hb Hl. unfold word_at.
  assert (Hlen : length (take 4 (drop (4 * i) code)) = 4%nat) by (rewrite length_take, length_drop; lia).
  pose proof (le_val_range (take 4 (drop (4 * i) code))) as H4. rewrite Hlen in H4.
  apply H4. by apply Forall_take, Forall_drop.
Qed.

Lemma load_inst_word code i :
  (4 * (i + 1) <= length code)%nat -> load_inst code (4 * Z.of_nat i) = Ret (word_at code i).
Proof.
  intros. unfold load_inst, word_at. replace (Z.to_nat (4 * Z.of_nat i)) with (4 * i)%nat by lia.
  destruct (Z.leb_spec (4 * Z.of_nat i + 4) (Z.of_nat (length code))); [done|lia].
Qed.

Lemma relocate_loop_items n : forall i fuel origin preferred code a ws ls its,
  asm_rep a ws ls -> bytes_ok code -> (4 * (i + n) <= length code)%nat -> 4 * Z.of_nat (i + n) < 2 ^ 32 ->
  (n <= fuel)%nat -> preferred <= 4 * Z.of_nat (i + n) ->
  (n = 0%nat \/ 4 * Z.of_nat (i + n) - 4 < preferred) ->
  relo_items (u64 (origin + 4 * Z.of_nat i)) (words_from code i n) = Some its ->
  fits ws (all_words its) ->
  exists a', relocate_loop fuel origin preferred (4 * Z.of_nat i) code a = Ret (4 * Z.of_nat (i + n), a') /\
    asm_rep a' (ws ++ all_words its) (ls ++ all_lits (length ws) its).
Proof.
  induction n as [|n IH]; intros i fuel origin preferred code a ws ls its Ha Hb Hl H32 Hfu Hp Hq Hits Hf.
  - simpl in Hits. injection Hits as <-. exists a. rewrite Nat.add_0_r in *. simpl. rewrite !app_nil_r.
    split; [|done]. destruct fuel; simpl; destruct (Z.ltb_spec (4 * Z.of_nat i) preferred); done || lia.
  - destruct fuel as [|fuel]; [lia|]. cbn [relocate_loop].
    destruct (Z.ltb_spec (4 * Z.of_nat i) preferred); [|lia].
    rewrite load_inst_word by lia. cbn [mbind outcome_bind].
    unfold words_from in Hits. cbn [seq map relo_items] in Hits.
    destruct (relo_item _ (word_at code i)) as [it|] eqn:Hit; [|done]. cbn [mbind option_bind] in Hits.
    destruct (relo_items _ _) as [its'|] eqn:Hits'; [|done]. injection Hits as <-.
    unfold fits, all_words in Hf. cbn [map concat] in Hf. rewrite length_app in Hf.
    fold (all_words its') in Hf.
    destruct (relocate_inst_item _ _ it (word_at_range code i Hb ltac:(lia)) Hit a ws ls Ha) as (a1 & -> & H1);
      [unfold fits; lia|]. cbn [mbind outcome_bind].
    replace (u32 (4 * Z.of_nat i + 4)) with (4 * Z.of_nat (S i)) by (rewrite wrap_small; lia).
    destruct (IH (S i) fuel origin preferred code a1 _ _ its' H1 Hb) as (a2 & -> & H2); try lia.
    + rewrite wrap_add_l in Hits'. rewrite <- Hits'. f_equal. f_equal. lia.
    + unfold fits. rewrite length_app. lia.
    + exists a2. split; [do 2 f_equal; lia|].
      unfold all_words. cbn [map concat all_lits]. fold (all_words its').
      rewrite <- !app_assoc, length_app in H2. exact H2.
Qed.

(** ** Binding the literals *)

Lemma flat_split ws k w :
  ws !! k = Some w -> flat ws = flat (take k ws) ++ le_bytes 4 w ++ flat (drop (S k) ws).
Proof.
  intros Hk. rewrite <- (take_drop_middle ws k w Hk) at 1. rewrite flat_app.
  unfold flat at 2. cbn [map concat]. reflexivity.
Qed.

Lemma length_flat_take ws k w : ws !! k = Some w -> length (flat (take k ws)) = (4 * k)%nat.
Proof. intros Hk. apply lookup_lt_Some in Hk. rewrite length_flat, length_take. lia. Qed.

Lemma word_flat ws D k w :
  ws !! k = Some w -> le_val (take 4 (drop (4 * k) (flat ws ++ D))) = u32 w.
Proof.
  intros Hk. rewrite (flat_split ws k w Hk), <- !app_assoc.
  rewrite drop_app_length' by (by rewrite (length_flat_take ws k w)).
  rewrite take_app_length' by (by rewrite length_le_bytes). by rewrite le_val_bytes.
Qed.

Lemma splice_flat ws D k w v :
  ws !! k = Some w -> splice (flat ws ++ D) (4 * k) (le_bytes 4 v) = flat (<[k := v]> ws) ++ D.
Proof.
  intros Hk. pose proof (lookup_lt_Some _ _ _ Hk) as Hlt. unfold splice.
  rewrite (flat_split ws k w Hk), <- !app_assoc.
  rewrite take_app_length' by (by rewrite (length_flat_take ws k w)).
  rewrite length_le_bytes, <- drop_drop, drop_app_length' by (by rewrite (length_flat_take ws k w)).
  rewrite drop_app_length' by (by rewrite length_le_bytes).
  assert (Hv : <[k := v]> ws !! k = Some v) by (by apply list_lookup_insert_eq).
  rewrite (flat_split _ k v Hv), take_insert_ge, drop_insert_lt, <- !app_assoc by lia. done.
Qed.

Lemma alter_as_insert {A} (f : A -> A) (l : list A) k w : l !! k = Some w -> alter f k l = <[k := f w]> l.
Proof.
  revert k. induction l as [|x l IH]; intros [|k]; simpl; try done.
  - by intros [= ->].
  - intros Hk. f_equal. by apply IH.
Qed.

Lemma length_patch lits : forall p ws, length (patch lits p ws) = length ws.
Proof.
  induction lits as [|[k d] lits IH]; intros p ws; [done|]. cbn [patch]. by rewrite IH, length_alter.
Qed.

Lemma length_lit_bytes lits : length (lit_bytes lits) = (8 * length lits)%nat.
Proof.
  induction lits as [|l lits IH]; [done|]. unfold lit_bytes in *. cbn [map concat].
  rewrite length_app, IH, length_le_bytes. simpl length. lia.
Qed.

Lemma bind_and_emit_rep a ws D k dst :
  cb_rep (code_buffer_ a) (flat ws ++ D) -> (k < length ws)%nat ->
  Z.of_nat (length (flat ws ++ D)) + 8 <= cb_limit ->
  let p := Z.of_nat (length (flat ws ++ D)) in
  exists b, bind_and_emit (label_of (k, dst)) a = Ret (bind_to p (label_of (k, dst)), with_buffer a b) /\
    cb_rep b (flat (alter (fun w => encode_imm19_offset (u32 w) (p - 4 * Z.of_nat k)) k ws) ++ D ++ le_bytes 8 dst).
Proof.
  intros Hb Hk Hlim p. destruct (lookup_lt_is_Some_2 ws k Hk) as [w Hw].
  assert (Hlen : length (flat ws ++ D) = (4 * length ws + length D)%nat) by (rewrite length_app, length_flat; lia).
  assert (Hp : 0 <= p) by (unfold p; lia).
  unfold bind_and_emit. unfold pc_offset. rewrite (cb_size_rep _ _ Hb). fold p.
  cbn [has_confused_instructions bind_to label_of ref_insts pos data_ fst snd link_confused_instructions
       inst_offset link_type].
  rewrite (cb_load_rep _ _ _ Hb) by lia. cbn [mbind outcome_bind].
  replace (Z.to_nat (4 * Z.of_nat k)) with (4 * k)%nat by lia.
  rewrite (word_flat ws D k w Hw).
  assert (Hi64 : i64 (p - 4 * Z.of_nat k) = p - 4 * Z.of_nat k).
  { apply sext_small; [lia|]. unfold cb_limit in Hlim. unfold p. simpl in *. lia. }
  rewrite Hi64. set (v := encode_imm19_offset _ _).
  destruct (cb_store_rep _ _ (4 * Z.of_nat k) v Hb) as (b1 & -> & Hb1); [lia|lia|].
  cbn [mbind outcome_bind]. replace (Z.to_nat (4 * Z.of_nat k)) with (4 * k)%nat in Hb1 by lia.
  rewrite (splice_flat ws D k w v Hw) in Hb1.
  destruct (cb_emit_rep _ _ (le_bytes 8 dst) Hb1 (le_bytes_ok 8 dst)) as (b2 & -> & Hb2).
  { rewrite length_app, length_flat, length_insert, length_le_bytes. lia. }
  cbn [mbind outcome_bind]. exists b2. split; [done|].
  rewrite <- app_assoc in Hb2. by rewrite (alter_as_insert _ ws k w Hw).
Qed.

Lemma reloc_labels_rep lits : forall a ws D,
  cb_rep (code_buffer_ a) (flat ws ++ D) -> Forall (fun l => (fst l < length ws)%nat) lits ->
  Z.of_nat (length (flat ws ++ D)) + 8 * Z.of_nat (length lits) <= cb_limit ->
  exists ls b, reloc_labels (map label_of lits) a = Ret (ls, with_buffer a b) /\
    cb_rep b (flat (patch lits (Z.of_nat (length (flat ws ++ D))) ws) ++ D ++ lit_bytes lits).
Proof.
  induction lits as [|[k dst] lits IH]; intros a ws D Hb Hk Hlim.
  { exists [], (code_buffer_ a). cbn [map reloc_labels patch lit_bytes concat]. rewrite app_nil_r.
    split; [by destruct a|done]. }
  inversion Hk as [|? ? Hk1 Hks]; subst. cbn [fst length] in *. cbn [map reloc_labels patch].
  destruct (bind_and_emit_rep a ws D k dst Hb Hk1) as (b1 & -> & Hb1); [lia|].
  cbn [mbind outcome_bind]. set (p := Z.of_nat (length (flat ws ++ D))) in *.
  set (ws1 := alter _ k ws) in *.
  assert (Hl1 : length ws1 = length ws) by apply length_alter.
  assert (Hp1 : Z.of_nat (length (flat ws1 ++ D ++ le_bytes 8 dst)) = p + 8).
  { unfold p. rewrite !length_app, !length_flat, Hl1, length_le_bytes. lia. }
  destruct (IH (with_buffer a b1) ws1 (D ++ le_bytes 8 dst) Hb1) as (ls & b2 & -> & Hb2).
  { eapply Forall_impl; [|exact Hks]. intros l Hl. cbn beta. by rewrite Hl1. }
  { rewrite Hp1. lia. }
  cbn [mbind outcome_bind]. eexists _, b2. split; [reflexivity|].
  rewrite Hp1, <- app_assoc in Hb2. exact Hb2.
Qed.

(** Every literal is loaded by a word of its own item. *)
Definition item_ok (it : item) : Prop :=
  match i_lit it with Some (k, _) => (k < length (i_words it))%nat | None => True end.

Lemma relo_item_ok pc inst it : relo_item pc inst = Some it -> item_ok it.
Proof. unfold relo_item. repeat case_match; intros; simplify_eq; cbn; lia. Qed.

Lemma relo_items_ok insts : forall pc its, relo_items pc insts = Some its -> Forall item_ok its.
Proof.
  induction insts as [|w insts IH]; intros pc its E; cbn [relo_items] in E.
  { by simplify_eq. }
  destruct (relo_item pc w) as [it|] eqn:Hit; [|done]. cbn [mbind option_bind] in E.
  destruct (relo_items _ insts) as [its'|] eqn:Hits; [|done]. injection E as <-.
  constructor; [by eapply relo_item_ok|by eapply IH].
Qed.

Lemma all_lits_range its : forall o, Forall item_ok its ->
  Forall (fun l => (o <= fst l < o + length (all_words its))%nat) (all_lits o its).
Proof.
  induction its as [|it its IH]; intros o Hok; cbn [all_lits]; [constructor|].
  inversion Hok as [|? ? H1 H2]; subst. unfold all_words. cbn [map concat]. fold (all_words its).
  rewrite length_app. apply Forall_app. split.
  - unfold item_ok in H1. destruct (i_lit it) as [[k d]|]; repeat constructor; simpl; lia.
  - eapply Forall_impl; [|apply IH, H2]. simpl. intros. lia.
Qed.

Lemma all_words_app its its' : all_words (its ++ its') = all_words its ++ all_words its'.
Proof. unfold all_words. by rewrite map_app, concat_app. Qed.

Lemma all_lits_app its its' : forall o,
  all_lits o (its ++ its') = all_lits o its ++ all_lits (o + length (all_words its)) its'.
Proof.
  induction its as [|it its IH]; intros o; cbn [app all_lits].
  - by rewrite Nat.add_0_r.
  - rewrite IH, <- app_assoc. unfold all_words. cbn [map concat]. rewrite length_app. by rewrite Nat.add_assoc.
Qed.

(** The items of a whole relocation: those of the block and, if asked for, the jump
    back behind it. *)
Definition relo_block (origin_addr n : Z) (code : list Z) (branch : bool) : option (list item) :=
  its ← relo_items (u64 origin_addr) (words_from code 0 (Z.to_nat n));
  Some (if branch then its ++ [branch_item [] (u64 (origin_addr + 4 * n)) false] else its).

Lemma relo_block_ok origin_addr n code branch its :
  relo_block origin_addr n code branch = Some its -> Forall item_ok its.
Proof.
  unfold relo_block. destruct (relo_items _ _) as [its0|] eqn:E; [|done]. intros [= <-].
  apply relo_items_ok in E. destruct branch; [|done]. apply Forall_app. split; [done|]. repeat constructor.
Qed.

(** The code before its literals are bound. *)
Lemma relocate_code_rep origin_addr origin_size code n its branch :
  bytes_ok code -> 4 * n - 4 < origin_size <= 4 * n -> 0 < n -> 4 * n < 2 ^ 30 -> 4 * n <= Z.of_nat (length code) ->
  relo_block origin_addr n code branch = Some its ->
  4 * Z.of_nat (length (all_words its)) <= cb_limit ->
  exists a1 a, relocate_loop (Z.to_nat origin_size) origin_addr origin_size 0 code (AssemblerBase 0)
                 = Ret (4 * n, a1) /\
    (if branch then LiteralLdrBranch (u64 (origin_addr + 4 * n)) a1 else Ret a1) = Ret a /\
    asm_rep a (all_words its) (all_lits 0 its).
Proof.
  intros Hb Hsz Hn H30 Hl Hits Hlim. unfold relo_block in Hits.
  destruct (relo_items _ _) as [its0|] eqn:E; [|done]. injection Hits as <-.
  assert (Ha0 : asm_rep (AssemblerBase 0) [] []) by (split; [apply cb_new_rep|done]).
  assert (Hws : (length (all_words its0) <= length (all_words
            (if branch then its0 ++ [branch_item [] (u64 (origin_addr + 4 * n)) false] else its0)))%nat).
  { destruct branch; [rewrite all_words_app, length_app|]; lia. }
  destruct (relocate_loop_items (Z.to_nat n) 0 (Z.to_nat origin_size) origin_addr origin_size code
              (AssemblerBase 0) [] [] its0 Ha0 Hb) as (a1 & E1 & H1); try lia.
  { by rewrite Z.add_0_r. }
  { unfold fits. simpl length. lia. }
  change (4 * Z.of_nat 0) with 0 in E1. rewrite Nat.add_0_l, Z2Nat.id in E1 by lia.
  exists a1. destruct branch; [|by exists a1].
  rewrite all_words_app, length_app in Hlim. simpl length in Hlim.
  destruct (appends_branch Ret [] (u64 (origin_addr + 4 * n)) false emits_Ret (dst_range _) a1 _ _ H1)
    as (a2 & E2 & H2); [unfold fits; simpl length; lia|].
  exists a2. split; [done|]. split; [exact E2|]. rewrite all_words_app, all_lits_app.
  unfold all_words at 2. cbn [map concat all_lits]. by rewrite !app_nil_r.
Qed.

(** Binding the literals of finished code. *)
Lemma relocDataLabels_rep a its :
  asm_rep a (all_words its) (all_lits 0 its) -> Forall item_ok its ->
  4 * Z.of_nat (length (all_words its)) + 8 * Z.of_nat (length (all_lits 0 its)) <= cb_limit ->
  exists a', relocDataLabels a = Ret a' /\
    cb_rep (code_buffer_ a')
      (flat (patch (all_lits 0 its) (4 * Z.of_nat (length (all_words its))) (all_words its))
       ++ lit_bytes (all_lits 0 its)).
Proof.
  intros [Hb Hl] Hok Hlim. unfold relocDataLabels. rewrite Hl.
  destruct (reloc_labels_rep (all_lits 0 its) a (all_words its) []) as (ls & b & -> & Hb3);
    rewrite ?app_nil_r; [done| |rewrite length_flat; lia|].
  { eapply Forall_impl; [|apply (all_lits_range its 0 Hok)]. simpl. intros. lia. }
  cbn [mbind outcome_bind]. eexists. split; [reflexivity|]. rewrite app_nil_l, app_nil_r, length_flat in Hb3.
  by replace (Z.of_nat (4 * length (all_words its))) with (4 * Z.of_nat (length (all_words its))) in Hb3 by lia.
Qed.

Lemma relocate_rep origin_addr origin_size code n its branch :
  bytes_ok code -> 4 * n - 4 < origin_size <= 4 * n -> 0 < n -> 4 * n < 2 ^ 30 -> 4 * n <= Z.of_nat (length code) ->
  relo_block origin_addr n code branch = Some its ->
  4 * Z.of_nat (length (all_words its)) + 8 * Z.of_nat (length (all_lits 0 its)) <= cb_limit ->
  exists a, relocate origin_addr origin_size code branch = Ret (4 * n, a) /\
    cb_rep (code_buffer_ a)
      (flat (patch (all_lits 0 its) (4 * Z.of_nat (length (all_words its))) (all_words its))
       ++ lit_bytes (all_lits 0 its)).
Proof.
  intros Hb Hsz Hn H30 Hl Hits Hlim.
  pose proof (relo_block_ok _ _ _ _ _ Hits) as Hok.
  destruct (relocate_code_rep origin_addr origin_size code n its branch Hb Hsz Hn H30 Hl Hits ltac:(lia))
    as (a1 & a2 & E1 & E2 & H2).
  unfold relocate. rewrite (wrap_small 32 origin_size), E1 by lia. cbn [mbind outcome_bind].
  rewrite E2. cbn [mbind outcome_bind].
  destruct (relocDataLabels_rep a2 its H2 Hok Hlim) as (a & -> & Hb3). by exists a.
Qed.

End Refinement.

(** ** Where an item ends up *)

Lemma patch_other lits : forall p ws k, k ∉ map fst lits -> patch lits p ws !! k = ws !! k.
Proof.
  induction lits as [|[k' d] lits IH]; intros p ws k Hk; [done|]. cbn [patch].
  cbn [map fst] in Hk. rewrite not_elem_of_cons in Hk. destruct Hk as [Hne Hk].
  rewrite IH by done. by apply list_lookup_alter_ne.
Qed.

Lemma patch_lit lits : forall p ws j k dst w,
  NoDup (map fst lits) -> lits !! j = Some (k, dst) -> ws !! k = Some w ->
  patch lits p ws !! k = Some (encode_imm19_offset (u32 w) (p + 8 * Z.of_nat j - 4 * Z.of_nat k)).
Proof.
  induction lits as [|[k' d] lits IH]; intros p ws j k dst w Hnd Hj Hw; [done|].
  cbn [map fst] in Hnd. apply list.NoDup_cons in Hnd as [Hnot Hnd]. cbn [patch].
  destruct j as [|j]; cbn [lookup list_lookup] in Hj.
  - injection Hj as -> ->. rewrite patch_other by done.
    rewrite list_lookup_alter_eq, Hw. simpl. do 2 f_equal. lia.
  - assert (k <> k').
    { intros ->. apply Hnot. apply (list_elem_of_fmap_2' fst lits (k', dst)); [|done]. by eapply list_elem_of_lookup_2. }
    rewrite (IH _ _ j k dst w); [|done|done|by rewrite list_lookup_alter_ne].
    do 2 f_equal. lia.
Qed.

Lemma all_lits_NoDup its : forall o, Forall item_ok its -> NoDup (map fst (all_lits o its)).
Proof.
  induction its as [|it its IH]; intros o Hok; cbn [all_lits]; [constructor|].
  inversion Hok as [|? ? H1 H2]; subst. rewrite map_app. apply list.NoDup_app. split.
  - destruct (i_lit it) as [[k d]|]; simpl; [apply NoDup_singleton|apply NoDup_nil_2].
  - split; [|by apply IH].
    intros k Hk Hk'. pose proof (all_lits_range its (o + length (i_words it)) H2) as Hr.
    rewrite list.Forall_forall in Hr.
    apply list_elem_of_fmap in Hk' as ([k0 d0] & -> & Hin). specialize (Hr _ Hin).
    unfold item_ok in H1. destruct (i_lit it) as [[k d]|]; simpl in *; [|by apply not_elem_of_nil in Hk].
    apply list_elem_of_singleton in Hk. lia.
Qed.

(** The word number [i] and the 8 bytes at offset [off] of a byte string. *)
Definition quad_at (l : list Z) (off : Z) : Z := le_val (take 8 (drop (Z.to_nat off) l)).

(** [item_in l o it]: the words of the item are at word [o] of the string, and its
    literal load, if any, reaches the literal. *)
Definition item_in (l : list Z) (o : nat) (it : item) : Prop :=
  (4 * (o + length (i_words it)) <= length l)%nat /\
  forall j w, i_words it !! j = Some w ->
    match i_lit it with
    | Some (k, dst) =>
        if decide (j = k) then
          exists off, off mod 4 = 0 /\ 0 <= off < 2 ^ 20 /\ word_at l (o + j) = encode_imm19_offset (u32 w) off /\
            4 * Z.of_nat (o + j) + off + 8 <= Z.of_nat (length l) /\
            quad_at l (4 * Z.of_nat (o + j) + off) = u64 dst
        else word_at l (o + j) = u32 w
    | None => word_at l (o + j) = u32 w
    end.

Lemma lit_bytes_lookup lits j k dst :
  lits !! j = Some (k, dst) -> take 8 (drop (8 * j) (lit_bytes lits)) = le_bytes 8 dst.
Proof.
  revert j. induction lits as [|l lits IH]; intros [|j] Hj; cbn [lookup list_lookup] in Hj; try done.
  - injection Hj as ->. unfold lit_bytes. cbn [map concat snd]. change (8 * 0)%nat with 0%nat.
    rewrite drop_0. apply take_app_length'. by rewrite length_le_bytes.
  - replace (8 * S j)%nat with (8 + 8 * j)%nat by lia. unfold lit_bytes. cbn [map concat].
    rewrite <- drop_drop, drop_app_length' by (by rewrite length_le_bytes). by apply IH.
Qed.

Section Layout.
Context (its1 : list item) (it : item) (its2 : list item).
Context (Hok : Forall item_ok (its1 ++ it :: its2)).
Let its := its1 ++ it :: its2.
Let ws := all_words its.
Let lits := all_lits 0 its.
Let o := length (all_words its1).
Let p := 4 * Z.of_nat (length ws).
Let l := flat (patch lits p ws) ++ lit_bytes lits.

Lemma layout_lits :
  lits = all_lits 0 its1
         ++ match i_lit it with Some (k, dst) => [((o + k)%nat, dst)] | None => [] end
         ++ all_lits (o + length (i_words it)) its2.
Proof. unfold lits, its. rewrite all_lits_app. reflexivity. Qed.

Lemma layout_word j w : i_words it !! j = Some w -> ws !! (o + j)%nat = Some w.
Proof.
  intros Hj. unfold ws, its. rewrite all_words_app, lookup_app_r by lia.
  replace (o + j - _)%nat with j by (unfold o; lia).
  unfold all_words. cbn [map concat]. by rewrite lookup_app_l_Some with (x := w).
Qed.

Lemma layout_word_at i v : patch lits p ws !! i = Some v -> word_at l i = u32 v.
Proof. intros Hv. unfold word_at, l. by apply word_flat. Qed.

(** A word that is not the literal load of the item is no literal load at all. *)
Lemma layout_not_lit j :
  (j < length (i_words it))%nat -> (forall dst, i_lit it <> Some (j, dst)) -> (o + j)%nat ∉ map fst lits.
Proof.
  intros Hj Hne. rewrite layout_lits, !map_app, !elem_of_app.
  apply Forall_app in Hok as [Hok1 Hok2]. inversion Hok2 as [|? ? Hit Hok3]; subst.
  pose proof (all_lits_range its1 0 Hok1) as R1.
  pose proof (all_lits_range its2 (o + length (i_words it)) Hok3) as R2.
  rewrite list.Forall_forall in R1, R2.
  intros [H|[H|H]].
  - apply list_elem_of_fmap in H as ([x d] & E & H). specialize (R1 _ H). simpl in *. unfold o in *. lia.
  - destruct (i_lit it) as [[k d]|]; simpl in H; [|by apply not_elem_of_nil in H].
    apply list_elem_of_singleton in H. assert (j = k) as -> by lia. by apply (Hne d).
  - apply list_elem_of_fmap in H as ([x d] & E & H). specialize (R2 _ H). simpl in *. lia.
Qed.

Lemma layout_item :
  p + 8 * Z.of_nat (length lits) < 2 ^ 20 -> item_in l o it.
Proof.
  intros Hlim.
  assert (Hlen : length l = (4 * length ws + 8 * length lits)%nat).
  { unfold l. by rewrite length_app, length_flat, length_patch, length_lit_bytes. }
  split.
  { rewrite Hlen. unfold ws, its. rewrite all_words_app, length_app. unfold all_words at 2. cbn [map concat].
    rewrite length_app. unfold o. lia. }
  intros j w Hj. pose proof (layout_word j w Hj) as Hw. pose proof (lookup_lt_Some _ _ _ Hj) as Hlt.
  pose proof (lookup_lt_Some _ _ _ Hw) as Hlt'.
  assert (Hother : (forall dst, i_lit it <> Some (j, dst)) -> word_at l (o + j) = u32 w).
  { intros Hne. apply layout_word_at. by rewrite patch_other by (by apply layout_not_lit). }
  destruct (i_lit it) as [[k dst]|] eqn:Elit; [|by apply Hother].
  destruct (decide (j = k)) as [->|Hjk]; [|apply Hother; congruence].
  set (jj := length (all_lits 0 its1)).
  assert (Hl : lits !! jj = Some ((o + k)%nat, dst)).
  { rewrite layout_lits, Elit, lookup_app_r by (unfold jj; lia). by rewrite Nat.sub_diag. }
  pose proof (lookup_lt_Some _ _ _ Hl) as Hjj.
  pose proof (patch_lit lits p ws jj _ dst w (all_lits_NoDup its 0 Hok) Hl Hw) as Hp.
  exists (p + 8 * Z.of_nat jj - 4 * Z.of_nat (o + k)). unfold p in *.
  split; [apply Z.mod_divide; [lia|]; exists (Z.of_nat (length ws) + 2 * Z.of_nat jj - Z.of_nat (o + k)); lia|].
  split; [lia|]. split; [|split; [lia|]].
  - rewrite (layout_word_at _ _ Hp). unfold encode_imm19_offset. apply u32_set_bits.
  - unfold quad_at. replace (Z.to_nat _) with (4 * length ws + 8 * jj)%nat by lia. unfold l.
    rewrite <- drop_drop, drop_app_length' by (rewrite length_flat, length_patch; done).
    rewrite (lit_bytes_lookup lits jj _ dst Hl). by rewrite le_val_bytes.
Qed.

End Layout.

(** ** Properties *)

(** For a block of [n] instructions the relocator handles, [relocate] terminates with all [n] covered (also when
    the block size is not a multiple of four), and leaves in the code buffer exactly the concatenation of the
    instructions' position-independent sequences and the jump back, with every literal load patched to the
    distance of its literal, followed by the literals in order. *)
Theorem relocate_emits_items origin_addr origin_size code n its branch :
  bytes_ok code -> 4 * n - 4 < origin_size <= 4 * n -> 0 < n -> 4 * n < 2 ^ 30 -> 4 * n <= Z.of_nat (length code) ->
  relo_block origin_addr n code branch = Some its ->
  4 * Z.of_nat (length (all_words its)) + 8 * Z.of_nat (length (all_lits 0 its)) <= cb_limit ->
  exists a, relocate (Buf := MemBuffer) origin_addr origin_size code branch = Ret (4 * n, a) /\
    dup (code_buffer_ a) =
      Ret (map Some (flat (patch (all_lits 0 its) (4 * Z.of_nat (length (all_words its))) (all_words its))
                     ++ lit_bytes (all_lits 0 its))).
Proof.
  intros Hb Hsz Hn H30 Hl Hits Hlim.
  destruct (relocate_rep (Buf := MemBuffer) origin_addr origin_size code n its branch) as (a & E & Hr); try done.
  exists a. split; [exact E|]. exact (dup_ok _ _ Hr).
Qed.

(** [b #-16; cbz w0, #8; adr x1, #12; add x0, x0, x0]. *)
Definition sample_block : list Z := flat [0x17FFFFFC; 0x34000040; 0x10000061; 0x8B000000].

Lemma sample_block_ok : bytes_ok sample_block.
Proof. apply flat_bytes_ok. Qed.

Example relocate_emits_items_witness :
  exists its, relo_block 0x4000 4 sample_block true = Some its /\
  exists a, relocate (Buf := MemBuffer) 0x4000 16 sample_block true = Ret (16, a) /\
    dup (code_buffer_ a) =
      Ret (map Some (flat (patch (all_lits 0 its) (4 * Z.of_nat (length (all_words its))) (all_words its))
                     ++ lit_bytes (all_lits 0 its))).
Proof.
  eexists. split; [vm_compute; reflexivity|].
  apply (relocate_emits_items 0x4000 16 sample_block 4 _ true);
    [exact sample_block_ok|lia|lia|lia|vm_compute; discriminate|vm_compute; reflexivity|vm_compute; discriminate].
Defined.

(** Literal loads of the classes the relocator does not implement (LDRSW, PRFM and the 128-bit SIMD load) crash it:
    whatever was emitted before, reaching one ends in the [UNIMPLEMENTED] abort. *)
Theorem relocate_unsupported_literal pc inst (a : AssemblerT MemBuffer) ws ls :
  inst_is_ldr_literal inst = true -> inst_is_b_bl inst = false -> 2 <= bits inst 30 31 ->
  asm_rep a ws ls -> 4 * Z.of_nat (length ws + 4) <= cb_limit ->
  relo_item pc inst = None /\ relocate_inst pc inst a = Fatal.
Proof.
  intros Hl Hb Ho Ha Hlim. unfold relo_item, relocate_inst. rewrite Hb, Hl.
  destruct (Z.leb_spec (bits inst 30 31) 1); [lia|]. split; [done|].
  destruct (appends_Mov 17 (u64 (pc + decode_imm19_offset inst)) a ws ls Ha Hlim) as (a' & E & _).
  change (X 17) with TMP_REG_0 in E. rewrite E. cbn [mbind outcome_bind].
  destruct (Z.eqb_spec (bits inst 30 31) 0); [lia|]. destruct (Z.eqb_spec (bits inst 30 31) 1); [lia|done].
Qed.

(** [ldrsw x0, #8]. *)
Example relocate_unsupported_literal_witness :
  relo_item 0x4000 0x98000040 = None /\
  relocate_inst 0x4000 0x98000040 (AssemblerBase (Buf := MemBuffer) 0) = Fatal.
Proof.
  apply (relocate_unsupported_literal 0x4000 0x98000040 _ [] []);
    [reflexivity|reflexivity|vm_compute; discriminate|split; [apply new_ok|reflexivity]|vm_compute; discriminate].
Defined.
