(* ===== verification/Arm64Machine.v ===== *)
(** * A64 reference semantics

    The instructions the relocator rewrites and the ones it emits, after the Arm
    Architecture Reference Manual (chapters C4 and C6): field positions, sign
    extension and effect on the program counter, the registers, the flags and
    memory.  Nothing here is taken from the relocator; registers are 64-bit values,
    memory is a function from addresses to bytes. *)

From S2P Require Import Prelude.
#[local] Open Scope Z_scope.

Record flags_t := { N : bool; Zf : bool; C : bool; V : bool }.

Record state := {
  pc : Z;
  regs : Z -> Z;
  sp : Z;
  flags : flags_t;
  mem : Z -> Z;
}.

(** [n] bits of [w] from bit [lo] on. *)
Definition fld (w lo n : Z) : Z := (w / 2 ^ lo) mod 2 ^ n.
Definition signed (n v : Z) : Z := if v <? 2 ^ (n - 1) then v else v - 2 ^ n.

Inductive insn :=
| B_imm (link : bool) (offset : Z)
| LDR_lit (x : bool) (rt offset : Z)
| ADR_imm (rd offset : Z)
| ADRP_imm (rd offset : Z)
| B_cond (cond offset : Z)
| CB (x nonzero : bool) (rt offset : Z)
| TB (nonzero : bool) (rt bitno offset : Z)
| MOV_wide (keep : bool) (rd hw imm16 : Z)
| LDR_uimm (rt rn offset : Z)
| ADD_uimm (rd rn imm : Z)
| B_reg (link : bool) (rn : Z).

Definition decode (w : Z) : option insn :=
  if fld w 26 5 =? 5 then Some (B_imm (fld w 31 1 =? 1) (4 * signed 26 (fld w 0 26)))
  else if (fld w 27 3 =? 3) && (fld w 24 2 =? 0) then
    if (fld w 26 1 =? 0) && (fld w 30 2 <? 2)
    then Some (LDR_lit (fld w 30 2 =? 1) (fld w 0 5) (4 * signed 19 (fld w 5 19))) else None
  else if fld w 24 5 =? 16 then
    let imm := signed 21 (fld w 29 2 + 4 * fld w 5 19) in
    Some (if fld w 31 1 =? 0 then ADR_imm (fld w 0 5) imm else ADRP_imm (fld w 0 5) (imm * 2 ^ 12))
  else if fld w 25 7 =? 42 then
    if (fld w 24 1 =? 0) && (fld w 4 1 =? 0)
    then Some (B_cond (fld w 0 4) (4 * signed 19 (fld w 5 19))) else None
  else if fld w 25 6 =? 26 then
    Some (CB (fld w 31 1 =? 1) (fld w 24 1 =? 1) (fld w 0 5) (4 * signed 19 (fld w 5 19)))
  else if fld w 25 6 =? 27 then
    Some (TB (fld w 24 1 =? 1) (fld w 0 5) (32 * fld w 31 1 + fld w 19 5) (4 * signed 14 (fld w 5 14)))
  else if fld w 23 9 =? 0x1a5 then Some (MOV_wide false (fld w 0 5) (fld w 21 2) (fld w 5 16))
  else if fld w 23 9 =? 0x1e5 then Some (MOV_wide true (fld w 0 5) (fld w 21 2) (fld w 5 16))
  else if fld w 22 10 =? 0x3e5 then Some (LDR_uimm (fld w 0 5) (fld w 5 5) (8 * fld w 10 12))
  else if fld w 22 10 =? 0x244 then Some (ADD_uimm (fld w 0 5) (fld w 5 5) (fld w 10 12))
  else if fld w 22 10 =? 0x245 then Some (ADD_uimm (fld w 0 5) (fld w 5 5) (fld w 10 12 * 2 ^ 12))
  else if (fld w 10 22 =? 0x3587c0) && (fld w 0 5 =? 0) then Some (B_reg false (fld w 5 5))
  else if (fld w 10 22 =? 0x358fc0) && (fld w 0 5 =? 0) then Some (B_reg true (fld w 5 5))
  else None.

(** Register 31 reads as zero and is not written; in an address it is the stack
    pointer. *)
Definition get (s : state) (r : Z) : Z := if r =? 31 then 0 else regs s r.
Definition get_sp (s : state) (r : Z) : Z := if r =? 31 then sp s else regs s r.
Definition set (r v : Z) (s : state) : state :=
  if r =? 31 then s
  else {| pc := pc s; regs := fun r' => if r' =? r then v else regs s r'; sp := sp s; flags := flags s; mem := mem s |}.
Definition set_sp (r v : Z) (s : state) : state :=
  if r =? 31 then {| pc := pc s; regs := regs s; sp := v; flags := flags s; mem := mem s |} else set r v s.
Definition jump (a : Z) (s : state) : state :=
  {| pc := u64 a; regs := regs s; sp := sp s; flags := flags s; mem := mem s |}.
Definition next (s : state) : state := jump (pc s + 4) s.

Definition bytes_from (m : Z -> Z) (a : Z) (n : nat) : list Z := map (fun i => m (u64 (a + Z.of_nat i))) (seq 0 n).
Definition load (n : nat) (m : Z -> Z) (a : Z) : Z := le_val (bytes_from m a n).

(** [ConditionHolds]. *)
Definition cond_holds (f : flags_t) (cond : Z) : bool :=
  let base :=
    match cond / 2 with
    | 0 => Zf f
    | 1 => C f
    | 2 => N f
    | 3 => V f
    | 4 => C f && negb (Zf f)
    | 5 => Bool.eqb (N f) (V f)
    | 6 => Bool.eqb (N f) (V f) && negb (Zf f)
    | _ => true
    end in
  if (cond mod 2 =? 1) && negb (cond =? 15) then negb base else base.

Definition branch_if (c : bool) (offset : Z) (s : state) : state :=
  if c then jump (pc s + offset) s else next s.

Definition exec (i : insn) (s : state) : state :=
  match i with
  | B_imm link offset =>
      jump (pc s + offset) (if link then set 30 (u64 (pc s + 4)) s else s)
  | LDR_lit x rt offset => next (set rt (load (if x then 8 else 4) (mem s) (pc s + offset)) s)
  | ADR_imm rd offset => next (set rd (u64 (pc s + offset)) s)
  | ADRP_imm rd offset => next (set rd (u64 (pc s - pc s mod 2 ^ 12 + offset)) s)
  | B_cond cond offset => branch_if (cond_holds (flags s) cond) offset s
  | CB x nonzero rt offset =>
      let v := if x then get s rt else get s rt mod 2 ^ 32 in
      branch_if (Bool.eqb nonzero (negb (v =? 0))) offset s
  | TB nonzero rt bitno offset => branch_if (Bool.eqb nonzero (Z.testbit (get s rt) bitno)) offset s
  | MOV_wide keep rd hw imm16 =>
      let old := if keep then get s rd - fld (get s rd) (16 * hw) 16 * 2 ^ (16 * hw) else 0 in
      next (set rd (old + imm16 * 2 ^ (16 * hw)) s)
  | LDR_uimm rt rn offset => next (set rt (load 8 (mem s) (get_sp s rn + offset)) s)
  | ADD_uimm rd rn imm => next (set_sp rd (u64 (get_sp s rn + imm)) s)
  | B_reg link rn =>
      let target := get s rn in
      jump target (if link then set 30 (u64 (pc s + 4)) s else s)
  end.

(** One step: fetch, decode, execute; [None] on anything else. *)
Definition step (s : state) : option state :=
  i ← decode (load 4 (mem s) (pc s)); Some (exec i s).

Fixpoint run (n : nat) (s : state) : option state :=
  match n with
  | O => Some s
  | S n => s ← step s; run n s
  end.

Definition at_pc (a : Z) (s : state) : state :=
  {| pc := a; regs := regs s; sp := sp s; flags := flags s; mem := mem s |}.

(** ** Facts about the semantics *)

Lemma run_app n m s t : run n s = Some t -> run (n + m) s = run m t.
Proof.
  revert s. induction n as [|n IH]; intros s E; cbn [run Nat.add] in *; [congruence|].
  destruct (step s) as [s'|]; [|done]. by apply IH.
Qed.

(** Conditions come in pairs that differ in bit 0; 14 and 15 both always hold. *)
Lemma cond_holds_flip f cond :
  0 <= cond < 14 -> cond_holds f (Z.lxor cond 1) = negb (cond_holds f cond).
Proof.
  intros H. destruct f as [n z c v].
  each_index cond 14%nat ltac:(destruct n, z, c, v; vm_compute; reflexivity).
Qed.

Lemma fld_range w lo n : 0 <= n -> 0 <= fld w lo n < 2 ^ n.
Proof. intros. apply Z.mod_pos_bound, Z.pow_pos_nonneg; lia. Qed.

(** [loaded m base l]: the bytes [l] are in memory from [base] on. *)
Record loaded (m : Z -> Z) (base : Z) (l : list Z) : Prop := {
  ld_low : 0 <= base;
  ld_high : base + Z.of_nat (length l) < 2 ^ 64;
  ld_byte : forall i, (i < length l)%nat -> m (base + Z.of_nat i) = nth i l 0;
}.

Lemma nth_take {A} (l : list A) n i d : (i < n)%nat -> nth i (take n l) d = nth i l d.
Proof.
  revert n i. induction l as [|x l IH]; intros [|n] [|i] Hi; simpl; try done; try lia; try (apply IH; lia).
Qed.

Lemma load_loaded m base l off n :
  loaded m base l -> (off + n <= length l)%nat ->
  load n m (base + Z.of_nat off) = le_val (take n (drop off l)).
Proof.
  intros [Hlo Hhi Hb] Hn. unfold load, bytes_from. f_equal.
  apply nth_ext with (d := 0) (d' := 0).
  { rewrite length_map, length_seq, length_take, length_drop. lia. }
  intros i Hi. rewrite length_map, length_seq in Hi.
  rewrite nth_indep with (d' := m (u64 (base + Z.of_nat off + Z.of_nat 0))) by (rewrite length_map, length_seq; done).
  rewrite (map_nth (fun i => m (u64 (base + Z.of_nat off + Z.of_nat i)))), seq_nth by done.
  rewrite nth_take, nth_drop by done. rewrite wrap_small by lia.
  rewrite <- Hb by lia. f_equal. lia.
Qed.
