(* ===== verification/BitFields.v ===== *)
(** * Bit fields of instruction words

    The field [fld w lo n] of the reference decoders against the masks, shifts and
    macros of the sources, and the fields of words built from parts. *)

From S2P Require Import Prelude UtilityMacro Arm64Machine.
#[local] Open Scope Z_scope.

Lemma fld_bits w lo n : 0 <= lo -> 0 < n -> fld w lo n = bits w lo (lo + n - 1).
Proof. intros. unfold fld. rewrite bits_alt by lia. do 2 f_equal. lia. Qed.

Lemma land_fld w lo n : 0 <= lo -> 0 <= n -> Z.land w (Z.shiftl (Z.ones n) lo) = Z.shiftl (fld w lo n) lo.
Proof.
  intros. unfold fld. rewrite <- Z.land_ones, <- Z.shiftr_div_pow2 by done.
  apply Z.bits_inj'. intros i Hi. rewrite Z.land_spec, !testbit_shiftl, Z.land_spec by done.
  destruct (Z.ltb_spec i lo).
  - rewrite !(Z.testbit_neg_r _ (i - lo)) by lia. btauto.
  - rewrite Z.shiftr_spec by lia. by replace (i - lo + lo) with i by lia.
Qed.

Lemma shiftl_eqb a b n : 0 <= n -> (Z.shiftl a n =? Z.shiftl b n) = (a =? b).
Proof.
  intros. rewrite !Z.shiftl_mul_pow2 by done. assert (0 < 2 ^ n) by (apply Z.pow_pos_nonneg; lia).
  destruct (Z.eqb_spec a b) as [->|]; [apply Z.eqb_refl|]. apply Z.eqb_neq. nia.
Qed.

(** A mask-and-compare test on one field. *)
Lemma class_fld w mask fixed lo n v :
  0 <= lo -> 0 <= n -> mask = Z.shiftl (Z.ones n) lo -> fixed = Z.shiftl v lo ->
  (Z.land w mask =? fixed) = (fld w lo n =? v).
Proof. intros ?? -> ->. by rewrite land_fld, shiftl_eqb. Qed.

Lemma lor_shift_split a b lo n lo' :
  0 <= lo -> lo + n <= lo' -> 0 <= a < 2 ^ n ->
  Z.lor (Z.shiftl a lo) (Z.shiftl b lo') = Z.shiftl (a + b * 2 ^ (lo' - lo)) lo.
Proof.
  intros Hlo Hlo' Ha. destruct (Z.ltb_spec n 0); [rewrite Z.pow_neg_r in Ha; lia|].
  rewrite lor_disjoint_add.
  - rewrite !Z.shiftl_mul_pow2, Z.mul_add_distr_r, <- Z.mul_assoc, <- Z.pow_add_r by lia. do 3 f_equal. lia.
  - apply Z.bits_inj'. intros i Hi. rewrite Z.land_spec, !testbit_shiftl, Z.testbit_0_l by done.
    destruct (Z.ltb_spec i lo'); [rewrite (Z.testbit_neg_r b) by lia; apply andb_false_r|].
    by rewrite (testbit_high n a) by lia.
Qed.

(** Tests on two fields at once. *)
Lemma class_fld2 w mask fixed lo n v lo' n' v' :
  0 <= lo -> 0 <= n -> lo + n <= lo' -> 0 <= n' -> 0 <= v < 2 ^ n ->
  mask = Z.lor (Z.shiftl (Z.ones n) lo) (Z.shiftl (Z.ones n') lo') ->
  fixed = Z.lor (Z.shiftl v lo) (Z.shiftl v' lo') ->
  (Z.land w mask =? fixed) = (fld w lo n =? v) && (fld w lo' n' =? v').
Proof.
  intros Hlo Hn Hlo' Hn' Hv -> ->. rewrite Z.land_lor_distr_r, !land_fld by lia.
  pose proof (fld_range w lo n Hn) as Hf.
  rewrite !(lor_shift_split _ _ lo n lo'), shiftl_eqb by done.
  assert (2 ^ n <= 2 ^ (lo' - lo)) by (apply Z.pow_le_mono_r; lia).
  destruct (Z.eqb_spec (fld w lo n) v) as [->|], (Z.eqb_spec (fld w lo' n') v') as [->|]; simpl;
    (apply Z.eqb_eq || apply Z.eqb_neq); nia.
Qed.

Lemma fld_top w c lo n : 0 <= c <= lo -> fld w lo n = fld (w / 2 ^ c) (lo - c) n.
Proof.
  intros. unfold fld. rewrite Z.div_div by (try apply Z.pow_nonzero; try apply Z.pow_pos_nonneg; lia).
  rewrite <- Z.pow_add_r by lia. do 3 f_equal. lia.
Qed.

(** Filling a field that is zero. *)
Lemma lor_field c k lo n :
  0 <= lo -> 0 <= n -> 0 <= k < 2 ^ n -> fld c lo n = 0 -> Z.lor c (Z.shiftl k lo) = c + k * 2 ^ lo.
Proof.
  intros Hlo Hn Hk Hc. rewrite <- Z.shiftl_mul_pow2 by done. apply lor_disjoint_add.
  apply Z.bits_inj'. intros i Hi. rewrite Z.land_spec, testbit_shiftl, Z.testbit_0_l by done.
  destruct (Z.ltb_spec i lo); [by rewrite (Z.testbit_neg_r k), andb_false_r by lia|].
  destruct (Z.ltb_spec i (lo + n)); [|by rewrite (testbit_high n k), andb_false_r by lia].
  replace (Z.testbit c i) with (Z.testbit (fld c lo n) (i - lo)); [by rewrite Hc, Z.testbit_0_l|].
  unfold fld. rewrite Z.testbit_mod_pow2, <- Z.shiftr_div_pow2, Z.shiftr_spec by lia.
  replace (i - lo + lo) with i by lia. by destruct (Z.ltb_spec (i - lo) n); [|lia].
Qed.

(** Evaluate a field of a sum whose parts do not overlap. *)
Ltac field_arith :=
  unfold fld;
  repeat match goal with |- context [2 ^ ?n] => let v := eval vm_compute in (2 ^ n) in change (2 ^ n) with v end;
  Z.div_mod_to_equations; lia.

Lemma fld_set_bits_same w st fn v n :
  0 <= st <= fn -> fn < 32 -> 0 <= v < 2 ^ (fn - st + 1) -> n = fn - st + 1 -> fld (set_bits w st fn v) st n = v.
Proof. intros ??? ->. rewrite fld_bits by lia. replace (st + _ - 1) with fn by lia. by apply bits_set_bits_same. Qed.

Lemma fld_set_bits_other w st fn v lo n :
  0 <= st <= fn -> fn < 32 -> 0 <= v < 2 ^ (fn - st + 1) ->
  0 <= lo -> 0 < n -> lo + n <= 32 -> (lo + n <= st \/ fn < lo) -> fld (set_bits w st fn v) lo n = fld w lo n.
Proof. intros. rewrite !fld_bits by lia. apply bits_set_bits_other; lia. Qed.

Lemma bits_fld w lo hi : 0 <= lo <= hi -> bits w lo hi = fld w lo (hi - lo + 1).
Proof. intros. by rewrite bits_alt. Qed.

Lemma bit_fld w i : 0 <= i -> bit w i = fld w i 1.
Proof. intros. rewrite bit_testbit, Z.testbit_spec' by done. done. Qed.

(** A field above or below a given bit of a sum. *)
Lemma fld_high a b k lo n : 0 <= k <= lo -> 0 <= b < 2 ^ k -> fld (a * 2 ^ k + b) lo n = fld a (lo - k) n.
Proof.
  intros Hk Hb. unfold fld. f_equal. replace (2 ^ lo) with (2 ^ k * 2 ^ (lo - k)) by (rewrite <- Z.pow_add_r by lia; f_equal; lia).
  rewrite <- Zdiv_Zdiv by (apply Z.pow_nonneg; lia). rewrite Z.div_add_l by (apply Z.pow_nonzero; lia).
  rewrite (Z.div_small b) by lia. f_equal. lia.
Qed.

Lemma fld_low a b k lo n : 0 <= lo -> 0 <= n -> lo + n <= k -> fld (a * 2 ^ k + b) lo n = fld b lo n.
Proof.
  intros Hlo Hn Hk. unfold fld.
  replace (a * 2 ^ k + b) with (b + a * 2 ^ (k - lo - n) * 2 ^ n * 2 ^ lo).
  - rewrite Z.div_add by (apply Z.pow_nonzero; lia). by rewrite Z_mod_plus_full.
  - rewrite <- Z.mul_assoc, <- Z.pow_add_r, <- Z.mul_assoc, <- Z.pow_add_r by lia.
    replace (k - lo - n + (n + lo)) with k by lia. ring.
Qed.

Lemma fld_all b n : 0 <= b < 2 ^ n -> fld b 0 n = b.
Proof. intros. unfold fld. by rewrite Z.div_1_r, Z.mod_small. Qed.
