(* ===== verification/Arm64Simulation.v ===== *)
(** * Relocated ARM64 code behaves like the original

    The sequences of Arm64Relocation against the semantics of Arm64Machine: for
    every instruction the relocator rewrites, running its sequence at the new address
    has the effect of the instruction at its old address, except for the scratch
    register x17 and, after [bl], for the return address, which is the one in the
    relocated code. *)

From S2P Require Import Prelude UtilityMacro CodeMemBuffer Arm64Kit Arm64Assembler Arm64Relocation Arm64Machine BitFields.
#[local] Open Scope Z_scope.

(** ** Fields *)

Lemma is_b_bl_fld w : inst_is_b_bl w = (fld w 26 5 =? 5).
Proof. by apply class_fld. Qed.
Lemma is_b_cond_fld w : inst_is_b_cond w = (fld w 25 7 =? 42).
Proof. by apply class_fld. Qed.
Lemma is_compare_b_fld w : inst_is_compare_b w = (fld w 25 6 =? 26).
Proof. by apply class_fld. Qed.
Lemma is_test_b_fld w : inst_is_test_b w = (fld w 25 6 =? 27).
Proof. by apply class_fld. Qed.

Lemma is_ldr_literal_fld w : inst_is_ldr_literal w = (fld w 24 2 =? 0) && (fld w 27 3 =? 3).
Proof. apply class_fld2; done || lia. Qed.
Lemma is_adr_fld w : inst_is_adr w = (fld w 24 5 =? 16) && (fld w 31 1 =? 0).
Proof.
  unfold inst_is_adr. rewrite (class_fld w _ _ 24 5 16) by done.
  rewrite (class_fld2 w _ _ 24 5 16 31 1 0) by done || lia.
  destruct (fld w 24 5 =? 16); done.
Qed.
Lemma is_adrp_fld w : inst_is_adrp w = (fld w 24 5 =? 16) && (fld w 31 1 =? 1).
Proof.
  unfold inst_is_adrp. rewrite (class_fld w _ _ 24 5 16) by done.
  rewrite (class_fld2 w _ _ 24 5 16 31 1 1) by done || lia.
  destruct (fld w 24 5 =? 16); done.
Qed.

(** ** Offsets *)

Lemma sext_signed n f : 0 < n -> 0 <= f < 2 ^ n -> sext (2 + n) (Z.shiftl f 2) = 4 * signed n f.
Proof.
  intros Hn Hf. unfold sext, signed. rewrite Z.shiftl_mul_pow2 by lia. change (2 ^ 2) with 4.
  replace (2 + n - 1) with (2 + (n - 1)) by lia. rewrite !Z.pow_add_r by lia. change (2 ^ 2) with 4.
  rewrite Z.mod_small by lia.
  destruct (Z.ltb_spec (f * 4) (4 * 2 ^ (n - 1))), (Z.ltb_spec f (2 ^ (n - 1))); lia.
Qed.

Lemma decode_imm26_spec w : decode_imm26_offset w = 4 * signed 26 (fld w 0 26).
Proof.
  rewrite fld_bits by lia. unfold decode_imm26_offset. simpl (0 + 26 - 1).
  pose proof (bits_range w 0 25 ltac:(lia)).
  rewrite SignExtend_sext, sext_signed; [done|lia|done|lia|]. rewrite Z.shiftl_mul_pow2 by lia. simpl in *. lia.
Qed.
Lemma decode_imm19_spec w : decode_imm19_offset w = 4 * signed 19 (fld w 5 19).
Proof.
  rewrite fld_bits by lia. unfold decode_imm19_offset. simpl (5 + 19 - 1).
  pose proof (bits_range w 5 23 ltac:(lia)).
  rewrite SignExtend_sext, sext_signed; [done|lia|done|lia|]. rewrite Z.shiftl_mul_pow2 by lia. simpl in *. lia.
Qed.
Lemma decode_imm14_spec w : decode_imm14_offset w = 4 * signed 14 (fld w 5 14).
Proof.
  rewrite fld_bits by lia. unfold decode_imm14_offset. simpl (5 + 14 - 1).
  pose proof (bits_range w 5 18 ltac:(lia)).
  rewrite SignExtend_sext, sext_signed; [done|lia|done|lia|]. rewrite Z.shiftl_mul_pow2 by lia. simpl in *. lia.
Qed.
Lemma decode_adr_spec w : decode_immhi_immlo_offset w = signed 21 (fld w 29 2 + 4 * fld w 5 19).
Proof.
  rewrite decode_immhi_immlo_sext, !fld_bits, Z.shiftl_mul_pow2 by lia. simpl (29 + 2 - 1). simpl (5 + 19 - 1).
  pose proof (bits_range w 29 30 ltac:(lia)). pose proof (bits_range w 5 23 ltac:(lia)).
  unfold sext, signed. rewrite Z.mod_small by (simpl in *; lia).
  by replace (bits w 29 30 + bits w 5 23 * 2 ^ 2) with (bits w 29 30 + 4 * bits w 5 23) by lia.
Qed.

(** ** The emitted words *)

(** Decide the class tests of [decode] from the bits above [c], which [Ht : w / 2 ^ c = t] gives. *)
Ltac decode_from w c Ht :=
  unfold decode;
  repeat match goal with |- context [fld w ?lo ?n] =>
    let b := eval vm_compute in (c <=? lo) in
    match b with true => rewrite (fld_top w c lo n), Ht by lia end end;
  repeat match goal with |- context [fld ?a ?lo ?n] =>
    match a with Zpos _ =>
      let v := eval vm_compute in (fld a lo n) in change (fld a lo n) with v end end;
  cbn [Z.eqb Z.ltb Z.compare Pos.eqb Pos.compare Pos.compare_cont andb negb].

Lemma decode_LDR_TMP off :
  off mod 4 = 0 -> 0 <= off < 2 ^ 20 ->
  decode (encode_imm19_offset (u32 LDR_TMP) off) = Some (LDR_lit true 17 off).
Proof.
  intros H4 Hr. unfold encode_imm19_offset.
  assert (Hf : u32 (bits (Z.shiftr off 2) 0 18) = off / 4).
  { rewrite bits_wrap_small, bits_alt, Z.div_1_r, Z.shiftr_div_pow2 by lia. change (2 ^ 2) with 4.
    apply Z.mod_small. simpl in *. split; [apply Z.div_pos|apply Z.div_lt_upper_bound]; simpl; lia. }
  rewrite Hf. set (k := off / 4).
  assert (Hk : off = 4 * k) by (unfold k; pose proof (Z.div_mod off 4 ltac:(lia)); lia).
  assert (Hk2 : 0 <= k < 2 ^ 18) by (simpl in *; lia). clearbody k. clear Hf.
  assert (Hw : set_bits (u32 LDR_TMP) 5 23 k = 0x58000011 + k * 32).
  { unfold set_bits. change (Z.land _ (u32 LDR_TMP)) with 0x58000011.
    rewrite (lor_field _ k 5 18) by (done || lia).
    rewrite wrap_small; simpl in *; lia. }
  rewrite Hw. set (w := 0x58000011 + k * 32).
  assert (Ht : w / 2 ^ 24 = 0x58) by (unfold w; simpl in *; Z.div_mod_to_equations; lia).
  assert (F1 : fld w 0 5 = 17) by (unfold w; simpl in *; field_arith).
  assert (F2 : fld w 5 19 = k) by (unfold w; simpl in *; field_arith).
  clearbody w. decode_from w 24 Ht. rewrite F1, F2.
  unfold signed. destruct (Z.ltb_spec k (2 ^ (19 - 1))); [|simpl in *; lia]. by rewrite <- Hk.
Qed.

Lemma decode_BR_TMP : decode (u32 (Z.lor BR (Rn TMP_REG_0))) = Some (B_reg false 17).
Proof. reflexivity. Qed.
Lemma decode_BLR_TMP : decode (u32 (Z.lor BLR (Rn TMP_REG_0))) = Some (B_reg true 17).
Proof. reflexivity. Qed.

Lemma decode_mov_word (keep : bool) hw h rd :
  0 <= hw < 4 -> 0 <= h < 2 ^ 16 -> 0 <= rd < 32 ->
  let c0 := (if keep then 0xF2800000 else 0xD2800000) + hw * 2 ^ 21 in
  decode (u32 (Z.lor (Z.lor c0 (LeftShift h 16 5)) rd)) = Some (MOV_wide keep rd hw h).
Proof.
  intros Hhw Hh Hrd c0.
  assert (Hc : c0 = (if keep then 0xF2800000 else 0xD2800000) + hw * 2097152) by reflexivity.
  assert (Hl : LeftShift h 16 5 = Z.shiftl h 5).
  { rewrite LeftShift_alt, Z.mod_small, Z.shiftl_mul_pow2 by lia. done. }
  rewrite Hl, (lor_field c0 h 5 16) by (try lia; rewrite Hc; destruct keep; field_arith).
  rewrite <- (Z.shiftl_0_r rd) at 1.
  rewrite (lor_field _ rd 0 5) by (try (simpl; lia); rewrite Hc; simpl in *; destruct keep; field_arith).
  rewrite Z.pow_0_r, Z.mul_1_r. change (2 ^ 5) with 32. change (2 ^ 16) with 65536 in Hh.
  rewrite wrap_small by (rewrite Hc; simpl; destruct keep; lia).
  set (w := c0 + h * 32 + rd).
  assert (Ht : w / 2 ^ 23 = if keep then 0x1e5 else 0x1a5)
    by (unfold w; rewrite Hc; change (2 ^ 23) with 8388608; destruct keep; Z.div_mod_to_equations; lia).
  assert (F1 : fld w 0 5 = rd) by (unfold w; rewrite Hc; destruct keep; field_arith).
  assert (F2 : fld w 21 2 = hw) by (unfold w; rewrite Hc; destruct keep; field_arith).
  assert (F3 : fld w 5 16 = h) by (unfold w; rewrite Hc; destruct keep; field_arith).
  clearbody w. destruct keep; decode_from w 23 Ht; by rewrite F1, F2, F3.
Qed.

Lemma decode_ldr_word rt :
  0 <= rt < 32 ->
  decode (u32 (Z.lor (Z.lor (Z.lor LoadStoreUnsignedOffsetFixed (LoadStoreOp_value LDR_x)) (Rn TMP_REG_0)) rt))
  = Some (LDR_uimm rt 17 0).
Proof.
  intros Hrt. change (Z.lor (Z.lor LoadStoreUnsignedOffsetFixed _) _) with 0xF9400220.
  rewrite <- (Z.shiftl_0_r rt) at 1. rewrite (lor_field _ rt 0 5);
    [|lia|lia|change (2 ^ 5) with 32; lia|vm_compute; reflexivity].
  rewrite Z.pow_0_r, Z.mul_1_r, wrap_small by (simpl; lia). set (w := 0xF9400220 + rt).
  assert (Ht : w / 2 ^ 5 = 0x7CA0011) by (unfold w; change (2 ^ 5) with 32; Z.div_mod_to_equations; lia).
  assert (F1 : fld w 0 5 = rt) by (unfold w; field_arith).
  clearbody w. decode_from w 5 Ht. by rewrite F1.
Qed.

(** ** The inverted branches *)

Lemma decode_B_cond w :
  0 <= w < 2 ^ 32 -> fld w 25 7 = 42 -> fld w 24 1 = 0 -> fld w 4 1 = 0 ->
  decode w = Some (B_cond (fld w 0 4) (4 * signed 19 (fld w 5 19))).
Proof.
  intros Hw H1 H2 H3.
  assert (Ht : w / 2 ^ 24 = 84) by (revert Hw H1 H2; field_arith).
  decode_from w 24 Ht. by rewrite H3.
Qed.

Lemma decode_CB w :
  0 <= w < 2 ^ 32 -> fld w 25 6 = 26 ->
  decode w = Some (CB (fld w 31 1 =? 1) (fld w 24 1 =? 1) (fld w 0 5) (4 * signed 19 (fld w 5 19))).
Proof.
  intros Hw H1.
  assert (Ht : w / 2 ^ 24 = 52 \/ w / 2 ^ 24 = 53 \/ w / 2 ^ 24 = 180 \/ w / 2 ^ 24 = 181)
    by (revert Hw H1; field_arith).
  destruct Ht as [Ht|[Ht|[Ht|Ht]]]; decode_from w 24 Ht; reflexivity.
Qed.

Lemma decode_TB w :
  0 <= w < 2 ^ 32 -> fld w 25 6 = 27 ->
  decode w = Some (TB (fld w 24 1 =? 1) (fld w 0 5) (32 * fld w 31 1 + fld w 19 5) (4 * signed 14 (fld w 5 14))).
Proof.
  intros Hw H1.
  assert (Ht : w / 2 ^ 24 = 54 \/ w / 2 ^ 24 = 55 \/ w / 2 ^ 24 = 182 \/ w / 2 ^ 24 = 183)
    by (revert Hw H1; field_arith).
  destruct Ht as [Ht|[Ht|[Ht|Ht]]]; decode_from w 24 Ht; reflexivity.
Qed.

Lemma decode_invert_b_cond w :
  0 <= w < 2 ^ 32 -> fld w 25 7 = 42 -> fld w 24 1 = 0 -> fld w 4 1 = 0 ->
  decode (u32 (invert_b_cond w)) = Some (B_cond (Z.lxor (fld w 0 4) 1) 12).
Proof.
  intros Hw H1 H2 H3. unfold invert_b_cond. rewrite u32_set_bits.
  change (bits w 0 3) with (bits w 0 (0 + 4 - 1)). rewrite <- (fld_bits w 0 4) by lia. change (Z.shiftr (4 * 3) 2) with 3.
  pose proof (fld_range w 0 4 ltac:(lia)) as R.
  assert (Hx : 0 <= Z.lxor (fld w 0 4) 1 < 2 ^ (3 - 0 + 1)).
  { change (2 ^ 4) with 16 in R. each_index (fld w 0 4) 16%nat ltac:(vm_compute; split; congruence). }
  rewrite decode_B_cond; [|apply set_bits_range|..];
    rewrite ?(fld_set_bits_other _ 5 23), ?(fld_set_bits_other _ 0 3) by lia; try done.
  by rewrite !fld_set_bits_same by lia.
Qed.

Lemma flip_bit b : 0 <= b < 2 -> 0 <= Z.lxor b 1 < 2 /\ (Z.lxor b 1 =? 1) = negb (b =? 1).
Proof. intros. each_index b 2%nat ltac:(split; [vm_compute; split; congruence|reflexivity]). Qed.

Lemma decode_invert_compare_b w :
  0 <= w < 2 ^ 32 -> fld w 25 6 = 26 ->
  decode (u32 (invert_compare_b w)) =
    Some (CB (fld w 31 1 =? 1) (negb (fld w 24 1 =? 1)) (fld w 0 5) 12).
Proof.
  intros Hw H1. unfold invert_compare_b. rewrite u32_set_bits. change (Z.shiftr (4 * 3) 2) with 3.
  assert (Hb : bit w 24 = fld w 24 1) by (rewrite fld_bits by lia; reflexivity).
  destruct (flip_bit (fld w 24 1) ltac:(apply fld_range; lia)) as [Hr Hn]. rewrite Hb, set_bit_bits by lia.
  rewrite decode_CB; [|apply set_bits_range|];
    rewrite ?(fld_set_bits_other _ 5 23), ?(fld_set_bits_same _ 24 24), ?(fld_set_bits_other _ 24 24) by lia; try done.
  by rewrite !fld_set_bits_same, Hn by lia.
Qed.

Lemma decode_invert_test_b w :
  0 <= w < 2 ^ 32 -> fld w 25 6 = 27 ->
  decode (u32 (invert_test_b w)) =
    Some (TB (negb (fld w 24 1 =? 1)) (fld w 0 5) (32 * fld w 31 1 + fld w 19 5) 12).
Proof.
  intros Hw H1. unfold invert_test_b. rewrite u32_set_bits. change (Z.shiftr (4 * 3) 2) with 3.
  assert (Hb : bit w 24 = fld w 24 1) by (rewrite fld_bits by lia; reflexivity).
  destruct (flip_bit (fld w 24 1) ltac:(apply fld_range; lia)) as [Hr Hn]. rewrite Hb, set_bit_bits by lia.
  rewrite decode_TB; [|apply set_bits_range|];
    rewrite ?(fld_set_bits_other _ 5 18), ?(fld_set_bits_same _ 24 24), ?(fld_set_bits_other _ 24 24) by lia; try done.
  by rewrite !fld_set_bits_same, Hn by lia.
Qed.

(** ** Running emitted words *)

(** [words_mem m P ws]: the words [ws] are in memory from [P] on. *)
Definition words_mem (m : Z -> Z) (P : Z) (ws : list Z) : Prop :=
  forall j w, ws !! j = Some w -> load 4 m (P + 4 * Z.of_nat j) = u32 w.

Lemma step_at s w i : load 4 (mem s) (pc s) = w -> decode w = Some i -> step s = Some (exec i s).
Proof. intros Hw Hi. unfold step. by rewrite Hw, Hi. Qed.

Lemma get_set rd v s r : get (set rd v s) r = if (r =? rd) && negb (rd =? 31) then v else get s r.
Proof.
  unfold get, set. destruct (Z.eqb_spec rd 31) as [->|]; [by rewrite andb_false_r|]. simpl.
  rewrite andb_true_r. destruct (Z.eqb_spec r rd) as [->|]; [|done]. by destruct (Z.eqb_spec rd 31).
Qed.

Lemma regs_set rd v s r : regs (set rd v s) r = if (r =? rd) && negb (rd =? 31) then v else regs s r.
Proof.
  unfold set. destruct (Z.eqb_spec rd 31) as [->|]; [by rewrite andb_false_r|].
  simpl. by rewrite andb_true_r.
Qed.

(** What an instruction sequence that only writes registers leaves alone. *)
Record frame (s t : state) : Prop := {
  f_sp : sp t = sp s;
  f_flags : flags t = flags s;
  f_mem : mem t = mem s;
}.

Lemma frame_refl s : frame s s.
Proof. by split. Qed.
Lemma frame_trans s t u : frame s t -> frame t u -> frame s u.
Proof. intros [] []; split; congruence. Qed.
Lemma frame_set rd v s : frame s (set rd v s).
Proof. unfold set. by case_match. Qed.
Lemma frame_jump a s : frame s (jump a s).
Proof. by split. Qed.
Lemma frame_next s : frame s (next s).
Proof. by split. Qed.
Create HintDb framedb.
#[export] Hint Resolve frame_refl frame_set frame_jump frame_next : framedb.
#[export] Hint Extern 2 (frame _ (jump _ _)) => eapply frame_trans; [|apply frame_jump] : framedb.
#[export] Hint Extern 2 (frame _ (next _)) => eapply frame_trans; [|apply frame_next] : framedb.

Lemma pc_set rd v s : pc (set rd v s) = pc s.
Proof. unfold set. by case_match. Qed.

(** A register-only effect: [rd] gets [v] (unless it is the zero register), control goes to [a]. *)
Record writes (rd v a : Z) (s t : state) : Prop := {
  wr_pc : pc t = a;
  wr_regs : forall r, regs t r = if (r =? rd) && negb (rd =? 31) then v else regs s r;
  wr_frame : frame s t;
}.

Lemma writes_next rd v s : writes rd v (u64 (pc s + 4)) s (next (set rd v s)).
Proof.
  split.
  - unfold next. cbn [pc jump]. by rewrite pc_set.
  - intros r. apply regs_set.
  - eapply frame_trans; [apply frame_set|apply frame_next].
Qed.

Lemma writes_get rd v a s t : writes rd v a s t -> get t rd = if rd =? 31 then 0 else v.
Proof.
  intros [_ Hr _]. unfold get. destruct (Z.eqb_spec rd 31); [done|]. rewrite Hr, Z.eqb_refl.
  by destruct (Z.eqb_spec rd 31).
Qed.

Lemma writes_trans rd v v' a a' s t u : writes rd v a s t -> writes rd v' a' t u -> writes rd v' a' s u.
Proof.
  intros [_ Hr Hf] [Hp' Hr' Hf']. split; [done| |by eapply frame_trans].
  intros r. rewrite Hr', Hr. by destruct (_ && _).
Qed.

(** One [movk]: the field [hw] of the value is replaced. *)
Lemma movk_value v hw h :
  0 <= hw -> 0 <= v < 2 ^ (16 * hw) -> v - fld v (16 * hw) 16 * 2 ^ (16 * hw) + h * 2 ^ (16 * hw) = v + h * 2 ^ (16 * hw).
Proof. intros. unfold fld. rewrite Z.div_small by lia. rewrite Z.mod_0_l by (apply Z.pow_nonzero; lia). lia. Qed.

Lemma halfwords imm :
  0 <= imm < 2 ^ 64 ->
  bits imm 0 15 + bits imm 16 31 * 2 ^ 16 + bits imm 32 47 * 2 ^ 32 + bits imm 48 63 * 2 ^ 48 = imm.
Proof.
  intros H. rewrite !bits_alt by lia. rewrite Z.div_1_r.
  repeat match goal with |- context [2 ^ ?n] => let v := eval vm_compute in (2 ^ n) in change (2 ^ n) with v end.
  change (2 ^ 64) with 18446744073709551616 in H. Z.div_mod_to_equations. lia.
Qed.

Section RunMov.
Context (rd imm P : Z) (s : state).
Context (Hrd : 0 <= rd < 32) (Himm : 0 <= imm < 2 ^ 64) (HP : 0 <= P /\ P + 16 < 2 ^ 64).

(** One word of the sequence, number [j], from a state where [rd] holds [v]. *)
Lemma run_mov_word (keep : bool) (j : nat) h v t :
  words_mem (mem s) P (mov_words rd imm) ->
  mov_words rd imm !! j = Some (u32 (Z.lor (Z.lor ((if keep then 0xF2800000 else 0xD2800000) + Z.of_nat j * 2 ^ 21)
                                             (LeftShift h 16 5)) rd)) ->
  (j < 4)%nat -> 0 <= h < 2 ^ 16 -> keep = false \/ (0 <= v < 2 ^ (16 * Z.of_nat j)) -> (keep = false -> v = 0) ->
  writes rd v (P + 4 * Z.of_nat j) s t \/ (t = s /\ pc s = P /\ j = 0%nat /\ keep = false) ->
  exists t', run 1 t = Some t' /\
    writes rd (v + h * 2 ^ (16 * Z.of_nat j)) (P + 4 * Z.of_nat (S j)) s t'.
Proof.
  intros Hmem Hw Hj Hh Hv Hv0 Ht.
  assert (Hpc : pc t = P + 4 * Z.of_nat j /\ mem t = mem s).
  { destruct Ht as [Hwr|(-> & Hp & -> & _)]; [|split; [lia|done]].
    split; [apply (wr_pc _ _ _ _ _ Hwr)|apply (f_mem _ _ (wr_frame _ _ _ _ _ Hwr))]. }
  destruct Hpc as [Hpc Hm].
  assert (Hstep : step t = Some (exec (MOV_wide keep rd (Z.of_nat j) h) t)).
  { eapply step_at; [rewrite Hm, Hpc; apply (Hmem j _ Hw)|].
    rewrite wrap_wrap. apply decode_mov_word; lia. }
  cbn [run]. rewrite Hstep. cbn [mbind option_bind]. eexists. split; [reflexivity|]. cbn [exec].
  pose proof (writes_next rd ((if keep then get t rd - fld (get t rd) (16 * Z.of_nat j) 16 * 2 ^ (16 * Z.of_nat j)
                               else 0) + h * 2 ^ (16 * Z.of_nat j)) t) as Hn.
  rewrite Hpc, wrap_small in Hn by lia.
  assert (Hgoal : writes rd (v + h * 2 ^ (16 * Z.of_nat j)) (P + 4 * Z.of_nat j + 4) t
            (next (set rd ((if keep then get t rd - fld (get t rd) (16 * Z.of_nat j) 16 * 2 ^ (16 * Z.of_nat j)
                            else 0) + h * 2 ^ (16 * Z.of_nat j)) t))).
  { destruct (Z.eqb_spec rd 31) as [E31|Hne].
    { destruct Hn as [Hp Hr Hf]. split; [exact Hp| |exact Hf]. intros r. rewrite Hr, E31. by rewrite !andb_false_r. }
    destruct keep; [|by rewrite (Hv0 eq_refl)].
    destruct Hv as [|Hv]; [done|]. destruct Ht as [Hwr|(_ & _ & _ & ?)]; [|done].
    rewrite (writes_get _ _ _ _ _ Hwr) in *. destruct (Z.eqb_spec rd 31); [done|].
    rewrite movk_value in * by lia. exact Hn. }
  replace (P + 4 * Z.of_nat (S j)) with (P + 4 * Z.of_nat j + 4) by lia.
  destruct Ht as [Hwr|(-> & _)]; [by eapply writes_trans|exact Hgoal].
Qed.

Lemma run_mov :
  words_mem (mem s) P (mov_words rd imm) -> pc s = P ->
  exists t, run 4 s = Some t /\ writes rd imm (P + 16) s t.
Proof.
  intros Hmem Hpc.
  pose proof (bits_range imm 0 15 ltac:(lia)) as R0. pose proof (bits_range imm 16 31 ltac:(lia)) as R1.
  pose proof (bits_range imm 32 47 ltac:(lia)) as R2. pose proof (bits_range imm 48 63 ltac:(lia)) as R3.
  change (15 - 0 + 1) with 16 in R0. change (31 - 16 + 1) with 16 in R1.
  change (47 - 32 + 1) with 16 in R2. change (63 - 48 + 1) with 16 in R3.
  destruct (run_mov_word false 0 (bits imm 0 15) 0 s Hmem) as (t1 & E1 & W1);
    [reflexivity|lia|simpl; lia|by left|done|right; done|].
  set (v1 := 0 + _) in W1. assert (B1 : 0 <= v1 < 2 ^ (16 * Z.of_nat 1)) by (unfold v1; simpl in *; lia).
  destruct (run_mov_word true 1 (bits imm 16 31) v1 t1 Hmem eq_refl ltac:(lia) R1 (or_intror B1))
    as (t2 & E2 & W2); [done|left; exact W1|].
  set (v2 := v1 + _) in W2. assert (B2 : 0 <= v2 < 2 ^ (16 * Z.of_nat 2)) by (unfold v2; simpl in *; lia).
  destruct (run_mov_word true 2 (bits imm 32 47) v2 t2 Hmem eq_refl ltac:(lia) R2 (or_intror B2))
    as (t3 & E3 & W3); [done|left; exact W2|].
  set (v3 := v2 + _) in W3. assert (B3 : 0 <= v3 < 2 ^ (16 * Z.of_nat 3)) by (unfold v3; simpl in *; lia).
  destruct (run_mov_word true 3 (bits imm 48 63) v3 t3 Hmem eq_refl ltac:(lia) R3 (or_intror B3))
    as (t4 & E4 & W4); [done|left; exact W3|].
  exists t4. split.
  - etransitivity; [exact (run_app 1 3 s t1 E1)|]. etransitivity; [exact (run_app 1 2 t1 t2 E2)|].
    etransitivity; [exact (run_app 1 1 t2 t3 E3)|exact E4].
  - replace imm with (v3 + bits imm 48 63 * 2 ^ (16 * Z.of_nat 3)); [exact W4|].
    pose proof (halfwords imm Himm) as H. unfold v3, v2, v1. simpl in *. lia.
Qed.

End RunMov.

(** ** Items in memory *)

(** What the sequence of an instruction may change besides its own effect: the scratch register, and the
    return address of a call. *)
Definition clobbers (i : insn) : bool :=
  match i with
  | B_imm _ _ | B_cond _ _ | CB _ _ _ _ | TB _ _ _ _ => true
  | LDR_lit _ rt _ => negb (rt =? 17)
  | _ => false
  end.
Definition links (i : insn) : bool :=
  match i with B_imm link _ | B_reg link _ => link | _ => false end.

(** The relocated instruction against the original: [s1] is the state after the original at [A], [t] the state
    after its sequence, which ends at [nextP]. *)
Record simulates (i : insn) (A nextP : Z) (s1 t : state) : Prop := {
  sim_regs : forall r, clobbers i = false \/ r <> 17 -> links i = false \/ r <> 30 -> regs t r = regs s1 r;
  sim_link : links i = true -> regs s1 30 = u64 (A + 4) /\ regs t 30 = nextP;
  sim_frame : frame s1 t;
  sim_pc : pc t = pc s1 \/ (pc s1 = u64 (A + 4) /\ pc t = nextP);
}.

Section Items.
Context (l : list Z) (base : Z) (o : nat) (s : state).
Context (Hld : loaded (mem s) base l).
Let P := base + 4 * Z.of_nat o.
Context (HP : P + 20 < 2 ^ 64).

Lemma P_low : 0 <= P.
Proof. pose proof (ld_low _ _ _ Hld). unfold P. lia. Qed.

Lemma fetch_word i : (4 * (i + 1) <= length l)%nat -> load 4 (mem s) (base + 4 * Z.of_nat i) = word_at l i.
Proof.
  intros Hi. replace (4 * Z.of_nat i) with (Z.of_nat (4 * i)) by lia. by apply load_loaded; [|lia].
Qed.

Lemma load_quad off : 0 <= off -> off + 8 <= Z.of_nat (length l) -> load 8 (mem s) (base + off) = quad_at l off.
Proof.
  intros Ho Hl. unfold quad_at. rewrite <- (Z2Nat.id off) at 1 by done. apply load_loaded; [done|lia].
Qed.

Lemma item_words_mem it : item_in l o it -> i_lit it = None -> words_mem (mem s) P (i_words it).
Proof.
  intros [Hlen Hin] Hlit j w Hj. pose proof (lookup_lt_Some _ _ _ Hj) as Hlt.
  specialize (Hin j w Hj). rewrite Hlit in Hin. unfold P.
  replace (base + 4 * Z.of_nat o + 4 * Z.of_nat j) with (base + 4 * Z.of_nat (o + j)) by lia.
  rewrite fetch_word by lia. exact Hin.
Qed.

(** What [item_in] says of a branch item: the words before it, the literal load and
    the branch. *)
Lemma branch_item_in pre dst link :
  item_in l o (branch_item pre dst link) ->
  (4 * (o + length pre + 2) <= length l)%nat /\
  (forall j w, pre !! j = Some w -> word_at l (o + j) = u32 w) /\
  word_at l (o + S (length pre)) = u32 (Z.lor (if link then BLR else BR) (Rn TMP_REG_0)) /\
  exists off, off mod 4 = 0 /\ 0 <= off < 2 ^ 20 /\
    word_at l (o + length pre) = encode_imm19_offset (u32 LDR_TMP) off /\
    4 * Z.of_nat (o + length pre) + off + 8 <= Z.of_nat (length l) /\
    quad_at l (4 * Z.of_nat (o + length pre) + off) = u64 dst.
Proof.
  intros [Hlen Hin]. cbn [branch_item i_words i_lit] in Hlen, Hin.
  rewrite length_app in Hlen. simpl length in Hlen. split; [lia|]. split; [|split].
  - intros j w Hj. pose proof (lookup_lt_Some _ _ _ Hj) as Hlt. specialize (Hin j w).
    rewrite lookup_app_l in Hin by done. specialize (Hin Hj). by destruct (decide (j = length pre)); [lia|].
  - specialize (Hin (S (length pre)) (Z.lor (if link then BLR else BR) (Rn TMP_REG_0))).
    rewrite lookup_app_r in Hin by lia. replace (S (length pre) - length pre)%nat with 1%nat in Hin by lia.
    specialize (Hin eq_refl). by destruct (decide (S (length pre) = length pre)); [lia|].
  - specialize (Hin (length pre) LDR_TMP). rewrite lookup_app_r, Nat.sub_diag in Hin by lia.
    specialize (Hin eq_refl). by destruct (decide (length pre = length pre)).
Qed.

(** The literal load and the branch register behind it. *)
Lemma run_branch_tail pre dst link t0 :
  item_in l o (branch_item pre dst link) -> 0 <= dst < 2 ^ 64 -> (length pre <= 1)%nat ->
  mem t0 = mem s -> pc t0 = P + 4 * Z.of_nat (length pre) ->
  exists t, run 2 t0 = Some t /\ pc t = dst /\ frame t0 t /\
    (forall r, r <> 17 -> link = false \/ r <> 30 -> regs t r = regs t0 r) /\
    (link = true -> regs t 30 = P + 4 * Z.of_nat (length pre) + 8).
Proof.
  intros Hit Hdst Hpre Hm Hpc. pose proof P_low as HPl.
  destruct (branch_item_in pre dst link Hit) as (Hlen & _ & H2 & off & H4 & Hoff & Hw1 & Hl8 & Hq).
  set (t1 := exec (LDR_lit true 17 off) t0).
  assert (E1 : step t0 = Some t1).
  { eapply step_at; [|by apply decode_LDR_TMP]. rewrite Hm, Hpc, <- Hw1. unfold P.
    replace (base + 4 * Z.of_nat o + 4 * Z.of_nat (length pre)) with (base + 4 * Z.of_nat (o + length pre)) by lia.
    apply fetch_word. lia. }
  assert (Hv : load 8 (mem t0) (pc t0 + off) = dst).
  { rewrite Hm, Hpc. unfold P.
    replace (base + 4 * Z.of_nat o + 4 * Z.of_nat (length pre) + off)
      with (base + (4 * Z.of_nat (o + length pre) + off)) by lia.
    rewrite load_quad, Hq by lia. by apply wrap_small. }
  assert (Hpc1 : pc t1 = P + 4 * Z.of_nat (length pre) + 4).
  { unfold t1. cbn [exec]. unfold next. cbn [pc jump]. rewrite pc_set, Hpc, wrap_small; [done|]. lia. }
  assert (Hm1 : mem t1 = mem s) by (rewrite <- Hm; reflexivity).
  assert (E2 : step t1 = Some (exec (B_reg link 17) t1)).
  { apply (step_at _ (u32 (Z.lor (if link then BLR else BR) (Rn TMP_REG_0))));
      [|destruct link; [apply decode_BLR_TMP|apply decode_BR_TMP]].
    rewrite Hm1, Hpc1. unfold P.
    replace (base + 4 * Z.of_nat o + 4 * Z.of_nat (length pre) + 4)
      with (base + 4 * Z.of_nat (o + S (length pre))) by lia.
    rewrite fetch_word by lia. exact H2. }
  assert (H17 : get t1 17 = dst) by (unfold t1; cbn [exec]; rewrite Hv; reflexivity).
  exists (exec (B_reg link 17) t1). cbn [run]. rewrite E1. cbn [mbind option_bind]. rewrite E2.
  split; [done|]. cbn [exec]. rewrite H17. split; [cbn [pc jump]; by apply wrap_small|].
  split; [|split].
  - eapply frame_trans; [|apply frame_jump]. apply frame_trans with t1.
    + unfold t1. cbn [exec]. eapply frame_trans; [apply frame_set|apply frame_next].
    + destruct link; [apply frame_set|apply frame_refl].
  - intros r Hr Hlk. cbn [regs jump]. assert (Hr1 : regs t1 r = regs t0 r).
    { unfold t1. cbn [exec regs next jump]. rewrite regs_set. by destruct (Z.eqb_spec r 17). }
    destruct link; [|done]. destruct Hlk as [|Hlk]; [done|]. rewrite regs_set.
    by destruct (Z.eqb_spec r 30).
  - intros ->. cbn [regs jump]. rewrite regs_set. simpl (_ && _). cbn iota. rewrite Hpc1, wrap_small; lia.
Qed.

(** A conditional branch: its inverse jumps over the literal load and the branch. *)
Lemma run_cond_item winv i' dst (c : bool) :
  item_in l o (branch_item [winv] dst false) -> 0 <= dst < 2 ^ 64 ->
  decode (u32 winv) = Some i' -> exec i' (at_pc P s) = branch_if (negb c) 12 (at_pc P s) ->
  exists n t, run n (at_pc P s) = Some t /\ frame s t /\ (forall r, r <> 17 -> regs t r = regs s r) /\
    pc t = if c then dst else P + 12.
Proof.
  intros Hit Hdst Hdec Hex. pose proof P_low as HPl.
  destruct (branch_item_in [winv] dst false Hit) as (Hlen & Hpre & _). simpl length in Hlen.
  assert (E1 : step (at_pc P s) = Some (branch_if (negb c) 12 (at_pc P s))).
  { rewrite <- Hex. apply (step_at _ (u32 winv)); [|done]. cbn [mem pc at_pc].
    rewrite <- (Hpre 0%nat winv eq_refl), Nat.add_0_r. apply fetch_word. lia. }
  destruct c; cbn [negb branch_if] in E1.
  - destruct (run_branch_tail [winv] dst false (next (at_pc P s)) Hit Hdst) as (t & Hrun & Hpc & Hf & Hr & _).
    + simpl. lia.
    + done.
    + unfold next. cbn [pc jump at_pc length]. rewrite wrap_small; lia.
    + exists 3%nat, t. split.
      { etransitivity; [apply (run_app 1 2 _ (next (at_pc P s)))|exact Hrun]. cbn [run]. by rewrite E1. }
      split; [by destruct Hf|]. split; [|done]. intros r Hr17. apply Hr; [done|by left].
  - exists 1%nat, (jump (P + 12) (at_pc P s)). cbn [run]. rewrite E1. split; [done|].
    split; [by split|]. split; [done|]. cbn [pc jump]. apply wrap_small. lia.
Qed.

Lemma cond_simulates i A off dst t (c : bool) :
  clobbers i = true -> links i = false ->
  dst = u64 (A + off) -> frame s t -> (forall r, r <> 17 -> regs t r = regs s r) ->
  pc t = (if c then dst else P + 12) ->
  simulates i A (P + 12) (branch_if c off (at_pc A s)) t.
Proof.
  intros Hc Hl -> Hf Hr Hpc. split.
  - intros r [H|H] _; [congruence|]. rewrite Hr by done. by destruct c.
  - congruence.
  - destruct Hf. by destruct c; split.
  - destruct c; [by left|right]. by split.
Qed.

(** A register write at the new address against the same write at the old one. *)
Lemma writes_simulates i A rd v n t :
  clobbers i = false -> links i = false -> writes rd v (P + n) (at_pc P s) t ->
  simulates i A (P + n) (next (set rd v (at_pc A s))) t.
Proof.
  intros Hc Hl [Hp Hr Hf]. split.
  - intros r _ _. rewrite Hr. unfold next. cbn [regs jump]. by rewrite regs_set.
  - congruence.
  - destruct Hf as [H1 H2 H3]. unfold set. destruct (rd =? 31); by split.
  - right. split; [|done]. unfold next. cbn [pc jump]. by rewrite pc_set.
Qed.

Lemma sim_b A inst link off :
  0 <= inst < 2 ^ 32 -> decode inst = Some (B_imm link off) ->
  inst_is_b_bl inst = true -> item_in l o (branch_item [] (u64 (A + decode_imm26_offset inst))
                                             (Z.land inst UnconditionalBranchMask =? BL)) ->
  exists n t, run n (at_pc P s) = Some t /\
    simulates (B_imm link off) A (P + 8) (exec (B_imm link off) (at_pc A s)) t.
Proof.
  intros Hi Hdec Hcls Hit. pose proof P_low as HPl. rewrite is_b_bl_fld in Hcls.
  unfold decode in Hdec. rewrite Hcls in Hdec. injection Hdec as <- <-. apply Z.eqb_eq in Hcls.
  rewrite decode_imm26_spec, (class_fld inst _ _ 26 6 37) in Hit by (lia || reflexivity).
  replace (fld inst 26 6 =? 37) with (fld inst 31 1 =? 1) in Hit
    by (revert Hi Hcls; unfold fld; repeat match goal with |- context [2 ^ ?n] =>
          let v := eval vm_compute in (2 ^ n) in change (2 ^ n) with v end;
        intros; zbit_split; try done; exfalso; Z.div_mod_to_equations; lia).
  set (link := fld inst 31 1 =? 1) in *. set (off := 4 * signed 26 (fld inst 0 26)) in *.
  destruct (run_branch_tail [] (u64 (A + off)) link (at_pc P s) Hit (dst_range _)) as (t & Hrun & Hpc & Hf & Hr & Hl);
    [simpl; lia|done|simpl; lia|].
  exists 2%nat, t. split; [done|]. cbn [exec]. split.
  - cbn [clobbers links]. intros r [H|H] Hlk; [done|]. rewrite Hr by done. cbn [regs jump at_pc].
    destruct link; [|done]. destruct Hlk as [|Hlk]; [done|]. rewrite regs_set. by destruct (Z.eqb_spec r 30).
  - cbn [links]. intros ->. split; [|rewrite Hl by done; simpl; lia]. cbn [regs jump]. by rewrite regs_set.
  - destruct Hf as [H1 H2 H3]. destruct link; by split.
  - left. by rewrite Hpc.
Qed.

Lemma load_wrap n m a : load n m (u64 a) = load n m a.
Proof.
  unfold load, bytes_from. f_equal. apply map_ext. intros i. by rewrite wrap_add_l.
Qed.

Lemma sim_ldr A rt off :
  0 <= rt < 32 ->
  words_mem (mem s) P (mov_words 17 (u64 (A + off))
     ++ [u32 (Z.lor (Z.lor (Z.lor LoadStoreUnsignedOffsetFixed (LoadStoreOp_value LDR_x)) (Rn TMP_REG_0)) rt)]) ->
  exists n t, run n (at_pc P s) = Some t /\
    simulates (LDR_lit true rt off) A (P + 20) (exec (LDR_lit true rt off) (at_pc A s)) t.
Proof.
  intros Hrt Hmem. pose proof P_low as HPl.
  assert (Hmov : words_mem (mem s) P (mov_words 17 (u64 (A + off)))).
  { intros j w Hj. apply Hmem. by apply lookup_app_l_Some. }
  destruct (run_mov 17 (u64 (A + off)) P (at_pc P s)) as (t1 & E1 & [Hp1 Hr1 [Hs1 Hf1 Hm1]]);
    [lia|apply dst_range|lia|done|done|].
  assert (E2 : step t1 = Some (exec (LDR_uimm rt 17 0) t1)).
  { eapply step_at; [|by apply decode_ldr_word]. rewrite Hm1, Hp1. cbn [mem at_pc].
    rewrite (Hmem 4%nat _ eq_refl : load 4 (mem s) (P + 16) = _). by rewrite wrap_wrap. }
  exists 5%nat, (exec (LDR_uimm rt 17 0) t1). split.
  { etransitivity; [exact (run_app 4 1 _ t1 E1)|]. cbn [run]. by rewrite E2. }
  cbn [exec]. assert (H17 : get_sp t1 17 = u64 (A + off)) by (unfold get_sp; simpl; by rewrite Hr1).
  rewrite H17, Hm1, Z.add_0_r, load_wrap. cbn [mem pc at_pc].
  split.
  - cbn [clobbers links]. intros r Hc _. unfold next. cbn [regs jump]. rewrite !regs_set.
    destruct (Z.eqb_spec r rt) as [->|]; [|]; simpl.
    + destruct (Z.eqb_spec rt 31) as [->|]; simpl; [|done]. by rewrite Hr1.
    + rewrite Hr1. destruct (Z.eqb_spec r 17) as [->|]; [|done]. exfalso.
      destruct Hc as [Hc|]; [|done]. apply negb_false_iff, Z.eqb_eq in Hc. lia.
  - done.
  - unfold next, set. destruct (rt =? 31); split; simpl; by rewrite ?Hs1, ?Hf1, ?Hm1.
  - right. unfold next. cbn [pc jump]. rewrite !pc_set, Hp1. split; [done|]. rewrite wrap_small; lia.
Qed.

Lemma trunc_page_spec A imm :
  arm64_trunc_page (u64 (A + Z.shiftl imm 12)) = u64 (A - A mod 2 ^ 12 + imm * 2 ^ 12).
Proof.
  unfold arm64_trunc_page. change (0x1000 - 1) with (2 ^ 12 - 1). fold (ALIGN_FLOOR (u64 (A + Z.shiftl imm 12)) (2 ^ 12)).
  rewrite ALIGN_FLOOR_alt, Z.shiftl_mul_pow2 by lia. unfold wrap.
  change (2 ^ 12) with 4096. change (2 ^ 64) with 18446744073709551616. Z.div_mod_to_equations. lia.
Qed.

Lemma sim_mov i A rd v :
  clobbers i = false -> links i = false -> 0 <= rd < 32 -> 0 <= v < 2 ^ 64 ->
  words_mem (mem s) P (mov_words rd v) ->
  exists n t, run n (at_pc P s) = Some t /\ simulates i A (P + 16) (next (set rd v (at_pc A s))) t.
Proof.
  intros Hc Hl Hrd Hv Hmem. pose proof P_low as HPl.
  destruct (run_mov rd v P (at_pc P s)) as (t & E & Hw); [done|done|lia|done|done|].
  exists 4%nat, t. split; [done|]. by apply writes_simulates.
Qed.

(** An instruction that is copied. *)
Lemma sim_copied A inst i :
  0 <= inst < 2 ^ 32 -> decode inst = Some i ->
  match i with MOV_wide _ _ _ _ | LDR_uimm _ _ _ | ADD_uimm _ _ _ | B_reg _ _ => True | _ => False end ->
  words_mem (mem s) P [inst] ->
  exists n t, run n (at_pc P s) = Some t /\ simulates i A (P + 4) (exec i (at_pc A s)) t.
Proof.
  intros Hi Hdec Hcls Hmem. pose proof P_low as HPl.
  assert (E : step (at_pc P s) = Some (exec i (at_pc P s))).
  { apply (step_at _ inst); [|done]. cbn [mem pc at_pc].
    rewrite <- (wrap_small 32 inst Hi), <- (Hmem 0%nat inst eq_refl). f_equal. lia. }
  exists 1%nat, (exec i (at_pc P s)). cbn [run]. rewrite E. split; [done|].
  destruct i; try done; cbn [exec].
  - apply writes_simulates; [done|done|]. pose proof (writes_next rd
      ((if keep then get (at_pc P s) rd - fld (get (at_pc P s) rd) (16 * hw) 16 * 2 ^ (16 * hw) else 0)
       + imm16 * 2 ^ (16 * hw)) (at_pc P s)) as Hw.
    cbn [pc at_pc] in Hw. rewrite wrap_small in Hw by lia. exact Hw.
  - apply writes_simulates; [done|done|]. pose proof (writes_next rt
      (load 8 (mem (at_pc P s)) (get_sp (at_pc P s) rn + offset)) (at_pc P s)) as Hw.
    cbn [pc at_pc] in Hw. rewrite wrap_small in Hw by lia. exact Hw.
  - unfold set_sp, set. destruct (rd =? 31); (split; [done|done|by split|]); right; cbn; (split; [done|]);
      apply wrap_small; lia.
  - split; cbn [links clobbers].
    + intros r _ Hl. destruct link; [|done]. destruct Hl as [|Hl]; [done|]. cbn [regs jump].
      rewrite !regs_set. by destruct (Z.eqb_spec r 30).
    + intros ->. cbn [regs jump]. rewrite !regs_set. cbn [pc at_pc]. simpl (_ && _). cbn iota.
      split; [done|]. rewrite wrap_small; lia.
    + destruct link; by split.
    + by left.
Qed.

(** What the relocator gets right: everything it rewrites but 32-bit literal loads
    (it loads 64 bits) and the conditions "always" (the inverse never branches). *)
Definition supported (i : insn) : bool :=
  match i with
  | LDR_lit x _ _ => x
  | B_cond cond _ => cond <? 14
  | _ => true
  end.

(** [relocated A inst i it]: the conclusion of each case below. *)
Definition relocated (A : Z) (i : insn) (it : item) : Prop :=
  exists n t, run n (at_pc P s) = Some t /\
    simulates i A (P + 4 * Z.of_nat (length (i_words it))) (exec i (at_pc A s)) t.

Lemma sim_adr A inst :
  let imm := signed 21 (fld inst 29 2 + 4 * fld inst 5 19) in
  let it dst := {| i_words := mov_words (fld inst 0 5) dst; i_lit := None |} in
  (forall dst, dst = u64 (A + imm) -> item_in l o (it dst) -> relocated A (ADR_imm (fld inst 0 5) imm) (it dst)) /\
  (forall dst, dst = arm64_trunc_page (u64 (A + Z.shiftl imm 12)) -> item_in l o (it dst) ->
     relocated A (ADRP_imm (fld inst 0 5) (imm * 2 ^ 12)) (it dst)).
Proof.
  intros imm it. pose proof (fld_range inst 0 5 ltac:(lia)) as Hr5. change (2 ^ 5) with 32 in Hr5.
  split; intros dst Hd Hit; subst dst.
  - apply sim_mov; try done; [apply dst_range|]. by apply (item_words_mem _ Hit).
  - unfold relocated. cbn [exec pc at_pc]. rewrite <- trunc_page_spec.
    apply sim_mov; try done; [|by apply (item_words_mem _ Hit)]. rewrite trunc_page_spec. apply dst_range.
Qed.

Lemma sim_b_cond A inst :
  let cond := fld inst 0 4 in
  let off := 4 * signed 19 (fld inst 5 19) in
  let it := branch_item [invert_b_cond inst] (u64 (A + off)) false in
  0 <= inst < 2 ^ 32 -> fld inst 25 7 = 42 -> fld inst 24 1 = 0 -> fld inst 4 1 = 0 -> cond < 14 ->
  item_in l o it -> relocated A (B_cond cond off) it.
Proof.
  intros cond off it Hi C H24 H4 Hc Hit. pose proof (fld_range inst 0 4 ltac:(lia)) as R4. fold cond in R4.
  destruct (run_cond_item _ _ _ (cond_holds (flags s) cond) Hit (dst_range _)
              (decode_invert_b_cond inst Hi C H24 H4)) as (n & t & Hrun & Hf & Hr & Hpc).
  { cbn [exec flags at_pc]. fold cond. by rewrite cond_holds_flip by lia. }
  exists n, t. split; [done|]. by eapply cond_simulates.
Qed.

Lemma sim_compare_b A inst :
  let off := 4 * signed 19 (fld inst 5 19) in
  let it := branch_item [invert_compare_b inst] (u64 (A + off)) false in
  0 <= inst < 2 ^ 32 -> fld inst 25 6 = 26 ->
  item_in l o it -> relocated A (CB (fld inst 31 1 =? 1) (fld inst 24 1 =? 1) (fld inst 0 5) off) it.
Proof.
  intros off it Hi C Hit.
  set (v := if fld inst 31 1 =? 1 then get s (fld inst 0 5) else get s (fld inst 0 5) mod 2 ^ 32).
  destruct (run_cond_item _ _ _ (Bool.eqb (fld inst 24 1 =? 1) (negb (v =? 0))) Hit (dst_range _)
              (decode_invert_compare_b inst Hi C)) as (n & t & Hrun & Hf & Hr & Hpc).
  { cbn [exec]. change (get (at_pc P s) ?r) with (get s r). fold v. by destruct (fld inst 24 1 =? 1), (v =? 0). }
  exists n, t. split; [done|]. by eapply cond_simulates.
Qed.

Lemma sim_test_b A inst :
  let off := 4 * signed 14 (fld inst 5 14) in
  let it := branch_item [invert_test_b inst] (u64 (A + off)) false in
  0 <= inst < 2 ^ 32 -> fld inst 25 6 = 27 ->
  item_in l o it ->
  relocated A (TB (fld inst 24 1 =? 1) (fld inst 0 5) (32 * fld inst 31 1 + fld inst 19 5) off) it.
Proof.
  intros off it Hi C Hit. set (v := Z.testbit (get s (fld inst 0 5)) (32 * fld inst 31 1 + fld inst 19 5)).
  destruct (run_cond_item _ _ _ (Bool.eqb (fld inst 24 1 =? 1) v) Hit (dst_range _)
              (decode_invert_test_b inst Hi C)) as (n & t & Hrun & Hf & Hr & Hpc).
  { cbn [exec]. change (get (at_pc P s) ?r) with (get s r). fold v. by destruct (fld inst 24 1 =? 1), v. }
  exists n, t. split; [done|]. by eapply cond_simulates.
Qed.

Lemma item_simulates A inst i it :
  0 <= inst < 2 ^ 32 -> decode inst = Some i -> supported i = true ->
  relo_item A inst = Some it -> item_in l o it -> relocated A i it.
Proof.
  intros Hi Hdec Hsup Hrel Hit. pose proof Hdec as Hdec0.
  pose proof (fld_range inst 0 5 ltac:(lia)) as Hr5. change (2 ^ 5) with 32 in Hr5.
  assert (Hrt : decode_rt inst = fld inst 0 5 /\ decode_rd inst = fld inst 0 5)
    by (rewrite fld_bits by lia; done). destruct Hrt as [Hrt Hrd].
  assert (Hopc : bits inst 30 31 = fld inst 30 2) by (rewrite fld_bits by lia; done).
  unfold relo_item, decode_immhi_immlo_zero12_offset in Hrel.
  rewrite is_b_bl_fld, is_ldr_literal_fld, andb_comm, is_adr_fld, is_adrp_fld,
    is_b_cond_fld, is_compare_b_fld, is_test_b_fld, Hrt, Hrd, Hopc, decode_adr_spec, decode_imm14_spec,
    decode_imm19_spec in Hrel.
  unfold decode in Hdec.
  destruct (fld inst 26 5 =? 5) eqn:C1.
  { injection Hrel as <-. injection Hdec as <-. apply (sim_b A inst); try done. by rewrite is_b_bl_fld. }
  destruct ((fld inst 27 3 =? 3) && (fld inst 24 2 =? 0)).
  { destruct ((fld inst 26 1 =? 0) && (fld inst 30 2 <? 2)); [|done]. injection Hdec as <-.
    cbn [supported] in Hsup. apply Z.eqb_eq in Hsup. rewrite Hsup in *. injection Hrel as <-.
    apply sim_ldr; [done|]. by apply (item_words_mem _ Hit). }
  destruct (fld inst 24 5 =? 16).
  { pose proof (fld_range inst 31 1 ltac:(lia)) as H31. change (2 ^ 1) with 2 in H31. cbn [andb] in Hrel.
    destruct (sim_adr A inst) as [Hadr Hadrp].
    destruct (Z.eqb_spec (fld inst 31 1) 0); [injection Hdec as <-; injection Hrel as <-; by apply Hadr|].
    destruct (Z.eqb_spec (fld inst 31 1) 1); [injection Hdec as <-; injection Hrel as <-; by apply Hadrp|lia]. }
  cbn [andb] in Hrel. destruct (Z.eqb_spec (fld inst 25 7) 42) as [C4|_].
  { destruct (Z.eqb_spec (fld inst 24 1) 0) as [H24|]; [|done].
    destruct (Z.eqb_spec (fld inst 4 1) 0) as [H4|]; [|done]. injection Hdec as <-. injection Hrel as <-.
    cbn [supported] in Hsup. apply Z.ltb_lt in Hsup. by apply sim_b_cond. }
  destruct (Z.eqb_spec (fld inst 25 6) 26) as [C5|_].
  { injection Hdec as <-. injection Hrel as <-. by apply sim_compare_b. }
  destruct (Z.eqb_spec (fld inst 25 6) 27) as [C6|_].
  { injection Hdec as <-. injection Hrel as <-. by apply sim_test_b. }
  injection Hrel as <-. apply (sim_copied A inst i Hi Hdec0); [|by apply (item_words_mem _ Hit)].
  repeat case_match; by simplify_eq.
Qed.

End Items.

(** ** The relocated block *)

Lemma relo_items_lookup insts : forall pc its i w,
  relo_items pc insts = Some its -> insts !! i = Some w ->
  exists it, its !! i = Some it /\ relo_item (if Nat.eqb i 0 then pc else u64 (pc + 4 * Z.of_nat i)) w = Some it.
Proof.
  induction insts as [|w0 insts IH]; intros pc its i w E Hi; [done|]. cbn [relo_items] in E.
  destruct (relo_item pc w0) as [it|] eqn:Hit; [|done]. cbn [mbind option_bind] in E.
  destruct (relo_items (u64 (pc + 4)) insts) as [its'|] eqn:Hits; [|done]. injection E as <-.
  destruct i as [|i]; [injection Hi as <-; by exists it|]. cbn [lookup list_lookup] in Hi |- *.
  destruct (IH _ _ i w Hits Hi) as (it' & Hl & Hr). exists it'. split; [done|].
  cbn [Nat.eqb]. destruct i as [|i]; cbn [Nat.eqb] in Hr; [by replace (4 * Z.of_nat 1) with 4 by lia|].
  rewrite wrap_add_l in Hr. by replace (pc + 4 * Z.of_nat (S (S i))) with (pc + 4 + 4 * Z.of_nat (S i)) by lia.
Qed.

Lemma relo_items_length insts : forall pc its, relo_items pc insts = Some its -> length its = length insts.
Proof.
  induction insts as [|w insts IH]; intros pc its E; cbn [relo_items] in E; [by injection E as <-|].
  destruct (relo_item pc w); [|done]. cbn [mbind option_bind] in E.
  destruct (relo_items _ insts) eqn:Hits; [|done]. injection E as <-. simpl. f_equal. by eapply IH.
Qed.

Lemma words_from_lookup code n i : (i < n)%nat -> words_from code 0 n !! i = Some (word_at code i).
Proof. intros. unfold words_from. rewrite list_lookup_fmap, lookup_seq_lt by done. done. Qed.

(** Where the sequence of instruction number [i] starts. *)
Definition new_offset (its : list item) (i : nat) : Z := 4 * Z.of_nat (length (all_words (take i its))).

Lemma all_words_take its i it :
  its !! i = Some it -> new_offset its (S i) = new_offset its i + 4 * Z.of_nat (length (i_words it)).
Proof.
  intros Hi. unfold new_offset. rewrite (take_S_r its i it Hi), all_words_app, length_app.
  unfold all_words at 2. cbn [map concat]. rewrite app_nil_r. lia.
Qed.

(** The bytes [relocate] leaves in the buffer. *)
Definition relo_bytes (its : list item) : list Z :=
  flat (patch (all_lits 0 its) (4 * Z.of_nat (length (all_words its))) (all_words its)) ++ lit_bytes (all_lits 0 its).

Lemma relo_bytes_item its i it :
  Forall item_ok its -> its !! i = Some it ->
  4 * Z.of_nat (length (all_words its)) + 8 * Z.of_nat (length (all_lits 0 its)) < 2 ^ 20 ->
  item_in (relo_bytes its) (length (all_words (take i its))) it.
Proof.
  intros Hok Hi Hlim. pose proof (take_drop_middle its i it Hi) as E.
  unfold relo_bytes. rewrite <- E in Hok, Hlim |- *.
  replace (take i (take i its ++ it :: drop (S i) its)) with (take i its).
  { by apply layout_item. }
  rewrite E. done.
Qed.

Lemma relo_block_lookup origin_addr n code branch its i :
  relo_block origin_addr n code branch = Some its -> (i < Z.to_nat n)%nat ->
  exists it, its !! i = Some it /\ relo_item (u64 (origin_addr + 4 * Z.of_nat i)) (word_at code i) = Some it.
Proof.
  unfold relo_block. destruct (relo_items _ _) as [its0|] eqn:E; [|done]. intros [= <-] Hi.
  destruct (relo_items_lookup _ _ _ i _ E (words_from_lookup code _ i Hi)) as (it & Hl & Hr).
  exists it. split.
  - destruct branch; [by apply lookup_app_l_Some|done].
  - destruct i as [|i]; cbn [Nat.eqb] in Hr; [by rewrite Z.add_0_r|by rewrite wrap_add_l in Hr].
Qed.

(** Running the sequence of one instruction of a relocated block. *)
Lemma block_simulates origin_addr code n its branch base s i ins :
  bytes_ok code -> 4 * n <= Z.of_nat (length code) -> relo_block origin_addr n code branch = Some its ->
  4 * Z.of_nat (length (all_words its)) + 8 * Z.of_nat (length (all_lits 0 its)) < 2 ^ 20 ->
  loaded (mem s) base (relo_bytes its) -> base + Z.of_nat (length (relo_bytes its)) + 20 < 2 ^ 64 ->
  (i < Z.to_nat n)%nat -> decode (word_at code i) = Some ins -> supported ins = true ->
  let A := u64 (origin_addr + 4 * Z.of_nat i) in
  exists k t, run k (at_pc (base + new_offset its i) s) = Some t /\
    simulates ins A (base + new_offset its (S i)) (exec ins (at_pc A s)) t.
Proof.
  intros Hb Hl Hits Hlim Hld Hhi Hi Hdec Hsup A.
  destruct (relo_block_lookup _ _ _ _ _ i Hits Hi) as (it & Hlk & Hit).
  pose proof (relo_bytes_item its i it (relo_block_ok _ _ _ _ _ Hits) Hlk Hlim) as Hin.
  rewrite (all_words_take its i it Hlk), Z.add_assoc. unfold new_offset.
  apply (item_simulates (relo_bytes its) base _ s Hld) with (inst := word_at code i); try done.
  - destruct Hin as [Hlen _]. lia.
  - apply word_at_range; [done|lia].
Qed.

(** The instructions the relocator rewrites; it copies all others. *)
Definition rewritten (inst : Z) : bool :=
  inst_is_b_bl inst || inst_is_ldr_literal inst || inst_is_adr inst || inst_is_adrp inst || inst_is_b_cond inst
  || inst_is_compare_b inst || inst_is_test_b inst.

Lemma relo_item_copied pc inst it :
  rewritten inst = false -> relo_item pc inst = Some it -> it = {| i_words := [inst]; i_lit := None |}.
Proof.
  unfold rewritten, relo_item. rewrite !orb_false_iff. intros [[[[[[-> ->] ->] ->] ->] ->] ->]. by intros [= <-].
Qed.

(** Any other instruction is fetched unchanged from its new address and followed by the next one. *)
Lemma block_copies origin_addr code n its branch base s i :
  bytes_ok code -> 4 * n <= Z.of_nat (length code) -> relo_block origin_addr n code branch = Some its ->
  4 * Z.of_nat (length (all_words its)) + 8 * Z.of_nat (length (all_lits 0 its)) < 2 ^ 20 ->
  loaded (mem s) base (relo_bytes its) -> (i < Z.to_nat n)%nat -> rewritten (word_at code i) = false ->
  load 4 (mem s) (base + new_offset its i) = word_at code i /\ new_offset its (S i) = new_offset its i + 4.
Proof.
  intros Hb Hl Hits Hlim Hld Hi Hrw. destruct (relo_block_lookup _ _ _ _ _ i Hits Hi) as (it & Hlk & Hit).
  pose proof (relo_bytes_item its i it (relo_block_ok _ _ _ _ _ Hits) Hlk Hlim) as Hin.
  rewrite (all_words_take its i it Hlk). apply relo_item_copied in Hit as ->; [|done]. split; [|done].
  pose proof (item_words_mem (relo_bytes its) base _ s Hld _ Hin eq_refl 0%nat _ eq_refl) as Hw.
  rewrite Z.add_0_r in Hw. unfold new_offset. rewrite Hw. apply wrap_small, word_at_range; [done|lia].
Qed.

(** The jump back behind a relocated block. *)
Lemma block_jumps_back origin_addr code n its base s :
  relo_block origin_addr n code true = Some its -> 0 <= n ->
  4 * Z.of_nat (length (all_words its)) + 8 * Z.of_nat (length (all_lits 0 its)) < 2 ^ 20 ->
  loaded (mem s) base (relo_bytes its) -> base + Z.of_nat (length (relo_bytes its)) + 20 < 2 ^ 64 ->
  exists t, run 2 (at_pc (base + new_offset its (Z.to_nat n)) s) = Some t /\
    pc t = u64 (origin_addr + 4 * n) /\ frame s t /\ forall r, r <> 17 -> regs t r = regs s r.
Proof.
  intros Hits Hn Hlim Hld Hhi. set (it := branch_item [] (u64 (origin_addr + 4 * n)) false).
  assert (Hlk : its !! Z.to_nat n = Some it).
  { unfold relo_block in Hits. destruct (relo_items _ _) as [its0|] eqn:E0; [|done]. injection Hits as <-.
    apply relo_items_length in E0. unfold words_from in E0. rewrite length_map, length_seq in E0.
    rewrite lookup_app_r by lia. by rewrite E0, Nat.sub_diag. }
  pose proof (relo_bytes_item its _ it (relo_block_ok _ _ _ _ _ Hits) Hlk Hlim) as Hin.
  unfold new_offset. set (o := length (all_words (take (Z.to_nat n) its))) in *.
  destruct (run_branch_tail (relo_bytes its) base o s Hld) with (pre := @nil Z) (dst := u64 (origin_addr + 4 * n))
    (link := false) (t0 := at_pc (base + 4 * Z.of_nat o) s) as (t & Hrun & Hpc & Hf & Hr & _); try done.
  - destruct Hin as [Hlen _]. lia.
  - apply dst_range.
  - simpl. lia.
  - simpl. lia.
  - exists t. split; [done|]. split; [done|]. split; [by destruct Hf|]. intros r Hr17. apply Hr; [done|by left].
Qed.

(** ** Properties *)

(** C3: The relocated block is a faithful copy.  For every block the relocator handles, [relocate] returns code
    such that, wherever it is placed, running the sequence of any supported instruction from its new address
    has exactly the effect of that instruction at its original address: same registers (x17 apart, the scratch
    register, and the return address of a call, which points behind the sequence), same stack pointer, flags
    and memory, and control either at the same absolute target or, on fall-through, at the sequence of the next
    instruction.  Every instruction the relocator does not rewrite, of whatever kind, is the same word at its new
    address and the next instruction follows it. *)
Theorem relocation_simulates origin_addr origin_size code n its branch :
  bytes_ok code -> 4 * n - 4 < origin_size <= 4 * n -> 0 < n -> 4 * n < 2 ^ 30 -> 4 * n <= Z.of_nat (length code) ->
  relo_block origin_addr n code branch = Some its ->
  4 * Z.of_nat (length (all_words its)) + 8 * Z.of_nat (length (all_lits 0 its)) < 2 ^ 20 ->
  exists a, relocate (Buf := MemBuffer) origin_addr origin_size code branch = Ret (4 * n, a) /\
  dup (code_buffer_ a) = Ret (map Some (relo_bytes its)) /\
  forall base s i, loaded (mem s) base (relo_bytes its) ->
    base + Z.of_nat (length (relo_bytes its)) + 20 < 2 ^ 64 -> (i < Z.to_nat n)%nat ->
    (rewritten (word_at code i) = false ->
       load 4 (mem s) (base + new_offset its i) = word_at code i /\ new_offset its (S i) = new_offset its i + 4) /\
    forall ins, decode (word_at code i) = Some ins -> supported ins = true ->
    let A := u64 (origin_addr + 4 * Z.of_nat i) in
    exists k t, run k (at_pc (base + new_offset its i) s) = Some t /\
      simulates ins A (base + new_offset its (S i)) (exec ins (at_pc A s)) t.
Proof.
  intros Hb Hsz Hn H30 Hl Hits Hlim.
  destruct (relocate_rep (Buf := MemBuffer) origin_addr origin_size code n its branch) as (a & E & Hrep);
    try done; [unfold cb_limit; simpl in *; lia|].
  exists a. split; [exact E|]. split; [exact (dup_ok _ _ Hrep)|].
  intros base s i Hld Hhi Hi. split; [by apply (block_copies origin_addr code n its branch)|].
  intros ins Hdec Hsup A. by apply (block_simulates origin_addr code n its branch).
Qed.

(** A state with zero registers whose memory holds the bytes [l] at [base] and zeros elsewhere. *)
Definition boot (base : Z) (l : list Z) : state :=
  {| pc := base; regs := fun _ => 0; sp := 0; flags := {| N := false; Zf := false; C := false; V := false |};
     mem := fun a => nth (Z.to_nat (a - base)) l 0 |}.

Lemma boot_loaded base l :
  0 <= base -> base + Z.of_nat (length l) < 2 ^ 64 -> loaded (mem (boot base l)) base l.
Proof.
  intros. split; [done|done|]. intros i Hi. cbn [mem boot]. f_equal. lia.
Qed.

(** The second instruction of the sample block, [cbz w0, #8] at 0x4004, relocated to 0x10000. *)
Example relocation_simulates_witness :
  exists its a, relo_block 0x4000 4 sample_block true = Some its /\
    relocate (Buf := MemBuffer) 0x4000 16 sample_block true = Ret (16, a) /\
    exists k t, run k (at_pc (0x10000 + new_offset its 1) (boot 0x10000 (relo_bytes its))) = Some t /\
      simulates (CB false false 0 8) 0x4004 (0x10000 + new_offset its 2)
        (exec (CB false false 0 8) (at_pc 0x4004 (boot 0x10000 (relo_bytes its)))) t.
Proof.
  destruct (relo_block 0x4000 4 sample_block true) as [its|] eqn:Hits; [|vm_compute in Hits; discriminate].
  assert (Hlim : 4 * Z.of_nat (length (all_words its)) + 8 * Z.of_nat (length (all_lits 0 its)) < 2 ^ 20
                 /\ Z.of_nat (length (relo_bytes its)) < 1000).
  { vm_compute in Hits. injection Hits as <-. vm_compute. split; reflexivity. }
  destruct (relocation_simulates 0x4000 16 sample_block 4 its true sample_block_ok ltac:(lia) ltac:(lia)
              ltac:(lia) ltac:(vm_compute; discriminate) Hits (proj1 Hlim)) as (a & Ha & Hl & Hsim).
  exists its, a. split; [reflexivity|]. split; [exact Ha|].
  apply (proj2 (Hsim 0x10000 _ 1%nat ltac:(apply boot_loaded; lia) ltac:(lia) ltac:(vm_compute; lia))
           (CB false false 0 8)); reflexivity.
Defined.

(** Behind a relocated block the jump back continues the original function: from the end of the last
    sequence two steps lead to the instruction after the block, with nothing but x17 changed. *)
Theorem relocation_jumps_back origin_addr origin_size code n its :
  bytes_ok code -> 4 * n - 4 < origin_size <= 4 * n -> 0 < n -> 4 * n < 2 ^ 30 -> 4 * n <= Z.of_nat (length code) ->
  relo_block origin_addr n code true = Some its ->
  4 * Z.of_nat (length (all_words its)) + 8 * Z.of_nat (length (all_lits 0 its)) < 2 ^ 20 ->
  exists a, relocate (Buf := MemBuffer) origin_addr origin_size code true = Ret (4 * n, a) /\
  dup (code_buffer_ a) = Ret (map Some (relo_bytes its)) /\
  forall base s, loaded (mem s) base (relo_bytes its) ->
    base + Z.of_nat (length (relo_bytes its)) + 20 < 2 ^ 64 ->
    exists t, run 2 (at_pc (base + new_offset its (Z.to_nat n)) s) = Some t /\
      pc t = u64 (origin_addr + 4 * n) /\ frame s t /\ forall r, r <> 17 -> regs t r = regs s r.
Proof.
  intros Hb Hsz Hn H30 Hl Hits Hlim.
  destruct (relocate_rep (Buf := MemBuffer) origin_addr origin_size code n its true) as (a & E & Hrep);
    try done; [unfold cb_limit; simpl in *; lia|].
  exists a. split; [exact E|]. split; [exact (dup_ok _ _ Hrep)|].
  intros base s Hld Hhi. apply (block_jumps_back origin_addr code n its base s); [done|lia|done|done|done].
Qed.

Example relocation_jumps_back_witness :
  exists its a, relo_block 0x4000 4 sample_block true = Some its /\
    relocate (Buf := MemBuffer) 0x4000 16 sample_block true = Ret (16, a) /\
    exists t, run 2 (at_pc (0x10000 + new_offset its 4) (boot 0x10000 (relo_bytes its))) = Some t /\ pc t = 0x4010.
Proof.
  destruct (relo_block 0x4000 4 sample_block true) as [its|] eqn:Hits; [|vm_compute in Hits; discriminate].
  assert (Hlim : 4 * Z.of_nat (length (all_words its)) + 8 * Z.of_nat (length (all_lits 0 its)) < 2 ^ 20
                 /\ Z.of_nat (length (relo_bytes its)) < 1000).
  { vm_compute in Hits. injection Hits as <-. vm_compute. split; reflexivity. }
  destruct (relocation_jumps_back 0x4000 16 sample_block 4 its sample_block_ok ltac:(lia) ltac:(lia)
              ltac:(lia) ltac:(vm_compute; discriminate) Hits (proj1 Hlim)) as (a & Ha & Hl & Hsim).
  exists its, a. split; [reflexivity|]. split; [exact Ha|].
  destruct (Hsim 0x10000 (boot 0x10000 (relo_bytes its))) as (t & Hrun & Hpc & _); [apply boot_loaded; lia|lia|].
  exists t. split; [exact Hrun|exact Hpc].
Defined.

(** The two always-true conditions are the exception: their inverse is also always true, so the relocated
    [b.al] (and [b.nv]) skips the jump and falls through, whatever the flags, where the original branches. *)
Theorem b_always_falls_through l base o s A inst :
  loaded (mem s) base l -> base + 4 * Z.of_nat o + 20 < 2 ^ 64 -> 0 <= inst < 2 ^ 32 ->
  fld inst 25 7 = 42 -> fld inst 24 1 = 0 -> fld inst 4 1 = 0 -> 14 <= fld inst 0 4 ->
  item_in l o (branch_item [invert_b_cond inst] (u64 (A + decode_imm19_offset inst)) false) ->
  let P := base + 4 * Z.of_nat o in
  (exists t, run 1 (at_pc P s) = Some t /\ pc t = P + 12) /\
  exists i, decode inst = Some i /\ pc (exec i (at_pc A s)) = u64 (A + decode_imm19_offset inst).
Proof.
  intros Hld HP Hi C H24 H4 Hc Hit P. pose proof (ld_low _ _ _ Hld) as Hlo.
  pose proof (fld_range inst 0 4 ltac:(lia)) as R4. change (2 ^ 4) with 16 in R4.
  assert (Hcond : forall f c, c = fld inst 0 4 \/ c = Z.lxor (fld inst 0 4) 1 -> cond_holds f c = true).
  { intros f c Hcc. assert (fld inst 0 4 = 14 \/ fld inst 0 4 = 15) as [E|E] by lia; rewrite E in Hcc;
      destruct Hcc as [-> | ->]; reflexivity. }
  split.
  - destruct (branch_item_in l base o _ _ _ Hit) as (Hlen & Hpre & _). simpl length in Hlen.
    exists (jump (P + 12) (at_pc P s)). split; [|cbn [pc jump]; apply wrap_small; unfold P; lia].
    cbn [run]. rewrite (step_at _ (u32 (invert_b_cond inst)) (B_cond (Z.lxor (fld inst 0 4) 1) 12)).
    + cbn [mbind option_bind exec]. by rewrite Hcond by (by right).
    + cbn [mem pc at_pc]. rewrite <- (Hpre 0%nat _ eq_refl), Nat.add_0_r. apply (fetch_word l base o s Hld). lia.
    + by apply decode_invert_b_cond.
  - exists (B_cond (fld inst 0 4) (4 * signed 19 (fld inst 5 19))). split; [by apply decode_B_cond|].
    cbn [exec]. rewrite Hcond by (by left). by rewrite decode_imm19_spec.
Qed.

(** [b.al #+64] alone. *)
Example b_always_falls_through_witness :
  exists t, run 1 (at_pc 0x1000 (boot 0x1000 (relo_bytes [branch_item [invert_b_cond 0x5400020E] (u64 (0x4000 + 64)) false])))
            = Some t /\ pc t = 0x100C.
Proof.
  apply (b_always_falls_through
           (relo_bytes [branch_item [invert_b_cond 0x5400020E] (u64 (0x4000 + 64)) false]) 0x1000 0
           (boot 0x1000 (relo_bytes [branch_item [invert_b_cond 0x5400020E] (u64 (0x4000 + 64)) false]))
           0x4000 0x5400020E); try reflexivity; try lia.
  - apply boot_loaded; vm_compute; congruence.
  - apply (relo_bytes_item [branch_item [invert_b_cond 0x5400020E] (u64 (0x4000 + 64)) false] 0);
      [repeat constructor|reflexivity|reflexivity].
Defined.

(** A 32-bit literal load is relocated as a 64-bit one: [ldr w0] at its old address gives the zero-extended
    word 0x44332211, the relocated sequence the eight bytes starting there. *)
Theorem ldr_w_loads_64_bits :
  exists it, relo_item 0x4000 0x18000040 = Some it /\
    let s := {| pc := 0; regs := fun _ => 0; sp := 0;
                flags := {| N := false; Zf := false; C := false; V := false |};
                mem := fun a => if a <? 0x4000 then nth (Z.to_nat (a - 0x1000)) (relo_bytes [it]) 0
                                else 17 * (a - 0x4007) |} in
    decode 0x18000040 = Some (LDR_lit false 0 8) /\
    regs (exec (LDR_lit false 0 8) (at_pc 0x4000 s)) 0 = 0x44332211 /\
    (fun t => regs t 0) <$> run 5 (at_pc 0x1000 s) = Some 0x8877665544332211.
Proof. eexists. split; [vm_compute; reflexivity|]. repeat split; vm_compute; reflexivity. Qed.

Lemma flat_words_mem base ws m : loaded m base (flat ws) -> words_mem m base ws.
Proof.
  intros Hld j w Hj. pose proof (lookup_lt_Some _ _ _ Hj) as Hlt.
  replace (4 * Z.of_nat j) with (Z.of_nat (4 * j)) by lia.
  rewrite (load_loaded m base (flat ws)) by (try done; rewrite length_flat; lia).
  rewrite <- (app_nil_r (flat ws)). by apply word_flat.
Qed.

(** [CallFunction] calls any address: assembled into a fresh buffer and run from anywhere, its five
    instructions build the 64-bit address in x17, jump to it and leave the return address behind the sequence in
    x30; nothing else changes. *)
Theorem call_function_calls imm :
  0 <= imm < 2 ^ 64 ->
  exists a, CallFunction imm (AssemblerBase (Buf := MemBuffer) 0) = Ret a /\
  exists l, dup (code_buffer_ a) = Ret (map Some l) /\ length l = 20%nat /\
  forall base s, loaded (mem s) base l -> base + 20 < 2 ^ 64 ->
    exists t, run 5 (at_pc base s) = Some t /\ pc t = imm /\ frame s t /\ regs t 30 = base + 20 /\
      forall r, r <> 17 -> r <> 30 -> regs t r = regs s r.
Proof.
  intros Himm.
  assert (Ha0 : asm_rep (AssemblerBase (Buf := MemBuffer) 0) [] []) by (split; [apply new_ok|done]).
  set (wb := Z.lor BLR (Rn TMP_REG_0)).
  destruct (appends_bind _ _ _ _ None (appends_Mov (Buf := MemBuffer) 17 imm) (appends_word wb eq_refl)
              _ _ _ Ha0) as (a & E & [Hb _]); [vm_compute; discriminate|].
  exists a. split; [exact E|]. exists (flat (mov_words 17 imm ++ [wb])).
  split; [exact (dup_ok _ _ Hb)|]. split; [reflexivity|]. intros base s Hld Hhi.
  pose proof (ld_low _ _ _ Hld) as Hlo. pose proof (flat_words_mem _ _ _ Hld) as Hmem.
  destruct (run_mov 17 imm base (at_pc base s)) as (t1 & E1 & [Hp1 Hr1 [Hs1 Hf1 Hm1]]); try done; try lia.
  { intros j w Hj. apply Hmem. by apply lookup_app_l_Some. }
  assert (E2 : step t1 = Some (exec (B_reg true 17) t1)).
  { apply (step_at _ (u32 wb)); [|apply decode_BLR_TMP]. rewrite Hm1, Hp1. cbn [mem at_pc].
    by rewrite (Hmem 4%nat wb eq_refl : load 4 (mem s) (base + 16) = _). }
  exists (exec (B_reg true 17) t1). split.
  { etransitivity; [exact (run_app 4 1 _ t1 E1)|]. cbn [run]. by rewrite E2. }
  cbn [exec]. assert (H17 : get t1 17 = imm) by (unfold get; simpl; by rewrite Hr1).
  rewrite H17. cbn [pc jump]. split; [by apply wrap_small|]. split; [by split|].
  split; [cbn [regs jump]; rewrite regs_set, Hp1, wrap_small; simpl; lia|].
  intros r H17' H30. cbn [regs jump]. rewrite regs_set, Hr1.
  destruct (Z.eqb_spec r 30); [done|]. by destruct (Z.eqb_spec r 17).
Qed.

Example call_function_calls_witness :
  exists a, CallFunction 0xFFFF800012345678 (AssemblerBase (Buf := MemBuffer) 0) = Ret a /\
  exists l, dup (code_buffer_ a) = Ret (map Some l) /\ length l = 20%nat /\
    exists t, run 5 (boot 0x7000 l) = Some t /\ pc t = 0xFFFF800012345678 /\ regs t 30 = 0x7014.
Proof.
  destruct (call_function_calls 0xFFFF800012345678 ltac:(vm_compute; split; congruence)) as (a & Ha & l & Hl & Hlen & H).
  exists a. split; [exact Ha|]. exists l. split; [exact Hl|]. split; [exact Hlen|].
  destruct (H 0x7000 (boot 0x7000 l)) as (t & Hrun & Hpc & _ & H30 & _);
    [apply boot_loaded; rewrite ?Hlen; vm_compute; congruence|vm_compute; reflexivity|].
  exists t. split; [exact Hrun|]. split; [exact Hpc|exact H30].
Defined.

(** [mov] between general registers is the ORR encoding of the architecture for every source but x0; an operand
    is taken for an immediate when its register number is 0, and then the class bits are missing from the
    emitted word. *)
Theorem mov_register_encoding (rd rn : Z) (a : AssemblerT MemBuffer) :
  0 <= rd < 31 -> 0 <= rn < 31 ->
  mov (X rd) (X rn) a = Emit (if rn =? 0 then 0xA00003E0 + rd else 0xAA0003E0 + rn * 2 ^ 16 + rd) a.
Proof.
  intros Hrd Hrn. unfold mov, Is. cbn [reg_id X SP].
  destruct (Z.eqb_spec 31 rd); [lia|]. destruct (Z.eqb_spec 31 rn); [lia|].
  cbn [orb]. change (Is64Bits (X rd)) with true. cbn iota. unfold orr, Logical, IsImmediate, Is.
  cbn [o_reg Operand_reg reg_id X InvalidRegister].
  assert (Hrd5 : forall c, fld c 0 5 = 0 -> Z.lor c rd = c + rd).
  { intros c Hc. rewrite <- (Z.shiftl_0_r rd) at 1. rewrite (lor_field c rd 0 5) by (try done; simpl; lia). simpl. lia. }
  rewrite (Z.eqb_sym 0 rn). destruct (Z.eqb_spec rn 0) as [->|Hne].
  - unfold LogicalImmediate, EncodeLogicalImmediate, Rd, code. cbn [o_immediate Operand_reg reg_id X].
    change (sf (X rd)) with 0x80000000. change (LeftShift (bits 0 0 5) 6 16) with 0.
    change (LeftShift (bits 0 6 11) 6 10) with 0. change kRdShift with 0. rewrite Z.shiftl_0_r, !Z.lor_0_r.
    change (Rn xzr) with 0x3E0. f_equal. rewrite <- (Z.lor_assoc _ rd), (Z.lor_comm rd), !Z.lor_assoc.
    change (Z.lor (Z.lor ORR 0x80000000) 0x3E0) with 0xA00003E0. by apply Hrd5.
  - unfold LogicalShift, EncodeLogicalShift, Rd, Rm, code. cbn [o_reg o_shift o_shift_extend_imm Operand_reg reg_id X].
    change (sf (X rd)) with 0x80000000. change (enc_shift LSL) with 0. change (LeftShift 0 6 10) with 0.
    change kRdShift with 0. change kRmShift with 16. rewrite Z.shiftl_0_r, !Z.lor_0_r. change (Rn xzr) with 0x3E0.
    f_equal. rewrite !Z.lor_assoc. change (Z.lor (Z.lor ORR LogicalShiftedFixed) 0x80000000) with 0xAA000000.
    rewrite (lor_field _ rn 16 5) by (try done; simpl; lia). change (2 ^ 16) with 65536.
    change 0x3E0 with (Z.shiftl 31 5).
    rewrite (lor_field _ 31 5 5) by (try lia; field_arith). rewrite Hrd5 by field_arith. simpl. lia.
Qed.

Example mov_register_encoding_witness :
  mov (X 1) (X 2) (AssemblerBase (Buf := MemBuffer) 0) = Emit 0xAA0203E1 (AssemblerBase (Buf := MemBuffer) 0).
Proof. apply (mov_register_encoding 1 2 (AssemblerBase 0)); lia. Defined.
