(* ===== verification/Arm64Trampoline.v ===== *)
(** * ARM64 trampolines (TrampolineBridge/Trampoline, InterceptRouting/NearBranchTrampoline)

    The code that is written over the start of a hooked function: the absolute
    trampolines of trampoline_arm64.cc and the near trampolines of
    near_trampoline_arm64.cc, and what they do when they run at their address.  A
    trampoline owns a copy of its code; the model keeps the bytes of the copy. *)

From S2P Require Import Prelude UtilityMacro CodeMemBuffer Arm64Kit Arm64Assembler Arm64Relocation.
From S2P Require Import Arm64Machine BitFields Arm64Simulation.
#[local] Open Scope Z_scope.
#[local] Open Scope machine_scope.

Inductive trampoline_type_t :=
| TRAMPOLINE_UNKNOWN
| TRAMPOLINE_ARM64_B_XXX
| TRAMPOLINE_ARM64_B_XXX_AND_FORWARD_TRAMP
| TRAMPOLINE_ARM64_ADRP_ADD_BR
| TRAMPOLINE_ARM64_LDR_BR
| TRAMPOLINE_ARM_LDR_PC
| CLOSURE_TRAMPOLINE_ARM64
| CLOSURE_TRAMPOLINE_ARM
| FORWARD_TRAMPOLINE_ARM64
| TRAMPOLINE_X64_JMP
| CLOSEURE_TRAMPOLINE_X64.

Record Trampoline := { type : trampoline_type_t; buffer : list (option Z) }.

(** [GenerateNormalTrampolineBuffer(from, to)]. *)
Definition GenerateNormalTrampolineBuffer (from to : Z) : outcome Trampoline :=
  let turbo_assembler_ := AssemblerBase (Buf := MemBuffer) from in
  let distance := u64 (Z.abs (i64 (from - to))) in
  let adrp_range := 1 << (2 + 19 + 12 - 1) in
  '(tramp_type, a) ←
    (if distance <? adrp_range then
       a ← AdrpAdd TMP_REG_0 from to turbo_assembler_;
       a ← br TMP_REG_0 a;
       Ret (TRAMPOLINE_ARM64_ADRP_ADD_BR, a)
     else
       a ← LiteralLdrBranch to turbo_assembler_;
       Ret (TRAMPOLINE_ARM64_LDR_BR, a));
  a ← relocDataLabels a;
  tramp_block ← dup (code_buffer_ a);
  Ret {| type := tramp_type; buffer := tramp_block |}.

Definition ARM64_B_XXX_RANGE : Z := (1 << 25) << 2.

(** The code of [GenerateFastForwardTrampoline]; the near allocator's block is its address. *)
Definition fast_forward_code (dst : Z) : outcome (list (option Z)) :=
  let turbo_assembler_ := AssemblerBase (Buf := MemBuffer) 0 in
  a ← ldr_literal TMP_REG_0 8 turbo_assembler_;
  a ← br TMP_REG_0 a;
  a ← EmitInt64 dst a;
  dup (code_buffer_ a).

(** [GenerateNearTrampolineBuffer(src, dst)]; [blk] is the address of the block that
    [gNearMemoryAllocator.allocNearCodeBlock] returns when it is asked, 0 for none.
    The second component is the forward trampoline, to be written at [blk]. *)
Definition GenerateNearTrampolineBuffer (blk src dst : Z)
    : outcome (option (Trampoline * option Trampoline)) :=
  let turbo_assembler_ := AssemblerBase (Buf := MemBuffer) src in
  if Z.abs (i64 dst - i64 src) <? ARM64_B_XXX_RANGE then
    a ← b (i64 (dst - src)) turbo_assembler_;
    tramp_block ← dup (code_buffer_ a);
    Ret (Some ({| type := TRAMPOLINE_ARM64_B_XXX; buffer := tramp_block |}, None))
  else if negb (blk mod 4 =? 0) then Fatal
  else if blk =? 0 then Ret None
  else
    forward ← fast_forward_code dst;
    a ← b (i64 (blk - src)) turbo_assembler_;
    tramp_block ← dup (code_buffer_ a);
    Ret (Some ({| type := TRAMPOLINE_ARM64_B_XXX_AND_FORWARD_TRAMP; buffer := tramp_block |},
               Some {| type := FORWARD_TRAMPOLINE_ARM64; buffer := forward |})).

(** ** The emitted words *)

Definition adrp_word (delta : Z) : Z :=
  ADRP .| Rd TMP_REG_0 .| u32 (LeftShift (bits (delta >> 12) 0 1) 2 29) .| u32 (LeftShift (bits (delta >> 12) 2 20) 19 5).
Definition add_word (off : Z) : Z := ADD_x_imm .| Rd TMP_REG_0 .| Rn TMP_REG_0 .| LeftShift off 12 10.
Definition br_word : Z := BR .| Rn TMP_REG_0.
Definition b_word (off : Z) : Z := B .| bits (off >> 2) 0 25.

Lemma decode_adrp_word delta :
  decode (u32 (adrp_word delta)) = Some (ADRP_imm 17 (signed 21 ((delta / 4096) mod 2 ^ 21) * 2 ^ 12)).
Proof.
  unfold adrp_word. set (pg := delta >> 12).
  assert (Epg : pg = delta / 4096) by (unfold pg; by rewrite Z.shiftr_div_pow2 by lia).
  pose proof (bits_range pg 0 1 ltac:(lia)) as Hlo. pose proof (bits_range pg 2 20 ltac:(lia)) as Hhi.
  change (2 ^ (1 - 0 + 1)) with 4 in Hlo. change (2 ^ (20 - 2 + 1)) with 524288 in Hhi.
  assert (Esum : bits pg 0 1 + 4 * bits pg 2 20 = (delta / 4096) mod 2 ^ 21).
  { rewrite <- Epg, !bits_alt, Z.div_1_r by lia. change (2 ^ 21) with (4 * 524288). rewrite Z.rem_mul_r by lia. reflexivity. }
  rewrite <- Esum. generalize dependent (bits pg 2 20). generalize dependent (bits pg 0 1). clear pg Epg.
  intros lo Hlo hi Hhi _. rewrite !LeftShift_alt by lia. rewrite !Z.mod_small by (simpl; lia).
  rewrite (wrap_small 32 (lo * 2 ^ 29)) by (simpl; lia). rewrite (wrap_small 32 (hi * 2 ^ 5)) by (simpl; lia).
  rewrite <- (Z.shiftl_mul_pow2 lo 29), <- (Z.shiftl_mul_pow2 hi 5) by lia. change (Z.lor ADRP (Rd TMP_REG_0)) with 0x90000011.
  rewrite (lor_field _ lo 29 2) by (try done; simpl; lia).
  rewrite (lor_field _ hi 5 19) by (try lia; simpl; try lia; field_arith).
  rewrite wrap_small by (simpl; lia). set (w := 0x90000011 + lo * 2 ^ 29 + hi * 2 ^ 5).
  assert (Ew : w = 0x90000011 + lo * 536870912 + hi * 32) by reflexivity.
  assert (F1 : fld w 0 5 = 17) by (rewrite Ew; field_arith).
  assert (F2 : fld w 5 19 = hi) by (rewrite Ew; field_arith).
  assert (F3 : fld w 29 2 = lo) by (rewrite Ew; field_arith).
  assert (F4 : fld w 26 5 = 4 + 8 * lo) by (rewrite Ew; field_arith).
  assert (F5 : fld w 27 3 = 2 + 4 * (lo mod 2)) by (rewrite Ew; field_arith).
  assert (F6 : fld w 24 5 = 16) by (rewrite Ew; field_arith).
  assert (F7 : fld w 31 1 = 1) by (rewrite Ew; field_arith).
  unfold decode. rewrite F1, F2, F3, F4, F5, F6, F7.
  destruct (Z.eqb_spec (4 + 8 * lo) 5); [lia|]. destruct (Z.eqb_spec (2 + 4 * (lo mod 2)) 3); [lia|]. reflexivity.
Qed.

Lemma decode_add_word off :
  0 <= off < 4096 -> decode (u32 (add_word off)) = Some (ADD_uimm 17 17 off).
Proof.
  intros Ho. unfold add_word. rewrite LeftShift_alt, Z.mod_small by (simpl; lia).
  rewrite <- Z.shiftl_mul_pow2 by lia. change (Z.lor (Z.lor ADD_x_imm (Rd TMP_REG_0)) (Rn TMP_REG_0)) with 0x91000231.
  rewrite (lor_field _ off 10 12) by (try done; simpl; lia). rewrite wrap_small by (simpl; lia).
  set (w := 0x91000231 + off * 2 ^ 10). assert (Ew : w = 0x91000231 + off * 1024) by reflexivity.
  assert (Ht : w / 2 ^ 22 = 0x244) by (rewrite Ew; change (2 ^ 22) with 4194304; Z.div_mod_to_equations; lia).
  assert (F1 : fld w 0 5 = 17) by (rewrite Ew; field_arith).
  assert (F2 : fld w 5 5 = 17) by (rewrite Ew; field_arith).
  assert (F3 : fld w 10 12 = off) by (rewrite Ew; field_arith).
  clearbody w. decode_from w 22 Ht. by rewrite F1, F2, F3.
Qed.

Lemma decode_b_word off :
  off mod 4 = 0 -> - 2 ^ 27 <= off < 2 ^ 27 -> decode (u32 (b_word off)) = Some (B_imm false off).
Proof.
  intros H4 Hr. unfold b_word. pose proof (bits_range (off >> 2) 0 25 ltac:(lia)) as Hb.
  assert (Eb : bits (off >> 2) 0 25 = (off / 4) mod 2 ^ 26).
  { rewrite bits_alt, Z.shiftr_div_pow2 by lia. by rewrite Z.div_1_r. }
  change (2 ^ (25 - 0 + 1)) with 67108864 in Hb. change (2 ^ 27) with 134217728 in Hr. change (2 ^ 26) with 67108864 in Eb.
  generalize dependent (bits (off >> 2) 0 25). intros f Hf Ef.
  rewrite <- (Z.shiftl_0_r f). change B with 0x14000000. rewrite (lor_field _ f 0 26) by (try done; simpl; lia).
  rewrite Z.pow_0_r, Z.mul_1_r, wrap_small by (simpl; lia). set (w := 0x14000000 + f).
  assert (F1 : fld w 26 5 = 5) by (unfold w; field_arith).
  assert (F2 : fld w 31 1 = 0) by (unfold w; field_arith).
  assert (F3 : fld w 0 26 = f) by (unfold w; field_arith).
  unfold decode. rewrite F1, F2, F3. cbn. do 2 f_equal. unfold signed. change (2 ^ (26 - 1)) with 33554432.
  change (2 ^ 26) with 67108864. destruct (Z.ltb_spec f 33554432); Z.div_mod_to_equations; lia.
Qed.

(** ** The emitted code *)

Lemma fresh_asm addr : asm_rep (AssemblerBase (Buf := MemBuffer) addr) [] [].
Proof. split; [apply new_ok|done]. Qed.

(** Finishing an assembler whose items are known. *)
Lemma finish_code a its :
  asm_rep a (all_words its) (all_lits 0 its) -> Forall item_ok its ->
  4 * Z.of_nat (length (all_words its)) + 8 * Z.of_nat (length (all_lits 0 its)) < 2 ^ 20 ->
  exists a', relocDataLabels a = Ret a' /\ dup (code_buffer_ a') = Ret (map Some (relo_bytes its)).
Proof.
  intros Ha Hok Hlim. destruct (relocDataLabels_rep a its Ha Hok) as (a' & E & Hb); [unfold cb_limit; simpl in *; lia|].
  exists a'. split; [done|]. exact (dup_ok _ _ Hb).
Qed.

Lemma appends_AdrpAdd from to :
  appends (Buf := MemBuffer) (AdrpAdd TMP_REG_0 from to)
    [u32 (adrp_word (i64 (ALIGN_FLOOR to 0x1000 - ALIGN_FLOOR from 0x1000))); u32 (add_word (to mod 0x1000))] None.
Proof. apply (appends_bind (Emit _) _ [_] [_] None (appends_Emit _) (appends_Emit _)). Qed.

Definition adrp_item (from to : Z) : item :=
  {| i_words := [u32 (adrp_word (i64 (ALIGN_FLOOR to 0x1000 - ALIGN_FLOOR from 0x1000)));
                 u32 (add_word (to mod 0x1000)); br_word]; i_lit := None |}.

Definition normal_item (from to : Z) : item :=
  if u64 (Z.abs (i64 (from - to))) <? 2 ^ 32 then adrp_item from to else branch_item [] to false.

Lemma normal_trampoline_code from to :
  0 <= to < 2 ^ 64 ->
  exists ty, GenerateNormalTrampolineBuffer from to
             = Ret {| type := ty; buffer := map Some (relo_bytes [normal_item from to]) |}.
Proof.
  intros Hto. unfold GenerateNormalTrampolineBuffer, normal_item. change (1 << (2 + 19 + 12 - 1)) with (2 ^ 32).
  destruct (_ <? 2 ^ 32).
  - destruct (appends_bind _ _ _ _ None (appends_AdrpAdd from to) (appends_word br_word eq_refl)
                _ _ _ (fresh_asm from)) as (a & E & Ha); [vm_compute; discriminate|].
    destruct (finish_code a [adrp_item from to]) as (a' & E' & Hd); [exact Ha|repeat constructor|vm_compute; reflexivity|].
    apply outcome_bind_Ret in E as (a1 & E1 & E2). rewrite E1. cbn [mbind outcome_bind].
    unfold br. rewrite (E2 : Emit (BR .| Rn TMP_REG_0) a1 = _). cbn [mbind outcome_bind]. rewrite E'. cbn [mbind outcome_bind]. rewrite Hd. by eexists.
  - destruct (appends_branch Ret [] to false emits_Ret Hto _ _ _ (fresh_asm from)) as (a & E & Ha);
      [vm_compute; discriminate|].
    destruct (finish_code a [branch_item [] to false]) as (a' & E' & Hd); [exact Ha|repeat constructor|vm_compute; reflexivity|].
    replace (LiteralLdrBranch to _) with (Ret (A := AssemblerT MemBuffer) a) by (symmetry; exact E).
    cbn [mbind outcome_bind]. rewrite E'. cbn [mbind outcome_bind]. rewrite Hd. by eexists.
Qed.

(** ** Running it *)

Lemma item_bytes_words ws : relo_bytes [{| i_words := ws; i_lit := None |}] = flat ws.
Proof. unfold relo_bytes, all_words, lit_bytes. cbn. by rewrite !app_nil_r. Qed.

(** The page distance the ADRP field holds. *)
Definition page_delta (from to : Z) : Z := i64 (ALIGN_FLOOR to 0x1000 - ALIGN_FLOOR from 0x1000).

(** The sequence [adrp x17; add x17; br x17] at [from]. *)
Lemma run_adrp_add_br from to s :
  0 <= from -> from + 12 < 2 ^ 64 -> 0 <= to < 2 ^ 64 ->
  words_mem (mem s) from (i_words (adrp_item from to)) ->
  let target := u64 (from - from mod 4096 + signed 21 ((page_delta from to / 4096) mod 2 ^ 21) * 2 ^ 12) in
  exists t, run 3 (at_pc from s) = Some t /\ frame s t /\ (forall r, r <> 17 -> regs t r = regs s r) /\
    pc t = u64 (target + to mod 4096).
Proof.
  intros Hlo Hhi Hto Hmem target.
  pose proof (Hmem 0%nat _ eq_refl) as M0. pose proof (Hmem 1%nat _ eq_refl) as M1.
  pose proof (Hmem 2%nat _ eq_refl) as M2. rewrite !wrap_wrap in M0, M1.
  change (4 * Z.of_nat 0) with 0 in M0. change (4 * Z.of_nat 1) with 4 in M1. change (4 * Z.of_nat 2) with 8 in M2.
  rewrite Z.add_0_r in M0. pose proof (Z.mod_pos_bound to 4096 ltac:(lia)) as Hoff.
  set (s0 := at_pc from s). set (s1 := next (set 17 target s0)).
  assert (E1 : step s0 = Some s1) by (exact (step_at s0 _ _ M0 (decode_adrp_word _))).
  assert (P1 : pc s1 = from + 4) by (apply wrap_small; cbn [pc set s0 at_pc]; simpl; lia).
  set (s2 := next (set 17 (u64 (target + to mod 4096)) s1)).
  assert (E2 : step s1 = Some s2).
  { change (Some s2) with (Some (exec (ADD_uimm 17 17 (to mod 4096)) s1)).
    apply (step_at _ (u32 (add_word (to mod 4096)))); [|by apply decode_add_word]. by rewrite P1. }
  assert (P2 : pc s2 = from + 8).
  { unfold s2, next. cbn [pc jump]. rewrite pc_set, P1, wrap_small; lia. }
  assert (E3 : step s2 = Some (jump (u64 (target + to mod 4096)) s2)).
  { change (jump _ s2) with (exec (B_reg false 17) s2). apply (step_at _ (u32 br_word)); [|apply decode_BR_TMP].
    rewrite P2. exact M2. }
  exists (jump (u64 (target + to mod 4096)) s2). cbn [run]. rewrite E1. cbn [mbind option_bind].
  rewrite E2. cbn [mbind option_bind]. rewrite E3. split; [done|]. split; [by split|].
  split; [|cbn [pc jump]; apply wrap_wrap].
  intros r Hr. cbn [regs jump s2 s1 next]. unfold set. cbn. by destruct (Z.eqb_spec r 17).
Qed.

Lemma page_delta_target from to :
  0 <= from < 2 ^ 64 -> 0 <= to < 2 ^ 64 -> - 2 ^ 32 <= page_delta from to <= 2 ^ 32 ->
  u64 (u64 (from - from mod 4096 + signed 21 ((page_delta from to / 4096) mod 2 ^ 21) * 2 ^ 12) + to mod 4096)
  = if page_delta from to =? 2 ^ 32 then u64 (to - 2 ^ 33) else to.
Proof.
  intros Hf Ht Hd. unfold page_delta in *. change 0x1000 with (2 ^ 12) in *. rewrite !ALIGN_FLOOR_alt in * by lia.
  change (2 ^ 12) with 4096 in *.
  destruct (sext_cong 64 (to - to mod 4096 - (from - from mod 4096)) ltac:(lia)) as [k Ek].
  set (d := i64 _) in *. clearbody d.
  assert (Hdm : exists q, d = 4096 * q).
  { exists (to / 4096 - from / 4096 + k * 2 ^ 52). rewrite Ek.
    pose proof (Z.div_mod to 4096 ltac:(lia)). pose proof (Z.div_mod from 4096 ltac:(lia)).
    change (2 ^ 64) with (4096 * 2 ^ 52). lia. }
  destruct Hdm as [q Hq]. assert (Eq : d / 4096 = q) by (rewrite Hq, Z.mul_comm, Z.div_mul; lia).
  rewrite Eq, wrap_add_l. change (2 ^ 32) with 4294967296 in *. change (2 ^ 21) with 2097152. change (2 ^ 33) with 8589934592.
  assert (Hs : signed 21 (q mod 2097152) * 4096 = if d =? 4294967296 then d - 8589934592 else d).
  { unfold signed. change (2 ^ (21 - 1)) with 1048576. change (2 ^ 21) with 2097152.
    destruct (Z.eqb_spec d 4294967296), (Z.ltb_spec (q mod 2097152) 1048576); Z.div_mod_to_equations; lia. }
  rewrite Hs. destruct (d =? 4294967296) eqn:E.
  - replace (from - from mod 4096 + (d - 8589934592) + to mod 4096) with (to - 8589934592 + k * 2 ^ 64) by lia.
    apply wrap_add_mul. lia.
  - replace (from - from mod 4096 + d + to mod 4096) with (to + k * 2 ^ 64) by lia.
    rewrite wrap_add_mul by lia. by apply wrap_small.
Qed.

(** Closer than 4 GiB, the pages are at most 4 GiB apart. *)
Lemma page_delta_range from to :
  u64 (Z.abs (i64 (from - to))) < 2 ^ 32 -> - 2 ^ 32 <= page_delta from to <= 2 ^ 32.
Proof.
  intros Hd. pose proof (sext_range 64 (from - to) ltac:(lia)) as Hr.
  rewrite wrap_small in Hd by (simpl in *; lia).
  destruct (sext_cong 64 (from - to) ltac:(lia)) as [j Ej].
  unfold page_delta. change 0x1000 with (2 ^ 12). rewrite !ALIGN_FLOOR_alt by lia. change (2 ^ 12) with 4096.
  destruct (sext_cong 64 (to - to mod 4096 - (from - from mod 4096)) ltac:(lia)) as [k Ek].
  pose proof (sext_range 64 (to - to mod 4096 - (from - from mod 4096)) ltac:(lia)) as Hr2.
  pose proof (Z.div_mod to 4096 ltac:(lia)) as Et. pose proof (Z.div_mod from 4096 ltac:(lia)) as Ef.
  pose proof (Z.mod_pos_bound to 4096 ltac:(lia)). pose proof (Z.mod_pos_bound from 4096 ltac:(lia)).
  set (d := i64 (to - _ - _)) in *. set (x := i64 (from - to)) in *. clearbody d x.
  change (2 ^ 64) with 18446744073709551616 in *. change (2 ^ (64 - 1)) with 9223372036854775808 in *.
  change (2 ^ 32) with 4294967296 in *. assert (k + j = 0) by lia. lia.
Qed.

(** ** Properties *)

(** The page distance at which the ADRP field overflows although the addresses are less than 4 GiB apart. *)
Definition adrp_overflows (from to : Z) : bool :=
  (u64 (Z.abs (i64 (from - to))) <? 2 ^ 32) && (page_delta from to =? 2 ^ 32).

(** The literal branch at [blk]. *)
Lemma run_forward blk dst s :
  0 <= dst < 2 ^ 64 -> blk + 36 < 2 ^ 64 -> loaded (mem s) blk (relo_bytes [branch_item [] dst false]) ->
  exists t, run 2 (at_pc blk s) = Some t /\ pc t = dst /\ frame s t /\ forall r, r <> 17 -> regs t r = regs s r.
Proof.
  intros Hd Hb Hld.
  destruct (run_branch_tail (relo_bytes [branch_item [] dst false]) blk 0 s Hld) with (pre := @nil Z) (dst := dst)
    (link := false) (t0 := at_pc blk s) as (t & Hrun & Hpc & Hf & Hr & _); try done; try lia.
  - apply (relo_bytes_item [branch_item [] dst false] 0); [repeat constructor|done|done].
  - simpl. lia.
  - cbn. lia.
  - exists t. split; [done|]. split; [done|]. split; [by destruct Hf|]. intros r Hr17. apply Hr; [done|by left].
Qed.

(** Running a normal trampoline at its address. *)
Lemma normal_item_runs from to s :
  0 <= from -> from + 36 < 2 ^ 64 -> 0 <= to < 2 ^ 64 -> loaded (mem s) from (relo_bytes [normal_item from to]) ->
  exists k t, run k (at_pc from s) = Some t /\ frame s t /\ (forall r, r <> 17 -> regs t r = regs s r) /\
    pc t = if adrp_overflows from to then u64 (to - 2 ^ 33) else to.
Proof.
  intros Hlo Hhi Hto. unfold normal_item, adrp_overflows.
  destruct (Z.ltb_spec (u64 (Z.abs (i64 (from - to)))) (2 ^ 32)) as [Hd|_]; cbn [andb].
  - unfold adrp_item. rewrite item_bytes_words. intros Hld.
    destruct (run_adrp_add_br from to s) as (t & Hrun & Hf & Hr & Hpc); [done|lia|done|by apply flat_words_mem|].
    exists 3%nat, t. split; [done|]. split; [done|]. split; [done|]. rewrite Hpc.
    apply page_delta_target; [lia|done|by apply page_delta_range].
  - intros Hld. destruct (run_forward from to s) as (t & Hrun & Hpc & Hf & Hr); [done|lia|done|]. by exists 2%nat, t.
Qed.

Lemma normal_item_length from to :
  length (relo_bytes [normal_item from to]) = 12%nat \/ length (relo_bytes [normal_item from to]) = 16%nat.
Proof. unfold normal_item. destruct (_ <? _); [by left|by right]. Qed.

(** The absolute trampoline reaches its target.  For every pair of addresses [GenerateNormalTrampolineBuffer]
    returns 12 or 16 bytes of code which, placed at [from] and run, change nothing but x17 and arrive at [to];
    the one exception is a target less than 4 GiB but exactly 2^20 pages above, which the ADRP field cannot hold:
    there the code arrives 8 GiB too low. *)
Theorem normal_trampoline_jumps from to :
  0 <= from -> from + 36 < 2 ^ 64 -> 0 <= to < 2 ^ 64 ->
  exists tr l, GenerateNormalTrampolineBuffer from to = Ret tr /\ buffer tr = map Some l /\
    (length l = 12%nat \/ length l = 16%nat) /\
    forall s, loaded (mem s) from l ->
      exists k t, run k (at_pc from s) = Some t /\ frame s t /\ (forall r, r <> 17 -> regs t r = regs s r) /\
        pc t = if adrp_overflows from to then u64 (to - 2 ^ 33) else to.
Proof.
  intros Hlo Hhi Hto. destruct (normal_trampoline_code from to Hto) as [ty E].
  exists {| type := ty; buffer := map Some (relo_bytes [normal_item from to]) |}, (relo_bytes [normal_item from to]).
  split; [done|]. split; [done|]. split; [apply normal_item_length|]. intros s Hld. by apply normal_item_runs.
Qed.

(** 1 MiB away; and 4 GiB less four bytes away, where the trampoline misses. *)
Example normal_trampoline_jumps_witness :
  (exists tr l, GenerateNormalTrampolineBuffer 0x400000 0x500010 = Ret tr /\ buffer tr = map Some l /\
     exists k t, run k (boot 0x400000 l) = Some t /\ pc t = 0x500010) /\
  adrp_overflows 0x10ffc 0x100010ff8 = true.
Proof.
  split; [|vm_compute; reflexivity].
  destruct (normal_trampoline_jumps 0x400000 0x500010) as (tr & l & E & Hb & Hl & H); [lia|lia|lia|].
  exists tr, l. split; [done|]. split; [done|].
  destruct (H (boot 0x400000 l)) as (k & t & Hrun & _ & _ & Hpc); [apply boot_loaded; lia|].
  exists k, t. split; [exact Hrun|]. rewrite Hpc. vm_compute. reflexivity.
Defined.

(** The forward trampoline is the literal branch, assembled by hand. *)
Lemma fast_forward_bytes dst :
  0 <= dst < 2 ^ 64 -> fast_forward_code dst = Ret (map Some (relo_bytes [branch_item [] dst false])).
Proof.
  intros Hd. unfold fast_forward_code, ldr_literal, br. cbn [reg_type_ TMP_REG_0 X].
  destruct (appends_bind _ _ _ _ None (appends_Emit (Buf := MemBuffer) (LDR_x_literal .| LeftShift (8 >> 2) 26 5 .| Rt TMP_REG_0))
              (appends_Emit br_word) _ _ _ (fresh_asm 0)) as (a & E & [Hb _]); [vm_compute; discriminate|].
  apply outcome_bind_Ret in E as (a1 & E1 & E2). unfold EmitLoadRegLiteral. rewrite E1. cbn [mbind outcome_bind].
  rewrite (E2 : Emit (BR .| Rn TMP_REG_0) a1 = _). cbn [mbind outcome_bind]. unfold EmitInt64.
  destruct (cb_emit_rep _ _ (le_bytes 8 (u64 dst)) Hb (le_bytes_ok 8 _)) as (b & -> & Hb'); [vm_compute; discriminate|].
  cbn [mbind outcome_bind code_buffer_ with_buffer]. rewrite (dup_ok _ _ Hb'), (wrap_small 64 dst Hd).
  reflexivity.
Qed.

(** [b] at [src]. *)
Lemma run_b src off s :
  off mod 4 = 0 -> - 2 ^ 27 <= off < 2 ^ 27 -> loaded (mem s) src (flat [u32 (b_word off)]) ->
  run 1 (at_pc src s) = Some (jump (src + off) (at_pc src s)).
Proof.
  intros H4 Hr Hld%flat_words_mem. pose proof (Hld 0%nat _ eq_refl) as M. rewrite wrap_wrap, Z.add_0_r in M.
  cbn [run]. rewrite (step_at (at_pc src s) _ _ M (decode_b_word off H4 Hr)). done.
Qed.

Lemma near_code src off :
  exists a, b off (AssemblerBase (Buf := MemBuffer) src) = Ret a /\
    dup (code_buffer_ a) = Ret (map Some (flat [u32 (b_word off)])).
Proof.
  destruct (appends_Emit (Buf := MemBuffer) (b_word off) _ _ _ (fresh_asm src)) as (a & E & [Hb _]); [vm_compute; discriminate|].
  exists a. split; [exact E|]. exact (dup_ok _ _ Hb).
Qed.

(** The near trampoline is a single branch instruction: within 128 MiB it goes straight to the target, changing no
    register, and beyond that to the forward trampoline in the block the near allocator found within range, which
    continues to the target through x17. *)
Theorem near_trampoline_jumps blk src dst :
  0 <= src < 2 ^ 63 - 4 -> 0 <= dst < 2 ^ 63 -> src mod 4 = 0 -> dst mod 4 = 0 ->
  0 < blk < 2 ^ 63 - 36 -> blk mod 4 = 0 -> - ARM64_B_XXX_RANGE <= blk - src < ARM64_B_XXX_RANGE ->
  exists tr fwd l lf, GenerateNearTrampolineBuffer blk src dst = Ret (Some (tr, fwd)) /\
    buffer tr = map Some l /\ length l = 4%nat /\ buffer <$> fwd = (if decide (lf = []) then None else Some (map Some lf)) /\
    forall s, loaded (mem s) src l -> lf = [] \/ loaded (mem s) blk lf ->
      exists k t, run k (at_pc src s) = Some t /\ pc t = dst /\ frame s t /\ forall r, r <> 17 -> regs t r = regs s r.
Proof.
  intros Hs Hd Hs4 Hd4 Hb Hb4 Hrange. unfold GenerateNearTrampolineBuffer. change ARM64_B_XXX_RANGE with (2 ^ 27) in *.
  rewrite !(sext_small 64) by (simpl in *; lia).
  destruct (Z.ltb_spec (Z.abs (dst - src)) (2 ^ 27)) as [Hn|Hf].
  - destruct (near_code src (dst - src)) as (a & -> & Hdup). cbn [mbind outcome_bind]. rewrite Hdup.
    cbn [mbind outcome_bind]. eexists _, None, _, []. split; [reflexivity|]. split; [reflexivity|]. split; [done|].
    split; [done|]. intros s Hld _. exists 1%nat. eexists.
    split; [apply run_b; [rewrite Zminus_mod, Hd4, Hs4; done|simpl in *; lia|exact Hld]|].
    split; [cbn [pc jump]; rewrite wrap_small; simpl in *; lia|]. by split.
  - rewrite Hb4. cbn [Z.eqb negb]. destruct (Z.eqb_spec blk 0); [lia|].
    rewrite (fast_forward_bytes dst) by (simpl in *; lia). cbn [mbind outcome_bind].
    destruct (near_code src (blk - src)) as (a & -> & Hdup). cbn [mbind outcome_bind]. rewrite Hdup.
    cbn [mbind outcome_bind]. eexists _, (Some _), _, (relo_bytes [branch_item [] dst false]).
    split; [reflexivity|]. split; [reflexivity|]. split; [done|]. split; [done|].
    intros s Hld [?|Hlf]; [done|].
    destruct (run_forward blk dst s) as (t & Hrun & Hpc & Hfr & Hr); [simpl in *; lia|simpl in *; lia|done|].
    exists (1 + 2)%nat, t. split; [|done].
    rewrite (run_app 1 2 (at_pc src s) (jump (src + (blk - src)) (at_pc src s))).
    + replace (jump (src + (blk - src)) (at_pc src s)) with (at_pc blk s); [done|].
      unfold jump, at_pc. cbn. f_equal. rewrite wrap_small; simpl in *; lia.
    + apply run_b; [by rewrite Zminus_mod, Hb4, Hs4|lia|done].
Qed.

(** A far target: the branch at 0x400000 goes to the forward trampoline at 0x500000. *)
Example near_trampoline_jumps_witness :
  exists tr fwd l lf, GenerateNearTrampolineBuffer 0x500000 0x400000 0x7000000000 = Ret (Some (tr, fwd)) /\
    buffer tr = map Some l /\ buffer <$> fwd = Some (map Some lf) /\
    forall s, loaded (mem s) 0x400000 l -> loaded (mem s) 0x500000 lf ->
      exists k t, run k (at_pc 0x400000 s) = Some t /\ pc t = 0x7000000000.
Proof.
  destruct (near_trampoline_jumps 0x500000 0x400000 0x7000000000 ltac:(lia) ltac:(lia) eq_refl eq_refl ltac:(lia) eq_refl
              ltac:(vm_compute; split; congruence)) as (tr & fwd & l & lf & E & Hb & _ & Hf & H).
  exists tr, fwd, l, lf. split; [exact E|]. split; [done|].
  split.
  - destruct (decide (lf = [])) as [->|]; [|done]. destruct fwd; [done|]. vm_compute in E. discriminate.
  - intros s H1 H2. destruct (H s H1 (or_intror H2)) as (k & t & Hr & Hp & _). by exists k, t.
Defined.
