(* ===== verification/CodePatch.v ===== *)
(** * Patching code in place (source/Backend/UserMode/ExecMemory/code-patch-tool-posix.cc)

    [DobbyCodePatch] on Linux and Android: it finds the protection of every page the
    patch touches, makes the pages writable, copies the bytes and puts the protections
    back; when putting them back fails it takes the patch back.  The address space is
    [vm]: bytes, the protection of each mapped page ([/proc/self/maps]), and the
    answers the kernel will give to the coming [mprotect] calls, in order. *)

From stdpp Require Import gmap.
From S2P Require Import Prelude UtilityMacro.
#[local] Open Scope Z_scope.
#[local] Open Scope machine_scope.

Definition PROT_READ : Z := 1.
Definition PROT_WRITE : Z := 2.
Definition PROT_EXEC : Z := 4.

Record vm := {
  vm_mem : Z -> Z;
  vm_prot : gmap Z Z;
  vm_answers : list bool;
}.

Definition set_mem (v : vm) (m : Z -> Z) : vm :=
  {| vm_mem := m; vm_prot := vm_prot v; vm_answers := vm_answers v |}.

(** The next answer of the kernel; it grants what nothing is said about. *)
Definition mprotect (page prot : Z) (v : vm) : bool * vm :=
  let ok := match vm_answers v with [] => true | b :: _ => b end in
  (ok, {| vm_mem := vm_mem v; vm_prot := if ok then <[page := prot]> (vm_prot v) else vm_prot v;
          vm_answers := tail (vm_answers v) |}).

Definition patch_mem (m : Z -> Z) (address : Z) (bs : list Z) : Z -> Z :=
  fun a => if (address <=? a) && (a <? address + Z.of_nat (length bs)) then nth (Z.to_nat (a - address)) bs 0 else m a.

Definition page_has (v : vm) (prot page : Z) : bool :=
  match vm_prot v !! page with Some p => negb (p .& prot =? 0) | None => false end.

(** The two [memcpy]s: a byte on a page that is not writable (readable) is a fault. *)
Definition bytes_have (page_size : Z) (v : vm) (prot address : Z) (n : nat) : bool :=
  forallb (fun i => page_has v prot (ALIGN_FLOOR (address + Z.of_nat i) page_size)) (seq 0 n).
Definition memcpy_to (page_size : Z) (v : vm) (address : Z) (bs : list Z) : outcome vm :=
  if bytes_have page_size v PROT_WRITE address (length bs)
  then Ret (set_mem v (patch_mem (vm_mem v) address bs)) else UB.
Definition memcpy_from (page_size : Z) (v : vm) (address : Z) (n : nat) : outcome (list Z) :=
  if bytes_have page_size v PROT_READ address n
  then Ret (map (fun i => vm_mem v (address + Z.of_nat i)) (seq 0 n)) else UB.

(** [restore_page_permissions]: failures are only logged. *)
Fixpoint restore_page_permissions (pages : list (Z * Z)) (v : vm) : vm :=
  match pages with
  | [] => v
  | (page, prot) :: pages => restore_page_permissions pages (snd (mprotect page prot v))
  end.

(** The loop that makes the pages writable: [false] at the first refusal. *)
Fixpoint make_writable (pages : list (Z * Z)) (v : vm) : bool * vm :=
  match pages with
  | [] => (true, v)
  | (page, prot) :: pages =>
      let '(ok, v) := mprotect page (prot .| PROT_WRITE) v in
      if ok then make_writable pages v else (false, v)
  end.

(** The loop that puts the protections back: it goes on after a refusal and reports it. *)
Fixpoint restore_all (pages : list (Z * Z)) (restore_error : Z) (v : vm) : Z * vm :=
  match pages with
  | [] => (restore_error, v)
  | (page, prot) :: pages =>
      let '(ok, v) := mprotect page prot v in
      restore_all pages (if ok then restore_error else -1) v
  end.

(** [(void)mprotect(...)] over the writable pages. *)
Fixpoint reopen (pages : list (Z * Z)) (v : vm) : vm :=
  match pages with
  | [] => v
  | (page, prot) :: pages => reopen pages (snd (mprotect page (prot .| PROT_WRITE) v))
  end.

(** The loop over the pages of the patch; [None] when a page is not mapped or the address overflows.  The fuel
    bounds the number of pages. *)
Fixpoint collect_pages (fuel : nat) (page_size page last_page : Z) (v : vm) : outcome (option (list (Z * Z))) :=
  match fuel with
  | O => UB
  | S fuel =>
      match vm_prot v !! page with
      | None => Ret None
      | Some prot =>
          if page =? last_page then Ret (Some [(page, prot)])
          else if u64 (-1) - page_size <? page then Ret None
          else
            r ← collect_pages fuel page_size (u64 (page + page_size)) last_page v;
            Ret (match r with Some ps => Some ((page, prot) :: ps) | None => None end)
      end
  end.

(** [DobbyCodePatch]: the return value and the new address space.  [page_size] is the answer of [sysconf]. *)
Definition DobbyCodePatch (page_size address : Z) (buffer : list Z) (v : vm) : outcome (Z * vm) :=
  let buffer_size := Z.of_nat (length buffer) in
  if (address =? 0) || (buffer_size =? 0) then Ret (-1, v)
  else if page_size <=? 0 then Ret (-1, v)
  else
    let patch_end := u64 (address + buffer_size - 1) in
    if patch_end <? address then Ret (-1, v)
    else
      let first_page := ALIGN_FLOOR address page_size in
      let last_page := ALIGN_FLOOR patch_end page_size in
      r ← collect_pages (length buffer + 2) page_size first_page last_page v;
      match r with
      | None => Ret (-1, v)
      | Some pages =>
          original_bytes ← memcpy_from page_size v address (length buffer);
          let '(ok, v) := make_writable pages v in
          if ok then
            v ← memcpy_to page_size v address buffer;
            let '(restore_error, v) := restore_all pages 0 v in
            if restore_error =? 0 then Ret (0, v)
            else
              let v := reopen pages v in
              v ← memcpy_to page_size v address original_bytes;
              Ret (-1, restore_page_permissions pages v)
          else Ret (-1, restore_page_permissions pages v)
      end.

(** ** What the loops do *)

Section Facts.
Context (page_size k : Z).
Hypothesis page_size_pow : page_size = 2 ^ k.
Hypothesis k_range : 0 <= k < 63.

(** The protections [v0] of the pages, as read before anything was changed. *)
Definition read_from (v0 : vm) (pages : list (Z * Z)) : Prop :=
  forall p q, (p, q) ∈ pages -> vm_prot v0 !! p = Some q.

(** [v] differs from [v0] only in the protection of pages of the list. *)
Definition touched (pages : list (Z * Z)) (v0 v : vm) : Prop :=
  vm_mem v = vm_mem v0 /\ forall p, p ∉ map fst pages -> vm_prot v !! p = vm_prot v0 !! p.

Lemma mprotect_prot page prot v ok v' p :
  mprotect page prot v = (ok, v') ->
  vm_mem v' = vm_mem v /\ vm_prot v' !! p = if ok then if decide (p = page) then Some prot else vm_prot v !! p
                                           else vm_prot v !! p.
Proof.
  unfold mprotect. intros [= <- <-]. split; [done|]. cbn.
  destruct (vm_answers v) as [|[] ?]; cbn; try done; destruct (decide (p = page)) as [->|];
    by rewrite ?lookup_insert_eq, ?lookup_insert_ne by done.
Qed.

Lemma mprotect_answers page prot v ok v' :
  mprotect page prot v = (ok, v') ->
  vm_answers v' `suffix_of` vm_answers v /\ (ok = false -> false ∈ vm_answers v).
Proof.
  unfold mprotect. intros [= <- <-]. cbn. destruct (vm_answers v) as [|b l]; cbn; [done|].
  split; [by exists [b]|]. intros ->. left.
Qed.

Lemma suffix_elem (b : bool) l l' : l `suffix_of` l' -> b ∈ l -> b ∈ l'.
Proof. intros [l0 ->] ?. apply elem_of_app. by right. Qed.

Lemma make_writable_spec v0 pages : forall v ok v',
  read_from v0 pages -> make_writable pages v = (ok, v') ->
  vm_mem v' = vm_mem v /\ vm_answers v' `suffix_of` vm_answers v /\
  (forall p, p ∉ map fst pages -> vm_prot v' !! p = vm_prot v !! p) /\
  (ok = false -> false ∈ vm_answers v) /\
  (ok = true -> forall p, p ∈ map fst pages -> exists q, vm_prot v0 !! p = Some q /\ vm_prot v' !! p = Some (q .| PROT_WRITE)).
Proof.
  induction pages as [|[page prot] pages IH]; intros v ok v' Hr; cbn [make_writable].
  { intros [= <- <-]. repeat split; try done. intros _ p ?%elem_of_nil. done. }
  destruct (mprotect page (prot .| PROT_WRITE) v) as [ok1 v1] eqn:E1.
  pose proof (mprotect_answers _ _ _ _ _ E1) as [Hs1 Hf1].
  destruct ok1.
  - intros E. destruct (IH v1 ok v') as (Hm & Hs & Ho & Hf & Ht); [intros p q Hpq; apply Hr; by right|done|].
    split; [rewrite Hm; apply (mprotect_prot _ _ _ _ _ page E1)|]. split; [by etrans|].
    split; [|split].
    + intros p Hp. cbn [map fst] in Hp. apply not_elem_of_cons in Hp as [Hne Hp].
      rewrite Ho, (proj2 (mprotect_prot _ _ _ _ _ p E1)) by done. by rewrite decide_False.
    + intros Hok. by apply (suffix_elem _ _ _ Hs1), Hf.
    + intros Hok p Hp. destruct (decide (p ∈ map fst pages)) as [Hin|Hout]; [by apply Ht|].
      cbn [map fst] in Hp. apply elem_of_cons in Hp as [->|Hp]; [|done].
      exists prot. split; [apply Hr; left|]. rewrite Ho, (proj2 (mprotect_prot _ _ _ _ _ page E1)) by done.
      by rewrite decide_True.
  - intros [= <- <-]. split; [apply (mprotect_prot _ _ _ _ _ page E1)|]. split; [done|].
    split; [|split; [done|done]]. intros p Hp. by rewrite (proj2 (mprotect_prot _ _ _ _ _ p E1)).
Qed.

Lemma restore_all_spec v0 pages : forall v err v' e0,
  read_from v0 pages -> restore_all pages e0 v = (err, v') ->
  vm_mem v' = vm_mem v /\ vm_answers v' `suffix_of` vm_answers v /\
  (err = 0 -> (forall p, p ∉ map fst pages -> vm_prot v !! p = vm_prot v0 !! p) ->
   forall p, vm_prot v' !! p = vm_prot v0 !! p) /\
  (err = 0 -> e0 = 0) /\ (err <> 0 -> e0 <> 0 \/ false ∈ vm_answers v) /\
  (forall p, p ∉ map fst pages -> vm_prot v' !! p = vm_prot v !! p).
Proof.
  induction pages as [|[page prot] pages IH]; intros v err v' e0 Hr; cbn [restore_all].
  { intros [= <- <-]. split; [done|]. split; [done|]. split; [|split; [done|split; [by left|done]]].
    intros _ H p. apply H. by intros ?%elem_of_nil. }
  destruct (mprotect page prot v) as [ok1 v1] eqn:E1. intros E.
  pose proof (mprotect_answers _ _ _ _ _ E1) as [Hs1 Hf1].
  destruct (IH v1 err v' (if ok1 then e0 else -1)) as (Hm & Hs & Ht & He & Hf & Ho);
    [intros p q Hpq; apply Hr; by right|done|].
  split; [rewrite Hm; apply (mprotect_prot _ _ _ _ _ page E1)|]. split; [by etrans|]. split; [|split; [|split]].
  - intros H0 Hout. apply Ht; [done|]. intros p Hp. rewrite (proj2 (mprotect_prot _ _ _ _ _ p E1)).
    destruct ok1; [|by specialize (He H0)]. destruct (decide (p = page)) as [->|Hne].
    + symmetry. apply Hr. left.
    + apply Hout. cbn [map fst]. by apply not_elem_of_cons.
  - intros H0. specialize (He H0). by destruct ok1.
  - intros H0. destruct (Hf H0) as [Hne|Hin]; [|right; by apply (suffix_elem _ _ _ Hs1)].
    destruct ok1; [by left|right; by apply Hf1].
  - intros p Hp. cbn [map fst] in Hp. apply not_elem_of_cons in Hp as [Hne Hp]. rewrite Ho by done.
    rewrite (proj2 (mprotect_prot _ _ _ _ _ p E1)). destruct ok1; [by rewrite decide_False|done].
Qed.

Lemma restore_permissions_mem pages : forall v, vm_mem (restore_page_permissions pages v) = vm_mem v.
Proof.
  induction pages as [|[page prot] pages IH]; intros v; cbn [restore_page_permissions]; [done|]. by rewrite IH.
Qed.

Lemma reopen_mem pages : forall v, vm_mem (reopen pages v) = vm_mem v.
Proof. induction pages as [|[page prot] pages IH]; intros v; cbn [reopen]; [done|]. by rewrite IH. Qed.

(** *** Pages *)

Lemma page_size_pos : 0 < page_size.
Proof. rewrite page_size_pow. apply Z.pow_pos_nonneg; lia. Qed.

Lemma floor_alt a : ALIGN_FLOOR a page_size = a - a mod page_size.
Proof. rewrite page_size_pow. apply ALIGN_FLOOR_alt. lia. Qed.

Lemma floor_bounds a : ALIGN_FLOOR a page_size <= a < ALIGN_FLOOR a page_size + page_size /\ ALIGN_FLOOR a page_size mod page_size = 0.
Proof.
  rewrite floor_alt. pose proof (Z.mod_pos_bound a page_size page_size_pos). split; [lia|].
  rewrite Zminus_mod_idemp_r, Z.sub_diag. apply Z.mod_0_l. pose proof page_size_pos. lia.
Qed.

Lemma floor_mul i : ALIGN_FLOOR (i * page_size) page_size = i * page_size.
Proof. rewrite floor_alt, Z.mod_mul; pose proof page_size_pos; lia. Qed.

Lemma aligned_mul a : a mod page_size = 0 -> exists i, a = i * page_size.
Proof. pose proof page_size_pos. intros Hm%Z.mod_divide; [|lia]. exact Hm. Qed.

(** The [n] pages from [page] on. *)
Definition pages_from (page : Z) (n : nat) : list Z := map (fun i => page + Z.of_nat i * page_size) (seq 0 n).

Lemma pages_from_cons page n : pages_from page (S n) = page :: pages_from (page + page_size) n.
Proof.
  unfold pages_from. cbn [seq map]. f_equal; [lia|]. rewrite <- seq_shift, map_map. apply map_ext. intros i. lia.
Qed.

Lemma elem_pages_from page n p : p ∈ pages_from page n <-> exists i, (i < n)%nat /\ p = page + Z.of_nat i * page_size.
Proof.
  unfold pages_from. rewrite list_elem_of_In, in_map_iff. split.
  - intros (i & <- & Hi%in_seq). exists i. split; [lia|done].
  - intros (i & Hi & ->). exists i. split; [done|]. apply in_seq. lia.
Qed.

Lemma pages_from_NoDup page n : NoDup (pages_from page n).
Proof.
  pose proof page_size_pos. apply NoDup_ListNoDup, Finite.Injective_map_NoDup; [|apply seq_NoDup].
  intros i j E. nia.
Qed.

(** Pages number 0 to [n] from [page] on are mapped. *)
Lemma collect_pages_spec v n : forall fuel page,
  (n < fuel)%nat -> 0 <= page -> page + Z.of_nat n * page_size + page_size <= 2 ^ 64 ->
  (forall i, (i <= n)%nat -> is_Some (vm_prot v !! (page + Z.of_nat i * page_size))) ->
  exists pages, collect_pages fuel page_size page (page + Z.of_nat n * page_size) v = Ret (Some pages) /\
    read_from v pages /\ map fst pages = pages_from page (S n).
Proof.
  pose proof page_size_pos as Hps.
  induction n as [|n IH]; intros fuel page Hf Hlo Hhi Hmap; (destruct fuel as [|fuel]; [lia|]); cbn [collect_pages].
  - destruct (Hmap 0%nat ltac:(lia)) as [q Hq]. rewrite Z.add_0_r in Hq |- *. rewrite Hq, Z.eqb_refl.
    exists [(page, q)]. split; [done|]. split.
    + intros p q' [[= -> ->]|?%elem_of_nil]%elem_of_cons; done.
    + by rewrite pages_from_cons.
  - destruct (Hmap 0%nat ltac:(lia)) as [q Hq]. rewrite Z.add_0_r in Hq. rewrite Hq.
    destruct (Z.eqb_spec page (page + Z.of_nat (S n) * page_size)); [nia|].
    change (u64 (-1)) with (2 ^ 64 - 1). destruct (Z.ltb_spec (2 ^ 64 - 1 - page_size) page); [nia|].
    rewrite wrap_small by nia.
    replace (page + Z.of_nat (S n) * page_size) with (page + page_size + Z.of_nat n * page_size) by lia.
    destruct (IH fuel (page + page_size)) as (pages & -> & Hr & Hin); [lia|lia|lia| |].
    { intros i Hi. replace (page + page_size + Z.of_nat i * page_size) with (page + Z.of_nat (S i) * page_size) by lia.
      apply Hmap. lia. }
    cbn [mbind outcome_bind]. exists ((page, q) :: pages). split; [done|]. split.
    + intros p q' [[= -> ->]|Hpq]%elem_of_cons; [done|by apply Hr].
    + cbn [map fst]. by rewrite Hin, <- pages_from_cons.
Qed.

(** Every byte of the patch lies on a mapped, readable page. *)
Definition patchable (v : vm) (address n : Z) : Prop :=
  0 < address /\ 0 < n < 2 ^ 32 /\ address + n <= 2 ^ 64 /\
  forall a, address <= a < address + n -> page_has v PROT_READ (ALIGN_FLOOR a page_size) = true.

Lemma page_has_mapped v prot p : page_has v prot p = true -> is_Some (vm_prot v !! p).
Proof. unfold page_has. destruct (vm_prot v !! p); [by eexists|done]. Qed.

(** The pages that [n] bytes at [address] lie on. *)
Definition covered (address n : Z) : list Z :=
  pages_from (ALIGN_FLOOR address page_size)
    (S (Z.to_nat ((ALIGN_FLOOR (address + n - 1) page_size - ALIGN_FLOOR address page_size) / page_size))).

Lemma covered_spec address n p : 0 < n ->
  p ∈ covered address n <-> exists a, address <= a < address + n /\ p = ALIGN_FLOOR a page_size.
Proof.
  intros Hn. pose proof page_size_pos as Hps. unfold covered. rewrite elem_pages_from.
  destruct (floor_bounds address) as [Hb1 [i1 E1]%aligned_mul]. destruct (floor_bounds (address + n - 1)) as [Hb2 [i2 E2]%aligned_mul].
  rewrite E1, E2. replace (i2 * page_size - i1 * page_size) with ((i2 - i1) * page_size) by lia. rewrite Z.div_mul by lia.
  assert (i1 <= i2) by nia. split.
  - intros (i & Hi & ->). exists (Z.max address ((i1 + Z.of_nat i) * page_size)). split; [nia|]. symmetry.
    destruct (floor_bounds (Z.max address ((i1 + Z.of_nat i) * page_size))) as [Hb3 [i3 E3]%aligned_mul]. rewrite E3.
    enough (i3 = i1 + Z.of_nat i) as -> by lia. destruct (Z.max_spec address ((i1 + Z.of_nat i) * page_size)); nia.
  - intros (a & Ha & ->). destruct (floor_bounds a) as [Hb3 [i3 E3]%aligned_mul]. rewrite E3.
    assert (i1 <= i3 <= i2) by nia. exists (Z.to_nat (i3 - i1)). split; [lia|nia].
Qed.

Lemma collect_patch v address n :
  patchable v address (Z.of_nat n) ->
  exists pages, collect_pages (n + 2) page_size (ALIGN_FLOOR address page_size)
                  (ALIGN_FLOOR (address + Z.of_nat n - 1) page_size) v = Ret (Some pages) /\
    read_from v pages /\ map fst pages = covered address (Z.of_nat n).
Proof.
  intros (Ha & Hn & Hhi & Hread). pose proof page_size_pos as Hps.
  destruct (floor_bounds address) as [Hb1 [i1 E1]%aligned_mul].
  destruct (floor_bounds (address + Z.of_nat n - 1)) as [Hb2 [i2 E2]%aligned_mul].
  assert (i1 <= i2) by nia. assert (Hpow : 2 ^ 64 = 2 ^ (64 - k) * page_size).
  { rewrite page_size_pow, <- Z.pow_add_r by lia. f_equal. lia. }
  assert (Hi2 : i2 < 2 ^ (64 - k)) by nia. assert (Hi1 : 0 <= i1) by nia.
  assert (Hnn : i2 - i1 <= Z.of_nat n) by nia.
  assert (En : (ALIGN_FLOOR (address + Z.of_nat n - 1) page_size - ALIGN_FLOOR address page_size) / page_size = i2 - i1).
  { rewrite E1, E2, <- Z.mul_sub_distr_r. apply Z.div_mul. lia. }
  destruct (collect_pages_spec v (Z.to_nat (i2 - i1)) (n + 2) (ALIGN_FLOOR address page_size))
    as (pages & Hc & Hr & Hin); [lia|nia|nia| |].
  { intros i Hi. apply (page_has_mapped _ PROT_READ).
    assert (Hc : ALIGN_FLOOR address page_size + Z.of_nat i * page_size ∈ covered address (Z.of_nat n)).
    { unfold covered. rewrite En. apply elem_pages_from. exists i. split; [lia|done]. }
    apply covered_spec in Hc as (a & Ha' & ->); [by apply Hread|lia]. }
  exists pages. unfold covered. rewrite En. split; [|done]. rewrite <- Hc. f_equal. nia.
Qed.

Lemma bytes_have_true v prot address n :
  (forall a, address <= a < address + Z.of_nat n -> page_has v prot (ALIGN_FLOOR a page_size) = true) ->
  bytes_have page_size v prot address n = true.
Proof.
  intros H. apply forallb_forall. intros i Hi%in_seq. apply H. lia.
Qed.

Lemma writable_bit q : negb (Z.land (Z.lor q PROT_WRITE) PROT_WRITE =? 0) = true.
Proof.
  destruct (Z.eqb_spec (Z.land (Z.lor q PROT_WRITE) PROT_WRITE) 0) as [E|]; [|done].
  apply (f_equal (fun x => Z.testbit x 1)) in E. by rewrite Z.land_spec, Z.lor_spec, orb_true_r in E.
Qed.

(** Writing the old bytes back undoes a patch. *)
Lemma patch_mem_undo m address (bs : list Z) a :
  patch_mem (patch_mem m address bs) address (map (fun i => m (address + Z.of_nat i)) (seq 0 (length bs))) a = m a.
Proof.
  unfold patch_mem. rewrite length_map, length_seq.
  destruct (Z.leb_spec address a); cbn [andb]; [|done].
  destruct (Z.ltb_spec a (address + Z.of_nat (length bs))); [|done].
  rewrite nth_indep with (d' := m (address + Z.of_nat 0)) by (rewrite length_map, length_seq; lia).
  rewrite (map_nth (fun i => m (address + Z.of_nat i))), seq_nth by lia. f_equal. lia.
Qed.

(** The part of [DobbyCodePatch] after the pages are known. *)
Definition patch_pages (pages : list (Z * Z)) (address : Z) (buffer : list Z) (v : vm) : outcome (Z * vm) :=
  original_bytes ← memcpy_from page_size v address (length buffer);
  let '(ok, v) := make_writable pages v in
  if ok then
    v ← memcpy_to page_size v address buffer;
    let '(restore_error, v) := restore_all pages 0 v in
    if restore_error =? 0 then Ret (0, v)
    else
      let v := reopen pages v in
      v ← memcpy_to page_size v address original_bytes;
      Ret (-1, restore_page_permissions pages v)
  else Ret (-1, restore_page_permissions pages v).

(** What a patch leaves behind: the patch, or nothing and a refusal of the kernel. *)
Definition patched_or_not (v : vm) (address : Z) (buffer : list Z) (o : outcome (Z * vm)) : Prop :=
  match o with
  | Ret (r, v') =>
      (r = 0 /\ (forall a, vm_mem v' a = patch_mem (vm_mem v) address buffer a) /\ vm_prot v' = vm_prot v /\
       vm_answers v' `suffix_of` vm_answers v) \/
      (r = -1 /\ (forall a, vm_mem v' a = vm_mem v a) /\ false ∈ vm_answers v)
  | UB => false ∈ vm_answers v
  | Fatal => False
  end.

Lemma patch_pages_spec v pages address buffer :
  read_from v pages ->
  (forall a, address <= a < address + Z.of_nat (length buffer) ->
     ALIGN_FLOOR a page_size ∈ map fst pages /\ page_has v PROT_READ (ALIGN_FLOOR a page_size) = true) ->
  patched_or_not v address buffer (patch_pages pages address buffer v).
Proof.
  intros Hr Hcov. unfold patch_pages, memcpy_from.
  rewrite bytes_have_true by (intros a Ha; apply Hcov, Ha). cbn [mbind outcome_bind].
  destruct (make_writable pages v) as [ok v1] eqn:E1.
  destruct (make_writable_spec v pages v ok v1 Hr E1) as (Hm1 & Hs1 & Ho1 & Hf1 & Ht1).
  destruct ok.
  2:{ right. split; [done|]. split; [intros a; by rewrite restore_permissions_mem, Hm1|]. by apply Hf1. }
  unfold memcpy_to. rewrite (bytes_have_true v1 PROT_WRITE address (length buffer)).
  2:{ intros a [Hin _]%Hcov. unfold page_has. destruct (Ht1 eq_refl _ Hin) as (q & _ & ->). apply writable_bit. }
  cbn [mbind outcome_bind]. set (v2 := set_mem v1 _).
  destruct (restore_all pages 0 v2) as [err v3] eqn:E3.
  destruct (restore_all_spec v pages v2 err v3 0 Hr E3) as (Hm3 & Hs3 & Ht3 & _ & Hf3 & _).
  destruct (Z.eqb_spec err 0) as [->|Hne].
  - left. split; [done|]. split; [intros a; rewrite Hm3; cbn; by rewrite Hm1|].
    split; [apply map_eq; intros p; by apply Ht3|]. etrans; [exact Hs3|exact Hs1].
  - assert (Hfalse : false ∈ vm_answers v).
    { destruct (Hf3 Hne) as [|Hin]; [done|]. by apply (suffix_elem _ _ _ Hs1). }
    destruct (bytes_have _ _ _ _ _); [|done]. cbn [mbind outcome_bind].
    right. split; [done|]. split; [|done]. intros a.
    rewrite restore_permissions_mem. cbn [vm_mem set_mem]. rewrite reopen_mem, Hm3. cbn [vm_mem set_mem v2].
    rewrite Hm1. apply patch_mem_undo.
Qed.

Lemma code_patch_cases v address buffer :
  patchable v address (Z.of_nat (length buffer)) ->
  patched_or_not v address buffer (DobbyCodePatch page_size address buffer v).
Proof.
  intros Hp. pose proof Hp as (Ha & Hn & Hhi & Hread). pose proof page_size_pos. unfold DobbyCodePatch.
  destruct (Z.eqb_spec address 0); [lia|]. destruct (Z.eqb_spec (Z.of_nat (length buffer)) 0); [lia|]. cbn [orb].
  destruct (Z.leb_spec page_size 0); [lia|]. rewrite wrap_small by lia.
  destruct (Z.ltb_spec (address + Z.of_nat (length buffer) - 1) address); [lia|].
  destruct (collect_patch v address (length buffer) Hp) as (pages & -> & Hr & Hcov). cbn [mbind outcome_bind].
  apply patch_pages_spec; [done|]. intros a Ha'. split; [|by apply Hread]. rewrite Hcov. apply covered_spec; [lia|]. by exists a.
Qed.

(** Without a refusal the patch is made. *)
Lemma code_patch_granted v address buffer :
  patchable v address (Z.of_nat (length buffer)) -> false ∉ vm_answers v ->
  exists v', DobbyCodePatch page_size address buffer v = Ret (0, v') /\
    (forall a, vm_mem v' a = patch_mem (vm_mem v) address buffer a) /\ vm_prot v' = vm_prot v /\
    false ∉ vm_answers v'.
Proof.
  intros Hp Hno. pose proof (code_patch_cases v address buffer Hp) as H.
  destruct (DobbyCodePatch page_size address buffer v) as [[r v']| |]; [|done|done].
  destruct H as [(-> & Hm & Hpr & Hs)|(_ & _ & ?)]; [|done]. exists v'. repeat split; try done.
  intros Hin. by apply Hno, (suffix_elem _ _ _ Hs).
Qed.

(** A refusal of the first request leaves everything as it was. *)
Lemma restore_permissions_same pages : forall v, read_from v pages ->
  vm_prot (restore_page_permissions pages v) = vm_prot v /\ vm_answers (restore_page_permissions pages v) `suffix_of` vm_answers v.
Proof.
  induction pages as [|[page prot] pages IH]; intros v Hr; cbn [restore_page_permissions]; [done|].
  destruct (mprotect page prot v) as [ok v1] eqn:E. cbn [snd]. destruct (mprotect_answers _ _ _ _ _ E) as [Hs _].
  assert (Hp : vm_prot v1 = vm_prot v).
  { apply map_eq. intros p. rewrite (proj2 (mprotect_prot _ _ _ _ _ p E)). destruct ok; [|done]. destruct (decide _) as [->|]; [|done].
    symmetry. apply Hr. left. }
  destruct (IH v1) as [H1 H2]; [intros p q Hpq; rewrite Hp; apply Hr; by right|]. rewrite H1, Hp. split; [done|]. by etrans.
Qed.

Lemma code_patch_refused v address buffer rest :
  patchable v address (Z.of_nat (length buffer)) -> vm_answers v = false :: rest ->
  exists v', DobbyCodePatch page_size address buffer v = Ret (-1, v') /\ vm_mem v' = vm_mem v /\ vm_prot v' = vm_prot v /\
    vm_answers v' `suffix_of` rest.
Proof.
  intros Hp Ha'. pose proof Hp as (Ha & Hn & Hhi & Hread). pose proof page_size_pos. unfold DobbyCodePatch.
  destruct (Z.eqb_spec address 0); [lia|]. destruct (Z.eqb_spec (Z.of_nat (length buffer)) 0); [lia|]. cbn [orb].
  destruct (Z.leb_spec page_size 0); [lia|]. rewrite wrap_small by lia.
  destruct (Z.ltb_spec (address + Z.of_nat (length buffer) - 1) address); [lia|].
  destruct (collect_patch v address (length buffer) Hp) as (pages & -> & Hr & Hcov). cbn [mbind outcome_bind].
  unfold memcpy_from. rewrite bytes_have_true by done. cbn [mbind outcome_bind].
  destruct pages as [|[page prot] pages]; [by unfold covered in Hcov; rewrite pages_from_cons in Hcov|].
  cbn [make_writable]. unfold mprotect at 1. rewrite Ha'. cbn [tail]. set (v1 := {| vm_mem := vm_mem v |}).
  destruct (restore_permissions_same ((page, prot) :: pages) v1 Hr) as [Hprot Hans]. eexists. split; [reflexivity|].
  split; [by rewrite restore_permissions_mem|]. split; [exact Hprot|exact Hans].
Qed.

(** *** The outcome, answer by answer *)

(** The kernel grants the first [n] of these requests. *)
Definition grants (n : nat) (l : list bool) : bool := forallb (fun b => b) (take n l).

Lemma grants_S n l : grants (S n) l = hd true l && grants n (tail l).
Proof. unfold grants. destruct l; [by destruct n|done]. Qed.

Lemma mprotect_eq page prot v :
  mprotect page prot v =
    (hd true (vm_answers v), {| vm_mem := vm_mem v; vm_prot := if hd true (vm_answers v) then <[page := prot]> (vm_prot v) else vm_prot v;
                                vm_answers := tail (vm_answers v) |}).
Proof. done. Qed.

Lemma nth_tail i (l : list bool) : nth i (tail l) true = nth (S i) l true.
Proof. destruct l; [by destruct i|done]. Qed.

Lemma drop_tail i (l : list bool) : drop i (tail l) = drop (S i) l.
Proof. destruct l; [by destruct i|done]. Qed.

Lemma make_writable_answers pages : forall v ok v', make_writable pages v = (ok, v') ->
  ok = grants (length pages) (vm_answers v) /\ (ok = true -> vm_answers v' = drop (length pages) (vm_answers v)).
Proof.
  induction pages as [|[page prot] pages IH]; intros v ok v'; cbn [make_writable length]; [by intros [= <- <-]|].
  rewrite mprotect_eq, grants_S. destruct (hd true (vm_answers v)); [|by intros [= <- <-]].
  intros E. destruct (IH _ _ _ E) as [-> Hd]. split; [done|]. intros H. rewrite Hd by done. apply drop_tail.
Qed.

Lemma restore_all_other pages : forall v e0 err v' p, restore_all pages e0 v = (err, v') -> p ∉ map fst pages ->
  vm_prot v' !! p = vm_prot v !! p.
Proof.
  induction pages as [|[page prot] pages IH]; intros v e0 err v' p; cbn [restore_all map fst]; [by intros [= _ <-]|].
  rewrite mprotect_eq. intros E [Hne Hnin]%not_elem_of_cons. rewrite (IH _ _ _ _ _ E Hnin). cbn [vm_prot].
  destruct (hd true _); [by rewrite lookup_insert_ne|done].
Qed.

Lemma fst_elem (pages : list (Z * Z)) i p q : pages !! i = Some (p, q) -> p ∈ map fst pages.
Proof. intros Hi. apply (list_elem_of_fmap_2 fst pages (p, q)), (list_elem_of_lookup_2 _ _ _ Hi). Qed.

Lemma NoDup_first (x : Z * Z) pages : NoDup (map fst (x :: pages)) -> (fst x ∉ map fst pages) /\ NoDup (map fst pages).
Proof. cbn [map]. by inversion_clear 1. Qed.

Lemma hd_nth (l : list bool) : hd true l = nth 0 l true.
Proof. by destruct l. Qed.

(** A page of the list after the protections were put back: the request for it was granted, or it is as before. *)
Lemma restore_all_at pages : forall v e0 err v', NoDup (map fst pages) -> restore_all pages e0 v = (err, v') ->
  (err =? 0) = ((e0 =? 0) && grants (length pages) (vm_answers v)) /\ vm_answers v' = drop (length pages) (vm_answers v) /\
  forall i p q, pages !! i = Some (p, q) -> vm_prot v' !! p = if nth i (vm_answers v) true then Some q else vm_prot v !! p.
Proof.
  induction pages as [|[page prot] pages IH]; intros v e0 err v' Hnd; cbn [restore_all length].
  { intros [= <- <-]. rewrite andb_true_r. done. }
  destruct (NoDup_first _ _ Hnd) as [Hnin Hnd']. rewrite mprotect_eq, grants_S. set (v1 := {| vm_mem := _ |}). intros E.
  destruct (IH _ _ _ _ Hnd' E) as (He & Ha & Hp). cbn [v1 vm_answers vm_prot] in He, Ha, Hp. split; [|split].
  - rewrite He. destruct (hd true (vm_answers v)); [done|]. by rewrite andb_false_r.
  - by rewrite Ha, drop_tail.
  - intros [|i] p q Hi; cbn in Hi.
    + injection Hi as <- <-.
      rewrite (restore_all_other _ _ _ _ _ page E Hnin), <- hd_nth. cbn [v1 vm_prot].
      destruct (hd true _); [by rewrite lookup_insert_eq|done].
    + rewrite (Hp i p q Hi), nth_tail. destruct (nth _ _ _); [done|]. destruct (hd true _); [|done].
      rewrite lookup_insert_ne; [done|]. intros ->. by apply Hnin, (fst_elem _ i _ q).
Qed.

Lemma reopen_at pages : forall v, NoDup (map fst pages) ->
  (forall p, p ∉ map fst pages -> vm_prot (reopen pages v) !! p = vm_prot v !! p) /\
  forall i p q, pages !! i = Some (p, q) ->
    vm_prot (reopen pages v) !! p = if nth i (vm_answers v) true then Some (q .| PROT_WRITE) else vm_prot v !! p.
Proof.
  induction pages as [|[page prot] pages IH]; intros v Hnd; cbn [reopen]; [done|]. destruct (NoDup_first _ _ Hnd) as [Hnin Hnd'].
  rewrite mprotect_eq. cbn [snd]. destruct (IH {| vm_mem := vm_mem v; vm_prot := if hd true (vm_answers v) then <[page:=prot .| PROT_WRITE]> (vm_prot v) else vm_prot v;
    vm_answers := tail (vm_answers v) |} Hnd') as [Ho Hp]. cbn [vm_prot vm_answers] in Ho, Hp. split.
  - intros p [Hne Hp']%not_elem_of_cons. rewrite Ho by done. destruct (hd true _); [by rewrite lookup_insert_ne|done].
  - intros [|i] p q Hi; cbn in Hi.
    + injection Hi as <- <-. rewrite Ho by done. rewrite <- hd_nth. destruct (hd true _); [by rewrite lookup_insert_eq|done].
    + rewrite (Hp i p q Hi), nth_tail. destruct (nth _ _ _); [done|]. destruct (hd true _); [|done].
      rewrite lookup_insert_ne; [done|]. intros ->. by apply Hnin, (fst_elem _ i _ q).
Qed.

(** [v] has the protections of [v0], but for pages of the list that may still be writable. *)
Definition at_most_opened (pages : list Z) (v0 v : vm) : Prop :=
  forall p, vm_prot v !! p = vm_prot v0 !! p \/
    p ∈ pages /\ exists q, vm_prot v0 !! p = Some q /\ vm_prot v !! p = Some (q .| PROT_WRITE).

Lemma mprotect_opened pages v0 v page q prot :
  at_most_opened pages v0 v -> page ∈ pages -> vm_prot v0 !! page = Some q -> prot = q \/ prot = q .| PROT_WRITE ->
  at_most_opened pages v0 (snd (mprotect page prot v)).
Proof.
  intros H Hin Hq Hprot p. rewrite mprotect_eq. cbn [snd vm_prot]. destruct (hd true _); [|apply H].
  destruct (decide (p = page)) as [->|Hne]; [rewrite lookup_insert_eq|by rewrite lookup_insert_ne].
  rewrite Hq. destruct Hprot as [->| ->]; [by left|right]. split; [done|]. by exists q.
Qed.

Section Opened.
Context (all : list Z) (v0 : vm).

(** A part of the list of pages. *)
Definition part (pages : list (Z * Z)) : Prop := forall p q, (p, q) ∈ pages -> p ∈ all /\ vm_prot v0 !! p = Some q.

Lemma part_cons page prot pages : part ((page, prot) :: pages) -> (page ∈ all /\ vm_prot v0 !! page = Some prot) /\ part pages.
Proof. intros H. split; [apply H; left|]. intros p q Hpq. apply H. by right. Qed.

Lemma make_writable_opened pages : forall v, part pages -> at_most_opened all v0 v -> at_most_opened all v0 (snd (make_writable pages v)).
Proof.
  induction pages as [|[page prot] pages IH]; intros v Hpt Hv; cbn [make_writable]; [done|].
  apply part_cons in Hpt as [[Hin Hq] Hp].
  pose proof (mprotect_opened all v0 v page prot (prot .| PROT_WRITE) Hv Hin Hq ltac:(by right)) as H1.
  destruct (mprotect _ _ v) as [[] v1]; [by apply IH|done].
Qed.

Lemma restore_all_opened pages : forall v e0, part pages -> at_most_opened all v0 v -> at_most_opened all v0 (snd (restore_all pages e0 v)).
Proof.
  induction pages as [|[page prot] pages IH]; intros v e0 Hpt Hv; cbn [restore_all]; [done|].
  apply part_cons in Hpt as [[Hin Hq] Hp]. pose proof (mprotect_opened all v0 v page prot prot Hv Hin Hq ltac:(by left)) as H1.
  destruct (mprotect _ _ v) as [ok v1]. by apply IH.
Qed.

Lemma reopen_opened pages : forall v, part pages -> at_most_opened all v0 v -> at_most_opened all v0 (reopen pages v).
Proof.
  induction pages as [|[page prot] pages IH]; intros v Hpt Hv; cbn [reopen]; [done|].
  apply part_cons in Hpt as [[Hin Hq] Hp]. apply IH; [done|]. apply (mprotect_opened all v0 v page prot); auto.
Qed.

Lemma restore_permissions_opened pages : forall v, part pages -> at_most_opened all v0 v -> at_most_opened all v0 (restore_page_permissions pages v).
Proof.
  induction pages as [|[page prot] pages IH]; intros v Hpt Hv; cbn [restore_page_permissions]; [done|].
  apply part_cons in Hpt as [[Hin Hq] Hp]. apply IH; [done|]. apply (mprotect_opened all v0 v page prot); auto.
Qed.
End Opened.

(** When the rollback comes to it, page number [i] of the list can be written: it was opened again, or it was never
    closed, or it is a writable page anyway. *)
Definition reopened (v : vm) (n i : nat) (page : Z) : bool :=
  nth (2 * n + i) (vm_answers v) true || negb (nth (n + i) (vm_answers v) true) || page_has v PROT_WRITE page.

(** Nothing is written; pages of the list may be left writable. *)
Definition refused_patch (pages : list Z) (v : vm) (o : outcome (Z * vm)) : Prop :=
  exists v', o = Ret (-1, v') /\ (forall a, vm_mem v' a = vm_mem v a) /\ at_most_opened pages v v'.

(** What becomes of a patch of [pages], by the answers of the kernel: the first request for each page is to make it
    writable, the second to put its protection back, the third to open it again for the rollback. *)
Definition patch_outcome (pages : list Z) (v : vm) (address : Z) (buffer : list Z) (o : outcome (Z * vm)) : Prop :=
  let n := length pages in
  if negb (grants n (vm_answers v)) then refused_patch pages v o
  else if grants n (drop n (vm_answers v)) then
    exists v', o = Ret (0, v') /\ (forall a, vm_mem v' a = patch_mem (vm_mem v) address buffer a) /\ vm_prot v' = vm_prot v
  else if forallb (fun i => reopened v n i (nth i pages 0)) (seq 0 n) then refused_patch pages v o
  else o = UB.

Lemma bytes_have_covered v prot address n : 0 < Z.of_nat n ->
  bytes_have page_size v prot address n = forallb (page_has v prot) (covered address (Z.of_nat n)).
Proof.
  intros Hn. apply eq_true_iff_eq. unfold bytes_have. rewrite !forallb_forall. split.
  - intros H p Hp%list_elem_of_In%covered_spec; [|done]. destruct Hp as (a & Ha & ->).
    replace a with (address + Z.of_nat (Z.to_nat (a - address))) by lia. apply H, in_seq. lia.
  - intros H i Hi%in_seq. apply H, list_elem_of_In, covered_spec; [done|]. exists (address + Z.of_nat i). split; [lia|done].
Qed.

Lemma forallb_agree {A} (f g : A -> bool) l : (forall x, In x l -> f x = g x) -> forallb f l = forallb g l.
Proof. induction l as [|x l IH]; intros H; [done|]. cbn [forallb]. f_equal; [apply H; by left|]. apply IH. intros y Hy. apply H. by right. Qed.

Lemma forallb_nth {A} (f : A -> bool) (d : A) l : forallb f l = forallb (fun i => f (nth i l d)) (seq 0 (length l)).
Proof.
  induction l as [|x l IH]; [done|]. cbn [forallb length seq nth]. f_equal. rewrite IH, <- seq_shift.
  generalize (seq 0 (length l)). intros ks. induction ks as [|i ks IHi]; [done|]. cbn [forallb map nth]. by rewrite IHi.
Qed.

Lemma patch_pages_exact v pages address buffer :
  read_from v pages -> NoDup (map fst pages) -> map fst pages = covered address (Z.of_nat (length buffer)) ->
  0 < Z.of_nat (length buffer) -> bytes_have page_size v PROT_READ address (length buffer) = true ->
  patch_outcome (map fst pages) v address buffer (patch_pages pages address buffer v).
Proof.
  intros Hr Hnd Hcov Hn Hrd. unfold patch_pages, memcpy_from. rewrite Hrd. cbn [mbind outcome_bind].
  assert (Hpart : part (map fst pages) v pages).
  { intros p q Hpq. split; [exact (list_elem_of_fmap_2 fst pages (p, q) Hpq)|by apply Hr]. }
  assert (Hrefl : at_most_opened (map fst pages) v v) by (intros p; by left).
  pose proof (make_writable_opened _ _ pages v Hpart Hrefl) as Ho1.
  destruct (make_writable pages v) as [ok v1] eqn:E1. cbn [snd] in Ho1.
  destruct (make_writable_spec v pages v ok v1 Hr E1) as (Hm1 & _ & Hout1 & _ & Ht1).
  destruct (make_writable_answers pages v ok v1 E1) as [Eok Ha1]. unfold patch_outcome. rewrite length_map, <- Eok.
  destruct ok; cbn [negb].
  2:{ eexists. split; [reflexivity|]. split; [intros a; by rewrite restore_permissions_mem, Hm1|]. by apply restore_permissions_opened. }
  specialize (Ha1 eq_refl). specialize (Ht1 eq_refl). unfold memcpy_to. rewrite bytes_have_covered, <- Hcov by done.
  replace (forallb (page_has v1 PROT_WRITE) (map fst pages)) with true.
  2:{ symmetry. apply forallb_forall. intros p Hp%list_elem_of_In. destruct (Ht1 p Hp) as (q & _ & E). unfold page_has. rewrite E. apply writable_bit. }
  cbn [mbind outcome_bind]. set (v2 := set_mem v1 _).
  pose proof (restore_all_opened _ _ pages v2 0 Hpart Ho1) as Ho3.
  destruct (restore_all pages 0 v2) as [err v3] eqn:E3. cbn [snd] in Ho3.
  destruct (restore_all_spec v pages v2 err v3 0 Hr E3) as (Hm3 & _ & Ht3 & _ & _ & _).
  destruct (restore_all_at pages v2 0 err v3 Hnd E3) as (Eerr & Ha3 & Hp3). rewrite Eerr. change (vm_answers v2) with (vm_answers v1) in *.
  rewrite Ha1 in *. cbn [Z.eqb andb] in Eerr |- *.
  destruct (grants (length pages) (drop (length pages) (vm_answers v))).
  { exists v3. split; [done|]. split; [intros a; rewrite Hm3; cbn; by rewrite Hm1|]. apply map_eq. intros p. apply Ht3; [lia|done]. }
  assert (Ew : forallb (page_has (reopen pages v3) PROT_WRITE) (map fst pages)
               = forallb (fun i => reopened v (length pages) i (nth i (map fst pages) 0)) (seq 0 (length pages))).
  { rewrite (forallb_nth _ 0), length_map. apply forallb_agree.
    intros i Hi%in_seq. destruct (lookup_lt_is_Some_2 pages i ltac:(lia)) as [[p q] Hpq].
      assert (Enth : nth i (map fst pages) 0 = p) by (rewrite (nth_indep _ 0 (fst (0, 0))), map_nth, (nth_lookup_Some _ _ _ _ Hpq) by (rewrite length_map; lia); done).
      rewrite Enth. unfold page_has at 1. rewrite (proj2 (reopen_at pages v3 Hnd) i p q Hpq), Ha3, !nth_drop, (Hp3 i p q Hpq), nth_drop. unfold reopened, page_has.
      rewrite (Hr p q (list_elem_of_lookup_2 _ _ _ Hpq)). replace (length pages + (length pages + i))%nat with (2 * length pages + i)%nat by lia.
      destruct (Ht1 p (fst_elem _ i _ q Hpq)) as (q' & Eq & Ew). rewrite (Hr p q (list_elem_of_lookup_2 _ _ _ Hpq)) in Eq. injection Eq as <-.
      destruct (nth (2 * _ + i) _ _); [apply writable_bit|]. destruct (nth (_ + i) _ _); [done|]. cbn [vm_prot v2 set_mem]. rewrite Ew. apply writable_bit. }
  rewrite length_map, length_seq, bytes_have_covered, <- Hcov, Ew by done.
  clear Ew Eok. destruct (forallb (fun i => reopened v _ i _) _); [|reflexivity]. cbn [mbind outcome_bind]. eexists. split; [reflexivity|]. split.
  - intros a. rewrite restore_permissions_mem. cbn [vm_mem set_mem]. rewrite reopen_mem, Hm3. cbn [vm_mem set_mem v2]. rewrite Hm1. apply patch_mem_undo.
  - apply restore_permissions_opened; [done|]. by apply reopen_opened.
Qed.

(** C19: What [DobbyCodePatch] does on readable mapped memory, for every sequence of answers of the kernel.  Where it
    grants the requests to open the pages and to close them again, the given bytes are written, every other byte and
    every protection is as before and the result is 0.  Where it refuses to open a page nothing is written and the
    result is -1.  Where it refuses to close one the patch is taken back, every byte is as before and the result is -1,
    provided that each page of the patch can be written at that time, having been opened again or not been closed;
    where a page cannot, the rollback faults.  After a result of -1 each page has its old protection, or that with write
    permission added. *)
Theorem code_patch_atomic v address buffer :
  patchable v address (Z.of_nat (length buffer)) ->
  patch_outcome (covered address (Z.of_nat (length buffer))) v address buffer (DobbyCodePatch page_size address buffer v).
Proof.
  intros Hp. pose proof Hp as (Ha & Hn & Hhi & Hread). pose proof page_size_pos. unfold DobbyCodePatch.
  destruct (Z.eqb_spec address 0); [lia|]. destruct (Z.eqb_spec (Z.of_nat (length buffer)) 0); [lia|]. cbn [orb].
  destruct (Z.leb_spec page_size 0); [lia|]. rewrite wrap_small by lia.
  destruct (Z.ltb_spec (address + Z.of_nat (length buffer) - 1) address); [lia|].
  destruct (collect_patch v address (length buffer) Hp) as (pages & -> & Hr & Hcov). cbn [mbind outcome_bind]. rewrite <- Hcov.
  apply patch_pages_exact; try done; [rewrite Hcov; apply pages_from_NoDup|lia|by apply bytes_have_true].
Qed.

End Facts.

(** Two read-execute pages. *)
Definition sample_vm (answers : list bool) : vm :=
  {| vm_mem := fun a => a mod 251; vm_prot := {[0x1000 := 5; 0x2000 := 5]}; vm_answers := answers |}.

Lemma sample_vm_patchable answers : patchable 4096 (sample_vm answers) 0x1ffe 4.
Proof.
  split; [lia|]. split; [lia|]. split; [lia|]. intros a Ha.
  assert (a = 0x1ffe \/ a = 0x1fff \/ a = 0x2000 \/ a = 0x2001) as [-> | [-> | [-> | ->]]] by lia; reflexivity.
Qed.

(** A patch across the page boundary: granted; refused when the second page is to be closed, where the rollback
    takes the patch back; and refused again when the first page is to be opened for the rollback, which then faults. *)
Example code_patch_atomic_witness :
  (exists v', DobbyCodePatch 4096 0x1ffe [1; 2; 3; 4] (sample_vm []) = Ret (0, v') /\ vm_mem v' 0x2001 = 4) /\
  (exists v', DobbyCodePatch 4096 0x1ffe [1; 2; 3; 4] (sample_vm [true; true; true; false]) = Ret (-1, v') /\
     vm_mem v' 0x2001 = 0x2001 mod 251) /\
  DobbyCodePatch 4096 0x1ffe [1; 2; 3; 4] (sample_vm [true; true; true; false; false]) = UB.
Proof.
  pose proof (fun answers => code_patch_atomic 4096 12 eq_refl ltac:(lia) (sample_vm answers) 0x1ffe [1; 2; 3; 4] (sample_vm_patchable answers)) as H.
  split; [|split].
  - destruct (H []) as (v' & E & Hm & _). exists v'. split; [exact E|]. rewrite Hm. reflexivity.
  - destruct (H [true; true; true; false]) as (v' & E & Hm & _). exists v'. split; [exact E|]. rewrite Hm. reflexivity.
  - exact (H [true; true; true; false; false]).
Defined.
