(* ===== verification/LinearAllocator.v ===== *)
(** * The bump allocator (common/linear_allocator.h, [simple_linear_allocator_t])

    A cursor over a fixed buffer.  Pointers are 64-bit addresses, the sizes are
    [uint32_t] and wrap. *)

From S2P Require Import Prelude UtilityMacro.
#[local] Open Scope Z_scope.

Record simple_linear_allocator_t := {
  buffer : Z;
  size : Z;
  capacity : Z;
  builtin_alignment : Z;
}.

Definition init (in_buffer in_capacity in_alignment : Z) : simple_linear_allocator_t :=
  {| buffer := in_buffer; size := 0; capacity := in_capacity;
     builtin_alignment := if in_alignment =? 0 then 1 else in_alignment |}.

Definition cursor (a : simple_linear_allocator_t) : Z := u64 (buffer a + size a).

Definition with_size (a : simple_linear_allocator_t) (s : Z) : simple_linear_allocator_t :=
  {| buffer := buffer a; size := s; capacity := capacity a; builtin_alignment := builtin_alignment a |}.

(** [alloc(in_size, in_alignment)]; [None] is [nullptr].  The alignment gap is
    added to [size] before the capacity test and stays there when the test fails. *)
Definition alloc (a : simple_linear_allocator_t) (in_size in_alignment : Z)
    : option Z * simple_linear_allocator_t :=
  let alignment := if in_alignment =? 0 then builtin_alignment a else in_alignment in
  let gap_size := u32 (ALIGN_CEIL (cursor a) alignment - cursor a) in
  let a := with_size a (u32 (size a + gap_size)) in
  if capacity a <? u32 (size a + in_size) then (None, a)
  else
    let data := cursor a in
    (Some data, with_size a (u32 (size a + in_size))).

Definition free (a : simple_linear_allocator_t) (buf : Z) : simple_linear_allocator_t := a.

(** ** Invariant and behaviour *)

(** The buffer lies in the address space, is aligned, and the cursor is inside it. *)
Record sla_ok (a : simple_linear_allocator_t) (k : Z) : Prop := {
  so_align : builtin_alignment a = 2 ^ k;
  so_k : 0 <= k < 31;
  so_capacity : 0 <= capacity a < 2 ^ 31;
  so_buffer : 0 <= buffer a /\ buffer a + capacity a + 2 ^ k < 2 ^ 64;
  so_buffer_aligned : buffer a mod 2 ^ k = 0;
  so_capacity_aligned : capacity a mod 2 ^ k = 0;
  so_size : 0 <= size a <= capacity a;
}.

Lemma aligned_up x m c : 0 < m -> 0 <= x <= c -> c mod m = 0 -> x + (- x) mod m <= c.
Proof.
  intros Hm Hx Hc. apply Z.mod_divide in Hc as [q ->]; [|lia].
  pose proof (Z.mod_pos_bound (- x) m Hm) as Hr.
  destruct (Z.le_gt_cases (x + (- x) mod m) (q * m)) as [|Hgt]; [done|].
  assert (Hd : (x + (- x) mod m) mod m = 0).
  { rewrite Zplus_mod_idemp_r. by replace (x + - x) with 0 by lia. }
  apply Z.mod_divide in Hd as [p Hp]; [|lia].
  assert (q < p) by nia. assert ((q + 1) * m <= p * m) by nia. lia.
Qed.

(** The size after the alignment gap, as an integer. *)
Definition aligned_size (a : simple_linear_allocator_t) (k : Z) : Z := size a + (- size a) mod 2 ^ k.

Lemma aligned_size_bounds a k : sla_ok a k ->
  size a <= aligned_size a k <= capacity a /\ aligned_size a k mod 2 ^ k = 0.
Proof.
  intros H. pose proof (so_k a k H). assert (Hm : 0 < 2 ^ k) by (apply Z.pow_pos_nonneg; lia).
  pose proof (Z.mod_pos_bound (- size a) (2 ^ k) Hm). unfold aligned_size.
  split; [split; [lia|apply aligned_up; [done|apply (so_size a k H)|apply (so_capacity_aligned a k H)]]|].
  rewrite Zplus_mod_idemp_r. by replace (size a + - size a) with 0 by lia.
Qed.

Lemma alloc_eq a k n :
  sla_ok a k -> 0 <= n < 2 ^ 31 ->
  alloc a n 0 =
    if capacity a <? aligned_size a k + n then (None, with_size a (aligned_size a k))
    else (Some (buffer a + aligned_size a k), with_size a (aligned_size a k + n)).
Proof.
  intros H Hn. pose proof (aligned_size_bounds a k H) as [Hb Hm].
  destruct H as [Ha Hk Hc Hbuf Hba Hca Hs]. unfold alloc, cursor.
  assert (H2 : 0 < 2 ^ k) by (apply Z.pow_pos_nonneg; lia).
  rewrite (wrap_small 64 (buffer a + size a)) by lia. simpl (0 =? 0). cbn iota.
  rewrite Ha, ALIGN_CEIL_alt by lia.
  assert (Hg : (- (buffer a + size a)) mod 2 ^ k = (- size a) mod 2 ^ k).
  { replace (- (buffer a + size a)) with (- buffer a + - size a) by lia.
    rewrite Zplus_mod, Z_mod_zero_opp_full, Z.add_0_l, Zmod_mod by done. done. }
  rewrite Hg. replace (buffer a + size a + (- size a) mod 2 ^ k - (buffer a + size a)) with ((- size a) mod 2 ^ k) by lia.
  pose proof (Z.mod_pos_bound (- size a) (2 ^ k) H2).
  assert (2 ^ k < 2 ^ 31) by (apply Z.pow_lt_mono_r; lia).
  rewrite (wrap_small 32 ((- size a) mod 2 ^ k)) by lia. fold (aligned_size a k).
  rewrite (wrap_small 32 (aligned_size a k)) by lia. cbn [size with_size capacity buffer].
  rewrite (wrap_small 32 (aligned_size a k + n)) by lia.
  destruct (_ <? _); [done|]. by rewrite wrap_small by lia.
Qed.

Lemma with_size_ok a k s : sla_ok a k -> 0 <= s <= capacity a -> sla_ok (with_size a s) k.
Proof. intros []; by split. Qed.

(** ** Properties *)

(** A bump allocation either returns an aligned block that starts at or after the old cursor, ends at the new one
    and lies inside the buffer, or returns null because the aligned request does not fit; in both cases the
    allocator stays well formed and its cursor does not move back, so blocks handed out never overlap. *)
Theorem simple_alloc_spec a k n :
  sla_ok a k -> 0 <= n < 2 ^ 31 ->
  let '(r, a') := alloc a n 0 in
  sla_ok a' k /\ size a <= size a' /\ buffer a' = buffer a /\ capacity a' = capacity a /\
  match r with
  | Some p => p mod 2 ^ k = 0 /\ buffer a + size a <= p /\ p + n = buffer a + size a' /\
              p + n <= buffer a + capacity a
  | None => capacity a < size a' + n /\ size a' mod 2 ^ k = 0
  end.
Proof.
  intros H Hn. rewrite (alloc_eq a k n H Hn). pose proof (aligned_size_bounds a k H) as [Hb Hm].
  pose proof (so_size a k H).
  destruct (Z.ltb_spec (capacity a) (aligned_size a k + n)); cbn [size with_size buffer capacity].
  - split; [apply with_size_ok; [done|lia]|]. repeat split; lia.
  - split; [apply with_size_ok; [done|lia]|]. split; [lia|]. do 2 (split; [done|]).
    split; [rewrite Zplus_mod, (so_buffer_aligned a k H), Hm; apply Z.mod_0_l, Z.pow_nonzero; pose proof (so_k a k H); lia|].
    repeat split; lia.
Qed.

Lemma page_allocator_ok page : 0 <= page -> page mod 4096 = 0 -> page + 8192 < 2 ^ 64 -> sla_ok (init page 4096 8) 3.
Proof.
  intros Hp Ha Hh. split; cbn; try done; try lia.
  apply Z.mod_divide; [lia|]. apply Z.mod_divide in Ha as [q ->]; [|lia]. exists (q * 512). lia.
Qed.

Example simple_alloc_spec_witness :
  sla_ok (snd (alloc (init 0x10000 4096 8) 13 0)) 3 /\ fst (alloc (init 0x10000 4096 8) 13 0) = Some 0x10000.
Proof.
  split; [|reflexivity].
  exact (proj1 (simple_alloc_spec (init 0x10000 4096 8) 3 13
                  (page_allocator_ok 0x10000 ltac:(lia) eq_refl ltac:(lia)) ltac:(lia))).
Defined.

(** The capacity test is a 32-bit sum: a request near 2^32 wraps it and is granted from a page of 4096 bytes,
    and the cursor moves back onto blocks already handed out. *)
Theorem simple_alloc_wraps :
  let a := snd (alloc (init 0x10000 4096 8) 64 0) in
  alloc a (2 ^ 32 - 64) 0 = (Some 0x10040, with_size a 0).
Proof. vm_compute. reflexivity. Qed.
