(* ===== verification/MemoryAllocator.v ===== *)
(** * The page allocator (source/MemoryAllocator/MemoryAllocator.h)

    [MemRange] and [MemoryAllocator]: executable and data blocks carved from pages.
    The [simple_linear_allocator_t] objects live in [heap], keyed by their address,
    because [page_records] and the two allocator lists point to the same objects.  The
    operating system is an argument of the operations: what [OSMemory::Allocate] and
    [OSMemory::SetPermission] answer when they are called. *)

From stdpp Require Import gmap.
From S2P Require Import Prelude UtilityMacro LinearAllocator.
#[local] Open Scope Z_scope.

(** ** MemRange *)

Record MemRange := { start_ : Z; rsize : Z }.

Definition MemRange_empty : MemRange := {| start_ := 0; rsize := 0 |}.
Definition addr (r : MemRange) : Z := start_ r.
Definition end_ (r : MemRange) : Z := u64 (start_ r + rsize r).
Definition resize (r : MemRange) (n : Z) : MemRange := {| start_ := start_ r; rsize := n |}.
Definition reset (r : MemRange) (s n : Z) : MemRange := {| start_ := s; rsize := n |}.

Definition contains (r : MemRange) (in_addr in_size : Z) : bool :=
  if in_size =? 0 then false
  else if in_addr <? addr r then false
  else if u64 (2 ^ 64 - 1 - in_size) <? in_addr then false
  else u64 (in_addr + in_size) <=? end_ r.

Definition intersect (r other : MemRange) : MemRange :=
  let start := if addr other <? addr r then addr r else addr other in
  let fin := if end_ r <? end_ other then end_ r else end_ other in
  if start <? fin then {| start_ := start; rsize := fin - start |} else MemRange_empty.

(** The addresses of a range that does not wrap. *)
Definition mem_range (r : MemRange) (x : Z) : Prop := start_ r <= x < start_ r + rsize r.
Definition range_ok (r : MemRange) : Prop := 0 <= start_ r /\ 0 <= rsize r /\ start_ r + rsize r < 2 ^ 64.

Lemma end_ok r : range_ok r -> end_ r = start_ r + rsize r.
Proof. intros (?&?&?). unfold end_. apply wrap_small. lia. Qed.

(** [contains] decides containment of a non-empty byte interval, and [intersect] computes exactly the common
    addresses of two ranges, the empty range when there are none. *)
Theorem memrange_spec r other a n :
  range_ok r -> range_ok other -> 0 <= a < 2 ^ 64 -> 0 <= n < 2 ^ 64 ->
  (contains r a n = true <-> 0 < n /\ a + n < 2 ^ 64 /\ forall x, a <= x < a + n -> mem_range r x) /\
  range_ok (intersect r other) /\
  (forall x, mem_range (intersect r other) x <-> mem_range r x /\ mem_range other x).
Proof.
  intros Hr Ho Ha Hn. pose proof (end_ok r Hr) as Er. pose proof (end_ok other Ho) as Eo.
  destruct Hr as (R1 & R2 & R3), Ho as (O1 & O2 & O3). unfold mem_range. split.
  - unfold contains, addr. rewrite Er.
    destruct (Z.eqb_spec n 0) as [->|Hn0]; [split; [done|lia]|].
    destruct (Z.ltb_spec a (start_ r)) as [Hlt|Hge].
    { split; [done|]. intros (_ & _ & H). specialize (H a). lia. }
    rewrite (wrap_small 64) by lia. destruct (Z.ltb_spec (2 ^ 64 - 1 - n) a) as [Hov|Hok].
    { split; [done|]. lia. }
    rewrite wrap_small, Z.leb_le by lia. split.
    + intros H. split; [lia|]. split; [lia|]. intros x Hx. lia.
    + intros (_ & _ & H). specialize (H (a + n - 1)). lia.
  - unfold intersect, addr. rewrite Er, Eo.
    destruct (Z.ltb_spec (start_ other) (start_ r)), (Z.ltb_spec (start_ r + rsize r) (start_ other + rsize other));
      match goal with |- context [?x <? ?y] => destruct (Z.ltb_spec x y) end;
      (split; [unfold range_ok; cbn; lia|]); intros x; cbn; lia.
Qed.

Example memrange_spec_witness :
  range_ok (intersect {| start_ := 0x1000; rsize := 0x2000 |} {| start_ := 0x2800; rsize := 0x2000 |}).
Proof.
  apply (memrange_spec {| start_ := 0x1000; rsize := 0x2000 |} {| start_ := 0x2800; rsize := 0x2000 |} 0x2900 16);
    unfold range_ok; cbn; lia.
Defined.

(** ** MemoryAllocator

    [os_pages] is the set of pages that [OSMemory] has mapped for this allocator: [OSMemory::Allocate] adds one and
    [OSMemory::Free] removes it. *)

Record PageRecord := { p_allocator : Z; p_page : Z; p_exec : bool }.
Record AllocationRecord := { r_addr : Z; r_size : Z; r_page : Z; r_exec : bool; r_free : bool }.

Record MemoryAllocator := {
  code_page_allocators : list Z;
  data_page_allocators : list Z;
  page_records : list PageRecord;
  allocation_records : list AllocationRecord;
  heap : gmap Z simple_linear_allocator_t;
  os_pages : gset Z;
}.

Definition MemoryAllocator_new : MemoryAllocator :=
  {| code_page_allocators := []; data_page_allocators := []; page_records := []; allocation_records := [];
     heap := ∅; os_pages := ∅ |}.

Definition page_allocators (m : MemoryAllocator) (is_exec : bool) : list Z :=
  if is_exec then code_page_allocators m else data_page_allocators m.

(** The state with the page allocators of one kind, the page records and the mapped pages replaced. *)
Definition set_pages (m : MemoryAllocator) (is_exec : bool) (ids : list Z) (ps : list PageRecord)
    (h : gmap Z simple_linear_allocator_t) (mapped : gset Z) : MemoryAllocator :=
  {| code_page_allocators := if is_exec then ids else code_page_allocators m;
     data_page_allocators := if is_exec then data_page_allocators m else ids;
     page_records := ps; allocation_records := allocation_records m; heap := h; os_pages := mapped |}.
Definition set_records (m : MemoryAllocator) (l : list AllocationRecord) : MemoryAllocator :=
  {| code_page_allocators := code_page_allocators m; data_page_allocators := data_page_allocators m;
     page_records := page_records m; allocation_records := l; heap := heap m; os_pages := os_pages m |}.
Definition set_heap (m : MemoryAllocator) (h : gmap Z simple_linear_allocator_t) : MemoryAllocator :=
  {| code_page_allocators := code_page_allocators m; data_page_allocators := data_page_allocators m;
     page_records := page_records m; allocation_records := allocation_records m; heap := h;
     os_pages := os_pages m |}.
Definition set_is_free (r : AllocationRecord) (b : bool) : AllocationRecord :=
  {| r_addr := r_addr r; r_size := r_size r; r_page := r_page r; r_exec := r_exec r; r_free := b |}.

Section Allocator.

(** [OSMemory::PageSize()]. *)
Variable PageSize : Z.

(** The first free record of the kind that is large enough is taken over. *)
Fixpoint reuse_record (rs : list AllocationRecord) (in_size : Z) (is_exec : bool)
    : option (Z * list AllocationRecord) :=
  match rs with
  | [] => None
  | r :: rs =>
      if r_free r && Bool.eqb (r_exec r) is_exec && (in_size <=? r_size r)
      then Some (r_addr r, set_is_free r false :: rs)
      else '(a, rs) ← reuse_record rs in_size is_exec; Some (a, r :: rs)
  end.

(** Try the page allocators in turn; a failed attempt may have moved the cursor. *)
Fixpoint try_pages (ids : list Z) (h : gmap Z simple_linear_allocator_t) (in_size : Z)
    : outcome (option Z * gmap Z simple_linear_allocator_t) :=
  match ids with
  | [] => Ret (None, h)
  | id :: ids =>
      match h !! id with
      | None => UB
      | Some a =>
          let '(result, a) := alloc a (u32 in_size) 0 in
          let h := <[id := a]> h in
          match result with
          | Some p => Ret (Some p, h)
          | None => try_pages ids h in_size
          end
      end
  end.

(** What the operating system answers: the page [OSMemory::Allocate] maps, if any, whether
    [OSMemory::SetPermission] succeeds, and the address [new] returns for the page allocator. *)
Record os_answer := { os_page : option Z; os_permission : bool; os_new : Z }.

(** The branch that maps a page.  When the permission cannot be set the page is freed again. *)
Definition map_page (os : os_answer) (m : MemoryAllocator) (in_size : Z) (is_exec : bool)
    : option Z * MemoryAllocator :=
  match os_page os with
  | None => (None, m)
  | Some page =>
      if os_permission os then
        let page_allocator := os_new os in
        let '(result, a) := alloc (init page (u32 PageSize) 8) (u32 in_size) 0 in
        (result,
         set_pages m is_exec (page_allocators m is_exec ++ [page_allocator])
           (page_records m ++ [{| p_allocator := page_allocator; p_page := page; p_exec := is_exec |}])
           (<[page_allocator := a]> (heap m)) ({[page]} ∪ os_pages m))
      else (None, m)
  end.

Definition allocMemBlockLocked (os : os_answer) (m : MemoryAllocator) (in_size : Z) (is_exec : bool)
    : outcome (MemRange * MemoryAllocator) :=
  if (in_size =? 0) || (PageSize <? in_size) then Ret (MemRange_empty, m)
  else
    match reuse_record (allocation_records m) in_size is_exec with
    | Some (a, rs) => Ret ({| start_ := a; rsize := in_size |}, set_records m rs)
    | None =>
        '(result, h) ← try_pages (page_allocators m is_exec) (heap m) in_size;
        let m := set_heap m h in
        let '(result, m) := match result with Some p => (Some p, m) | None => map_page os m in_size is_exec end in
        match result with
        | None => Ret (MemRange_empty, m)
        | Some p =>
            let record := {| r_addr := p; r_size := in_size; r_page := ALIGN_FLOOR p PageSize;
                             r_exec := is_exec; r_free := false |} in
            Ret ({| start_ := p; rsize := in_size |}, set_records m (allocation_records m ++ [record]))
        end
    end.

(** The loop that marks the block's record free; [None] when no record matches. *)
Fixpoint mark_free (rs : list AllocationRecord) (a : Z) (is_exec : bool) : option (list AllocationRecord) :=
  match rs with
  | [] => None
  | r :: rs =>
      if (r_addr r =? a) && Bool.eqb (r_exec r) is_exec then Some (set_is_free r true :: rs)
      else rs ← mark_free rs a is_exec; Some (r :: rs)
  end.

Definition on_page (page : Z) (is_exec : bool) (r : AllocationRecord) : bool :=
  (r_page r =? page) && Bool.eqb (r_exec r) is_exec.

(** Erase the first page record that matches and return its allocator. *)
Fixpoint erase_page (ps : list PageRecord) (page : Z) (is_exec : bool) : option Z * list PageRecord :=
  match ps with
  | [] => (None, [])
  | p :: ps =>
      if (p_page p =? page) && Bool.eqb (p_exec p) is_exec then (Some (p_allocator p), ps)
      else let '(r, ps) := erase_page ps page is_exec in (r, p :: ps)
  end.

Fixpoint erase_allocator (ids : list Z) (id : Z) : list Z :=
  match ids with
  | [] => []
  | i :: ids => if i =? id then ids else i :: erase_allocator ids id
  end.

Fixpoint erase_records (rs : list AllocationRecord) (page : Z) (is_exec : bool) : list AllocationRecord :=
  match rs with
  | [] => []
  | r :: rs => if on_page page is_exec r then erase_records rs page is_exec else r :: erase_records rs page is_exec
  end.

(** [delete page_allocator] of a pointer that is not live is undefined behaviour. *)
Definition freeMemBlockLocked (m : MemoryAllocator) (block : MemRange) (is_exec : bool) : outcome MemoryAllocator :=
  if (addr block =? 0) || (rsize block =? 0) then Ret m
  else
    let page := ALIGN_FLOOR (addr block) PageSize in
    match mark_free (allocation_records m) (addr block) is_exec with
    | None => Ret m
    | Some rs =>
        let m := set_records m rs in
        if existsb (fun r => on_page page is_exec r && negb (r_free r)) rs then Ret m
        else
          match erase_page (page_records m) page is_exec with
          | (None, _) => Ret (set_records m (erase_records rs page is_exec))
          | (Some page_allocator, ps) =>
              match heap m !! page_allocator with
              | None => UB
              | Some _ =>
                  Ret (set_records
                         (set_pages m is_exec (erase_allocator (page_allocators m is_exec) page_allocator) ps
                            (delete page_allocator (heap m)) (os_pages m ∖ {[page]}))
                         (erase_records rs page is_exec))
              end
          end
    end.

End Allocator.
