(* ===== verification/MemoryAllocatorSpec.v ===== *)
(** * Correctness of the page allocator

    The invariant of [MemoryAllocator] and the behaviour of its two operations, against the abstract state a client
    sees: the list [live] of blocks handed out and not freed. *)

From stdpp Require Import gmap.
From S2P Require Import Prelude UtilityMacro LinearAllocator MemoryAllocator.
#[local] Open Scope Z_scope.

(** The blocks that are handed out. *)
Definition live_records (rs : list AllocationRecord) : list AllocationRecord := filter (fun r => r_free r = false) rs.
Definition live (m : MemoryAllocator) : list AllocationRecord := live_records (allocation_records m).

Definition disjoint (r r' : AllocationRecord) : Prop :=
  r_addr r + r_size r <= r_addr r' \/ r_addr r' + r_size r' <= r_addr r.

(** ** What the loops compute *)

Lemma reuse_record_Some rs n e a rs' :
  reuse_record rs n e = Some (a, rs') ->
  exists l1 r l2, rs = l1 ++ r :: l2 /\ rs' = l1 ++ set_is_free r false :: l2 /\
    r_free r = true /\ r_exec r = e /\ n <= r_size r /\ a = r_addr r.
Proof.
  revert rs'. induction rs as [|r rs IH]; intros rs'; [done|]. cbn [reuse_record].
  destruct (r_free r && Bool.eqb (r_exec r) e && (n <=? r_size r)) eqn:E.
  - intros [= <- <-]. rewrite !andb_true_iff, Bool.eqb_true_iff, Z.leb_le in E.
    destruct E as [[Ef Ee] En]. by exists [], r, rs.
  - destruct (reuse_record rs n e) as [[a' rs'']|]; [|done]. intros [= -> <-].
    destruct (IH rs'' eq_refl) as (l1 & r0 & l2 & -> & -> & H). by exists (r :: l1), r0, l2.
Qed.

Lemma mark_free_Some rs a e rs' :
  mark_free rs a e = Some rs' ->
  exists l1 r l2, rs = l1 ++ r :: l2 /\ rs' = l1 ++ set_is_free r true :: l2 /\ r_addr r = a /\ r_exec r = e.
Proof.
  revert rs'. induction rs as [|r rs IH]; intros rs'; [done|]. cbn [mark_free].
  destruct ((r_addr r =? a) && Bool.eqb (r_exec r) e) eqn:E.
  - intros [= <-]. rewrite andb_true_iff, Bool.eqb_true_iff, Z.eqb_eq in E. by exists [], r, rs.
  - destruct (mark_free rs a e) as [rs''|]; [|done]. intros [= <-].
    destruct (IH rs'' eq_refl) as (l1 & r0 & l2 & -> & -> & H). by exists (r :: l1), r0, l2.
Qed.

Lemma mark_free_None rs a e r :
  mark_free rs a e = None -> r ∈ rs -> r_addr r = a -> r_exec r <> e.
Proof.
  induction rs as [|r' rs IH]; [by rewrite elem_of_nil|]. cbn [mark_free].
  destruct ((r_addr r' =? a) && Bool.eqb (r_exec r') e) eqn:E; [done|].
  destruct (mark_free rs a e); [done|]. intros _. rewrite elem_of_cons. intros [->|Hr]; [|by apply IH].
  intros <- <-. by rewrite Z.eqb_refl, Bool.eqb_reflx in E.
Qed.

Lemma erase_page_Some ps page e id ps' :
  erase_page ps page e = (Some id, ps') ->
  exists l1 p l2, ps = l1 ++ p :: l2 /\ ps' = l1 ++ l2 /\ p_allocator p = id /\ p_page p = page /\ p_exec p = e.
Proof.
  revert ps'. induction ps as [|p ps IH]; intros ps'; [done|]. cbn [erase_page].
  destruct ((p_page p =? page) && Bool.eqb (p_exec p) e) eqn:E.
  - intros [= <- <-]. rewrite andb_true_iff, Bool.eqb_true_iff, Z.eqb_eq in E. by exists [], p, ps.
  - destruct (erase_page ps page e) as [r ps'']. intros [= -> <-].
    destruct (IH ps'' eq_refl) as (l1 & p0 & l2 & -> & -> & H). by exists (p :: l1), p0, l2.
Qed.

Lemma erase_page_None ps page e ps' p :
  erase_page ps page e = (None, ps') -> p ∈ ps -> p_page p = page -> p_exec p <> e.
Proof.
  revert ps'. induction ps as [|p' ps IH]; intros ps'; [by rewrite elem_of_nil|]. cbn [erase_page].
  destruct ((p_page p' =? page) && Bool.eqb (p_exec p') e) eqn:E; [done|].
  destruct (erase_page ps page e) as [r ps'']. intros [= -> <-].
  rewrite elem_of_cons. intros [->|Hp]; [|by apply (IH ps'')].
  intros <- <-. by rewrite Z.eqb_refl, Bool.eqb_reflx in E.
Qed.

Lemma erase_allocator_app l1 id l2 : id ∉ l1 -> erase_allocator (l1 ++ id :: l2) id = l1 ++ l2.
Proof.
  induction l1 as [|i l1 IH]; cbn; [by rewrite Z.eqb_refl|]. rewrite not_elem_of_cons. intros [Hi Hl].
  destruct (Z.eqb_spec i id); [by subst|]. by rewrite IH.
Qed.

Lemma on_page_true page e r : on_page page e r = true <-> r_page r = page /\ r_exec r = e.
Proof. unfold on_page. by rewrite andb_true_iff, Z.eqb_eq, Bool.eqb_true_iff. Qed.

Lemma erase_records_filter rs page e :
  erase_records rs page e = filter (fun r => on_page page e r = false) rs.
Proof.
  induction rs as [|r rs IH]; [done|]. cbn [erase_records]. rewrite filter_cons, IH.
  by destruct (on_page page e r).
Qed.

Lemma live_app l1 l2 : live_records (l1 ++ l2) = live_records l1 ++ live_records l2.
Proof. apply list.filter_app. Qed.

Lemma live_cons r l : live_records (r :: l) = if r_free r then live_records l else r :: live_records l.
Proof. unfold live_records. rewrite filter_cons. by destruct (r_free r). Qed.

Lemma nodup_snoc {A} (x : A) l : x ∉ l -> NoDup l -> NoDup (l ++ [x]).
Proof. intros Hx Hl. rewrite <- Permutation_cons_append. by apply list.NoDup_cons. Qed.

Lemma elem_of_live rs r : r ∈ live_records rs <-> r ∈ rs /\ r_free r = false.
Proof. unfold live_records. rewrite list_elem_of_filter. tauto. Qed.

(** A page without live records loses no live block when its records are erased. *)
Lemma live_erase rs page e :
  existsb (fun r => on_page page e r && negb (r_free r)) rs = false ->
  live_records (erase_records rs page e) = live_records rs.
Proof.
  induction rs as [|r rs IH]; [done|]. cbn [existsb erase_records]. intros [Hr Hrs]%orb_false_iff.
  rewrite live_cons, <- (IH Hrs). destruct (on_page page e r), (r_free r) eqn:Ef; try done; rewrite live_cons, Ef; done.
Qed.

(** Marking the record of address [a] removes exactly that block. *)
Lemma live_mark l1 r l2 :
  NoDup (r_addr <$> l1 ++ r :: l2) ->
  live_records (l1 ++ set_is_free r true :: l2) =
  filter (fun r' => ~ (r_addr r' = r_addr r /\ r_exec r' = r_exec r)) (live_records (l1 ++ r :: l2)).
Proof.
  rewrite fmap_app, fmap_cons. intros Hnd. rewrite !live_app, !live_cons, list.filter_app. cbn [r_free set_is_free].
  assert (Hk : forall l, r_addr r ∉ r_addr <$> l ->
    filter (fun r' => ~ (r_addr r' = r_addr r /\ r_exec r' = r_exec r)) (live_records l) = live_records l).
  { induction l as [|x l IH]; [done|]. rewrite fmap_cons, not_elem_of_cons, live_cons. intros [Hx Hl].
    destruct (r_free x); [by apply IH|]. rewrite filter_cons_True by naive_solver. by rewrite IH. }
  apply list.NoDup_app in Hnd as (_ & Hd & Hnd%list.NoDup_cons).
  assert (r_addr r ∉ r_addr <$> l1) by (intros Hin; apply (Hd _ Hin); left).
  rewrite (Hk l1) by done. f_equal. destruct (r_free r); [by rewrite Hk by apply Hnd|].
  rewrite filter_cons_False by naive_solver. by rewrite Hk by apply Hnd.
Qed.

Lemma live_reuse l1 r l2 :
  r_free r = true ->
  live_records (l1 ++ set_is_free r false :: l2) ≡ₚ set_is_free r false :: live_records (l1 ++ r :: l2).
Proof. intros Hf. rewrite !live_app, !live_cons, Hf. cbn. by rewrite Permutation_middle. Qed.

(** ** The invariant *)

Section Spec.

Context (PageSize pk : Z).
Hypothesis page_size : PageSize = 2 ^ pk.
Hypothesis pk_range : 3 <= pk < 31.

Lemma PageSize_bounds : 8 <= PageSize < 2 ^ 31.
Proof.
  rewrite page_size. split; [apply (Z.pow_le_mono_r 2 3 pk); lia|apply Z.pow_lt_mono_r; lia].
Qed.

(** A page allocator runs over exactly its page. *)
Definition page_alloc_ok (page : Z) (a : simple_linear_allocator_t) : Prop :=
  sla_ok a 3 /\ buffer a = page /\ capacity a = PageSize /\ page mod PageSize = 0 /\ 0 < page.

(** The page records, the two allocator lists, the allocator objects and the pages mapped by the operating system
    describe the same pages. *)
Record pages_ok (m : MemoryAllocator) : Prop := {
  po_pages : NoDup (p_page <$> page_records m);
  po_ids : NoDup (p_allocator <$> page_records m);
  po_mapped : os_pages m = list_to_set (p_page <$> page_records m);
  po_heap : dom (heap m) = list_to_set (p_allocator <$> page_records m);
  po_lists : forall e, page_allocators m e = p_allocator <$> filter (fun p => p_exec p = e) (page_records m);
  po_page : forall p, p ∈ page_records m ->
    exists a, heap m !! p_allocator p = Some a /\ page_alloc_ok (p_page p) a;
}.

(** A record lies on a page of its kind, below the page's cursor. *)
Definition placed (m : MemoryAllocator) (r : AllocationRecord) : Prop :=
  exists p a, p ∈ page_records m /\ heap m !! p_allocator p = Some a /\
    r_page r = p_page p /\ r_exec r = p_exec p /\ 0 < r_size r /\ r_addr r mod 8 = 0 /\
    p_page p <= r_addr r /\ r_addr r + r_size r <= p_page p + size a.

Record records_ok (m : MemoryAllocator) : Prop := {
  ro_placed : forall r, r ∈ allocation_records m -> placed m r;
  ro_addrs : NoDup (r_addr <$> allocation_records m);
  ro_disjoint : forall r r', r ∈ allocation_records m -> r' ∈ allocation_records m ->
    r_addr r <> r_addr r' -> disjoint r r';
}.

(** Every mapped page carries a live block. *)
Definition used (m : MemoryAllocator) : Prop :=
  forall p, p ∈ page_records m -> exists r, r ∈ live m /\ r_page r = p_page p.

Definition mem_ok (m : MemoryAllocator) : Prop := pages_ok m /\ records_ok m /\ used m.

Lemma mem_ok_new : mem_ok MemoryAllocator_new.
Proof.
  split; [|split].
  - split; [apply list.NoDup_nil; done|apply list.NoDup_nil; done|done|done|by intros []|by intros p ?%elem_of_nil].
  - split; [by intros r ?%elem_of_nil|apply list.NoDup_nil; done|by intros r r' ?%elem_of_nil].
  - by intros p ?%elem_of_nil.
Qed.

(** *** Pages *)

Lemma page_inj m p p' :
  pages_ok m -> p ∈ page_records m -> p' ∈ page_records m -> p_page p = p_page p' -> p = p'.
Proof.
  intros H Hp Hp' E. apply list_elem_of_lookup in Hp as [i Hi], Hp' as [j Hj].
  assert (i = j) as ->; [|congruence].
  apply (NoDup_lookup (p_page <$> page_records m) i j (p_page p)); [apply po_pages, H| |];
    rewrite list_lookup_fmap, ?Hi, ?Hj; cbn; congruence.
Qed.

Lemma page_mul_apart p q : p mod PageSize = 0 -> q mod PageSize = 0 -> p <> q -> p + PageSize <= q \/ q + PageSize <= p.
Proof.
  pose proof PageSize_bounds. intros [x ->]%Z.mod_divide [y ->]%Z.mod_divide Hne; try lia.
  destruct (Z.lt_total x y) as [?|[->|?]]; [left; nia|done|right; nia].
Qed.

Lemma placed_in_page m r :
  pages_ok m -> placed m r ->
  r_page r ∈ os_pages m /\ r_page r mod PageSize = 0 /\ 0 < r_page r /\
  r_page r <= r_addr r /\ r_addr r + r_size r <= r_page r + PageSize.
Proof.
  intros H (p & a & Hp & Ha & Er & _ & Hsz & _ & Hlo & Hhi).
  destruct (po_page m H p Hp) as (a' & Ha' & Hok & _ & Hc & Hm & Hpos). rewrite Ha' in Ha. injection Ha as ->.
  pose proof (so_size a 3 Hok). rewrite (po_mapped m H), Er. split; [|lia].
  apply elem_of_list_to_set, list_elem_of_fmap. eauto.
Qed.

Lemma floor_in_page page x : page mod PageSize = 0 -> page <= x < page + PageSize -> ALIGN_FLOOR x PageSize = page.
Proof.
  intros Hm Hx. pose proof PageSize_bounds. rewrite page_size, ALIGN_FLOOR_alt by lia. rewrite <- page_size.
  apply Z.mod_divide in Hm as [q ->]; [|lia].
  assert (E : x mod PageSize = x - q * PageSize); [|lia].
  replace x with (x - q * PageSize + q * PageSize) at 1 by lia.
  rewrite Z_mod_plus_full. apply Z.mod_small. lia.
Qed.

Lemma placed_floor m r : pages_ok m -> placed m r -> ALIGN_FLOOR (r_addr r) PageSize = r_page r.
Proof.
  intros H Hr. pose proof (placed_in_page m r H Hr) as (_ & Hm & Hp & Hlo & Hhi).
  destruct Hr as (p & a & _ & _ & _ & _ & Hsz & _). apply floor_in_page; [done|lia].
Qed.

(** Records on different pages never meet. *)
Lemma placed_apart m r r' :
  pages_ok m -> placed m r -> placed m r' -> r_page r <> r_page r' -> disjoint r r'.
Proof.
  intros H Hr Hr' Hne.
  pose proof (placed_in_page m r H Hr) as (_ & Hm & _ & Hb).
  pose proof (placed_in_page m r' H Hr') as (_ & Hm' & _ & Hb').
  destruct (page_mul_apart _ _ Hm Hm' Hne); unfold disjoint; lia.
Qed.

(** *** Moving cursors *)

Definition advanced (a a' : simple_linear_allocator_t) : Prop :=
  buffer a' = buffer a /\ capacity a' = capacity a /\ size a <= size a' /\ sla_ok a' 3.

Definition heap_ok (h : gmap Z simple_linear_allocator_t) : Prop := forall id a, h !! id = Some a -> sla_ok a 3.

Definition heap_advanced (h h' : gmap Z simple_linear_allocator_t) : Prop :=
  dom h' = dom h /\ forall id a, h !! id = Some a -> exists a', h' !! id = Some a' /\ advanced a a'.

Lemma advanced_refl a : sla_ok a 3 -> advanced a a.
Proof. intros H. repeat split; try apply H; lia. Qed.

Lemma alloc_advanced a n r a' :
  sla_ok a 3 -> 0 <= n < 2 ^ 31 -> alloc a n 0 = (r, a') ->
  advanced a a' /\
  forall p, r = Some p -> p mod 8 = 0 /\ buffer a + size a <= p /\ p + n = buffer a + size a'.
Proof.
  intros H Hn. rewrite (alloc_eq a 3 n H Hn). pose proof (aligned_size_bounds a 3 H) as [Hb Hm].
  pose proof (so_size a 3 H). pose proof (so_buffer_aligned a 3 H) as Hba.
  destruct (Z.ltb_spec (capacity a) (aligned_size a 3 + n)); intros [= <- <-].
  - split; [|done]. repeat split; try done; try apply H; cbn; lia.
  - split; [repeat split; try done; try apply H; cbn; lia|].
    intros p [= <-]. split; [|cbn; lia]. change 8 with (2 ^ 3). by rewrite Zplus_mod, Hba, Hm.
Qed.

Lemma heap_advanced_insert h id a a' :
  heap_ok h -> h !! id = Some a -> advanced a a' -> heap_ok (<[id := a']> h) /\ heap_advanced h (<[id := a']> h).
Proof.
  intros Hh Hid Ha. split; [|split].
  - intros i x. rewrite lookup_insert_Some. intros [[_ <-]|[_ Hx]]; [apply Ha|by apply (Hh i)].
  - apply dom_insert_lookup_L. by exists a.
  - intros i x Hx. destruct (decide (id = i)) as [<-|Hne].
    + rewrite Hid in Hx. injection Hx as ->. exists a'. by rewrite lookup_insert_eq.
    + exists x. rewrite lookup_insert_ne by done. split; [done|]. by apply advanced_refl, (Hh i).
Qed.

Lemma heap_advanced_trans h1 h2 h3 : heap_advanced h1 h2 -> heap_advanced h2 h3 -> heap_advanced h1 h3.
Proof.
  intros [D1 H1] [D2 H2]. split; [congruence|]. intros id a Ha.
  destruct (H1 id a Ha) as (b & Hb & E1 & E2 & E3 & _), (H2 id b Hb) as (c & Hc & F1 & F2 & F3 & F4).
  exists c. split; [done|]. split; [congruence|]. split; [congruence|]. split; [lia|done].
Qed.

(** The loop over the page allocators either moves cursors without result, or returns a block that one of the
    allocators has just carved off above its old cursor. *)
Lemma try_pages_spec ids h n :
  0 <= n < 2 ^ 31 -> heap_ok h -> (forall id, id ∈ ids -> is_Some (h !! id)) ->
  exists r h', try_pages ids h n = Ret (r, h') /\ heap_advanced h h' /\ heap_ok h' /\
    forall p, r = Some p -> exists id a a', id ∈ ids /\ h !! id = Some a /\ h' !! id = Some a' /\
      p mod 8 = 0 /\ buffer a + size a <= p /\ p + n = buffer a + size a'.
Proof.
  intros Hn. revert h. induction ids as [|id ids IH]; intros h Hh Hids; cbn [try_pages].
  { exists None, h. split; [done|]. split; [|done]. split; [done|]. intros id a Ha. exists a. split; [done|].
    by apply advanced_refl, (Hh id). }
  destruct (Hids id ltac:(left)) as [a Ha]. rewrite Ha, wrap_small by lia.
  destruct (alloc a n 0) as [r a'] eqn:Ealloc.
  destruct (alloc_advanced a n r a' (Hh id a Ha) Hn Ealloc) as [Hadv Hp].
  destruct (heap_advanced_insert h id a a' Hh Ha Hadv) as [Hh1 Hadv1].
  destruct r as [p|].
  - exists (Some p), (<[id := a']> h). split; [done|]. split; [done|]. split; [done|].
    intros q [= <-]. exists id, a, a'. rewrite lookup_insert_eq. split; [left|]. split; [done|]. split; [done|]. by apply Hp.
  - destruct (IH (<[id := a']> h) Hh1) as (r & h' & E & Hadv2 & Hh' & Hr).
    { intros i Hi. apply elem_of_dom. rewrite dom_insert. apply elem_of_union_r, elem_of_dom, Hids. by right. }
    exists r, h'. split; [done|]. split; [by apply (heap_advanced_trans _ _ _ Hadv1)|]. split; [done|].
    intros p Ep. destruct (Hr p Ep) as (i & b & b' & Hi & Hb & Hb' & Hmod & Hlo & Hhi).
    destruct (decide (id = i)) as [<-|Hne].
    + rewrite lookup_insert_eq in Hb. injection Hb as <-. destruct Hadv as (Ebuf & _ & Hsz & _).
      exists id, a, b'. repeat split; try done; [by right|lia|lia].
    + rewrite lookup_insert_ne in Hb by done. exists i, b, b'. repeat split; try done. by right.
Qed.

(** *** Allocation *)

Lemma heap_page m id a :
  pages_ok m -> heap m !! id = Some a ->
  exists p, p ∈ page_records m /\ p_allocator p = id /\ page_alloc_ok (p_page p) a.
Proof.
  intros H Ha. assert (Hid : id ∈ dom (heap m)) by (by apply elem_of_dom_2 in Ha).
  rewrite (po_heap m H), elem_of_list_to_set, list_elem_of_fmap in Hid. destruct Hid as (p & -> & Hp).
  destruct (po_page m H p Hp) as (a' & Ha' & Hok). rewrite Ha' in Ha. injection Ha as ->. eauto.
Qed.

Lemma pages_heap_ok m : pages_ok m -> heap_ok (heap m).
Proof. intros H id a Ha. destruct (heap_page m id a H Ha) as (p & _ & _ & Hok). apply Hok. Qed.

Lemma pages_ok_heap m h : pages_ok m -> heap_advanced (heap m) h -> pages_ok (set_heap m h).
Proof.
  intros H [Hd Ha]. split; try apply H.
  - cbn. rewrite Hd. apply H.
  - intros p Hp. destruct (po_page m H p Hp) as (a & Hl & Hok & Hb & Hc & Hrest).
    destruct (Ha _ a Hl) as (a' & Hl' & Eb & Ec & Es & Hok'). exists a'. split; [done|].
    repeat split; try apply Hok'; try apply Hrest; congruence.
Qed.

Lemma placed_heap m h r : heap_advanced (heap m) h -> placed m r -> placed (set_heap m h) r.
Proof.
  intros [_ Ha] (p & a & Hp & Hl & E1 & E2 & E3 & E4 & E5 & E6).
  destruct (Ha _ a Hl) as (a' & Hl' & _ & _ & Es & _). exists p, a'. repeat split; try done. lia.
Qed.

(** A new page joins the allocator. *)
Definition grown (m : MemoryAllocator) (e : bool) (page id : Z) (a : simple_linear_allocator_t) : MemoryAllocator :=
  set_pages m e (page_allocators m e ++ [id]) (page_records m ++ [{| p_allocator := id; p_page := page; p_exec := e |}])
    (<[id := a]> (heap m)) ({[page]} ∪ os_pages m).

Lemma grown_placed m e page id a r : id ∉ dom (heap m) -> placed m r -> placed (grown m e page id a) r.
Proof.
  intros Hid (p & b & Hp & Hl & Hr). exists p, b. split; [cbn; apply elem_of_app; by left|]. split; [|done].
  cbn. rewrite lookup_insert_ne; [done|]. intros ->. by apply Hid, (elem_of_dom_2 _ _ _ Hl).
Qed.

Lemma grown_pages m e page id a :
  pages_ok m -> page ∉ os_pages m -> id ∉ dom (heap m) -> page_alloc_ok page a -> pages_ok (grown m e page id a).
Proof.
  intros H Hpage Hid Ha.
  assert (Hpage' : page ∉ p_page <$> page_records m)
    by (rewrite (po_mapped m H), elem_of_list_to_set in Hpage; done).
  assert (Hid' : id ∉ p_allocator <$> page_records m)
    by (rewrite (po_heap m H), elem_of_list_to_set in Hid; done).
  split; cbn.
  - rewrite fmap_app. cbn. apply nodup_snoc; [done|apply H].
  - rewrite fmap_app. cbn. apply nodup_snoc; [done|apply H].
  - rewrite fmap_app, list_to_set_app_L, (po_mapped m H). cbn. set_solver.
  - rewrite fmap_app, list_to_set_app_L, dom_insert_L, (po_heap m H). cbn. set_solver.
  - intros e'. rewrite list.filter_app, fmap_app, <- (po_lists m H e').
    destruct e, e'; cbn; by rewrite ?app_nil_r.
  - intros p [Hp | ->%list_elem_of_singleton]%elem_of_app.
    + destruct (po_page m H p Hp) as (b & Hb & Hok). exists b. split; [|done].
      rewrite lookup_insert_ne; [done|]. intros E. apply Hid', list_elem_of_fmap. by exists p.
    + exists a. by rewrite lookup_insert_eq.
Qed.

(** Adding a block that meets no other one. *)
Lemma add_record_ok m r :
  records_ok m -> placed m r -> (forall r0, r0 ∈ allocation_records m -> disjoint r0 r) ->
  records_ok (set_records m (allocation_records m ++ [r])).
Proof.
  intros H Hr Hd. assert (Hsz : 0 < r_size r) by (destruct Hr as (p & a & Hr); apply Hr).
  split; cbn.
  - intros r0 [Hr0 | ->%list_elem_of_singleton]%elem_of_app; [apply (ro_placed m H r0 Hr0)|apply Hr].
  - rewrite fmap_app. cbn. apply nodup_snoc; [|apply H].
    intros (r0 & E & Hr0)%list_elem_of_fmap. pose proof (Hd r0 Hr0) as Hdis.
    destruct (ro_placed m H r0 Hr0) as (p & a & _ & _ & _ & _ & Hsz0 & _). unfold disjoint in Hdis. lia.
  - intros r1 r2 [H1 | ->%list_elem_of_singleton]%elem_of_app [H2 | ->%list_elem_of_singleton]%elem_of_app Hne.
    + by apply (ro_disjoint m H).
    + by apply Hd.
    + apply Hd in H2. unfold disjoint in *. lia.
    + done.
Qed.

(** What [OSMemory::Allocate] and [new] promise: an aligned page in the address space and an address, neither of
    them in use. *)
Record os_ok (os : os_answer) (m : MemoryAllocator) : Prop := {
  oo_page : forall page, os_page os = Some page ->
    0 < page /\ page mod PageSize = 0 /\ page + 2 * PageSize < 2 ^ 64 /\ page ∉ os_pages m;
  oo_new : os_new os ∉ dom (heap m);
}.

Lemma fresh_page_ok page :
  0 < page -> page mod PageSize = 0 -> page + 2 * PageSize < 2 ^ 64 -> page_alloc_ok page (init page PageSize 8).
Proof.
  intros Hp Hm Hh. pose proof PageSize_bounds as Hps.
  assert (Hd : (8 | PageSize)).
  { exists (2 ^ (pk - 3)). rewrite page_size. change 8 with (2 ^ 3). rewrite <- Z.pow_add_r by lia. f_equal. lia. }
  assert (page mod 8 = 0).
  { apply Z.mod_divide; [lia|]. apply Z.mod_divide in Hm as [q ->]; [|lia]. by apply Z.divide_mul_r. }
  split; [|done]. split; cbn; try done; try lia. by apply Z.mod_divide.
Qed.

(** The block of [n] bytes at the start of a fresh page. *)
Lemma fresh_page_alloc page n :
  page_alloc_ok page (init page PageSize 8) -> 0 < n <= PageSize ->
  exists a, alloc (init page PageSize 8) n 0 = (Some page, a) /\ page_alloc_ok page a /\ size a = n.
Proof.
  intros [Hok Hrest] Hn. pose proof PageSize_bounds.
  rewrite (alloc_eq _ 3 n Hok) by lia. unfold aligned_size. cbn [init size capacity buffer].
  change (0 + (- 0) mod 2 ^ 3) with 0. rewrite !Z.add_0_l, Z.add_0_r.
  destruct (Z.ltb_spec PageSize n); [lia|]. eexists. split; [reflexivity|]. split; [|done].
  split; [|apply Hrest]. apply with_size_ok; [done|cbn; lia].
Qed.

(** What a granted request gives its client: a block of the right kind, aligned, on a mapped page, that meets no
    live block and joins them. *)
Definition granted (m m' : MemoryAllocator) (b : MemRange) (n : Z) (e : bool) : Prop :=
  exists r, live m' ≡ₚ r :: live m /\ b = {| start_ := r_addr r; rsize := n |} /\
    0 < n <= r_size r /\ r_exec r = e /\ r_addr r mod 8 = 0 /\
    r_page r ∈ os_pages m' /\ 0 < r_page r <= r_addr r /\ r_addr r + r_size r <= r_page r + PageSize /\
    forall r0, r0 ∈ live m -> disjoint r0 r.

Lemma placed_aligned m r : placed m r -> 0 < r_size r /\ r_addr r mod 8 = 0.
Proof. intros (p & a & _ & _ & _ & _ & Hsz & Hm & _). done. Qed.

(** Changing the flag of a record. *)
Lemma reflag_ok m l1 r b l2 :
  records_ok m -> allocation_records m = l1 ++ r :: l2 ->
  records_ok (set_records m (l1 ++ set_is_free r b :: l2)).
Proof.
  intros H E.
  assert (Hold : forall x, x ∈ l1 ++ set_is_free r b :: l2 ->
    exists y, y ∈ allocation_records m /\ x = set_is_free y (r_free x)).
  { intros x. rewrite E, elem_of_app, elem_of_cons. intros [Hx|[->|Hx]].
    - exists x. split; [set_solver|by destruct x].
    - exists r. split; [set_solver|done].
    - exists x. split; [set_solver|by destruct x]. }
  split; cbn.
  - intros x (y & Hy & ->)%Hold. apply (ro_placed m H y Hy).
  - pose proof (ro_addrs m H) as Hnd. rewrite E, fmap_app, fmap_cons in Hnd. by rewrite fmap_app, fmap_cons.
  - intros x x' (y & Hy & ->)%Hold (y' & Hy' & ->)%Hold. apply (ro_disjoint m H y y' Hy Hy').
Qed.

(** Pushing a live record. *)
Lemma push_record_ok m r :
  pages_ok m -> records_ok m -> r_free r = false -> placed m r ->
  (forall r0, r0 ∈ allocation_records m -> disjoint r0 r) ->
  (forall p, p ∈ page_records m -> p_page p = r_page r \/ exists r0, r0 ∈ live m /\ r_page r0 = p_page p) ->
  let m' := set_records m (allocation_records m ++ [r]) in
  mem_ok m' /\ live m' ≡ₚ r :: live m.
Proof.
  intros Hp Hr Hf Hpl Hd Hu m'.
  assert (El : live m' ≡ₚ r :: live m).
  { unfold live, m'. cbn. rewrite live_app, live_cons, Hf. symmetry. apply Permutation_cons_append. }
  split; [|done]. split; [|split].
  - split; apply Hp.
  - by apply add_record_ok.
  - intros p [Hpr | (r0 & Hr0 & Hpr)]%Hu; [exists r|exists r0]; (split; [|done]); rewrite El; set_solver.
Qed.

Lemma grant m0 m m' r n e :
  pages_ok m -> placed m r -> 0 < n <= r_size r -> r_exec r = e -> os_pages m' = os_pages m ->
  live m' ≡ₚ r :: live m0 -> (forall r0, r0 ∈ live m0 -> disjoint r0 r) ->
  granted m0 m' {| start_ := r_addr r; rsize := n |} n e.
Proof.
  intros Hp Hr Hn He Ho Hl Hd. exists r. rewrite Ho.
  pose proof (placed_in_page m r Hp Hr) as (H1 & _ & H2 & H3 & H4).
  pose proof (placed_aligned m r Hr) as [_ H5]. repeat split; try done; lia.
Qed.

Lemma reuse_ok m n e a rs :
  mem_ok m -> 0 < n -> reuse_record (allocation_records m) n e = Some (a, rs) ->
  mem_ok (set_records m rs) /\ granted m (set_records m rs) {| start_ := a; rsize := n |} n e.
Proof.
  intros (Hp & Hr & Hu) Hn (l1 & r & l2 & E & -> & Hf & He & Hsz & ->)%reuse_record_Some.
  assert (Hin : r ∈ allocation_records m) by (rewrite E; set_solver).
  set (m' := set_records m _).
  assert (El : live m' ≡ₚ set_is_free r false :: live m) by (unfold live, m'; cbn; rewrite E; by apply live_reuse).
  split; [split; [|split]|].
  - split; apply Hp.
  - by apply reflag_ok.
  - intros p Hpp. destruct (Hu p Hpp) as (r0 & Hr0 & Er0). exists r0. split; [|done].
    rewrite El. by right.
  - apply (grant m m m' (set_is_free r false)); try done; [apply (ro_placed m Hr r Hin)|].
    intros r0 [Hr0 Hf0]%elem_of_live. pose proof (ro_disjoint m Hr r0 r Hr0 Hin) as Hd.
    apply Hd. intros Ea. pose proof (ro_addrs m Hr) as Hnd.
    apply list_elem_of_lookup in Hr0 as [i Hi], Hin as [j Hj].
    assert (i = j) as ->; [|congruence].
    apply (NoDup_lookup _ i j (r_addr r) Hnd); rewrite list_lookup_fmap, ?Hi, ?Hj; cbn; congruence.
Qed.

(** The record of a new block. *)
Definition fresh_record (p n : Z) (e : bool) : AllocationRecord :=
  {| r_addr := p; r_size := n; r_page := ALIGN_FLOOR p PageSize; r_exec := e; r_free := false |}.

(** A block carved off by a page allocator above its old cursor. *)
Lemma carve_ok m h n e id a a' p :
  mem_ok m -> heap_advanced (heap m) h -> 0 < n -> id ∈ page_allocators m e ->
  heap m !! id = Some a -> h !! id = Some a' -> p mod 8 = 0 -> buffer a + size a <= p -> p + n = buffer a + size a' ->
  let r := fresh_record p n e in
  placed (set_heap m h) r /\ forall r0, r0 ∈ allocation_records m -> disjoint r0 r.
Proof.
  intros (Hp & Hr & Hu) Hadv Hn Hid Ha Ha' Hm Hlo Hhi r.
  rewrite (po_lists m Hp), list_elem_of_fmap in Hid. destruct Hid as (pr & -> & [He Hpr]%list_elem_of_filter).
  destruct (po_page m Hp pr Hpr) as (b & Hb & Hok & Hbuf & Hcap & Hpm & Hpos). rewrite Hb in Ha. injection Ha as ->.
  destruct Hadv as [Hd Hadv]. destruct (Hadv _ _ Hb) as (b' & Hb' & Eb & Ec & Es & Hok').
  rewrite Ha' in Hb'. injection Hb' as <-.
  pose proof (so_size a 3 Hok). pose proof (so_size a' 3 Hok').
  assert (Epage : ALIGN_FLOOR p PageSize = p_page pr) by (apply floor_in_page; [done|lia]).
  assert (Hpl : placed (set_heap m h) r).
  { exists pr, a'. cbn. repeat split; try done; lia. }
  split; [done|]. intros r0 Hr0. pose proof (ro_placed m Hr r0 Hr0) as Hpl0.
  destruct (Z.eq_dec (r_page r0) (p_page pr)) as [Eq|Hne].
  - destruct Hpl0 as (p0 & a0 & Hp0 & Ha0 & E0 & _ & _ & _ & _ & Hend).
    assert (p0 = pr) as -> by (apply (page_inj m); congruence).
    rewrite Hb in Ha0. injection Ha0 as <-. left. cbn. lia.
  - apply (placed_apart (set_heap m h)); [by apply pages_ok_heap|by apply placed_heap|done|]. cbn. by rewrite Epage.
Qed.

Lemma mem_ok_heap m h : mem_ok m -> heap_advanced (heap m) h -> mem_ok (set_heap m h).
Proof.
  intros (Hp & Hr & Hu) Ha. split; [by apply pages_ok_heap|]. split; [|done].
  split; try apply Hr. intros r Hin. apply placed_heap; [done|]. by apply (ro_placed m Hr).
Qed.

Lemma os_ok_heap os m h : os_ok os m -> heap_advanced (heap m) h -> os_ok os (set_heap m h).
Proof. intros [H1 H2] [Hd _]. split; [done|]. cbn. by rewrite Hd. Qed.

Lemma map_page_ok os m n e :
  os_ok os m -> 0 < n <= PageSize ->
  (map_page PageSize os m n e = (None, m) /\ (os_page os = None \/ os_permission os = false)) \/
  exists page a, map_page PageSize os m n e = (Some page, grown m e page (os_new os) a) /\
    page_alloc_ok page a /\ size a = n /\ page ∉ os_pages m.
Proof.
  intros [Hos Hnew] Hn. pose proof PageSize_bounds. unfold map_page.
  destruct (os_page os) as [page|]; [|by auto]. destruct (os_permission os); [|by auto]. right.
  destruct (Hos page eq_refl) as (H1 & H2 & H3 & H4).
  rewrite !wrap_small by lia.
  destruct (fresh_page_alloc page n (fresh_page_ok page H1 H2 H3) Hn) as (a & -> & Ha & Hs). by exists page, a.
Qed.

Lemma grown_record_ok m e page id a n :
  mem_ok m -> page_alloc_ok page a -> size a = n -> 0 < n -> page ∉ os_pages m -> id ∉ dom (heap m) ->
  let r := fresh_record page n e in
  let m1 := grown m e page id a in
  pages_ok m1 /\ records_ok m1 /\ placed m1 r /\ (forall r0, r0 ∈ allocation_records m -> disjoint r0 r) /\
  (forall p, p ∈ page_records m1 -> p_page p = r_page r \/ exists r0, r0 ∈ live m1 /\ r_page r0 = p_page p).
Proof.
  intros (Hp & Hr & Hu) Ha Hs Hn Hpage Hid r m1. pose proof PageSize_bounds.
  assert (Hp1 : pages_ok m1) by (by apply grown_pages). destruct Ha as (Hok & Hb & Hc & Hm & Hpos).
  assert (Ep : ALIGN_FLOOR page PageSize = page) by (apply floor_in_page; [done|lia]).
  assert (Hpl : placed m1 r).
  { exists {| p_allocator := id; p_page := page; p_exec := e |}, a. cbn. rewrite lookup_insert_eq, Ep.
    split; [set_solver|]. repeat split; try done; try lia. rewrite <- Hb. apply (so_buffer_aligned a 3 Hok). }
  assert (Hpl0 : forall r0, r0 ∈ allocation_records m -> placed m1 r0).
  { intros r0 Hr0. apply grown_placed; [done|]. by apply (ro_placed m Hr). }
  split; [done|]. split; [split; [done|apply Hr|apply Hr]|]. split; [done|]. split.
  - intros r0 Hr0. apply (placed_apart m1); [done|by apply Hpl0|done|]. cbn. rewrite Ep. intros E.
    apply Hpage. rewrite <- E. apply (placed_in_page m r0 Hp), (ro_placed m Hr r0 Hr0).
  - intros p [Hpp | ->%list_elem_of_singleton]%elem_of_app; [right|left; cbn; by rewrite Ep].
    by destruct (Hu p Hpp) as (r0 & Hr0 & E0); exists r0.
Qed.

Lemma elem_live m r : r ∈ live m -> r ∈ allocation_records m.
Proof. by intros [? _]%elem_of_live. Qed.

Lemma alloc_block os m n e :
  mem_ok m -> os_ok os m -> 0 <= n ->
  exists b m', allocMemBlockLocked PageSize os m n e = Ret (b, m') /\ mem_ok m' /\
    ((b = MemRange_empty /\ live m' = live m /\
      (n = 0 \/ PageSize < n \/ os_page os = None \/ os_permission os = false)) \/
     granted m m' b n e).
Proof.
  intros Hm Hos Hn. pose proof PageSize_bounds. unfold allocMemBlockLocked.
  destruct (Z.eqb_spec n 0); cbn [orb]; [exists MemRange_empty, m; tauto|].
  destruct (Z.ltb_spec PageSize n); [exists MemRange_empty, m; tauto|].
  destruct (reuse_record _ n e) as [[a rs]|] eqn:Er.
  { destruct (reuse_ok m n e a rs Hm ltac:(lia) Er). eauto 10. }
  destruct (try_pages_spec (page_allocators m e) (heap m) n) as (r & h & -> & Hadv & _ & Hres);
    [lia|by apply pages_heap_ok, Hm| |].
  { intros id Hid. rewrite (po_lists m (proj1 Hm)), list_elem_of_fmap in Hid.
    destruct Hid as (p & -> & [_ Hp]%list_elem_of_filter).
    destruct (po_page m (proj1 Hm) p Hp) as (a & -> & _). by exists a. }
  cbn [mbind outcome_bind]. pose proof (mem_ok_heap m h Hm Hadv) as Hm1.
  destruct r as [p|].
  - destruct (Hres p eq_refl) as (id & a & a' & Hid & Ha & Ha' & Hmod & Hlo & Hhi).
    destruct (carve_ok m h n e id a a' p Hm Hadv ltac:(lia) Hid Ha Ha' Hmod Hlo Hhi) as [Hpl Hd].
    destruct (push_record_ok (set_heap m h) (fresh_record p n e) (proj1 Hm1) (proj1 (proj2 Hm1)) eq_refl Hpl Hd) as [Hok El].
    { intros q Hq. right. by apply (proj2 (proj2 Hm1)). }
    do 2 eexists. split; [reflexivity|]. split; [exact Hok|]. right.
    apply (grant m (set_heap m h) _ (fresh_record p n e)); [apply Hm1|exact Hpl|cbn; lia|done|done|exact El|intros r0 Hr0; by apply Hd, elem_live].
  - destruct (map_page_ok os (set_heap m h) n e (os_ok_heap os m h Hos Hadv) ltac:(lia))
      as [[-> Hno]|(page & a & -> & Ha & Hs & Hpage)].
    { exists MemRange_empty, (set_heap m h). tauto. }
    destruct (grown_record_ok (set_heap m h) e page (os_new os) a n Hm1 Ha Hs ltac:(lia) Hpage)
      as (Hp1 & Hr1 & Hpl & Hd & Hu); [apply (oo_new os (set_heap m h)), os_ok_heap; done|].
    destruct (push_record_ok _ (fresh_record page n e) Hp1 Hr1 eq_refl Hpl Hd Hu) as [Hok El].
    do 2 eexists. split; [reflexivity|]. split; [exact Hok|]. right.
    apply (grant m _ _ (fresh_record page n e) n e Hp1); [exact Hpl|cbn; lia|done|done|exact El|intros r0 Hr0; by apply Hd, elem_live].
Qed.

(** *** Freeing *)

(** The page record in the middle leaves the allocator. *)
Lemma shrink_pages m e l1 p l2 :
  pages_ok m -> page_records m = l1 ++ p :: l2 -> p_exec p = e ->
  pages_ok (set_pages m e (erase_allocator (page_allocators m e) (p_allocator p)) (l1 ++ l2)
              (delete (p_allocator p) (heap m)) (os_pages m ∖ {[p_page p]})).
Proof.
  intros H E He. pose proof (po_pages m H) as Hp. pose proof (po_ids m H) as Hi. pose proof (po_lists m H) as Hl.
  rewrite E, fmap_app, fmap_cons in Hp, Hi.
  apply list.NoDup_app in Hp as (Hp1 & Hp12 & [Hp2 Hp2']%list.NoDup_cons).
  apply list.NoDup_app in Hi as (Hi1 & Hi12 & [Hi2 Hi2']%list.NoDup_cons).
  assert (Hp0 : p_page p ∉ p_page <$> l1) by (intros Hin; apply (Hp12 _ Hin); left).
  assert (Hi0 : p_allocator p ∉ p_allocator <$> l1) by (intros Hin; apply (Hi12 _ Hin); left).
  split; cbn.
  - rewrite fmap_app. apply list.NoDup_app. split; [done|]. split; [|done]. intros x Hx Hx2. apply (Hp12 x Hx). by right.
  - rewrite fmap_app. apply list.NoDup_app. split; [done|]. split; [|done]. intros x Hx Hx2. apply (Hi12 x Hx). by right.
  - rewrite (po_mapped m H), E, !fmap_app, fmap_cons, !list_to_set_app_L, list_to_set_cons.
    apply set_eq. intros x. rewrite elem_of_difference, !elem_of_union, elem_of_singleton, !elem_of_list_to_set.
    split; [tauto|]. intros [Hx|Hx]; (split; [tauto|]); by intros ->.
  - rewrite dom_delete_L, (po_heap m H), E, !fmap_app, fmap_cons, !list_to_set_app_L, list_to_set_cons.
    apply set_eq. intros x. rewrite elem_of_difference, !elem_of_union, elem_of_singleton, !elem_of_list_to_set.
    split; [tauto|]. intros [Hx|Hx]; (split; [tauto|]); by intros ->.
  - intros e'. transitivity (if Bool.eqb e' e then erase_allocator (page_allocators m e) (p_allocator p)
                             else page_allocators m e'); [by destruct e, e'|].
    rewrite !Hl, E, !list.filter_app, !filter_cons, !fmap_app. subst e.
    destruct (Bool.eqb_spec e' (p_exec p)) as [->|Hne].
    + rewrite decide_True by done. rewrite fmap_cons. apply erase_allocator_app.
      intros (q & Eq & [_ Hq]%list_elem_of_filter)%list_elem_of_fmap. apply Hi0. rewrite Eq. by apply list_elem_of_fmap_2.
    + by rewrite decide_False by congruence.
  - intros q Hq. destruct (po_page m H q) as (a & Ha & Hok); [rewrite E; set_solver|]. exists a. split; [|done].
    rewrite lookup_delete_ne; [done|]. intros Ea. apply elem_of_app in Hq as [Hq|Hq].
    + apply Hi0. rewrite Ea. by apply list_elem_of_fmap_2.
    + apply Hi2. rewrite Ea. by apply list_elem_of_fmap_2.
Qed.

Lemma shrink_placed m e ids l1 p l2 mapped r :
  pages_ok m -> page_records m = l1 ++ p :: l2 -> placed m r -> r_page r <> p_page p ->
  placed (set_pages m e ids (l1 ++ l2) (delete (p_allocator p) (heap m)) mapped) r.
Proof.
  intros H E (q & a & Hq & Ha & Eq & Hr) Hne.
  assert (q <> p) by (intros ->; by apply Hne).
  exists q, a. cbn. split; [rewrite E in Hq; set_solver|]. split; [|done].
  rewrite lookup_delete_ne; [done|]. intros Ea. pose proof (po_ids m H) as Hi.
  rewrite E, fmap_app, fmap_cons, <- Permutation_middle in Hi. apply list.NoDup_cons in Hi as [Hi _].
  apply Hi. rewrite Ea, <- fmap_app. apply list_elem_of_fmap_2. rewrite E in Hq. set_solver.
Qed.

Lemma sub_records_ok m m' rs :
  records_ok m -> rs `sublist_of` allocation_records m -> (forall r, r ∈ rs -> placed m' r) ->
  records_ok (set_records m' rs).
Proof.
  intros H Hs Hp. assert (Hin : forall r, r ∈ rs -> r ∈ allocation_records m).
  { intros r Hr. apply (elem_of_submseteq rs); [done|]. by apply sublist_submseteq. }
  split; cbn; [done| |intros r r' Hr Hr'; apply (ro_disjoint m H); by apply Hin].
  apply (sublist_NoDup _ (r_addr <$> allocation_records m)); [apply H|]. by apply fmap_sublist.
Qed.

(** The pages mapped are exactly the pages of the live blocks. *)
Lemma os_pages_live m : mem_ok m -> os_pages m = list_to_set (r_page <$> live m).
Proof.
  intros (Hp & Hr & Hu). rewrite (po_mapped m Hp). apply set_eq. intros x.
  rewrite !elem_of_list_to_set, !list_elem_of_fmap. split.
  - intros (p & -> & Hpp). destruct (Hu p Hpp) as (r & Hl & E). by exists r.
  - intros (r & -> & Hl%elem_live). destruct (ro_placed m Hr r Hl) as (p & a & Hpp & _ & E & _). by exists p.
Qed.

Lemma filter_all {A} (P : A -> Prop) `{!forall x, Decision (P x)} (l : list A) :
  (forall x, x ∈ l -> P x) -> filter P l = l.
Proof.
  induction l as [|x l IH]; [done|]. intros Hl. rewrite filter_cons_True by (apply Hl; left).
  rewrite IH; [done|]. intros y Hy. apply Hl. by right.
Qed.

Lemma live_addr_pos m r : mem_ok m -> r ∈ live m -> 0 < r_addr r.
Proof.
  intros (Hp & Hr & _) Hl%elem_live. pose proof (placed_in_page m r Hp (ro_placed m Hr r Hl)). lia.
Qed.

(** The state after a record was marked free while its page still carries a live block. *)
Lemma marked_used m l1 r l2 e :
  mem_ok m -> allocation_records m = l1 ++ r :: l2 -> r_exec r = e ->
  let rs := l1 ++ set_is_free r true :: l2 in
  (forall p, p ∈ page_records m -> p_page p <> r_page r ->
     exists r0, r0 ∈ live_records rs /\ r_page r0 = p_page p) /\
  (existsb (fun x => on_page (r_page r) e x && negb (r_free x)) rs = true -> used (set_records m rs)).
Proof.
  intros (Hp & Hr & Hu) E He rs.
  assert (Hother : forall p, p ∈ page_records m -> p_page p <> r_page r ->
     exists r0, r0 ∈ live_records rs /\ r_page r0 = p_page p).
  { intros p Hpp Hne. destruct (Hu p Hpp) as (r0 & [Hin Hf]%elem_of_live & E0). exists r0. split; [|done].
    apply elem_of_live. split; [|done]. unfold rs. rewrite E in Hin. assert (r0 <> r) by (by intros ->). set_solver. }
  split; [done|]. intros (x & Hx & [Hon Hf]%andb_true_iff)%existsb_exists p Hpp.
  apply on_page_true in Hon as [Epage _].
  destruct (Z.eq_dec (p_page p) (r_page r)) as [Eq|Hne]; [|by apply Hother].
  exists x. split; [|congruence]. apply elem_of_live. cbn. split; [by apply list_elem_of_In|by apply negb_true_iff].
Qed.

(** The state after the last live block of a page was freed. *)
Lemma released_ok m l1 r l2 p ps1 ps2 :
  mem_ok m -> allocation_records m = l1 ++ r :: l2 -> page_records m = ps1 ++ p :: ps2 ->
  p_page p = r_page r -> p_exec p = r_exec r ->
  let e := r_exec r in
  let rs := l1 ++ set_is_free r true :: l2 in
  mem_ok (set_records
            (set_pages (set_records m rs) e (erase_allocator (page_allocators m e) (p_allocator p)) (ps1 ++ ps2)
               (delete (p_allocator p) (heap m)) (os_pages m ∖ {[r_page r]}))
            (erase_records rs (r_page r) e)).
Proof.
  intros Hm E Ep Epage Eexec e rs. destruct (marked_used m l1 r l2 e Hm E eq_refl) as [Hother _].
  destruct Hm as (Hp & Hr & Hu). set (m' := set_pages _ _ _ _ _ _).
  assert (Hp' : pages_ok m') by (unfold m'; rewrite <- Epage; apply (shrink_pages (set_records m rs) e ps1 p ps2); [split; apply Hp|done|done]).
  pose proof (reflag_ok m l1 r true l2 Hr E) as Hr'. rewrite erase_records_filter.
  split; [split; apply Hp'|split].
  - apply (sub_records_ok _ m' _ Hr'); [apply sublist_filter|].
    intros x [Hon Hx]%list_elem_of_filter. pose proof (ro_placed _ Hr' x Hx) as Hpl.
    apply (shrink_placed (set_records m rs)); [split; apply Hp|done|apply Hpl|].
    intros Eq. apply not_true_iff_false in Hon. apply Hon, on_page_true.
    destruct Hpl as (q & a & Hq & _ & E1 & E2 & _).
    assert (q = p) as -> by (apply (page_inj m); [done|done|rewrite Ep; set_solver|congruence]).
    unfold e. split; congruence.
  - intros q Hq. pose proof (po_pages m Hp) as Hnd. rewrite Ep, fmap_app, fmap_cons, <- Permutation_middle in Hnd.
    apply list.NoDup_cons in Hnd as [Hnp _]. rewrite <- fmap_app in Hnp.
    assert (Hne : p_page q <> r_page r) by (intros Eq; apply Hnp; rewrite Epage, <- Eq; by apply list_elem_of_fmap_2).
    destruct (Hother q) as (r0 & [Hin Hf]%elem_of_live & E0); [rewrite Ep; cbn in Hq; set_solver|done|].
    exists r0. split; [|done]. apply elem_of_live. cbn. split; [|done]. apply list_elem_of_filter. split; [|done].
    apply not_true_iff_false. rewrite on_page_true. intros [? _]. congruence.
Qed.

Lemma free_block m b e :
  mem_ok m -> rsize b <> 0 ->
  exists m', freeMemBlockLocked PageSize m b e = Ret m' /\ mem_ok m' /\
    live m' = filter (fun r => ~ (r_addr r = addr b /\ r_exec r = e)) (live m) /\
    os_pages m' = list_to_set (r_page <$> live m').
Proof.
  intros Hm Hsz. unfold freeMemBlockLocked.
  assert (Hno : (forall r, r ∈ live m -> ~ (r_addr r = addr b /\ r_exec r = e)) ->
    live m = filter (fun r => ~ (r_addr r = addr b /\ r_exec r = e)) (live m)).
  { intros H. symmetry. by apply filter_all. }
  destruct (Z.eqb_spec (addr b) 0) as [E0|_]; cbn [orb].
  { exists m. repeat split; try apply Hm; [|by apply os_pages_live]. apply Hno.
    intros r Hl [E _]. pose proof (live_addr_pos m r Hm Hl). lia. }
  destruct (Z.eqb_spec (rsize b) 0); [done|].
  destruct (mark_free _ _ _) as [rs|] eqn:Ef.
  2:{ exists m. repeat split; try apply Hm; [|by apply os_pages_live]. apply Hno.
      intros r Hl%elem_live [E1 E2]. by apply (mark_free_None _ _ _ r Ef). }
  apply mark_free_Some in Ef as (l1 & r & l2 & E & -> & Ea & <-). set (rs := l1 ++ _ :: l2).
  pose proof Hm as (Hp & Hr & Hu). assert (Hin : r ∈ allocation_records m) by (rewrite E; set_solver).
  pose proof (ro_placed m Hr r Hin) as Hpl. rewrite <- Ea, (placed_floor m r Hp Hpl).
  assert (El : live_records rs = filter (fun x => ~ (r_addr x = r_addr r /\ r_exec x = r_exec r)) (live m)).
  { unfold live, rs. rewrite E. apply live_mark. rewrite <- E. apply Hr. }
  destruct (existsb _ rs) eqn:Ein.
  - exists (set_records m rs). split; [done|].
    assert (Hm' : mem_ok (set_records m rs)).
    { split; [split; apply Hp|]. split; [by apply reflag_ok|]. by apply (marked_used m l1 r l2 (r_exec r)). }
    split; [done|]. split; [done|]. by apply os_pages_live.
  - destruct Hpl as (q & a & Hq & Hla & E1 & E2 & _). cbn [page_records set_records].
    destruct (erase_page _ _ _) as [[id|] ps] eqn:Eer.
    2:{ by destruct (erase_page_None _ _ _ _ q Eer). }
    apply erase_page_Some in Eer as (ps1 & p & ps2 & Ep & -> & <- & Epage & Eexec).
    assert (p = q) as -> by (apply (page_inj m); [done|rewrite Ep; set_solver|done|congruence]).
    cbn [heap set_records]. rewrite Hla.
    pose proof (released_ok m l1 r l2 q ps1 ps2 Hm E Ep Epage Eexec) as Hm'.
    eexists. split; [reflexivity|]. split; [exact Hm'|]. split; [|by apply os_pages_live].
    unfold live at 1. cbn [allocation_records set_records]. by rewrite live_erase.
Qed.

(** C13: In a well-formed state, with an operating system that maps fresh aligned pages, allocation never faults and
    keeps the state well formed.  It returns the empty block, changing no live block, only if the size is 0 or
    larger than a page or the operating system refuses; otherwise it grants a block of the requested kind and size,
    8-byte aligned, on a mapped page, that overlaps no live block. *)
Theorem alloc_block_spec os m n e :
  mem_ok m -> os_ok os m -> 0 <= n ->
  exists b m', allocMemBlockLocked PageSize os m n e = Ret (b, m') /\ mem_ok m' /\
    ((b = MemRange_empty /\ live m' = live m /\
      (n = 0 \/ PageSize < n \/ os_page os = None \/ os_permission os = false)) \/
     granted m m' b n e).
Proof. apply alloc_block. Qed.

(** C16: Freeing never faults, keeps the state well formed and takes exactly the given block (of the given kind) out
    of the live blocks, every other live block staying mapped; a free of a block that is not live changes nothing
    a client can see.  Afterwards the mapped pages are exactly the pages that carry a live block. *)
Theorem free_block_spec m b e :
  mem_ok m -> rsize b <> 0 ->
  exists m', freeMemBlockLocked PageSize m b e = Ret m' /\ mem_ok m' /\
    live m' = filter (fun r => ~ (r_addr r = addr b /\ r_exec r = e)) (live m) /\
    os_pages m' = list_to_set (r_page <$> live m').
Proof. apply free_block. Qed.

End Spec.

(** ** Concrete states *)

Definition sample_os : os_answer := {| os_page := Some 0x10000; os_permission := true; os_new := 1 |}.

Lemma sample_os_ok : os_ok 4096 sample_os MemoryAllocator_new.
Proof. split; [|cbn; set_solver]. intros page [= <-]. by repeat split. Qed.

Example alloc_block_spec_witness :
  exists b m', allocMemBlockLocked 4096 sample_os MemoryAllocator_new 20 true = Ret (b, m') /\
    b = {| start_ := 0x10000; rsize := 20 |} /\ mem_ok 4096 m'.
Proof.
  destruct (alloc_block_spec 4096 12 eq_refl ltac:(lia) sample_os MemoryAllocator_new 20 true
              (mem_ok_new 4096) sample_os_ok ltac:(lia)) as (b & m' & E & Hok & _).
  exists b, m'. split; [done|]. split; [|done]. vm_compute in E. by injection E as <- _.
Defined.

(** One page with one live block. *)
Definition sample_state : MemoryAllocator :=
  let m := grown MemoryAllocator_new true 0x10000 1 (with_size (init 0x10000 4096 8) 20) in
  set_records m [fresh_record 4096 0x10000 20 true].

Lemma sample_state_ok : mem_ok 4096 sample_state.
Proof.
  destruct (grown_record_ok 4096 12 eq_refl ltac:(lia) MemoryAllocator_new true 0x10000 1
              (with_size (init 0x10000 4096 8) 20) 20) as (Hp & Hr & Hpl & Hd & Hu); try done.
  - apply mem_ok_new.
  - exact (proj1 (push_record_ok 4096 12 eq_refl ltac:(lia) _ (fresh_record 4096 0x10000 20 true) Hp Hr eq_refl Hpl Hd Hu)).
Qed.

Example free_block_spec_witness :
  exists m', freeMemBlockLocked 4096 sample_state {| start_ := 0x10000; rsize := 20 |} true = Ret m' /\
    live m' = [] /\ os_pages m' = ∅.
Proof.
  destruct (free_block_spec 4096 12 eq_refl ltac:(lia) sample_state {| start_ := 0x10000; rsize := 20 |} true
              sample_state_ok ltac:(cbn; lia)) as (m' & E & _ & El & Eo).
  assert (El0 : live m' = []) by (rewrite El; reflexivity).
  exists m'. split; [done|]. split; [done|]. rewrite Eo, El0. reflexivity.
Defined.
