(* ===== verification/HookRouting.v ===== *)
(** * Installing a hook (source/Interceptor.h, source/InterceptRouting, AssemblerCodeBuilder.h)

    The path of [DobbyHookEx]: trampoline generation, relocation of the instructions
    it overwrites into an executable block, backup and activation, with every early
    return.  [core] is what these share: the address space and the page allocator.
    What the kernel answers to one call of the allocator is in [answers].  An [Entry *]
    is owned by the table, so the table holds the entries; a [DobbyHookHandle *] is
    shared with the caller, so it is an index into [handles].  The runtime registry
    ([HookRuntime], which is not part of the sources) is the parameter [Upsert].  The
    platform is Linux or Android on ARM64, without pointer authentication. *)

From stdpp Require Import gmap.
From S2P Require Import Prelude UtilityMacro CodeMemBuffer Arm64Assembler Arm64Relocation.
From S2P Require Import Arm64Trampoline CodePatch MemoryAllocator.
#[local] Open Scope Z_scope.
#[local] Open Scope machine_scope.

Record core := { space : vm; gMemoryAllocator : MemoryAllocator }.

Definition with_space (c : core) (v : vm) : core := {| space := v; gMemoryAllocator := gMemoryAllocator c |}.

Record answers := { os_alloc : os_answer; near_block : Z }.

(** [features::arm_thumb_fix_addr]. *)
Definition arm_thumb_fix_addr (a : Z) : Z := a .& Z.lnot 1.

(** Bytes of an owned buffer; reading an unset one is undefined. *)
Fixpoint defined_bytes (l : list (option Z)) : outcome (list Z) :=
  match l with
  | [] => Ret []
  | Some b :: l => bs ← defined_bytes l; Ret (b :: bs)
  | None :: _ => UB
  end.

Section Hook.

(** [OSMemory::PageSize()], and the build's [ANDROID] macro. *)
Variable PageSize : Z.
Variable ANDROID : bool.

(** What the kernel does when the allocator's set of pages changes: a new page is zero-filled and gets its
    protection, a released one leaves the address space. *)
Definition os_effect (is_exec : bool) (m m' : MemoryAllocator) (v : vm) : vm :=
  let gained := os_pages m' ∖ os_pages m in
  let lost := os_pages m ∖ os_pages m' in
  {| vm_mem := fun a => if decide (ALIGN_FLOOR a PageSize ∈ gained) then 0 else vm_mem v a;
     vm_prot := gset_to_gmap (PROT_READ .| if is_exec then PROT_EXEC else PROT_WRITE) gained
                ∪ (vm_prot v ∖ gset_to_gmap 0 lost);
     vm_answers := vm_answers v |}.

Definition allocExecBlock (os : os_answer) (size : Z) (c : core) : outcome (MemRange * core) :=
  '(block, m) ← allocMemBlockLocked PageSize os (gMemoryAllocator c) size true;
  Ret (block, {| space := os_effect true (gMemoryAllocator c) m (space c); gMemoryAllocator := m |}).

Definition freeExecBlock (block : MemRange) (c : core) : outcome core :=
  m ← freeMemBlockLocked PageSize (gMemoryAllocator c) block true;
  Ret {| space := os_effect true (gMemoryAllocator c) m (space c); gMemoryAllocator := m |}.

(** [features::android::make_memory_readable(address, 4)]. *)
Definition make_memory_readable (address : Z) (c : core) : core :=
  if ANDROID
  then with_space c (snd (mprotect (ALIGN_FLOOR address PageSize) (PROT_READ .| PROT_EXEC) (space c)))
  else c.

(** [AssemblerCodeBuilder::FinalizeFromTurboAssembler]; the result of the patch is dropped. *)
Definition FinalizeFromTurboAssembler (os : os_answer) (assembler : AssemblerT MemBuffer) (c : core)
    : outcome (MemRange * core) :=
  code ← dup (code_buffer_ assembler);
  data ← defined_bytes code;
  let buffer_size := size (code_buffer_ assembler) in
  '(fixed_addr, c) ←
    (if fixed_addr assembler =? 0 then
       '(block, c) ← allocExecBlock os buffer_size c;
       Ret (addr block, c)
     else Ret (fixed_addr assembler, c));
  if fixed_addr =? 0 then Ret (MemRange_empty, c)
  else
    '(_, v) ← DobbyCodePatch PageSize fixed_addr data (space c);
    Ret ({| start_ := fixed_addr; rsize := buffer_size |}, with_space c v).

(** [GenRelocateCodeAndBranch]: the origin block with its final size, and the relocated one.  The instructions are
    read in words. *)
Definition GenRelocateCodeAndBranch (os : os_answer) (origin : MemRange) (c : core)
    : outcome (MemRange * MemRange * core) :=
  code ← memcpy_from PageSize (space c) (addr origin) (Z.to_nat (ALIGN_CEIL (rsize origin) 4));
  '(relo_size, assembler) ← relocate (Buf := MemBuffer) (addr origin) (rsize origin) code true;
  '(relocated, c) ← FinalizeFromTurboAssembler os assembler c;
  Ret (resize origin relo_size, relocated, c).

(** ** Interceptor::Entry *)

Record Entry := {
  id : Z;
  fake_func_addr : Z;
  e_addr : Z;
  patched : MemRange;
  relocated : MemRange;
  handle : option nat;
  origin_code_ : option (list Z);
}.

Definition set_blocks (e : Entry) (p r : MemRange) : Entry :=
  {| id := id e; fake_func_addr := fake_func_addr e; e_addr := e_addr e; patched := p; relocated := r;
     handle := handle e; origin_code_ := origin_code_ e |}.
Definition set_origin_code (e : Entry) (o : option (list Z)) : Entry :=
  {| id := id e; fake_func_addr := fake_func_addr e; e_addr := e_addr e; patched := patched e;
     relocated := relocated e; handle := handle e; origin_code_ := o |}.
Definition set_handle (e : Entry) (h : option nat) : Entry :=
  {| id := id e; fake_func_addr := fake_func_addr e; e_addr := e_addr e; patched := patched e;
     relocated := relocated e; handle := h; origin_code_ := origin_code_ e |}.

Definition backup_orig_code (e : Entry) (c : core) : outcome Entry :=
  let tramp_size := u32 (rsize (patched e)) in
  if (e_addr e =? 0) || (tramp_size =? 0) then Ret (set_origin_code e None)
  else
    bytes ← memcpy_from PageSize (space c) (e_addr e) (Z.to_nat tramp_size);
    Ret (set_origin_code e (Some bytes)).

Definition restore_orig_code (e : Entry) (c : core) : outcome (Entry * core) :=
  match origin_code_ e with
  | None => Ret (e, c)
  | Some bytes =>
      if (rsize (patched e) =? 0) || (addr (patched e) =? 0) then Ret (e, c)
      else
        '(_, v) ← DobbyCodePatch PageSize (addr (patched e)) bytes (space c);
        Ret (set_origin_code e None, with_space c v)
  end.

Definition release_relocated_code (e : Entry) (c : core) : outcome (Entry * core) :=
  if negb (addr (relocated e) =? 0) && negb (rsize (relocated e) =? 0) then
    c ← freeExecBlock (relocated e) c;
    Ret (set_blocks e (patched e) MemRange_empty, c)
  else Ret (e, c).

(** ** InterceptRouting *)

Record InterceptRouting := {
  trampoline : option Trampoline;
  near_trampoline : option Trampoline;
  error : bool;
}.

Definition the_trampoline (r : InterceptRouting) : option Trampoline :=
  match near_trampoline r with Some t => Some t | None => trampoline r end.
Definition trampoline_size (r : InterceptRouting) : Z :=
  match the_trampoline r with Some t => Z.of_nat (length (Arm64Trampoline.buffer t)) | None => 0 end.
Definition set_error (r : InterceptRouting) : InterceptRouting :=
  {| trampoline := trampoline r; near_trampoline := near_trampoline r; error := true |}.

(** [GenerateTrampoline]; the forward trampoline of a near one is written to the block the near allocator gave. *)
Definition GenerateTrampoline (g_enable_near_trampoline : bool) (near_block : Z) (e : Entry) (to : Z) (c : core)
    : outcome (InterceptRouting * core) :=
  let from := arm_thumb_fix_addr (e_addr e) in
  '(near, c) ←
    (if g_enable_near_trampoline then
       r ← GenerateNearTrampolineBuffer near_block from to;
       match r with
       | None => Ret (None, c)
       | Some (t, None) => Ret (Some t, c)
       | Some (t, Some forward) =>
           data ← defined_bytes (Arm64Trampoline.buffer forward);
           '(_, v) ← DobbyCodePatch PageSize near_block data (space c);
           Ret (Some t, with_space c v)
       end
     else Ret (None, c));
  match near with
  | Some t => Ret ({| trampoline := None; near_trampoline := Some t; error := false |}, c)
  | None =>
      t ← GenerateNormalTrampolineBuffer from to;
      Ret ({| trampoline := Some t; near_trampoline := None; error := false |}, c)
  end.

Definition GenerateRelocatedCode (os : os_answer) (r : InterceptRouting) (e : Entry) (c : core)
    : outcome (InterceptRouting * Entry * core) :=
  if error r then Ret (r, e, c)
  else match the_trampoline r with
  | None => Ret (set_error r, e, c)
  | Some _ =>
      let code_addr := arm_thumb_fix_addr (e_addr e) in
      let origin := {| start_ := code_addr; rsize := trampoline_size r |} in
      '(origin, relocated, c) ← GenRelocateCodeAndBranch os origin c;
      if rsize relocated =? 0 then Ret (set_error r, e, c)
      else Ret (r, set_blocks e origin relocated, c)
  end.

(** [InlineHookRouting::BuildRouting]. *)
Definition BuildRouting (near : bool) (ans : answers) (e : Entry) (fake_func : Z) (c : core)
    : outcome (InterceptRouting * Entry * core) :=
  '(r, c) ← GenerateTrampoline near (near_block ans) e fake_func c;
  '(r, e, c) ← GenerateRelocatedCode (os_alloc ans) r e c;
  e ← backup_orig_code e c;
  Ret (r, e, c).

Definition Active (r : InterceptRouting) (e : Entry) (c : core) : outcome (InterceptRouting * core) :=
  match the_trampoline r with
  | Some t =>
      if error r || (trampoline_size r =? 0) then Ret (set_error r, c)
      else
        data ← defined_bytes (Arm64Trampoline.buffer t);
        '(ret, v) ← DobbyCodePatch PageSize (e_addr e) data (space c);
        Ret (if ret =? 0 then r else set_error r, with_space c v)
  | None => Ret (set_error r, c)
  end.

(** ** The table and the public operations *)

Record DobbyHookHandle := {
  h_id : Z;
  target : Z;
  h_origin : Z;
  active : bool;
  h_entry : option Z;     (** the entry, by its number; [None] is [nullptr] *)
}.

Record HookRecord := {
  k_target : Z;
  k_replace : Z;
  k_backup : Z;
  k_trampoline : Z;
  k_enabled : bool;
  k_patch_addr : Z;
  k_patch_size : Z;
}.

Context {R : Type} (Upsert : HookRecord -> R -> R).

Record world := {
  w_core : core;
  next_entry_id_ : Z;
  entries : list Entry;
  handles : list DobbyHookHandle;
  runtime : R;
}.

Definition with_core (w : world) (c : core) : world :=
  {| w_core := c; next_entry_id_ := next_entry_id_ w; entries := entries w; handles := handles w; runtime := runtime w |}.
Definition with_handles (w : world) (hs : list DobbyHookHandle) : world :=
  {| w_core := w_core w; next_entry_id_ := next_entry_id_ w; entries := entries w; handles := hs; runtime := runtime w |}.

(** [Interceptor::find], [remove] and [add]. *)
Fixpoint find (es : list Entry) (a : Z) : option Entry :=
  match es with
  | [] => None
  | e :: es => if addr (patched e) =? a then Some e else find es a
  end.
Fixpoint remove (es : list Entry) (a : Z) : option Entry * list Entry :=
  match es with
  | [] => (None, [])
  | e :: es => if addr (patched e) =? a then (Some e, es) else let '(r, es) := remove es a in (r, e :: es)
  end.
Definition add (es : list Entry) (e : Entry) : list Entry := es ++ [e].

Definition retire (h : DobbyHookHandle) : DobbyHookHandle :=
  {| h_id := h_id h; target := target h; h_origin := h_origin h; active := false; h_entry := None |}.

(** [delete entry]. *)
Definition delete_entry (e : Entry) (w : world) : outcome world :=
  '(e, c) ← restore_orig_code e (w_core w);
  '(e, c) ← release_relocated_code e c;
  let w := with_core w c in
  Ret (match handle e with
       | Some h => with_handles w (alter retire h (handles w))
       | None => w
       end).

(** What the caller gets: the return value and what is stored through [out_origin_func] and [out_handle]. *)
Record hook_result := { ret : Z; out_origin_func : option Z; out_handle : option nat }.
Definition failed : hook_result := {| ret := -1; out_origin_func := None; out_handle := None |}.

(** [new Interceptor::Entry], with the next number. *)
Definition new_entry (address fake_func : Z) (w : world) : Entry * world :=
  ({| id := next_entry_id_ w; fake_func_addr := fake_func; e_addr := address; patched := MemRange_empty;
      relocated := MemRange_empty; handle := None; origin_code_ := None |},
   {| w_core := w_core w; next_entry_id_ := u32 (next_entry_id_ w + 1); entries := entries w;
      handles := handles w; runtime := runtime w |}).

(** The end of [DobbyHookEx], after activation. *)
Definition publish (address fake_func : Z) (want_origin want_handle : bool) (e : Entry) (w : world)
    : hook_result * world :=
  let origin_func := addr (relocated e) in
  let h := length (handles w) in
  let new_handle := {| h_id := id e; target := address; h_origin := origin_func; active := true; h_entry := Some (id e) |} in
  let e := if want_handle then set_handle e (Some h) else e in
  let runtime_record :=
    {| k_target := address; k_replace := fake_func; k_backup := if want_origin then origin_func else 0;
       k_trampoline := origin_func; k_enabled := true; k_patch_addr := addr (patched e);
       k_patch_size := rsize (patched e) |} in
  ({| ret := 0; out_origin_func := if want_origin then Some origin_func else None;
      out_handle := if want_handle then Some h else None |},
   {| w_core := w_core w; next_entry_id_ := next_entry_id_ w; entries := add (entries w) e;
      handles := if want_handle then handles w ++ [new_handle] else handles w;
      runtime := Upsert runtime_record (runtime w) |}).

(** [DobbyHookEx(address, fake_func, out_origin_func, out_handle)]; [want_origin] and [want_handle] say whether the
    two pointers are not null. *)
Definition DobbyHookEx (near : bool) (ans : answers) (address fake_func : Z) (want_origin want_handle : bool)
    (w : world) : outcome (hook_result * world) :=
  if (address =? 0) || (fake_func =? 0) then Ret (failed, w)
  else
    let w := with_core w (make_memory_readable address (w_core w)) in
    match find (entries w) address with
    | Some _ => Ret (failed, w)
    | None =>
        let '(entry, w) := new_entry address fake_func w in
        '(routing, entry, c) ← BuildRouting near ans entry fake_func (w_core w);
        if error routing then w ← delete_entry entry (with_core w c); Ret (failed, w)
        else
          '(routing, c) ← Active routing entry c;
          if error routing then
            '(entry, c) ← restore_orig_code entry c;
            w ← delete_entry entry (with_core w c);
            Ret (failed, w)
          else Ret (publish address fake_func want_origin want_handle entry (with_core w c))
    end.

Definition DobbyHook (near : bool) (ans : answers) (address fake_func : Z) (want_origin : bool) (w : world)
    : outcome (hook_result * world) :=
  DobbyHookEx near ans address fake_func want_origin false w.

End Hook.
