(* ===== verification/HookBlocks.v ===== *)
(** * Building blocks of the hook's correctness

    Facts that connect the components on the path of a hook: the relocator never fixes
    its own address and its output is small, an executable block is allocated,
    written and released without disturbing anybody else's memory, and the memory of
    the hooked function can be read and patched. *)

From stdpp Require Import gmap.
From S2P Require Import Prelude UtilityMacro CodeMemBuffer Arm64Kit Arm64Assembler Arm64Relocation.
From S2P Require Import Arm64Machine BitFields Arm64Simulation Arm64Trampoline CodePatch LinearAllocator.
From S2P Require Import MemoryAllocator MemoryAllocatorSpec HookRouting.
#[local] Open Scope Z_scope.

(** ** The assembler's address *)

(** An emitting operation that leaves [fixed_addr] alone. *)
Definition keeps {Buf} (f : AssemblerT Buf -> outcome (AssemblerT Buf)) : Prop :=
  forall a a', f a = Ret a' -> fixed_addr a' = fixed_addr a.

Create HintDb keeps.

Section Keeps.
Context {Buf : Type} `{CB : CodeBuffer Buf}.

Lemma keeps_Ret : keeps (Buf := Buf) Ret.
Proof. by intros a a' [= ->]. Qed.

Lemma keeps_Emit v : keeps (Buf := Buf) (Emit v).
Proof. intros a a'. unfold Emit. destruct (cb_emit _ _); [|done|done]. by intros [= <-]. Qed.

Lemma keeps_bind (f g : AssemblerT Buf -> outcome (AssemblerT Buf)) :
  keeps f -> keeps g -> keeps (fun a => a ← f a; g a).
Proof. intros Hf Hg a a' (a1 & E1 & E2)%outcome_bind_Ret. by rewrite (Hg _ _ E2), (Hf _ _ E1). Qed.

Lemma keeps_branching (b : bool) (f g : AssemblerT Buf -> outcome (AssemblerT Buf)) :
  keeps f -> keeps g -> keeps (fun a => if b then f a else g a).
Proof. by destruct b. Qed.

Lemma keeps_Fatal : keeps (Buf := Buf) (fun _ => Fatal).
Proof. done. Qed.

Hint Resolve keeps_Ret keeps_Emit keeps_bind keeps_branching keeps_Fatal : keeps.

Lemma keeps_Mov rd imm : keeps (Buf := Buf) (Mov rd imm).
Proof. unfold Mov, movz, movk, MoveWide. auto 10 with keeps. Qed.

Lemma keeps_ldr rt m : keeps (Buf := Buf) (ldr rt m).
Proof. unfold ldr, LoadStore. auto with keeps. Qed.

Lemma keeps_Ldr label : keeps (Buf := Buf) (Ldr TMP_REG_0 label).
Proof.
  intros a a'. unfold Ldr. destruct (_ !! _); [|done]. cbn [ldr_literal reg_type_ TMP_REG_0 X].
  intros E. by apply keeps_Emit in E.
Qed.
Hint Resolve keeps_Mov keeps_ldr keeps_Ldr : keeps.

Lemma keeps_label dst (f : nat -> AssemblerT Buf -> outcome (AssemblerT Buf)) :
  (forall l, keeps (f l)) -> keeps (fun a => let '(l, a) := createDataLabel dst a in f l a).
Proof. intros Hf a a' E. by apply Hf in E. Qed.

Lemma keeps_branch pre dst link : keeps (Buf := Buf) pre -> keeps (emit_branch pre dst link).
Proof. intros Hp. apply keeps_label. intros l. unfold blr, br. auto with keeps. Qed.

Lemma keeps_LiteralLdrBranch dst : keeps (Buf := Buf) (LiteralLdrBranch dst).
Proof. apply keeps_label. intros l. unfold br. auto with keeps. Qed.
Hint Resolve keeps_branch keeps_LiteralLdrBranch : keeps.

Lemma keeps_relocate_inst pc inst : keeps (Buf := Buf) (relocate_inst pc inst).
Proof. unfold relocate_inst. auto 20 with keeps. Qed.

Lemma keeps_relocate_loop code fuel : forall origin preferred n a m a',
  relocate_loop (Buf := Buf) fuel origin preferred n code a = Ret (m, a') -> fixed_addr a' = fixed_addr a.
Proof.
  induction fuel as [|fuel IH]; intros origin preferred n a m a'; cbn [relocate_loop];
    (destruct (n <? preferred); [|by intros [= _ ->]]); [done|].
  intros (inst & _ & (a1 & E1 & E2)%outcome_bind_Ret)%outcome_bind_Ret.
  by rewrite (IH _ _ _ _ _ _ E2), (keeps_relocate_inst _ _ _ _ E1).
Qed.

Lemma keeps_reloc_labels ls : forall a ls' a',
  reloc_labels (Buf := Buf) ls a = Ret (ls', a') -> fixed_addr a' = fixed_addr a.
Proof.
  induction ls as [|l ls IH]; intros a ls' a'; cbn [reloc_labels]; [by intros [= _ ->]|].
  intros ([l1 a1] & E1 & ([ls2 a2] & E2 & [= _ ->])%outcome_bind_Ret)%outcome_bind_Ret.
  rewrite (IH _ _ _ E2). unfold bind_and_emit in E1.
  apply outcome_bind_Ret in E1 as (b1 & _ & (b2 & _ & [= _ <-])%outcome_bind_Ret). done.
Qed.

(** The assembler of a relocation is still without an address. *)
Lemma relocate_fixed_addr origin size code branch m a :
  relocate (Buf := Buf) origin size code branch = Ret (m, a) -> fixed_addr a = 0.
Proof.
  unfold relocate. intros ([m1 a1] & E1 & (a2 & E2 & (a3 & E3 & [= _ <-])%outcome_bind_Ret)%outcome_bind_Ret)%outcome_bind_Ret.
  unfold relocDataLabels in E3. apply outcome_bind_Ret in E3 as ([ls a4] & E4 & [= <-]). cbn [fixed_addr with_labels].
  rewrite (keeps_reloc_labels _ _ _ _ E4), <- (keeps_relocate_loop _ _ _ _ _ _ _ _ E1 : _ = 0).
  destruct branch; [by apply keeps_LiteralLdrBranch in E2|by injection E2 as <-].
Qed.

End Keeps.

(** ** The size of relocated code *)

Definition item_small (it : item) : Prop := (length (i_words it) <= 5)%nat.

Lemma relo_item_small pc inst it : relo_item pc inst = Some it -> item_small it.
Proof.
  unfold relo_item, item_small. repeat match goal with |- context [if ?b then _ else _] => destruct b end;
    intros [= <-]; cbn; lia.
Qed.

Lemma relo_items_small insts : forall pc its,
  relo_items pc insts = Some its -> length its = length insts /\ Forall item_small its.
Proof.
  induction insts as [|w insts IH]; intros pc its; cbn [relo_items]; [by intros [= <-]|].
  destruct (relo_item pc w) as [it|] eqn:E; [|done]. cbn [mbind option_bind].
  destruct (relo_items _ insts) as [its'|] eqn:E'; [|done]. intros [= <-].
  destruct (IH _ _ E') as [Hl Hs]. split; [cbn; lia|]. constructor; [by apply relo_item_small in E|done].
Qed.

Lemma small_words its : Forall item_small its -> (length (all_words its) <= 5 * length its)%nat.
Proof.
  induction 1 as [|it its Hit _ IH]; [done|]. unfold all_words in *. cbn [map concat length].
  rewrite length_app. unfold item_small in Hit. lia.
Qed.

Lemma lits_length its : forall o, (length (all_lits o its) <= length its)%nat.
Proof.
  induction its as [|it its IH]; intros o; [done|]. cbn [all_lits length]. rewrite length_app.
  specialize (IH (o + length (i_words it))%nat). destruct (i_lit it) as [[]|]; cbn; lia.
Qed.

Lemma relo_bytes_length its :
  Z.of_nat (length (relo_bytes its))
  = 4 * Z.of_nat (length (all_words its)) + 8 * Z.of_nat (length (all_lits 0 its)).
Proof. unfold relo_bytes. rewrite length_app, length_flat, length_patch, length_lit_bytes. lia. Qed.

(** At most 28 bytes per instruction, the jump back included. *)
Lemma relo_block_length origin n code its :
  relo_block origin n code true = Some its -> 0 <= n ->
  0 < Z.of_nat (length (relo_bytes its)) <= 28 * (n + 1).
Proof.
  unfold relo_block. intros E Hn. destruct (relo_items _ _) as [its0|] eqn:E0; [|done]. injection E as <-.
  destruct (relo_items_small _ _ _ E0) as [Hl Hs]. unfold words_from in Hl. rewrite length_map, length_seq in Hl.
  rewrite relo_bytes_length. set (its := its0 ++ _).
  assert (Hs' : Forall item_small its) by (apply Forall_app; split; [done|]; constructor; [unfold item_small; cbn; lia|done]).
  pose proof (small_words its Hs') as Hw. pose proof (lits_length its 0) as Hli.
  assert (El : length its = S (Z.to_nat n)) by (unfold its; rewrite length_app, Hl; cbn; lia).
  rewrite El in Hw, Hli. split; [|lia].
  unfold its. rewrite all_words_app, length_app. cbn. lia.
Qed.

(** ** Patched memory *)

Lemma patch_mem_in m a l i : (i < length l)%nat -> patch_mem m a l (a + Z.of_nat i) = nth i l 0.
Proof.
  intros Hi. unfold patch_mem. destruct (Z.leb_spec a (a + Z.of_nat i)); [|lia].
  destruct (Z.ltb_spec (a + Z.of_nat i) (a + Z.of_nat (length l))); [|lia]. cbn. f_equal. lia.
Qed.

Lemma patch_mem_out m a l x : x < a \/ a + Z.of_nat (length l) <= x -> patch_mem m a l x = m x.
Proof.
  intros Hx. unfold patch_mem. destruct (Z.leb_spec a x); [|done].
  destruct (Z.ltb_spec x (a + Z.of_nat (length l))); [lia|done].
Qed.

Definition bytes_at (c : core) (address : Z) (n : nat) : list Z :=
  map (fun i => vm_mem (space c) (address + Z.of_nat i)) (seq 0 n).

Lemma length_bytes_at c address n : length (bytes_at c address n) = n.
Proof. unfold bytes_at. by rewrite length_map, length_seq. Qed.

Lemma nth_bytes_at c address n i : (i < n)%nat -> nth i (bytes_at c address n) 0 = vm_mem (space c) (address + Z.of_nat i).
Proof.
  intros Hi. unfold bytes_at.
  rewrite nth_indep with (d' := vm_mem (space c) (address + Z.of_nat 0)) by (rewrite length_map, length_seq; lia).
  by rewrite (map_nth (fun i => vm_mem (space c) (address + Z.of_nat i))), seq_nth by lia.
Qed.

Lemma bytes_at_ext c c' address n :
  (forall a, address <= a < address + Z.of_nat n -> vm_mem (space c') a = vm_mem (space c) a) ->
  bytes_at c' address n = bytes_at c address n.
Proof. intros H. apply map_ext_in. intros i Hi%in_seq. apply H. lia. Qed.

Lemma defined_bytes_ok l : defined_bytes (map Some l) = Ret l.
Proof. induction l as [|x l IH]; [done|]. cbn [map defined_bytes]. by rewrite IH. Qed.

(** ** Executable blocks *)

Section Blocks.
Context (PageSize pk : Z).
Hypothesis page_size : PageSize = 2 ^ pk.
Hypothesis pk_range : 12 <= pk < 31.

Abbreviation page_of a := (ALIGN_FLOOR a PageSize) (only parsing).
Abbreviation pages c := (os_pages (gMemoryAllocator c)).
Abbreviation blocks c := (live (gMemoryAllocator c)).
Abbreviation memory c := (vm_mem (space c)).

(** The kernel refuses no protection change. *)
Definition quiet (c : core) : Prop := false ∉ vm_answers (space c).

(** The allocator is well formed and its pages are in the address space, readable. *)
Record core_ok (c : core) : Prop := {
  co_alloc : mem_ok PageSize (gMemoryAllocator c);
  co_mapped : forall p, p ∈ pages c -> page_has (space c) PROT_READ p = true;
}.

(** What the kernel promises about a page it hands out: it was not in use. *)
Record answer_ok (os : os_answer) (c : core) : Prop := {
  an_os : os_ok PageSize os (gMemoryAllocator c);
  an_fresh : forall p, os_page os = Some p -> vm_prot (space c) !! p = None;
}.

(** An address of a block that is handed out. *)
Definition owned (c : core) (a : Z) : Prop := exists r, r ∈ blocks c /\ r_addr r <= a < r_addr r + r_size r.

Lemma PageSize_4096 : 4096 <= PageSize < 2 ^ 31.
Proof. rewrite page_size. split; [apply (Z.pow_le_mono_r 2 12 pk); lia|apply Z.pow_lt_mono_r; lia]. Qed.

Lemma alloc_pages os m n e b m' :
  allocMemBlockLocked PageSize os m n e = Ret (b, m') ->
  forall p, p ∈ os_pages m' -> p ∈ os_pages m \/ os_page os = Some p.
Proof.
  unfold allocMemBlockLocked. destruct (_ || _); [intros [= _ <-]; by left|].
  destruct (reuse_record _ _ _) as [[a rs]|]; [intros [= _ <-]; by left|].
  destruct (try_pages _ _ _) as [[r h]| |]; [|done|done]. cbn [mbind outcome_bind].
  destruct r as [q|]; [intros [= _ <-]; by left|].
  unfold map_page. destruct (os_page os) as [page|]; [|intros [= _ <-]; by left].
  destruct (os_permission os); [|intros [= _ <-]; by left].
  destruct (alloc _ _ _) as [[q|] a]; intros [= _ <-] p; cbn [os_pages set_records set_pages];
    rewrite elem_of_union, elem_of_singleton; intros [->|]; auto.
Qed.

(** The addresses of a live block lie on its page, which is mapped. *)
Lemma live_page m r a :
  mem_ok PageSize m -> r ∈ live m -> r_addr r <= a < r_addr r + r_size r ->
  page_of a = r_page r /\ r_page r ∈ os_pages m /\ r_page r + 2 * PageSize <= 2 ^ 64.
Proof.
  intros (Hp & Hr & _) Hl Ha. pose proof (ro_placed m Hr r (elem_live _ _ Hl)) as Hpl.
  pose proof (placed_in_page PageSize pk ltac:(lia) m r Hp Hpl) as (Hin & Hm & Hpos & Hlo & Hhi).
  split; [apply (floor_in_page PageSize pk page_size ltac:(lia)); [done|lia]|]. split; [done|].
  destruct Hpl as (p & al & Hpp & Hal & Ep & _). destruct (po_page PageSize m Hp p Hpp) as (al' & Hal' & Hok & Eb & Ec & _).
  destruct (so_buffer al' 3 Hok) as [_ Hb]. rewrite Eb, Ec, <- Ep in Hb. pose proof PageSize_4096.
  assert (E : 2 ^ 64 = 2 ^ (64 - pk) * PageSize) by (rewrite page_size, <- Z.pow_add_r by lia; f_equal; lia).
  apply Z.mod_divide in Hm as [q Hq]; [|lia]. rewrite E, Hq in *. assert (q + 1 < 2 ^ (64 - pk)) by nia. nia.
Qed.

(** Memory and protections outside the pages that changed hands. *)
Lemma os_effect_mem e m m' v a : ~ (page_of a ∈ os_pages m' /\ page_of a ∉ os_pages m) ->
  vm_mem (os_effect PageSize e m m' v) a = vm_mem v a.
Proof. intros H. cbn. rewrite decide_False; [done|]. by rewrite elem_of_difference. Qed.

Lemma os_effect_prot_new e m m' v p : p ∈ os_pages m' -> p ∉ os_pages m ->
  page_has (os_effect PageSize e m m' v) PROT_READ p = true.
Proof.
  intros H1 H2. unfold page_has. cbn [vm_prot os_effect].
  rewrite (lookup_union_Some_l _ _ p (Z.lor PROT_READ (if e then PROT_EXEC else PROT_WRITE))); [by destruct e|].
  apply lookup_gset_to_gmap_Some. set_solver.
Qed.

Lemma os_effect_prot_old e (m m' : MemoryAllocator) v p : (p ∈ os_pages m <-> p ∈ os_pages m') ->
  vm_prot (os_effect PageSize e m m' v) !! p = vm_prot v !! p.
Proof.
  intros H. cbn [vm_prot os_effect]. rewrite lookup_union_r by (apply lookup_gset_to_gmap_None; set_solver).
  assert (E : gset_to_gmap 0 (os_pages m ∖ os_pages m') !! p = None) by (apply lookup_gset_to_gmap_None; set_solver).
  by rewrite lookup_difference, E.
Qed.

(** What an operation of the allocator leaves alone: the blocks that stay handed out, and every page that is not the
    allocator's, before or after. *)
Record undisturbed (c c' : core) : Prop := {
  un_mem : forall a, (owned c a /\ owned c' a) \/ (page_of a ∉ pages c /\ page_of a ∉ pages c') -> (memory c') a = (memory c) a;
  un_prot : forall p, p ∉ pages c -> p ∉ pages c' -> vm_prot (space c') !! p = vm_prot (space c) !! p;
  un_quiet : quiet c -> quiet c';
}.

(** The allocator's state changed from one good state to another, and the kernel did its part. *)
Lemma os_effect_ok c m' :
  core_ok c -> mem_ok PageSize m' ->
  let c' := {| space := os_effect PageSize true (gMemoryAllocator c) m' (space c); gMemoryAllocator := m' |} in
  core_ok c' /\ undisturbed c c'.
Proof.
  intros [Hm Hmap] Hm' c'. split; [split; [done|]|split; [..|done]].
  - intros p Hp. destruct (decide (p ∈ pages c)) as [Hin|Hout]; [|by apply os_effect_prot_new].
    unfold page_has. cbn [space c']. rewrite os_effect_prot_old by done. by apply Hmap.
  - intros a Ha. apply os_effect_mem. intros [H1 H2]. destruct Ha as [[(r & Hr & Hra) _]|[_ ?]]; [|done].
    destruct (live_page _ r a Hm Hr Hra) as (E & Hin & _). congruence.
  - intros p H1 H2. apply os_effect_prot_old. done.
Qed.

Lemma exec_alloc_ok os n c :
  core_ok c -> answer_ok os c -> 0 < n <= PageSize ->
  exists b c', allocExecBlock PageSize os n c = Ret (b, c') /\ core_ok c' /\ undisturbed c c' /\
    (forall p, p ∈ pages c' -> p ∈ pages c \/ os_page os = Some p) /\
    ((b = MemRange_empty /\ blocks c' = blocks c /\ (os_page os = None \/ os_permission os = false)) \/
     granted PageSize (gMemoryAllocator c) (gMemoryAllocator c') b n true).
Proof.
  intros Hc [Hos _] Hn. destruct (alloc_block PageSize pk page_size ltac:(lia) os (gMemoryAllocator c) n true)
    as (b & m' & E & Hm' & Hcase); [apply Hc|done|lia|].
  unfold allocExecBlock. rewrite E. cbn [mbind outcome_bind]. do 2 eexists. split; [reflexivity|].
  destruct (os_effect_ok c m' Hc Hm') as [Hc' Hun]. split; [done|]. split; [done|].
  split; [exact (alloc_pages os _ n true b m' E)|].
  destruct Hcase as [(? & ? & Hno)|]; [|by right].
  left. split; [done|]. split; [done|]. destruct Hno as [?|[?|?]]; [lia|lia|done].
Qed.

Lemma exec_free_ok b c :
  core_ok c -> rsize b <> 0 ->
  exists c', freeExecBlock PageSize b c = Ret c' /\ core_ok c' /\ undisturbed c c' /\
    blocks c' = filter (fun r => ~ (r_addr r = addr b /\ r_exec r = true)) (blocks c) /\
    (forall p, p ∈ pages c' -> p ∈ pages c).
Proof.
  intros Hc Hb. destruct (free_block PageSize pk page_size ltac:(lia) (gMemoryAllocator c) b true)
    as (m' & E & Hm' & El & Ep); [apply Hc|done|].
  unfold freeExecBlock. rewrite E. cbn [mbind outcome_bind]. eexists. split; [reflexivity|].
  destruct (os_effect_ok c m' Hc Hm') as [Hc' Hun]. split; [done|]. split; [done|]. split; [done|].
  cbn [gMemoryAllocator]. rewrite Ep, El, (os_pages_live PageSize _ (co_alloc c Hc)). intros p.
  rewrite !elem_of_list_to_set, !list_elem_of_fmap. intros (r & -> & Hr%list_elem_of_filter). exists r. tauto.
Qed.

(** ** Patching *)

Lemma core_patch c a l :
  core_ok c -> quiet c -> patchable PageSize (space c) a (Z.of_nat (length l)) ->
  exists v, DobbyCodePatch PageSize a l (space c) = Ret (0, v) /\ core_ok (with_space c v) /\ quiet (with_space c v) /\
    (forall x, vm_mem v x = patch_mem (vm_mem (space c)) a l x) /\ vm_prot v = vm_prot (space c).
Proof.
  intros Hc Hq Hp. destruct (code_patch_granted PageSize pk page_size ltac:(lia) _ _ _ Hp Hq) as (v & E & Hmem & Hpr & Hno).
  exists v. split; [done|]. split; [|done]. split; [apply Hc|]. intros p Hpp. unfold page_has. cbn [space with_space].
  rewrite Hpr. by apply (co_mapped c Hc).
Qed.

Lemma block_patchable c r n :
  core_ok c -> r ∈ blocks c -> 0 < n <= r_size r -> patchable PageSize (space c) (r_addr r) n.
Proof.
  intros Hc Hr Hn. pose proof PageSize_4096.
  destruct (live_page _ r (r_addr r) (co_alloc c Hc) Hr ltac:(lia)) as (_ & _ & Hhi).
  pose proof (co_alloc c Hc) as (Hp & Hro & _).
  pose proof (placed_in_page PageSize pk ltac:(lia) _ r Hp (ro_placed _ Hro r (elem_live _ _ Hr))) as (_ & _ & Hpos & Hlo & Hsz).
  split; [lia|]. split; [lia|]. split; [lia|]. intros a Ha.
  destruct (live_page _ r a (co_alloc c Hc) Hr ltac:(lia)) as (-> & Hin & _). by apply (co_mapped c Hc).
Qed.

(** The code [l] in a fresh block [r], everything else undisturbed. *)
Definition stored (c c' : core) (r : AllocationRecord) (l : list Z) : Prop :=
  core_ok c' /\ undisturbed c c' /\ blocks c' ≡ₚ r :: blocks c /\ r_exec r = true /\
  Z.of_nat (length l) <= r_size r /\ r_addr r + r_size r + 4096 <= 2 ^ 64 /\ 0 < r_addr r /\
  (forall r0, r0 ∈ blocks c -> disjoint r0 r) /\
  (forall i, (i < length l)%nat -> vm_mem (space c') (r_addr r + Z.of_nat i) = nth i l 0).

(** Writing into a block that was just handed out disturbs nobody. *)
Lemma patch_block_undisturbed c c1 v r l :
  core_ok c1 -> undisturbed c c1 -> blocks c1 ≡ₚ r :: blocks c -> (forall r0, r0 ∈ blocks c -> disjoint r0 r) ->
  Z.of_nat (length l) <= r_size r -> quiet (with_space c1 v) ->
  (forall x, vm_mem v x = patch_mem (vm_mem (space c1)) (r_addr r) l x) -> vm_prot v = vm_prot (space c1) ->
  undisturbed c (with_space c1 v).
Proof.
  intros Hc1 [Hum Hup Huq] Hl Hd Hsz Hq Hmem Hpr. split; [|intros p Hp Hp'; cbn [space with_space]; rewrite Hpr; by apply Hup|done].
  intros a Ha. cbn [space with_space]. rewrite Hmem, patch_mem_out; [by apply Hum|].
  destruct (decide (r_addr r <= a < r_addr r + r_size r)) as [Hin|]; [|lia].
  destruct Ha as [[(r0 & Hr0 & Hra) _]|[_ Hp]].
  - destruct (Hd r0 Hr0); lia.
  - destruct (live_page _ r a (co_alloc c1 Hc1)) as (E & Hin' & _); [rewrite Hl; left|done|]. rewrite E in Hp. done.
Qed.

(** Code written to a fresh block of [n] bytes; or the kernel gave no page, and nothing has changed. *)
Lemma alloc_and_patch os n l c :
  core_ok c -> answer_ok os c -> quiet c -> 0 < Z.of_nat (length l) <= n -> n <= PageSize ->
  exists b c1, allocExecBlock PageSize os n c = Ret (b, c1) /\ (forall p, p ∈ pages c1 -> p ∈ pages c \/ os_page os = Some p) /\
    ((b = MemRange_empty /\ core_ok c1 /\ undisturbed c c1 /\ blocks c1 = blocks c /\ (os_page os = None \/ os_permission os = false)) \/
     exists r v, b = {| start_ := r_addr r; rsize := n |} /\ r_addr r <> 0 /\ vm_prot v = vm_prot (space c1) /\
       DobbyCodePatch PageSize (r_addr r) l (space c1) = Ret (0, v) /\ quiet (with_space c1 v) /\ stored c (with_space c1 v) r l).
Proof.
  intros Hc Han Hq Hn HnP. destruct (exec_alloc_ok os n c Hc Han ltac:(lia)) as (b & c1 & E & Hc1 & Hun & Hpg & Hcase).
  exists b, c1. split; [exact E|]. split; [exact Hpg|].
  destruct Hcase as [(-> & Hsame & Hno)|(r & Hl & -> & Hsz & He & _ & Hin & Hlo & Hhi & Hd)]; [by left|right].
  assert (Hr : r ∈ blocks c1) by (rewrite Hl; left).
  destruct (core_patch c1 (r_addr r) l Hc1 (un_quiet _ _ Hun Hq)) as (v & Ev & Hc2 & Hq2 & Hmem & Hpr); [apply block_patchable; done || lia|].
  exists r, v. split; [done|]. split; [lia|]. split; [done|]. split; [done|]. split; [done|].
  pose proof (live_page _ r (r_addr r) (co_alloc c1 Hc1) Hr ltac:(lia)) as (_ & _ & Hb). pose proof PageSize_4096.
  split; [done|]. split; [apply (patch_block_undisturbed c c1 v r l); done || lia|]. split; [done|]. split; [done|]. split; [lia|].
  split; [lia|]. split; [lia|]. split; [done|]. intros i Hi. cbn [space with_space]. rewrite Hmem. by apply patch_mem_in.
Qed.

(** [FinalizeFromTurboAssembler]: the code ends up in a fresh block; or the result is empty. *)
Lemma finalize_cases os a l c :
  core_ok c -> answer_ok os c -> quiet c -> fixed_addr a = 0 -> membuffer_rep (code_buffer_ a) l ->
  0 < Z.of_nat (length l) <= PageSize ->
  exists b c', FinalizeFromTurboAssembler PageSize os a c = Ret (b, c') /\
    (forall p, p ∈ pages c' -> p ∈ pages c \/ os_page os = Some p) /\
    ((b = MemRange_empty /\ core_ok c' /\ undisturbed c c' /\ blocks c' = blocks c /\
      (os_page os = None \/ os_permission os = false)) \/
     exists r, b = {| start_ := r_addr r; rsize := Z.of_nat (length l) |} /\ stored c c' r l).
Proof.
  intros Hc Han Hq Hf Hrep Hn. unfold FinalizeFromTurboAssembler, CodeMemBuffer.size.
  rewrite (dup_ok _ _ Hrep), (mb_size _ _ Hrep), Hf. cbn [mbind outcome_bind Z.eqb]. rewrite defined_bytes_ok. cbn [mbind outcome_bind].
  destruct (alloc_and_patch os (Z.of_nat (length l)) l c Hc Han Hq ltac:(lia) ltac:(lia)) as (b & c1 & -> & Hpg & Hcase).
  cbn [mbind outcome_bind]. destruct Hcase as [(-> & Hrest)|(r & v & -> & Hr0 & _ & Ev & _ & Hst)].
  { exists MemRange_empty, c1. split; [done|]. split; [done|]. by left. }
  cbn [addr start_]. rewrite (proj2 (Z.eqb_neq _ _) Hr0), Ev. cbn [mbind outcome_bind]. do 2 eexists. split; [reflexivity|]. split; [exact Hpg|]. right. by exists r.
Qed.

(** A fresh block whose page the kernel then refuses to make writable: the block keeps what it held, zeros if its page is
    new, and nobody else's memory is touched. *)
Lemma alloc_unwritten os n l c rest :
  core_ok c -> answer_ok os c -> vm_answers (space c) = false :: rest -> false ∉ rest ->
  0 < Z.of_nat (length l) <= n -> n <= PageSize -> is_Some (os_page os) -> os_permission os = true ->
  exists r c1 v, allocExecBlock PageSize os n c = Ret ({| start_ := r_addr r; rsize := n |}, c1) /\
    DobbyCodePatch PageSize (r_addr r) l (space c1) = Ret (-1, v) /\ r_addr r <> 0 /\ Z.of_nat (length l) <= r_size r /\
    core_ok (with_space c1 v) /\ undisturbed c (with_space c1 v) /\ quiet (with_space c1 v) /\ blocks c1 ≡ₚ r :: blocks c /\
    (forall p, p ∈ pages c1 -> p ∈ pages c \/ os_page os = Some p) /\
    forall a, r_addr r <= a < r_addr r + r_size r -> vm_mem v a = if decide (page_of a ∈ pages c) then memory c a else 0.
Proof.
  intros Hc Han Ha Hno Hn HnP [page Hpage] Hperm. destruct (exec_alloc_ok os n c Hc Han ltac:(lia)) as (b & c1 & E & Hc1 & Hun & Hpg & Hcase).
  destruct Hcase as [(_ & _ & [Hf|Hf])|(r & Hl & -> & Hsz & _ & _ & _ & Hlo & _ & _)]; [congruence|congruence|].
  assert (Es : space c1 = os_effect PageSize true (gMemoryAllocator c) (gMemoryAllocator c1) (space c)).
  { unfold allocExecBlock in E. destruct (allocMemBlockLocked _ _ _ _ _) as [[b1 m1]| |]; [|done|done]. by injection E as _ <-. }
  assert (Hr : r ∈ blocks c1) by (rewrite Hl; left).
  destruct (code_patch_refused PageSize pk page_size ltac:(lia) (space c1) (r_addr r) l rest) as (v & Ev & Hmem & Hpr & Hs);
    [apply block_patchable; done || lia|by rewrite Es|].
  assert (Hq : quiet (with_space c1 v)) by (intros Hin; by apply Hno, (suffix_elem _ _ _ Hs)).
  exists r, c1, v. do 2 (split; [done|]). split; [lia|]. split; [lia|]. split; [|split; [|split; [done|split; [done|split; [done|]]]]].
  - split; [apply Hc1|]. intros p Hp. unfold page_has. cbn [space with_space]. rewrite Hpr. by apply (co_mapped c1 Hc1).
  - split; [|intros p H1 H2; cbn [space with_space]; rewrite Hpr; by apply (un_prot _ _ Hun)|done].
    intros a Ha'. cbn [space with_space]. rewrite Hmem. by apply (un_mem _ _ Hun).
  - intros a Hin. rewrite Hmem, Es. cbn [vm_mem os_effect]. destruct (live_page _ r a (co_alloc c1 Hc1) Hr Hin) as (Ep & Hin' & _).
    rewrite Ep. destruct (decide (r_page r ∈ pages c)); [rewrite decide_False by set_solver|rewrite decide_True by set_solver]; done.
Qed.

(** ** The hooked function *)

(** The bytes of the function lie on readable pages that are not the allocator's. *)
Definition target_ok (c : core) (address n : Z) : Prop :=
  patchable PageSize (space c) address n /\ forall a, address <= a < address + n -> page_of a ∉ pages c.

Lemma target_read c address n :
  target_ok c address (Z.of_nat n) -> memcpy_from PageSize (space c) address n = Ret (bytes_at c address n).
Proof. intros [(_ & _ & _ & Hr) _]. unfold memcpy_from. by rewrite bytes_have_true. Qed.

(** The function stays where it is while the allocator works. *)
Lemma target_undisturbed c c' address n :
  target_ok c address n -> undisturbed c c' -> (forall a, address <= a < address + n -> page_of a ∉ pages c') ->
  target_ok c' address n /\ forall a, address <= a < address + n -> vm_mem (space c') a = vm_mem (space c) a.
Proof.
  intros [(Ha & Hn & Hhi & Hr) Hout] Hun Hout'. split.
  - split; [|done]. split; [done|]. split; [done|]. split; [done|]. intros a Hin. unfold page_has.
    rewrite (un_prot _ _ Hun) by auto. by apply Hr.
  - intros a Hin. apply (un_mem _ _ Hun). right. auto.
Qed.

(** A page the kernel has just handed out is not one of the function's. *)
Lemma target_not_fresh c c' os address n :
  target_ok c address n -> answer_ok os c -> (forall p, p ∈ pages c' -> p ∈ pages c \/ os_page os = Some p) ->
  forall a, address <= a < address + n -> page_of a ∉ pages c'.
Proof.
  intros [(_ & _ & _ & Hr) Hout] Han Hpg a Ha Hin. destruct (Hpg _ Hin) as [?|Hp]; [by apply (Hout a)|].
  apply (an_fresh _ _ Han) in Hp. specialize (Hr a Ha). unfold page_has in Hr. by rewrite Hp in Hr.
Qed.

(** [make_memory_readable] changes at most the protection of the function's first page, which stays readable. *)
Lemma make_readable_ok ANDROID os address n c :
  core_ok c -> quiet c -> answer_ok os c -> target_ok c address n ->
  let c' := make_memory_readable PageSize ANDROID address c in
  gMemoryAllocator c' = gMemoryAllocator c /\ vm_mem (space c') = vm_mem (space c) /\
  core_ok c' /\ quiet c' /\ answer_ok os c' /\ target_ok c' address n.
Proof.
  intros Hc Hq Han Ht. unfold make_memory_readable. destruct ANDROID; [|done].
  destruct (mprotect _ _ (space c)) as [ok v] eqn:E. cbn [snd].
  assert (Hpr : forall p, vm_prot v !! p = vm_prot (space c) !! p \/ p = page_of address /\ vm_prot v !! p = Some 5).
  { intros p. destruct (mprotect_prot _ _ _ _ _ p E) as [_ ->]. destruct ok; [|by left].
    destruct (decide _) as [->|]; [by right|by left]. }
  assert (Hmono : forall p, page_has (space c) PROT_READ p = true -> page_has v PROT_READ p = true).
  { intros p. unfold page_has. by destruct (Hpr p) as [->|[_ ->]]. }
  split; [done|]. split; [apply (mprotect_prot _ _ _ _ _ 0 E)|].
  split; [split; [apply Hc|intros p Hp; by apply Hmono, (co_mapped c Hc)]|].
  split; [intros Hin; apply Hq, (suffix_elem _ _ _ (proj1 (mprotect_answers _ _ _ _ _ E))), Hin|].
  destruct Ht as [(Ha & Hn & Hhi & Hr) Hout]. split; [split; [apply Han|]|].
  - intros p Hp. pose proof (an_fresh _ _ Han p Hp) as Hnone. cbn [space with_space].
    destruct (Hpr p) as [->|[-> _]]; [done|]. specialize (Hr address ltac:(lia)). unfold page_has in Hr. by rewrite Hnone in Hr.
  - split; [|done]. split; [done|]. split; [done|]. split; [done|]. intros a Hin. by apply Hmono, Hr.
Qed.

End Blocks.
