(* ===== verification/HookSpec.v ===== *)
(** * Correctness of an inline hook

    [DobbyHookEx] put together from the parts: where a hook is possible it is
    installed, calls of the function arrive at the replacement and calls of the
    returned pointer behave like the original function; where the kernel gives no
    memory nothing changes; deleting the entry takes the hook back. *)

From stdpp Require Import gmap.
From S2P Require Import Prelude UtilityMacro CodeMemBuffer Arm64Assembler Arm64Relocation Arm64Machine.
From S2P Require Import BitFields Arm64Simulation Arm64Trampoline CodePatch LinearAllocator MemoryAllocator.
From S2P Require Import MemoryAllocatorSpec HookRouting HookBlocks.
#[local] Open Scope Z_scope.
#[local] Open Scope machine_scope.

Section Spec.
Context (PageSize pk : Z).
Hypothesis page_size : PageSize = 2 ^ pk.
Hypothesis pk_range : 12 <= pk < 31.
Context (ANDROID : bool) {R : Type} (Upsert : HookRecord -> R -> R).

Abbreviation blocks c := (live (gMemoryAllocator c)).

(** The trampoline from [address] to [fake]. *)
Definition tramp (address fake : Z) : list Z := relo_bytes [normal_item address fake].

Lemma length_tramp address fake : length (tramp address fake) = 12%nat \/ length (tramp address fake) = 16%nat.
Proof. apply normal_item_length. Qed.

(** How many instructions it overwrites. *)
Definition overwritten (address fake : Z) : Z := Z.of_nat (length (tramp address fake)) / 4.

Lemma overwritten_size address fake :
  4 * overwritten address fake = Z.of_nat (length (tramp address fake)) /\ 3 <= overwritten address fake <= 4.
Proof. unfold overwritten. destruct (length_tramp address fake) as [-> | ->]; vm_compute; repeat split; discriminate || reflexivity. Qed.

(** The function at [address] can be hooked: its first instructions [code] can be read, they are not the allocator's,
    and the relocator handles them ([its]). *)
Record hookable (c : core) (os : os_answer) (address fake : Z) (code : list Z) (its : list item) : Prop := {
  hk_core : core_ok PageSize c;
  hk_quiet : quiet c;
  hk_answer : answer_ok PageSize os c;
  hk_aligned : address mod 4 = 0;
  hk_high : address + 36 < 2 ^ 64;
  hk_fake : 0 < fake < 2 ^ 64;
  hk_target : target_ok PageSize c address (Z.of_nat (length (tramp address fake)));
  hk_code : code = bytes_at c address (length (tramp address fake));
  hk_bytes : bytes_ok code;
  hk_relo : relo_block address (overwritten address fake) code true = Some its;
}.

Lemma fix_aligned a : a mod 4 = 0 -> arm_thumb_fix_addr a = a.
Proof.
  intros H. unfold arm_thumb_fix_addr. change 1 with (2 ^ 1 - 1). change (a .& Z.lnot (2 ^ 1 - 1)) with (ALIGN_FLOOR a (2 ^ 1)).
  rewrite ALIGN_FLOOR_alt by lia. change (2 ^ 1) with 2. Z.div_mod_to_equations. lia.
Qed.

(** The bytes [GenRelocateCodeAndBranch] reads and the size it starts from are those of the trampoline. *)
Lemma ceil_tramp address fake :
  Z.to_nat (ALIGN_CEIL (Z.of_nat (length (tramp address fake))) 4) = length (tramp address fake).
Proof. by destruct (length_tramp address fake) as [-> | ->]. Qed.

(** The relocated code of a hookable function fits a page. *)
Lemma hookable_length c os address fake code its :
  hookable c os address fake code its -> 0 < Z.of_nat (length (relo_bytes its)) <= 140.
Proof.
  intros H. pose proof (overwritten_size address fake) as [_ Hn].
  pose proof (relo_block_length _ _ _ _ (hk_relo _ _ _ _ _ _ H)). lia.
Qed.

(** Relocation, up to the final copy. *)
Lemma hookable_relocate c os address fake code its :
  hookable c os address fake code its ->
  exists a, relocate (Buf := MemBuffer) address (Z.of_nat (length (tramp address fake))) code true
              = Ret (Z.of_nat (length (tramp address fake)), a) /\
    membuffer_rep (code_buffer_ a) (relo_bytes its) /\ fixed_addr a = 0.
Proof.
  intros H. pose proof (hookable_length _ _ _ _ _ _ H) as Hlen. pose proof (overwritten_size address fake) as [Hn4 Hn].
  assert (Hl : length code = length (tramp address fake)) by (rewrite (hk_code _ _ _ _ _ _ H); apply length_bytes_at).
  rewrite relo_bytes_length in Hlen.
  destruct (relocate_rep (Buf := MemBuffer) address (Z.of_nat (length (tramp address fake))) code
              (overwritten address fake) its true) as (a & E & Hrep); try lia.
  - apply (hk_bytes _ _ _ _ _ _ H).
  - apply (hk_relo _ _ _ _ _ _ H).
  - unfold cb_limit. lia.
  - rewrite Hn4 in E. exists a. split; [done|]. split; [done|]. by apply relocate_fixed_addr in E.
Qed.

(** ** Building the routing *)

(** The entry once its routing is built. *)
Definition built (e : Entry) (r : AllocationRecord) (code : list Z) (its : list item) : Entry :=
  set_origin_code (set_blocks e {| start_ := e_addr e; rsize := Z.of_nat (length code) |}
                                {| start_ := r_addr r; rsize := Z.of_nat (length (relo_bytes its)) |}) (Some code).

Lemma generate_trampoline near_block e fake c :
  e_addr e mod 4 = 0 -> 0 < fake < 2 ^ 64 ->
  exists ty, GenerateTrampoline PageSize false near_block e fake c
    = Ret ({| trampoline := Some {| type := ty; Arm64Trampoline.buffer := map Some (tramp (e_addr e) fake) |};
              near_trampoline := None; error := false |}, c).
Proof.
  intros Ha Hf. unfold GenerateTrampoline. rewrite fix_aligned by done. cbn [mbind outcome_bind].
  destruct (normal_trampoline_code (e_addr e) fake ltac:(lia)) as [ty ->]. by exists ty.
Qed.

(** What [BuildRouting] makes of a fresh entry: a routing ready to be activated, or an error. *)
Definition ready (e : Entry) (fake : Z) (code : list Z) (its : list item) (c : core)
    (o : InterceptRouting * Entry * core) : Prop :=
  exists ty r, o = ({| trampoline := Some {| type := ty; Arm64Trampoline.buffer := map Some (tramp (e_addr e) fake) |};
                       near_trampoline := None; error := false |}, built e r code its, snd o) /\
    stored PageSize c (snd o) r (relo_bytes its) /\ quiet (snd o) /\
    target_ok PageSize (snd o) (e_addr e) (Z.of_nat (length (tramp (e_addr e) fake))).

Definition not_ready (e : Entry) (os : os_answer) (c : core) (o : InterceptRouting * Entry * core) : Prop :=
  error (fst (fst o)) = true /\ snd (fst o) = set_origin_code e None /\ core_ok PageSize (snd o) /\
  undisturbed PageSize c (snd o) /\ blocks (snd o) = blocks c /\ (os_page os = None \/ os_permission os = false).

(** The relocated code is there, the original bytes are copied. *)
Lemma backup_ok e c fake code b :
  target_ok PageSize c (e_addr e) (Z.of_nat (length (tramp (e_addr e) fake))) ->
  bytes_at c (e_addr e) (length (tramp (e_addr e) fake)) = code ->
  let p := {| start_ := e_addr e; rsize := Z.of_nat (length (tramp (e_addr e) fake)) |} in
  backup_orig_code PageSize (set_blocks e p b) c = Ret (set_origin_code (set_blocks e p b) (Some code)).
Proof.
  intros Ht Hback p. unfold backup_orig_code, p. cbn [patched set_blocks rsize e_addr]. pose proof Ht as [Hpt Hout].
  destruct (Z.eqb_spec (e_addr e) 0); [destruct Hpt; lia|].
  pose proof (overwritten_size (e_addr e) fake) as [Hn4 Hn]. rewrite (wrap_small 32 (Z.of_nat _)) by lia.
  destruct (Z.eqb_spec (Z.of_nat (length (tramp (e_addr e) fake))) 0); [lia|]. cbn [orb].
  rewrite Nat2Z.id, target_read by done. cbn [mbind outcome_bind]. by rewrite Hback.
Qed.

Lemma build_routing_cases ans e fake c code its :
  hookable c (os_alloc ans) (e_addr e) fake code its -> patched e = MemRange_empty ->
  exists o, BuildRouting PageSize false ans e fake c = Ret o /\
    (ready e fake code its c o \/ not_ready e (os_alloc ans) c o).
Proof.
  intros H Ep. pose proof (PageSize_4096 PageSize pk page_size pk_range) as HPS.
  pose proof (hookable_length _ _ _ _ _ _ H) as Hlen. unfold BuildRouting.
  destruct (generate_trampoline (near_block ans) e fake c) as [ty ->]; [apply H|apply H|]. cbn [mbind outcome_bind].
  unfold GenerateRelocatedCode, trampoline_size. cbn [error the_trampoline near_trampoline trampoline Arm64Trampoline.buffer].
  rewrite fix_aligned, length_map by apply H. unfold GenRelocateCodeAndBranch. cbn [addr start_ rsize].
  rewrite ceil_tramp, target_read by apply H. cbn [mbind outcome_bind]. rewrite <- (hk_code _ _ _ _ _ _ H).
  destruct (hookable_relocate _ _ _ _ _ _ H) as (a & -> & Hrep & Hfix). cbn [mbind outcome_bind].
  destruct (finalize_cases PageSize pk page_size pk_range (os_alloc ans) a (relo_bytes its) c)
    as (b & c' & -> & Hpg & Hcase); try done; try apply H; [lia|]. cbn [mbind outcome_bind].
  destruct Hcase as [(-> & Hc' & Hun & Hsame & Hno)|(r & -> & Hst)].
  { cbn [rsize MemRange_empty Z.eqb mbind outcome_bind]. unfold backup_orig_code. rewrite Ep. change (u32 (rsize MemRange_empty)) with 0.
    rewrite Z.eqb_refl, orb_true_r. eexists. split; [reflexivity|]. by right. }
  unfold resize. cbn [rsize start_]. destruct (Z.eqb_spec (Z.of_nat (length (relo_bytes its))) 0); [lia|].
  destruct (target_undisturbed PageSize c c' (e_addr e) (Z.of_nat (length (tramp (e_addr e) fake)))) as [Ht Hsame];
    [apply H|apply Hst|apply (target_not_fresh PageSize c c' (os_alloc ans)); try done; apply H|].
  assert (Hback : bytes_at c' (e_addr e) (length (tramp (e_addr e) fake)) = code).
  { rewrite (hk_code _ _ _ _ _ _ H). by apply bytes_at_ext. }
  cbn [mbind outcome_bind]. rewrite (backup_ok e c' fake code) by done. cbn [mbind outcome_bind].
  eexists. split; [reflexivity|]. left. exists ty, r. cbn [snd].
  assert (Hlc : length code = length (tramp (e_addr e) fake)) by (rewrite <- Hback; apply length_bytes_at).
  split; [unfold built; by rewrite Hlc|]. split; [done|]. split; [apply Hst, (hk_quiet _ _ _ _ _ _ H)|done].
Qed.

(** ** Activation *)

Lemma activate_ok ty e address fake c :
  e_addr e = address ->
  core_ok PageSize c -> quiet c -> target_ok PageSize c address (Z.of_nat (length (tramp address fake))) ->
  let r := {| trampoline := Some {| type := ty; Arm64Trampoline.buffer := map Some (tramp address fake) |};
              near_trampoline := None; error := false |} in
  exists v, Active PageSize r e c = Ret (r, with_space c v) /\
    core_ok PageSize (with_space c v) /\ quiet (with_space c v) /\
    (forall x, vm_mem v x = patch_mem (vm_mem (space c)) address (tramp address fake) x) /\
    vm_prot v = vm_prot (space c).
Proof.
  intros He Hc Hq [Hp _] r. unfold Active, trampoline_size. rewrite He.
  cbn [the_trampoline near_trampoline trampoline r error Arm64Trampoline.buffer orb]. rewrite length_map, defined_bytes_ok.
  destruct (overwritten_size address fake) as [Hn4 Hn].
  destruct (Z.eqb_spec (Z.of_nat (length (tramp address fake))) 0); [lia|]. cbn [mbind outcome_bind].
  destruct (core_patch PageSize pk page_size pk_range c _ _ Hc Hq Hp) as (v & -> & H). cbn [mbind outcome_bind].
  exists v. by split.
Qed.

(** ** An installed hook *)

(** The state [c'] of a hook on top of [c]: the trampoline is in place, the relocated instructions are in a block [r]
    of their own, and the rest of memory is as it was. *)
Record installed (c c' : core) (address fake : Z) (its : list item) (r : AllocationRecord) : Prop := {
  in_core : core_ok PageSize c';
  in_quiet : quiet c';
  in_blocks : blocks c' ≡ₚ r :: blocks c;
  in_exec : r_exec r = true;
  in_disjoint : forall r0, r0 ∈ blocks c -> disjoint r0 r;
  in_size : Z.of_nat (length (relo_bytes its)) <= r_size r;
  in_target : target_ok PageSize c' address (Z.of_nat (length (tramp address fake)));
  in_tramp : loaded (vm_mem (space c')) address (tramp address fake);
  in_origin : loaded (vm_mem (space c')) (r_addr r) (relo_bytes its);
  in_high : r_addr r + Z.of_nat (length (relo_bytes its)) + 20 < 2 ^ 64;
  in_rest : forall a, ~ (address <= a < address + Z.of_nat (length (tramp address fake))) ->
    owned c a \/ (ALIGN_FLOOR a PageSize ∉ os_pages (gMemoryAllocator c) /\
                  ALIGN_FLOOR a PageSize ∉ os_pages (gMemoryAllocator c')) ->
    vm_mem (space c') a = vm_mem (space c) a;
}.

Lemma owned_grows c c' r a : blocks c' ≡ₚ r :: blocks c -> owned c a -> owned c' a.
Proof. intros Hl (r0 & Hr0 & Ha). exists r0. split; [|done]. rewrite Hl. by right. Qed.

(** Writing the trampoline over the function, once the block is stored. *)
Lemma stored_installed c c1 v address fake its r :
  stored PageSize c c1 r (relo_bytes its) -> target_ok PageSize c1 address (Z.of_nat (length (tramp address fake))) ->
  address + 36 < 2 ^ 64 -> core_ok PageSize (with_space c1 v) -> quiet (with_space c1 v) ->
  (forall x, vm_mem v x = patch_mem (vm_mem (space c1)) address (tramp address fake) x) ->
  vm_prot v = vm_prot (space c1) -> 0 < Z.of_nat (length (relo_bytes its)) ->
  installed c (with_space c1 v) address fake its r.
Proof.
  intros (Hc1 & Hun & Hl & He & Hsz & Hhi & Hpos & Hd & Hcode) [Hp Hout] Hhigh Hc2 Hq2 Hmem Hpr Hlen.
  pose proof (overwritten_size address fake) as [Hn4 Hn]. pose proof Hp as (Ha & Hn32 & Hah & Hread).
  split; try done.
  - split; [|done]. split; [done|]. split; [done|]. split; [done|]. intros a Hin. unfold page_has. cbn [space with_space].
    rewrite Hpr. by apply Hread.
  - split; [lia|lia|]. intros i Hi. cbn [space with_space]. rewrite Hmem. by apply patch_mem_in.
  - split; [lia|lia|]. intros i Hi. cbn [space with_space]. rewrite Hmem, patch_mem_out; [by apply Hcode|].
    destruct (decide (address <= r_addr r + Z.of_nat i < address + Z.of_nat (length (tramp address fake)))) as [Hin|]; [|lia].
    destruct (live_page PageSize pk page_size pk_range _ r (r_addr r + Z.of_nat i) (co_alloc PageSize c1 Hc1)) as (E & Hin' & _);
      [rewrite Hl; left|lia|]. apply Hout in Hin. by rewrite E in Hin.
  - lia.
  - intros a Ha' Hcase. cbn [space with_space]. rewrite Hmem, patch_mem_out by lia. apply (un_mem _ _ _ Hun).
    destruct Hcase as [Ho|]; [left|by right]. split; [done|by apply (owned_grows c c1 r)].
Qed.

(** The kernel readied the page: nothing a hook depends on has changed. *)
Lemma hookable_readable c os address fake code its :
  hookable c os address fake code its ->
  let c' := make_memory_readable PageSize ANDROID address c in
  gMemoryAllocator c' = gMemoryAllocator c /\ vm_mem (space c') = vm_mem (space c) /\ hookable c' os address fake code its.
Proof.
  intros H. destruct (make_readable_ok PageSize pk ANDROID os address (Z.of_nat (length (tramp address fake))) c)
    as (Eg & Em & Hc & Hq & Han & Ht); try apply H.
  split; [done|]. split; [done|]. split; try done; try apply H.
  rewrite (hk_code _ _ _ _ _ _ H). unfold bytes_at. by rewrite Em.
Qed.

(** The memory of the caller: blocks that were handed out before, and pages the allocator does not use. *)
Definition foreign (c c' : core) (a : Z) : Prop :=
  owned c a \/ (ALIGN_FLOOR a PageSize ∉ os_pages (gMemoryAllocator c) /\ ALIGN_FLOOR a PageSize ∉ os_pages (gMemoryAllocator c')).

(** A hook that could not be installed: the caller sees the failure, and nothing else has changed. *)
Record refused (w w' : world (R := R)) (os : os_answer) : Prop := {
  rf_core : core_ok PageSize (w_core w');
  rf_entries : entries w' = entries w;
  rf_handles : handles w' = handles w;
  rf_runtime : runtime w' = runtime w;
  rf_blocks : blocks (w_core w') = blocks (w_core w);
  rf_mem : forall a, foreign (w_core w) (w_core w') a -> vm_mem (space (w_core w')) a = vm_mem (space (w_core w)) a;
  rf_kernel : os_page os = None \/ os_permission os = false;
}.

(** The whole of [DobbyHookEx] up to the publication of the entry. *)
Lemma hook_run w ans address fake want_origin want_handle code its :
  hookable (w_core w) (os_alloc ans) address fake code its -> find (entries w) address = None ->
  (exists r c',
    DobbyHookEx PageSize ANDROID Upsert false ans address fake want_origin want_handle w
      = Ret (publish Upsert address fake want_origin want_handle (built (fst (new_entry address fake w)) r code its)
               (with_core (snd (new_entry address fake w)) c')) /\
    installed (w_core w) c' address fake its r) \/
  (exists w', DobbyHookEx PageSize ANDROID Upsert false ans address fake want_origin want_handle w = Ret (failed, w') /\
    refused w w' (os_alloc ans)).
Proof.
  intros H Hfind. destruct (hookable_readable _ _ _ _ _ _ H) as (Eg & Em & H1).
  pose proof (hookable_length _ _ _ _ _ _ H) as Hlen. pose proof (hk_fake _ _ _ _ _ _ H) as Hf.
  destruct (hk_target _ _ _ _ _ _ H) as [(Ha & _) _]. unfold DobbyHookEx.
  destruct (Z.eqb_spec address 0); [lia|]. destruct (Z.eqb_spec fake 0); [lia|]. cbn [orb entries with_core]. rewrite Hfind.
  cbn [new_entry fst snd w_core with_core next_entry_id_ handles runtime entries]. set (c1 := make_memory_readable _ _ _ _) in *.
  destruct (build_routing_cases ans (fst (new_entry address fake w)) fake c1 code its H1 eq_refl)
    as ([[rt en] c2] & E & [(ty & r & [= -> ->] & Hst & Hq2 & Ht)|(Herr & Hent & Hc' & Hun & Hsame & Hno)]);
    cbn [new_entry fst e_addr snd] in *; rewrite E; cbn [mbind outcome_bind error].
  - left.
    destruct (activate_ok ty (built (fst (new_entry address fake w)) r code its) address fake c2 eq_refl (proj1 Hst) Hq2 Ht)
      as (v & E' & Hc3 & Hq3 & Hmem & Hpr). cbn [new_entry fst] in E'. rewrite E'. cbn [mbind outcome_bind error].
    exists r, (with_space c2 v). split; [reflexivity|].
    destruct (stored_installed c1 c2 v address fake its r Hst Ht (hk_high _ _ _ _ _ _ H) Hc3 Hq3 Hmem Hpr ltac:(lia))
      as [I1 I2 I3 I4 I5 I6 I7 I8 I9 I10 I11]. unfold owned in *. rewrite Em, Eg in *. by split.
  - right. rewrite Herr, Hent. cbn [mbind outcome_bind].
    exists (with_core (snd (new_entry address fake w)) c2). split; [reflexivity|].
    split; try done; cbn [w_core with_core]; [by rewrite Hsame, Eg|].
    intros a Hfor. rewrite (un_mem _ _ _ Hun); [by rewrite Em|]. destruct Hfor as [Ho|Hp]; [left|right].
    + split; (destruct Ho as (r0 & Hr0 & Hin); exists r0; split; [|done]); [by rewrite Eg|by rewrite Hsame, Eg].
    + by rewrite Eg.
Qed.

(** With a page from the kernel the hook is installed. *)
Lemma hook_granted w ans address fake want_origin want_handle code its :
  hookable (w_core w) (os_alloc ans) address fake code its -> find (entries w) address = None ->
  is_Some (os_page (os_alloc ans)) -> os_permission (os_alloc ans) = true ->
  exists r c',
    DobbyHookEx PageSize ANDROID Upsert false ans address fake want_origin want_handle w
      = Ret (publish Upsert address fake want_origin want_handle (built (fst (new_entry address fake w)) r code its)
               (with_core (snd (new_entry address fake w)) c')) /\
    installed (w_core w) c' address fake its r.
Proof.
  intros H Hfind [page Hpage] Hperm.
  destruct (hook_run w ans address fake want_origin want_handle code its H Hfind) as [?|(w' & _ & Hr)]; [done|].
  destruct (rf_kernel _ _ _ Hr); congruence.
Qed.

(** A call of the hooked function reaches the replacement with only x17 changed. *)
Definition reaches (address fake : Z) (s : state) : Prop :=
  exists k t, run k (at_pc address s) = Some t /\ pc t = fake /\ frame s t /\ forall r, r <> 17 -> regs t r = regs s r.

(** From [origin] on there is a copy of the overwritten instructions [code] of [address]: those that do not depend on
    their address are the same words in the same order, each supported one has its effect and hands over to the next,
    and behind the last one control goes on in the function. *)
Definition copies (address : Z) (code : list Z) (its : list item) (origin n : Z) (s : state) : Prop :=
  (forall i, (i < Z.to_nat n)%nat -> rewritten (word_at code i) = false ->
     load 4 (mem s) (origin + new_offset its i) = word_at code i /\ new_offset its (S i) = new_offset its i + 4) /\
  (forall i ins, (i < Z.to_nat n)%nat -> decode (word_at code i) = Some ins -> supported ins = true ->
     let A := u64 (address + 4 * Z.of_nat i) in
     exists k t, run k (at_pc (origin + new_offset its i) s) = Some t /\
       simulates ins A (origin + new_offset its (S i)) (exec ins (at_pc A s)) t) /\
  (exists t, run 2 (at_pc (origin + new_offset its (Z.to_nat n)) s) = Some t /\
     pc t = u64 (address + 4 * n) /\ frame s t /\ forall r, r <> 17 -> regs t r = regs s r).

Lemma installed_runs c c' os address fake code its r s :
  hookable c os address fake code its -> installed c c' address fake its r ->
  adrp_overflows address fake = false -> mem s = vm_mem (space c') ->
  reaches address fake s /\ copies address code its (r_addr r) (overwritten address fake) s.
Proof.
  intros H I Hov Hs. pose proof (hookable_length _ _ _ _ _ _ H) as Hlen. rewrite relo_bytes_length in Hlen.
  pose proof (overwritten_size address fake) as [Hn4 Hn]. destruct (hk_target _ _ _ _ _ _ H) as [(Ha & _) _].
  assert (Hl : length code = length (tramp address fake)) by (rewrite (hk_code _ _ _ _ _ _ H); apply length_bytes_at).
  split; [|split; [|split]].
  - destruct (normal_item_runs address fake s) as (k & t & Hrun & Hf & Hr & Hpc);
      [lia|apply H|pose proof (hk_fake _ _ _ _ _ _ H); lia|rewrite Hs; apply I|].
    rewrite Hov in Hpc. by exists k, t.
  - intros i Hi Hrw. apply (block_copies address code (overwritten address fake) its true); try done; try apply H;
      [lia|lia|rewrite Hs; apply I].
  - intros i ins Hi Hdec Hsup A. apply (block_simulates address code (overwritten address fake) its true); try done;
      try apply H; [lia|lia|rewrite Hs; apply I|apply I].
  - apply (block_jumps_back address code (overwritten address fake) its);
      [apply H|lia|lia|rewrite Hs; apply I|apply I].
Qed.

Lemma find_app es e a :
  find (es ++ [e]) a = match find es a with Some x => Some x | None => if addr (patched e) =? a then Some e else None end.
Proof. induction es as [|x es IH]; cbn [find app]; [done|]. by destruct (addr (patched x) =? a). Qed.

(** C1: A hook does what it is for.  If the function at [address] can be hooked and the kernel provides a page,
    [DobbyHookEx] returns 0 and: the table finds a new entry for [address], so a second hook is refused; memory
    outside the trampoline, and outside pages of the allocator that nobody else owns a block of, is unchanged;
    running the function at [address] arrives at the replacement with only x17 changed; and the pointer returned
    through [out_origin_func] is the address of a copy of the overwritten instructions that has their effects one by
    one and then continues in the function behind the trampoline. *)
Theorem hook_installs w ans address fake want_origin want_handle code its :
  hookable (w_core w) (os_alloc ans) address fake code its -> find (entries w) address = None ->
  is_Some (os_page (os_alloc ans)) -> os_permission (os_alloc ans) = true -> adrp_overflows address fake = false ->
  exists r e res w',
    DobbyHookEx PageSize ANDROID Upsert false ans address fake want_origin want_handle w = Ret (res, w') /\
    ret res = 0 /\ out_origin_func res = (if want_origin then Some (r_addr r) else None) /\
    entries w' = entries w ++ [e] /\ find (entries w') address = Some e /\ origin_code_ e = Some code /\
    installed (w_core w) (w_core w') address fake its r /\
    forall s, mem s = vm_mem (space (w_core w')) ->
      reaches address fake s /\ copies address code its (r_addr r) (overwritten address fake) s.
Proof.
  intros H Hfind Hpage Hperm Hov.
  destruct (hook_granted w ans address fake want_origin want_handle code its H Hfind Hpage Hperm) as (r & c' & -> & I).
  do 2 eexists. do 2 eexists. split; [reflexivity|]. split; [reflexivity|]. split; [reflexivity|].
  split; [reflexivity|]. split.
  { cbn [entries publish add]. unfold add. rewrite find_app. cbn [new_entry snd with_core entries]. rewrite Hfind.
    destruct want_handle; cbn; by rewrite Z.eqb_refl. }
  split; [by destruct want_handle|]. split; [exact I|].
  intros s Hs. by apply (installed_runs (w_core w) c' (os_alloc ans)).
Qed.

(** ** Taking a hook back *)

Lemma live_size_pos c r : core_ok PageSize c -> r ∈ blocks c -> 0 < r_size r.
Proof.
  intros Hc Hr. pose proof (co_alloc _ c Hc) as (_ & Hro & _).
  apply (placed_aligned (gMemoryAllocator c)), (ro_placed _ Hro), elem_live, Hr.
Qed.

(** Freeing the block of a hook leaves the blocks there were before it. *)
Lemma blocks_without c c' r :
  core_ok PageSize c' -> blocks c' ≡ₚ r :: blocks c -> r_exec r = true -> (forall r0, r0 ∈ blocks c -> disjoint r0 r) ->
  filter (fun r0 => ~ (r_addr r0 = r_addr r /\ r_exec r0 = true)) (blocks c') ≡ₚ blocks c.
Proof.
  intros Hc' Hl He Hd. rewrite Hl. rewrite filter_cons_False by tauto.
  rewrite filter_all; [done|]. intros r0 Hr0 [E _].
  assert (0 < r_size r0) by (apply (live_size_pos c'); [done|]; rewrite Hl; by right).
  assert (0 < r_size r) by (apply (live_size_pos c'); [done|]; rewrite Hl; left).
  destruct (Hd r0 Hr0); lia.
Qed.

Lemma restore_ok c c' os address fake code its r e :
  hookable c os address fake code its -> installed c c' address fake its r ->
  patched e = {| start_ := address; rsize := Z.of_nat (length code) |} -> origin_code_ e = Some code ->
  exists v, restore_orig_code PageSize e c' = Ret (set_origin_code e None, with_space c' v) /\
    core_ok PageSize (with_space c' v) /\ quiet (with_space c' v) /\
    forall a, vm_mem v a = patch_mem (vm_mem (space c')) address code a.
Proof.
  intros H I Ep Eo. unfold restore_orig_code. rewrite Eo, Ep. cbn [rsize addr start_].
  destruct (in_target _ _ _ _ _ _ I) as [Hp _]. destruct (overwritten_size address fake) as [Hn4 Hn].
  assert (Hl : length code = length (tramp address fake)) by (rewrite (hk_code _ _ _ _ _ _ H); apply length_bytes_at).
  destruct (Z.eqb_spec (Z.of_nat (length code)) 0); [lia|].
  destruct (Z.eqb_spec address 0); [destruct Hp; lia|]. cbn [orb].
  destruct (core_patch PageSize pk page_size pk_range c' address code) as (v & -> & Hc & Hq & Hmem & _);
    [apply I|apply I|by rewrite Hl|]. cbn [mbind outcome_bind]. by exists v.
Qed.

Lemma delete_ok w c os address fake code its r e :
  hookable c os address fake code its -> installed c (w_core w) address fake its r ->
  patched e = {| start_ := address; rsize := Z.of_nat (length code) |} -> origin_code_ e = Some code ->
  relocated e = {| start_ := r_addr r; rsize := Z.of_nat (length (relo_bytes its)) |} ->
  exists c', delete_entry (R := R) PageSize e w
      = Ret (match handle e with Some h => with_handles (with_core w c') (alter retire h (handles w))
                            | None => with_core w c' end) /\
    core_ok PageSize c' /\ quiet c' /\ blocks c' ≡ₚ blocks c /\
    forall a, foreign c (w_core w) a -> vm_mem (space c') a = vm_mem (space c) a.
Proof.
  intros H I Ep Eo Er. pose proof (hookable_length _ _ _ _ _ _ H) as Hlen. unfold delete_entry.
  destruct (restore_ok c (w_core w) os address fake code its r e H I Ep Eo) as (v & -> & Hc1 & Hq1 & Hmem).
  cbn [mbind outcome_bind]. unfold release_relocated_code. cbn [relocated set_origin_code patched]. rewrite Er.
  cbn [addr start_ rsize]. assert (Hr : r ∈ blocks (w_core w)) by (rewrite (in_blocks _ _ _ _ _ _ I); left).
  pose proof (live_addr_pos PageSize pk ltac:(lia) _ r (co_alloc _ _ (in_core _ _ _ _ _ _ I)) Hr) as Hpos.
  destruct (Z.eqb_spec (r_addr r) 0); [lia|]. destruct (Z.eqb_spec (Z.of_nat (length (relo_bytes its))) 0); [lia|].
  cbn [negb andb].
  destruct (exec_free_ok PageSize pk page_size pk_range {| start_ := r_addr r; rsize := Z.of_nat (length (relo_bytes its)) |}
              (with_space (w_core w) v) Hc1) as (c' & -> & Hc' & Hun & Hbl & Hpg); [cbn; lia|].
  cbn [mbind outcome_bind handle set_blocks set_origin_code]. exists c'. split; [done|]. split; [done|].
  split; [by apply (un_quiet _ _ _ Hun)|].
  assert (Hbl' : blocks c' ≡ₚ blocks c) by (rewrite Hbl; apply (blocks_without c (w_core w)); apply I). split; [done|].
  intros a Ha. rewrite (un_mem _ _ _ Hun).
  - cbn [space with_space]. rewrite Hmem.
    assert (Hl : length code = length (tramp address fake)) by (rewrite (hk_code _ _ _ _ _ _ H); apply length_bytes_at).
    destruct (decide (address <= a < address + Z.of_nat (length (tramp address fake)))) as [Hin|Hout].
    + replace a with (address + Z.of_nat (Z.to_nat (a - address))) by lia. rewrite patch_mem_in by lia.
      rewrite (hk_code _ _ _ _ _ _ H). apply nth_bytes_at. lia.
    + rewrite patch_mem_out by lia. by apply (in_rest _ _ _ _ _ _ I).
  - destruct Ha as [(r0 & Hr0 & Hin)|[Hp Hp']]; [left|right].
    + split; exists r0; (split; [|done]); [|by rewrite Hbl'].
      change (r0 ∈ blocks (w_core w)). rewrite (in_blocks _ _ _ _ _ _ I). by right.
    + split; [done|]. intros Hin. by apply Hp', Hpg.
Qed.

Lemma remove_app es e a : find es a = None -> addr (patched e) = a -> remove (es ++ [e]) a = (Some e, es).
Proof.
  intros Hf He. induction es as [|x es IH]; cbn [remove app find] in *; [by rewrite He, Z.eqb_refl|].
  destruct (addr (patched x) =? a); [done|]. by rewrite IH.
Qed.

(** C6: A hook can be taken back.  After a successful [DobbyHookEx], [Interceptor::remove] finds the entry and leaves
    the table as it was, and deleting the entry puts every byte of the function back, returns the block of the
    relocated code to the allocator, and marks the caller's handle inactive; all memory outside the allocator's own
    pages, and every block handed out before, is as before the hook. *)
Theorem hook_roundtrip w ans address fake want_origin want_handle code its :
  hookable (w_core w) (os_alloc ans) address fake code its -> find (entries w) address = None ->
  is_Some (os_page (os_alloc ans)) -> os_permission (os_alloc ans) = true ->
  exists res w' e w'',
    DobbyHookEx PageSize ANDROID Upsert false ans address fake want_origin want_handle w = Ret (res, w') /\
    remove (entries w') address = (Some e, entries w) /\
    delete_entry PageSize e w' = Ret w'' /\
    core_ok PageSize (w_core w'') /\ blocks (w_core w'') ≡ₚ blocks (w_core w) /\
    (forall a, foreign (w_core w) (w_core w') a -> vm_mem (space (w_core w'')) a = vm_mem (space (w_core w)) a) /\
    (forall h, out_handle res = Some h -> exists x, handles w'' !! h = Some x /\ active x = false /\ h_entry x = None).
Proof.
  intros H Hfind Hpage Hperm.
  destruct (hook_granted w ans address fake want_origin want_handle code its H Hfind Hpage Hperm) as (r & c' & -> & I).
  set (w0 := with_core (snd (new_entry address fake w)) c').
  set (e0 := built (fst (new_entry address fake w)) r code its).
  set (e := if want_handle then set_handle e0 (Some (length (handles w0))) else e0).
  destruct (delete_ok (snd (publish Upsert address fake want_origin want_handle e0 w0)) (w_core w) (os_alloc ans)
              address fake code its r e H I) as (c2 & E & Hc & Hq & Hb & Hm); try by destruct want_handle.
  eexists _, _, e, _. split; [apply f_equal, surjective_pairing|]. split; [|split; [exact E|]].
  { cbn [snd publish entries]. unfold add. apply remove_app; [done|]. by destruct want_handle. }
  destruct want_handle; cbn [e handle set_handle e0 built set_origin_code set_blocks new_entry fst]; cbn [w_core with_core with_handles];
    (split; [done|]; split; [done|]; split; [done|]); cbn [out_handle publish fst]; [|done].
  intros h [= <-]. eexists. split; [|split].
  - cbn [handles with_handles with_core publish snd]. rewrite list_lookup_alter_eq, lookup_app_r by lia.
    by rewrite Nat.sub_diag.
  - done.
  - done.
Qed.

(** C20: A hook that cannot be installed leaves no trace.  Where the kernel grants every mprotect, [DobbyHookEx] on a hookable
    function returns, whatever the kernel answers to the allocator's request for a page.  If it gives a page and the permission
    for it the result is 0.  A result of -1 means that it did not, and then the table, the handles, the registry, the blocks
    handed out, the function and all other memory outside the allocator's own pages are unchanged.  Null arguments and a function that is
    hooked already are refused at once. *)
Theorem hook_errors w ans address fake want_origin want_handle :
  (forall code its, hookable (w_core w) (os_alloc ans) address fake code its -> find (entries w) address = None ->
     exists res w', DobbyHookEx PageSize ANDROID Upsert false ans address fake want_origin want_handle w = Ret (res, w') /\
       (ret res = 0 \/ res = failed /\ refused w w' (os_alloc ans)) /\
       (is_Some (os_page (os_alloc ans)) -> os_permission (os_alloc ans) = true -> ret res = 0)) /\
  (address = 0 \/ fake = 0 ->
     DobbyHookEx PageSize ANDROID Upsert false ans address fake want_origin want_handle w = Ret (failed, w)) /\
  (forall e, address <> 0 -> fake <> 0 -> find (entries w) address = Some e ->
     DobbyHookEx PageSize ANDROID Upsert false ans address fake want_origin want_handle w
       = Ret (failed, with_core w (make_memory_readable PageSize ANDROID address (w_core w)))).
Proof.
  split; [|split].
  - intros code its H Hfind.
    destruct (hook_run w ans address fake want_origin want_handle code its H Hfind) as [(r & c' & -> & _)|(w' & -> & Hr)].
    + do 2 eexists. split; [apply f_equal, surjective_pairing|]. split; [by left|done].
    + exists failed, w'. split; [done|]. split; [by right|]. intros [page Hpage] Hperm. destruct (rf_kernel _ _ _ Hr); congruence.
  - intros Hz. unfold DobbyHookEx. destruct (Z.eqb_spec address 0), (Z.eqb_spec fake 0); cbn [orb]; try done. lia.
  - intros e Ha Hf He. unfold DobbyHookEx. destruct (Z.eqb_spec address 0), (Z.eqb_spec fake 0); try done.
    cbn [orb entries with_core]. by rewrite He.
Qed.

(** ** A block that cannot be written *)

(** The same core with a kernel that grants every mprotect. *)
Definition quieted (c : core) : core :=
  with_space c {| vm_mem := vm_mem (space c); vm_prot := vm_prot (space c); vm_answers := [] |}.

(** The kernel readies the page on Android, and refuses the next request. *)
Lemma readable_quieted address c rest :
  vm_answers (space c) = (if ANDROID then [true] else []) ++ false :: rest ->
  let c' := make_memory_readable PageSize ANDROID address c in
  quieted c' = make_memory_readable PageSize ANDROID address (quieted c) /\ vm_answers (space c') = false :: rest.
Proof. unfold make_memory_readable, mprotect. intros E. destruct ANDROID; cbn in *; [|done]. by rewrite E. Qed.

(** [BuildRouting] when the block of the relocated code cannot be written: the routing is ready as if it had been. *)
Lemma build_routing_unwritten ans e fake c code its rest :
  hookable (quieted c) (os_alloc ans) (e_addr e) fake code its -> vm_answers (space c) = false :: rest -> false ∉ rest ->
  is_Some (os_page (os_alloc ans)) -> os_permission (os_alloc ans) = true ->
  exists ty r c', BuildRouting PageSize false ans e fake c
      = Ret ({| trampoline := Some {| type := ty; Arm64Trampoline.buffer := map Some (tramp (e_addr e) fake) |};
                near_trampoline := None; error := false |}, built e r code its, c') /\
    core_ok PageSize c' /\ quiet c' /\ blocks c' ≡ₚ r :: blocks c /\ Z.of_nat (length (relo_bytes its)) <= r_size r /\
    target_ok PageSize c' (e_addr e) (Z.of_nat (length (tramp (e_addr e) fake))) /\
    forall a, r_addr r <= a < r_addr r + r_size r ->
      vm_mem (space c') a = if decide (ALIGN_FLOOR a PageSize ∈ os_pages (gMemoryAllocator c)) then vm_mem (space c) a else 0.
Proof.
  intros H Ha Hno Hpage Hperm. pose proof (PageSize_4096 PageSize pk page_size pk_range) as HPS.
  pose proof (hookable_length _ _ _ _ _ _ H) as Hlen. unfold BuildRouting.
  assert (Hc : core_ok PageSize c) by (destruct (hk_core _ _ _ _ _ _ H); by split).
  assert (Han : answer_ok PageSize (os_alloc ans) c) by (destruct (hk_answer _ _ _ _ _ _ H); by split).
  assert (Ht : target_ok PageSize c (e_addr e) (Z.of_nat (length (tramp (e_addr e) fake)))) by exact (hk_target _ _ _ _ _ _ H).
  assert (Hcode : code = bytes_at c (e_addr e) (length (tramp (e_addr e) fake))) by exact (hk_code _ _ _ _ _ _ H).
  destruct (generate_trampoline (near_block ans) e fake c) as [ty ->]; [apply H|apply H|]. cbn [mbind outcome_bind].
  unfold GenerateRelocatedCode, trampoline_size. cbn [error the_trampoline near_trampoline trampoline Arm64Trampoline.buffer].
  rewrite fix_aligned, length_map by apply H. unfold GenRelocateCodeAndBranch. cbn [addr start_ rsize].
  rewrite ceil_tramp, target_read by exact Ht. cbn [mbind outcome_bind]. rewrite <- Hcode.
  destruct (hookable_relocate _ _ _ _ _ _ H) as (a & -> & Hrep & Hfix). cbn [mbind outcome_bind].
  unfold FinalizeFromTurboAssembler, CodeMemBuffer.size. rewrite (dup_ok _ _ Hrep), (mb_size _ _ Hrep), Hfix. cbn [mbind outcome_bind Z.eqb].
  rewrite defined_bytes_ok. cbn [mbind outcome_bind].
  destruct (alloc_unwritten PageSize pk page_size pk_range (os_alloc ans) (Z.of_nat (length (relo_bytes its))) (relo_bytes its) c rest Hc Han Ha Hno)
    as (r & c1 & v & -> & Ev & Hr0 & Hsz & Hc1 & Hun & Hq & Hl & Hpg & Hmem); try done; [lia|lia|].
  cbn [mbind outcome_bind addr start_]. rewrite (proj2 (Z.eqb_neq _ _) Hr0), Ev. cbn [mbind outcome_bind rsize].
  unfold resize. cbn [rsize start_]. destruct (Z.eqb_spec (Z.of_nat (length (relo_bytes its))) 0); [lia|].
  destruct (target_undisturbed PageSize c (with_space c1 v) (e_addr e) (Z.of_nat (length (tramp (e_addr e) fake))) Ht Hun) as [Ht' Hsame];
    [by apply (target_not_fresh PageSize c (with_space c1 v) (os_alloc ans))|].
  assert (Hback : bytes_at (with_space c1 v) (e_addr e) (length (tramp (e_addr e) fake)) = code) by (rewrite Hcode; by apply bytes_at_ext).
  cbn [mbind outcome_bind]. rewrite (backup_ok e (with_space c1 v) fake code) by done. cbn [mbind outcome_bind].
  assert (Hlc : length code = length (tramp (e_addr e) fake)) by (rewrite <- Hback; apply length_bytes_at).
  exists ty, r, (with_space c1 v). split; [unfold built; by rewrite Hlc|]. by split_and!.
Qed.

(** C26: The result of writing the relocated code is not looked at.  For any hookable function, with a page from the kernel: if the
    kernel refuses the mprotect that is to make the block of the relocated code writable, and grants all the others,
    [DobbyHookEx] activates the hook and returns 0 all the same.  The trampoline stands over the function, and the pointer handed out through
    [out_origin_func] leads to a block that holds not the original instructions, but what was there before: zeros if the page is new. *)
Theorem hook_ignores_patch_failure w ans address fake want_origin want_handle code its rest :
  hookable (quieted (w_core w)) (os_alloc ans) address fake code its -> find (entries w) address = None ->
  is_Some (os_page (os_alloc ans)) -> os_permission (os_alloc ans) = true ->
  vm_answers (space (w_core w)) = (if ANDROID then [true] else []) ++ false :: rest -> false ∉ rest ->
  exists r res w', DobbyHookEx PageSize ANDROID Upsert false ans address fake want_origin want_handle w = Ret (res, w') /\
    ret res = 0 /\ out_origin_func res = (if want_origin then Some (r_addr r) else None) /\
    blocks (w_core w') ≡ₚ r :: blocks (w_core w) /\ Z.of_nat (length (relo_bytes its)) <= r_size r /\
    bytes_at (w_core w') address (length (tramp address fake)) = tramp address fake /\
    forall a, r_addr r <= a < r_addr r + r_size r ->
      vm_mem (space (w_core w')) a =
        if decide (ALIGN_FLOOR a PageSize ∈ os_pages (gMemoryAllocator (w_core w))) then vm_mem (space (w_core w)) a else 0.
Proof.
  intros H Hfind Hpage Hperm Ha Hno. pose proof (hk_fake _ _ _ _ _ _ H) as Hf. destruct (hk_target _ _ _ _ _ _ H) as [(Ha0 & _) _].
  destruct (readable_quieted address (w_core w) rest Ha) as [Eq Ha1]. destruct (hookable_readable _ _ _ _ _ _ H) as (_ & _ & H1). rewrite <- Eq in H1.
  assert (Ec : gMemoryAllocator (make_memory_readable PageSize ANDROID address (w_core w)) = gMemoryAllocator (w_core w) /\
    vm_mem (space (make_memory_readable PageSize ANDROID address (w_core w))) = vm_mem (space (w_core w))).
  { unfold make_memory_readable. by destruct ANDROID. }
  destruct Ec as [Eg Em]. unfold DobbyHookEx.
  destruct (Z.eqb_spec address 0); [lia|]. destruct (Z.eqb_spec fake 0); [lia|]. cbn [orb entries with_core]. rewrite Hfind.
  cbn [new_entry fst snd w_core with_core next_entry_id_ handles runtime entries]. set (c1 := make_memory_readable _ _ _ _) in *.
  destruct (build_routing_unwritten ans (fst (new_entry address fake w)) fake c1 code its rest H1 Ha1 Hno Hpage Hperm)
    as (ty & r & c2 & E & Hc2 & Hq2 & Hl & Hsz & Ht & Hmem). cbn [new_entry fst e_addr] in E, Ht. rewrite E. cbn [mbind outcome_bind error].
  destruct (activate_ok ty (built (fst (new_entry address fake w)) r code its) address fake c2 eq_refl Hc2 Hq2 Ht)
    as (v & E' & Hc3 & _ & Hv & _). cbn [new_entry fst] in E'. rewrite E'. cbn [mbind outcome_bind error].
  exists r. do 2 eexists. split; [reflexivity|]. split; [done|]. split; [done|]. cbn [publish snd w_core with_core]. rewrite Eg, Em in *.
  split; [exact Hl|]. split; [done|]. split.
  - apply nth_ext with (d := 0) (d' := 0); [apply length_bytes_at|]. rewrite length_bytes_at. intros i Hi.
    rewrite nth_bytes_at by done. cbn [space with_space]. rewrite Hv. by apply patch_mem_in.
  - intros a Hin. rewrite <- Hmem by done. cbn [space with_space]. rewrite Hv. apply patch_mem_out.
    destruct (decide (address <= a < address + Z.of_nat (length (tramp address fake)))) as [Hat|]; [|lia]. exfalso.
    destruct Ht as [_ Hout]. apply (Hout a Hat). destruct (live_page PageSize pk page_size pk_range _ r a (co_alloc _ _ Hc2)) as (-> & Hin' & _);
      [rewrite Hl; left|done|done].
Qed.

End Spec.

(** ** A concrete hook

    A function of four instructions at 0x400000 and a replacement far away; nothing allocated yet. *)

Definition sample_core (answers : list bool) : core :=
  {| space := {| vm_mem := fun a => if a <? 0x400000 then 0 else nth (Z.to_nat (a - 0x400000)) sample_block 0;
                 vm_prot := {[0x400000 := 5]}; vm_answers := answers |};
     gMemoryAllocator := MemoryAllocator_new |}.

Definition sample_world (answers : list bool) : world (R := list HookRecord) :=
  {| w_core := sample_core answers; next_entry_id_ := 1; entries := []; handles := []; runtime := [] |}.

Definition sample_answers : answers := {| os_alloc := sample_os; near_block := 0 |}.

Lemma sample_code : bytes_at (sample_core []) 0x400000 16 = sample_block.
Proof. vm_compute. reflexivity. Qed.

Lemma sample_hookable :
  exists its, hookable 4096 (sample_core []) sample_os 0x400000 0x7000000000 sample_block its.
Proof.
  destruct (relo_block 0x400000 4 sample_block true) as [its|] eqn:E; [|vm_compute in E; discriminate].
  exists its. assert (Ef : forall a, 0x400000 <= a < 0x400000 + 16 -> ALIGN_FLOOR a 4096 = 0x400000).
  { intros a Ha. apply (floor_in_page 4096 12 eq_refl ltac:(lia)); [done|lia]. }
  constructor.
  - split; [apply (mem_ok_new 4096)|]. intros p Hp. by apply not_elem_of_empty in Hp.
  - by intros ?%elem_of_nil.
  - split; [apply sample_os_ok|]. by intros p [= <-].
  - reflexivity.
  - lia.
  - lia.
  - split; [|intros a Ha; cbn; apply not_elem_of_empty]. split; [lia|]. split; [vm_compute; split; reflexivity|].
    split; [vm_compute; discriminate|]. intros a Ha. rewrite Ef; [reflexivity|exact Ha].
  - symmetry. exact sample_code.
  - exact sample_block_ok.
  - exact E.
Qed.

Example hook_installs_witness :
  exists r res w', DobbyHookEx 4096 true cons false sample_answers 0x400000 0x7000000000 true true (sample_world []) = Ret (res, w') /\
    ret res = 0 /\ out_origin_func res = Some (r_addr r) /\
    forall s, mem s = vm_mem (space (w_core w')) -> reaches 0x400000 0x7000000000 s.
Proof.
  destruct sample_hookable as [its H].
  destruct (hook_installs 4096 12 eq_refl ltac:(lia) true cons (sample_world []) sample_answers 0x400000 0x7000000000
              true true sample_block its H eq_refl ltac:(by eexists) eq_refl ltac:(vm_compute; reflexivity))
    as (r & e & res & w' & E & Er & Eo & _ & _ & _ & _ & Hrun).
  exists r, res, w'. split; [exact E|]. split; [done|]. split; [done|]. intros s Hs. by apply Hrun.
Defined.

Example hook_roundtrip_witness :
  exists res w' e w'', DobbyHookEx 4096 true cons false sample_answers 0x400000 0x7000000000 true true (sample_world []) = Ret (res, w') /\
    remove (entries w') 0x400000 = (Some e, []) /\ delete_entry 4096 e w' = Ret w'' /\
    live (gMemoryAllocator (w_core w'')) = [].
Proof.
  destruct sample_hookable as [its H].
  destruct (hook_roundtrip 4096 12 eq_refl ltac:(lia) true cons (sample_world []) sample_answers 0x400000 0x7000000000
              true true sample_block its H eq_refl ltac:(by eexists) eq_refl)
    as (res & w' & e & w'' & E & Er & Ed & _ & Hb & _).
  exists res, w', e, w''. split; [exact E|]. split; [exact Er|]. split; [exact Ed|]. by apply Permutation_nil_r in Hb.
Defined.

(** The kernel gives no page: the hook is refused. *)
Example hook_errors_witness :
  let ans := {| os_alloc := {| os_page := None; os_permission := true; os_new := 1 |}; near_block := 0 |} in
  exists res w', DobbyHookEx 4096 false cons false ans 0x400000 0x7000000000 true true (sample_world []) = Ret (res, w') /\
    (ret res = 0 \/ res = failed /\ refused 4096 (sample_world []) w' (os_alloc ans)) /\ ret res = -1.
Proof.
  intros ans. destruct sample_hookable as [its H].
  assert (H' : hookable 4096 (w_core (sample_world [])) (os_alloc ans) 0x400000 0x7000000000 sample_block its).
  { destruct H as [H1 H2 [[Ho1 Ho2] H3] H4 H5 H6 H7 H8 H9 H10].
    constructor; [exact H1|exact H2| |exact H4|exact H5|exact H6|exact H7|exact H8|exact H9|exact H10].
    by split; [split|]. }
  destruct (hook_errors 4096 12 eq_refl ltac:(lia) false cons (sample_world []) ans 0x400000 0x7000000000 true true)
    as [Hok _].
  destruct (Hok sample_block its H' eq_refl) as (res & w' & E & Hres & _). exists res, w'. split; [exact E|]. split; [exact Hres|].
  assert (Ev : (fun x => ret (fst x)) <$> DobbyHookEx 4096 false cons false ans 0x400000 0x7000000000 true true (sample_world [])
               = Ret (-1)) by (vm_compute; reflexivity).
  rewrite E in Ev. by injection Ev.
Defined.

(** The mprotect of the relocated block is refused: the origin pointer leads to zeros. *)
Example hook_ignores_patch_failure_witness :
  exists r res w', DobbyHookEx 4096 true cons false sample_answers 0x400000 0x7000000000 true false (sample_world [true; false]) = Ret (res, w') /\
    ret res = 0 /\ out_origin_func res = Some (r_addr r) /\ vm_mem (space (w_core w')) (r_addr r) = 0 /\
    bytes_at (w_core w') 0x400000 16 = tramp 0x400000 0x7000000000.
Proof.
  destruct sample_hookable as [its H].
  destruct (hook_ignores_patch_failure 4096 12 eq_refl ltac:(lia) true cons (sample_world [true; false]) sample_answers 0x400000 0x7000000000
              true false sample_block its [] H eq_refl ltac:(by eexists) eq_refl eq_refl ltac:(by intros ?%elem_of_nil))
    as (r & res & w' & E & Er & Eo & _ & Hsz & Htr & Hm).
  exists r, res, w'. split; [exact E|]. split; [exact Er|]. split; [exact Eo|]. split; [|exact Htr].
  assert (0 < Z.of_nat (length (relo_bytes its)) <= 140) by (eapply (hookable_length 4096 12); [lia|exact H]).
  rewrite Hm by lia. rewrite decide_False; [reflexivity|]. apply not_elem_of_empty.
Defined.
