(* ===== verification/InstrumentRouting.v ===== *)
(** * Instrumenting a function (InterceptRouting/InstrumentRouting.h, ClosureTrampolineBridge)

    [DobbyInstrument] on ARM64: a closure trampoline for the entry is generated, the
    function is hooked to it, and the callback is left in the entry.  The trampoline is a
    copy of the assembled closure_trampoline_arm64.asm with two words filled in, the
    trampoline object and the bridge.  [closure_bridge_asm] and [dispatch] are the
    addresses of the bridge and of [instrument_routing_dispatch] in the program, [self] the
    address [new] returned for the trampoline object; an entry is referred to by its
    number.  What the trampoline and the bridge do on ARM32 is in Arm32Instrument. *)

From stdpp Require Import gmap.
From S2P Require Import Prelude UtilityMacro CodeMemBuffer Arm64Assembler Arm64Relocation Arm64Machine.
From S2P Require Import BitFields Arm64Simulation Arm64Trampoline CodePatch LinearAllocator MemoryAllocator.
From S2P Require Import MemoryAllocatorSpec HookRouting HookBlocks HookSpec.
#[local] Open Scope Z_scope.
#[local] Open Scope machine_scope.

(** ** Closure trampolines *)

Record ClosureTrampoline := {
  ct_type : trampoline_type_t;
  ct_buffer : MemRange;
  carry_data : Z;
  carry_handler : Z;
}.

(** closure_trampoline_arm64.asm, assembled. *)
Definition closure_trampoline_asm : list Z :=
  concat (map (le_bytes 4)
    [0xd10043ff;   (** sub sp, sp, #16 *)
     0xf90007fe;   (** str x30, [sp, #8] *)
     0x580000f1;   (** ldr x17, closure_tramp_entry_addr *)
     0xf90003f1;   (** str x17, [sp] *)
     0x580000f1;   (** ldr x17, closure_bridge_addr *)
     0xd63f0220;   (** blr x17 *)
     0xf94007fe;   (** ldr x30, [sp, #8] *)
     0x910043ff;   (** add sp, sp, #16 *)
     0xd61f0220])  (** br x17 *)
  ++ le_bytes 8 0 ++ le_bytes 8 0.

Section Instrument.
Context (PageSize : Z) (ANDROID : bool) {R : Type} (Upsert : HookRecord -> R -> R).
Context (closure_bridge_asm dispatch : Z).

(** [closure_bridge_init]; the argument is [closure_bridge_addr]. *)
Definition closure_bridge_init : Z := closure_bridge_asm.

(** [GenerateClosureTrampoline]: the trampoline, the new [closure_bridge_addr] and the core.  The result of the patch is
    dropped. *)
Definition GenerateClosureTrampoline (os : os_answer) (self carry_data carry_handler closure_bridge_addr : Z) (c : core)
    : outcome (ClosureTrampoline * Z * core) :=
  let closure_bridge_addr := if closure_bridge_addr =? 0 then closure_bridge_init else closure_bridge_addr in
  let tramp_size := Z.of_nat (length closure_trampoline_asm) in
  let tramp_buf := closure_trampoline_asm ++ repeat 0 12 in
  let closure_tramp_off := (9 * 4)%nat in
  let closure_bridge_addr_off := (closure_tramp_off + 8)%nat in
  let tramp_buf := splice tramp_buf closure_tramp_off (le_bytes 8 self) in
  let tramp_buf := splice tramp_buf closure_bridge_addr_off (le_bytes 8 closure_bridge_addr) in
  '(tramp_block, c) ← allocExecBlock PageSize os tramp_size c;
  '(_, v) ← DobbyCodePatch PageSize (addr tramp_block) (take (Z.to_nat tramp_size) tramp_buf) (space c);
  Ret ({| ct_type := CLOSURE_TRAMPOLINE_ARM64; ct_buffer := tramp_block; carry_data := carry_data; carry_handler := carry_handler |},
       closure_bridge_addr, with_space c v).

Definition GenerateInstrumentClosureTrampoline (os : os_answer) (self entry closure_bridge_addr : Z) (c : core)
    : outcome (ClosureTrampoline * Z * core) :=
  GenerateClosureTrampoline os self entry dispatch closure_bridge_addr c.

(** [Trampoline::release_buffer] of a buffer of the executable allocator, which is what the destructor of the closure
    trampoline does. *)
Definition release_buffer (t : ClosureTrampoline) (c : core) : outcome core :=
  if (addr (ct_buffer t) =? 0) || (rsize (ct_buffer t) =? 0) then Ret c else freeExecBlock PageSize (ct_buffer t) c.

(** ** DobbyInstrument *)

(** The answers of the kernel and of [new] to the coming requests. *)
Record instrument_answers := {
  os_closure : os_answer;
  new_closure : Z;
  hook_answers : answers;
}.

(** The state of the hooks, [closure_bridge_addr], the closure trampolines of the routings and the [pre_handler]s of the
    entries, both by the number of the entry. *)
Record instruments := {
  hooks : world (R := R);
  closure_bridge_addr : Z;
  instrument_tramps : list (Z * ClosureTrampoline);
  pre_handlers : list (Z * Z);
}.

(** [InstrumentRouting::BuildRouting]. *)
Definition InstrumentRouting_BuildRouting (near : bool) (ans : instrument_answers) (e : Entry) (bridge : Z) (c : core)
    : outcome (InterceptRouting * ClosureTrampoline * Entry * Z * core) :=
  '(instrument_tramp, bridge, c) ← GenerateInstrumentClosureTrampoline (os_closure ans) (new_closure ans) (id e) bridge c;
  '(r, c) ← GenerateTrampoline PageSize near (near_block (hook_answers ans)) e (addr (ct_buffer instrument_tramp)) c;
  '(r, e, c) ← GenerateRelocatedCode PageSize (os_alloc (hook_answers ans)) r e c;
  e ← backup_orig_code PageSize e c;
  Ret (r, instrument_tramp, e, bridge, c).

(** [delete routing; delete entry]; the heap copies and the near blocks of the routing's trampolines are not part of the
    core. *)
Definition delete_routing_and_entry (t : ClosureTrampoline) (e : Entry) (w : world (R := R)) : outcome (world (R := R)) :=
  c ← release_buffer t (w_core w);
  delete_entry PageSize e (with_core w c).

Definition instrument_record (address : Z) (e : Entry) : HookRecord :=
  {| k_target := address; k_replace := 0; k_backup := 0; k_trampoline := addr (relocated e); k_enabled := true;
     k_patch_addr := addr (patched e); k_patch_size := rsize (patched e) |}.

(** The end of [DobbyInstrument]: the entry is in the table. *)
Definition publish_instrument (address pre_handler : Z) (t : ClosureTrampoline) (e : Entry) (bridge : Z) (w : world (R := R)) (i : instruments) : instruments :=
  {| hooks := {| w_core := w_core w; next_entry_id_ := next_entry_id_ w; entries := add (entries w) e; handles := handles w;
                 runtime := Upsert (instrument_record address e) (runtime w) |};
     closure_bridge_addr := bridge;
     instrument_tramps := instrument_tramps i ++ [(id e, t)];
     pre_handlers := pre_handlers i ++ [(id e, pre_handler)] |}.

Definition with_hooks (i : instruments) (bridge : Z) (w : world (R := R)) : instruments :=
  {| hooks := w; closure_bridge_addr := bridge; instrument_tramps := instrument_tramps i; pre_handlers := pre_handlers i |}.

Definition DobbyInstrument (near : bool) (ans : instrument_answers) (address pre_handler : Z) (i : instruments) : outcome (Z * instruments) :=
  if address =? 0 then Ret (-1, i)
  else
    let w := with_core (hooks i) (make_memory_readable PageSize ANDROID address (w_core (hooks i))) in
    match find (entries w) address with
    | Some _ => Ret (-1, with_hooks i (closure_bridge_addr i) w)
    | None =>
        let '(entry, w) := new_entry address 0 w in   (** [fake_func_addr] is not set, and not used *)
        '(routing, instrument_tramp, entry, bridge, c) ← InstrumentRouting_BuildRouting near ans entry (closure_bridge_addr i) (w_core w);
        if error routing then
          w ← delete_routing_and_entry instrument_tramp entry (with_core w c);
          Ret (-1, with_hooks i bridge w)
        else
          '(routing, c) ← Active PageSize routing entry c;
          if error routing then
            '(entry, c) ← restore_orig_code PageSize entry c;
            w ← delete_routing_and_entry instrument_tramp entry (with_core w c);
            Ret (-1, with_hooks i bridge w)
          else Ret (0, publish_instrument address pre_handler instrument_tramp entry bridge (with_core w c) i)
    end.
End Instrument.
