(* ===== verification/InstrumentSpec.v ===== *)
(** * Correctness of an instrumented function

    [DobbyInstrument] put together from the parts, on top of the results on inline hooks:
    the hook of the function leads to a closure trampoline of its own, whose object carries
    the entry to the dispatcher. *)

From stdpp Require Import gmap.
From S2P Require Import Prelude UtilityMacro CodeMemBuffer Arm64Assembler Arm64Relocation Arm64Machine.
From S2P Require Import BitFields Arm64Simulation Arm64Trampoline CodePatch LinearAllocator MemoryAllocator.
From S2P Require Import MemoryAllocatorSpec HookRouting HookBlocks HookSpec InstrumentRouting.
#[local] Open Scope Z_scope.
#[local] Open Scope machine_scope.

(** The bytes of a closure trampoline: nine instructions and two literals. *)
Definition closure_bytes (self bridge : Z) : list Z := take 36 closure_trampoline_asm ++ le_bytes 8 self ++ le_bytes 8 bridge.

Lemma closure_bytes_filled self bridge :
  take 52 (splice (splice (closure_trampoline_asm ++ repeat 0 12) 36 (le_bytes 8 self)) 44 (le_bytes 8 bridge)) = closure_bytes self bridge.
Proof. reflexivity. Qed.

Section Spec.
Context (PageSize pk : Z).
Hypothesis page_size : PageSize = 2 ^ pk.
Hypothesis pk_range : 12 <= pk < 31.
Context (ANDROID : bool) {R : Type} (Upsert : HookRecord -> R -> R).
Context (closure_bridge_asm dispatch : Z).

Abbreviation blocks c := (live (gMemoryAllocator c)).
(** [closure_bridge_addr] once a trampoline was generated. *)
Definition bridge_after (b : Z) : Z := if b =? 0 then closure_bridge_asm else b.

(** A closure trampoline is stored in a block of its own; without a page from the kernel nothing has changed and its
    address is 0. *)
Lemma closure_generated os self data h bridge c :
  core_ok PageSize c -> answer_ok PageSize os c -> quiet c ->
  exists b c1 c2, allocExecBlock PageSize os 52 c = Ret (b, c1) /\
    GenerateClosureTrampoline PageSize closure_bridge_asm os self data h bridge c
      = Ret ({| ct_type := CLOSURE_TRAMPOLINE_ARM64; ct_buffer := b; carry_data := data; carry_handler := h |}, bridge_after bridge, c2) /\
    gMemoryAllocator c2 = gMemoryAllocator c1 /\ vm_prot (space c2) = vm_prot (space c1) /\
    (forall p, p ∈ os_pages (gMemoryAllocator c2) -> p ∈ os_pages (gMemoryAllocator c) \/ os_page os = Some p) /\
    ((b = MemRange_empty /\ c2 = c1 /\ (os_page os = None \/ os_permission os = false)) \/
     exists r, b = {| start_ := r_addr r; rsize := 52 |} /\ stored PageSize c c2 r (closure_bytes self (bridge_after bridge))).
Proof.
  intros Hc Han Hq. pose proof (PageSize_4096 PageSize pk page_size pk_range) as HP.
  destruct (alloc_and_patch PageSize pk page_size pk_range os 52 (closure_bytes self (bridge_after bridge)) c Hc Han Hq) as (b & c1 & E & Hpg & Hcase);
    [vm_compute; by split|lia|].
  unfold GenerateClosureTrampoline. change (Z.of_nat (length closure_trampoline_asm)) with 52. change (Z.to_nat 52) with 52%nat.
  change (9 * 4)%nat with 36%nat. change (36 + 8)%nat with 44%nat. cbv zeta. unfold closure_bridge_init. fold (bridge_after bridge).
  rewrite closure_bytes_filled, E.
  cbn [mbind outcome_bind]. destruct Hcase as [(-> & _ & _ & _ & Hno)|(r & v & -> & Hr0 & Hpr & Ev & Hq2 & Hst)].
  - cbn [addr start_ MemRange_empty]. exists MemRange_empty, c1, (with_space c1 (space c1)). split; [done|]. split; [reflexivity|].
    split_and!; try done. left. split_and!; try done. by destruct c1.
  - cbn [addr start_]. rewrite Ev. cbn [mbind outcome_bind]. do 3 eexists. split; [reflexivity|]. split; [reflexivity|].
    split_and!; try done. right. by exists r.
Qed.

(** A function that can be hooked to [T] still can once a block was filled for something else. *)
Lemma hookable_later c c1 c2 os os' address T code its r l :
  hookable PageSize c os address T code its -> stored PageSize c c2 r l ->
  (forall p, p ∈ os_pages (gMemoryAllocator c2) -> p ∈ os_pages (gMemoryAllocator c) \/ os_page os = Some p) ->
  answer_ok PageSize os' c1 -> gMemoryAllocator c2 = gMemoryAllocator c1 -> vm_prot (space c2) = vm_prot (space c1) ->
  hookable PageSize c2 os' address T code its.
Proof.
  intros H (Hc2 & Hun & _) Hpg [Ha1 Ha2] Eg Ep.
  destruct (target_undisturbed PageSize c c2 address (Z.of_nat (length (tramp address T)))) as [Ht Hm];
    [apply H|done|apply (target_not_fresh PageSize c c2 os); try done; apply H|].
  split; try done; try apply H.
  - apply (un_quiet _ _ _ Hun), (hk_quiet _ _ _ _ _ _ _ H).
  - split; [by rewrite Eg|by rewrite Ep].
  - rewrite (hk_code _ _ _ _ _ _ _ H). symmetry. by apply bytes_at_ext.
Qed.

(** The routing of an instrumented function is the routing of a hook to its closure trampoline. *)
Lemma instrument_routing near ans e bridge c t b c2 r e' c3 :
  GenerateInstrumentClosureTrampoline PageSize closure_bridge_asm dispatch (os_closure ans) (new_closure ans) (id e) bridge c = Ret (t, b, c2) ->
  BuildRouting PageSize near (hook_answers ans) e (addr (ct_buffer t)) c2 = Ret (r, e', c3) ->
  InstrumentRouting_BuildRouting PageSize closure_bridge_asm dispatch near ans e bridge c = Ret (r, t, e', b, c3).
Proof.
  intros E1 E2. unfold InstrumentRouting_BuildRouting. rewrite E1. cbn [mbind outcome_bind]. unfold BuildRouting in E2.
  destruct (GenerateTrampoline _ _ _ _ _ _) as [[r0 c0]| |]; [|done|done]. cbn [mbind outcome_bind] in *.
  destruct (GenerateRelocatedCode _ _ _ _ _) as [[[r1 e1] c4]| |]; [|done|done]. cbn [mbind outcome_bind] in *.
  destruct (backup_orig_code _ _ _) as [e2| |]; [|done|done]. cbn [mbind outcome_bind] in *. by injection E2 as -> -> ->.
Qed.

Lemma pages_grow c c' r : core_ok PageSize c -> core_ok PageSize c' -> blocks c' ≡ₚ r :: blocks c ->
  forall p, p ∈ os_pages (gMemoryAllocator c) -> p ∈ os_pages (gMemoryAllocator c').
Proof.
  intros Hc Hc' Hl p. rewrite (os_pages_live PageSize _ (co_alloc _ c Hc)), (os_pages_live PageSize _ (co_alloc _ c' Hc')).
  rewrite !elem_of_list_to_set, !list_elem_of_fmap. intros (x & -> & Hx). exists x. split; [done|]. rewrite Hl. by right.
Qed.

(** What [DobbyInstrument] needs: the function can be hooked to the block the allocator has for the closure trampoline, and
    the kernel provides memory for both. *)
Record instrumentable (c : core) (ans : instrument_answers) (address : Z) (code : list Z) (its : list item) : Prop := {
  im_core : core_ok PageSize c;
  im_quiet : quiet c;
  im_answer : answer_ok PageSize (os_closure ans) c;
  im_hook : forall b c1, allocExecBlock PageSize (os_closure ans) 52 c = Ret (b, c1) -> addr b <> 0 ->
    hookable PageSize c (os_closure ans) address (addr b) code its /\
    answer_ok PageSize (os_alloc (hook_answers ans)) c1 /\ adrp_overflows address (addr b) = false;
  im_pages : is_Some (os_page (os_closure ans)) /\ os_permission (os_closure ans) = true /\
    is_Some (os_page (os_alloc (hook_answers ans))) /\ os_permission (os_alloc (hook_answers ans)) = true;
}.

(** The state of an instrumented function: the hook to the closure trampoline in the block [T], the relocated instructions
    in the block [r]. *)
Record instrumented_core (c c' : core) (address self bridge : Z) (code : list Z) (its : list item) (T r : AllocationRecord) : Prop := {
  ic_core : core_ok PageSize c';
  ic_quiet : quiet c';
  ic_blocks : blocks c' ≡ₚ r :: T :: blocks c;
  ic_disjoint : disjoint T r /\ forall r0, r0 ∈ blocks c -> disjoint r0 T /\ disjoint r0 r;
  ic_closure : forall i, (i < 52)%nat -> vm_mem (space c') (r_addr T + Z.of_nat i) = nth i (closure_bytes self bridge) 0;
  ic_rest : forall a, ~ (address <= a < address + Z.of_nat (length (tramp address (r_addr T)))) -> foreign PageSize c c' a ->
    vm_mem (space c') a = vm_mem (space c) a;
  ic_runs : forall s, mem s = vm_mem (space c') ->
    reaches address (r_addr T) s /\ copies address code its (r_addr r) (overwritten address (r_addr T)) s;
}.

Lemma installed_instrumented c c2 c' os os' address self bridge code its T r :
  hookable PageSize c os address (r_addr T) code its -> stored PageSize c c2 T (closure_bytes self bridge) ->
  hookable PageSize c2 os' address (r_addr T) code its -> installed PageSize c2 c' address (r_addr T) its r ->
  adrp_overflows address (r_addr T) = false ->
  instrumented_core c c' address self bridge code its T r.
Proof.
  intros H (Hc2 & Hun & Hl & He & Hsz & Hhi & Hpos & Hd & Hcode) H2 I Hov.
  assert (HT : T ∈ blocks c2) by (rewrite Hl; left). change (Z.of_nat (length (closure_bytes self bridge))) with 52 in Hsz.
  assert (Hout : forall a, owned c2 a -> ~ (address <= a < address + Z.of_nat (length (tramp address (r_addr T))))).
  { intros a (r0 & Hr0 & Hin) Ha. destruct (hk_target _ _ _ _ _ _ _ H2) as [_ Ho]. apply (Ho a Ha).
    destruct (live_page PageSize pk page_size pk_range _ r0 a (co_alloc _ _ Hc2) Hr0 Hin) as (-> & Hp & _). exact Hp. }
  split.
  - apply I.
  - apply I.
  - rewrite (in_blocks _ _ _ _ _ _ _ I). by rewrite Hl.
  - split; [by apply (in_disjoint _ _ _ _ _ _ _ I)|]. intros r0 Hr0. split; [by apply Hd|]. apply (in_disjoint _ _ _ _ _ _ _ I). rewrite Hl. by right.
  - intros i Hi. rewrite <- Hcode by done. assert (Ho : owned c2 (r_addr T + Z.of_nat i)) by (exists T; split; [done|lia]).
    apply (in_rest _ _ _ _ _ _ _ I); [by apply Hout|by left].
  - intros a Ha Hf. transitivity (vm_mem (space c2) a).
    + apply (in_rest _ _ _ _ _ _ _ I); [done|]. destruct Hf as [Ho|[Hp Hp']]; [left; by apply (owned_grows c c2 T)|right].
      split; [|done]. intros Hin. apply Hp'. by apply (pages_grow c2 c' r Hc2 (in_core _ _ _ _ _ _ _ I) (in_blocks _ _ _ _ _ _ _ I)).
    + apply (un_mem _ _ _ Hun). destruct Hf as [Ho|[Hp Hp']]; [left; split; [done|by apply (owned_grows c c2 T)]|right].
      split; [done|]. intros Hin. apply Hp'. by apply (pages_grow c2 c' r Hc2 (in_core _ _ _ _ _ _ _ I) (in_blocks _ _ _ _ _ _ _ I)).
  - intros s Hs. by apply (installed_runs PageSize pk pk_range c2 c' os').
Qed.

Abbreviation instrument := (DobbyInstrument PageSize ANDROID Upsert closure_bridge_asm dispatch false).

(** [BuildRouting] of an instrumentable function. *)
Lemma instrument_builds ans e bridge c code its :
  instrumentable c ans (e_addr e) code its -> patched e = MemRange_empty ->
  let address := e_addr e in
  exists T r ty c2 c3,
    InstrumentRouting_BuildRouting PageSize closure_bridge_asm dispatch false ans e bridge c
      = Ret ({| trampoline := Some {| type := ty; Arm64Trampoline.buffer := map Some (tramp address (r_addr T)) |}; near_trampoline := None; error := false |},
             {| ct_type := CLOSURE_TRAMPOLINE_ARM64; ct_buffer := {| start_ := r_addr T; rsize := 52 |}; carry_data := id e; carry_handler := dispatch |},
             built e r code its, bridge_after bridge, c3) /\
    hookable PageSize c (os_closure ans) address (r_addr T) code its /\ stored PageSize c c2 T (closure_bytes (new_closure ans) (bridge_after bridge)) /\
    hookable PageSize c2 (os_alloc (hook_answers ans)) address (r_addr T) code its /\ stored PageSize c2 c3 r (relo_bytes its) /\ quiet c3 /\
    target_ok PageSize c3 address (Z.of_nat (length (tramp address (r_addr T)))) /\ adrp_overflows address (r_addr T) = false.
Proof.
  intros [Hc Hq Han Hh ([p1 Hp1] & Hperm1 & [p2 Hp2] & Hperm2)] Ep address.
  destruct (closure_generated (os_closure ans) (new_closure ans) (id e) dispatch bridge c Hc Han Hq)
    as (b & c1 & c2 & Ea & Eg & Egm & Epr & Hpg & [(_ & _ & [H|H])|(T & -> & Hst)]); [congruence|congruence|].
  destruct (Hh _ _ Ea) as (H & Han2 & Hov); [pose proof Hst as (_ & _ & _ & _ & _ & _ & Hpos & _); cbn [addr start_]; lia|]. cbn [addr start_] in H, Hov.
  pose proof (hookable_later c c1 c2 _ _ _ _ _ _ _ _ H Hst Hpg Han2 Egm Epr) as H2.
  destruct (build_routing_cases PageSize pk page_size pk_range (hook_answers ans) e (r_addr T) c2 code its H2 Ep)
    as ([[rt en] c3] & E & [(ty & r & [= -> ->] & Hst2 & Hq3 & Ht)|(_ & _ & _ & _ & _ & [H3|H3])]); [|congruence|congruence].
  exists T, r, ty, c2, c3. split; [|by split_and!].
  exact (instrument_routing false ans e bridge c _ _ c2 _ _ c3 Eg E).
Qed.

(** C4: Instrumentation does what it is for.  If the function at [address] can be hooked and the kernel provides memory,
    [DobbyInstrument] returns 0 and: the table finds a new entry for [address] with the callback; the entry's closure
    trampoline is in a block of its own and holds the trampoline object and the bridge; calls of the function arrive at the
    closure trampoline with only x17 changed; the relocated function, where the dispatcher sends control afterwards, behaves
    like the overwritten instructions and continues in the function; all other memory is unchanged. *)
Theorem instrument_installs ans address handler (i : instruments (R := R)) code its :
  let c := make_memory_readable PageSize ANDROID address (w_core (hooks i)) in
  address <> 0 -> find (entries (hooks i)) address = None -> instrumentable c ans address code its ->
  exists T r e t i', DobbyInstrument PageSize ANDROID Upsert closure_bridge_asm dispatch false ans address handler i = Ret (0, i') /\
    entries (hooks i') = entries (hooks i) ++ [e] /\ find (entries (hooks i')) address = Some e /\ addr (relocated e) = r_addr r /\
    (id e, handler) ∈ pre_handlers i' /\ (id e, t) ∈ instrument_tramps i' /\ ct_buffer t = {| start_ := r_addr T; rsize := 52 |} /\
    carry_data t = id e /\ carry_handler t = dispatch /\
    instrumented_core c (w_core (hooks i')) address (new_closure ans) (bridge_after (closure_bridge_addr i)) code its T r.
Proof.
  intros c Ha Hfind Hi. set (e0 := fst (new_entry address 0 (hooks i))).
  destruct (instrument_builds ans e0 (closure_bridge_addr i) c code its Hi eq_refl) as (T & r & ty & c2 & c3 & E & H & Hst & H2 & Hst2 & Hq3 & Ht & Hov).
  change (e_addr e0) with address in *.
  destruct (activate_ok PageSize pk page_size pk_range ty (built e0 r code its) address (r_addr T) c3 eq_refl (proj1 Hst2) Hq3 Ht) as (v & E' & Hc4 & Hq4 & Hmem & Hpr).
  pose proof (hookable_length PageSize pk pk_range _ _ _ _ _ _ H2) as Hlen.
  pose proof (stored_installed PageSize pk page_size pk_range c2 c3 v address (r_addr T) its r Hst2 Ht (hk_high _ _ _ _ _ _ _ H) Hc4 Hq4 Hmem Hpr ltac:(lia)) as I.
  unfold DobbyInstrument. rewrite (proj2 (Z.eqb_neq _ _) Ha). cbn [entries with_core]. rewrite Hfind. cbn [w_core with_core new_entry entries next_entry_id_ handles runtime].
  fold c. change {| id := _; fake_func_addr := 0; e_addr := address; patched := _; relocated := _; handle := _; origin_code_ := _ |} with e0.
  rewrite E. cbn [mbind outcome_bind error]. rewrite E'. cbn [mbind outcome_bind error].
  exists T, r, (built e0 r code its). do 2 eexists. split; [reflexivity|]. cbn [publish_instrument hooks entries w_core with_core pre_handlers instrument_tramps].
  split; [reflexivity|]. split; [unfold add; rewrite find_app, Hfind; cbn; by rewrite Z.eqb_refl|]. split; [reflexivity|].
  split; [apply elem_of_app; right; by apply list_elem_of_singleton|]. split; [apply elem_of_app; right; by apply list_elem_of_singleton|].
  split; [reflexivity|]. split; [reflexivity|]. split; [reflexivity|].
  by apply (installed_instrumented c c2 _ (os_closure ans) (os_alloc (hook_answers ans))).
Qed.
End Spec.

(** ** A concrete instrumented function: the one at 0x400000 of HookSpec *)

Definition second_page_os : os_answer := {| os_page := Some 0x20000; os_permission := true; os_new := 2 |}.
Definition sample_instrument : instrument_answers :=
  {| os_closure := sample_os; new_closure := 0x7000; hook_answers := {| os_alloc := second_page_os; near_block := 0 |} |}.
Definition sample_instruments (answers : list bool) : instruments (R := list HookRecord) :=
  {| hooks := sample_world answers; closure_bridge_addr := 0; instrument_tramps := []; pre_handlers := [] |}.

Lemma sample_instrumentable : exists code its, instrumentable 4096 (sample_core []) sample_instrument 0x400000 code its.
Proof.
  set (code := bytes_at (sample_core []) 0x400000 12).
  destruct (relo_block 0x400000 3 code true) as [its|] eqn:E; [|vm_compute in E; discriminate]. exists code, its.
  destruct sample_hookable as [its0 H0]. assert (Hb : bytes_ok code).
  { replace code with (take 12 sample_block) by (vm_compute; reflexivity). by apply Forall_take, sample_block_ok. }
  assert (Ea : match allocExecBlock 4096 sample_os 52 (sample_core []) with
               | Ret (b, c1) => bool_decide (addr b = 0x10000) && bool_decide (0x20000 ∉ os_pages (gMemoryAllocator c1))
                                && bool_decide (2 ∉ dom (heap (gMemoryAllocator c1))) && bool_decide (vm_prot (space c1) !! 0x20000 = None)
               | _ => false
               end = true) by (vm_compute; reflexivity).
  split; [apply H0|apply H0|apply H0| |by split_and!].
  intros b c1 Eb _. change (os_closure sample_instrument) with sample_os in Eb. rewrite Eb in Ea. rewrite !andb_true_iff, !bool_decide_eq_true in Ea. destruct Ea as [[[E1 E2] E3] E4].
  rewrite E1. assert (El : length (tramp 0x400000 0x10000) = 12%nat) by (vm_compute; reflexivity).
  split; [|split; [split; [split; [|done]|]|vm_compute; reflexivity]].
  - destruct H0 as [A1 A2 A3 A4 A5 A6 [(P1 & P2 & P3 & P4) A7] A8 A9 A10]. change (Z.of_nat (length (tramp 0x400000 0x7000000000))) with 16 in *.
    constructor; [exact A1|exact A2|exact A3|exact A4|exact A5|lia| |by rewrite El|exact Hb|unfold overwritten; rewrite El; exact E].
    rewrite El. split; [|intros a Ha; apply A7; lia]. split; [exact P1|]. split; [lia|]. split; [vm_compute; discriminate|]. intros a Ha. apply P4. lia.
  - intros page [= <-]. by split_and!.
  - by intros p [= <-].
Qed.

Example instrument_installs_witness :
  exists T r i', DobbyInstrument 4096 false cons 0x500000 0x600000 false sample_instrument 0x400000 0x7300 (sample_instruments []) = Ret (0, i') /\
    exists e, find (entries (hooks i')) 0x400000 = Some e /\ (id e, 0x7300) ∈ pre_handlers i' /\ addr (relocated e) = r_addr r /\
    forall s, mem s = vm_mem (space (w_core (hooks i'))) -> reaches 0x400000 (r_addr T) s.
Proof.
  destruct sample_instrumentable as (code & its & H).
  destruct (instrument_installs 4096 12 eq_refl ltac:(lia) false cons 0x500000 0x600000 sample_instrument 0x400000 0x7300 (sample_instruments []) code its
              ltac:(lia) eq_refl H) as (T & r & e & t & i' & E & _ & Hf & Hr & Hp & _ & _ & _ & _ & Hic).
  exists T, r, i'. split; [exact E|]. exists e. split; [exact Hf|]. split; [exact Hp|]. split; [exact Hr|].
  intros s Hs. apply (ic_runs _ _ _ _ _ _ _ _ _ _ Hic s Hs).
Defined.

(** A closure trampoline without memory is not noticed.  [GenerateClosureTrampoline] always returns an object, so the
    check for null never fails: when the kernel gives no page for the trampoline but one for the relocated code,
    [DobbyInstrument] returns 0, and the function now jumps to address 0. *)
Theorem instrument_without_trampoline :
  let ans := {| os_closure := {| os_page := None; os_permission := true; os_new := 0 |}; new_closure := 0x7000;
                hook_answers := {| os_alloc := sample_os; near_block := 0 |} |} in
  (fun x => (fst x, map (fun p => addr (ct_buffer (snd p))) (instrument_tramps (snd x)), bytes_at (w_core (hooks (snd x))) 0x400000 12))
    <$> DobbyInstrument 4096 false cons 0x500000 0x600000 false ans 0x400000 0x7300 (sample_instruments [])
  = Ret (0, [0], tramp 0x400000 0).
Proof. vm_compute. reflexivity. Qed.
