(* ===== verification/NearAllocator.v ===== *)
(** * The near allocator (source/MemoryAllocator/NearMemoryAllocator.h)

    Blocks within reach of a branch: a freed block is used again, then the rest of a
    page that is already there, then a new page in a hole between two mapped regions,
    and for code finally a run of zero bytes in somebody else's executable memory.
    The page allocators are those of LinearAllocator, reached through pointers ([heap]
    maps them).  What the process tells about itself is in [near_answer], one for each
    pass over the memory layout: the regions of [ProcessRuntime::getMemoryLayout],
    whether [OSMemory::Allocate] put the page where it was asked, and the address
    [new] returned; the bytes of the process are [mem]. *)

From stdpp Require Import gmap.
From S2P Require Import Prelude UtilityMacro CodePatch LinearAllocator MemoryAllocator.
#[local] Open Scope machine_scope.
#[local] Open Scope Z_scope.

(** ** memmem_impl *)

(** The loop: [h] and [n] are what the two cursors point at, [haystacklen] and [l] count down, [pos] is the offset of
    the first cursor and [r] that of the candidate. *)
Fixpoint memmem_loop (needle : list Z) (needlelen : Z) (h n : list Z) (haystacklen l pos r : Z) : outcome (option Z) :=
  if negb (l =? 0) && (l <=? haystacklen) then
    match h, n with
    | x :: h, y :: n =>
        if negb (y =? x) then memmem_loop needle needlelen h needle (haystacklen - 1) needlelen (pos + 1) (pos + 1)
        else memmem_loop needle needlelen h n (haystacklen - 1) (l - 1) (pos + 1) r
    | _, _ => UB
    end
  else Ret (if l =? 0 then Some r else None).

(** The offset of the result; the pointers are not null. *)
Definition memmem_impl (haystack : list Z) (haystacklen : Z) (needle : list Z) (needlelen : Z) : outcome (option Z) :=
  memmem_loop needle needlelen haystack needle haystacklen needlelen 0 0.

(** ** State *)

Record PageRecord := { p_allocator : Z; p_page : Z; p_exec : bool; p_owned : bool }.
Record AllocationRecord := { r_addr : Z; r_size : Z; r_page : Z; r_exec : bool; r_free : bool; r_owned : bool }.

Record NearMemoryAllocator := {
  code_page_allocators : list Z;
  data_page_allocators : list Z;
  page_records : list PageRecord;
  allocation_records : list AllocationRecord;
  heap : gmap Z simple_linear_allocator_t;
}.

Definition NearMemoryAllocator_new : NearMemoryAllocator :=
  {| code_page_allocators := []; data_page_allocators := []; page_records := []; allocation_records := []; heap := ∅ |}.

Record MemRegion := { region : MemRange; perm : Z }.
Definition MEM_PERM_X : Z := 0x4.

Record near_answer := { layout : list MemRegion; page_granted : bool; near_new : Z }.

Definition near_allocators (m : NearMemoryAllocator) (is_exec : bool) : list Z :=
  if is_exec then code_page_allocators m else data_page_allocators m.
Definition set_records (m : NearMemoryAllocator) (l : list AllocationRecord) : NearMemoryAllocator :=
  {| code_page_allocators := code_page_allocators m; data_page_allocators := data_page_allocators m;
     page_records := page_records m; allocation_records := l; heap := heap m |}.
Definition set_heap (m : NearMemoryAllocator) (h : gmap Z simple_linear_allocator_t) : NearMemoryAllocator :=
  {| code_page_allocators := code_page_allocators m; data_page_allocators := data_page_allocators m;
     page_records := page_records m; allocation_records := allocation_records m; heap := h |}.
Definition set_pages (m : NearMemoryAllocator) (is_exec : bool) (ids : list Z) (ps : list PageRecord)
    (h : gmap Z simple_linear_allocator_t) : NearMemoryAllocator :=
  {| code_page_allocators := if is_exec then ids else code_page_allocators m;
     data_page_allocators := if is_exec then data_page_allocators m else ids;
     page_records := ps; allocation_records := allocation_records m; heap := h |}.
Definition set_is_free (r : AllocationRecord) (b : bool) : AllocationRecord :=
  {| r_addr := r_addr r; r_size := r_size r; r_page := r_page r; r_exec := r_exec r; r_free := b; r_owned := r_owned r |}.

Section Near.

(** [OSMemory::PageSize()] and the bytes of the process. *)
Variable PageSize : Z.
Variable mem : Z -> Z.

Definition new_record (a n : Z) (is_exec owned : bool) : AllocationRecord :=
  {| r_addr := a; r_size := n; r_page := ALIGN_FLOOR a PageSize; r_exec := is_exec; r_free := false; r_owned := owned |}.
Definition add_record (m : NearMemoryAllocator) (r : AllocationRecord) : NearMemoryAllocator :=
  set_records m (allocation_records m ++ [r]).

(** ** Allocation *)

(** A free record of the kind that is large enough and in range is taken over. *)
Fixpoint near_reuse (rs : list AllocationRecord) (in_size : Z) (search_range : MemRange) (is_exec : bool)
    : option (Z * list AllocationRecord) :=
  match rs with
  | [] => None
  | r :: rs =>
      if r_free r && Bool.eqb (r_exec r) is_exec && (in_size <=? r_size r) && contains search_range (r_addr r) in_size
      then Some (r_addr r, set_is_free r false :: rs)
      else '(a, rs) ← near_reuse rs in_size search_range is_exec; Some (a, r :: rs)
  end.

(** One page allocator of step 1: skip to the search range, then allocate; [None] when too little of its rest is in
    range. *)
Definition near_page_alloc (a : simple_linear_allocator_t) (in_size : Z) (search_range : MemRange)
    : option (option Z * simple_linear_allocator_t) :=
  let cur := cursor a in
  let unused_size := u32 (capacity a - size a) in
  let overlap := intersect search_range {| start_ := cur; rsize := unused_size |} in
  if rsize overlap <? in_size then None
  else
    let gap_size := u64 (addr overlap - cur) in
    let a := if negb (gap_size =? 0) then snd (alloc a (u32 gap_size) 0) else a in
    Some (alloc a in_size 0).

(** Step 1. *)
Fixpoint near_step1 (ids : list Z) (h : gmap Z simple_linear_allocator_t) (in_size : Z) (search_range : MemRange)
    : outcome (option Z * gmap Z simple_linear_allocator_t) :=
  match ids with
  | [] => Ret (None, h)
  | id :: ids =>
      match h !! id with
      | None => UB
      | Some a =>
          match near_page_alloc a in_size search_range with
          | None => near_step1 ids h in_size search_range
          | Some (Some p, a) => Ret (Some p, <[id := a]> h)
          | Some (None, a) => near_step1 ids (<[id := a]> h) in_size search_range
          end
      end
  end.

(** Step 2: the page to map in the first hole between two regions with enough room in range. *)
Fixpoint find_hole (regions : list MemRegion) (in_size : Z) (search_range : MemRange) : option Z :=
  match regions with
  | r :: (next :: _) as rest =>
      let unused_region_start := end_ (region r) in
      let unused_region_size := u64 (addr (region next) - end_ (region r)) in
      let overlap := intersect search_range {| start_ := unused_region_start; rsize := unused_region_size |} in
      if rsize overlap <? in_size then find_hole rest in_size search_range
      else Some (ALIGN_FLOOR (addr overlap) PageSize)
  | _ => None
  end.

Definition bytes_of (a n : Z) : list Z := map (fun i => mem (a + Z.of_nat i)) (seq 0 (Z.to_nat n)).
Definition invalid_code_seq : list Z := replicate (Z.to_nat 0x1000) 0.

(** Step 3: a run of zeros in an executable region. *)
Fixpoint find_gap (regions : list MemRegion) (in_size : Z) (search_range : MemRange) : outcome (option Z) :=
  match regions with
  | [] => Ret None
  | r :: rest =>
      if perm r .& MEM_PERM_X =? 0 then find_gap rest in_size search_range
      else
        let overlap := intersect search_range (region r) in
        if rsize overlap <? in_size then find_gap rest in_size search_range
        else
          g ← memmem_impl (bytes_of (addr overlap) (rsize overlap)) (rsize overlap) invalid_code_seq (u32 (in_size + (4 - 1)));
          match g with
          | None => find_gap rest in_size search_range
          | Some off => Ret (Some (ALIGN_CEIL (addr overlap + off) 4))
          end
  end.

(** The new page of step 2. *)
Definition map_near_page (m : NearMemoryAllocator) (page id : Z) (is_exec : bool) : NearMemoryAllocator :=
  set_pages m is_exec (near_allocators m is_exec ++ [id])
    (page_records m ++ [{| p_allocator := id; p_page := page; p_exec := is_exec; p_owned := true |}])
    (<[id := init page (u32 PageSize) 8]> (heap m)).

(** The recursion of step 2 uses up an answer each time. *)
Fixpoint allocNearBlockLocked (answers : list near_answer) (m : NearMemoryAllocator) (in_size : Z)
    (search_range : MemRange) (is_exec : bool) : outcome (MemRange * NearMemoryAllocator) :=
  match near_reuse (allocation_records m) in_size search_range is_exec with
  | Some (a, rs) => Ret ({| start_ := a; rsize := in_size |}, set_records m rs)
  | None =>
      '(result, h) ← near_step1 (near_allocators m is_exec) (heap m) in_size search_range;
      let m := set_heap m h in
      match result with
      | Some p => Ret ({| start_ := p; rsize := in_size |}, add_record m (new_record p in_size is_exec true))
      | None =>
          match answers with
          | [] => UB
          | answer :: answers =>
              match find_hole (layout answer) in_size search_range with
              | Some unused_page =>
                  if page_granted answer
                  then allocNearBlockLocked answers (map_near_page m unused_page (near_new answer) is_exec) in_size
                         search_range is_exec
                  else Fatal
              | None =>
                  if negb is_exec then Ret (MemRange_empty, m)
                  else
                    g ← find_gap (layout answer) in_size search_range;
                    match g with
                    | None => Ret (MemRange_empty, m)
                    | Some unused_code_gap =>
                        Ret ({| start_ := unused_code_gap; rsize := in_size |},
                             add_record m (new_record unused_code_gap in_size is_exec false))
                    end
              end
          end
      end
  end.

(** [custom_alloc_near_code_handler]; [None] when no handler is registered. *)
Definition allocNearCodeBlock (handler : option (Z -> Z -> Z -> Z)) (answers : list near_answer) (m : NearMemoryAllocator)
    (in_size pos range : Z) : outcome (MemRange * NearMemoryAllocator) :=
  if (in_size =? 0) || (pos <? range) || ((2 ^ 64 - 1) / 2 <? range) then Ret (MemRange_empty, m)
  else
    match handler with
    | Some h =>
        let a := h in_size pos range in
        if negb (a =? 0) then Ret ({| start_ := a; rsize := in_size |}, add_record m (new_record a in_size true false))
        else Ret (MemRange_empty, m)
    | None => allocNearBlockLocked answers m in_size {| start_ := u64 (pos - range); rsize := u64 (range * 2) |} true
    end.

Definition allocNearDataBlock (answers : list near_answer) (m : NearMemoryAllocator) (in_size pos range : Z)
    : outcome (MemRange * NearMemoryAllocator) :=
  if (in_size =? 0) || (pos <? range) || ((2 ^ 64 - 1) / 2 <? range) then Ret (MemRange_empty, m)
  else allocNearBlockLocked answers m in_size {| start_ := u64 (pos - range); rsize := u64 (range * 2) |} false.

(** ** Freeing *)

(** The first record of the block: its list with the record marked, and whether its page is the allocator's own. *)
Fixpoint near_mark_free (rs : list AllocationRecord) (a : Z) (is_exec : bool) : option (bool * list AllocationRecord) :=
  match rs with
  | [] => None
  | r :: rs =>
      if (r_addr r =? a) && Bool.eqb (r_exec r) is_exec then Some (r_owned r, set_is_free r true :: rs)
      else '(o, rs) ← near_mark_free rs a is_exec; Some (o, r :: rs)
  end.

Definition near_on_page (page : Z) (is_exec : bool) (r : AllocationRecord) : bool :=
  (r_page r =? page) && Bool.eqb (r_exec r) is_exec.

Fixpoint near_erase_page (ps : list PageRecord) (page : Z) (is_exec : bool) : option Z * list PageRecord :=
  match ps with
  | [] => (None, [])
  | p :: ps =>
      if (p_page p =? page) && Bool.eqb (p_exec p) is_exec && p_owned p then (Some (p_allocator p), ps)
      else let '(r, ps) := near_erase_page ps page is_exec in (r, p :: ps)
  end.

(** [delete] of the page allocator is undefined when it is not live. *)
Definition freeNearBlockLocked (m : NearMemoryAllocator) (block : MemRange) (is_exec : bool) : outcome NearMemoryAllocator :=
  if (addr block =? 0) || (rsize block =? 0) then Ret m
  else
    let page := ALIGN_FLOOR (addr block) PageSize in
    match near_mark_free (allocation_records m) (addr block) is_exec with
    | None => Ret m
    | Some (owned_page, rs) =>
        let m := set_records m rs in
        if negb owned_page then Ret m
        else if existsb (fun r => near_on_page page is_exec r && negb (r_free r)) rs then Ret m
        else
          let '(page_allocator, ps) := near_erase_page (page_records m) page is_exec in
          let rs := List.filter (fun r => negb (near_on_page page is_exec r && r_owned r)) rs in
          match page_allocator with
          | None => Ret (set_records m rs)
          | Some id =>
              match heap m !! id with
              | None => UB
              | Some _ =>
                  Ret (set_records
                         (set_pages m is_exec (erase_allocator (near_allocators m is_exec) id) ps (delete id (heap m))) rs)
              end
          end
    end.

Definition freeNearCodeBlock (m : NearMemoryAllocator) (block : MemRange) : outcome NearMemoryAllocator :=
  freeNearBlockLocked m block true.
Definition freeNearDataBlock (m : NearMemoryAllocator) (block : MemRange) : outcome NearMemoryAllocator :=
  freeNearBlockLocked m block false.

(** ** The address space *)

(** The pages that the near allocator mapped on the way: zero-filled, with the protection of their kind. *)
Definition new_pages (m m' : NearMemoryAllocator) : gset Z :=
  list_to_set (map p_page (page_records m')) ∖ list_to_set (map p_page (page_records m)).
Definition near_effect (is_exec : bool) (m m' : NearMemoryAllocator) (v : vm) : vm :=
  {| vm_mem := fun a => if decide (ALIGN_FLOOR a PageSize ∈ new_pages m m') then 0 else vm_mem v a;
     vm_prot := gset_to_gmap (PROT_READ .| if is_exec then PROT_EXEC else PROT_WRITE) (new_pages m m') ∪ vm_prot v;
     vm_answers := vm_answers v |}.

End Near.
