(* ===== verification/NearAllocatorSpec.v ===== *)
(** * What the near allocator promises

    [memmem_impl] is a search for a run of equal bytes; blocks lie within reach of the
    position they were asked for; and the search for code gaps does not look at the
    blocks it has already handed out. *)

From stdpp Require Import gmap.
From S2P Require Import Prelude UtilityMacro LinearAllocator MemoryAllocator NearAllocator.
#[local] Open Scope machine_scope.
#[local] Open Scope Z_scope.

(** ** Searching for a run of one byte *)

(** [k] bytes [c] at offset [o]. *)
Definition run_at (h : list Z) (k : nat) (c : Z) (o : nat) : Prop :=
  (o + k <= length h)%nat /\ forall i, (i < k)%nat -> nth (o + i) h (-1) = c.

(** The first such offset, or none. *)
Definition first_run (h : list Z) (k : nat) (c : Z) (r : option Z) : Prop :=
  match r with
  | Some p => exists o, p = Z.of_nat o /\ run_at h k c o /\ forall o', (o' < o)%nat -> ~ run_at h k c o'
  | None => forall o, ~ run_at h k c o
  end.

(** The state of the loop: [pos] bytes read, the last [pos - r] of them equal to [c], nothing found before [r]. *)
Lemma memmem_loop_run (whole : list Z) (k m : nat) (c : Z) : forall h pos r,
  h = drop pos whole -> (pos <= length whole)%nat -> (r <= pos)%nat -> (pos - r <= k <= m)%nat ->
  (forall i, (r <= i < pos)%nat -> nth i whole (-1) = c) -> (forall o, (o < r)%nat -> ~ run_at whole k c o) ->
  exists res, memmem_loop (replicate m c) (Z.of_nat k) h (replicate (m - (pos - r)) c) (Z.of_nat (length h))
    (Z.of_nat (k - (pos - r))) (Z.of_nat pos) (Z.of_nat r) = Ret res /\ first_run whole k c res.
Proof.
  induction h as [|x h IH]; intros pos r Eh Hpos Hr Hk Hrun Hno; cbn [memmem_loop length].
  - assert (pos = length whole) by (apply (f_equal length) in Eh; rewrite length_drop in Eh; simpl in Eh; lia).
    destruct (Z.eqb_spec (Z.of_nat (k - (pos - r))) 0) as [E|E]; cbn [negb andb].
    + eexists. split; [reflexivity|]. exists r. split; [done|]. split; [|done].
      split; [lia|]. intros i Hi. apply Hrun. lia.
    + destruct (Z.leb_spec (Z.of_nat (k - (pos - r))) (Z.of_nat 0)); [lia|].
      eexists. split; [reflexivity|]. intros o. destruct (decide (o < r)%nat); [by apply Hno|]. intros [Ho _]. lia.
  - assert (Hl : (pos < length whole)%nat) by (apply (f_equal length) in Eh; rewrite length_drop in Eh; simpl in Eh; lia).
    assert (Hlen : Z.of_nat (S (length h)) = Z.of_nat (length whole - pos)) by
      (apply (f_equal length) in Eh; rewrite length_drop in Eh; simpl in Eh; lia).
    assert (Hx : nth pos whole (-1) = x).
    { rewrite <- (take_drop pos whole), app_nth2, length_take by (rewrite length_take; lia).
      replace (pos - pos `min` length whole)%nat with 0%nat by lia. by rewrite <- Eh. }
    assert (Eh' : h = drop (S pos) whole).
    { change (S pos) with (1 + pos)%nat. rewrite Nat.add_comm, <- drop_drop, <- Eh. done. }
    destruct (Z.eqb_spec (Z.of_nat (k - (pos - r))) 0) as [E|E]; cbn [negb andb].
    { eexists. split; [reflexivity|]. exists r. split; [done|]. split; [|done].
      split; [lia|]. intros i Hi. apply Hrun. lia. }
    destruct (Z.leb_spec (Z.of_nat (k - (pos - r))) (Z.of_nat (S (length h)))) as [Hle|Hgt].
    2:{ eexists. split; [reflexivity|]. intros o. destruct (decide (o < r)%nat); [by apply Hno|]. intros [Ho _]. lia. }
    replace (m - (pos - r))%nat with (S (m - S (pos - r))) by lia. cbn [replicate].
    replace (Z.of_nat (S (length h)) - 1) with (Z.of_nat (length h)) by lia.
    replace (Z.of_nat pos + 1) with (Z.of_nat (S pos)) by lia.
    destruct (Z.eqb_spec c x) as [Ec|Ec]; cbn [negb].
    + destruct (IH (S pos) r Eh') as (res & Eres & Hres); try lia; [|done|].
      { intros i Hi. destruct (decide (i = pos)) as [->|]; [congruence|apply Hrun; lia]. }
      exists res. split; [|done]. rewrite <- Eres. f_equal; try lia. f_equal; lia.
    + destruct (IH (S pos) (S pos) Eh') as (res & Eres & Hres); try lia.
      { intros o Ho. destruct (decide (o < r)%nat); [by apply Hno|]. intros [_ Hb].
        specialize (Hb (pos - o)%nat ltac:(lia)). replace (o + (pos - o))%nat with pos in Hb by lia. congruence. }
      exists res. split; [|done]. rewrite <- Eres. f_equal; try lia. f_equal; lia.
Qed.

(** ** Ranges *)

Lemma overlap_bounds r other n :
  0 < n -> n <= rsize (intersect r other) ->
  addr (intersect r other) = Z.max (addr r) (addr other) /\
  addr (intersect r other) + rsize (intersect r other) = Z.min (end_ r) (end_ other).
Proof.
  intros Hn. unfold intersect.
  destruct (Z.ltb_spec (addr other) (addr r)), (Z.ltb_spec (end_ r) (end_ other));
    match goal with |- context [?x <? ?y] => destruct (Z.ltb_spec x y) end; cbn; intros; unfold addr in *; lia.
Qed.

Lemma contains_bounds r a n :
  range_ok r -> 0 <= n < 2 ^ 64 -> contains r a n = true -> start_ r <= a /\ a + n <= start_ r + rsize r.
Proof.
  intros Hr Hn. unfold contains, addr. rewrite (end_ok r Hr). destruct Hr as (R1 & R2 & R3).
  destruct (Z.eqb_spec n 0); [done|]. destruct (Z.ltb_spec a (start_ r)); [done|].
  rewrite (wrap_small 64 (2 ^ 64 - 1 - n)) by lia. destruct (Z.ltb_spec (2 ^ 64 - 1 - n) a); [done|].
  rewrite wrap_small by lia. intros H2%Z.leb_le. lia.
Qed.

(** ** Blocks from the near pages *)

(** A block of [n] bytes within reach: it starts in the search range and ends at most 7 bytes behind it. *)
Definition in_reach (search : MemRange) (p n : Z) : Prop :=
  start_ search <= p /\ p + n <= start_ search + rsize search + 7.

Lemma near_page_alloc_ok a n search :
  sla_ok a 3 -> 7 <= n < 2 ^ 31 -> range_ok search -> n + 14 <= rsize search ->
  match near_page_alloc a n search with
  | None => True
  | Some (r, a') => sla_ok a' 3 /\ match r with Some p => in_reach search p n /\ p mod 8 = 0 | None => True end
  end.
Proof.
  intros Ha Hn Hs Hlong. unfold near_page_alloc. pose proof (so_size a 3 Ha) as Hsz. pose proof (so_capacity a 3 Ha) as Hcap.
  destruct (so_buffer a 3 Ha) as [Hb0 Hb1].
  assert (Hcur : cursor a = buffer a + size a) by (unfold cursor; apply wrap_small; lia).
  rewrite Hcur, (wrap_small 32 (capacity a - size a)) by lia. set (unused := {| start_ := _; rsize := _ |}).
  destruct (Z.ltb_spec (rsize (intersect search unused)) n); [done|].
  destruct (overlap_bounds search unused n) as [Eo Ee]; [lia|lia|]. rewrite Eo in *.
  assert (Hu : end_ unused = buffer a + capacity a) by (unfold end_, unused; cbn; rewrite wrap_small; lia).
  rewrite Hu, (end_ok search Hs) in Ee. destruct Hs as (S1 & S2 & S3). cbn [addr start_ unused] in *. unfold addr in *.
  cbn [start_ unused] in *. rewrite (wrap_small 64) by lia.
  assert (Hal : forall x, size x <= aligned_size x 3 < size x + 8).
  { intros x. unfold aligned_size. change (2 ^ 3) with 8. pose proof (Z.mod_pos_bound (- size x) 8 ltac:(lia)). lia. }
  (* the allocator after the gap *)
  set (a1 := if negb _ then _ else a).
  assert (H1 : sla_ok a1 3 /\ buffer a1 = buffer a /\ capacity a1 = capacity a /\
    (a1 = a /\ start_ search <= buffer a + size a \/ start_ search <= buffer a + size a1 < start_ search + 8)).
  { unfold a1. destruct (Z.eqb_spec (Z.max (start_ search) (buffer a + size a) - (buffer a + size a)) 0); cbn [negb].
    - split; [done|]. split; [done|]. split; [done|]. left. split; [done|lia].
    - pose proof (Hal a) as Hal0. pose proof (aligned_size_bounds a 3 Ha) as [Hab _].
      rewrite (wrap_small 32) by lia. rewrite (alloc_eq a 3) by (done || lia).
      destruct (Z.ltb_spec (capacity a) (aligned_size a 3 + (Z.max (start_ search) (buffer a + size a) - (buffer a + size a)))); [lia|].
      cbn [snd]. split; [apply with_size_ok; [done|lia]|]. split; [done|]. split; [done|]. right. cbn [size with_size]. lia. }
  destruct H1 as (Ha1 & Eb1 & Ec1 & Hcase). clearbody a1. pose proof (aligned_size_bounds a1 3 Ha1) as [Hab Hmod].
  pose proof (Hal a1). pose proof (so_size a1 3 Ha1). rewrite (alloc_eq a1 3) by (done || lia).
  destruct (Z.ltb_spec (capacity a1) (aligned_size a1 3 + n)); [split; [apply with_size_ok; [done|lia]|done]|].
  split; [apply with_size_ok; [done|lia]|]. split; [unfold in_reach; destruct Hcase as [[-> ?]|?]; lia|].
  change 8 with (2 ^ 3). rewrite Zplus_mod, (so_buffer_aligned a1 3 Ha1), Hmod. reflexivity.
Qed.

(** Every page allocator a list names is there and well formed. *)
Definition heap_ok (ids : list Z) (h : gmap Z simple_linear_allocator_t) : Prop :=
  forall id, id ∈ ids -> exists a, h !! id = Some a /\ sla_ok a 3.
Definition near_ok (m : NearMemoryAllocator) : Prop := forall e, heap_ok (near_allocators m e) (heap m).

Lemma heap_ok_insert ids h id a : heap_ok ids h -> sla_ok a 3 -> heap_ok ids (<[id := a]> h).
Proof.
  intros H Ha i Hi. destruct (decide (i = id)) as [->|]; [exists a; by rewrite lookup_insert_eq|].
  rewrite lookup_insert_ne by done. by apply H.
Qed.

Lemma near_step1_ok n search all ids : forall h,
  7 <= n < 2 ^ 31 -> range_ok search -> n + 14 <= rsize search -> (forall e : bool, heap_ok (all e) h) -> heap_ok ids h ->
  exists r h', near_step1 ids h n search = Ret (r, h') /\ (forall e, heap_ok (all e) h') /\
    match r with Some p => in_reach search p n /\ p mod 8 = 0 | None => True end.
Proof.
  induction ids as [|id ids IH]; intros h Hn Hs Hlong Hall Hh; cbn [near_step1]; [by exists None, h|].
  destruct (Hh id) as (a & -> & Ha); [left|].
  assert (Hrest : heap_ok ids h) by (intros i Hi; apply Hh; by right).
  pose proof (near_page_alloc_ok a n search Ha Hn Hs Hlong) as Hpa.
  destruct (near_page_alloc a n search) as [[[p|] a']|]; [| |by apply IH].
  - destruct Hpa as [Ha' Hp]. exists (Some p), (<[id := a']> h). split; [done|]. split; [|done].
    intros e. by apply heap_ok_insert.
  - destruct Hpa as [Ha' _]. apply IH; try done; [intros e|]; by apply heap_ok_insert.
Qed.

Lemma near_reuse_bounds rs n search e a rs' :
  range_ok search -> 0 <= n < 2 ^ 64 -> near_reuse rs n search e = Some (a, rs') -> in_reach search a n.
Proof.
  intros Hs Hn. revert rs'. induction rs as [|r rs IH]; intros rs'; cbn [near_reuse]; [done|].
  destruct (_ && _) eqn:E.
  - intros [= <- _]. apply andb_true_iff in E as [_ E]. apply contains_bounds in E; [unfold in_reach; lia|done|done].
  - destruct (near_reuse rs n search e) as [[a' rs1]|]; [|done]. cbn. intros [= <- _]. by eapply IH.
Qed.

Lemma find_hole_bounds PageSize n search : forall rs page,
  0 < n -> find_hole PageSize rs n search = Some page ->
  exists o, page = ALIGN_FLOOR o PageSize /\ addr search <= o < end_ search.
Proof.
  induction rs as [|r rs IH]; intros page Hn; cbn [find_hole]; [done|]. destruct rs as [|next rs]; [done|].
  set (overlap := intersect _ _). destruct (Z.ltb_spec (rsize overlap) n); [by apply IH|]. intros [= <-].
  exists (addr overlap). split; [done|]. unfold overlap in *.
  destruct (overlap_bounds search _ n Hn H) as [E1 E2]. lia.
Qed.

Lemma find_gap_bounds mem n search : forall rs g,
  range_ok search -> 0 < n <= 4093 -> find_gap mem rs n search = Ret (Some g) -> in_reach search g n.
Proof.
  induction rs as [|r rs IH]; intros g Hs Hn; cbn [find_gap]; [done|].
  destruct (_ =? 0); [by apply IH|]. set (overlap := intersect _ _).
  destruct (Z.ltb_spec (rsize overlap) n) as [|Hov]; [by apply IH|].
  destruct (overlap_bounds search (region r) n ltac:(lia) Hov) as [E1 E2]. fold overlap in E1, E2. rewrite (end_ok search Hs) in E2.
  unfold memmem_impl, invalid_code_seq. rewrite (wrap_small 32) by lia.
  assert (Hl : rsize overlap = Z.of_nat (length (bytes_of mem (addr overlap) (rsize overlap)))).
  { unfold bytes_of. rewrite length_map, length_seq. lia. }
  rewrite Hl at 2. replace (n + (4 - 1)) with (Z.of_nat (Z.to_nat (n + 3))) by lia.
  destruct (memmem_loop_run (bytes_of mem (addr overlap) (rsize overlap)) (Z.to_nat (n + 3)) (Z.to_nat 0x1000) 0
    (bytes_of mem (addr overlap) (rsize overlap)) 0 0) as (res & Eres & Hres); try done; try lia.
  rewrite !Nat.sub_0_r in Eres. change (Z.of_nat 0) with 0 in Eres. rewrite Eres. cbn [mbind outcome_bind].
  destruct res as [off|]; [|by apply IH]. intros [= <-]. destruct Hres as (o & -> & [Ho _] & _).
  destruct Hs as (S1 & S2 & S3). unfold addr in *. change 4 with (2 ^ 2). rewrite ALIGN_CEIL_alt by lia.
  pose proof (Z.mod_pos_bound (- (start_ overlap + Z.of_nat o)) (2 ^ 2) ltac:(lia)).
  unfold in_reach. lia.
Qed.

Section Reach.
Context (PageSize pk : Z) (mem : Z -> Z).
Hypothesis page_size : PageSize = 2 ^ pk.
Hypothesis pk_range : 12 <= pk < 31.

Lemma near_page_range : 4096 <= PageSize < 2 ^ 31.
Proof. rewrite page_size. split; [apply (Z.pow_le_mono_r 2 12 pk); lia|apply Z.pow_lt_mono_r; lia]. Qed.

Lemma near_page_ok page :
  0 <= page -> page mod PageSize = 0 -> page + 2 * PageSize < 2 ^ 64 -> sla_ok (init page (u32 PageSize) 8) 3.
Proof.
  intros Hp Hm Hh. pose proof near_page_range.
  assert (Hd : (8 | PageSize)).
  { exists (2 ^ (pk - 3)). rewrite page_size. change 8 with (2 ^ 3). rewrite <- Z.pow_add_r by lia. f_equal. lia. }
  rewrite wrap_small by lia. split; cbn; try done; try lia.
  - apply Z.mod_divide; [lia|]. apply Z.mod_divide in Hm as [q ->]; [|lia]. by apply Z.divide_mul_r.
  - by apply Z.mod_divide.
Qed.

Lemma hole_page_ok search o :
  PageSize <= start_ search -> range_ok search -> start_ search + rsize search + 2 * PageSize < 2 ^ 64 ->
  addr search <= o < end_ search -> sla_ok (init (ALIGN_FLOOR o PageSize) (u32 PageSize) 8) 3.
Proof.
  intros Hlow Hs Hhi Ho. rewrite (end_ok search Hs) in Ho. destruct Hs as (S1 & S2 & S3). unfold addr in Ho.
  pose proof near_page_range. pose proof (Z.mod_pos_bound o PageSize ltac:(lia)).
  assert (E : ALIGN_FLOOR o PageSize = o - o mod PageSize) by (rewrite page_size; apply ALIGN_FLOOR_alt; lia).
  rewrite E. apply near_page_ok; [lia| |lia].
  rewrite (Z.div_mod o PageSize) at 1 by lia. rewrite Z.add_simpl_r, Z.mul_comm. by apply Z.mod_mul; lia.
Qed.

Lemma map_near_page_ok m page id e :
  near_ok m -> sla_ok (init page (u32 PageSize) 8) 3 -> near_ok (map_near_page PageSize m page id e).
Proof.
  intros Hm Hp e' i Hi. unfold map_near_page in *. cbn [heap set_pages].
  destruct (decide (i = id)) as [->|Hne]; [eexists; split; [by rewrite lookup_insert_eq|done]|].
  rewrite lookup_insert_ne by done. apply (Hm e').
  destruct e, e'; cbn in *; try done; apply elem_of_app in Hi as [Hi|Hi]; try done;
    by apply list_elem_of_singleton in Hi.
Qed.

Lemma near_alloc_ok n search e : forall answers m b m',
  near_ok m -> 7 <= n <= 4093 -> range_ok search -> n + 14 <= rsize search ->
  PageSize <= start_ search -> start_ search + rsize search + 2 * PageSize < 2 ^ 64 ->
  allocNearBlockLocked PageSize mem answers m n search e = Ret (b, m') ->
  near_ok m' /\ (b = MemRange_empty \/ rsize b = n /\ in_reach search (addr b) n).
Proof.
  induction answers as [|answer answers IH]; intros m b m' Hm Hn Hs Hlong Hlow Hhi; cbn [allocNearBlockLocked];
    (destruct (near_reuse _ _ _ _) as [[a rs]|] eqn:Er;
     [intros [= <- <-]; split; [exact Hm|right; split; [done|eapply near_reuse_bounds; eauto; lia]]|]);
    (destruct (near_step1_ok n search (near_allocators m) (near_allocators m e) (heap m)) as (r & h & -> & Hh & Hr);
     [lia|done|done|exact Hm|exact (Hm e)|]); cbn [mbind outcome_bind];
    (destruct r as [p|]; [intros [= <- <-]; split; [intros e'; specialize (Hh e'); by destruct e'|right; split; [done|apply Hr]]|]); [done|].
  assert (Hm1 : near_ok (set_heap m h)) by (intros e'; specialize (Hh e'); by destruct e').
  destruct (find_hole _ _ _ _) as [page|] eqn:Eh.
  - destruct (page_granted answer); [|done]. apply IH; try done. apply map_near_page_ok; [done|].
    destruct (find_hole_bounds PageSize n search _ page ltac:(lia) Eh) as (o & -> & Ho). by eapply hole_page_ok.
  - destruct e; cbn [negb]; [|intros [= <- <-]; split; [done|by left]].
    destruct (find_gap _ _ _ _) as [[g|]| |] eqn:Eg; cbn [mbind outcome_bind]; try done.
    + intros [= <- <-]. split; [done|]. right. split; [done|]. eapply find_gap_bounds; eauto. lia.
    + intros [= <- <-]. split; [done|]. by left.
Qed.

(** A data block asked for within 2^31 bytes of [pos] can be reached from there with a 32-bit displacement. *)
Lemma near_data_reach answers m n pos b m' :
  near_ok m -> 8 <= n <= 4093 -> 2 ^ 31 + PageSize <= pos -> pos + 2 ^ 31 + 2 * PageSize < 2 ^ 64 ->
  allocNearDataBlock PageSize mem answers m n pos (2 ^ 31) = Ret (b, m') ->
  near_ok m' /\ (b = MemRange_empty \/ rsize b = n /\ 0 < addr b /\ - 2 ^ 31 <= addr b - pos < 2 ^ 31).
Proof.
  intros Hm Hn Hlo Hhi. pose proof near_page_range. unfold allocNearDataBlock.
  replace (n =? 0) with false by lia. replace (pos <? 2 ^ 31) with false by lia.
  change ((2 ^ 64 - 1) / 2 <? 2 ^ 31) with false. cbn [orb].
  rewrite (wrap_small 64 (pos - 2 ^ 31)), (wrap_small 64 (2 ^ 31 * 2)) by lia. intros E.
  destruct (near_alloc_ok n {| start_ := pos - 2 ^ 31; rsize := 2 ^ 31 * 2 |} false answers m b m') as [Hm' Hb]; try done;
    cbn [start_ rsize]; try lia; [unfold range_ok; cbn; lia|].
  split; [done|]. destruct Hb as [->|[Hr [H1 H2]]]; [by left|right]. cbn [start_ rsize] in *. lia.
Qed.

(** The same of a code block, when no handler is registered. *)
Lemma near_code_reach answers m n pos b m' :
  near_ok m -> 8 <= n <= 4093 -> 2 ^ 31 + PageSize <= pos -> pos + 2 ^ 31 + 2 * PageSize < 2 ^ 64 ->
  allocNearCodeBlock PageSize mem None answers m n pos (2 ^ 31) = Ret (b, m') ->
  near_ok m' /\ (b = MemRange_empty \/ rsize b = n /\ pos - 2 ^ 31 <= addr b /\ addr b + n <= pos + 2 ^ 31 + 7).
Proof.
  intros Hm Hn Hlo Hhi. pose proof near_page_range. unfold allocNearCodeBlock.
  replace (n =? 0) with false by lia. replace (pos <? 2 ^ 31) with false by lia.
  change ((2 ^ 64 - 1) / 2 <? 2 ^ 31) with false. cbn [orb].
  rewrite (wrap_small 64 (pos - 2 ^ 31)), (wrap_small 64 (2 ^ 31 * 2)) by lia. intros E.
  destruct (near_alloc_ok n {| start_ := pos - 2 ^ 31; rsize := 2 ^ 31 * 2 |} true answers m b m') as [Hm' Hb]; try done;
    cbn [start_ rsize]; try lia; [unfold range_ok; cbn; lia|].
  split; [done|]. destruct Hb as [->|[Hr [H1 H2]]]; [by left|right]. cbn [start_ rsize] in *. lia.
Qed.

End Reach.

(** ** Properties *)

(** [memmem_impl] is a search for a run.  For a needle of equal bytes, which is all it is used for, it returns the
    first offset of the haystack where the whole needle stands, or null when there is none, without reading past
    either buffer. *)
Theorem memmem_finds_run h k m c :
  (k <= m)%nat ->
  exists r, memmem_impl h (Z.of_nat (length h)) (replicate m c) (Z.of_nat k) = Ret r /\ first_run h k c r.
Proof.
  intros Hk. destruct (memmem_loop_run h k m c h 0 0) as (r & E & Hr); try done; try lia.
  rewrite !Nat.sub_0_r in E. by exists r.
Qed.

Example memmem_finds_run_witness :
  first_run [7; 0; 0; 5; 0; 0; 0; 9] 3 0 (Some 4).
Proof.
  destruct (memmem_finds_run [7; 0; 0; 5; 0; 0; 0; 9] 3 5 0) as (r & E & Hr); [lia|].
  vm_compute in E. injection E as <-. exact Hr.
Defined.

(** For other needles it is not [memmem]: after a mismatch it goes on behind it and misses 1 1 2 in 1 1 1 2. *)
Theorem memmem_misses_overlap :
  memmem_impl [1; 1; 1; 2] 4 [1; 1; 2] 3 = Ret None /\ take 3 (drop 1 [1; 1; 1; 2]) = [1; 1; 2].
Proof. split; reflexivity. Qed.

(** Step 3 does not look at what it has handed out: until the block is written to, the next request gets it again, and
    two live records share their bytes. *)
Theorem near_gap_twice :
  let answer := {| layout := [{| region := {| start_ := 0x10000; rsize := 0x100 |}; perm := 5 |}]; page_granted := true;
                   near_new := 1 |} in
  (fun x => (fst x, map (fun r => (r_addr r, r_free r)) (allocation_records (snd x)))) <$>
  ('(_, m) ← allocNearCodeBlock 4096 (fun _ => 0) None [answer] NearMemoryAllocator_new 16 0x90000000 0x90000000;
   allocNearCodeBlock 4096 (fun _ => 0) None [answer] m 16 0x90000000 0x90000000)
  = Ret ({| start_ := 0x10000; rsize := 16 |}, [(0x10000, false); (0x10000, false)]).
Proof. vm_compute. reflexivity. Qed.
