(* ===== verification/X64Machine.v ===== *)
(** * x86-64 reference semantics

    The instructions the x64 relocator rewrites and the ones the x64 assembler emits,
    in 64-bit mode, after the Intel manual (volume 2: instruction format, ModR/M and
    SIB tables, instruction reference).  Nothing here is taken from the sources;
    registers are 64-bit values numbered as in the encoding, memory is a function from
    addresses to bytes. *)

From S2P Require Import Prelude.
#[local] Open Scope Z_scope.

Record flags_t := { CF : bool; PF : bool; ZF : bool; SF : bool; OF : bool }.

Record state := {
  rip : Z;
  regs : Z -> Z;
  flags : flags_t;
  mem : Z -> Z;
}.

Definition rsp_num : Z := 4.

(** [base + index * 2^scale + disp], or relative to the next instruction. *)
Inductive operand :=
| Reg (r : Z)
| Mem (base : option Z) (index : option (Z * Z)) (disp : Z)
| RipRel (disp : Z).

Inductive insn :=
| JCC (cc offset : Z)
| JMP_rel (offset : Z)
| CALL_rel (offset : Z)
| JMP_rm (o : operand)
| CALL_rm (o : operand)
| MOV_imm (r imm : Z)
| MOV_load (r : Z) (o : operand)
| MOV_store (o : operand) (r : Z)
| LEA (r : Z) (o : operand)
| PUSH (r : Z)
| POP (r : Z)
| RET
| NOP.

(** ** Decoding *)

Definition signed (n v : Z) : Z := if v <? 2 ^ (n - 1) then v else v - 2 ^ n.
Definition imm_at (n : nat) (l : list Z) : Z := le_val (take n l).
Definition simm (n : nat) (l : list Z) : Z := signed (8 * Z.of_nat n) (imm_at n l).

(** The REX bits W, R, X and B. *)
Record rex_t := { rW : bool; rR : bool; rX : bool; rB : bool }.
Definition no_rex : rex_t := {| rW := false; rR := false; rX := false; rB := false |}.
Definition rex_of (b : Z) : rex_t :=
  {| rW := Z.testbit b 3; rR := Z.testbit b 2; rX := Z.testbit b 1; rB := Z.testbit b 0 |}.
Definition ext (b : bool) (n : Z) : Z := if b then n + 8 else n.

(** The displacement a [mod] of 0, 1 or 2 announces, and its length. *)
Definition disp_of (mod_ : Z) (l : list Z) : Z * Z :=
  if mod_ =? 0 then (0, 0) else if mod_ =? 1 then (simm 1 l, 1) else (simm 4 l, 4).

(** ModR/M, SIB and displacement: the register field, the operand and the bytes used. *)
Definition decode_modrm (rex : rex_t) (l : list Z) : option (Z * operand * Z) :=
  match l with
  | [] => None
  | m :: l =>
      let mod_ := m / 64 in
      let r := (m / 8) mod 8 in
      let rm := m mod 8 in
      if mod_ =? 3 then Some (r, Reg (ext (rB rex) rm), 1)
      else if rm =? 4 then
        match l with
        | [] => None
        | s :: l =>
            let x := ext (rX rex) ((s / 8) mod 8) in
            let index := if x =? 4 then None else Some (x, s / 64) in
            if (s mod 8 =? 5) && (mod_ =? 0) then Some (r, Mem None index (simm 4 l), 6)
            else
              let '(d, n) := disp_of mod_ l in
              Some (r, Mem (Some (ext (rB rex) (s mod 8))) index d, 2 + n)
        end
      else if (rm =? 5) && (mod_ =? 0) then Some (r, RipRel (simm 4 l), 5)
      else
        let '(d, n) := disp_of mod_ l in
        Some (r, Mem (Some (ext (rB rex) rm)) None d, 1 + n)
  end.

Definition in_row (lo b : Z) (n : Z) : bool := (lo <=? b) && (b <? lo + n).

(** The opcode and what follows it; the length counts from the opcode on. *)
Definition decode_opcode (rex : rex_t) (l : list Z) : option (insn * Z) :=
  match l with
  | [] => None
  | b :: l =>
      if in_row 0x70 b 16 then Some (JCC (b - 0x70) (simm 1 l), 2)
      else if b =? 0xeb then Some (JMP_rel (simm 1 l), 2)
      else if b =? 0xe9 then Some (JMP_rel (simm 4 l), 5)
      else if b =? 0xe8 then Some (CALL_rel (simm 4 l), 5)
      else if b =? 0xff then
        '(r, o, n) ← decode_modrm rex l;
        if r =? 2 then Some (CALL_rm o, 1 + n) else if r =? 4 then Some (JMP_rm o, 1 + n) else None
      else if in_row 0x50 b 8 then Some (PUSH (ext (rB rex) (b - 0x50)), 1)
      else if in_row 0x58 b 8 then Some (POP (ext (rB rex) (b - 0x58)), 1)
      else if b =? 0xc3 then Some (RET, 1)
      else if (b =? 0x90) && negb (rB rex) then Some (NOP, 1)
      else if b =? 0x0f then
        match l with
        | c :: l => if in_row 0x80 c 16 then Some (JCC (c - 0x80) (simm 4 l), 6) else None
        | [] => None
        end
      else if negb (rW rex) then None
      else if in_row 0xb8 b 8 then Some (MOV_imm (ext (rB rex) (b - 0xb8)) (imm_at 8 l), 9)
      else if b =? 0x8b then
        '(r, o, n) ← decode_modrm rex l; Some (MOV_load (ext (rR rex) r) o, 1 + n)
      else if b =? 0x89 then
        '(r, o, n) ← decode_modrm rex l; Some (MOV_store o (ext (rR rex) r), 1 + n)
      else if b =? 0x8d then
        '(r, o, n) ← decode_modrm rex l;
        match o with Reg _ => None | _ => Some (LEA (ext (rR rex) r) o, 1 + n) end
      else None
  end.

(** The instruction and its length; an optional REX prefix comes right before the opcode. *)
Definition decode (l : list Z) : option (insn * Z) :=
  match l with
  | [] => None
  | b :: t =>
      if in_row 0x40 b 16 then '(i, n) ← decode_opcode (rex_of b) t; Some (i, 1 + n)
      else decode_opcode no_rex l
  end.

(** ** Execution *)

Definition bytes_from (m : Z -> Z) (a : Z) (n : nat) : list Z := map (fun i => m (u64 (a + Z.of_nat i))) (seq 0 n).
Definition load (n : nat) (m : Z -> Z) (a : Z) : Z := le_val (bytes_from m a n).
Definition store8 (m : Z -> Z) (a v : Z) : Z -> Z :=
  fun x => let i := u64 (x - a) in if i <? 8 then nth (Z.to_nat i) (le_bytes 8 v) 0 else m x.

Definition jump (a : Z) (s : state) : state :=
  {| rip := u64 a; regs := regs s; flags := flags s; mem := mem s |}.
Definition set (r v : Z) (s : state) : state :=
  {| rip := rip s; regs := fun r' => if r' =? r then v else regs s r'; flags := flags s; mem := mem s |}.
Definition write (a v : Z) (s : state) : state :=
  {| rip := rip s; regs := regs s; flags := flags s; mem := store8 (mem s) a v |}.

(** The condition codes come in pairs; the odd one is the negation. *)
Definition cond_holds (f : flags_t) (cc : Z) : bool :=
  let base :=
    match cc / 2 with
    | 0 => OF f
    | 1 => CF f
    | 2 => ZF f
    | 3 => CF f || ZF f
    | 4 => SF f
    | 5 => PF f
    | 6 => negb (Bool.eqb (SF f) (OF f))
    | _ => ZF f || negb (Bool.eqb (SF f) (OF f))
    end in
  if cc mod 2 =? 1 then negb base else base.

(** The address of a memory operand of an instruction that ends at [next]. *)
Definition address (s : state) (next : Z) (o : operand) : option Z :=
  match o with
  | Reg _ => None
  | RipRel d => Some (u64 (next + d))
  | Mem base index d =>
      Some (u64 (default 0 (regs s <$> base) + default 0 ((fun x => regs s (fst x) * 2 ^ snd x) <$> index) + d))
  end.
Definition read_op (s : state) (next : Z) (o : operand) : Z :=
  match o, address s next o with
  | Reg r, _ => regs s r
  | _, Some a => load 8 (mem s) a
  | _, None => 0
  end.
Definition write_op (o : operand) (next v : Z) (s : state) : state :=
  match o, address s next o with
  | Reg r, _ => set r v s
  | _, Some a => write a v s
  | _, None => s
  end.
Definition push (v : Z) (s : state) : state :=
  let sp := u64 (regs s rsp_num - 8) in write sp v (set rsp_num sp s).

Definition exec (i : insn) (n : Z) (s : state) : state :=
  let next := u64 (rip s + n) in
  match i with
  | JCC cc offset => jump (if cond_holds (flags s) cc then next + offset else next) s
  | JMP_rel offset => jump (next + offset) s
  | CALL_rel offset => jump (next + offset) (push next s)
  | JMP_rm o => jump (read_op s next o) s
  | CALL_rm o => jump (read_op s next o) (push next s)
  | MOV_imm r imm => jump next (set r imm s)
  | MOV_load r o => jump next (set r (read_op s next o) s)
  | MOV_store o r => jump next (write_op o next (regs s r) s)
  | LEA r o => jump next (set r (default 0 (address s next o)) s)
  | PUSH r => jump next (push (regs s r) s)
  | POP r =>
      let v := load 8 (mem s) (regs s rsp_num) in
      jump next (set r v (set rsp_num (u64 (regs s rsp_num + 8)) s))
  | RET =>
      let v := load 8 (mem s) (regs s rsp_num) in
      jump v (set rsp_num (u64 (regs s rsp_num + 8)) s)
  | NOP => jump next s
  end.

(** An instruction has at most 15 bytes. *)
Definition step (s : state) : option state :=
  '(i, n) ← decode (bytes_from (mem s) (rip s) 15); Some (exec i n s).

Fixpoint run (n : nat) (s : state) : option state :=
  match n with
  | O => Some s
  | S n => s ← step s; run n s
  end.

Definition at_rip (a : Z) (s : state) : state :=
  {| rip := a; regs := regs s; flags := flags s; mem := mem s |}.

(** The instructions that go on to the next one and name no address relative to themselves. *)
Definition rip_free (o : operand) : bool := match o with RipRel _ => false | _ => true end.
Definition sequential (i : insn) : bool :=
  match i with
  | MOV_imm _ _ | PUSH _ | POP _ | NOP => true
  | MOV_load _ o | MOV_store o _ | LEA _ o => rip_free o
  | _ => false
  end.

(** ** Facts about the semantics *)

Lemma x64_run_app n m s t : run n s = Some t -> run (n + m) s = run m t.
Proof.
  revert s. induction n as [|n IH]; intros s E; cbn [run Nat.add] in *; [congruence|].
  destruct (step s) as [s'|]; [|done]. by apply IH.
Qed.

(** A sequential instruction has the same effect wherever it is. *)
Lemma exec_sequential i n a b s :
  sequential i = true ->
  exec i n (at_rip b s) = at_rip (u64 (b + n)) (exec i n (at_rip a s)).
Proof.
  destruct i as [| | | | | | r o|o r|r o| | | |]; simpl; intros H; try discriminate;
    try (destruct o; try discriminate); unfold jump, push, write_op, write, set, at_rip; simpl; by rewrite ?wrap_wrap.
Qed.

(** [loaded m base l]: the bytes [l] are in memory from [base] on. *)
Record loaded (m : Z -> Z) (base : Z) (l : list Z) : Prop := {
  ld_low : 0 <= base;
  ld_high : base + Z.of_nat (length l) < 2 ^ 64;
  ld_byte : forall i, (i < length l)%nat -> m (base + Z.of_nat i) = nth i l 0;
}.

(** The bytes [l] and whatever follows them. *)
Lemma bytes_from_loaded m base l n :
  loaded m base l -> (length l <= n)%nat -> exists rest, bytes_from m base n = l ++ rest.
Proof.
  intros [Hlo Hhi Hb] Hn. exists (drop (length l) (bytes_from m base n)).
  rewrite <- (take_drop (length l) (bytes_from m base n)) at 1. f_equal.
  apply nth_ext with (d := 0) (d' := 0).
  { unfold bytes_from. rewrite length_take, length_map, length_seq. lia. }
  intros i Hi. unfold bytes_from in *. rewrite length_take, length_map, length_seq in Hi.
  rewrite <- Hb by lia. rewrite (nth_indep _ 0 (m (u64 (base + Z.of_nat 0)))) by
    (rewrite length_take, length_map, length_seq; lia).
  rewrite firstn_map, (map_nth (fun i => m (u64 (base + Z.of_nat i)))).
  replace (nth i (firstn (length l) (seq 0 n)) 0%nat) with i; [by rewrite wrap_small by lia|].
  rewrite take_seq, seq_nth by lia. lia.
Qed.

Lemma loaded_app m base l1 l2 :
  loaded m base (l1 ++ l2) <-> loaded m base l1 /\ loaded m (base + Z.of_nat (length l1)) l2.
Proof.
  split.
  - intros [Hlo Hhi Hb]. rewrite length_app in *. split; split; try lia.
    + intros i Hi. rewrite Hb by lia. by apply app_nth1.
    + intros i Hi. rewrite <- Z.add_assoc, <- Nat2Z.inj_add, Hb by lia.
      rewrite app_nth2 by lia. f_equal. lia.
  - intros [[Hlo Hhi Hb] [Hlo' Hhi' Hb']]. split; rewrite ?length_app; try lia.
    intros i Hi. destruct (decide (i < length l1)%nat) as [Hl|Hl].
    + rewrite app_nth1 by done. by apply Hb.
    + rewrite app_nth2 by lia. rewrite <- Hb' by lia. f_equal. lia.
Qed.

Lemma x64_load_loaded m base l : loaded m base l -> load (length l) m base = le_val l.
Proof.
  intros H. destruct (bytes_from_loaded m base l (length l) H) as [rest E]; [done|].
  unfold load. rewrite E. f_equal.
  assert (Hl : length (l ++ rest) = length l).
  { rewrite <- E. unfold bytes_from. by rewrite length_map, length_seq. }
  rewrite length_app in Hl. destruct rest; [apply app_nil_r|simpl in Hl; lia].
Qed.
