(* ===== verification/X64Assembler.v ===== *)
(** * The x64 assembler

    registers-x64.h, constants-x64.h, assembler-x64.h and codegen-x64.h, with the part
    of assembler.h and pseudo_label.h they use.  As in the ARM64 assembler the buffer is
    any implementation of [CodeBuffer] and a [RelocDataLabel *] is an index into
    [data_labels].  [ASSERT] is defined empty in the sources and leaves no trace here. *)

From S2P Require Import Prelude UtilityMacro CodeMemBuffer.
#[local] Open Scope machine_scope.
#[local] Open Scope Z_scope.

(** ** registers-x64.h and constants-x64.h *)

Inductive RegisterType := kDefault | kInvalid.
Record Register := { reg_id : Z; reg_size_ : Z; reg_type_ : RegisterType }.

Definition Create (code size : Z) (type : RegisterType) : Register :=
  {| reg_id := code; reg_size_ := size; reg_type_ := type |}.
Definition from_code (code : Z) : Register := Create code 0 kDefault.
Definition InvalidRegister : Register := Create 0 0 kInvalid.
Definition Is64Bits (r : Register) : bool := reg_size_ r =? 64.
Definition is_byte_register (r : Register) : bool := reg_id r <=? 3.
Definition high_bit (r : Register) : Z := reg_id r >> 3.
Definition low_bits (r : Register) : Z := reg_id r .& 0x7.
Definition code (r : Register) : Z := reg_id r.

(** [DECLARE_REGISTER] over [GENERAL_REGISTERS]: the [n]-th one is 64 bits wide. *)
Definition general_register (n : Z) : Register := Create n 64 kDefault.
Definition rax := general_register 0.
Definition rcx := general_register 1.
Definition rdx := general_register 2.
Definition rbx := general_register 3.
Definition rsp := general_register 4.
Definition rbp := general_register 5.
Definition rsi := general_register 6.
Definition rdi := general_register 7.
Definition r11 := general_register 11.
Definition r12 := general_register 12.

Inductive ScaleFactor := TIMES_1 | TIMES_2 | TIMES_4 | TIMES_8 | TIMES_16.
Definition ScaleFactor_value (s : ScaleFactor) : Z :=
  match s with TIMES_1 => 0 | TIMES_2 => 1 | TIMES_4 => 2 | TIMES_8 => 3 | TIMES_16 => 4 end.

Definition REX_NONE : Z := 0.
Definition REX_B : Z := 1 << 0.
Definition REX_X : Z := 1 << 1.
Definition REX_R : Z := 1 << 2.
Definition REX_W : Z := 1 << 3.
Definition REX_PREFIX : Z := 1 << 6.

Definition VOLATILE_REGISTER : Register := r11.

Definition IsInt8 (imm : Z) : bool := (-128 <=? imm) && (imm <=? 127).

(** ** Immediates *)

Record Immediate := { value_ : Z; value_size_ : Z }.

(** The one-argument constructor gives a 16-bit value the size 8. *)
Definition Immediate_of (imm : Z) : Immediate :=
  {| value_ := imm;
     value_size_ := if sext 8 imm =? imm then 8 else if sext 16 imm =? imm then 8
                    else if sext 32 imm =? imm then 32 else 64 |}.
Definition Immediate_sized (imm size : Z) : Immediate := {| value_ := imm; value_size_ := size |}.

(** ** Operands *)

(** [encoding_] is the part of the array that is set; its length is [length_]. *)
Record Operand := { rex_ : Z; encoding_ : list Z }.
Definition Operand_new : Operand := {| rex_ := REX_NONE; encoding_ := [] |}.
Definition encoding_at (o : Operand) (i : nat) : Z := nth i (encoding_ o) 0.
Definition modrm (o : Operand) : Z := encoding_at o 0.

Definition SetModRM (mod_ : Z) (rm : Register) (o : Operand) : Operand :=
  {| rex_ := if (7 <? code rm) && negb ((code rm =? code r12) && negb (mod_ =? 3))
             then rex_ o .| REX_B else rex_ o;
     encoding_ := [u8 ((mod_ << 6) .| (code rm .& 7))] |}.

Definition SetSIB (scale : ScaleFactor) (index base : Register) (o : Operand) : Operand :=
  let rex := if 7 <? code base then rex_ o .| REX_B else rex_ o in
  {| rex_ := if 7 <? code index then rex .| REX_X else rex;
     encoding_ := take 1 (encoding_ o) ++
       [u8 ((ScaleFactor_value scale << 6) .| ((code index .& 7) << 3) .| (code base .& 7))] |}.

Definition SetDisp8 (disp : Z) (o : Operand) : Operand :=
  {| rex_ := rex_ o; encoding_ := encoding_ o ++ le_bytes 1 disp |}.
Definition SetDisp32 (disp : Z) (o : Operand) : Operand :=
  {| rex_ := rex_ o; encoding_ := encoding_ o ++ le_bytes 4 disp |}.

(** The three [Address] constructors and the private one with a forced 32-bit displacement. *)
Definition base_sib (base : Register) (o : Operand) : Operand :=
  if code base .& 7 =? code rsp then SetSIB TIMES_1 rsp base o else o.

Definition Address_base (base : Register) (disp : Z) : Operand :=
  if (disp =? 0) && negb (code base .& 7 =? code rbp) then base_sib base (SetModRM 0 base Operand_new)
  else if IsInt8 disp then SetDisp8 disp (base_sib base (SetModRM 1 base Operand_new))
  else SetDisp32 disp (base_sib base (SetModRM 2 base Operand_new)).

Definition Address_index (index : Register) (scale : ScaleFactor) (disp : Z) : Operand :=
  SetDisp32 disp (SetSIB scale index rbp (SetModRM 0 rsp Operand_new)).

Definition Address_base_index (base index : Register) (scale : ScaleFactor) (disp : Z) : Operand :=
  if (disp =? 0) && negb (code base .& 7 =? code rbp) then SetSIB scale index base (SetModRM 0 rsp Operand_new)
  else if IsInt8 disp then SetDisp8 disp (SetSIB scale index base (SetModRM 1 rsp Operand_new))
  else SetDisp32 disp (SetSIB scale index base (SetModRM 2 rsp Operand_new)).

Definition Address_fixed (base : Register) (disp : Z) : Operand :=
  SetDisp32 disp (base_sib base (SetModRM 2 base Operand_new)).

(** The getters of [Operand]. *)
Definition op_rex_b (o : Operand) : Z := rex_ o .& REX_B.
Definition op_rex_x (o : Operand) : Z := rex_ o .& REX_X.
Definition op_mod (o : Operand) : Z := (encoding_at o 0 >> 6) .& 3.
Definition op_rm (o : Operand) : Register := from_code ((op_rex_b o << 3) + (encoding_at o 0 .& 7)).
Definition op_scale (o : Operand) : Z := (encoding_at o 1 >> 6) .& 3.
Definition op_index (o : Operand) : Register := from_code ((op_rex_x o << 2) + ((encoding_at o 1 >> 3) .& 7)).
Definition op_base (o : Operand) : Register := from_code ((op_rex_b o << 3) + (encoding_at o 1 .& 7)).

(** ** Labels *)

Inductive ref_label_type_t := kDisp32_off_9.
Record ref_inst_t := { link_type : ref_label_type_t; inst_offset : Z }.
Record RelocDataLabel := { pos : Z; ref_insts : list ref_inst_t; data_ : list Z }.

Definition RelocDataLabel_new (data : Z) : RelocDataLabel :=
  {| pos := 0; ref_insts := []; data_ := le_bytes 8 data |}.
Definition bind_to (p : Z) (l : RelocDataLabel) : RelocDataLabel :=
  {| pos := p; ref_insts := ref_insts l; data_ := data_ l |}.
Definition has_confused_instructions (l : RelocDataLabel) : bool :=
  match ref_insts l with [] => false | _ => true end.
Definition link_to (t : ref_label_type_t) (pc_offset : Z) (l : RelocDataLabel) : RelocDataLabel :=
  {| pos := pos l; ref_insts := ref_insts l ++ [{| link_type := t; inst_offset := u32 pc_offset |}];
     data_ := data_ l |}.

Section Assembler.
Context {Buf : Type} `{CB : CodeBuffer Buf}.

Record AssemblerT := {
  fixed_addr : Z;
  code_buffer_ : Buf;
  data_labels : list RelocDataLabel;
}.

Definition with_buffer (a : AssemblerT) (b : Buf) : AssemblerT :=
  {| fixed_addr := fixed_addr a; code_buffer_ := b; data_labels := data_labels a |}.
Definition with_labels (a : AssemblerT) (l : list RelocDataLabel) : AssemblerT :=
  {| fixed_addr := fixed_addr a; code_buffer_ := code_buffer_ a; data_labels := l |}.

Definition AssemblerBase (addr : Z) : AssemblerT :=
  {| fixed_addr := addr; code_buffer_ := cb_new; data_labels := [] |}.
Definition pc_offset (a : AssemblerT) : Z := cb_size (code_buffer_ a).
Definition set_fixed_addr (addr : Z) (a : AssemblerT) : AssemblerT :=
  {| fixed_addr := addr; code_buffer_ := code_buffer_ a; data_labels := data_labels a |}.

Definition createDataLabel (data : Z) (a : AssemblerT) : nat * AssemblerT :=
  (length (data_labels a), with_labels a (data_labels a ++ [RelocDataLabel_new data])).

(** [CodeMemBuffer::FixBindLabel]. *)
Definition FixBindLabel (offset disp : Z) (b : Buf) : outcome Buf := cb_store b offset disp.

(** [PseudoLabel::link_confused_instructions] of assembler-x64.h. *)
Fixpoint link_confused_instructions (p : Z) (refs : list ref_inst_t) (b : Buf) : outcome Buf :=
  match refs with
  | [] => Ret b
  | r :: refs =>
      let new_offset := i64 (p - inst_offset r) in
      b ← (match link_type r with
           | kDisp32_off_9 =>
               let disp32_fix_pos := i32 (inst_offset r - 4) in
               FixBindLabel disp32_fix_pos (i32 (new_offset + 9)) b
           end);
      link_confused_instructions p refs b
  end.

(** [bindLabel], then the data of the label. *)
Definition bind_and_emit (l : RelocDataLabel) (a : AssemblerT) : outcome (RelocDataLabel * AssemblerT) :=
  let l := bind_to (pc_offset a) l in
  b ← (if has_confused_instructions l
       then link_confused_instructions (pos l) (ref_insts l) (code_buffer_ a) else Ret (code_buffer_ a));
  b ← cb_emit b (data_ l);
  Ret (l, with_buffer a b).

Fixpoint reloc_labels (ls : list RelocDataLabel) (a : AssemblerT) : outcome (list RelocDataLabel * AssemblerT) :=
  match ls with
  | [] => Ret ([], a)
  | l :: ls =>
      '(l, a) ← bind_and_emit l a;
      '(ls, a) ← reloc_labels ls a;
      Ret (l :: ls, a)
  end.

Definition relocDataLabels (a : AssemblerT) : outcome AssemblerT :=
  '(ls, a) ← reloc_labels (data_labels a) a;
  Ret (with_labels a ls).

(** ** Emission *)

Definition EmitBuffer (bs : list Z) (a : AssemblerT) : outcome AssemblerT :=
  b ← cb_emit (code_buffer_ a) bs;
  Ret (with_buffer a b).
Definition Emit1 (val : Z) : AssemblerT -> outcome AssemblerT := EmitBuffer (le_bytes 1 val).
Definition Emit (value : Z) : AssemblerT -> outcome AssemblerT := EmitBuffer (le_bytes 4 value).
Definition EmitInt64 (value : Z) : AssemblerT -> outcome AssemblerT := EmitBuffer (le_bytes 8 value).

Definition EmitOptionalRex (force w r x b : bool) : Z :=
  let rex := if force then 0x40 else 0 in
  let rex := if w then rex .| 0x48 else rex in
  let rex := if r then rex .| 0x44 else rex in
  let rex := if x then rex .| 0x42 else rex in
  let rex := if b then rex .| 0x41 else rex in
  if negb (rex =? 0) then rex else 0.

Definition emit_rex (rex : Z) (a : AssemblerT) : outcome AssemblerT :=
  if negb (rex =? 0) then Emit1 rex a else Ret a.

Definition Emit_64REX (extra : Z) : AssemblerT -> outcome AssemblerT :=
  emit_rex (EmitOptionalRex false true false false false .| extra).
Definition EmitREX_ExtraRegister (reg : Register) : AssemblerT -> outcome AssemblerT :=
  emit_rex (EmitOptionalRex false (reg_size_ reg =? 64) (7 <? code reg) false (7 <? code reg)).
Definition EmitREX_Register (reg : Register) : AssemblerT -> outcome AssemblerT :=
  emit_rex (EmitOptionalRex false (reg_size_ reg =? 64) (7 <? code reg) false false).
Definition EmitREX_Register_Operand (reg : Register) (operand : Operand) (a : AssemblerT) : outcome AssemblerT :=
  if negb (reg_size_ reg =? 64) then Fatal
  else emit_rex (rex_ operand .| EmitOptionalRex true (reg_size_ reg =? 64) (7 <? code reg) false false) a.
Definition EmitREX_Operand (operand : Operand) : AssemblerT -> outcome AssemblerT :=
  emit_rex (rex_ operand .| REX_PREFIX).

Definition EmitImmediate (imm : Immediate) (imm_size : Z) (a : AssemblerT) : outcome AssemblerT :=
  if imm_size =? 8 then EmitBuffer (le_bytes 1 (value_ imm)) a
  else if imm_size =? 32 then EmitBuffer (le_bytes 4 (value_ imm)) a
  else if imm_size =? 64 then EmitBuffer (le_bytes 8 (value_ imm)) a
  else Fatal.

(** [ModRM_Mod] and [ModRM_RM]. *)
Definition ModRM_Mod (b : Z) : Z := (b .& 0xc0) >> 6.
Definition ModRM_RM (b : Z) : Z := b .& 0x7.

Definition EmitModRM (Mod RegOpcode RM : Z) : AssemblerT -> outcome AssemblerT :=
  Emit1 (u8 (u8 (u8 (Mod << 6) .| (RegOpcode << 3)) .| RM)).
Definition EmitModRM_ExtraOpcode_Register (extra_opcode : Z) (reg : Register) : AssemblerT -> outcome AssemblerT :=
  EmitModRM 3 extra_opcode (code reg).
Definition EmitModRM_Register_Register (reg1 reg2 : Register) : AssemblerT -> outcome AssemblerT :=
  EmitModRM 3 (code reg1) (code reg2).
Definition EmitModRM_Update_Register (modRM : Z) (reg : Register) : AssemblerT -> outcome AssemblerT :=
  EmitModRM (ModRM_Mod modRM) (low_bits reg) (ModRM_RM modRM).
Definition EmitModRM_Update_ExtraOpcode (modRM extra_opcode : Z) : AssemblerT -> outcome AssemblerT :=
  EmitModRM (ModRM_Mod modRM) extra_opcode (ModRM_RM modRM).

Definition EmitOpcode (opcode : Z) : AssemblerT -> outcome AssemblerT := Emit1 opcode.
Definition EmitOpcode_Register (opcode : Z) (reg : Register) : AssemblerT -> outcome AssemblerT :=
  EmitOpcode (opcode .| low_bits reg).

Definition Emit_OpEn_Register_MemOperand (dst : Register) (operand : Operand) (a : AssemblerT) : outcome AssemblerT :=
  a ← EmitModRM_Update_Register (modrm operand) dst a;
  EmitBuffer (drop 1 (encoding_ operand)) a.
Definition Emit_OpEn_Register_RegOperand (dst src : Register) : AssemblerT -> outcome AssemblerT :=
  EmitModRM_Register_Register dst src.
Definition Emit_OpEn_MemOperand_Immediate (extra_opcode : Z) (operand : Operand) (imm : Immediate) (a : AssemblerT)
    : outcome AssemblerT :=
  a ← EmitModRM_Update_ExtraOpcode (modrm operand) extra_opcode a;
  a ← EmitBuffer (drop 1 (encoding_ operand)) a;
  EmitImmediate imm (value_size_ imm) a.
Definition Emit_OpEn_RegOperand_Immediate (extra_opcode : Z) (reg : Register) (imm : Immediate) (a : AssemblerT)
    : outcome AssemblerT :=
  a ← EmitModRM_ExtraOpcode_Register extra_opcode reg a;
  EmitImmediate imm (value_size_ imm) a.
Definition Emit_OpEn_MemOperand (extra_opcode : Z) (operand : Operand) (a : AssemblerT) : outcome AssemblerT :=
  a ← EmitModRM_Update_ExtraOpcode (modrm operand) extra_opcode a;
  EmitBuffer (drop 1 (encoding_ operand)) a.
Definition Emit_OpEn_RegOperand (extra_opcode : Z) (reg : Register) : AssemblerT -> outcome AssemblerT :=
  EmitModRM_ExtraOpcode_Register extra_opcode reg.
Definition Emit_OpEn_OpcodeRegister_Immediate (opcode : Z) (dst : Register) (imm : Immediate) (a : AssemblerT)
    : outcome AssemblerT :=
  a ← EmitOpcode_Register opcode dst a;
  EmitImmediate imm (value_size_ imm) a.

(** ** Instructions *)

Definition pushfq : AssemblerT -> outcome AssemblerT := Emit1 0x9C.
Definition jmp (imm : Immediate) (a : AssemblerT) : outcome AssemblerT :=
  a ← EmitBuffer (le_bytes 1 0xE9) a; EmitBuffer (le_bytes 4 (value_ imm)) a.
Definition sub (dst : Register) (imm : Immediate) (a : AssemblerT) : outcome AssemblerT :=
  a ← EmitREX_Register dst a; a ← EmitOpcode 0x81 a; Emit_OpEn_RegOperand_Immediate 0x5 dst imm a.
Definition add (dst : Register) (imm : Immediate) (a : AssemblerT) : outcome AssemblerT :=
  a ← EmitREX_Register dst a; a ← EmitOpcode 0x81 a; Emit_OpEn_RegOperand_Immediate 0x0 dst imm a.

(** The five overloads of [mov]. *)
Definition mov_reg_imm (dst : Register) (imm : Immediate) (a : AssemblerT) : outcome AssemblerT :=
  a ← EmitREX_Register dst a; Emit_OpEn_OpcodeRegister_Immediate 0xb8 dst imm a.
Definition mov_mem_imm (dst : Operand) (imm : Immediate) (a : AssemblerT) : outcome AssemblerT :=
  a ← EmitREX_Operand dst a; a ← EmitOpcode 0xc7 a; Emit_OpEn_MemOperand_Immediate 0x0 dst imm a.
Definition mov_reg_mem (dst : Register) (src : Operand) (a : AssemblerT) : outcome AssemblerT :=
  a ← EmitREX_Register dst a; a ← EmitOpcode 0x8B a; Emit_OpEn_Register_MemOperand dst src a.
Definition mov_mem_reg (dst : Operand) (src : Register) (a : AssemblerT) : outcome AssemblerT :=
  a ← EmitREX_Register_Operand src dst a; a ← EmitOpcode 0x89 a; Emit_OpEn_Register_MemOperand src dst a.
Definition mov_reg_reg (dst src : Register) (a : AssemblerT) : outcome AssemblerT :=
  a ← EmitREX_Register dst a; a ← Emit1 0x8B a; Emit_OpEn_Register_RegOperand dst src a.

(** The three overloads of [call]. *)
Definition call_mem (operand : Operand) (a : AssemblerT) : outcome AssemblerT :=
  a ← EmitREX_Operand operand a; a ← EmitOpcode 0xFF a; Emit_OpEn_MemOperand 0x2 operand a.
Definition call_imm (imm : Immediate) (a : AssemblerT) : outcome AssemblerT :=
  a ← EmitOpcode 0xe8 a; EmitImmediate imm (value_size_ imm) a.
Definition call_reg (reg : Register) (a : AssemblerT) : outcome AssemblerT :=
  a ← EmitREX_Register reg a; a ← EmitOpcode 0xFF a; Emit_OpEn_RegOperand 0x2 reg a.

Definition pop (reg : Register) (a : AssemblerT) : outcome AssemblerT :=
  a ← EmitREX_ExtraRegister reg a; EmitOpcode_Register 0x58 reg a.
Definition push (reg : Register) (a : AssemblerT) : outcome AssemblerT :=
  a ← EmitREX_ExtraRegister reg a; EmitOpcode_Register 0x50 reg a.
Definition ret : AssemblerT -> outcome AssemblerT := EmitOpcode 0xc3.
Definition nop : AssemblerT -> outcome AssemblerT := EmitOpcode 0x90.

(** ** TurboAssembler and CodeGen *)

Definition CurrentIP (a : AssemblerT) : Z := u64 (pc_offset a + fixed_addr a).

Definition MovRipToRegister (dst : Register) (a : AssemblerT) : outcome AssemblerT :=
  a ← call_imm (Immediate_sized 0 32) a; pop dst a.

Definition link_label (label : nat) (a : AssemblerT) : AssemblerT :=
  with_labels a (alter (link_to kDisp32_off_9 (pc_offset a)) label (data_labels a)).

Definition CallFunction (function : Z) (a : AssemblerT) : outcome AssemblerT :=
  a ← nop a;
  a ← MovRipToRegister VOLATILE_REGISTER a;
  a ← call_mem (Address_base VOLATILE_REGISTER (2 ^ 31 - 1)) a;
  let '(func_data_label, a) := createDataLabel function a in
  let a := link_label func_data_label a in
  nop a.

Definition JmpNearIndirect (forward_stub_addr : Z) (a : AssemblerT) : outcome AssemblerT :=
  let currIP := u64 (CurrentIP a + 6) in
  let offset := i32 (forward_stub_addr - currIP) in
  a ← EmitBuffer (le_bytes 1 0xff) a;
  a ← EmitBuffer (le_bytes 1 0x25) a;
  EmitBuffer (le_bytes 4 offset) a.

End Assembler.
Arguments AssemblerT Buf : clear implicits.
