(* ===== verification/X64Encoding.v ===== *)
(** * What the x64 assembler emits

    The bytes each instruction of assembler-x64.h appends, decoded by the reference
    semantics of X64Machine: which encodings mean what their caller asked for. *)

From S2P Require Import Prelude UtilityMacro CodeMemBuffer X64Machine X64Assembler.
#[local] Open Scope machine_scope.
#[local] Open Scope Z_scope.

(** ** Emission *)

Section Emission.
Context {Buf : Type} `{CB : CodeBuffer Buf} `{!CodeBufferLaws Buf}.

(** [f] appends exactly [bs] and changes nothing else. *)
Definition emits (f : AssemblerT Buf -> outcome (AssemblerT Buf)) (bs : list Z) : Prop :=
  forall a l, cb_rep (code_buffer_ a) l -> Z.of_nat (length l) + Z.of_nat (length bs) <= cb_limit ->
  exists b, f a = Ret (with_buffer a b) /\ cb_rep b (l ++ bs).

Lemma x64_emits_Ret : emits Ret [].
Proof. intros a l H _. exists (code_buffer_ a). rewrite app_nil_r. by destruct a. Qed.

Lemma emits_EmitBuffer bs : bytes_ok bs -> emits (EmitBuffer bs) bs.
Proof.
  intros Hb a l H Hl. destruct (cb_emit_rep _ _ bs H Hb Hl) as (b & E & Hr).
  exists b. unfold EmitBuffer. by rewrite E.
Qed.

Lemma emits_bind f g bs bs' : emits f bs -> emits g bs' -> emits (fun a => a ← f a; g a) (bs ++ bs').
Proof.
  intros Hf Hg a l H Hl. rewrite length_app in Hl.
  destruct (Hf a l H) as (b & -> & Hr); [lia|]. cbn [mbind outcome_bind].
  destruct (Hg (with_buffer a b) _ Hr) as (b' & -> & Hr'); [rewrite length_app; lia|].
  exists b'. by rewrite app_assoc.
Qed.

Lemma emits_le n v : emits (EmitBuffer (le_bytes n v)) (le_bytes n v).
Proof. apply emits_EmitBuffer, le_bytes_ok. Qed.

Lemma emits_Emit1 v : 0 <= v < 256 -> emits (Emit1 v) [v].
Proof. intros H. unfold Emit1. replace [v] with (le_bytes 1 v); [apply emits_le|]. simpl. by rewrite Z.mod_small. Qed.

Lemma emits_rex_pos r : 0 < r < 256 -> emits (emit_rex r) [r].
Proof. intros H. unfold emit_rex. replace (r =? 0) with false by lia. apply emits_Emit1. lia. Qed.

End Emission.

(** ** ModR/M and SIB bytes *)

Lemma fields_8 a b c :
  0 <= a < 4 -> 0 <= b < 8 -> 0 <= c < 8 ->
  let m := 64 * a + 8 * b + c in m / 64 = a /\ (m / 8) mod 8 = b /\ m mod 8 = c /\ 0 <= m < 256.
Proof.
  intros Ha Hb Hc m. unfold m. clear m.
  split; [|split; [|split; [|lia]]].
  - symmetry. apply Z.div_unique with (8 * b + c); lia.
  - replace ((64 * a + 8 * b + c) / 8) with (8 * a + b) by (apply Z.div_unique with c; lia).
    symmetry. apply Z.mod_unique with a; lia.
  - symmetry. apply Z.mod_unique with (8 * a + b); lia.
Qed.

(** [EmitModRM] applied to fields in range. *)
Definition modrm_byte (Mod RegOpcode RM : Z) : Z := u8 (u8 (u8 (Mod << 6) .| (RegOpcode << 3)) .| RM).

Lemma modrm_byte_fields a b c :
  0 <= a < 4 -> 0 <= b < 8 -> 0 <= c < 8 -> modrm_byte a b c = 64 * a + 8 * b + c.
Proof.
  intros Ha Hb Hc.
  assert (H : forallb (fun a => forallb (fun b => forallb (fun c =>
      modrm_byte a b c =? 64 * a + 8 * b + c) (Zrange 0 8)) (Zrange 0 8)) (Zrange 0 4) = true) by reflexivity.
  apply (forallb_Zrange _ 0 4) with (x := a) in H; [|lia].
  apply (forallb_Zrange _ 0 8) with (x := b) in H; [|lia].
  apply (forallb_Zrange _ 0 8) with (x := c) in H; [|lia]. by apply Z.eqb_eq.
Qed.

Lemma disp8_decodes d rest : IsInt8 d = true -> simm 1 (le_bytes 1 d ++ rest) = d.
Proof.
  unfold IsInt8. intros H. apply andb_true_iff in H as [H1%Z.leb_le H2%Z.leb_le].
  unfold simm, imm_at. cbn [le_bytes app firstn]. rewrite take_0. cbn [le_val]. unfold signed.
  change (2 ^ (8 * Z.of_nat 1 - 1)) with 128. change (2 ^ (8 * Z.of_nat 1)) with 256.
  pose proof (Z.mod_pos_bound d 256 ltac:(lia)). pose proof (Z.div_mod d 256 ltac:(lia)) as E.
  destruct (Z.ltb_spec (d mod 256 + 256 * 0) 128); lia.
Qed.

Lemma disp32_decodes d rest : - 2 ^ 31 <= d < 2 ^ 31 -> simm 4 (le_bytes 4 d ++ rest) = d.
Proof.
  intros H. unfold simm, imm_at. rewrite take_app_le, list.take_ge by (rewrite length_le_bytes; lia).
  rewrite le_val_bytes. change (8 * Z.of_nat 4) with 32. unfold signed.
  pose proof (Z.mod_pos_bound d (2 ^ 32) ltac:(lia)). pose proof (Z.div_mod d (2 ^ 32) ltac:(lia)) as E.
  destruct (Z.ltb_spec (d mod 2 ^ 32) (2 ^ (32 - 1))); simpl in *; lia.
Qed.

(** ** Memory operands *)

Inductive mem_form :=
| AtBase (base disp : Z)
| AtIndex (index : Z) (scale : ScaleFactor) (disp : Z)
| AtBoth (base index : Z) (scale : ScaleFactor) (disp : Z).

(** The operand the sources build for it, and what it should mean. *)
Definition form_operand (f : mem_form) : Operand :=
  match f with
  | AtBase b d => Address_base (general_register b) d
  | AtIndex x s d => Address_index (general_register x) s d
  | AtBoth b x s d => Address_base_index (general_register b) (general_register x) s d
  end.
Definition form_meaning (f : mem_form) : operand :=
  match f with
  | AtBase b d => Mem (Some b) None d
  | AtIndex x s d => Mem None (Some (x, ScaleFactor_value s)) d
  | AtBoth b x s d => Mem (Some b) (Some (x, ScaleFactor_value s)) d
  end.

Definition reg_ok (r : Z) : bool := (0 <=? r) && (r <? 16).
Definition index_ok (x : Z) (s : ScaleFactor) : bool :=
  reg_ok x && negb (x =? 4) && (ScaleFactor_value s <? 4).
Definition disp_ok (d : Z) : bool := (- 2 ^ 31 <=? d) && (d <? 2 ^ 31).
Definition form_ok (f : mem_form) : bool :=
  match f with
  | AtBase b d => reg_ok b && disp_ok d
  | AtIndex x s d => index_ok x s && disp_ok d
  | AtBoth b x s d => reg_ok b && index_ok x s && disp_ok d
  end.

Lemma scale_range s : (ScaleFactor_value s <? 4) = true -> 0 <= ScaleFactor_value s < 4.
Proof. by destruct s. Qed.

(** The REX bits and the ModR/M and SIB bytes for each form. *)
Definition hi (r : Z) : Z := if 7 <? r then 1 else 0.

Lemma head_base a b :
  0 <= a < 3 -> 0 <= b < 16 ->
  base_sib (general_register b) (SetModRM a (general_register b) Operand_new) =
  {| rex_ := hi b; encoding_ := if b mod 8 =? 4 then [64 * a + 4; 0x24] else [64 * a + b mod 8] |}.
Proof. intros Ha Hb. each_index a 3%nat ltac:(idtac; each_index b 16%nat ltac:(reflexivity)). Qed.

Lemma sib_byte s x b :
  0 <= s < 4 -> 0 <= x < 8 -> 0 <= b < 8 -> u8 ((s << 6) .| (x << 3) .| b) = 64 * s + 8 * x + b.
Proof.
  intros Hs Hx Hb. rewrite <- modrm_byte_fields by done. unfold modrm_byte.
  each_index s 4%nat ltac:(idtac; each_index x 8%nat ltac:(idtac; each_index b 8%nat ltac:(reflexivity))).
Qed.

Lemma head_both a b x s :
  0 <= a < 3 -> 0 <= b < 16 -> 0 <= x < 16 -> ScaleFactor_value s < 4 ->
  SetSIB s (general_register x) (general_register b) (SetModRM a rsp Operand_new) =
  {| rex_ := hi b + 2 * hi x; encoding_ := [64 * a + 4; 64 * ScaleFactor_value s + 8 * (x mod 8) + b mod 8] |}.
Proof.
  intros Ha Hb Hx Hs. unfold SetSIB. simpl code.
  change (Z.land x 7) with (Z.land x (Z.ones 3)). change (Z.land b 7) with (Z.land b (Z.ones 3)).
  rewrite !Z.land_ones by lia. change (2 ^ 3) with 8.
  rewrite sib_byte; [|by destruct s|by apply Z.mod_pos_bound..].
  f_equal; [unfold hi; simpl; destruct (7 <? b), (7 <? x); reflexivity|].
  simpl. f_equal. each_index a 3%nat ltac:(reflexivity).
Qed.

(** ** Decoding the three shapes *)

Definition rex_bits (w r : bool) (rex : Z) : rex_t :=
  {| rW := w; rR := r; rX := Z.testbit rex 1; rB := Z.testbit rex 0 |}.

Lemma rex_bits_hi w r b x :
  rX (rex_bits w r (hi b + 2 * hi x)) = (7 <? x) /\ rB (rex_bits w r (hi b + 2 * hi x)) = (7 <? b).
Proof. unfold hi. simpl. by destruct (7 <? b), (7 <? x). Qed.

Lemma ext_mod b : 0 <= b < 16 -> ext (7 <? b) (b mod 8) = b.
Proof. intros H. each_index b 16%nat ltac:(reflexivity). Qed.

Lemma decode_plain rex a r rm l :
  0 <= a < 3 -> 0 <= r < 8 -> 0 <= rm < 8 -> rm <> 4 -> ~ (rm = 5 /\ a = 0) ->
  decode_modrm rex ((64 * a + 8 * r + rm) :: l) =
  let '(d, n) := disp_of a l in Some (r, Mem (Some (ext (rB rex) rm)) None d, 1 + n).
Proof.
  intros Ha Hr Hrm H4 H5. destruct (fields_8 a r rm) as (E1 & E2 & E3 & _); try lia.
  unfold decode_modrm. rewrite E1, E2, E3. replace (a =? 3) with false by lia.
  replace (rm =? 4) with false by lia. by replace ((rm =? 5) && (a =? 0)) with false by lia.
Qed.

Lemma decode_sib_byte rex a r s x b l :
  0 <= a < 3 -> 0 <= r < 8 -> 0 <= s < 4 -> 0 <= x < 8 -> 0 <= b < 8 ->
  decode_modrm rex ((64 * a + 8 * r + 4) :: (64 * s + 8 * x + b) :: l) =
  let i := ext (rX rex) x in
  let index := if i =? 4 then None else Some (i, s) in
  if (b =? 5) && (a =? 0) then Some (r, Mem None index (simm 4 l), 6)
  else let '(d, n) := disp_of a l in Some (r, Mem (Some (ext (rB rex) b)) index d, 2 + n).
Proof.
  intros Ha Hr Hs Hx Hb. destruct (fields_8 a r 4) as (E1 & E2 & E3 & _); try lia.
  destruct (fields_8 s x b) as (F1 & F2 & F3 & _); try lia.
  unfold decode_modrm. rewrite E1, E2, E3, F1, F2, F3. by replace (a =? 3) with false by lia.
Qed.

(** The three sizes of displacement the constructors choose between. *)
Definition disp_mod (b d : Z) : Z :=
  if (d =? 0) && negb (b mod 8 =? 5) then 0 else if IsInt8 d then 1 else 2.
Definition disp_bytes (b d : Z) : list Z :=
  if disp_mod b d =? 0 then [] else if disp_mod b d =? 1 then le_bytes 1 d else le_bytes 4 d.

Lemma disp_of_bytes b d rest :
  disp_ok d = true ->
  0 <= disp_mod b d < 3 /\ (b mod 8 = 5 -> disp_mod b d <> 0) /\
  disp_of (disp_mod b d) (disp_bytes b d ++ rest) = (d, Z.of_nat (length (disp_bytes b d))).
Proof.
  unfold disp_ok, disp_bytes. intros [H1%Z.leb_le H2%Z.ltb_lt]%andb_true_iff.
  destruct (disp_mod b d =? 0) eqn:E0; [|destruct (disp_mod b d =? 1) eqn:E1].
  - unfold disp_mod in *. destruct (Z.eqb_spec d 0) as [->|]; simpl in *; [|by destruct (IsInt8 d)].
    destruct (Z.eqb_spec (b mod 8) 5); [done|]. simpl. split; [lia|]. by split.
  - unfold disp_mod in *. destruct ((d =? 0) && _); [done|]. destruct (IsInt8 d) eqn:E; [|done].
    split; [lia|]. split; [done|]. unfold disp_of. by rewrite disp8_decodes.
  - unfold disp_mod in *. destruct ((d =? 0) && _); [done|]. destruct (IsInt8 d) eqn:E; [done|].
    split; [lia|]. split; [done|]. unfold disp_of. by rewrite disp32_decodes by lia.
Qed.

(** What each constructor leaves in the operand. *)
Lemma form_shape f :
  form_ok f = true ->
  form_operand f =
  match f with
  | AtBase b d => {| rex_ := hi b;
      encoding_ := (if b mod 8 =? 4 then [64 * disp_mod b d + 4; 0x24] else [64 * disp_mod b d + b mod 8])
                   ++ disp_bytes b d |}
  | AtIndex x s d => {| rex_ := 2 * hi x;
      encoding_ := [4; 64 * ScaleFactor_value s + 8 * (x mod 8) + 5] ++ le_bytes 4 d |}
  | AtBoth b x s d => {| rex_ := hi b + 2 * hi x;
      encoding_ := [64 * disp_mod b d + 4; 64 * ScaleFactor_value s + 8 * (x mod 8) + b mod 8]
                   ++ disp_bytes b d |}
  end.
Proof.
  assert (Hl : forall b, Z.land b 7 = b mod 8) by (intros; by apply (Z.land_ones _ 3)).
  destruct f as [b d|x s d|b x s d]; unfold form_ok, index_ok, reg_ok; simpl; intros H.
  - unfold Address_base, disp_bytes, disp_mod. simpl code. rewrite Hl.
    destruct ((d =? 0) && _); [|destruct (IsInt8 d)]; rewrite head_base by lia; simpl; f_equal;
      by rewrite ?app_nil_r.
  - unfold Address_index. change rbp with (general_register 5). by rewrite head_both by lia.
  - unfold Address_base_index, disp_bytes, disp_mod. simpl code. rewrite Hl.
    destruct ((d =? 0) && _); [|destruct (IsInt8 d)]; by rewrite head_both by lia.
Qed.

(** The ModR/M byte with its register field replaced, and the rest of the operand. *)
Definition operand_bytes (r : Z) (o : Operand) : list Z :=
  modrm_byte (ModRM_Mod (modrm o)) r (ModRM_RM (modrm o)) :: drop 1 (encoding_ o).

Lemma modrm_update a r rm :
  0 <= a < 4 -> 0 <= r < 8 -> 0 <= rm < 8 ->
  modrm_byte (ModRM_Mod (64 * a + rm)) r (ModRM_RM (64 * a + rm)) = 64 * a + 8 * r + rm.
Proof.
  intros Ha Hr Hrm. rewrite <- modrm_byte_fields by done. f_equal.
  - each_index a 4%nat ltac:(idtac; each_index rm 8%nat ltac:(reflexivity)).
  - each_index a 4%nat ltac:(idtac; each_index rm 8%nat ltac:(reflexivity)).
Qed.

(** What the bytes mean under other REX bits than those the operand asks for. *)
Definition form_under (rex : Z) (f : mem_form) : operand :=
  let index x s := let x := ext (Z.testbit rex 1) (x mod 8) in
                   if x =? 4 then None else Some (x, ScaleFactor_value s) in
  let base b := Some (ext (Z.testbit rex 0) (b mod 8)) in
  match f with
  | AtBase b d => Mem (base b) None d
  | AtIndex x s d => Mem None (index x s) d
  | AtBoth b x s d => Mem (base b) (index x s) d
  end.
Definition no_stray_index (rex : Z) (f : mem_form) : bool :=
  match f with AtBase _ _ => negb (Z.testbit rex 1) | _ => true end.

Lemma form_under_own f : form_ok f = true -> form_under (rex_ (form_operand f)) f = form_meaning f.
Proof.
  intros H. rewrite (form_shape f H). unfold form_ok, index_ok, reg_ok in H.
  destruct f as [b d|x s d|b x s d]; rewrite !andb_true_iff in H; destruct_and? H; cbn [rex_ form_under form_meaning].
  - replace (hi b) with (hi b + 2 * hi 0) by (unfold hi; simpl; lia).
    destruct (rex_bits_hi false false b 0) as [_ HB]. cbn [rB rex_bits] in HB. by rewrite HB, ext_mod by lia.
  - destruct (rex_bits_hi false false 0 x) as [HX _]. change (hi 0) with 0 in HX. cbn [rX rex_bits] in HX. rewrite Z.add_0_l in HX. rewrite HX, ext_mod by lia.
    by replace (x =? 4) with false by lia.
  - destruct (rex_bits_hi false false b x) as [HX HB]. cbn [rX rB rex_bits] in HX, HB. rewrite HX, HB, !ext_mod by lia.
    by replace (x =? 4) with false by lia.
Qed.

Lemma no_stray_index_own f : form_ok f = true -> no_stray_index (rex_ (form_operand f)) f = true.
Proof.
  intros H. rewrite (form_shape f H). destruct f as [b d| |]; try done.
  unfold hi. simpl. by destruct (7 <? b).
Qed.

Lemma operand_decodes f w rr rex r rest :
  form_ok f = true -> no_stray_index rex f = true -> 0 <= r < 8 ->
  decode_modrm (rex_bits w rr rex) (operand_bytes r (form_operand f) ++ rest) =
  Some (r, form_under rex f, Z.of_nat (length (encoding_ (form_operand f)))).
Proof.
  intros Hf HX Hr. rewrite (form_shape f Hf). unfold operand_bytes, modrm, encoding_at.
  destruct f as [b d|x s d|b x s d]; unfold form_ok, index_ok, reg_ok in Hf; cbn [rex_ encoding_ form_under];
    rewrite !andb_true_iff in Hf; destruct_and? Hf.
  - destruct (disp_of_bytes b d rest) as (Ha & Hm5 & Ed); [done|]. set (a := disp_mod b d) in *.
    pose proof (Z.mod_pos_bound b 8 ltac:(lia)). apply negb_true_iff in HX.
    destruct (Z.eqb_spec (b mod 8) 4) as [E4|E4]; cbn [nth app skipn length]; rewrite ?drop_0, modrm_update by lia.
    + change 0x24 with (64 * 0 + 8 * 4 + 4). rewrite decode_sib_byte by lia.
      cbv zeta. cbn [rX rB rex_bits]. rewrite HX, Ed, E4. change (4 =? 5) with false. cbn [andb].
      change (ext false 4 =? 4) with true. do 2 f_equal. lia.
    + rewrite decode_plain by (try lia; intros [? ?]; auto). rewrite Ed. do 2 f_equal. lia.
  - cbn [nth app skipn length]. rewrite ?drop_0. change 4 with (64 * 0 + 4) at 1 2. rewrite modrm_update by lia.
    rewrite decode_sib_byte by (try apply Z.mod_pos_bound; try apply scale_range; lia).
    cbv zeta. cbn [Z.eqb andb]. by rewrite disp32_decodes by (unfold disp_ok in *; lia).
  - destruct (disp_of_bytes b d rest) as (Ha & Hm5 & Ed); [done|]. set (a := disp_mod b d) in *.
    pose proof (Z.mod_pos_bound b 8 ltac:(lia)). pose proof (Z.mod_pos_bound x 8 ltac:(lia)).
    cbn [nth app skipn length]. rewrite ?drop_0. rewrite modrm_update by lia.
    rewrite decode_sib_byte by (try apply scale_range; lia). rewrite Ed.
    replace ((b mod 8 =? 5) && (a =? 0)) with false by (symmetry; apply andb_false_iff; lia).
    cbv zeta. do 2 f_equal. lia.
Qed.

(** ** Instructions *)

Section Instructions.
Context {Buf : Type} `{CB : CodeBuffer Buf} `{!CodeBufferLaws Buf}.

(** [f] appends one instruction, and it is [i]. *)
Definition encodes (f : AssemblerT Buf -> outcome (AssemblerT Buf)) (i : insn) : Prop :=
  exists bs, emits f bs /\ (length bs <= 15)%nat /\
    forall rest, decode (bs ++ rest) = Some (i, Z.of_nat (length bs)).

Lemma rex_operand rex w r :
  0 <= rex < 4 ->
  let b := rex .| EmitOptionalRex true w r false false in
  0x40 <= b < 0x50 /\ rex_of b = rex_bits w r rex.
Proof. intros H. each_index rex 4%nat ltac:(destruct w, r; vm_compute; repeat split; congruence). Qed.

Lemma rex_register w r :
  w = true -> let b := EmitOptionalRex false w r false false in
  0x40 <= b < 0x50 /\ rex_of b = rex_bits w r 0.
Proof. intros ->. destruct r; vm_compute; repeat split; congruence. Qed.

Lemma form_rex f : form_ok f = true -> 0 <= rex_ (form_operand f) < 4.
Proof.
  intros H. rewrite (form_shape f H).
  destruct f; simpl; unfold hi; repeat case_match; lia.
Qed.

Lemma operand_length f :
  form_ok f = true -> (1 <= length (encoding_ (form_operand f)) <= 6)%nat.
Proof.
  intros H. rewrite (form_shape f H). destruct f; simpl; unfold disp_bytes; repeat case_match; simpl; lia.
Qed.

Lemma disp_bytes_ok b d : bytes_ok (disp_bytes b d).
Proof. unfold disp_bytes. repeat case_match; try apply le_bytes_ok. constructor. Qed.

Lemma operand_tail_ok f : form_ok f = true -> bytes_ok (drop 1 (encoding_ (form_operand f))).
Proof.
  intros H. rewrite (form_shape f H). unfold form_ok, index_ok, reg_ok in H.
  destruct f as [b d|x s d|b x s d]; rewrite !andb_true_iff in H; destruct_and? H; cbn [encoding_ app skipn].
  - destruct (b mod 8 =? 4); cbn [app skipn]; rewrite ?drop_0; [|apply disp_bytes_ok].
    constructor; [unfold is_byte; lia|apply disp_bytes_ok].
  - destruct (fields_8 (ScaleFactor_value s) (x mod 8) 5) as (_ & _ & _ & Hb);
      [by apply scale_range|by apply Z.mod_pos_bound|lia|].
    constructor; [exact Hb|apply le_bytes_ok].
  - destruct (fields_8 (ScaleFactor_value s) (x mod 8) (b mod 8)) as (_ & _ & _ & Hb);
      [by apply scale_range|by apply Z.mod_pos_bound..|].
    constructor; [exact Hb|apply disp_bytes_ok].
Qed.

Lemma modrm_byte_range a r rm : 0 <= modrm_byte a r rm < 256.
Proof. apply (wrap_range 8). lia. Qed.

(** ModR/M with a register field, then the rest of the operand. *)
Lemma emits_operand f r (g : AssemblerT Buf -> outcome (AssemblerT Buf)) :
  form_ok f = true ->
  g = (fun a => a ← EmitModRM (ModRM_Mod (modrm (form_operand f))) r (ModRM_RM (modrm (form_operand f))) a;
                EmitBuffer (drop 1 (encoding_ (form_operand f))) a) ->
  emits g (operand_bytes r (form_operand f)).
Proof.
  intros Hf ->. apply (emits_bind _ _ [_]); [apply emits_Emit1, modrm_byte_range|].
  by apply emits_EmitBuffer, operand_tail_ok.
Qed.

Lemma decode_rex b l : 0x40 <= b < 0x50 ->
  decode (b :: l) = ('(i, n) ← decode_opcode (rex_of b) l; Some (i, 1 + n)).
Proof. intros H. unfold decode, in_row. by replace ((0x40 <=? b) && (b <? 0x40 + 16)) with true by lia. Qed.

(** A REX byte, an opcode and a memory operand. *)
Lemma encodes_operand f op r rexb w rr rex i (g h : AssemblerT Buf -> outcome (AssemblerT Buf)) :
  form_ok f = true -> 0 <= r < 8 -> 0 <= op < 256 ->
  0x40 <= rexb < 0x50 -> rex_of rexb = rex_bits w rr rex -> no_stray_index rex f = true ->
  emits h (operand_bytes r (form_operand f)) ->
  (forall l n, decode_modrm (rex_of rexb) l = Some (r, form_under rex f, n) ->
               decode_opcode (rex_of rexb) (op :: l) = Some (i, 1 + n)) ->
  (forall a, g a = (a ← emit_rex rexb a; a ← EmitOpcode op a; h a)) ->
  encodes g i.
Proof.
  intros Hf Hr Hop Hrex Erex Hns Hh Hdec Hg. exists ([rexb] ++ [op] ++ operand_bytes r (form_operand f)).
  pose proof (operand_length f Hf) as Hl.
  assert (Hlen : length (operand_bytes r (form_operand f)) = length (encoding_ (form_operand f))).
  { unfold operand_bytes. simpl. rewrite length_drop. lia. }
  split; [|split].
  - intros a l Hrep Hlim. rewrite Hg. revert a l Hrep Hlim.
    apply (emits_bind _ (fun a => a ← EmitOpcode op a; h a)).
    + apply emits_rex_pos. lia.
    + apply emits_bind; [by apply emits_Emit1|done].
  - cbn [length app]. rewrite Hlen. lia.
  - intros rest. rewrite <- !app_assoc. cbn [app]. rewrite decode_rex by done.
    rewrite (Hdec _ (Z.of_nat (length (encoding_ (form_operand f))))).
    + cbn [mbind option_bind]. do 2 f_equal. cbn [length]. rewrite Hlen. lia.
    + rewrite Erex. by apply operand_decodes.
Qed.

Lemma call_mem_encodes f :
  form_ok f = true -> encodes (call_mem (form_operand f)) (CALL_rm (form_meaning f)).
Proof.
  intros Hf. pose proof (form_rex f Hf) as Hr.
  destruct (rex_operand (rex_ (form_operand f)) false false Hr) as [Hb Eb].
  eapply (encodes_operand f 0xff 2); try done; [by apply no_stray_index_own|by eapply emits_operand|].
  intros l n E. rewrite form_under_own in E by done. unfold decode_opcode, in_row. simpl. by rewrite E.
Qed.

Lemma emits_register_operand f r :
  form_ok f = true ->
  emits (Buf := Buf) (Emit_OpEn_Register_MemOperand (general_register r) (form_operand f))
        (operand_bytes (r mod 8) (form_operand f)).
Proof.
  intros Hf. eapply emits_operand; [done|]. unfold Emit_OpEn_Register_MemOperand, EmitModRM_Update_Register, low_bits.
  simpl. by replace (Z.land r 7) with (r mod 8) by (symmetry; by apply (Z.land_ones _ 3)).
Qed.

Lemma mov_mem_reg_encodes f r :
  form_ok f = true -> 0 <= r < 16 ->
  encodes (mov_mem_reg (form_operand f) (general_register r)) (MOV_store (form_meaning f) r).
Proof.
  intros Hf H. pose proof (form_rex f Hf) as Hr.
  destruct (rex_operand (rex_ (form_operand f)) true (7 <? r) Hr) as [Hb Eb].
  eapply (encodes_operand f 0x89 (r mod 8)); try done;
    [by apply Z.mod_pos_bound|by apply no_stray_index_own|by apply emits_register_operand|].
  - intros l n E. rewrite form_under_own in E by done. unfold decode_opcode, in_row. rewrite Eb in *. cbn -[decode_modrm ext]. rewrite E. cbn -[ext].
    by rewrite ext_mod.
Qed.

(** The load takes no REX bits from its operand: registers 8 to 15 become 0 to 7 in the address. *)
Lemma mov_reg_mem_encodes f r :
  form_ok f = true -> 0 <= r < 16 ->
  encodes (mov_reg_mem (general_register r) (form_operand f)) (MOV_load r (form_under 0 f)).
Proof.
  intros Hf H. destruct (rex_register true (7 <? r) eq_refl) as [Hb Eb].
  eapply (encodes_operand f 0x8b (r mod 8) _ true (7 <? r) 0); try done;
    [by apply Z.mod_pos_bound|by destruct f|by apply emits_register_operand|].
  intros l n E. unfold decode_opcode, in_row. rewrite Eb in *. cbn -[decode_modrm ext]. rewrite E. cbn -[ext].
  by rewrite ext_mod.
Qed.

(** A REX byte (present, since the general registers are 64 bits wide) and the rest. *)
Lemma encodes_plain rexb body i (h : AssemblerT Buf -> outcome (AssemblerT Buf)) :
  0x40 <= rexb < 0x50 -> (length body <= 14)%nat -> emits h body ->
  (forall rest, decode_opcode (rex_of rexb) (body ++ rest) = Some (i, Z.of_nat (length body))) ->
  encodes (fun a => a ← emit_rex rexb a; h a) i.
Proof.
  intros Hrex Hlen Hh Hdec. exists ([rexb] ++ body). split; [|split].
  - apply emits_bind; [|done].
    apply emits_rex_pos. lia.
  - cbn [length app]. lia.
  - intros rest. rewrite <- !app_assoc. cbn [app]. rewrite decode_rex, Hdec by done.
    cbn [mbind option_bind length]. do 2 f_equal. lia.
Qed.

Lemma low_bits_mod r : low_bits (general_register r) = r mod 8.
Proof. by apply (Z.land_ones _ 3). Qed.

(** [EmitOpcode_Register] on an opcode whose low three bits are clear. *)
Lemma opcode_register op r : op mod 8 = 0 -> 0 <= op < 256 ->
  emits (EmitOpcode_Register (Buf := Buf) op (general_register r)) [op + r mod 8] /\ 0 <= r mod 8 < 8.
Proof.
  intros H0 Hop. pose proof (Z.mod_pos_bound r 8 ltac:(lia)) as Hr. split; [|done].
  unfold EmitOpcode_Register. rewrite low_bits_mod, lor_disjoint_add.
  - apply emits_Emit1. pose proof (Z.div_mod op 8 ltac:(lia)). lia.
  - apply Z.bits_inj'. intros n Hn. rewrite Z.land_spec, Z.bits_0.
    destruct (Z.ltb_spec n 3) as [Hl|Hl].
    + rewrite <- (Z.mod_pow2_bits_low op 3 n) by lia. change (2 ^ 3) with 8. by rewrite H0, Z.bits_0.
    + by rewrite (testbit_high 3 (r mod 8)), andb_false_r by done.
Qed.

(** The opcodes that carry a register in their low three bits. *)
Lemma decode_rows rex q l : 0 <= q < 8 ->
  decode_opcode rex (0x50 + q :: l) = Some (PUSH (ext (rB rex) q), 1) /\
  decode_opcode rex (0x58 + q :: l) = Some (POP (ext (rB rex) q), 1) /\
  (rW rex = true -> decode_opcode rex (0xb8 + q :: l) = Some (MOV_imm (ext (rB rex) q) (imm_at 8 l), 9)).
Proof.
  intros H. destruct rex as [[] rR rX rB];
    each_index q 8%nat ltac:(split; [reflexivity|split; [reflexivity|intros E; first [discriminate E | reflexivity]]]).
Qed.

Definition pushpop_rex (r : Z) : Z := EmitOptionalRex false true (7 <? r) false (7 <? r).
Lemma pushpop_rex_ok r : 0x40 <= pushpop_rex r < 0x50 /\ rB (rex_of (pushpop_rex r)) = (7 <? r).
Proof. unfold pushpop_rex. destruct (7 <? r); vm_compute; repeat split; congruence. Qed.

Lemma push_pop_encodes r : 0 <= r < 16 ->
  encodes (push (general_register r)) (PUSH r) /\ encodes (pop (general_register r)) (POP r).
Proof.
  intros H. destruct (pushpop_rex_ok r) as [Hrex HB].
  destruct (opcode_register 0x50 r eq_refl) as [Hpush Hr]; [done|].
  destruct (opcode_register 0x58 r eq_refl) as [Hpop _]; [done|].
  split; eapply (encodes_plain (pushpop_rex r)); try exact Hrex; try eassumption; try (simpl; lia);
    intros rest; cbn [app]; destruct (decode_rows (rex_of (pushpop_rex r)) (r mod 8) rest Hr) as (E1 & E2 & _).
  - by rewrite E1, HB, ext_mod.
  - by rewrite E2, HB, ext_mod.
Qed.

(** [mov r, imm64] takes REX.R where the register needs REX.B. *)
Lemma mov_reg_imm_encodes r imm : 0 <= r < 16 ->
  encodes (mov_reg_imm (general_register r) (Immediate_sized imm 64)) (MOV_imm (r mod 8) (u64 imm)).
Proof.
  intros H. destruct (rex_register true (7 <? r) eq_refl) as [Hrex Eb]. set (rexb := EmitOptionalRex _ _ _ _ _) in *.
  destruct (opcode_register 0xb8 r eq_refl) as [Hop Hr]; [done|].
  eapply (encodes_plain rexb ([0xb8 + r mod 8] ++ le_bytes 8 imm)); [exact Hrex|rewrite length_app, length_le_bytes; simpl; lia| |].
  - apply emits_bind; [done|]. apply (emits_le 8).
  - intros rest. cbn [app]. destruct (decode_rows (rex_of rexb) (r mod 8) (le_bytes 8 imm ++ rest) Hr) as (_ & _ & E). rewrite E by by rewrite Eb.
    rewrite Eb. cbn [rB rex_bits ext]. unfold imm_at.
    by rewrite take_app_le, list.take_ge, le_val_bytes by (rewrite length_le_bytes; lia).
Qed.

(** [call r]: from r8 on, bit 3 of the register number runs into the opcode field of ModR/M. *)
Lemma call_reg_bytes r : 0 <= r < 16 ->
  emits (call_reg (Buf := Buf) (general_register r))
    [if 7 <? r then 0x4c else 0x48; 0xff; 0xc0 + 8 * (if 7 <? r then 3 else 2) + r mod 8].
Proof.
  intros H. destruct (rex_register true (7 <? r) eq_refl) as [Hrex _].
  apply (emits_bind _ (fun a => a ← EmitOpcode 0xff a; Emit_OpEn_RegOperand 2 (general_register r) a) [_] [_; _]).
  - replace (if 7 <? r then 0x4c else 0x48) with (EmitOptionalRex false true (7 <? r) false false)
      by by destruct (7 <? r).
    apply emits_rex_pos. lia.
  - apply (emits_bind _ _ [_] [_]); [by apply emits_Emit1|].
    replace (0xc0 + 8 * _ + r mod 8) with (modrm_byte 3 2 r); [apply emits_Emit1, modrm_byte_range|].
    each_index r 16%nat ltac:(reflexivity).
Qed.

(** ** Properties *)

(** C38: Memory operands survive assembly.  For every addressing form the [Address] constructors accept
    ([base + disp], [index * scale + disp], [base + index * scale + disp], any of the sixteen base registers, any
    index but rsp, any 32-bit displacement) and every register, [call [m]], [mov [m], r], [push r] and [pop r]
    append one instruction, and decoding it gives back the operation, the registers, the scale and the
    displacement that were asked for. *)
Theorem memory_operand_roundtrip f r :
  form_ok f = true -> 0 <= r < 16 ->
  encodes (call_mem (form_operand f)) (CALL_rm (form_meaning f)) /\
  encodes (mov_mem_reg (form_operand f) (general_register r)) (MOV_store (form_meaning f) r) /\
  encodes (push (general_register r)) (PUSH r) /\ encodes (pop (general_register r)) (POP r).
Proof.
  intros Hf Hr. split; [by apply call_mem_encodes|]. split; [by apply mov_mem_reg_encodes|by apply push_pop_encodes].
Qed.

(** Registers r8 to r15 are lost by the other forms.  [mov r, imm64] loads the register eight below, a load
    [mov d, [m]] addresses memory through the registers eight below (and drops an index of r12 altogether), and
    [call r] becomes a byte sequence that is no near call: these three emit REX.R for the operand that needs
    REX.B, or no REX bit at all. *)
Theorem extended_register_lost f r d imm :
  form_ok f = true -> 8 <= r < 16 -> 0 <= d < 16 ->
  encodes (mov_reg_imm (general_register r) (Immediate_sized imm 64)) (MOV_imm (r - 8) (u64 imm)) /\
  encodes (mov_reg_mem (general_register d) (form_operand f)) (MOV_load d (form_under 0 f)) /\
  (exists bs, emits (call_reg (Buf := Buf) (general_register r)) bs /\ forall rest, decode (bs ++ rest) = None).
Proof.
  intros Hf Hr Hd. split; [|split].
  - replace (r - 8) with (r mod 8); [apply mov_reg_imm_encodes; lia|].
    symmetry. apply Z.mod_unique with 1; lia.
  - by apply mov_reg_mem_encodes.
  - eexists. split; [apply call_reg_bytes; lia|]. intros rest.
    each_index r 16%nat ltac:(first [exfalso; lia | reflexivity]).
Qed.

End Instructions.

Example memory_operand_roundtrip_witness :
  form_ok (AtBoth 13 12 TIMES_4 (-0x1234)) = true /\
  encodes (Buf := MemBuffer) (call_mem (form_operand (AtBoth 13 12 TIMES_4 (-0x1234))))
    (CALL_rm (Mem (Some 13) (Some (12, 2)) (-0x1234))).
Proof.
  split; [reflexivity|].
  apply (memory_operand_roundtrip (AtBoth 13 12 TIMES_4 (-0x1234)) 9); [reflexivity|lia].
Defined.

Example extended_register_lost_witness :
  form_ok (AtBase 11 8) = true /\
  encodes (Buf := MemBuffer) (mov_reg_mem rax (form_operand (AtBase 11 8))) (MOV_load 0 (Mem (Some 3) None 8)).
Proof.
  split; [reflexivity|].
  apply (extended_register_lost (AtBase 11 8) 11 0 7); [reflexivity|lia|lia].
Defined.
