(* ===== verification/X64Relocation.v ===== *)
(** * Relocating x86 code

    x86/InstructionRelocationX86Shared.cc and x64/InstructionRelocationX64.cc: one
    instruction, a block of them at a fixed address, and the loop that looks for a
    block large enough.  The relocator reads the instructions from [code], the memory
    readable from its [buffer] argument on.  [relo_world] is the address space and the
    page allocator ([core] of HookRouting) with what the operating system answers to
    the coming allocations of executable blocks, and the near allocator of NearAllocator
    with the registered handler and what the process answers to each of the coming calls
    of [allocNearCodeBlock].  [assert] aborts. *)

From S2P Require Import Prelude UtilityMacro CodeMemBuffer X86Tables X86Decode CodePatch MemoryAllocator HookRouting.
From S2P Require Import X64Assembler.
From S2P Require Arm64Assembler NearAllocator.
Import Decoder.
#[local] Open Scope machine_scope.
#[local] Open Scope Z_scope.

Record relo_world := {
  rw_core : core;
  exec_answers : list os_answer;
  near : NearAllocator.NearMemoryAllocator;
  near_handler : option (Z -> Z -> Z -> Z);
  near_answers : list (list NearAllocator.near_answer);
}.

Definition with_core (w : relo_world) (c : core) : relo_world :=
  {| rw_core := c; exec_answers := exec_answers w; near := near w; near_handler := near_handler w;
     near_answers := near_answers w |}.

Definition no_answer : os_answer := {| os_page := None; os_permission := false; os_new := 0 |}.
Definition next_answer (w : relo_world) : os_answer * relo_world :=
  (hd no_answer (exec_answers w),
   {| rw_core := rw_core w; exec_answers := tail (exec_answers w); near := near w; near_handler := near_handler w;
      near_answers := near_answers w |}).

Section Relocation.

(** [OSMemory::PageSize()], and whether the build is for IA32; otherwise it is for x64. *)
Variable PageSize : Z.
Variable TARGET_ARCH_IA32 : bool.

Definition to_addr (z : Z) : Z := if TARGET_ARCH_IA32 then u32 z else u64 z.

(** ** One instruction *)

Definition codegen_x64_jmp_absolute_addr (target : Z) (buffer : MemBuffer) : outcome MemBuffer :=
  buffer ← CodeMemBuffer.Emit 1 buffer 0xFF;
  buffer ← CodeMemBuffer.Emit 1 buffer 0x25;
  buffer ← CodeMemBuffer.Emit 4 buffer 0x00;
  CodeMemBuffer.Emit 8 buffer target.

Definition emit_rel32_label (last_offset curr_relo_ip orig_dst_ip : Z) (buffer : MemBuffer) : outcome MemBuffer :=
  let curr_offset := size buffer in
  let relo_insn_len := u32 (curr_offset + 4 - last_offset) in
  let relo_ip := to_addr (curr_relo_ip + relo_insn_len) in
  let new_offset := i32 (orig_dst_ip - relo_ip) in
  CodeMemBuffer.Emit 4 buffer new_offset.

(** jcc rel8. *)
Definition relocate_jcc (insn : x86_insn_decode_t) (curr_orig_ip curr_relo_ip : Z) (b : MemBuffer) : outcome MemBuffer :=
  let offset := i8 (immediate insn) in
  let orig_dst_ip := to_addr (curr_orig_ip + offset) in
  if TARGET_ARCH_IA32 then
    let opcode := 0x80 .| (primary_opcode insn .& 0x0f) in
    let x86_insn_encode_start := size b in
    b ← CodeMemBuffer.Emit 1 b 0x0F;
    b ← CodeMemBuffer.Emit 1 b opcode;
    emit_rel32_label x86_insn_encode_start curr_relo_ip orig_dst_ip b
  else
    b ← CodeMemBuffer.Emit 1 b (primary_opcode insn);
    b ← CodeMemBuffer.Emit 1 b 2;
    b ← CodeMemBuffer.Emit 1 b 0xEB;
    b ← CodeMemBuffer.Emit 1 b (6 + 8);
    codegen_x64_jmp_absolute_addr orig_dst_ip b.

(** [gNearMemoryAllocator.allocNearCodeBlock], with the pages it maps. *)
Definition alloc_near_code (in_size pos range : Z) (w : relo_world) : outcome (MemRange * relo_world) :=
  let v := space (rw_core w) in
  '(blk, m) ← NearAllocator.allocNearCodeBlock PageSize (vm_mem v) (near_handler w) (hd [] (near_answers w)) (near w)
                in_size pos range;
  let v := NearAllocator.near_effect PageSize true (near w) m v in
  Ret (blk, {| rw_core := with_space (rw_core w) v; exec_answers := exec_answers w; near := m;
               near_handler := near_handler w; near_answers := tail (near_answers w) |}).

(** An instruction with a RIP-relative operand: it is rebuilt near its operand and reached by a jump.  The result of
    the patch is dropped, and the address of the near block is not checked. *)
Definition relocate_rip (insn : x86_insn_decode_t) (curr_orig_ip curr_relo_ip : Z) (cursor : list Z)
    (b : MemBuffer) (w : relo_world) : outcome (MemBuffer * relo_world) :=
  let orig_disp := i32 (disp (op_mem (op1_ insn))) in
  let orig_dst_ip := to_addr (curr_orig_ip + orig_disp) in
  let jmp_near_range := u32 (2 * 1024 * 1024 * 1024) in
  '(blk, w) ← alloc_near_code (u32 (d_length insn + 6 + 8)) orig_dst_ip jmp_near_range w;
  let rip_insn_seq_addr := addr blk in
  let x86_insn_encode_start := size b in
  b ← CodeMemBuffer.Emit 1 b 0xFF;
  b ← CodeMemBuffer.Emit 1 b 0x25;
  b ← CodeMemBuffer.Emit 4 b 0;
  b ← CodeMemBuffer.Emit 8 b rip_insn_seq_addr;
  let x86_insn_encoded_len := size b - x86_insn_encode_start in
  let rip_insn_req_ip := to_addr (rip_insn_seq_addr + d_length insn) in
  let new_disp := i32 (orig_dst_ip - rip_insn_req_ip) in
  seq ← CodeMemBuffer.EmitBuffer MemBuffer_new (take (Z.to_nat (displacement_offset insn)) cursor);
  seq ← CodeMemBuffer.Emit 4 seq new_disp;
  seq ← (if negb (immediate_offset insn =? 0) then
           CodeMemBuffer.EmitBuffer seq
             (take (Z.to_nat (d_length insn - immediate_offset insn)) (drop (Z.to_nat (immediate_offset insn)) cursor))
         else Ret seq);
  let relo_next_ip := to_addr (curr_relo_ip + x86_insn_encoded_len) in
  seq ← codegen_x64_jmp_absolute_addr relo_next_ip seq;
  bytes ← (dup seq ≫= defined_bytes);
  '(_, v) ← DobbyCodePatch PageSize rip_insn_seq_addr bytes (space (rw_core w));
  Ret (b, with_core w (with_space (rw_core w) v)).

(** jmp rel8. *)
Definition relocate_jmp8 (insn : x86_insn_decode_t) (curr_orig_ip curr_relo_ip : Z) (b : MemBuffer) : outcome MemBuffer :=
  let offset := i8 (immediate insn) in
  let orig_dst_ip := to_addr (curr_orig_ip + offset) in
  if TARGET_ARCH_IA32 then
    let x86_insn_encode_start := size b in
    b ← CodeMemBuffer.Emit 1 b 0xE9;
    emit_rel32_label x86_insn_encode_start curr_relo_ip orig_dst_ip b
  else codegen_x64_jmp_absolute_addr orig_dst_ip b.

(** call or jmp rel32. *)
Definition relocate_rel32 (insn : x86_insn_decode_t) (curr_orig_ip curr_relo_ip : Z) (cursor : list Z) (b : MemBuffer)
    : outcome MemBuffer :=
  let offset := i32 (immediate insn) in
  let orig_dst_ip := to_addr (curr_orig_ip + offset) in
  if negb (immediate_offset insn =? 1) then Fatal
  else if TARGET_ARCH_IA32 then
    let x86_insn_encode_start := size b in
    b ← CodeMemBuffer.EmitBuffer b (take (Z.to_nat (immediate_offset insn)) cursor);
    emit_rel32_label x86_insn_encode_start curr_relo_ip orig_dst_ip b
  else
    b ← CodeMemBuffer.Emit 1 b 0xFF;
    if primary_opcode insn =? 0xE8 then
      b ← CodeMemBuffer.Emit 1 b 0x15;
      b ← CodeMemBuffer.Emit 4 b 2;
      b ← CodeMemBuffer.Emit 1 b 0xEB;
      b ← CodeMemBuffer.Emit 1 b 0x08;
      CodeMemBuffer.Emit 8 b orig_dst_ip
    else
      b ← CodeMemBuffer.Emit 1 b 0x25;
      b ← CodeMemBuffer.Emit 4 b 0;
      CodeMemBuffer.Emit 8 b orig_dst_ip.

(** The decoded instruction, the code buffer and the world. *)
Definition GenRelocateSingleX86Insn (curr_orig_ip curr_relo_ip : Z) (cursor : list Z) (code_buffer : MemBuffer)
    (mode : Z) (w : relo_world) : outcome (x86_insn_decode_t * MemBuffer * relo_world) :=
  insn ← x86_insn_decode insn_zero cursor {| Decoder.mode := mode |};
  let curr_orig_ip := to_addr (curr_orig_ip + d_length insn) in
  let opcode := primary_opcode insn in
  '(b, w) ←
    (if (0x70 <=? opcode) && (opcode <=? 0x7F) then
       b ← relocate_jcc insn curr_orig_ip curr_relo_ip code_buffer; Ret (b, w)
     else if (mode =? 64) && negb (d_flags insn .& X86_INSN_DECODE_FLAG_IP_RELATIVE =? 0)
             && (base (op_mem (op1_ insn)) =? RIP) then
       relocate_rip insn curr_orig_ip curr_relo_ip cursor code_buffer w
     else if opcode =? 0xEB then
       b ← relocate_jmp8 insn curr_orig_ip curr_relo_ip code_buffer; Ret (b, w)
     else if (opcode =? 0xE8) || (opcode =? 0xE9) then
       b ← relocate_rel32 insn curr_orig_ip curr_relo_ip cursor code_buffer; Ret (b, w)
     else if (0xE0 <=? opcode) && (opcode <=? 0xE2) then Fatal
     else if opcode =? 0xE3 then Fatal
     else
       b ← CodeMemBuffer.EmitBuffer code_buffer (take (Z.to_nat (d_length insn)) cursor); Ret (b, w));
  Ret (insn, b, w).

(** ** A block at a fixed address (x64) *)

(** The loop over the instructions; the buffer of the assembler grows by each.  Every instruction has at least one
    byte, so the number of bytes bounds the number of iterations. *)
Fixpoint relocate_loop (fuel : nat) (relocated : MemRange) (code : list Z) (remaining curr_orig_ip curr_relo_ip : Z)
    (a : AssemblerT MemBuffer) (w : relo_world) : outcome (Z * Z * AssemblerT MemBuffer * relo_world) :=
  if 0 <? remaining then
    match fuel with
    | O => UB
    | S fuel =>
        '(insn, b, w) ← GenRelocateSingleX86Insn curr_orig_ip curr_relo_ip code (code_buffer_ a) 64 w;
        let a := with_buffer a b in
        relocate_loop fuel relocated (drop (Z.to_nat (d_length insn)) code) (remaining - d_length insn)
          (u64 (curr_orig_ip + d_length insn)) (u64 (addr relocated + pc_offset a)) a w
    end
  else Ret (curr_orig_ip, curr_relo_ip, a, w).

(** The [AssemblerBase] part of the x64 assembler. *)
Definition as_base (a : AssemblerT MemBuffer) : Arm64Assembler.AssemblerT MemBuffer :=
  {| Arm64Assembler.fixed_addr := fixed_addr a; Arm64Assembler.code_buffer_ := code_buffer_ a;
     Arm64Assembler.data_labels := [] |}.

(** The return value, the two blocks and the world. *)
Definition GenRelocateCodeFixed (code : list Z) (origin relocated : MemRange) (branch : bool) (w : relo_world)
    : outcome (Z * MemRange * MemRange * relo_world) :=
  let turbo_assembler_ := set_fixed_addr (addr relocated) (AssemblerBase 0) in
  '(curr_orig_ip, curr_relo_ip, a, w) ←
    relocate_loop (Z.to_nat (rsize origin)) relocated code (i32 (rsize origin)) (addr origin) (addr relocated)
      turbo_assembler_ w;
  a ← (if branch then
         let stub_addr := u64 (curr_relo_ip + 6) in
         a ← JmpNearIndirect stub_addr a;
         X64Assembler.EmitBuffer (le_bytes 8 curr_orig_ip) a
       else Ret a);
  let new_origin_len := u64 (curr_orig_ip - addr origin) in
  let origin := reset origin (addr origin) new_origin_len in
  let relo_len := i32 (size (code_buffer_ a)) in
  if rsize relocated <? u64 relo_len then Ret (-1, origin, relocated, w)
  else
    let '(os, w) := if addr relocated =? 0 then next_answer w else (no_answer, w) in
    '(relocated, c) ← FinalizeFromTurboAssembler PageSize os (as_base a) (rw_core w);
    Ret (0, origin, relocated, with_core w c).

(** ** The search for a block that is large enough *)

(** The [goto x86_try_again] loop: [fuel] bounds the number of attempts.  An allocation that fails leaves [relocated]
    without an address, and the function returns. *)
Fixpoint try_again (fuel : nat) (expected_relocated_mem_size : Z) (code : list Z) (origin relocated : MemRange)
    (branch : bool) (w : relo_world) : outcome (MemRange * MemRange * relo_world) :=
  match fuel with
  | O => UB
  | S fuel =>
      '(relocated, w) ←
        (if addr relocated =? 0 then
           let '(os, w) := next_answer w in
           '(blk, c) ← allocExecBlock PageSize os expected_relocated_mem_size (rw_core w);
           Ret (if addr blk =? 0 then relocated else reset relocated (addr blk) expected_relocated_mem_size,
                with_core w c)
         else Ret (relocated, w));
      if addr relocated =? 0 then Ret (origin, relocated, w)
      else
        '(ret, origin, relocated, w) ← GenRelocateCodeFixed code origin relocated branch w;
        if ret =? 0 then Ret (origin, relocated, w)
        else
          c ← (if negb (addr relocated =? 0) && negb (rsize relocated =? 0)
               then freeExecBlock PageSize relocated (rw_core w) else Ret (rw_core w));
          try_again fuel (expected_relocated_mem_size + 16) code origin (reset relocated 0 0) branch (with_core w c)
  end.

Definition GenRelocateCodeX86Shared (fuel : nat) (code : list Z) (origin relocated : MemRange) (branch : bool)
    (w : relo_world) : outcome (MemRange * MemRange * relo_world) :=
  try_again fuel 32 code origin relocated branch w.

End Relocation.
