(* ===== verification/X64Simulation.v ===== *)
(** * Relocated x64 code does what the original did

    What GenRelocateSingleX86Insn emits for each instruction ([relo_insn]), what a
    block becomes ([relo_items]), and the comparison of both on the reference
    semantics of X64Machine. *)

From S2P Require Import Prelude UtilityMacro CodeMemBuffer X86Tables X86Decode X86DecodeFacts CodePatch.
From S2P Require Import MemoryAllocator MemoryAllocatorSpec HookRouting HookBlocks.
From S2P Require Import X64Machine X64Assembler X64Encoding X64Relocation.
From S2P Require Arm64Assembler.
Import Decoder.
#[local] Open Scope machine_scope.
#[local] Open Scope Z_scope.

(** ** Decoding the one-byte branches *)

Definition conf64 : x86_options_t := {| Decoder.mode := 64 |}.

Definition branch_opcodes : list Z := Zrange 0x70 16 ++ [0xeb; 0xe8; 0xe9].
Definition branch_imm (b : Z) : nat := if (b =? 0xe8) || (b =? 0xe9) then 4%nat else 1%nat.

Lemma branch_row b b1 b2 :
  b ∈ branch_opcodes ->
  legacy_prefix b = 0 /\ ~ (0x40 <= b <= 0x4f) /\
  exists s, lookup_opcode b b1 b2 = Ret (1, b, s) /\ x86_insn_has_modrm_byte s = false /\
    x86_insn_has_immediate s = true /\
    forall insn, d_prefix insn = 0 -> d_flags insn = 0 -> insn_spec insn = s ->
      x86_insn_imm_bits s (operand_bits insn conf64) = Ret (8 * Z.of_nat (branch_imm b)).
Proof.
  intros H. unfold branch_opcodes in H. cbn -[Z.add] in H. rewrite !elem_of_cons, elem_of_nil in H.
  repeat (destruct H as [->|H]; [split; [reflexivity|]; split; [lia|]; eexists; split; [vm_compute; reflexivity|];
    split; [reflexivity|]; split; [reflexivity|]; intros insn Hp Hf Hs; unfold operand_bits; rewrite Hp, Hf, Hs;
    reflexivity|]). done.
Qed.

Lemma decode_number_value rd k :
  reader_ok rd -> k = 1%nat \/ k = 4%nat -> Reader.buffer_cursor rd + Z.of_nat k <= 20 ->
  x86_insn_decode_number rd (8 * Z.of_nat k) =
    Ret (le_val (take k (drop (Z.to_nat (Reader.buffer_cursor rd)) (Reader.mem rd))), advance rd (Z.of_nat k)).
Proof.
  intros Hok Hk Hc. pose proof (ro_cursor rd Hok).
  destruct Hk as [-> | ->]; unfold x86_insn_decode_number, Reader.read_byte, Reader.read_dword, Reader.read_le;
    simpl Z.eqb; cbn iota; by rewrite load_ok by (done || lia).
Qed.

(** An instruction without prefix and ModR/M byte: opcode and immediate. *)
Lemma decode_imm_only code k o s imm :
  bytes_ok code -> (15 <= length code)%nat -> legacy_prefix (nth 0 code 0) = 0 -> ~ (0x40 <= nth 0 code 0 <= 0x4f) ->
  lookup_opcode (nth 0 code 0) (nth 1 code 0) (nth 2 code 0) = Ret (k, o, s) -> 1 <= k <= 2 ->
  x86_insn_has_modrm_byte s = false -> x86_insn_has_immediate s = true -> imm = 1%nat \/ imm = 4%nat ->
  (forall insn, d_prefix insn = 0 -> d_flags insn = 0 -> insn_spec insn = s ->
     x86_insn_imm_bits s (operand_bits insn conf64) = Ret (8 * Z.of_nat imm)) ->
  exists insn, x86_insn_decode insn_zero code conf64 = Ret insn /\
    primary_opcode insn = o /\ d_flags insn = 0 /\ immediate_offset insn = k /\
    d_length insn = k + Z.of_nat imm /\ immediate insn = imm_at imm (drop (Z.to_nat k) code).
Proof.
  intros Hbytes Hl Hleg Hrex Hlook Hk Hmod Himm Hi Hbits. unfold x86_insn_decode.
  destruct (init_reader_ok code Hbytes Hl) as (rd & -> & Hok & Hc & Hm). cbn [mbind outcome_bind].
  assert (Hby : forall i, (i < 15)%nat -> nth i (Reader.mem rd) 0 = nth i code 0).
  { intros i Hlt. rewrite Hm, app_nth1 by (rewrite length_take; lia).
    rewrite <- (take_drop 15 code) at 2. by rewrite app_nth1 by (rewrite length_take; lia). }
  pose proof (decode_prefix_ok conf64 insn_zero rd code Hc Hm) as Hpre.
  assert (Es : scan_prefix conf64 (Reader.mem rd) = (0, 0, 0)).
  { specialize (Hby 0%nat ltac:(lia)). destruct (Reader.mem rd) as [|b l] eqn:E.
    { pose proof (ro_length rd Hok) as H. by rewrite E in H. }
    cbn [nth] in Hby. subst b. cbn [scan_prefix]. rewrite Hleg.
    by replace ((mode conf64 =? 64) && _ && _) with false by (simpl; lia). }
  rewrite Es in Hpre. destruct Hpre as [_ ->]. cbn [mbind outcome_bind]. rewrite advance_0.
  rewrite decode_opcode_eq by (done || lia). rewrite Hc, !Z.add_0_l. unfold byte_at.
  change (Z.to_nat 0) with 0%nat. change (Z.to_nat 1) with 1%nat. change (Z.to_nat 2) with 2%nat.
  rewrite !Hby by lia. rewrite Hlook. cbn [mbind outcome_bind].
  set (insn := with_insn_spec s _). change (insn_spec insn) with s.
  rewrite Hmod. cbn [mbind outcome_bind]. change (insn_spec insn) with s. rewrite Himm.
  unfold x86_insn_decode_immediate. change (insn_spec insn) with s. rewrite (Hbits insn) by done. cbn [mbind outcome_bind].
  replace (8 * Z.of_nat imm =? 0) with false by (destruct Hi as [-> | ->]; done).
  assert (Hok1 : reader_ok (advance rd k)) by (apply advance_ok; done || lia).
  rewrite reader_offset_ok, advance_cursor, Hc, Z.add_0_l by done. cbn [mbind outcome_bind].
  rewrite decode_number_value by (done || rewrite ?advance_cursor; lia).
  cbn [mbind outcome_bind]. rewrite reader_offset_ok by (apply advance_ok; rewrite ?advance_cursor; done || lia).
  cbn [mbind outcome_bind]. eexists. split; [reflexivity|]. split; [done|]. split; [done|]. split; [|split].
  - cbn [immediate_offset with_length with_immediate with_immediate_offset]. apply wrap_small. lia.
  - cbn [d_length with_length]. rewrite !advance_cursor. lia.
  - cbn [immediate with_length with_immediate]. rewrite advance_cursor, Hc, Z.add_0_l, advance_mem, Hm. unfold imm_at.
    rewrite drop_app_le by (rewrite length_take; lia). rewrite take_app_le by (rewrite length_drop, length_take; lia).
    f_equal. rewrite <- (take_drop 15 code) at 2. rewrite drop_app_le by (rewrite length_take; lia).
    by rewrite take_app_le by (rewrite length_drop, length_take; lia).
Qed.

Lemma branch_imm_cases b : branch_imm b = 1%nat \/ branch_imm b = 4%nat.
Proof. unfold branch_imm. destruct (_ || _); auto. Qed.

Lemma decode_branch b t :
  b ∈ branch_opcodes -> bytes_ok (b :: t) -> (14 <= length t)%nat ->
  exists insn, x86_insn_decode insn_zero (b :: t) conf64 = Ret insn /\
    primary_opcode insn = b /\ d_flags insn = 0 /\ immediate_offset insn = 1 /\
    d_length insn = 1 + Z.of_nat (branch_imm b) /\ immediate insn = imm_at (branch_imm b) t.
Proof.
  intros Hb Hbytes Ht.
  destruct (branch_row b (nth 0 t 0) (nth 1 t 0) Hb) as (Hleg & Hrex & s & Hlook & Hmod & Himm & Hbits).
  destruct (decode_imm_only (b :: t) 1 b s (branch_imm b)) as (insn & E); try done; [simpl; lia|apply branch_imm_cases|].
  by exists insn.
Qed.

(** ** What one instruction becomes *)

Definition jmp_absolute (dst : Z) : list Z := [0xff; 0x25; 0; 0; 0; 0] ++ le_bytes 8 dst.

(** Length and relocated bytes of the instruction at address [A]; [None] for what is not handled here: RIP-relative
    operands, LOOP and JCXZ, and code the decoder does not accept. *)
Definition relo_insn (A : Z) (code : list Z) : option (Z * list Z) :=
  match x86_insn_decode insn_zero code conf64 with
  | Ret insn =>
      let op := primary_opcode insn in
      let next := u64 (A + d_length insn) in
      let dst8 := u64 (next + i8 (immediate insn)) in
      let dst32 := u64 (next + i32 (immediate insn)) in
      if (0x70 <=? op) && (op <=? 0x7F) then Some (d_length insn, [op; 2; 0xEB; 14] ++ jmp_absolute dst8)
      else if negb (d_flags insn .& X86_INSN_DECODE_FLAG_IP_RELATIVE =? 0) && (base (op_mem (op1_ insn)) =? RIP) then None
      else if op =? 0xEB then Some (d_length insn, jmp_absolute dst8)
      else if (op =? 0xE8) || (op =? 0xE9) then
        if negb (immediate_offset insn =? 1) then None
        else if op =? 0xE8 then Some (d_length insn, [0xff; 0x15; 2; 0; 0; 0; 0xeb; 8] ++ le_bytes 8 dst32)
        else Some (d_length insn, jmp_absolute dst32)
      else if (0xE0 <=? op) && (op <=? 0xE3) then None
      else Some (d_length insn, take (Z.to_nat (d_length insn)) code)
  | _ => None
  end.

(** [f] appends exactly [bs]. *)
Definition appends (f : MemBuffer -> outcome MemBuffer) (bs : list Z) : Prop :=
  forall b l, membuffer_rep b l -> Z.of_nat (length l) + Z.of_nat (length bs) <= cb_limit ->
  exists b', f b = Ret b' /\ membuffer_rep b' (l ++ bs).

Lemma appends_buffer bs : bytes_ok bs -> appends (fun b => CodeMemBuffer.EmitBuffer b bs) bs.
Proof. intros Hb b l H Hl. exact (cb_emit_rep (B := MemBuffer) b l bs H Hb Hl). Qed.

Lemma appends_emit n v : appends (fun b => CodeMemBuffer.Emit n b v) (le_bytes n v).
Proof. apply appends_buffer, le_bytes_ok. Qed.

Lemma x64_appends_bind f g bs bs' : appends f bs -> appends g bs' -> appends (fun b => b ← f b; g b) (bs ++ bs').
Proof.
  intros Hf Hg b l H Hl. rewrite length_app in Hl.
  destruct (Hf b l H) as (b1 & -> & H1); [lia|]. cbn [mbind outcome_bind].
  destruct (Hg b1 _ H1) as (b2 & -> & H2); [rewrite length_app; lia|]. exists b2. by rewrite app_assoc.
Qed.

Lemma appends_eq f bs bs' : appends f bs -> bs = bs' -> appends f bs'.
Proof. by intros ? <-. Qed.

(** A chain of emissions, whose bytes are left as an equation. *)
Ltac append_chain :=
  eapply appends_eq;
  [repeat (eapply x64_appends_bind; [apply appends_emit|]); first [apply appends_emit|eassumption]|].

Lemma appends_jmp_absolute dst : appends (codegen_x64_jmp_absolute_addr dst) (jmp_absolute dst).
Proof. unfold codegen_x64_jmp_absolute_addr. append_chain. reflexivity. Qed.

(** The x64 build of the relocator on an instruction that [relo_insn] covers: nothing but the buffer changes. *)
Lemma relocate_single_ok PageSize A B code n bs b l w :
  relo_insn A code = Some (n, bs) -> bytes_ok code -> membuffer_rep b l ->
  Z.of_nat (length l) + Z.of_nat (length bs) <= cb_limit ->
  exists insn b', GenRelocateSingleX86Insn PageSize false A B code b 64 w = Ret (insn, b', w) /\
    d_length insn = n /\ membuffer_rep b' (l ++ bs).
Proof.
  intros E Hc Hrep Hlim. unfold relo_insn in E. unfold GenRelocateSingleX86Insn.
  change {| Decoder.mode := 64 |} with conf64.
  destruct (x86_insn_decode insn_zero code conf64) as [insn| |] eqn:Ed; [|done|done]. cbn [mbind outcome_bind].
  set (op := primary_opcode insn) in *. unfold to_addr.
  assert (Hfin : forall f, appends f bs -> exists b', f b = Ret b' /\ membuffer_rep b' (l ++ bs))
    by (intros f Hf; by apply Hf).
  destruct ((0x70 <=? op) && (op <=? 0x7F)) eqn:E1.
  { injection E as <- <-. destruct (Hfin (relocate_jcc false insn (u64 (A + d_length insn)) B)) as (b' & -> & Hr').
    - unfold relocate_jcc. pose proof (appends_jmp_absolute (u64 (u64 (A + d_length insn) + i8 (immediate insn)))).
      append_chain. cbn -[jmp_absolute]. by rewrite Z.mod_small by lia.
    - by exists insn, b'. }
  cbn [Z.eqb Pos.eqb andb]. destruct (negb _ && (base _ =? RIP)) eqn:E2; [done|].
  destruct (op =? 0xEB) eqn:E3.
  { injection E as <- <-. destruct (Hfin (relocate_jmp8 false insn (u64 (A + d_length insn)) B)) as (b' & -> & Hr').
    - apply appends_jmp_absolute.
    - by exists insn, b'. }
  destruct ((op =? 0xE8) || (op =? 0xE9)) eqn:E4.
  { destruct (immediate_offset insn =? 1) eqn:Eo; cbn [negb] in E; [|done].
    destruct (Hfin (relocate_rel32 false insn (u64 (A + d_length insn)) B code)) as (b' & -> & Hr').
    - unfold relocate_rel32. rewrite Eo. cbn [negb]. change (primary_opcode insn) with op.
      destruct (op =? 0xE8); injection E as <- <-; append_chain; reflexivity.
    - exists insn, b'. split; [done|]. split; [|done]. by destruct (op =? 0xE8); injection E as <- <-. }
  destruct ((0xE0 <=? op) && (op <=? 0xE3)) eqn:E5; [done|].
  replace ((0xE0 <=? op) && (op <=? 0xE2)) with false by lia. replace (op =? 0xE3) with false by lia.
  injection E as <- <-.
  destruct (Hfin (fun b => CodeMemBuffer.EmitBuffer b (take (Z.to_nat (d_length insn)) code))) as (b' & -> & Hr').
  - apply appends_buffer. by apply Forall_take.
  - by exists insn, b'.
Qed.

(** ** What a block becomes *)

(** The instructions of the first [n] bytes of [code], at address [A]. *)
Fixpoint relo_items (fuel : nat) (A : Z) (code : list Z) (n : Z) : option (list (Z * list Z)) :=
  if 0 <? n then
    match fuel with
    | O => None
    | S fuel =>
        '(len, bs) ← relo_insn A code;
        its ← relo_items fuel (u64 (A + len)) (drop (Z.to_nat len) code) (n - len);
        Some ((len, bs) :: its)
    end
  else Some [].

Definition old_length (its : list (Z * list Z)) : Z := foldr (fun it n => fst it + n) 0 its.
Definition new_bytes (its : list (Z * list Z)) : list Z := concat (map snd its).

Lemma buffer_offset (a : AssemblerT MemBuffer) l : membuffer_rep (code_buffer_ a) l -> pc_offset a = Z.of_nat (length l).
Proof. apply mb_size. Qed.

Lemma with_buffer_offset (a : AssemblerT MemBuffer) b l : membuffer_rep b l -> pc_offset (with_buffer a b) = Z.of_nat (length l).
Proof. apply mb_size. Qed.

Lemma relocate_loop_ok PageSize relocated fuel : forall A code n its a l w R,
  relo_items fuel A code n = Some its -> bytes_ok code -> 0 <= A < 2 ^ 64 ->
  membuffer_rep (code_buffer_ a) l -> R = u64 (addr relocated + Z.of_nat (length l)) ->
  Z.of_nat (length l) + Z.of_nat (length (new_bytes its)) <= cb_limit ->
  exists b', membuffer_rep b' (l ++ new_bytes its) /\
    relocate_loop PageSize false fuel relocated code n A R a w =
      Ret (u64 (A + old_length its), u64 (addr relocated + Z.of_nat (length (l ++ new_bytes its))), with_buffer a b', w).
Proof.
  induction fuel as [|fuel IH]; intros A code n its a l w R E Hc HA Hrep HR Hlim; cbn [relo_items relocate_loop] in *;
    destruct (0 <? n) eqn:En; try done.
  1, 3: injection E as <-; exists (code_buffer_ a); cbn [new_bytes map concat]; rewrite app_nil_r; split; [done|];
    rewrite HR; cbn [old_length foldr]; rewrite Z.add_0_r, (wrap_small 64 A) by done; by destruct a.
  destruct (relo_insn A code) as [[len bs]|] eqn:Ei; [|done]. cbn [mbind option_bind] in E.
  destruct (relo_items fuel _ _ _) as [its'|] eqn:Er; [|done]. injection E as <-.
  cbn [new_bytes map concat snd] in *. fold (new_bytes its') in *. rewrite length_app in Hlim.
  destruct (relocate_single_ok PageSize A R code len bs (code_buffer_ a) l w Ei Hc Hrep) as (insn & b1 & -> & Hlen & Hrep1);
    [lia|]. cbn [mbind outcome_bind]. rewrite Hlen.
  destruct (IH (u64 (A + len)) (drop (Z.to_nat len) code) (n - len) its' (with_buffer a b1) (l ++ bs) w
              (u64 (addr relocated + pc_offset (with_buffer a b1)))) as (b2 & Hrep2 & ->); try done.
  - by apply Forall_drop.
  - by apply wrap_range.
  - by rewrite (with_buffer_offset a b1 _ Hrep1).
  - rewrite length_app. lia.
  - exists b2. rewrite <- app_assoc in Hrep2. split; [done|]. rewrite app_assoc.
    rewrite wrap_add_l. cbn [old_length foldr fst]. by rewrite Z.add_assoc.
Qed.

(** The code the block becomes, with the jump to the instruction behind the originals. *)
Definition relo_code (A : Z) (its : list (Z * list Z)) (branch : bool) : list Z :=
  new_bytes its ++ (if branch then jmp_absolute (u64 (A + old_length its)) else []).

Lemma jmp_back_ok (a : AssemblerT MemBuffer) l R dst :
  membuffer_rep (code_buffer_ a) l -> R = u64 (fixed_addr a + Z.of_nat (length l)) ->
  Z.of_nat (length l) + 14 <= cb_limit ->
  exists b', membuffer_rep b' (l ++ jmp_absolute dst) /\
    (a ← JmpNearIndirect (u64 (R + 6)) a; X64Assembler.EmitBuffer (le_bytes 8 dst) a) = Ret (with_buffer a b').
Proof.
  intros Hrep HR Hlim. unfold JmpNearIndirect.
  assert (Ho : i32 (u64 (R + 6) - u64 (CurrentIP a + 6)) = 0).
  { unfold CurrentIP. rewrite (buffer_offset a _ Hrep), HR, Z.add_comm.
    rewrite (Z.add_comm (Z.of_nat _) (fixed_addr a)), (Z.add_comm (u64 _) 6). by rewrite Z.sub_diag. }
  rewrite Ho.
  pose proof (emits_bind (Buf := MemBuffer) _ _ _ _ (emits_le 1 0xff)
    (emits_bind _ _ _ _ (emits_le 1 0x25) (emits_bind _ _ _ _ (emits_le 4 0) (emits_le 8 dst)))) as He.
  destruct (He a l Hrep) as (b' & E & Hrep'); [simpl; lia|].
  exists b'. split; [exact Hrep'|]. rewrite <- E.
  unfold mbind, outcome_bind. repeat (case_match; simplify_eq; try done).
Qed.

(** The block at a fixed address: too small, or patched with the relocated code. *)
Lemma relocate_fixed_ok PageSize code origin relocated branch w its :
  relo_items (Z.to_nat (rsize origin)) (addr origin) code (rsize origin) = Some its -> bytes_ok code ->
  0 <= rsize origin < 2 ^ 31 -> 0 <= addr origin < 2 ^ 64 -> 0 < addr relocated < 2 ^ 64 ->
  let bytes := relo_code (addr origin) its branch in
  let origin' := {| start_ := addr origin; rsize := u64 (old_length its) |} in
  Z.of_nat (length bytes) < 2 ^ 31 ->
  GenRelocateCodeFixed PageSize false code origin relocated branch w =
  if rsize relocated <? Z.of_nat (length bytes) then Ret (-1, origin', relocated, w)
  else
    '(_, v) ← DobbyCodePatch PageSize (addr relocated) bytes (space (rw_core w));
    Ret (0, origin', {| start_ := addr relocated; rsize := Z.of_nat (length bytes) |},
         with_core w (with_space (rw_core w) v)).
Proof.
  intros Hits Hc Hsz HA HB bytes origin' Hlim. unfold GenRelocateCodeFixed.
  rewrite (sext_small 32 (rsize origin)) by lia. set (a0 := set_fixed_addr _ _).
  assert (Hnew : Z.of_nat (length (new_bytes its)) <= Z.of_nat (length bytes)) by (unfold bytes, relo_code; rewrite length_app; lia).
  destruct (relocate_loop_ok PageSize relocated (Z.to_nat (rsize origin)) (addr origin) code (rsize origin) its a0 [] w
              (addr relocated)) as (b & Hrep & ->); try done.
  { exact new_ok. } { simpl length. rewrite Z.add_0_r, wrap_small; [done|lia]. } { simpl length. unfold cb_limit. lia. }
  cbn [mbind outcome_bind app] in *. set (a1 := with_buffer a0 b).
  assert (Hb : exists b', membuffer_rep b' bytes /\
    (if branch then
       a ← JmpNearIndirect (u64 (u64 (addr relocated + Z.of_nat (length (new_bytes its))) + 6)) a1;
       X64Assembler.EmitBuffer (le_bytes 8 (u64 (addr origin + old_length its))) a
     else Ret a1) = Ret (with_buffer a1 b')).
  { unfold bytes, relo_code in *. destruct branch.
    - apply jmp_back_ok; [done|done|]. rewrite length_app in Hlim. unfold cb_limit. simpl length in Hlim. lia.
    - exists b. by rewrite app_nil_r. }
  destruct Hb as (b' & Hrep' & ->). cbn [mbind outcome_bind]. unfold a1. cbn [code_buffer_ with_buffer].
  assert (Hsize : size b' = Z.of_nat (length bytes)) by apply (mb_size _ _ Hrep').
  rewrite Hsize, sext_small, (wrap_small 64 (Z.of_nat _)) by lia. unfold reset.
  rewrite wrap_sub_l, Z.add_simpl_l. fold origin'.
  destruct (rsize relocated <? Z.of_nat (length bytes)); [done|].
  replace (addr relocated =? 0) with false by lia. cbv zeta.
  unfold FinalizeFromTurboAssembler, as_base. cbn [Arm64Assembler.code_buffer_ Arm64Assembler.fixed_addr code_buffer_ fixed_addr with_buffer].
  rewrite (dup_ok _ _ Hrep'), Hsize. cbn [mbind outcome_bind]. rewrite defined_bytes_ok. cbn [mbind outcome_bind].
  unfold a0. cbn [fixed_addr set_fixed_addr]. replace (addr relocated =? 0) with false by lia. cbn [mbind outcome_bind].
  replace (addr relocated =? 0) with false by lia. by destruct (DobbyCodePatch _ _ _ _) as [[? v]| |].
Qed.

(** ** Running the relocated instruction *)

Lemma step_loaded s l i n :
  loaded (mem s) (rip s) l -> (length l <= 15)%nat -> (forall rest, decode (l ++ rest) = Some (i, n)) ->
  step s = Some (exec i n s).
Proof.
  intros Hl Hn Hd. unfold step. destruct (bytes_from_loaded _ _ _ 15 Hl Hn) as [rest ->]. by rewrite Hd.
Qed.

Lemma at_rip_at_rip a b s : at_rip a (at_rip b s) = at_rip a s.
Proof. done. Qed.

(** [jmp *(rip)] over its literal. *)
Lemma run_jmp_absolute s P dst :
  loaded (mem s) P (jmp_absolute dst) -> step (at_rip P s) = Some (at_rip (u64 dst) s).
Proof.
  unfold jmp_absolute. intros Hl. pose proof Hl as [Hlo Hhi _]. simpl length in Hhi.
  apply loaded_app in Hl as [Hi Hd]. simpl length in Hd.
  rewrite (step_loaded (at_rip P s) _ (JMP_rm (RipRel 0)) 6 Hi) by (simpl; done || lia).
  cbn [exec read_op address rip mem at_rip]. rewrite Z.add_0_r, wrap_wrap, (wrap_small 64 (P + 6)) by lia.
  pose proof (x64_load_loaded _ _ _ Hd) as E. rewrite length_le_bytes, le_val_bytes in E. change (Z.of_nat 6) with 6 in E.
  change (dst mod _) with (u64 dst) in E. rewrite E. unfold jump, at_rip. by rewrite wrap_wrap.
Qed.

Lemma decode_jcc8 b off rest : 0x70 <= b <= 0x7f -> decode (b :: off :: rest) = Some (JCC (b - 0x70) (simm 1 [off]), 2).
Proof.
  intros H. unfold decode, in_row. replace ((0x40 <=? b) && _) with false by lia. cbn [decode_opcode].
  unfold in_row. by replace ((0x70 <=? b) && _) with true by lia.
Qed.

(** The branch with opcode [b] and what follows it, as an instruction. *)
Definition branch_of (b : Z) (t : list Z) : insn :=
  if b =? 0xeb then JMP_rel (simm 1 t) else if b =? 0xe9 then JMP_rel (simm 4 t)
  else if b =? 0xe8 then CALL_rel (simm 4 t) else JCC (b - 0x70) (simm 1 t).
Definition branch_length (b : Z) : Z := 1 + Z.of_nat (branch_imm b).

Lemma branch_opcodes_cases b : b ∈ branch_opcodes -> 0x70 <= b <= 0x7f \/ b = 0xeb \/ b = 0xe8 \/ b = 0xe9.
Proof. unfold branch_opcodes. cbn -[Z.add]. rewrite !elem_of_cons, elem_of_nil. lia. Qed.

Lemma decode_branch_of b t : b ∈ branch_opcodes -> decode (b :: t) = Some (branch_of b t, branch_length b).
Proof.
  intros [H|[->|[->| ->]]]%branch_opcodes_cases; try done.
  unfold decode, in_row. replace ((0x40 <=? b) && _) with false by lia. cbn [decode_opcode].
  unfold in_row, branch_of, branch_length, branch_imm. replace ((0x70 <=? b) && _) with true by lia.
  replace (b =? 0xeb) with false by lia. replace (b =? 0xe9) with false by lia. by replace (b =? 0xe8) with false by lia.
Qed.

Lemma sext_is_signed n v : 0 < n -> 0 <= v < 2 ^ n -> sext n v = signed n v.
Proof. intros Hn H. unfold sext, signed. by rewrite (Z.mod_small v) by done. Qed.

Lemma imm_at_range n t : bytes_ok t -> (n <= length t)%nat -> 0 <= imm_at n t < 2 ^ (8 * Z.of_nat n).
Proof.
  intros Ht Hn. unfold imm_at. pose proof (le_val_range (take n t) ltac:(by apply Forall_take)) as H.
  rewrite length_take in H. by replace (n `min` length t)%nat with n in H by lia.
Qed.

(** The target of the branch, and the bytes the relocator makes of it. *)
Definition branch_target (A b : Z) (t : list Z) : Z := u64 (u64 (A + branch_length b) + simm (branch_imm b) t).
Definition branch_bytes (A b : Z) (t : list Z) : list Z :=
  let dst := branch_target A b t in
  if b =? 0xe8 then [0xff; 0x15; 2; 0; 0; 0; 0xeb; 8] ++ le_bytes 8 dst
  else if (b =? 0xe9) || (b =? 0xeb) then jmp_absolute dst
  else [b; 2; 0xEB; 14] ++ jmp_absolute dst.

Lemma relo_branch A b t :
  b ∈ branch_opcodes -> bytes_ok (b :: t) -> (14 <= length t)%nat ->
  relo_insn A (b :: t) = Some (branch_length b, branch_bytes A b t).
Proof.
  intros Hb Hbytes Ht. unfold relo_insn.
  destruct (decode_branch b t Hb Hbytes Ht) as (insn & -> & Eop & Ef & Eo & El & Ei).
  rewrite Eop, Ef, Eo, El, Ei. fold (branch_length b).
  assert (Himm : (branch_imm b <= length t)%nat) by (unfold branch_imm; destruct (_ || _); lia).
  pose proof (imm_at_range (branch_imm b) t (Forall_inv_tail Hbytes) Himm) as Hr.
  unfold branch_bytes, branch_target, simm. revert Hr Himm.
  destruct (branch_opcodes_cases b Hb) as [H|[->|[->| ->]]]; intros Hr _.
  2-4: by rewrite <- sext_is_signed by done.
  assert (Hi : branch_imm b = 1%nat) by (unfold branch_imm; by replace ((b =? 0xe8) || (b =? 0xe9)) with false by lia).
  rewrite Hi in *. replace ((0x70 <=? b) && (b <=? 0x7F)) with true by lia. rewrite <- sext_is_signed by done.
  replace (b =? 0xe8) with false by lia. by replace ((b =? 0xe9) || (b =? 0xeb)) with false by lia.
Qed.

(** [t] is what the instruction [i] of [n] bytes at [A] leaves, run from its new place [P] up to [P']: a taken branch
    ends at the same address, everything else at [P'].  A call pushes the address of the jump behind it, which
    leads to [P'] as long as the relocated code is still there. *)
Definition relocates_to (i : insn) (n A P P' : Z) (s t : state) : Prop :=
  match i with
  | JCC cc _ => t = if cond_holds (flags s) cc then exec i n (at_rip A s) else at_rip P' s
  | JMP_rel _ => t = exec i n (at_rip A s)
  | CALL_rel _ =>
      t = at_rip (rip (exec i n (at_rip A s))) (X64Machine.push (P + 6) s) /\
      forall t', (forall x, P <= x < P' -> mem t' x = mem s x) -> step (at_rip (P + 6) t') = Some (at_rip P' t')
  | _ => t = at_rip P' (exec i n (at_rip A s))
  end.

Lemma run_jcc s P b dst :
  0x70 <= b <= 0x7f -> loaded (mem s) P ([b; 2; 0xEB; 14] ++ jmp_absolute dst) ->
  run 2 (at_rip P s) = Some (at_rip (if cond_holds (flags s) (b - 0x70) then u64 dst else P + 18) s).
Proof.
  intros Hb Hl. pose proof Hl as [Hlo Hhi _]. unfold jmp_absolute in Hhi. simpl length in Hhi.
  apply loaded_app in Hl as [Hj Hd]. change (Z.of_nat (length [b; 2; 0xEB; 14])) with 4 in Hd.
  change [b; 2; 0xEB; 14] with ([b; 2] ++ [0xEB; 14]) in Hj.
  apply loaded_app in Hj as [Hc Hf]. change (Z.of_nat (length [b; 2])) with 2 in Hf. cbn [run]. rewrite (step_loaded (at_rip P s) _ (JCC (b - 0x70) 2) 2 Hc);
    [|simpl; lia|intros rest; by apply decode_jcc8].
  cbn [mbind option_bind exec flags rip at_rip].
  destruct (cond_holds (flags s) (b - 0x70)).
  - unfold jump. cbn [regs flags mem at_rip]. rewrite wrap_add_l, <- Z.add_assoc, wrap_small by lia.
    change {| rip := P + (2 + 2); regs := regs s; flags := flags s; mem := mem s |} with (at_rip (P + 4) s) in *.
    by rewrite (run_jmp_absolute s _ _ Hd).
  - unfold jump. cbn [regs flags mem at_rip]. rewrite wrap_wrap, wrap_small by lia.
    change {| rip := P + 2; regs := regs s; flags := flags s; mem := mem s |} with (at_rip (P + 2) s).
    rewrite (step_loaded (at_rip (P + 2) s) _ (JMP_rel 14) 2 Hf) by (simpl; done || lia).
    cbn [mbind option_bind exec rip at_rip jump]. unfold jump, at_rip. cbn [regs flags mem].
    rewrite wrap_add_l, wrap_small by lia. do 2 f_equal. lia.
Qed.

Lemma run_call s P dst :
  loaded (mem s) P ([0xff; 0x15; 2; 0; 0; 0; 0xeb; 8] ++ le_bytes 8 dst) ->
  step (at_rip P s) = Some (at_rip (u64 dst) (X64Machine.push (P + 6) s)) /\
  forall t, (forall x, P <= x < P + 16 -> mem t x = mem s x) -> step (at_rip (P + 6) t) = Some (at_rip (P + 16) t).
Proof.
  intros Hl. pose proof Hl as [Hlo Hhi Hb]. simpl length in Hhi.
  apply loaded_app in Hl as [Hj Hd]. simpl length in Hd.
  change [0xff; 0x15; 2; 0; 0; 0; 0xeb; 8] with ([0xff; 0x15; 2; 0; 0; 0] ++ [0xeb; 8]) in Hj.
  apply loaded_app in Hj as [Hc Hf]. simpl length in Hf. split.
  - rewrite (step_loaded (at_rip P s) _ (CALL_rm (RipRel 2)) 6 Hc) by (simpl; done || lia).
    cbn [exec read_op address rip mem at_rip]. rewrite wrap_add_l, (wrap_small 64 (P + 6)), (wrap_small 64 (P + 6 + 2)) by lia.
    pose proof (x64_load_loaded _ _ _ Hd) as E. rewrite length_le_bytes, le_val_bytes in E.
    change (dst mod _) with (u64 dst) in E. replace (P + Z.of_nat 8) with (P + 6 + 2) in E by lia. rewrite E.
    unfold jump, at_rip, X64Machine.push, write, set. simpl. by rewrite wrap_wrap.
  - intros t Ht. rewrite (step_loaded (at_rip (P + 6) t) [0xeb; 8] (JMP_rel 8) 2); [|split|simpl; lia|done].
    + cbn [exec rip at_rip]. unfold jump, at_rip. cbn [regs flags mem]. rewrite wrap_add_l, wrap_small by lia.
      do 2 f_equal. lia.
    + simpl. lia.
    + simpl. lia.
    + intros i Hi. simpl length in Hi. cbn [mem at_rip rip]. rewrite Ht by lia. by apply (ld_byte _ _ _ Hf).
Qed.

Lemma run_branch s A P b t :
  b ∈ branch_opcodes -> loaded (mem s) P (branch_bytes A b t) ->
  exists k u, run k (at_rip P s) = Some u /\
    relocates_to (branch_of b t) (branch_length b) A P (P + Z.of_nat (length (branch_bytes A b t))) s u.
Proof.
  intros Hb Hl. unfold branch_bytes in *. set (dst := branch_target A b t) in *.
  assert (Hdst : u64 dst = dst) by apply wrap_wrap.
  destruct (branch_opcodes_cases b Hb) as [H|[->|[->| ->]]].
  - replace (b =? 0xe8) with false in * by lia. replace ((b =? 0xe9) || (b =? 0xeb)) with false in * by lia.
    exists 2%nat. eexists. split; [exact (run_jcc s P b dst H Hl)|].
    unfold branch_of, relocates_to. replace (b =? 0xeb) with false by lia. replace (b =? 0xe9) with false by lia.
    replace (b =? 0xe8) with false by lia. rewrite Hdst. cbn [exec flags at_rip rip].
    destruct (cond_holds _ _); [|done]. unfold dst, branch_target, branch_imm.
    by replace ((b =? 0xe8) || (b =? 0xe9)) with false by lia.
  - exists 1%nat. eexists. split; [cbn [run]; rewrite (run_jmp_absolute s P dst Hl); done|]. by rewrite Hdst.
  - destruct (run_call s P dst Hl) as [E Hret]. exists 1%nat. eexists. split; [cbn [run]; rewrite E; done|].
    by rewrite Hdst.
  - exists 1%nat. eexists. split; [cbn [run]; rewrite (run_jmp_absolute s P dst Hl); done|]. by rewrite Hdst.
Qed.

(** ** Instructions of a block *)

Definition old_offset (its : list (Z * list Z)) (k : nat) : Z := old_length (take k its).
Definition new_offset (its : list (Z * list Z)) (k : nat) : Z := Z.of_nat (length (new_bytes (take k its))).

Lemma decode_length_nonneg code insn : x86_insn_decode insn_zero code conf64 = Ret insn -> 0 <= d_length insn.
Proof.
  unfold x86_insn_decode. intros H. apply outcome_bind_Ret in H as (rd & _ & H).
  apply outcome_bind_Ret in H as ([[p rd1] i1] & _ & H). apply outcome_bind_Ret in H as ([rd2 i2] & _ & H).
  apply outcome_bind_Ret in H as ([rd3 i3] & _ & H). apply outcome_bind_Ret in H as ([rd4 i4] & _ & H).
  apply outcome_bind_Ret in H as (len & E & H). injection H as <-. cbn [d_length with_length].
  unfold Reader.reader_offset in E. destruct (Reader.owned rd4); [|done]. injection E as <-. by apply wrap_range.
Qed.

Lemma relo_insn_length A code len bs : relo_insn A code = Some (len, bs) -> 0 <= len.
Proof.
  unfold relo_insn. destruct (x86_insn_decode _ _ _) as [insn| |] eqn:E; [|done|done].
  pose proof (decode_length_nonneg _ _ E). repeat case_match; congruence.
Qed.

Lemma x64_relo_items_lookup fuel : forall A code n its k len bs,
  relo_items fuel A code n = Some its -> 0 <= A < 2 ^ 64 -> its !! k = Some (len, bs) ->
  0 <= old_offset its k /\
  relo_insn (u64 (A + old_offset its k)) (drop (Z.to_nat (old_offset its k)) code) = Some (len, bs).
Proof.
  induction fuel as [|fuel IH]; intros A code n its k len bs E HA Hk; cbn [relo_items] in E; destruct (0 <? n); try done;
    try (injection E as <-; by rewrite lookup_nil in Hk).
  destruct (relo_insn A code) as [[len0 bs0]|] eqn:Ei; [|done]. cbn [mbind option_bind] in E.
  destruct (relo_items fuel _ _ _) as [its'|] eqn:Er; [|done]. injection E as <-.
  pose proof (relo_insn_length _ _ _ _ Ei) as H0. unfold old_offset in *.
  destruct k as [|k]; cbn [lookup list_lookup] in Hk; cbn [firstn old_length foldr fst].
  { injection Hk as -> ->. by rewrite Z.add_0_r, wrap_small. }
  fold (old_length (take k its')).
  destruct (IH _ _ _ _ _ _ _ Er ltac:(by apply wrap_range) Hk) as [Hn Hi].
  rewrite wrap_add_l, drop_drop in Hi. split; [lia|]. by rewrite Z.add_assoc, Z2Nat.inj_add by lia.
Qed.

(** The relocated bytes of instruction [k], in memory. *)
Lemma item_loaded m P A its branch k len bs :
  loaded m P (relo_code A its branch) -> its !! k = Some (len, bs) ->
  loaded m (P + new_offset its k) bs /\ new_offset its (S k) = new_offset its k + Z.of_nat (length bs).
Proof.
  intros Hl Hk. pose proof (take_drop_middle _ _ _ Hk) as E.
  assert (Eb : new_bytes its = new_bytes (take k its) ++ bs ++ new_bytes (drop (S k) its)).
  { rewrite <- E at 1. unfold new_bytes. by rewrite map_app, concat_app. }
  unfold relo_code in Hl. rewrite Eb, <- !app_assoc in Hl.
  apply loaded_app in Hl as [_ Hl]. apply loaded_app in Hl as [Hl _]. split; [exact Hl|].
  unfold new_offset. rewrite (take_S_r _ _ _ Hk). unfold new_bytes.
  rewrite map_app, concat_app, length_app. cbn [map concat snd]. rewrite app_nil_r. lia.
Qed.

(** An instruction that was copied and whose meaning does not depend on its place. *)
Lemma run_copied s A P bs i :
  loaded (mem s) P bs -> (length bs <= 15)%nat -> sequential i = true ->
  (forall rest, decode (bs ++ rest) = Some (i, Z.of_nat (length bs))) ->
  run 1 (at_rip P s) = Some (at_rip (P + Z.of_nat (length bs)) (exec i (Z.of_nat (length bs)) (at_rip A s))).
Proof.
  intros Hl Hn Hi Hd. pose proof Hl as [Hlo Hhi _]. cbn [run]. rewrite (step_loaded (at_rip P s) bs i _ Hl Hn Hd).
  cbn [mbind option_bind]. by rewrite (exec_sequential i _ A P s Hi), wrap_small by lia.
Qed.

(** ** Properties *)

(** The relocated bytes are the [len] original ones, and they mean [i], which does not depend on its address. *)
Definition copied (here bs : list Z) (len : Z) (i : insn) : Prop :=
  bs = take (Z.to_nat len) here /\ Z.of_nat (length bs) = len /\ len <= 15 /\ sequential i = true /\
  forall rest, decode (bs ++ rest) = Some (i, len).

(** C5: The x64 relocator on blocks without RIP-relative operands and LOOP instructions.  [GenRelocateCodeFixed] reports -1 when the
    relocated code does not fit, and otherwise patches exactly that code into place.  Wherever the code is, running the
    sequence of a jump, conditional jump or call of one opcode byte without prefixes (70 to 7F, EB, E9, E8) has the effect of the
    original instruction at its original address: same registers, flags and memory, and control at the same absolute target, or at the
    sequence of the next instruction when the jump is not taken.  A call leaves the address of a jump over its literal as the
    return address, and that jump leads to the next sequence.  An instruction that is copied and means one that does not depend on its
    address has its original effect; the two-byte conditional jumps (0F 80 to 0F 8F) are copied too and are not among these.  At
    the end control goes to the instruction behind the originals. *)
Theorem x64_relocation_simulates PageSize code origin relocated w its :
  relo_items (Z.to_nat (rsize origin)) (addr origin) code (rsize origin) = Some its -> bytes_ok code ->
  0 <= rsize origin < 2 ^ 31 -> 0 <= addr origin < 2 ^ 64 -> 0 < addr relocated < 2 ^ 64 ->
  Z.of_nat (length (relo_code (addr origin) its true)) < 2 ^ 31 ->
  let bytes := relo_code (addr origin) its true in
  let origin' := {| start_ := addr origin; rsize := u64 (old_length its) |} in
  GenRelocateCodeFixed PageSize false code origin relocated true w =
    (if rsize relocated <? Z.of_nat (length bytes) then Ret (-1, origin', relocated, w)
     else
       '(_, v) ← DobbyCodePatch PageSize (addr relocated) bytes (space (rw_core w));
       Ret (0, origin', {| start_ := addr relocated; rsize := Z.of_nat (length bytes) |},
            with_core w (with_space (rw_core w) v))) /\
  forall P s, loaded (mem s) P bytes ->
    step (at_rip (P + Z.of_nat (length (new_bytes its))) s) = Some (at_rip (u64 (addr origin + old_length its)) s) /\
    forall k len bs i, its !! k = Some (len, bs) ->
      let here := drop (Z.to_nat (old_offset its k)) code in
      (exists b t, here = b :: t /\ b ∈ branch_opcodes /\ (14 <= length t)%nat /\ i = branch_of b t) \/ copied here bs len i ->
      exists n t, run n (at_rip (P + new_offset its k) s) = Some t /\
        relocates_to i len (u64 (addr origin + old_offset its k)) (P + new_offset its k) (P + new_offset its (S k)) s t.
Proof.
  intros Hits Hc Hsz HA HB Hlim bytes origin'. split; [by apply relocate_fixed_ok|]. intros P s Hl. split.
  { apply loaded_app in Hl as [_ Hl]. rewrite (run_jmp_absolute s _ _ Hl). by rewrite wrap_wrap. }
  intros k len bs i Hk here Hcase. destruct (item_loaded _ _ (addr origin) its true _ _ _ Hl Hk) as [Hbs Hnext].
  destruct (x64_relo_items_lookup _ _ _ _ _ _ _ _ Hits HA Hk) as [Ho Hi]. fold here in Hi. rewrite Hnext, Z.add_assoc.
  destruct Hcase as [(b & t & Eh & Hb & Ht & ->)|(_ & <- & Hn & Hseq & Hd)].
  - assert (Hbt : bytes_ok (b :: t)) by (rewrite <- Eh; by apply Forall_drop).
    rewrite Eh, (relo_branch _ b t Hb Hbt Ht) in Hi. injection Hi as <- <-.
    by apply run_branch.
  - exists 1%nat. eexists. split; [apply (run_copied s (u64 (addr origin + old_offset its k)) _ bs i); done || lia|].
    by destruct i.
Qed.

(** je +0x10; push rbp; call +0x1234; then padding. *)
Definition sample_code : list Z := [0x74; 0x10; 0x55; 0xe8; 0x34; 0x12; 0; 0] ++ replicate 24 0x90.
Definition sample_origin : MemRange := {| start_ := 0x401000; rsize := 5 |}.
Definition sample_items : list (Z * list Z) :=
  [(2, branch_bytes 0x401000 0x74 [0x10]); (1, [0x55]); (5, branch_bytes 0x401003 0xe8 [0x34; 0x12; 0; 0])].

Lemma sample_relo_items : relo_items 5 0x401000 sample_code 5 = Some sample_items.
Proof. vm_compute. reflexivity. Qed.

Lemma sample_code_ok : bytes_ok sample_code.
Proof. repeat constructor; unfold is_byte; lia. Qed.

Example x64_relocation_simulates_witness :
  relo_items 5 0x401000 sample_code 5 = Some sample_items /\
  forall P s, loaded (mem s) P (relo_code 0x401000 sample_items true) ->
    exists n t, run n (at_rip (P + 19) s) = Some t /\ relocates_to (CALL_rel 0x1234) 5 0x401003 (P + 19) (P + 35) s t.
Proof.
  split; [exact sample_relo_items|]. intros P s Hl.
  destruct (x64_relocation_simulates 4096 sample_code sample_origin {| start_ := 0x500000; rsize := 64 |}
    {| rw_core := {| space := {| vm_mem := fun _ => 0; vm_prot := ∅; vm_answers := [] |};
                     gMemoryAllocator := MemoryAllocator_new |}; exec_answers := []; near := NearAllocator.NearMemoryAllocator_new;
     near_handler := None; near_answers := [] |}
    sample_items sample_relo_items sample_code_ok) as [_ H]; [cbn; lia..|].
  destruct (H P s Hl) as [_ H']. apply (H' 2%nat 5 (branch_bytes 0x401003 0xe8 [0x34; 0x12; 0; 0])); [reflexivity|].
  left. exists 0xe8, ([0x34; 0x12; 0; 0] ++ replicate 24 0x90). split; [reflexivity|]. split; [|split; [simpl; lia|reflexivity]].
  unfold branch_opcodes. rewrite elem_of_app, !elem_of_cons. tauto.
Defined.
