(* ===== verification/X64RelocationSpec.v ===== *)
(** * The search for a block, and what the x64 relocator gets wrong

    GenRelocateCodeX86Shared tries blocks of 32, 48, 64, ... bytes.  It ends after a
    number of attempts that the relocated code determines, and no executable block
    leaks on the way.  The second part states where two-byte opcodes are taken for
    one-byte branches. *)

From stdpp Require Import gmap.
From S2P Require Import Prelude UtilityMacro CodeMemBuffer X86Tables X86Decode X86DecodeFacts CodePatch.
From S2P Require Import MemoryAllocator MemoryAllocatorSpec HookRouting HookBlocks.
From S2P Require Import X64Machine X64Assembler X64Encoding X64Relocation X64Simulation.
Import Decoder.
#[local] Open Scope machine_scope.
#[local] Open Scope Z_scope.

Section Search.
Context (PageSize pk : Z).
Hypothesis page_size : PageSize = 2 ^ pk.
Hypothesis pk_range : 12 <= pk < 31.

Abbreviation blocks c := (live (gMemoryAllocator c)) (only parsing).

(** Every answer of the kernel is good in the state it is given in: the first one now, the next one after the block
    of this attempt has been given back. *)
Fixpoint kernel_ok (fuel : nat) (expected : Z) (c : core) (answers : list os_answer) : Prop :=
  match fuel with
  | O => True
  | S fuel =>
      answer_ok PageSize (hd no_answer answers) c /\
      forall blk c1 c2, allocExecBlock PageSize (hd no_answer answers) expected c = Ret (blk, c1) ->
        freeExecBlock PageSize {| start_ := addr blk; rsize := expected |} c1 = Ret c2 ->
        kernel_ok fuel (expected + 16) c2 (tail answers)
  end.

(** Relocating again over exactly the instructions that were found. *)
Lemma relo_items_again fuel : forall A code n its fuel',
  relo_items fuel A code n = Some its -> Forall (fun it => 0 < fst it) its -> (length its <= fuel')%nat ->
  0 <= old_length its /\ relo_items fuel' A code (old_length its) = Some its.
Proof.
  induction fuel as [|fuel IH]; intros A code n its fuel' E Hpos Hf; cbn [relo_items] in E; destruct (0 <? n); try done;
    try (injection E as <-; by destruct fuel').
  destruct (relo_insn A code) as [[len bs]|] eqn:Ei; [|done]. cbn [mbind option_bind] in E.
  destruct (relo_items fuel _ _ _) as [its'|] eqn:Er; [|done]. injection E as <-.
  pose proof (Forall_inv Hpos) as H0. apply Forall_inv_tail in Hpos. cbn [fst] in H0. cbn [length] in Hf.
  destruct fuel' as [|fuel']; [lia|]. destruct (IH _ _ _ _ fuel' Er Hpos ltac:(lia)) as [Hn E'].
  cbn [old_length foldr fst]. fold (old_length its'). split; [lia|]. cbn [relo_items].
  replace (0 <? len + old_length its') with true by lia. rewrite Ei. cbn [mbind option_bind].
  rewrite Z.add_simpl_l, E'. done.
Qed.

Lemma items_count its : Forall (fun it : Z * list Z => 0 < fst it) its -> Z.of_nat (length its) <= old_length its.
Proof.
  induction its as [|it its IH]; intros H; [simpl; lia|]. pose proof (Forall_inv H) as H0. apply Forall_inv_tail in H. specialize (IH H).
  unfold old_length in *. cbn [length foldr]. lia.
Qed.

(** Giving a block back right after getting it restores the blocks in use. *)
Lemma give_back m r n :
  0 < n <= r_size r -> r_exec r = true -> (forall r0, r0 ∈ live m -> disjoint r0 r) -> mem_ok PageSize m ->
  filter (fun r0 => ~ (r_addr r0 = r_addr r /\ r_exec r0 = true)) (r :: live m) = live m.
Proof.
  intros Hn He Hd (Hp & Hr & _). rewrite filter_cons_False by tauto. apply filter_all. intros r0 Hr0 [Ea _].
  destruct (placed_aligned _ r0 (ro_placed _ Hr r0 (elem_live _ _ Hr0))) as [Hsz _]. destruct (Hd r0 Hr0); lia.
Qed.

(** The code [bytes] in a fresh executable block. *)
Definition placed_code (c c' : core) (relocated : MemRange) (bytes : list Z) : Prop :=
  relocated = {| start_ := start_ relocated; rsize := Z.of_nat (length bytes) |} /\ 0 < addr relocated /\
  (exists r, blocks c' ≡ₚ r :: blocks c /\ r_addr r = addr relocated /\ r_exec r = true /\
     Z.of_nat (length bytes) <= r_size r /\ forall r0, r0 ∈ blocks c -> disjoint r0 r) /\
  forall i, (i < length bytes)%nat -> vm_mem (space c') (addr relocated + Z.of_nat i) = nth i bytes 0.

(** The kernel gives no page, or no permission for it. *)
Definition refuses (os : os_answer) : Prop := os_page os = None \/ os_permission os = false.

Definition no_block : MemRange := {| start_ := 0; rsize := 0 |}.

Section Attempts.
Context (code : list Z) (A : Z) (its : list (Z * list Z)) (branch : bool).
Hypothesis code_ok : bytes_ok code.
Hypothesis A_range : 0 <= A < 2 ^ 64.
Hypothesis its_pos : Forall (fun it => 0 < fst it) its.
Hypothesis its_small : old_length its < 2 ^ 31.
Let bytes := relo_code A its branch.
Hypothesis bytes_small : 0 < Z.of_nat (length bytes) < 2 ^ 31.

Definition origin_ok (origin : MemRange) : Prop :=
  addr origin = A /\ 0 <= rsize origin < 2 ^ 31 /\
  relo_items (Z.to_nat (rsize origin)) A code (rsize origin) = Some its.

Let grown : MemRange := {| start_ := A; rsize := old_length its |}.

Lemma origin_again fuel n : relo_items fuel A code n = Some its ->
  {| start_ := A; rsize := u64 (old_length its) |} = grown /\ origin_ok grown.
Proof.
  intros E. pose proof (items_count its its_pos) as Hc.
  destruct (relo_items_again _ _ _ _ _ (Z.to_nat (old_length its)) E its_pos ltac:(lia)) as [Hn E'].
  split; [unfold grown; by rewrite wrap_small by lia|]. split; [done|]. cbn [rsize grown]. split; [lia|done].
Qed.

(** One attempt with a block of [expected] bytes that was just allocated. *)
Lemma attempt_ok origin expected c c1 w r :
  origin_ok origin -> rw_core w = c1 -> core_ok PageSize c1 -> quiet c1 ->
  blocks c1 ≡ₚ r :: blocks c -> 0 < expected <= r_size r -> r_exec r = true -> 0 < r_addr r < 2 ^ 64 ->
  (forall r0, r0 ∈ blocks c -> disjoint r0 r) ->
  exists r' w' ret, GenRelocateCodeFixed PageSize false code origin {| start_ := r_addr r; rsize := expected |} branch w
      = Ret (ret, grown, r', w') /\ origin_ok grown /\ exec_answers w' = exec_answers w /\ near w' = near w /\
    ((ret = -1 /\ expected < Z.of_nat (length bytes) /\ r' = {| start_ := r_addr r; rsize := expected |} /\ w' = w) \/
     (ret = 0 /\ Z.of_nat (length bytes) <= expected /\ core_ok PageSize (rw_core w') /\ quiet (rw_core w') /\
      placed_code c (rw_core w') r' bytes)).
Proof.
  intros (Ea & Hsz & Hits) Hw Hc1 Hq Hl He Hx Ha Hd. rewrite <- Ea in Hits, A_range.
  rewrite (relocate_fixed_ok PageSize code origin {| start_ := r_addr r; rsize := expected |} branch w its
    Hits code_ok Hsz A_range Ha) by (rewrite Ea; unfold bytes in *; lia).
  rewrite Ea in *. fold bytes. cbn [rsize addr start_]. destruct (origin_again _ _ Hits) as [-> Hgrown].
  destruct (Z.ltb_spec expected (Z.of_nat (length bytes))).
  { do 3 eexists. split; [reflexivity|]. split; [exact Hgrown|]. split; [done|]. split; [done|]. left. done. }
  assert (Hr : r ∈ blocks c1) by (rewrite Hl; left). rewrite Hw.
  destruct (core_patch PageSize pk page_size pk_range c1 (r_addr r) bytes Hc1 Hq) as (v & -> & Hc2 & Hq2 & Hmem & Hpr);
    [apply (block_patchable PageSize pk page_size pk_range); done || lia|].
  cbn [mbind outcome_bind]. do 3 eexists. split; [reflexivity|]. split; [exact Hgrown|]. split; [done|].
  split; [done|]. right. split; [done|]. split; [done|]. split; [exact Hc2|]. split; [exact Hq2|].
  split; [done|]. split; [apply Ha|]. split.
  - exists r. split; [exact Hl|]. split; [done|]. split; [done|]. split; [lia|done].
  - intros i Hi. cbn [rw_core with_core space with_space addr start_]. rewrite Hmem. by apply patch_mem_in.
Qed.

Lemma placed_code_perm c c2 c' r' : blocks c2 ≡ₚ blocks c -> placed_code c2 c' r' bytes -> placed_code c c' r' bytes.
Proof.
  intros Hp (E & H0 & (r & Hl & Ha & He & Hsz & Hd) & Hmem). split; [done|]. split; [done|]. split; [|done].
  exists r. split; [by rewrite Hl, Hp|]. split; [done|]. split; [done|]. split; [done|].
  intros r0 Hr0. apply Hd. by rewrite Hp.
Qed.

Lemma nth_hd_answer (l : list os_answer) : nth 0 l no_answer = hd no_answer l.
Proof. by destruct l. Qed.

Lemma nth_tail_answer k (l : list os_answer) : nth k (tail l) no_answer = nth (S k) l no_answer.
Proof. destruct l; [by destruct k|done]. Qed.

Lemma try_again_ok fuel : forall expected origin c w,
  origin_ok origin -> rw_core w = c -> core_ok PageSize c -> quiet c -> kernel_ok fuel expected c (exec_answers w) ->
  (1 <= fuel)%nat -> 0 < expected -> expected + 16 * Z.of_nat fuel <= PageSize + 16 ->
  Z.of_nat (length bytes) <= expected + 16 * Z.of_nat fuel - 16 ->
  exists o' r' w', try_again PageSize false fuel expected code origin no_block branch w = Ret (o', r', w') /\
    core_ok PageSize (rw_core w') /\ quiet (rw_core w') /\ near w' = near w /\
    exists k, (k = O \/ expected + 16 * Z.of_nat k - 16 < Z.of_nat (length bytes)) /\ exec_answers w' = drop (S k) (exec_answers w) /\
    ((r' = no_block /\ blocks (rw_core w') ≡ₚ blocks c /\ refuses (nth k (exec_answers w) no_answer)) \/
     (o' = grown /\ placed_code c (rw_core w') r' bytes /\ Z.of_nat (length bytes) <= expected + 16 * Z.of_nat k)).
Proof.
  induction fuel as [|fuel IH]; intros expected origin c w Ho Hw Hc Hq Hk Hf He Hps Hlen; [lia|].
  destruct Hk as [Han Hnext]. cbn [try_again addr start_ no_block Z.eqb]. unfold next_answer. rewrite Hw.
  destruct (exec_alloc_ok PageSize pk page_size pk_range _ expected c Hc Han ltac:(lia))
    as (b & c1 & E & Hc1 & Hun & _ & Hcase). cbn [rw_core]. rewrite E. cbn [mbind outcome_bind].
  pose proof (un_quiet _ _ _ Hun Hq) as Hq1.
  destruct Hcase as [(-> & Hsame & Hno)|(r & Hl & Eb & Hsz & Hx & _ & Hin & Hlo & Hhi & Hd)].
  { do 3 eexists. split; [reflexivity|]. split; [exact Hc1|]. split; [exact Hq1|]. split; [done|]. exists O. split; [by left|].
    cbn [rw_core with_core exec_answers]. split; [by destruct (exec_answers w)|]. left. split; [done|]. split; [by rewrite Hsame|].
    by rewrite nth_hd_answer. }
  subst b. cbn [addr start_]. assert (Hr : r ∈ blocks c1) by (rewrite Hl; left).
  destruct (live_page PageSize pk page_size pk_range _ r (r_addr r) (co_alloc _ _ Hc1) Hr ltac:(lia)) as (_ & _ & H64).
  pose proof (PageSize_4096 PageSize pk page_size pk_range) as H4096.
  replace (r_addr r =? 0) with false by lia. cbn [addr start_ reset]. replace (r_addr r =? 0) with false by lia.
  change (reset no_block (r_addr r) expected) with {| start_ := r_addr r; rsize := expected |}. set (w1 := with_core _ c1).
  destruct (attempt_ok origin expected c c1 w1 r Ho eq_refl Hc1 Hq1 Hl Hsz Hx ltac:(lia) Hd)
    as (r' & w' & ret & -> & Ho' & Ean & Enear & [(-> & Hlt & -> & ->)|(-> & Hfit & Hc2 & Hq2 & Hpl)]).
  2:{ cbn [mbind outcome_bind Z.eqb]. do 3 eexists. split; [reflexivity|]. split; [exact Hc2|]. split; [exact Hq2|].
      split; [exact Enear|]. exists O. split; [by left|]. rewrite Ean. cbn [w1 exec_answers with_core]. split; [by destruct (exec_answers w)|].
      right. split; [done|]. split; [done|lia]. }
  cbn [mbind outcome_bind Z.eqb addr start_ rsize]. replace (r_addr r =? 0) with false by lia.
  replace (expected =? 0) with false by lia. cbn [negb andb].
  destruct (exec_free_ok PageSize pk page_size pk_range {| start_ := r_addr r; rsize := expected |} c1 Hc1)
    as (c2 & Ef & Hc2 & Hun2 & Hbl & _); [cbn; lia|].
  change (rw_core w1) with c1. rewrite Ef. cbn [mbind outcome_bind].
  assert (Hp : blocks c2 ≡ₚ blocks c).
  { rewrite Hbl, Hl. cbn [addr start_]. by rewrite (give_back (gMemoryAllocator c) r expected) by (done || apply Hc). }
  change (reset _ 0 0) with no_block. destruct (IH (expected + 16) grown c2 (with_core w1 c2) Ho' eq_refl Hc2 (un_quiet _ _ _ Hun2 Hq1)) as
    (o2 & r2 & w2 & -> & Hc3 & Hq3 & Hn3 & Hres); try lia.
  { exact (Hnext _ _ _ E Ef). }
  do 3 eexists. split; [reflexivity|]. split; [done|]. split; [done|]. split; [exact Hn3|].
  destruct Hres as (k & Hk & Edrop & Hres). cbn [w1 exec_answers with_core] in Edrop, Hres. exists (S k). split; [right; lia|].
  split; [rewrite Edrop; by destruct (exec_answers w)|]. destruct Hres as [(-> & Hbl3 & Href)|(-> & Hpl & Hfit)]; [left|right].
  - split; [done|]. split; [by rewrite Hbl3|]. by rewrite nth_tail_answer in Href.
  - split; [done|]. split; [by apply (placed_code_perm c c2)|lia].
Qed.

End Attempts.

(** ** Properties *)

(** C30: The search for a block, for code without RIP-relative operands and LOOP instructions, as long as the kernel grants every
    mprotect and its other answers are sound.  [GenRelocateCodeX86Shared] returns after [k + 1] attempts, with blocks of 32,
    48, ... bytes; every attempt but the last was made with a block that is too small for the relocated code and was given
    back.  In the last one the kernel refused a page, and the result is empty with no block more in use than before; or
    the block is large enough, and the result is exactly the relocated code in a fresh executable block that meets no block in
    use, with [origin] grown to the instructions that were relocated. *)
Theorem x64_search_delivers code origin its branch w fuel :
  relo_items (Z.to_nat (rsize origin)) (addr origin) code (rsize origin) = Some its -> bytes_ok code ->
  0 <= addr origin < 2 ^ 64 -> 0 <= rsize origin < 2 ^ 31 -> Forall (fun it => 0 < fst it) its -> old_length its < 2 ^ 31 ->
  let bytes := relo_code (addr origin) its branch in
  0 < Z.of_nat (length bytes) <= 16 + 16 * Z.of_nat fuel -> 16 + 16 * Z.of_nat fuel <= PageSize ->
  core_ok PageSize (rw_core w) -> quiet (rw_core w) -> kernel_ok fuel 32 (rw_core w) (exec_answers w) -> (1 <= fuel)%nat ->
  exists o' r' w' k, GenRelocateCodeX86Shared PageSize false fuel code origin no_block branch w = Ret (o', r', w') /\
    core_ok PageSize (rw_core w') /\ near w' = near w /\
    (k = O \/ 32 + 16 * Z.of_nat k - 16 < Z.of_nat (length bytes)) /\ exec_answers w' = drop (S k) (exec_answers w) /\
    ((r' = no_block /\ blocks (rw_core w') ≡ₚ blocks (rw_core w) /\ refuses (nth k (exec_answers w) no_answer)) \/
     (addr o' = addr origin /\ rsize o' = old_length its /\ placed_code (rw_core w) (rw_core w') r' bytes /\
      Z.of_nat (length bytes) <= 32 + 16 * Z.of_nat k)).
Proof.
  intros Hits Hc HA Hsz Hpos Hold bytes Hlen Hps Hcore Hq Hk Hf.
  destruct (try_again_ok code (addr origin) its branch Hc HA Hpos Hold) with (fuel := fuel) (expected := 32)
    (origin := origin) (c := rw_core w) (w := w) as (o' & r' & w' & E & Hc' & _ & Hn & k & Hk' & Ed & Hres); try done; try (fold bytes; lia).
  { fold bytes. pose proof (PageSize_4096 PageSize pk page_size pk_range). lia. }
  exists o', r', w', k. do 5 (split; [done|]). by destruct Hres as [?|(-> & Hp & Hfit)]; [left|right].
Qed.
End Search.

(** ** Two-byte opcodes *)

Definition jcc32_bytes (cc d : Z) : list Z := [0x0f; 0x80 + cc] ++ le_bytes 4 d.

Lemma jcc32_row cc b2 :
  0 <= cc < 16 ->
  exists s, lookup_opcode 0x0f (0x80 + cc) b2 = Ret (2, 0x80 + cc, s) /\ x86_insn_has_modrm_byte s = false /\
    x86_insn_has_immediate s = true /\
    forall insn, d_prefix insn = 0 -> d_flags insn = 0 -> insn_spec insn = s ->
      x86_insn_imm_bits s (operand_bits insn conf64) = Ret (8 * Z.of_nat 4).
Proof.
  intros H. each_index cc 16%nat ltac:(eexists; split; [vm_compute; reflexivity|]; split; [reflexivity|];
    split; [reflexivity|]; intros insn Hp Hf Hs; unfold operand_bits; rewrite Hp, Hf, Hs; reflexivity).
Qed.

Lemma jcc32_copied A cc d rest :
  0 <= cc < 16 -> bytes_ok rest -> (9 <= length rest)%nat ->
  relo_insn A (jcc32_bytes cc d ++ rest) = Some (6, jcc32_bytes cc d).
Proof.
  intros Hcc Hrest Hl. destruct (jcc32_row cc (nth 0 (le_bytes 4 d) 0) Hcc) as (s & Hlook & Hmod & Himm & Hbits).
  destruct (decode_imm_only (jcc32_bytes cc d ++ rest) 2 (0x80 + cc) s 4) as (insn & E & Eop & Ef & Eo & El & _); try done.
  { apply bytes_ok_app. split; [|done]. constructor; [unfold is_byte; lia|]. constructor; [unfold is_byte; lia|apply le_bytes_ok]. }
  { rewrite length_app. simpl. lia. } { cbn [nth app jcc32_bytes]. lia. } { by right. }
  unfold relo_insn. rewrite E, Eop, Ef, El. replace ((0x70 <=? 0x80 + cc) && _) with false by lia.
  cbn [Z.land Z.eqb negb andb]. replace (0x80 + cc =? 0xEB) with false by lia.
  replace ((0x80 + cc =? 0xE8) || _) with false by lia. by replace ((0xE0 <=? 0x80 + cc) && _) with false by lia.
Qed.

Lemma jcc32_decodes cc d rest :
  0 <= cc < 16 -> - 2 ^ 31 <= d < 2 ^ 31 -> decode (jcc32_bytes cc d ++ rest) = Some (JCC cc d, 6).
Proof.
  intros Hcc Hd. unfold jcc32_bytes. rewrite <- app_assoc. cbn [app decode decode_opcode]. unfold in_row. cbn [Z.leb Z.ltb Z.compare Pos.compare Pos.compare_cont andb Z.eqb Pos.eqb].
  replace ((0x80 <=? 0x80 + cc) && (0x80 + cc <? 0x80 + 16)) with true by lia.
  rewrite disp32_decodes by done. do 3 f_equal. lia.
Qed.

(** A conditional jump with a 32-bit offset (0F 80 to 0F 8F) is copied as it is.  The decoder keeps the second
    opcode byte in [primary_opcode], which the relocator compares with one-byte opcodes only.  Run from its new place
    the jump, when taken, misses its target by exactly the distance the code was moved, although the original
    instruction, read as in the manual, goes to its target. *)
Theorem x64_jcc_rel32_misdirected A cc d rest P s :
  0 <= cc < 16 -> - 2 ^ 31 <= d < 2 ^ 31 -> bytes_ok rest -> (9 <= length rest)%nat ->
  relo_insn A (jcc32_bytes cc d ++ rest) = Some (6, jcc32_bytes cc d) /\
  decode (jcc32_bytes cc d ++ rest) = Some (JCC cc d, 6) /\
  (loaded (mem s) P (jcc32_bytes cc d) -> cond_holds (flags s) cc = true -> 0 <= A < 2 ^ 64 -> A <> P ->
   exists t, run 1 (at_rip P s) = Some t /\
     rip t = u64 (rip (exec (JCC cc d) 6 (at_rip A s)) + (P - A)) /\ rip t <> rip (exec (JCC cc d) 6 (at_rip A s))).
Proof.
  intros Hcc Hd Hrest Hl. split; [by apply jcc32_copied|]. split; [by apply jcc32_decodes|].
  intros Hld Hcond HA Hne. pose proof Hld as [Hlo Hhi _]. cbn [run].
  rewrite (step_loaded (at_rip P s) _ (JCC cc d) 6 Hld) by (simpl; lia || (intros; by apply jcc32_decodes)).
  eexists. split; [reflexivity|]. cbn [exec flags rip at_rip]. rewrite Hcond. cbn [jump rip].
  rewrite !wrap_add_l. split.
  { replace (u64 (A + 6) + d + (P - A)) with (u64 (A + 6) + (d + (P - A))) by lia. rewrite wrap_add_l. f_equal. lia. }
  unfold wrap. intros E.
  assert (H : (P - A) mod 2 ^ 64 = 0).
  { replace (P - A) with (P + 6 + d - (A + 6 + d)) by lia. rewrite Zminus_mod, E, Z.sub_diag. done. }
  apply Z.mod_divide in H as [q Hq]; [|lia]. nia.
Qed.

Example x64_jcc_rel32_misdirected_witness :
  relo_insn 0x401000 (jcc32_bytes 4 0x20 ++ replicate 9 0x90) = Some (6, jcc32_bytes 4 0x20).
Proof.
  apply (x64_jcc_rel32_misdirected 0x401000 4 0x20 (replicate 9 0x90) 0x500000
           {| rip := 0; regs := fun _ => 0; flags := {| CF := false; PF := false; ZF := true; SF := false; OF := false |};
              mem := fun _ => 0 |}); [lia|lia| |simpl; lia].
  repeat constructor; unfold is_byte; lia.
Defined.

(** Two instructions that become 33 bytes: the second attempt fits. *)
Definition search_core : core :=
  {| space := {| vm_mem := fun _ => 0; vm_prot := ∅; vm_answers := [] |}; gMemoryAllocator := MemoryAllocator_new |}.
Definition search_answer (page id : Z) : os_answer := {| os_page := Some page; os_permission := true; os_new := id |}.
Definition search_world : relo_world :=
  {| rw_core := search_core; exec_answers := [search_answer 0x10000 1; search_answer 0x20000 2]; near := NearAllocator.NearMemoryAllocator_new;
     near_handler := None; near_answers := [] |}.

Lemma search_core_ok : core_ok 4096 search_core.
Proof. split; [apply mem_ok_new|]. intros p Hp. by apply elem_of_empty in Hp. Qed.

Lemma search_kernel_ok : kernel_ok 4096 2 32 search_core (exec_answers search_world).
Proof.
  split.
  - split; [split|done]; [|apply not_elem_of_dom; reflexivity]. intros page [= <-].
    split; [lia|]. split; [done|]. split; [lia|]. intros H. by apply elem_of_empty in H.
  - intros blk c1 c2 E1 E2. split; [|done].
    unfold allocExecBlock in E1. destruct (allocMemBlockLocked _ _ _ _ _) as [[b1 m1]| |] eqn:Ea; [|done|done].
    vm_compute in Ea. injection Ea as <- <-. injection E1 as <- <-.
    unfold freeExecBlock in E2. destruct (freeMemBlockLocked _ _ _ _) as [m2| |] eqn:Ef; [|done|done].
    vm_compute in Ef. injection Ef as <-. injection E2 as <-.
    split; [split|]; cbn [space gMemoryAllocator].
    + intros page [= <-]. split; [lia|]. split; [done|]. split; [lia|]. intros H. by apply elem_of_empty in H.
    + apply not_elem_of_dom. reflexivity.
    + intros p [= <-]. vm_compute. reflexivity.
Qed.

Example x64_search_delivers_witness :
  Z.of_nat (length (relo_code 0x401000 (take 2 sample_items) true)) = 33 /\
  exists o' r' w', GenRelocateCodeX86Shared 4096 false 2 sample_code {| start_ := 0x401000; rsize := 3 |} no_block true
    search_world = Ret (o', r', w') /\ exec_answers w' = [] /\ rsize r' = 33.
Proof.
  split; [reflexivity|].
  destruct (x64_search_delivers 4096 12 eq_refl ltac:(lia) sample_code {| start_ := 0x401000; rsize := 3 |}
    (take 2 sample_items) true search_world 2) as (o' & r' & w' & k & E & Hc & _ & Hk & Ed & Hres);
    [vm_compute; reflexivity|exact sample_code_ok|cbn; lia|cbn; lia|repeat constructor|cbn; lia|cbn; lia|cbn; lia
    |exact search_core_ok|by intros ?%elem_of_nil|exact search_kernel_ok|lia|].
  exists o', r', w'. split; [exact E|]. change (Z.of_nat (length _)) with 33 in Hk, Hres.
  assert (Hk2 : (k <= 1)%nat) by lia. destruct Hres as [(_ & _ & Href)|(_ & _ & (Er & _) & Hfit)].
  - exfalso. destruct k as [|[|k]]; [| |lia]; by destruct Href.
  - assert (k = 1%nat) as -> by lia. split; [exact Ed|]. rewrite Er. reflexivity.
Defined.
