(* ===== verification/X64RipRelative.v ===== *)
(** * RIP-relative operands

    What the x64 relocator does with [mov r, [rip + d]], [mov [rip + d], r] and
    [lea r, [rip + d]]: the instruction is rebuilt in a block of the near allocator,
    where its displacement can be adjusted, and reached by a jump. *)

From stdpp Require Import gmap.
From S2P Require Import Prelude UtilityMacro CodeMemBuffer X86Tables X86Decode X86DecodeFacts CodePatch.
From S2P Require Import MemoryAllocator MemoryAllocatorSpec HookRouting HookBlocks.
From S2P Require Import X64Machine X64Assembler X64Encoding X64Relocation X64Simulation.
From S2P Require NearAllocator NearAllocatorSpec.
Import Decoder.
#[local] Open Scope machine_scope.
#[local] Open Scope Z_scope.

(** ** The instructions *)

Definition rip_opcodes : list Z := [0x8b; 0x89; 0x8d].
Definition rip_rex (r : Z) : Z := if r <? 8 then 0x48 else 0x4c.
Definition rip_modrm (r : Z) : Z := 8 * (r mod 8) + 5.
Definition rip_bytes (op r d : Z) : list Z := [rip_rex r; op; rip_modrm r] ++ le_bytes 4 d.
Definition rip_meaning (op r d : Z) : insn :=
  if op =? 0x8b then MOV_load r (RipRel d) else if op =? 0x89 then MOV_store (RipRel d) r else LEA r (RipRel d).

(** ** Decoding *)

Lemma rip_row op r b2 :
  op ∈ rip_opcodes -> 0 <= r < 16 ->
  is_byte op /\ is_byte (rip_rex r) /\ is_byte (rip_modrm r) /\
  0x40 <= rip_rex r <= 0x4f /\ modrm_mode (rip_modrm r) = 0 /\ u8 ((REX_B (rip_rex r) << 3) .| modrm_rm (rip_modrm r)) = 5 /\
  exists s, lookup_opcode op (rip_modrm r) b2 = Ret (1, op, s) /\ x86_insn_has_modrm_byte s = true /\
    x86_insn_has_immediate s = false.
Proof.
  intros Hop Hr. unfold rip_opcodes in Hop. rewrite !elem_of_cons, elem_of_nil in Hop.
  assert (Hm : 0 <= r mod 8 < 8) by (apply Z.mod_pos_bound; lia).
  split; [unfold is_byte; lia|]. split; [unfold is_byte, rip_rex; destruct (r <? 8); lia|].
  split; [unfold is_byte, rip_modrm; lia|]. split; [unfold rip_rex; destruct (r <? 8); lia|].
  split; [|split].
  - unfold rip_modrm. apply (forallb_Zrange (fun k => modrm_mode (8 * k + 5) =? 0) 0 8) in Hm; [lia|reflexivity].
  - unfold rip_modrm, rip_rex.
    apply (forallb_Zrange (fun k => (u8 ((REX_B 0x48 << 3) .| modrm_rm (8 * k + 5)) =? 5)
             && (u8 ((REX_B 0x4c << 3) .| modrm_rm (8 * k + 5)) =? 5)) 0 8) in Hm; [|reflexivity].
    apply andb_prop in Hm as [H1 H2]. destruct (r <? 8); by apply Z.eqb_eq.
  - destruct Hop as [->|[->|[->|[]]]]; eexists; (split; [vm_compute; reflexivity|]); done.
Qed.

(** ModR/M with mode 0 and r/m 5: a displacement relative to the next instruction. *)
Lemma decode_rip_operand rd insn :
  reader_ok rd -> Reader.buffer_cursor rd + 5 <= 20 -> modrm_mode (byte_at rd (Reader.buffer_cursor rd)) = 0 ->
  u8 ((REX_B (rex insn) << 3) .| modrm_rm (byte_at rd (Reader.buffer_cursor rd))) = 5 -> d_prefix insn = 0 ->
  exists insn', x86_insn_decode_modrm_sib rd insn conf64 = Ret (advance rd 5, insn') /\
    primary_opcode insn' = primary_opcode insn /\ insn_spec insn' = insn_spec insn /\ immediate_offset insn' = immediate_offset insn /\
    d_flags insn' = X86_INSN_DECODE_FLAG_IP_RELATIVE /\ base (op_mem (op1_ insn')) = RIP /\
    disp (op_mem (op1_ insn')) = u32 (imm_at 4 (drop (Z.to_nat (Reader.buffer_cursor rd + 1)) (Reader.mem rd))) /\
    displacement_offset insn' = Reader.buffer_cursor rd + 1.
Proof.
  intros Hok Hc Hmode Hrm Hpre. pose proof (ro_cursor rd Hok). unfold x86_insn_decode_modrm_sib.
  rewrite read_byte_ok by (done || lia). cbn [mbind outcome_bind]. set (m := byte_at _ _) in *. cbv zeta.
  change (rex (with_modrm m insn)) with (rex insn). rewrite Hmode, Hrm. cbn [Z.eqb Pos.eqb].
  unfold address_bits. cbn [mode conf64 Z.eqb Pos.eqb].
  match goal with |- context [d_prefix ?i] => change (d_prefix i) with (d_prefix insn) end. rewrite Hpre.
  cbn [mbind outcome_bind]. unfold decode_modrm_wide.
  change (0 .& INSN_PREFIX_ADDRESS_SIZE =? 0) with true. change (5 .& 7 =? 5) with true. change (5 .& 7 =? 4) with false.
  cbn [negb orb andb Z.eqb Pos.eqb mbind outcome_bind].
  assert (Hok1 : reader_ok (advance rd 1)) by (apply advance_ok; done || lia).
  rewrite reader_offset_ok by done. cbn [mbind outcome_bind].
  change (x86_insn_decode_number ?x 32) with (x86_insn_decode_number x (8 * Z.of_nat 4)). rewrite (decode_number_value (advance rd 1) 4) by (done || (right; done) || (rewrite advance_cursor; simpl; lia)).
  cbn [mbind outcome_bind]. rewrite advance_advance, advance_cursor, advance_mem.
  eexists. split; [reflexivity|]. repeat (split; [done|]). apply wrap_small. lia.
Qed.

Lemma decode_rip op r t :
  op ∈ rip_opcodes -> 0 <= r < 16 -> bytes_ok t -> (12 <= length t)%nat ->
  exists insn, x86_insn_decode insn_zero ([rip_rex r; op; rip_modrm r] ++ t) conf64 = Ret insn /\
    primary_opcode insn = op /\ d_flags insn = X86_INSN_DECODE_FLAG_IP_RELATIVE /\ base (op_mem (op1_ insn)) = RIP /\
    disp (op_mem (op1_ insn)) = u32 (imm_at 4 t) /\ displacement_offset insn = 3 /\ immediate_offset insn = 0 /\
    d_length insn = 7.
Proof.
  intros Hop Hr Ht Hl. set (code := _ ++ t).
  destruct (rip_row op r (nth 3 code 0) Hop Hr) as (B1 & B2 & B3 & Hrex & Hmode & Hrm & s & Hlook & Hmod & Himm).
  assert (Hcode : bytes_ok code) by (unfold code; apply Forall_app; split; [repeat constructor; apply B1 || apply B2 || apply B3|done]).
  assert (Hlen : (15 <= length code)%nat) by (unfold code; rewrite length_app; simpl length; lia).
  unfold x86_insn_decode. destruct (init_reader_ok code Hcode Hlen) as (rd & -> & Hok & Hc & Hm). cbn [mbind outcome_bind].
  assert (Hby : forall i, (i < 15)%nat -> nth i (Reader.mem rd) 0 = nth i code 0).
  { intros i Hlt. rewrite Hm, app_nth1 by (rewrite length_take; lia).
    rewrite <- (take_drop 15 code) at 2. by rewrite app_nth1 by (rewrite length_take; lia). }
  pose proof (decode_prefix_ok conf64 insn_zero rd code Hc Hm) as Hpre.
  assert (Es : scan_prefix conf64 (Reader.mem rd) = (1, 0, rip_rex r)).
  { rewrite Hm. unfold code. cbn [app take scan_prefix]. by replace ((mode conf64 =? 64) && _ && _) with true by (simpl; lia). }
  rewrite Es in Hpre. destruct Hpre as [_ ->]. cbn [mbind outcome_bind].
  assert (Hok1 : reader_ok (advance rd 1)) by (apply advance_ok; done || lia).
  assert (Hok2 : reader_ok (advance rd 2)) by (apply advance_ok; done || lia).
  rewrite decode_opcode_eq by (done || rewrite advance_cursor; lia). rewrite advance_cursor, Hc. unfold byte_at. rewrite advance_mem.
  change (Z.to_nat (0 + 1)) with 1%nat. change (Z.to_nat (0 + 1 + 1)) with 2%nat. change (Z.to_nat (0 + 1 + 2)) with 3%nat.
  rewrite !Hby by lia. change (nth 1 code 0) with op. change (nth 2 code 0) with (rip_modrm r). rewrite Hlook.
  cbn [mbind outcome_bind]. set (insn := with_insn_spec s _). change (insn_spec insn) with s. rewrite Hmod, advance_advance.
  change (1 + 1) with 2. destruct (decode_rip_operand (advance rd 2) insn) as (insn' & -> & Eop & Esp & Eio & Ef & Eb & Ed & Edo).
  { done. } { rewrite advance_cursor. lia. }
  1, 2: rewrite advance_cursor, Hc; unfold byte_at; rewrite advance_mem; change (Z.to_nat (0 + 2)) with 2%nat; rewrite Hby by lia.
  { exact Hmode. } { assert (rex insn = rip_rex r) as -> by apply (rex_apply_rex (rip_rex r)). exact Hrm. }
  { unfold insn, apply_rex. by destruct (_ =? 0). }
  cbn [mbind outcome_bind]. rewrite Esp. change (insn_spec insn) with s. rewrite Himm. cbn [mbind outcome_bind].
  rewrite advance_advance. rewrite reader_offset_ok by (apply advance_ok; done || lia). cbn [mbind outcome_bind].
  rewrite !advance_cursor, advance_mem, Hc in *. eexists. split; [reflexivity|].
  split; [exact Eop|]. split; [exact Ef|]. split; [exact Eb|]. split; [|split; [exact Edo|split; [|done]]].
  - change (disp (op_mem (op1_ (with_length _ insn')))) with (disp (op_mem (op1_ insn'))). rewrite Ed. f_equal. unfold imm_at. f_equal.
    rewrite Hm. unfold code. change (Z.to_nat (0 + 2 + 1)) with 3%nat. cbn [app take drop]. rewrite drop_0.
    rewrite take_app_le by (rewrite length_take; lia). by rewrite take_take.
  - change (immediate_offset (with_length _ insn')) with (immediate_offset insn'). rewrite Eio.
    unfold insn, apply_rex. destruct (_ =? 0); [done|]. by destruct (negb _).
Qed.

(** On the reference machine the bytes are that instruction. *)
Lemma rip_decodes op r d rest :
  op ∈ rip_opcodes -> 0 <= r < 16 -> - 2 ^ 31 <= d < 2 ^ 31 -> decode (rip_bytes op r d ++ rest) = Some (rip_meaning op r d, 7).
Proof.
  intros Hop Hr Hd. unfold rip_opcodes in Hop. rewrite !elem_of_cons, elem_of_nil in Hop.
  assert (Hmod : forall x, x = rip_modrm r -> x / 64 = 0 /\ (x / 8) mod 8 = r mod 8 /\ x mod 8 = 5).
  { intros x ->. unfold rip_modrm. assert (0 <= r mod 8 < 8) as Hk by (apply Z.mod_pos_bound; lia).
    apply (forallb_Zrange (fun k => ((8 * k + 5) / 64 =? 0) && (((8 * k + 5) / 8) mod 8 =? k) && ((8 * k + 5) mod 8 =? 5)) 0 8) in Hk;
      [lia|reflexivity]. }
  destruct (Hmod _ eq_refl) as (M1 & M2 & M3).
  assert (Hrr : ext (rR (rex_of (rip_rex r))) (r mod 8) = r /\ in_row 0x40 (rip_rex r) 16 = true /\ rW (rex_of (rip_rex r)) = true).
  { unfold rip_rex. destruct (Z.ltb_spec r 8); split; try done; cbn; [by rewrite Z.mod_small by lia|].
    rewrite <- (Z.mod_unique r 8 1 (r - 8)); lia. }
  destruct Hrr as (R1 & R2 & R3). unfold rip_bytes. rewrite <- app_assoc. cbn [app]. unfold decode. rewrite R2.
  assert (Hm : decode_modrm (rex_of (rip_rex r)) (rip_modrm r :: le_bytes 4 d ++ rest) = Some (r mod 8, RipRel d, 5)).
  { unfold decode_modrm. rewrite M1, M2, M3. cbn [Z.eqb Pos.eqb andb]. by rewrite disp32_decodes. }
  destruct Hop as [->|[->|[->|[]]]]; cbn -[decode_modrm rex_of le_bytes rip_modrm rip_rex]; rewrite R3; cbn -[decode_modrm rex_of le_bytes rip_modrm rip_rex]; rewrite Hm;
    cbn -[rex_of]; by rewrite R1.
Qed.

(** ** Relocation *)

(** What is written to the near block [N] for the instruction with operand at [dst]; [back] is where it returns to. *)
Definition rip_sequence (N op r dst back : Z) : list Z := rip_bytes op r (dst - (N + 7)) ++ jmp_absolute back.

Lemma length_rip_bytes op r d : length (rip_bytes op r d) = 7%nat.
Proof. unfold rip_bytes. rewrite length_app, length_le_bytes. done. Qed.

Lemma length_rip_sequence N op r dst back : length (rip_sequence N op r dst back) = 21%nat.
Proof. unfold rip_sequence, jmp_absolute. by rewrite !length_app, length_rip_bytes, length_le_bytes. Qed.

Lemma rip_bytes_ok op r d : op ∈ rip_opcodes -> 0 <= r < 16 -> bytes_ok (rip_bytes op r d).
Proof.
  intros Hop Hr. destruct (rip_row op r 0 Hop Hr) as (B1 & B2 & B3 & _). unfold rip_bytes.
  apply Forall_app. split; [|apply le_bytes_ok]. repeat constructor; apply B1 || apply B2 || apply B3.
Qed.

Lemma le_bytes_i32 x : le_bytes 4 (i32 x) = le_bytes 4 x.
Proof.
  rewrite <- (le_bytes_val (le_bytes 4 (i32 x))), <- (le_bytes_val (le_bytes 4 x)) by apply le_bytes_ok.
  rewrite !length_le_bytes, !le_val_bytes. change (8 * Z.of_nat 4) with 32. f_equal. by apply (wrap_sext 32).
Qed.

(** The sequence that is assembled for the near block. *)
Lemma rip_sequence_built op r head N dst back :
  take 3 head = [rip_rex r; op; rip_modrm r] -> op ∈ rip_opcodes -> 0 <= r < 16 ->
  exists b, membuffer_rep b (rip_sequence N op r dst back) /\
    (seq ← CodeMemBuffer.EmitBuffer MemBuffer_new (take 3 head);
     seq ← CodeMemBuffer.Emit 4 seq (i32 (dst - (N + 7)));
     codegen_x64_jmp_absolute_addr back seq) = Ret b.
Proof.
  intros Hh Hop Hr. destruct (rip_row op r 0 Hop Hr) as (B1 & B2 & B3 & _). rewrite Hh.
  assert (Ha : appends (fun b => b ← CodeMemBuffer.EmitBuffer b [rip_rex r; op; rip_modrm r];
      b ← CodeMemBuffer.Emit 4 b (i32 (dst - (N + 7))); codegen_x64_jmp_absolute_addr back b)
    ([rip_rex r; op; rip_modrm r] ++ le_bytes 4 (i32 (dst - (N + 7))) ++ jmp_absolute back)).
  { apply x64_appends_bind; [apply appends_buffer; repeat constructor; apply B1 || apply B2 || apply B3|].
    apply x64_appends_bind; [apply appends_emit|apply appends_jmp_absolute]. }
  destruct (Ha MemBuffer_new [] new_ok) as (b & E & Hrep); [simpl; unfold cb_limit; lia|].
  exists b. split; [|exact E]. rewrite le_bytes_i32 in Hrep. unfold rip_sequence, rip_bytes. by rewrite <- app_assoc.
Qed.

Lemma sext_wrap w z : sext w (wrap w z) = sext w z.
Proof. unfold sext, wrap. by rewrite Zmod_mod. Qed.

Lemma imm_at_le_bytes d rest : imm_at 4 (le_bytes 4 d ++ rest) = u32 d.
Proof. unfold imm_at. rewrite take_app_le, list.take_ge by (rewrite length_le_bytes; lia). apply (le_val_bytes 4). Qed.

Section Relocation.
Context (PageSize pk : Z).
Hypothesis page_size : PageSize = 2 ^ pk.
Hypothesis pk_range : 12 <= pk < 31.

(** Everything up to the patch of the block. *)
Lemma relocate_rip_emits A B op r d rest b l w blk w1 :
  let dst := u64 (A + 7 + d) in
  let seq := rip_sequence (addr blk) op r dst (u64 (B + 14)) in
  op ∈ rip_opcodes -> 0 <= r < 16 -> - 2 ^ 31 <= d < 2 ^ 31 -> bytes_ok rest -> (8 <= length rest)%nat ->
  alloc_near_code PageSize 21 dst (2 ^ 31) w = Ret (blk, w1) -> 0 <= addr blk -> addr blk + 7 < 2 ^ 64 ->
  membuffer_rep b l -> Z.of_nat (length l) + 14 <= cb_limit ->
  exists insn b', d_length insn = 7 /\ membuffer_rep b' (l ++ jmp_absolute (addr blk)) /\
    GenRelocateSingleX86Insn PageSize false A B (rip_bytes op r d ++ rest) b 64 w
      = ('(_, v) ← DobbyCodePatch PageSize (addr blk) seq (space (rw_core w1)); Ret (insn, b', with_core w1 (with_space (rw_core w1) v))).
Proof.
  intros dst seq Hop Hr Hd Hrest Hlr Halloc Hlo Hhi Hrep Hlim. unfold rip_bytes. rewrite <- app_assoc.
  destruct (decode_rip op r (le_bytes 4 d ++ rest) Hop Hr) as (insn & Edec & Eop & Ef & Eb & Edisp & Edo & Eio & Elen).
  { apply Forall_app. split; [apply le_bytes_ok|done]. } { rewrite length_app, length_le_bytes. lia. }
  unfold GenRelocateSingleX86Insn. change {| Decoder.mode := 64 |} with conf64. rewrite Edec. cbn [mbind outcome_bind].
  rewrite Eop, Ef, Eb, Elen.
  assert (Hno : (0x70 <=? op) && (op <=? 0x7F) = false).
  { unfold rip_opcodes in Hop. rewrite !elem_of_cons, elem_of_nil in Hop. lia. }
  rewrite Hno. change ((64 =? 64) && _ && _) with true. cbn iota. unfold relocate_rip, to_addr.
  rewrite Edisp, imm_at_le_bytes, !sext_wrap, sext_small, Elen, Edo, Eio, wrap_add_l by lia.
  change (u32 (7 + 6 + 8)) with 21. change (u32 (2 * 1024 * 1024 * 1024)) with (2 ^ 31). fold dst.
  rewrite Halloc. cbn [mbind outcome_bind].
  destruct (appends_emit 1 0xff b l Hrep) as (b0 & -> & H0); [simpl; lia|]. cbn [mbind outcome_bind].
  destruct (appends_emit 1 0x25 b0 _ H0) as (b1 & -> & H1); [rewrite length_app; simpl; lia|]. cbn [mbind outcome_bind].
  destruct (appends_emit 4 0 b1 _ H1) as (b2 & -> & H2); [rewrite !length_app; simpl; lia|]. cbn [mbind outcome_bind].
  destruct (appends_emit 8 (addr blk) b2 _ H2) as (b3 & -> & H3); [rewrite !length_app; simpl; lia|]. cbn [mbind outcome_bind].
  assert (Hlen : size b3 - size b = 14).
  { unfold size. rewrite (mb_size _ _ H3), (mb_size _ _ Hrep), !length_app, !length_le_bytes. lia. }
  rewrite Hlen. rewrite (wrap_small 64 (addr blk + 7)) by lia.
  destruct (rip_sequence_built op r ([rip_rex r; op; rip_modrm r] ++ le_bytes 4 d ++ rest) (addr blk) dst (u64 (B + 14)))
    as (sb & Hsb & Esb); [done|done|done|].
  change (negb (0 =? 0)) with false. cbn iota. change (Z.to_nat 3) with 3%nat.
  match goal with |- context [CodeMemBuffer.EmitBuffer MemBuffer_new ?x ≫= ?f] =>
    assert (Eq : CodeMemBuffer.EmitBuffer MemBuffer_new x ≫= f =
      (bytes ← (dup sb ≫= defined_bytes);
       '(_, v) ← DobbyCodePatch PageSize (addr blk) bytes (space (rw_core w1));
       Ret (b3, with_core w1 (with_space (rw_core w1) v)))) end.
  { destruct (CodeMemBuffer.EmitBuffer _ _) as [b4| |]; cbn [mbind outcome_bind] in *; [|done|done].
    destruct (CodeMemBuffer.Emit 4 b4 _) as [b5| |]; cbn [mbind outcome_bind] in *; [|done|done]. by rewrite Esb. }
  rewrite Eq, (dup_ok _ _ Hsb). cbn [mbind outcome_bind]. rewrite defined_bytes_ok. cbn [mbind outcome_bind].
  exists insn, b3. split; [done|]. split; [rewrite <- !app_assoc in H3; exact H3|].
  fold seq. by destruct (DobbyCodePatch PageSize (addr blk) seq (space (rw_core w1))) as [[? v]| |].
Qed.

(** ** Running it *)

Lemma rip_exec op r d d' A N s :
  op ∈ rip_opcodes -> 0 <= N -> N + 7 < 2 ^ 64 -> u64 (N + 7 + d') = u64 (A + 7 + d) ->
  exec (rip_meaning op r d') 7 (at_rip N s) = at_rip (N + 7) (exec (rip_meaning op r d) 7 (at_rip A s)).
Proof.
  intros Hop HN Hhi Hdst. unfold rip_opcodes in Hop. rewrite !elem_of_cons, elem_of_nil in Hop.
  destruct Hop as [->|[->|[->|[]]]]; unfold rip_meaning; cbn [Z.eqb Pos.eqb exec];
    unfold read_op, write_op, address; cbn [rip at_rip default]; rewrite !wrap_add_l, Hdst;
    unfold jump, set, write, at_rip; cbn [rip regs flags mem]; by rewrite wrap_wrap, (wrap_small 64 (N + 7)) by lia.
Qed.

(** The bytes a store through the operand leaves alone. *)
Definition store_misses (op dst lo hi : Z) : Prop := op = 0x89 -> forall x, lo <= x < hi -> 8 <= u64 (x - dst).

Lemma rip_exec_loaded op r d A s base l :
  op ∈ rip_opcodes -> store_misses op (u64 (A + 7 + d)) base (base + Z.of_nat (length l)) ->
  loaded (mem s) base l -> loaded (mem (exec (rip_meaning op r d) 7 (at_rip A s))) base l.
Proof.
  intros Hop Hmiss [Hlo Hhi Hb]. unfold rip_opcodes in Hop. rewrite !elem_of_cons, elem_of_nil in Hop.
  destruct Hop as [->|[->|[->|[]]]]; split; try done. intros i Hi. unfold rip_meaning. cbn [Z.eqb Pos.eqb exec].
  unfold write_op, address. cbn [rip at_rip jump write mem regs]. rewrite wrap_add_l. unfold store8.
  destruct (Z.ltb_spec (u64 (base + Z.of_nat i - u64 (A + 7 + d))) 8) as [Hlt|_]; [|by apply Hb].
  specialize (Hmiss eq_refl (base + Z.of_nat i) ltac:(lia)). lia.
Qed.

Lemma run_rip_sequence s P N op r A d :
  let dst := u64 (A + 7 + d) in
  op ∈ rip_opcodes -> 0 <= r < 16 -> - 2 ^ 31 <= dst - (N + 7) < 2 ^ 31 ->
  loaded (mem s) P (jmp_absolute N) -> loaded (mem s) N (rip_sequence N op r dst (u64 (P + 14))) ->
  store_misses op dst (N + 7) (N + 21) ->
  run 3 (at_rip P s) = Some (at_rip (P + 14) (exec (rip_meaning op r d) 7 (at_rip A s))).
Proof.
  intros dst Hop Hr Hd HP HN Hmiss. pose proof HP as [HP0 HP1 _]. pose proof HN as [HN0 HN1 _].
  rewrite length_rip_sequence in HN1. change (Z.of_nat (length (jmp_absolute N))) with 14 in HP1.
  apply loaded_app in HN as [Hi Hback]. rewrite length_rip_bytes in Hback. change (Z.of_nat 7) with 7 in Hback.
  cbn [run]. rewrite (run_jmp_absolute s P N HP), (wrap_small 64 N) by lia. cbn [mbind option_bind].
  rewrite (step_loaded (at_rip N s) _ (rip_meaning op r (dst - (N + 7))) 7 Hi);
    [|rewrite length_rip_bytes; lia|intros; by apply rip_decodes].
  cbn [mbind option_bind]. rewrite (rip_exec op r d _ A N s) by (done || lia || (unfold dst; rewrite Zplus_minus, wrap_wrap; done)).
  rewrite (run_jmp_absolute (exec (rip_meaning op r d) 7 (at_rip A s)) (N + 7) (u64 (P + 14))).
  - cbn [mbind option_bind]. by rewrite wrap_wrap, wrap_small by lia.
  - apply rip_exec_loaded; [done| |done]. change (Z.of_nat (length (jmp_absolute (u64 (P + 14))))) with 14.
    by replace (N + 7 + 14) with (N + 21) by lia.
Qed.

(** ** The theorem *)


End Relocation.

(** *** Witness: [mov rbx, [rip + 0x100]] at 0x90000000, with a hole between two regions to put the sequence into. *)

Definition rip_layout : list NearAllocator.MemRegion :=
  [{| NearAllocator.region := {| start_ := 0x80000000; rsize := 0x1000 |}; NearAllocator.perm := 5 |};
   {| NearAllocator.region := {| start_ := 0x80010000; rsize := 0x1000 |}; NearAllocator.perm := 5 |}].
Definition rip_world : relo_world :=
  {| rw_core := {| space := {| vm_mem := fun _ => 0; vm_prot := ∅; vm_answers := [] |}; gMemoryAllocator := MemoryAllocator_new |};
     exec_answers := []; near := NearAllocator.NearMemoryAllocator_new; near_handler := None;
     near_answers := [[{| NearAllocator.layout := rip_layout; NearAllocator.page_granted := true; NearAllocator.near_new := 1 |}]] |}.
Definition rip_world_near : relo_world :=
  match alloc_near_code 4096 21 0x90000107 (2 ^ 31) rip_world with Ret (_, w) => w | _ => rip_world end.

Lemma rip_world_allocates :
  alloc_near_code 4096 21 0x90000107 (2 ^ 31) rip_world = Ret ({| start_ := 0x80001000; rsize := 21 |}, rip_world_near).
Proof. vm_compute. reflexivity. Qed.

Lemma rip_world_patchable : patchable 4096 (space (rw_core rip_world_near)) 0x80001000 21.
Proof.
  split; [lia|]. split; [lia|]. split; [lia|]. intros a Ha.
  assert (E : forallb (fun x => page_has (space (rw_core rip_world_near)) PROT_READ (ALIGN_FLOOR x 4096)) (Zrange 0x80001000 21) = true)
    by (vm_compute; reflexivity).
  by apply (forallb_Zrange _ _ _ E).
Qed.

