(* ===== verification/X64Trampoline.v ===== *)
(** * The x64 trampoline (TrampolineBridge/Trampoline/trampoline_x64.cc)

    [jmp *(rip + disp32)] through a stub that the near allocator places within reach,
    or [mov rax, imm64; jmp rax] when it finds no room.  The stub is written while the
    trampoline is generated, so the address space is threaded through. *)

From stdpp Require Import gmap.
From S2P Require Import Prelude UtilityMacro CodeMemBuffer LinearAllocator CodePatch MemoryAllocator HookBlocks.
From S2P Require Import NearAllocator NearAllocatorSpec X64Machine X64Assembler X64Encoding X64Simulation.
#[local] Open Scope machine_scope.
#[local] Open Scope Z_scope.

Inductive trampoline_type_t := TRAMPOLINE_X64_JMP.

(** [buffer] is the duplicated code; the stub is owned by the trampoline. *)
Record Trampoline := { type : trampoline_type_t; buffer : list (option Z); owned_near_data_blocks : list MemRange }.

Section Trampoline.
Variable PageSize : Z.

(** [allocate_indirect_stub]; the empty block when nothing is near. *)
Definition allocate_indirect_stub (answers : list near_answer) (jmp_insn_addr : Z) (m : NearMemoryAllocator) (v : vm)
    : outcome (MemRange * NearMemoryAllocator * vm) :=
  let jmp_near_range := u32 (2 * 1024 * 1024 * 1024) in
  '(blk, m') ← allocNearDataBlock PageSize (vm_mem v) answers m 8 jmp_insn_addr jmp_near_range;
  let v := near_effect PageSize false m m' v in
  if start_ blk =? 0 then Ret (MemRange_empty, m', v) else Ret (blk, m', v).

Definition own_near_data_block (t : Trampoline) (block : MemRange) : Trampoline :=
  if negb (addr block =? 0) && negb (rsize block =? 0)
  then {| type := type t; buffer := buffer t; owned_near_data_blocks := owned_near_data_blocks t ++ [block] |}
  else t.

(** [GenerateNormalTrampolineBuffer(from, to)]. *)
Definition GenerateNormalTrampolineBuffer (answers : list near_answer) (from to : Z) (m : NearMemoryAllocator) (v : vm)
    : outcome (Trampoline * NearMemoryAllocator * vm) :=
  let turbo_assembler_ := AssemblerBase (Buf := MemBuffer) from in
  let jump_near_next_insn_addr := u64 (from + 6) in
  '(forward_stub_block, m, v) ← allocate_indirect_stub answers jump_near_next_insn_addr m v;
  let forward_stub := addr forward_stub_block in
  '(a, v) ←
    (if negb (forward_stub =? 0) then
       v ← memcpy_to PageSize v forward_stub (le_bytes 8 to);
       a ← JmpNearIndirect forward_stub turbo_assembler_;
       Ret (a, v)
     else
       a ← mov_reg_imm rax (Immediate_sized (i64 to) 64) turbo_assembler_;
       a ← EmitOpcode 0xff a;
       a ← EmitModRM 3 0x4 (low_bits rax) a;
       Ret (a, v));
  tramp_block ← dup (code_buffer_ a);
  let tramp := {| type := TRAMPOLINE_X64_JMP; buffer := tramp_block; owned_near_data_blocks := [] |} in
  let tramp := if negb (addr forward_stub_block =? 0) then own_near_data_block tramp forward_stub_block else tramp in
  Ret (tramp, m, v).

(** [GenerateNearTrampolineBuffer]: there is no near variant. *)
Definition GenerateNearTrampolineBuffer (src dst : Z) : option Trampoline := None.

End Trampoline.

(** ** What it does *)

Lemma jmp_indirect_ok stub (a : AssemblerT MemBuffer) :
  membuffer_rep (code_buffer_ a) [] ->
  exists b, JmpNearIndirect stub a = Ret (with_buffer a b) /\
    membuffer_rep b ([0xff; 0x25] ++ le_bytes 4 (i32 (stub - u64 (u64 (fixed_addr a) + 6)))).
Proof.
  intros Hrep. unfold JmpNearIndirect, CurrentIP. rewrite (buffer_offset a [] Hrep). simpl (Z.of_nat (length [])).
  rewrite Z.add_0_l. set (off := i32 _).
  pose proof (emits_bind (Buf := MemBuffer) _ _ _ _ (emits_le 1 0xff)
    (emits_bind _ _ _ _ (emits_le 1 0x25) (emits_le 4 off))) as He.
  destruct (He a [] Hrep) as (b & E & Hr); [simpl; unfold cb_limit; lia|]. exists b. by split.
Qed.

Lemma run_jmp_indirect s from stub to :
  0 <= from < 2 ^ 64 -> 0 <= stub < 2 ^ 64 -> 0 <= to < 2 ^ 64 -> - 2 ^ 31 <= stub - (from + 6) < 2 ^ 31 ->
  loaded (mem s) from ([0xff; 0x25] ++ le_bytes 4 (stub - (from + 6))) -> loaded (mem s) stub (le_bytes 8 to) ->
  step (at_rip from s) = Some (at_rip to s).
Proof.
  intros Hf Hst Hto Hd Hl Hdata. pose proof Hl as [_ Hhi _]. cbn [length app] in Hhi. rewrite length_le_bytes in Hhi.
  rewrite (step_loaded (at_rip from s) _ (JMP_rm (RipRel (stub - (from + 6)))) 6 Hl).
  - cbn [exec read_op address rip mem at_rip]. rewrite wrap_add_l.
    replace (from + 6 + (stub - (from + 6))) with stub by lia. rewrite wrap_small by lia.
    pose proof (x64_load_loaded _ _ _ Hdata) as E. rewrite length_le_bytes, le_val_bytes in E. rewrite E.
    rewrite Z.mod_small by (simpl; lia). unfold jump, at_rip. by rewrite wrap_small by lia.
  - cbn [length app]. rewrite length_le_bytes. lia.
  - intros rest. rewrite <- app_assoc. cbn [app]. unfold decode, in_row. cbn -[decode_modrm le_bytes].
    unfold decode_modrm. cbn -[simm le_bytes]. by rewrite disp32_decodes.
Qed.

Definition far_bytes (to : Z) : list Z := [0x48; 0xb8] ++ le_bytes 8 to ++ [0xff; 0xe0].

Lemma le_bytes_i64 to : le_bytes 8 (i64 to) = le_bytes 8 to.
Proof.
  rewrite <- (le_bytes_val (le_bytes 8 (i64 to))), <- (le_bytes_val (le_bytes 8 to)) by apply le_bytes_ok.
  rewrite !length_le_bytes, !le_val_bytes. change (8 * Z.of_nat 8) with 64. f_equal. by apply (wrap_sext 64).
Qed.

Lemma far_jump_ok to (a : AssemblerT MemBuffer) :
  membuffer_rep (code_buffer_ a) [] ->
  exists b, (a ← mov_reg_imm rax (Immediate_sized (i64 to) 64) a; a ← EmitOpcode 0xff a; EmitModRM 3 0x4 (low_bits rax) a)
    = Ret (with_buffer a b) /\ membuffer_rep b (far_bytes to).
Proof.
  intros Hrep.
  assert (He : emits (Buf := MemBuffer)
    (fun a => a ← mov_reg_imm rax (Immediate_sized (i64 to) 64) a; a ← EmitOpcode 0xff a; EmitModRM 3 0x4 (low_bits rax) a)
    (([0x48] ++ [0xb8 + 0 mod 8] ++ le_bytes 8 (i64 to)) ++ [0xff] ++ [0xe0])).
  { apply emits_bind; [apply emits_bind; [by apply emits_rex_pos|]|apply emits_bind; [by apply emits_Emit1|by apply emits_Emit1]].
    apply emits_bind; [by apply (opcode_register 0xb8 0)|apply (emits_le 8)]. }
  destruct (He a [] Hrep) as (b & E & Hr); [simpl; unfold cb_limit; lia|].
  exists b. split; [exact E|]. rewrite le_bytes_i64 in Hr. unfold far_bytes.
  rewrite <- !app_assoc in Hr. exact Hr.
Qed.

Lemma run_far_jump s from to :
  0 <= to < 2 ^ 64 -> loaded (mem s) from (far_bytes to) ->
  run 2 (at_rip from s) = Some (at_rip to (set 0 to s)).
Proof.
  intros Hto Hl. pose proof Hl as [Hlo Hhi _]. unfold far_bytes in *.
  rewrite app_assoc in Hl. apply loaded_app in Hl as [Hm Hj].
  rewrite !length_app, !length_le_bytes in *. cbn [length Nat.add] in *.
  assert (Hmov : step (at_rip from s) = Some (at_rip (from + 10) (set 0 to s))).
  { rewrite (step_loaded (at_rip from s) _ (MOV_imm 0 (u64 to)) 10 Hm).
    - cbn [exec rip at_rip]. unfold jump, at_rip, set. cbn [regs flags mem rip].
      by rewrite wrap_wrap, (wrap_small 64 (from + 10)), (wrap_small 64 to) by lia.
    - cbn [length app]. rewrite length_le_bytes. lia.
    - intros rest. rewrite <- app_assoc. cbn [app]. unfold decode, in_row. cbn -[imm_at le_bytes].
      unfold imm_at. by rewrite take_app_le, list.take_ge, le_val_bytes by (rewrite length_le_bytes; lia). }
  cbn [run]. rewrite Hmov. cbn [mbind option_bind].
  rewrite (step_loaded (at_rip (from + 10) (set 0 to s)) [0xff; 0xe0] (JMP_rm (Reg 0)) 2 Hj) by (simpl; done || lia).
  cbn [mbind option_bind exec read_op at_rip regs set]. unfold jump, at_rip. cbn [regs flags mem rip set Z.eqb].
  by rewrite wrap_small by lia.
Qed.

(** ** Properties *)

(** C29: The trampoline reaches its target.  Whatever the near allocator answers, [GenerateNormalTrampolineBuffer]
    returns.  With a stub, the trampoline is one indirect jump of six bytes, the stub is within reach of its 32-bit
    displacement and holds the target, it is owned by the trampoline, and the jump changes nothing but the
    instruction pointer.  Without one the trampoline has twelve bytes, ends at the same target and overwrites rax. *)
Theorem x64_trampoline_jumps PageSize pk answers from to m v b m1 :
  PageSize = 2 ^ pk -> 12 <= pk < 31 -> near_ok m -> 2 ^ 31 + PageSize <= from ->
  from + 2 ^ 31 + 2 * PageSize + 6 < 2 ^ 64 -> 0 <= to < 2 ^ 64 ->
  allocNearDataBlock PageSize (vm_mem v) answers m 8 (from + 6) (2 ^ 31) = Ret (b, m1) ->
  (addr b <> 0 -> bytes_have PageSize (near_effect PageSize false m m1 v) PROT_WRITE (addr b) 8 = true) ->
  exists t v' bytes, GenerateNormalTrampolineBuffer PageSize answers from to m v = Ret (t, m1, v') /\
    buffer t = map Some bytes /\ near_ok m1 /\
    if addr b =? 0 then
      owned_near_data_blocks t = [] /\ length bytes = 12%nat /\
      forall s, loaded (mem s) from bytes -> run 2 (at_rip from s) = Some (at_rip to (set 0 to s))
    else
      owned_near_data_blocks t = [b] /\ length bytes = 6%nat /\ loaded (vm_mem v') (addr b) (le_bytes 8 to) /\
      forall s, loaded (mem s) from bytes -> loaded (mem s) (addr b) (le_bytes 8 to) ->
        step (at_rip from s) = Some (at_rip to s).
Proof.
  intros Hps Hpk Hm Hlo Hhi Hto E Hw. pose proof (near_page_range PageSize pk Hps Hpk).
  destruct (near_data_reach PageSize pk (vm_mem v) Hps Hpk answers m 8 (from + 6) b m1) as [Hm1 Hb]; try done; try lia.
  unfold GenerateNormalTrampolineBuffer, allocate_indirect_stub. rewrite (wrap_small 64 (from + 6)) by lia.
  change (u32 (2 * 1024 * 1024 * 1024)) with (2 ^ 31). rewrite E. cbn [mbind outcome_bind].
  change (start_ b) with (addr b). destruct (Z.eqb_spec (addr b) 0) as [E0|E0].
  - cbn [mbind outcome_bind addr start_ MemRange_empty Z.eqb negb].
    pose proof (far_jump_ok to (AssemblerBase from)) as Hfar. destruct (Hfar new_ok) as (buf & Ef & Hr).
    assert (Ef' : (a ← mov_reg_imm rax (Immediate_sized (i64 to) 64) (AssemblerBase (Buf := MemBuffer) from); a ← EmitOpcode 0xff a;
      a ← EmitModRM 3 0x4 (low_bits rax) a; Ret (a, near_effect PageSize false m m1 v)) =
      Ret (with_buffer (AssemblerBase (Buf := MemBuffer) from) buf, near_effect PageSize false m m1 v)).
    { revert Ef. unfold mbind, outcome_bind. repeat (case_match; simplify_eq; try done). by intros [= ->]. }
    rewrite Ef'. cbn [mbind outcome_bind code_buffer_ with_buffer]. rewrite (dup_ok _ _ Hr). cbn [mbind outcome_bind].
    do 3 eexists. split; [reflexivity|]. split; [reflexivity|]. split; [done|]. split; [done|].
    split; [unfold far_bytes; by rewrite !length_app, length_le_bytes|]. intros s. by apply run_far_jump.
  - destruct Hb as [->|(Hrs & Hpos & Hreach)]; [done|]. cbn [mbind outcome_bind].
    replace (addr b =? 0) with false by lia. cbn [negb]. unfold memcpy_to. rewrite length_le_bytes, Hw by done.
    cbn [mbind outcome_bind]. pose proof (jmp_indirect_ok (addr b) (AssemblerBase from)) as Hj.
    destruct (Hj new_ok) as (buf & Ej & Hr).
    rewrite Ej. cbn [mbind outcome_bind code_buffer_ with_buffer]. rewrite (dup_ok _ _ Hr). cbn [mbind outcome_bind].
    do 3 eexists. split; [reflexivity|]. split; [unfold own_near_data_block; by case_match|]. split; [done|].
    unfold own_near_data_block. replace (addr b =? 0) with false by lia. rewrite Hrs. cbn [negb andb Z.eqb].
    split; [done|]. split; [by rewrite length_app, length_le_bytes|]. split.
    + split; [lia|rewrite length_le_bytes; lia|]. intros i Hi. cbn [vm_mem set_mem]. by apply patch_mem_in.
    + intros s Hl Hd. cbn [fixed_addr AssemblerBase] in Hl.
      rewrite (wrap_small 64 from), (wrap_small 64 (from + 6)), sext_small in Hl by lia.
      apply (run_jmp_indirect s from (addr b) to); done || lia.
Qed.

(** A hole between two regions, within reach. *)
Definition sample_layout : list MemRegion :=
  [{| region := {| start_ := 0x80000000; rsize := 0x1000 |}; perm := 5 |};
   {| region := {| start_ := 0x80010000; rsize := 0x1000 |}; perm := 5 |}].
Definition sample_near : list near_answer := repeat {| layout := sample_layout; page_granted := true; near_new := 1 |} 1.
Definition empty_vm : vm := {| vm_mem := fun _ => 0; vm_prot := ∅; vm_answers := [] |}.
Definition near_after : NearMemoryAllocator :=
  {| code_page_allocators := []; data_page_allocators := [1];
     page_records := [{| p_allocator := 1; p_page := 0x80001000; p_exec := false; p_owned := true |}];
     allocation_records := [{| r_addr := 0x80001000; r_size := 8; r_page := 0x80001000; r_exec := false; r_free := false;
                               r_owned := true |}];
     heap := {[1 := {| LinearAllocator.buffer := 0x80001000; size := 8; capacity := 4096; builtin_alignment := 8 |}]} |}.

Example x64_trampoline_jumps_witness :
  exists t v' bytes,
    GenerateNormalTrampolineBuffer 4096 sample_near 0x90000000 0x7fff12345678 NearMemoryAllocator_new empty_vm = Ret (t, near_after, v') /\
    buffer t = map Some bytes /\ length bytes = 6%nat /\ loaded (vm_mem v') 0x80001000 (le_bytes 8 0x7fff12345678).
Proof.
  destruct (x64_trampoline_jumps 4096 12 sample_near 0x90000000 0x7fff12345678 NearMemoryAllocator_new empty_vm
    {| start_ := 0x80001000; rsize := 8 |} near_after) as (t & v' & bytes & E & Eb & _ & _ & Hl & Hs & _).
  - reflexivity.
  - lia.
  - intros [] i Hi; by apply elem_of_nil in Hi.
  - lia.
  - lia.
  - lia.
  - vm_compute. reflexivity.
  - intros _. vm_compute. reflexivity.
  - exists t, v', bytes. split; [exact E|]. split; [exact Eb|]. split; [exact Hl|exact Hs].
Defined.
