(* ===== verification/LinearBlocks.v ===== *)
(** * The block allocator (common/linear_allocator.h, [linear_allocator_t])

    Blocks with in-band headers tile a buffer: a magic word, the size of the data, the
    data.  The memory is a function from addresses to 32-bit words ([words]); every
    header lies on a word boundary.  The abstract state is the list of blocks, used or
    free, with their sizes; [tiled] says that the headers in memory are that list. *)

From S2P Require Import Prelude UtilityMacro.
#[local] Open Scope machine_scope.
#[local] Open Scope Z_scope.

Definition MEM_BLOCK_USED_MAGIC : Z := 0xdeadbeef + 1.
Definition MEM_BLOCK_FREE_MAGIC : Z := 0xdeadbeef + 2.

(** ** mem_block_t *)

Definition words := Z -> Z.
Definition set_word (m : words) (a v : Z) : words := fun x => if x =? a then v else m x.

Definition sizeof_mem_block_t : Z := 8.
Definition magic (m : words) (block : Z) : Z := m block.
Definition data_size (m : words) (block : Z) : Z := m (block + 4).
Definition data (block : Z) : Z := block + 8.
Definition block_size (m : words) (block : Z) : Z := u32 (sizeof_mem_block_t + data_size m block).
Definition mark_used (block : Z) (m : words) : words := set_word m block MEM_BLOCK_USED_MAGIC.
Definition mark_freed (block : Z) (m : words) : words := set_word m block MEM_BLOCK_FREE_MAGIC.
Definition is_used (m : words) (block : Z) : bool := magic m block =? MEM_BLOCK_USED_MAGIC.
Definition is_freed (m : words) (block : Z) : bool := magic m block =? MEM_BLOCK_FREE_MAGIC.
Definition next_block (m : words) (block : Z) : Z := u64 (data block + data_size m block).
Definition reset_block (block : Z) (m : words) : words := set_word (set_word m block 0) (block + 4) 0.
Definition create (mg cursor in_data_size : Z) (m : words) : words :=
  set_word (set_word m cursor mg) (cursor + 4) in_data_size.
Definition create_free_block : Z -> Z -> words -> words := create MEM_BLOCK_FREE_MAGIC.
Definition create_used_block : Z -> Z -> words -> words := create MEM_BLOCK_USED_MAGIC.
Definition with_buf (buf : Z) : Z := u64 (buf - sizeof_mem_block_t).

Definition try_split (block truncated_size : Z) (m : words) : outcome words :=
  if negb (magic m block =? MEM_BLOCK_FREE_MAGIC) then Ret m
  else if data_size m block <=? truncated_size then Ret m
  else
    let next_block_cursor := u64 (data block + truncated_size) in
    let next_block_size := u32 (data_size m block - truncated_size) in
    let next_data_size := u32 (next_block_size - sizeof_mem_block_t) in
    if negb (next_data_size mod sizeof_mem_block_t =? 0) then Fatal
    else
      let m := create_free_block next_block_cursor next_data_size m in
      Ret (set_word m (block + 4) truncated_size).

Definition try_merge_next (block : Z) (m : words) : words :=
  if negb (magic m block =? MEM_BLOCK_FREE_MAGIC) then m
  else
    let next_blk := next_block m block in
    if negb (is_freed m next_blk) then m
    else
      let m := set_word m (block + 4) (u32 (data_size m block + block_size m next_blk)) in
      reset_block next_blk m.

Definition free_block (block : Z) (m : words) : words := try_merge_next block (mark_freed block m).

(** ** linear_allocator_t *)

Record linear_allocator_t := {
  buffer : Z;
  buffer_size : Z;
  is_free_blocks_merged : bool;
  memory : words;
}.

Definition set_memory (la : linear_allocator_t) (merged : bool) (m : words) : linear_allocator_t :=
  {| buffer := buffer la; buffer_size := buffer_size la; is_free_blocks_merged := merged; memory := m |}.
Definition buffer_end (la : linear_allocator_t) : Z := u64 (buffer la + buffer_size la).

Definition init (in_buffer in_buffer_size : Z) (m : words) : linear_allocator_t :=
  {| buffer := in_buffer; buffer_size := in_buffer_size; is_free_blocks_merged := true;
     memory := create_free_block in_buffer (u32 (in_buffer_size - sizeof_mem_block_t)) m |}.

(** The loops advance by at least a header, so the size of the buffer bounds them. *)
Fixpoint merge_loop (fuel : nat) (cursor fin : Z) (m : words) : outcome words :=
  if cursor <? fin then
    match fuel with
    | O => UB
    | S fuel =>
        let m := try_merge_next cursor m in
        merge_loop fuel (u64 (cursor + block_size m cursor)) fin m
    end
  else Ret m.

Definition try_merge_free_blocks (la : linear_allocator_t) : outcome words :=
  merge_loop (Z.to_nat (buffer_size la)) (buffer la) (buffer_end la) (memory la).

Fixpoint find_loop (fuel : nat) (cursor fin in_data_size : Z) (m : words) : outcome (option Z) :=
  if cursor <? fin then
    match fuel with
    | O => UB
    | S fuel =>
        if (magic m cursor =? MEM_BLOCK_FREE_MAGIC) && (in_data_size <=? data_size m cursor) then Ret (Some cursor)
        else find_loop fuel (u64 (cursor + block_size m cursor)) fin in_data_size m
    end
  else Ret None.

(** [depth] bounds the recursion; [None] is [nullptr]. *)
Fixpoint alloc (depth : nat) (la : linear_allocator_t) (in_data_size : Z) : outcome (option Z * linear_allocator_t) :=
  let in_data_size := u32 (ALIGN_CEIL in_data_size sizeof_mem_block_t) in
  freed_blk ← find_loop (Z.to_nat (buffer_size la)) (buffer la) (buffer_end la) in_data_size (memory la);
  match freed_blk with
  | Some block =>
      m ← try_split block in_data_size (memory la);
      Ret (Some (data block), set_memory la (is_free_blocks_merged la) (mark_used block m))
  | None =>
      if negb (is_free_blocks_merged la) then Ret (None, la)
      else
        m ← try_merge_free_blocks la;
        match depth with
        | O => UB
        | S depth => alloc depth (set_memory la true m) in_data_size
        end
  end.

Definition free (la : linear_allocator_t) (buf : Z) : linear_allocator_t :=
  if buf =? 0 then la
  else
    let block := with_buf buf in
    if negb (is_used (memory la) block) then la
    else set_memory la false (free_block block (memory la)).

(** ** The abstract state *)

(** A block: used or free, and the size of its data. *)
Definition blk : Type := bool * Z.
Definition magic_of (used : bool) : Z := if used then MEM_BLOCK_USED_MAGIC else MEM_BLOCK_FREE_MAGIC.
Definition span (l : list blk) : Z := foldr (fun b n => 8 + snd b + n) 0 l.

(** The headers of [l] are in memory from [p] on, and the sizes are multiples of 8. *)
Fixpoint tiled (m : words) (p : Z) (l : list blk) : Prop :=
  match l with
  | [] => True
  | (u, sz) :: l => m p = magic_of u /\ m (p + 4) = sz /\ 0 <= sz /\ sz mod 8 = 0 /\ tiled m (p + 8 + sz) l
  end.

(** The buffer is tiled by [l]. *)
Record la_ok (la : linear_allocator_t) (l : list blk) : Prop := {
  lo_buffer : 0 < buffer la;
  lo_span : span l = buffer_size la;
  lo_size : 0 < buffer_size la < 2 ^ 32;
  lo_end : buffer la + buffer_size la + 8 < 2 ^ 64;
  lo_tiled : tiled (memory la) (buffer la) l;
}.

Lemma span_app l1 l2 : span (l1 ++ l2) = span l1 + span l2.
Proof. induction l1 as [|b l1 IH]; [done|]. unfold span in *. cbn. lia. Qed.

Lemma tiled_nonneg m p l : tiled m p l -> 0 <= span l.
Proof.
  revert p. induction l as [|[u sz] l IH]; intros p H; [done|]. destruct H as (_ & _ & H0 & _ & H).
  specialize (IH _ H). unfold span in *. cbn. lia.
Qed.

Lemma tiled_app m p l1 l2 : tiled m p (l1 ++ l2) <-> tiled m p l1 /\ tiled m (p + span l1) l2.
Proof.
  revert p. induction l1 as [|[u sz] l1 IH]; intros p; cbn [app tiled].
  - change (span []) with 0. rewrite Z.add_0_r. tauto.
  - rewrite IH. change (span ((u, sz) :: l1)) with (8 + sz + span l1).
    replace (p + (8 + sz + span l1)) with (p + 8 + sz + span l1) by lia. tauto.
Qed.

Lemma tiled_ext m m' p l :
  tiled m p l -> (forall a, p <= a < p + span l -> m' a = m a) -> tiled m' p l.
Proof.
  revert p. induction l as [|[u sz] l IH]; intros p H Hm; [done|]. destruct H as (E1 & E2 & H0 & H8 & H).
  pose proof (tiled_nonneg _ _ _ H) as Hs. change (span ((u, sz) :: l)) with (8 + sz + span l) in Hm.
  cbn [tiled]. rewrite !Hm by lia. split; [done|]. split; [done|]. split; [done|]. split; [done|].
  apply IH; [done|]. intros a Ha. apply Hm. lia.
Qed.

(** ** Finding a block *)

Definition fits (n : Z) (b : blk) : bool := negb (fst b) && (n <=? snd b).

(** The blocks before the first one that fits, its size, and the blocks behind it. *)
Fixpoint first_fit (n : Z) (l : list blk) : option (list blk * Z * list blk) :=
  match l with
  | [] => None
  | b :: l =>
      if fits n b then Some ([], snd b, l)
      else '(l1, sz, l2) ← first_fit n l; Some (b :: l1, sz, l2)
  end.

Lemma first_fit_Some n l l1 sz l2 :
  first_fit n l = Some (l1, sz, l2) -> l = l1 ++ (false, sz) :: l2 /\ n <= sz /\ existsb (fits n) l1 = false.
Proof.
  revert l1. induction l as [|[u s] l IH]; intros l1; cbn [first_fit]; [done|].
  destruct (fits n (u, s)) eqn:E.
  - intros [= <- <- <-]. unfold fits in E. destruct u; [done|]. cbn in *. split; [done|]. split; [lia|done].
  - destruct (first_fit n l) as [[[l1' sz'] l2']|]; [|done]. cbn. intros [= <- <- <-].
    destruct (IH l1' eq_refl) as (-> & Hn & Hx). split; [done|]. split; [done|]. cbn [existsb]. by rewrite E, Hx.
Qed.

Lemma magic_of_free u : (magic_of u =? MEM_BLOCK_FREE_MAGIC) = negb u.
Proof. by destruct u. Qed.

Lemma block_size_tiled m p u sz l :
  tiled m p ((u, sz) :: l) -> span ((u, sz) :: l) < 2 ^ 32 -> block_size m p = 8 + sz.
Proof.
  intros (_ & E & H0 & _ & H) Hs. pose proof (tiled_nonneg _ _ _ H). unfold block_size, data_size, span in *.
  rewrite E. apply wrap_small. unfold sizeof_mem_block_t. cbn in Hs. lia.
Qed.

Lemma find_loop_ok m n : forall l p fuel,
  tiled m p l -> 0 <= p -> p + span l < 2 ^ 64 -> span l < 2 ^ 32 -> (length l <= fuel)%nat ->
  find_loop fuel p (p + span l) n m =
    Ret (match first_fit n l with Some (l1, _, _) => Some (p + span l1) | None => None end).
Proof.
  induction l as [|[u sz] l IH]; intros p fuel Ht Hp Hfin Hs Hf.
  - change (span []) with 0. rewrite Z.add_0_r. destruct fuel; cbn [find_loop first_fit]; by rewrite Z.ltb_irrefl.
  - destruct fuel as [|fuel]; [cbn in Hf; lia|]. pose proof (block_size_tiled _ _ _ _ _ Ht Hs) as Eb.
    pose proof Ht as (E1 & E2 & H0 & _ & Ht'). pose proof (tiled_nonneg _ _ _ Ht') as Hn.
    change (span ((u, sz) :: l)) with (8 + sz + span l) in *. cbn [find_loop first_fit].
    replace (p <? p + (8 + sz + span l)) with true by lia.
    unfold magic, data_size. rewrite E1, E2, magic_of_free. unfold fits at 1. cbn [fst snd].
    destruct (negb u && (n <=? sz)); [by rewrite Z.add_0_r|]. rewrite Eb, (wrap_small 64) by lia.
    replace (p + (8 + sz)) with (p + 8 + sz) by lia. replace (p + (8 + sz + span l)) with (p + 8 + sz + span l) by lia.
    rewrite IH by (done || lia || (cbn in Hf; lia)).
    destruct (first_fit n l) as [[[l1 s] l2]|]; [|done]. cbn [mbind option_bind].
    change (span ((u, sz) :: l1)) with (8 + sz + span l1). do 2 f_equal. lia.
Qed.

Lemma blocks_fuel m p l : tiled m p l -> Z.of_nat (length l) <= span l.
Proof.
  revert p. induction l as [|[u sz] l IH]; intros p Ht; [done|]. destruct Ht as (_ & _ & H0 & _ & Ht).
  specialize (IH _ Ht). change (span ((u, sz) :: l)) with (8 + sz + span l). cbn [length]. lia.
Qed.

Lemma la_find la l n :
  la_ok la l ->
  find_loop (Z.to_nat (buffer_size la)) (buffer la) (buffer_end la) n (memory la) =
    Ret (match first_fit n l with Some (l1, _, _) => Some (buffer la + span l1) | None => None end).
Proof.
  intros [Hb Hs Hsz Hend Ht]. unfold buffer_end. pose proof (blocks_fuel _ _ _ Ht).
  rewrite wrap_small by lia. rewrite <- Hs in *. apply find_loop_ok; done || lia.
Qed.

(** ** Allocation *)

Definition aligned8 (n : Z) : Z := n + (- n) mod 8.

Lemma aligned8_facts n : 0 <= n -> aligned8 n mod 8 = 0 /\ n <= aligned8 n < n + 8.
Proof.
  intros Hn. unfold aligned8. pose proof (Z.mod_pos_bound (- n) 8 ltac:(lia)). split; [|lia].
  rewrite Zplus_mod_idemp_r. by replace (n + - n) with 0 by lia.
Qed.

Lemma request_aligned n : 0 <= n < 2 ^ 31 -> u32 (ALIGN_CEIL n sizeof_mem_block_t) = aligned8 n.
Proof.
  intros Hn. change sizeof_mem_block_t with (2 ^ 3). rewrite ALIGN_CEIL_alt by lia.
  change (2 ^ 3) with 8. pose proof (aligned8_facts n ltac:(lia)). fold (aligned8 n). apply wrap_small. lia.
Qed.

(** What splitting leaves behind the block. *)
Definition remainder (n sz : Z) : list blk := if n <? sz then [(false, sz - n - 8)] else [].

Lemma set_word_other m a v x : x <> a -> set_word m a v x = m x.
Proof. intros H. unfold set_word. by destruct (Z.eqb_spec x a). Qed.
Lemma set_word_same m a v : set_word m a v a = v.
Proof. unfold set_word. by rewrite Z.eqb_refl. Qed.

(** Turning the free block at [p] into a used one of [n] bytes. *)
Lemma take_block m p n sz l :
  tiled m p ((false, sz) :: l) -> 0 <= n <= sz -> n mod 8 = 0 -> 0 <= p -> p + span ((false, sz) :: l) + 8 < 2 ^ 64 ->
  span ((false, sz) :: l) < 2 ^ 32 ->
  exists m', try_split p n m = Ret m' /\ tiled (mark_used p m') p ((true, n) :: remainder n sz ++ l) /\
    span ((true, n) :: remainder n sz ++ l) = span ((false, sz) :: l) /\
    forall a, a < p \/ p + 8 + sz <= a -> mark_used p m' a = m a.
Proof.
  intros (E1 & E2 & H0 & H8 & Ht) Hn Hn8 Hp Hfin Hs. pose proof (tiled_nonneg _ _ _ Ht) as Hl.
  change (span ((false, sz) :: l)) with (8 + sz + span l) in *. unfold try_split, magic, data_size, mark_used.
  rewrite E1, E2. cbn [magic_of negb Z.eqb]. rewrite Z.eqb_refl. cbn [negb]. unfold remainder.
  destruct (Z.leb_spec sz n) as [Hle|Hlt].
  - assert (n = sz) as -> by lia. rewrite Z.ltb_irrefl. cbn [app]. eexists. split; [reflexivity|]. split; [|split; [done|]].
    + cbn [tiled]. rewrite set_word_same, set_word_other by lia. split; [done|]. split; [done|]. split; [done|].
      split; [done|]. eapply tiled_ext; [exact Ht|]. intros a Ha. apply set_word_other. lia.
    + intros a Ha. apply set_word_other. lia.
  - replace (n <? sz) with true by lia. assert (Hd : 8 <= sz - n).
    { apply Z.mod_divide in H8 as [q ->]; [|lia]. apply Z.mod_divide in Hn8 as [q' ->]; [|lia]. lia. }
    unfold sizeof_mem_block_t, data. rewrite (wrap_small 64 (p + 8 + n)), (wrap_small 32 (sz - n)), (wrap_small 32 (sz - n - 8)) by lia.
    assert (Hr8 : (sz - n - 8) mod 8 = 0).
    { apply Z.mod_divide; [lia|]. apply Z.mod_divide in H8 as [q Hq]; [|lia]. apply Z.mod_divide in Hn8 as [q' Hq']; [|lia].
      exists (q - q' - 1). lia. }
    rewrite Hr8. cbn [Z.eqb negb]. eexists. split; [reflexivity|]. unfold create_free_block, create. split; [|split].
    + cbn [app tiled]. rewrite set_word_same. rewrite (set_word_other _ p _ (p + 4)) by lia. rewrite set_word_same.
      split; [done|]. split; [done|]. split; [lia|]. split; [done|].
      rewrite !(set_word_other _ _ _ (p + 8 + n)) by lia. rewrite set_word_same.
      rewrite !(set_word_other _ _ _ (p + 8 + n + 4)) by lia. rewrite set_word_same.
      split; [done|]. split; [done|]. split; [lia|]. split; [done|].
      replace (p + 8 + n + 8 + (sz - n - 8)) with (p + 8 + sz) by lia. eapply tiled_ext; [exact Ht|].
      intros a Ha. rewrite !set_word_other by lia. done.
    + change (span ((true, n) :: [(false, sz - n - 8)] ++ l)) with (8 + n + (8 + (sz - n - 8) + span l)). lia.
    + intros a Ha. rewrite !set_word_other by lia. done.
Qed.

(** The blocks in use keep their data: memory is the same on them. *)
Definition same_outside (la la' : linear_allocator_t) (lo hi : Z) : Prop :=
  forall a, a < lo \/ hi <= a -> memory la' a = memory la a.

Lemma la_ok_replace la l1 old new l2 m merged :
  la_ok la (l1 ++ old ++ l2) -> span new = span old ->
  tiled m (buffer la + span l1) (new ++ l2) ->
  (forall a, a < buffer la + span l1 -> m a = memory la a) ->
  la_ok (set_memory la merged m) (l1 ++ new ++ l2).
Proof.
  intros [Hb Hs Hsz Hend Ht] Hspan Hnew Hout. split; cbn [buffer buffer_size memory set_memory]; try done.
  - rewrite <- Hs, !span_app. lia.
  - apply tiled_app in Ht as [Ht1 _]. apply tiled_app. split; [|done].
    eapply tiled_ext; [exact Ht1|]. intros a Ha. apply Hout. lia.
Qed.

Lemma alloc_fits depth la l n l1 sz l2 :
  la_ok la l -> 0 <= n < 2 ^ 31 -> first_fit (aligned8 n) l = Some (l1, sz, l2) ->
  let p := buffer la + span l1 in
  exists la', alloc depth la n = Ret (Some (data p), la') /\
    la_ok la' (l1 ++ ((true, aligned8 n) :: remainder (aligned8 n) sz) ++ l2) /\
    same_outside la la' p (p + 8 + sz) /\ is_free_blocks_merged la' = is_free_blocks_merged la /\
    buffer_end la' = buffer_end la.
Proof.
  intros Hok Hn Hff p. destruct (first_fit_Some _ _ _ _ _ Hff) as (-> & Hle & _).
  pose proof Hok as [Hb Hs Hsz Hend Ht]. pose proof (aligned8_facts n ltac:(lia)) as [H8 Hr].
  apply tiled_app in Ht as [Ht1 Ht2]. pose proof (tiled_nonneg _ _ _ Ht1) as H1. rewrite span_app in Hs.
  destruct (take_block (memory la) p (aligned8 n) sz l2 Ht2) as (m' & Es & Ht' & Hspan & Hout); try lia.
  exists (set_memory la (is_free_blocks_merged la) (mark_used p m')).
  split; [|split; [|split; [exact Hout|done]]].
  - destruct depth; cbn [alloc]; rewrite request_aligned by done; rewrite (la_find la _ (aligned8 n) Hok), Hff; cbn [mbind outcome_bind];
      fold p; by rewrite Es.
  - apply (la_ok_replace la l1 [(false, sz)]); [done| |exact Ht'|intros a Ha; apply Hout; lia].
    change ((false, sz) :: l2) with ([(false, sz)] ++ l2) in Hspan.
    change ((true, aligned8 n) :: remainder (aligned8 n) sz ++ l2) with (((true, aligned8 n) :: remainder (aligned8 n) sz) ++ l2) in Hspan.
    rewrite !span_app in Hspan. lia.
Qed.

(** ** Freeing and merging *)

Definition merge_head (sz : Z) (l : list blk) : list blk :=
  match l with (false, sz') :: l => (false, sz + 8 + sz') :: l | _ => (false, sz) :: l end.

(** The header of the next block that merging overwrites. *)
Definition absorbed (l : list blk) : Z := match l with (false, _) :: _ => 8 | _ => 0 end.

Lemma sum_mod8 a b : a mod 8 = 0 -> b mod 8 = 0 -> (a + 8 + b) mod 8 = 0.
Proof.
  intros Ha Hb. apply Z.mod_divide in Ha as [q ->]; [|lia]. apply Z.mod_divide in Hb as [q' ->]; [|lia].
  apply Z.mod_divide; [lia|]. exists (q + 1 + q'). lia.
Qed.

(** [try_merge_next] on a free block; behind the last block it looks past the buffer. *)
Lemma merge_next_ok m p sz l :
  tiled m p ((false, sz) :: l) -> 0 <= p -> p + span ((false, sz) :: l) + 8 < 2 ^ 64 -> span ((false, sz) :: l) < 2 ^ 32 ->
  (l = [] -> m (p + 8 + sz) <> MEM_BLOCK_FREE_MAGIC) ->
  tiled (try_merge_next p m) p (merge_head sz l) /\ span (merge_head sz l) = span ((false, sz) :: l) /\
  (merge_head sz l = (false, sz) :: l -> try_merge_next p m = m) /\
  (forall a, a < p \/ p + 8 + sz + absorbed l <= a -> try_merge_next p m a = m a) /\
  (forall a, p + 8 <= a < p + 8 + sz -> try_merge_next p m a = m a).
Proof.
  intros Ht Hp Hfin Hs Hlast. pose proof Ht as (E1 & E2 & H0 & H8 & Ht2). pose proof (tiled_nonneg _ _ _ Ht2) as Hl.
  change (span ((false, sz) :: l)) with (8 + sz + span l) in *.
  unfold try_merge_next, magic, is_freed, magic, next_block, data, data_size. rewrite E1, E2. cbn [magic_of]. rewrite Z.eqb_refl. cbn [negb].
  rewrite (wrap_small 64 (p + 8 + sz)) by lia.
  destruct l as [|[u sz'] l]; [|destruct u]; cbn [merge_head absorbed].
  - destruct (Z.eqb_spec (m (p + 8 + sz)) MEM_BLOCK_FREE_MAGIC); [by destruct Hlast|]. done.
  - destruct Ht2 as (F1 & _). rewrite F1. done.
  - pose proof Ht2 as (F1 & F2 & G0 & G8 & Ht3). pose proof (tiled_nonneg _ _ _ Ht3) as Hl3.
    change (span ((false, sz') :: l)) with (8 + sz' + span l) in *. rewrite F1. cbn [magic_of]. rewrite Z.eqb_refl. cbn [negb].
    rewrite (block_size_tiled _ _ _ _ _ Ht2) by (change (span ((false, sz') :: l)) with (8 + sz' + span l); lia).
    rewrite (wrap_small 32) by lia. unfold reset_block. split; [|split; [|split; [|split]]].
    + cbn [tiled]. rewrite !(set_word_other _ _ _ p) by lia. rewrite !(set_word_other _ (p + 8 + sz + 4) _ (p + 4)) by lia.
      rewrite (set_word_other _ (p + 8 + sz) _ (p + 4)), set_word_same by lia. split; [done|]. split; [lia|]. split; [lia|].
      split; [by apply sum_mod8|].
      replace (p + 8 + (sz + 8 + sz')) with (p + 8 + sz + 8 + sz') by lia. eapply tiled_ext; [exact Ht3|].
      intros a Ha. by rewrite !set_word_other by lia.
    + change (span ((false, sz + 8 + sz') :: l)) with (8 + (sz + 8 + sz') + span l). lia.
    + intros [= E _]. lia.
    + intros a Ha. by rewrite !set_word_other by lia.
    + intros a Ha. by rewrite !set_word_other by lia.
Qed.

Lemma free_ok la l1 sz l2 :
  la_ok la (l1 ++ (true, sz) :: l2) -> (l2 = [] -> memory la (buffer_end la) <> MEM_BLOCK_FREE_MAGIC) ->
  let p := buffer la + span l1 in
  la_ok (free la (data p)) (l1 ++ merge_head sz l2) /\ is_free_blocks_merged (free la (data p)) = false /\
  same_outside la (free la (data p)) p (p + 8 + sz + absorbed l2) /\
  (forall a, p + 8 <= a < p + 8 + sz -> memory (free la (data p)) a = memory la a).
Proof.
  intros Hok Hlast p. pose proof Hok as [Hb Hs Hsz Hend Ht]. apply tiled_app in Ht as [Ht1 Ht2].
  pose proof (tiled_nonneg _ _ _ Ht1) as H1. pose proof (tiled_nonneg _ _ _ Ht2) as H2. rewrite span_app in Hs.
  change (span ((true, sz) :: l2)) with (8 + sz + span l2) in *. destruct Ht2 as (E1 & E2 & H0 & H8 & Ht2). fold p in E1, E2, Ht2.
  pose proof (tiled_nonneg _ _ _ Ht2).
  unfold free, data, with_buf, sizeof_mem_block_t. rewrite Z.add_simpl_r, wrap_small by lia.
  replace (p + 8 =? 0) with false by lia. unfold is_used, magic. rewrite E1. cbn [magic_of]. rewrite Z.eqb_refl. cbn [negb].
  assert (Hfree : tiled (mark_freed p (memory la)) p ((false, sz) :: l2)).
  { unfold mark_freed. cbn [tiled]. rewrite set_word_same, (set_word_other _ p _ (p + 4)) by lia.
    split; [done|]. split; [done|]. split; [done|]. split; [done|]. eapply tiled_ext; [exact Ht2|].
    intros a Ha. apply set_word_other. lia. }
  destruct (merge_next_ok _ p sz l2 Hfree) as (Htm & Hspan & _ & Hout & Hin);
    change (span ((false, sz) :: l2)) with (8 + sz + span l2) in *; try lia.
  { intros ->. unfold mark_freed. rewrite set_word_other by lia. specialize (Hlast eq_refl). unfold buffer_end in Hlast.
    rewrite wrap_small in Hlast by lia. change (span []) with 0 in *. by replace (p + 8 + sz) with (buffer la + buffer_size la) by lia. }
  assert (Habs : 0 <= absorbed l2) by (by destruct l2 as [|[[] ?] ?]).
  unfold free_block. split; [|split; [done|split]].
  - rewrite <- (app_nil_r (merge_head sz l2)). apply (la_ok_replace la l1 ((true, sz) :: l2)); [by rewrite app_nil_r|done|by rewrite app_nil_r|].
    intros a Ha. rewrite Hout by lia. unfold mark_freed. apply set_word_other. lia.
  - intros a Ha. cbn [memory set_memory]. rewrite Hout by lia. unfold mark_freed. apply set_word_other. lia.
  - intros a Ha. cbn [memory set_memory]. rewrite Hin by lia. unfold mark_freed. apply set_word_other. lia.
Qed.

(** One pass of [try_merge_free_blocks] merges pairs: the block behind a merged pair is
    visited next, so three free blocks in a row become two. *)
Fixpoint merge_pass (l : list blk) : list blk :=
  match l with
  | (false, a) :: (false, b) :: l => (false, a + 8 + b) :: merge_pass l
  | b :: l => b :: merge_pass l
  | [] => []
  end.

(** No two free blocks are next to each other. *)
Fixpoint settled (l : list blk) : bool :=
  match l with
  | [] => true
  | (u, _) :: l => (u || match l with (false, _) :: _ => false | _ => true end) && settled l
  end.

Lemma try_merge_used m p sz l : tiled m p ((true, sz) :: l) -> try_merge_next p m = m.
Proof. intros (E & _). unfold try_merge_next, magic. by rewrite E. Qed.

(** One step of the pass: the block at the cursor afterwards, and what is left to visit. *)
Definition merge_step (l : list blk) : option (blk * list blk) :=
  match l with
  | [] => None
  | (false, a) :: (false, b) :: l => Some ((false, a + 8 + b), l)
  | b :: l => Some (b, l)
  end.

Lemma merge_pass_step l :
  merge_pass l = match merge_step l with Some (b, l') => b :: merge_pass l' | None => [] end.
Proof. by destruct l as [|[[] a] [|[[] b] l]]. Qed.

Lemma merge_step_shorter l b l' : merge_step l = Some (b, l') -> (length l' < length l)%nat.
Proof. destruct l as [|[[] a] [|[[] c] l]]; cbn; try done; intros [= <- <-]; cbn; lia. Qed.

Lemma merge_step_ok m p l b l' :
  merge_step l = Some (b, l') -> tiled m p l -> 0 <= p -> p + span l + 8 < 2 ^ 64 -> span l < 2 ^ 32 ->
  m (p + span l) <> MEM_BLOCK_FREE_MAGIC ->
  let m' := try_merge_next p m in
  tiled m' p (b :: l') /\ span (b :: l') = span l /\ (settled l = true -> m' = m) /\
  forall a, a < p \/ p + span l <= a -> m' a = m a.
Proof.
  intros E Ht Hp Hfin Hs Hlast. destruct l as [|[[] sz] l]; [done| |].
  - assert (b = (true, sz) /\ l' = l) as [-> ->] by (destruct l as [|[[] ?] l]; cbn in E; by simplify_eq).
    cbn zeta. by rewrite (try_merge_used _ _ _ _ Ht).
  - pose proof Ht as (_ & _ & _ & _ & Htl). pose proof (tiled_nonneg _ _ _ Htl) as Hl. change (span ((false, sz) :: l)) with (8 + sz + span l) in *.
    destruct (merge_next_ok m p sz l Ht) as (Ht' & Hspan & Hsame & Hout & _);
      change (span ((false, sz) :: l)) with (8 + sz + span l) in *; try lia.
    { intros -> F. apply Hlast. change (span []) with 0. by replace (p + (8 + sz + 0)) with (p + 8 + sz) by lia. }
    assert (merge_head sz l = b :: l') as Em by (destruct l as [|[[] ?] l]; cbn in E |- *; by simplify_eq).
    rewrite Em in *. split; [done|]. split; [done|]. split.
    + intros Hset. apply Hsame. rewrite <- Em. by destruct l as [|[[] ?] l].
    + intros a Ha. apply Hout. destruct Ht as (_ & _ & H0 & _ & Ht). destruct l as [|[[] z] l]; cbn [absorbed];
        [change (span []) with 0 in *; lia|lia|].
      destruct Ht as (_ & _ & H0' & _ & Ht). pose proof (tiled_nonneg _ _ _ Ht).
      change (span ((false, z) :: l)) with (8 + z + span l) in *. lia.
Qed.

Lemma settled_step l b l' : merge_step l = Some (b, l') -> settled l = true -> settled l' = true.
Proof.
  destruct l as [|[[] a] [|[[] c] l]]; cbn; try done; intros [= <- <-]; cbn; try done.
Qed.

Lemma merge_loop_ok : forall fuel l m p,
  tiled m p l -> 0 <= p -> p + span l + 8 < 2 ^ 64 -> span l < 2 ^ 32 -> m (p + span l) <> MEM_BLOCK_FREE_MAGIC ->
  (length l <= fuel)%nat ->
  exists m', merge_loop fuel p (p + span l) m = Ret m' /\ tiled m' p (merge_pass l) /\ span (merge_pass l) = span l /\
    (settled l = true -> m' = m) /\ forall a, a < p \/ p + span l <= a -> m' a = m a.
Proof.
  induction fuel as [|fuel IH]; intros l m p Ht Hp Hfin Hs Hlast Hf.
  { destruct l; [|cbn in Hf; lia]. exists m. change (span []) with 0. rewrite Z.add_0_r. cbn [merge_loop]. by rewrite Z.ltb_irrefl. }
  rewrite merge_pass_step. destruct (merge_step l) as [[b l']|] eqn:Em.
  2: { destruct l as [|[[] ?] [|[[] ?] l]]; try done. exists m. change (span []) with 0. rewrite Z.add_0_r. cbn [merge_loop].
       by rewrite Z.ltb_irrefl. }
  pose proof (merge_step_shorter _ _ _ Em) as Hlen. pose proof (settled_step _ _ _ Em) as Hset.
  destruct (merge_step_ok m p l b l' Em Ht Hp Hfin Hs Hlast) as (Ht1 & Hspan & Hsame & Hout).
  destruct b as [u sz]. pose proof Ht1 as (F1 & F2 & H0 & H8 & Ht2). pose proof (tiled_nonneg _ _ _ Ht2) as Hl'.
  change (span ((u, sz) :: l')) with (8 + sz + span l') in Hspan.
  destruct (IH l' (try_merge_next p m) (p + 8 + sz)) as (m' & E' & Ht' & Hspan' & Hsame' & Hout'); try (done || lia).
  { replace (p + 8 + sz + span l') with (p + span l) by lia. rewrite Hout by lia. done. }
  exists m'. cbn [merge_loop]. replace (p <? p + span l) with true by lia.
  rewrite (block_size_tiled _ _ _ _ _ Ht1) by (change (span ((u, sz) :: l')) with (8 + sz + span l'); lia).
  rewrite (wrap_small 64) by lia. replace (p + (8 + sz)) with (p + 8 + sz) by lia.
  replace (p + 8 + sz + span l') with (p + span l) in * by lia. split; [done|]. split; [|split; [|split]].
  - cbn [tiled]. rewrite !Hout' by lia. done.
  - change (span ((u, sz) :: merge_pass l')) with (8 + sz + span (merge_pass l')). lia.
  - intros E. rewrite Hsame' by auto. auto.
  - intros a Ha. rewrite Hout' by lia. apply Hout. lia.
Qed.

(** ** Exhaustion *)

Lemma aligned8_idem n : 0 <= n -> aligned8 (aligned8 n) = aligned8 n.
Proof.
  intros Hn. destruct (aligned8_facts n Hn) as [H8 _]. unfold aligned8 at 1. apply Z.mod_divide in H8 as [q ->]; [|lia].
  replace (- (q * 8)) with (- q * 8) by lia. rewrite Z.mod_mul; lia.
Qed.

Lemma la_merge la l :
  la_ok la l -> memory la (buffer_end la) <> MEM_BLOCK_FREE_MAGIC -> settled l = true ->
  try_merge_free_blocks la = Ret (memory la).
Proof.
  intros [Hb Hs Hsz Hend Ht] Hlast Hset. unfold try_merge_free_blocks, buffer_end in *. pose proof (blocks_fuel _ _ _ Ht).
  rewrite wrap_small in * by lia. rewrite <- Hs in *.
  destruct (merge_loop_ok (Z.to_nat (span l)) l (memory la) (buffer la)) as (m' & E & _ & _ & Hsame & _); try (done || lia).
  by rewrite E, Hsame.
Qed.

Lemma alloc_starved la l :
  la_ok la l -> memory la (buffer_end la) <> MEM_BLOCK_FREE_MAGIC ->
  is_free_blocks_merged la = true -> settled l = true ->
  forall depth n, 0 <= n <= 2 ^ 30 -> first_fit (aligned8 n) l = None -> alloc depth la n = UB.
Proof.
  intros Hok Hlast Hflag Hset. induction depth as [|depth IH]; intros n Hn Hff; cbn [alloc];
    rewrite request_aligned, (la_find la l (aligned8 n) Hok), Hff by lia; cbn [mbind outcome_bind];
    rewrite Hflag, (la_merge la l) by done; cbn [negb mbind outcome_bind]; [done|].
  assert (set_memory la true (memory la) = la) as -> by (destruct la; cbn in *; by rewrite Hflag).
  destruct (aligned8_facts n ltac:(lia)) as [H8 Hr]. apply IH; [|by rewrite aligned8_idem by lia].
  apply Z.mod_divide in H8 as [q Hq]; lia.
Qed.

(** Requests after the first [free] are refused without merging. *)
Lemma alloc_refused depth la l n :
  la_ok la l -> 0 <= n <= 2 ^ 30 -> first_fit (aligned8 n) l = None -> is_free_blocks_merged la = false ->
  alloc depth la n = Ret (None, la).
Proof.
  intros Hok Hn Hff Hflag. destruct depth; cbn [alloc];
    rewrite request_aligned, (la_find la l (aligned8 n) Hok), Hff by lia; cbn [mbind outcome_bind]; by rewrite Hflag.
Qed.

(** ** Reachable states *)

(** A history of the allocator: it is set up, blocks are allocated and freed, and their
    owners write into them. *)
Inductive reaches : linear_allocator_t -> Prop :=
| reach_init b n m :
    0 < b -> 8 <= n < 2 ^ 32 -> n mod 8 = 0 -> b + n + 8 < 2 ^ 64 -> m (b + n) <> MEM_BLOCK_FREE_MAGIC ->
    reaches (init b n m)
| reach_alloc depth la n r la' :
    reaches la -> 0 <= n <= 2 ^ 30 -> alloc depth la n = Ret (r, la') -> reaches la'
| reach_free la l1 sz l2 :
    reaches la -> la_ok la (l1 ++ (true, sz) :: l2) -> reaches (free la (data (buffer la + span l1)))
| reach_write la l1 sz l2 a v :
    reaches la -> la_ok la (l1 ++ (true, sz) :: l2) ->
    buffer la + span l1 + 8 <= a < buffer la + span l1 + 8 + sz ->
    reaches (set_memory la (is_free_blocks_merged la) (set_word (memory la) a v)).

(** The invariant of those states: the buffer is tiled, and as long as nothing was freed
    no two free blocks touch. *)
Record la_inv (la : linear_allocator_t) (l : list blk) : Prop := {
  li_ok : la_ok la l;
  li_fence : memory la (buffer_end la) <> MEM_BLOCK_FREE_MAGIC;
  li_settled : is_free_blocks_merged la = true -> settled l = true;
}.

Lemma settled_take l1 sz n l2 :
  settled (l1 ++ (false, sz) :: l2) = true -> settled (l1 ++ ((true, n) :: remainder n sz) ++ l2) = true.
Proof.
  induction l1 as [|[u s] l1 IH]; cbn [app settled].
  - intros [H1 H2]%andb_prop. unfold remainder. destruct (n <? sz); cbn in *; [by rewrite H1|done].
  - intros [H1 H2]%andb_prop. cbn [app] in IH. rewrite IH, andb_true_r by done. destruct u; [done|].
    by destruct l1 as [|[[] ?] l1].
Qed.

Lemma absorbed_span m p l : tiled m p l -> 0 <= absorbed l <= span l.
Proof.
  intros Ht. pose proof (tiled_nonneg _ _ _ Ht). destruct l as [|[[] z] l]; cbn [absorbed]; [done|lia|].
  destruct Ht as (_ & _ & ? & _ & Ht). pose proof (tiled_nonneg _ _ _ Ht). change (span ((false, z) :: l)) with (8 + z + span l). lia.
Qed.

Lemma init_inv b n m :
  0 < b -> 8 <= n < 2 ^ 32 -> n mod 8 = 0 -> b + n + 8 < 2 ^ 64 -> m (b + n) <> MEM_BLOCK_FREE_MAGIC ->
  la_inv (init b n m) [(false, n - 8)].
Proof.
  intros Hb Hn Hn8 Hend Hm. unfold init, create_free_block, create, sizeof_mem_block_t. rewrite (wrap_small 32) by lia.
  split; [split| |done]; cbn [buffer buffer_size memory]; try (done || lia).
  - cbn. lia.
  - cbn [tiled]. rewrite set_word_same, set_word_other, set_word_same by lia. repeat split; [lia|].
    apply Z.mod_divide in Hn8 as [q ->]; [|lia]. apply Z.mod_divide; [lia|]. exists (q - 1). lia.
  - unfold buffer_end. cbn [buffer buffer_size]. rewrite (wrap_small 64) by lia.
    destruct (Z.eqb_spec n 4); [lia|]. rewrite !set_word_other by lia. done.
Qed.

Lemma alloc_inv depth la l n r la' :
  la_inv la l -> 0 <= n <= 2 ^ 30 -> alloc depth la n = Ret (r, la') -> exists l', la_inv la' l'.
Proof.
  intros [Hok Hfence Hset] Hn Ha. destruct (first_fit (aligned8 n) l) as [[[l1 sz] l2]|] eqn:Hff.
  - destruct (alloc_fits depth la l n l1 sz l2 Hok ltac:(lia) Hff) as (la2 & E & Hok' & Hout & Hflag & Hend').
    rewrite E in Ha. simplify_eq. eexists. split; [exact Hok'| |].
    + destruct (first_fit_Some _ _ _ _ _ Hff) as (-> & _ & _). pose proof Hok as [Hb Hs Hsz Hend Ht].
      rewrite Hend', Hout; [done|]. unfold buffer_end. rewrite wrap_small by lia. right.
      apply tiled_app in Ht as [_ (_ & _ & _ & _ & Ht)]. pose proof (tiled_nonneg _ _ _ Ht). rewrite span_app in Hs.
      change (span ((false, sz) :: l2)) with (8 + sz + span l2) in Hs. lia.
    + intros F. rewrite Hflag in F. destruct (first_fit_Some _ _ _ _ _ Hff) as (-> & _ & _). apply settled_take. auto.
  - destruct (is_free_blocks_merged la) eqn:Hflag.
    + rewrite (alloc_starved la l) in Ha; auto. done.
    + rewrite (alloc_refused depth la l) in Ha by done. simplify_eq. exists l. split; [done|done|by rewrite Hflag].
Qed.

Lemma free_inv la l1 sz l2 :
  la_ok la (l1 ++ (true, sz) :: l2) -> memory la (buffer_end la) <> MEM_BLOCK_FREE_MAGIC ->
  la_inv (free la (data (buffer la + span l1))) (l1 ++ merge_head sz l2).
Proof.
  intros Hok Hfence. destruct (free_ok la l1 sz l2 Hok ltac:(done)) as (Hok' & Hflag & Hout & _).
  pose proof Hok as [Hb Hs Hsz Hend Ht]. apply tiled_app in Ht as [_ (_ & _ & H0 & _ & Ht)].
  pose proof (absorbed_span _ _ _ Ht). rewrite span_app in Hs. change (span ((true, sz) :: l2)) with (8 + sz + span l2) in Hs.
  split; [done| |by rewrite Hflag].
  assert (forall buf, buffer_end (free la buf) = buffer_end la) as -> by (intros; unfold free; by repeat case_match).
  rewrite Hout; [done|]. right. unfold buffer_end. rewrite wrap_small; lia.
Qed.

Lemma write_inv la l1 sz l2 a v :
  la_inv la (l1 ++ (true, sz) :: l2) -> buffer la + span l1 + 8 <= a < buffer la + span l1 + 8 + sz ->
  la_inv (set_memory la (is_free_blocks_merged la) (set_word (memory la) a v)) (l1 ++ (true, sz) :: l2).
Proof.
  intros [Hok Hfence Hset] Ha. pose proof Hok as [Hb Hs Hsz Hend Ht]. apply tiled_app in Ht as [_ (E1 & E2 & H0 & H8 & Ht)].
  pose proof (tiled_nonneg _ _ _ Ht). rewrite span_app in Hs. change (span ((true, sz) :: l2)) with (8 + sz + span l2) in Hs.
  split; [|change (buffer_end _) with (buffer_end la)|done].
  - apply (la_ok_replace la l1 [(true, sz)] [(true, sz)]); [done|done| |intros; apply set_word_other; lia].
    cbn [app tiled]. rewrite !set_word_other by lia. repeat split; try done. eapply tiled_ext; [exact Ht|].
    intros x Hx. apply set_word_other. lia.
  - cbn [memory set_memory]. rewrite set_word_other; [done|]. unfold buffer_end. rewrite wrap_small; lia.
Qed.

Lemma tiled_unique m : forall l p l', tiled m p l -> tiled m p l' -> span l = span l' -> l = l'.
Proof.
  induction l as [|[u sz] l IH]; intros p [|[u' sz'] l'] H H' Hs; [done| | |].
  - destruct H' as (_ & _ & ? & _ & H'). pose proof (tiled_nonneg _ _ _ H').
    change (span ((u', sz') :: l')) with (8 + sz' + span l') in Hs. change (span []) with 0 in Hs. lia.
  - destruct H as (_ & _ & ? & _ & H). pose proof (tiled_nonneg _ _ _ H).
    change (span ((u, sz) :: l)) with (8 + sz + span l) in Hs. change (span []) with 0 in Hs. lia.
  - destruct H as (E1 & E2 & _ & _ & H), H' as (E1' & E2' & _ & _ & H'). rewrite E2 in E2'. subst sz'.
    change (span ((u, sz) :: l)) with (8 + sz + span l) in Hs. change (span ((u', sz) :: l')) with (8 + sz + span l') in Hs.
    rewrite (IH _ _ H H') by lia. f_equal. f_equal. rewrite E1 in E1'. by destruct u, u'.
Qed.

Lemma la_ok_unique la l l' : la_ok la l -> la_ok la l' -> l = l'.
Proof. intros H H'. eapply tiled_unique; [apply H|apply H'|]. rewrite (lo_span _ _ H). by rewrite (lo_span _ _ H'). Qed.

Lemma reaches_inv la : reaches la -> exists l, la_inv la l.
Proof.
  induction 1 as [b n m|depth la n r la' _ [l IH]|la l1 sz l2 _ [l IH] Hok|la l1 sz l2 a v _ [l IH] Hok Ha].
  - eexists. by apply init_inv.
  - by eapply alloc_inv.
  - eexists. apply (free_inv _ _ _ _ Hok), IH.
  - eexists. apply (write_inv _ l1 sz l2); [|done]. by rewrite (la_ok_unique _ _ _ Hok (li_ok _ _ IH)).
Qed.

(** ** The theorems *)

(** C28: In every reachable state the headers in memory tile the buffer with a list of
    blocks; a request that some free block holds takes the first such block, splits off
    what is left over and changes no word outside it; freeing a block in use returns it
    to the list, joined with a free block behind it, and keeps all other words. *)
Theorem linear_allocator_refines la :
  reaches la ->
  exists l, la_ok la l /\
    (forall depth n l1 sz l2, 0 <= n <= 2 ^ 30 -> first_fit (aligned8 n) l = Some (l1, sz, l2) ->
       let p := buffer la + span l1 in
       exists la', alloc depth la n = Ret (Some (data p), la') /\ reaches la' /\
         la_ok la' (l1 ++ ((true, aligned8 n) :: remainder (aligned8 n) sz) ++ l2) /\
         same_outside la la' p (p + 8 + sz)) /\
    (forall l1 sz l2, l = l1 ++ (true, sz) :: l2 ->
       let p := buffer la + span l1 in
       la_ok (free la (data p)) (l1 ++ merge_head sz l2) /\ reaches (free la (data p)) /\
       same_outside la (free la (data p)) p (p + 8 + sz + absorbed l2)).
Proof.
  intros Hr. destruct (reaches_inv la Hr) as [l [Hok Hfence _]]. exists l. split; [done|]. split.
  - intros depth n l1 sz l2 Hn Hff. destruct (alloc_fits depth la l n l1 sz l2 Hok ltac:(lia) Hff) as (la' & E & Hok' & Hout & _).
    exists la'. split; [done|]. split; [by eapply reach_alloc|done].
  - intros l1 sz l2 ->. destruct (free_ok la l1 sz l2 Hok ltac:(done)) as (Hok' & _ & Hout & _).
    split; [done|]. split; [by eapply reach_free|done].
Qed.

(** When no free block holds a request, the allocator does not report it as it means
    to.  Before the first [free] the recursion repeats itself on the same memory and has no
    result at any depth; after it, [nullptr] is returned and the free blocks stay unmerged.
    [merge_pass] is never applied to a list that it would change. *)
Theorem linear_allocator_exhausted la l n :
  reaches la -> la_ok la l -> 0 <= n <= 2 ^ 30 -> first_fit (aligned8 n) l = None ->
  if is_free_blocks_merged la then forall depth, alloc depth la n = UB
  else forall depth, alloc depth la n = Ret (None, la).
Proof.
  intros Hr Hok Hn Hff. destruct (reaches_inv la Hr) as [l' [Hok' Hfence Hset]].
  rewrite (la_ok_unique _ _ _ Hok' Hok) in *. destruct (is_free_blocks_merged la) eqn:Hflag; intros depth.
  - by apply (alloc_starved la l); auto.
  - by apply (alloc_refused depth la l).
Qed.

(** *** Witnesses *)

Definition la_example : linear_allocator_t := init 0x1000 64 (fun _ => 0).
Definition after_alloc (la : linear_allocator_t) (n : Z) : linear_allocator_t :=
  match alloc 0 la n with Ret (_, la) => la | _ => la end.
(** Three blocks of eight bytes, all freed in the order in which they were allocated. *)
Definition la_three : linear_allocator_t := after_alloc (after_alloc (after_alloc la_example 8) 8) 8.
Definition la_fragmented : linear_allocator_t := free (free la_three 0x1008) 0x1018.

Lemma la_example_reaches : reaches la_example.
Proof. apply reach_init; cbv; done. Qed.

Lemma la_example_ok : la_ok la_example [(false, 56)].
Proof. split; cbv; repeat split; done. Qed.

Lemma after_alloc_reaches la n :
  reaches la -> 0 <= n <= 2 ^ 30 -> (exists r, alloc 0 la n = Ret r) -> reaches (after_alloc la n).
Proof.
  intros Hr Hn [[r la'] E]. unfold after_alloc. rewrite E. by eapply reach_alloc.
Qed.

Lemma la_three_ok : la_ok la_three [(true, 8); (true, 8); (true, 8); (false, 8)].
Proof. split; cbv; repeat split; done. Qed.

Lemma la_three_reaches : reaches la_three.
Proof.
  unfold la_three. repeat (apply after_alloc_reaches; [|lia|eexists; vm_compute; reflexivity]). apply la_example_reaches.
Qed.

(** Two free blocks of eight bytes side by side. *)
Lemma la_fragmented_ok : la_ok la_fragmented [(false, 8); (false, 8); (true, 8); (false, 8)].
Proof. split; cbv; repeat split; done. Qed.

Lemma la_fragmented_reaches : reaches la_fragmented.
Proof.
  unfold la_fragmented.
  assert (H : reaches (free la_three 0x1008)) by (apply (reach_free la_three [] 8 _ la_three_reaches la_three_ok)).
  apply (reach_free (free la_three 0x1008) [(false, 8)] 8 [(true, 8); (false, 8)] H). split; cbv; repeat split; done.
Qed.

Lemma linear_allocator_refines_witness :
  reaches la_example /\ exists l, la_ok la_example l /\ first_fit (aligned8 13) l = Some ([], 56, []) /\
    exists la', alloc 0 la_example 13 = Ret (Some 0x1008, la') /\ la_ok la' [(true, 16); (false, 32)].
Proof.
  split; [exact la_example_reaches|]. destruct (linear_allocator_refines la_example la_example_reaches) as (l & Hok & Ha & _).
  assert (El : l = [(false, 56)]) by exact (la_ok_unique _ _ _ Hok la_example_ok). subst l.
  exists [(false, 56)]. split; [exact Hok|]. split; [reflexivity|].
  destruct (Ha 0%nat 13 [] 56 [] ltac:(lia) eq_refl) as (la' & E & _ & Hok' & _).
  exists la'. split; [exact E|exact Hok'].
Defined.

(** A request of 16 bytes against two adjacent free blocks that together hold 24 is refused. *)
Lemma linear_allocator_exhausted_witness :
  (forall depth, alloc depth la_example 100 = UB) /\ (forall depth, alloc depth la_fragmented 16 = Ret (None, la_fragmented)).
Proof.
  split.
  - exact (linear_allocator_exhausted la_example _ 100 la_example_reaches la_example_ok ltac:(lia) eq_refl).
  - exact (linear_allocator_exhausted la_fragmented _ 16 la_fragmented_reaches la_fragmented_ok ltac:(lia) eq_refl).
Defined.
