(* ===== verification/Arm32Assembler.v ===== *)
(** * The ARM32 assemblers

    constants-arm.h, registers-arm.h, assembler-arm.h, assembler-arm.cc,
    codegen-arm.cc, and the Thumb assembler of InstructionRelocationARM.h.  An
    assembler is its code buffer, the data labels appended so far and the
    execution state it was set to; a label pointer is the index of the label in the
    vector it was appended to.  Addresses have 32 bits. *)

From S2P Require Import Prelude UtilityMacro CodeMemBuffer.
#[local] Open Scope machine_scope.
#[local] Open Scope Z_scope.

(** ** constants-arm.h *)

Inductive AddrMode := Offset | PreIndex | PostIndex.
#[export] Instance AddrMode_eq_dec : EqDecision AddrMode.
Proof. solve_decision. Defined.

(** An [enum Condition] is its value: the relocator casts bit fields to it. *)
Definition Condition := Z.
Definition EQ : Condition := 0.
Definition NE : Condition := 1.
Definition CS : Condition := 2.
Definition CC : Condition := 3.
Definition MI : Condition := 4.
Definition PL : Condition := 5.
Definition VS : Condition := 6.
Definition VC : Condition := 7.
Definition HI : Condition := 8.
Definition LS : Condition := 9.
Definition GE : Condition := 10.
Definition LT : Condition := 11.
Definition GT : Condition := 12.
Definition LE : Condition := 13.
Definition AL : Condition := 14.

Inductive Shift := LSL | LSR | ASR | ROR.

Definition B7 : Z := 1 << 7.
Definition B8 : Z := 1 << 8.
Definition B9 : Z := 1 << 9.
Definition B10 : Z := 1 << 10.
Definition B14 : Z := 1 << 14.
Definition B20 : Z := 1 << 20.
Definition B22 : Z := 1 << 22.
Definition B23 : Z := 1 << 23.
Definition B25 : Z := 1 << 25.
Definition B26 : Z := 1 << 26.

Definition kRdShift : Z := 12.
Definition kRtShift : Z := 12.
Definition kRmShift : Z := 10.
Definition kRnShift : Z := 16.
Definition kConditionShift : Z := 28.

(** ** registers-arm.h *)

(** A [Register] is its [reg_id]. *)
Definition Register := Z.
Definition R (code : Z) : Register := code.
Definition code (r : Register) : Z := r.
Definition Is (r reg : Register) : bool := reg =? r.
(** [r0] has the number of [no_reg]. *)
Definition IsValid (r : Register) : bool := negb (r =? 0).
Definition r0 : Register := 0.
Definition r1 : Register := 1.
Definition r2 : Register := 2.
Definition r3 : Register := 3.
Definition r4 : Register := 4.
Definition r5 : Register := 5.
Definition r6 : Register := 6.
Definition r7 : Register := 7.
Definition r8 : Register := 8.
Definition r9 : Register := 9.
Definition r10 : Register := 10.
Definition r11 : Register := 11.
Definition r12 : Register := 12.
Definition sp : Register := 13.
Definition lr : Register := 14.
Definition pc : Register := 15.
Definition no_reg : Register := 0.

(** ** Operands of assembler-arm.h *)

Definition ARM_PC_OFFSET : Z := 8.
Definition Thumb_PC_OFFSET : Z := 4.
Definition ARM_INST_LEN : Z := 4.
Definition Thumb1_INST_LEN : Z := 2.
Definition Thumb2_INST_LEN : Z := 4.
Definition THUMB_ADDRESS_FLAG : Z := 1.
Definition TMP_REG_0 : Register := r12.
Definition VOLATILE_REGISTER : Register := r12.

Definition Rd (r : Register) : Z := code r << kRdShift.
Definition Rt (r : Register) : Z := code r << kRtShift.
Definition Rn (r : Register) : Z := code r << kRnShift.
Definition Rm (r : Register) : Z := code r << kRmShift.

Record Operand := { o_rm : Register; o_rs : Register; o_shift : Shift; o_shift_imm : Z; o_imm : Z }.
Definition Operand_imm (immediate : Z) : Operand :=
  {| o_rm := no_reg; o_rs := no_reg; o_shift := LSL; o_shift_imm := 0; o_imm := immediate |}.
Definition Operand_reg (rm : Register) : Operand :=
  {| o_rm := rm; o_rs := no_reg; o_shift := LSL; o_shift_imm := 0; o_imm := 0 |}.
Definition GetImmediate (o : Operand) : Z := o_imm o.

Record MemOperand := {
  m_rn : Register; m_rm : Register; m_offset : Z; m_shift : Shift; m_shift_imm : Z; m_addrmode : AddrMode;
}.
(** [MemOperand(rn, offset)], with the default [Offset]. *)
Definition MemOp (rn : Register) (offset : Z) : MemOperand :=
  {| m_rn := rn; m_rm := no_reg; m_offset := offset; m_shift := LSL; m_shift_imm := 0; m_addrmode := Offset |}.

(** [MemOperand(rn, offset, addrmode)]. *)
Definition MemOp_mode (rn : Register) (offset : Z) (addrmode : AddrMode) : MemOperand :=
  {| m_rn := rn; m_rm := no_reg; m_offset := offset; m_shift := LSL; m_shift_imm := 0; m_addrmode := addrmode |}.

(** It tests the addressing mode, not the index register. *)
Definition IsRegisterOffset (x : MemOperand) : bool := bool_decide (m_addrmode x = Offset).
Definition IsPreIndex (x : MemOperand) : bool := bool_decide (m_addrmode x = PreIndex).
Definition IsPostIndex (x : MemOperand) : bool := bool_decide (m_addrmode x = PostIndex).

(** [OpEncode]. *)
Definition enc_MemOperand (operand : MemOperand) : outcome Z :=
  if IsValid (m_rm operand) then Fatal
  else
    let U := if 0 <=? m_offset operand then 1 << 23 else 0 in
    let '(P, W) := match m_addrmode operand with
                   | Offset => (1, 0) | PostIndex => (0, 0) | PreIndex => (1, 1) end in
    Ret (U .| bits (Z.abs (m_offset operand)) 0 11 .| ((P << 24) .| (W << 21)) .| Rn (m_rn operand)).
Definition enc_Operand (operand : Operand) : Z :=
  if IsValid (o_rm operand) then u32 (code (o_rm operand)) else u32 (GetImmediate operand).

(** ** Labels of pseudo_label.h *)

(** The two [ref_label_type_t] of the back end are stored as the same [int]. *)
Definition kLdrLiteral : Z := 0.
Definition kThumb1Ldr : Z := 0.
Definition kThumb2LiteralLdr : Z := 1.

Record ref_inst_t := { link_type : Z; inst_offset : Z; pc_offset_ : Z }.

Record RelocDataLabel := {
  pos : Z;
  ref_insts : list ref_inst_t;
  data_ : list Z;
  is_pc_register_ : bool;
}.

(** [RelocDataLabel::withData] and [ThumbRelocLabelEntry::withData] of a 32-bit value. *)
Definition withData (value : Z) : RelocDataLabel :=
  {| pos := 0; ref_insts := []; data_ := le_bytes 4 value; is_pc_register_ := false |}.
Definition thumb_withData (value : Z) (is_pc_register : bool) : RelocDataLabel :=
  {| pos := 0; ref_insts := []; data_ := le_bytes 4 value; is_pc_register_ := is_pc_register |}.
Definition bind_to (p : Z) (l : RelocDataLabel) : RelocDataLabel :=
  {| pos := p; ref_insts := ref_insts l; data_ := data_ l; is_pc_register_ := is_pc_register_ l |}.
Definition has_confused_instructions (l : RelocDataLabel) : bool :=
  match ref_insts l with [] => false | _ => true end.
Definition link_to (t offset : Z) (l : RelocDataLabel) : RelocDataLabel :=
  {| pos := pos l; ref_insts := ref_insts l ++ [{| link_type := t; inst_offset := u32 offset; pc_offset_ := u32 offset |}];
     data_ := data_ l; is_pc_register_ := is_pc_register_ l |}.
(** [data<int32_t>()] and [fixupData<int32_t>]. *)
Definition label_data (l : RelocDataLabel) : Z := i32 (le_val (take 4 (data_ l))).
Definition fixupData (value : Z) (l : RelocDataLabel) : RelocDataLabel :=
  {| pos := pos l; ref_insts := ref_insts l; data_ := splice (data_ l) 0 (le_bytes 4 value);
     is_pc_register_ := is_pc_register_ l |}.

(** ** Typed accesses of CodeMemBuffer.h *)

Definition LoadARMInst (b : MemBuffer) (offset : Z) : outcome Z := Load 4 b offset.
Definition LoadThumb1Inst (b : MemBuffer) (offset : Z) : outcome Z := Load 2 b offset.
Definition LoadThumb2Inst (b : MemBuffer) (offset : Z) : outcome Z := Load 4 b offset.
Definition RewriteARMInst (b : MemBuffer) (offset instr : Z) : outcome MemBuffer := Store 4 b offset instr.
Definition RewriteThumb1Inst (b : MemBuffer) (offset instr : Z) : outcome MemBuffer := Store 2 b offset instr.

(** ** The assembler *)

Inductive ExecuteState := ARMExecuteState | ThumbExecuteState.
#[export] Instance ExecuteState_eq_dec : EqDecision ExecuteState.
Proof. solve_decision. Defined.

Record Assembler := {
  realized_addr_ : Z;
  execute_state_ : ExecuteState;
  buffer_ : MemBuffer;
  data_labels : list RelocDataLabel;
}.

Definition with_buffer (b : MemBuffer) (a : Assembler) : Assembler :=
  {| realized_addr_ := realized_addr_ a; execute_state_ := execute_state_ a; buffer_ := b; data_labels := data_labels a |}.
Definition with_labels (ls : list RelocDataLabel) (a : Assembler) : Assembler :=
  {| realized_addr_ := realized_addr_ a; execute_state_ := execute_state_ a; buffer_ := buffer_ a; data_labels := ls |}.
Definition SetExecuteState (state : ExecuteState) (a : Assembler) : Assembler :=
  {| realized_addr_ := realized_addr_ a; execute_state_ := state; buffer_ := buffer_ a; data_labels := data_labels a |}.

(** [TurboAssembler(address, buffer)] and [ThumbTurboAssembler(address, buffer)]. *)
Definition TurboAssembler_new (address : Z) (b : MemBuffer) : Assembler :=
  {| realized_addr_ := address; execute_state_ := ARMExecuteState; buffer_ := b; data_labels := [] |}.
Definition ThumbTurboAssembler_new (address : Z) (b : MemBuffer) : Assembler :=
  SetExecuteState ThumbExecuteState (TurboAssembler_new address b).

Definition pc_offset (a : Assembler) : Z := size (buffer_ a).

Definition emit_bytes (bs : list Z) (a : Assembler) : outcome Assembler :=
  b ← EmitBuffer (buffer_ a) bs; Ret (with_buffer b a).

Definition EmitARMInst (instr : Z) : Assembler -> outcome Assembler := emit_bytes (le_bytes 4 (u32 instr)).
Definition EmitAddress (value : Z) : Assembler -> outcome Assembler := emit_bytes (le_bytes 4 (u32 value)).

(** ** A32 instructions *)

Definition add_sub (encoding cond : Z) (rd rn : Register) (operand : Operand) : Assembler -> outcome Assembler :=
  EmitARMInst (encoding .| (cond << kConditionShift) .| GetImmediate operand .| Rd rd .| Rn rn).
Definition sub (rd rn : Register) (operand : Operand) : Assembler -> outcome Assembler :=
  add_sub (B25 .| B22) AL rd rn operand.
Definition add (rd rn : Register) (operand : Operand) : Assembler -> outcome Assembler :=
  add_sub (B25 .| B23) AL rd rn operand.

Definition load_store (encoding cond : Z) (rt : Register) (operand : MemOperand) (a : Assembler) : outcome Assembler :=
  m ← enc_MemOperand operand;
  EmitARMInst (encoding .| (cond << kConditionShift) .| (Rt rt .| m)) a.
Definition ldr (rt : Register) (operand : MemOperand) : Assembler -> outcome Assembler :=
  load_store (B20 .| B26) AL rt operand.
Definition str (rt : Register) (operand : MemOperand) : Assembler -> outcome Assembler :=
  load_store B26 AL rt operand.

Definition mov_cond (cond : Z) (rd : Register) (operand : Operand) : Assembler -> outcome Assembler :=
  EmitARMInst (0x01a00000 .| (cond << kConditionShift) .| (Rd rd .| enc_Operand operand)).
Definition mov (rd : Register) (operand : Operand) : Assembler -> outcome Assembler := mov_cond AL rd operand.

Definition b_cond (cond branch_offset : Z) : Assembler -> outcome Assembler :=
  EmitARMInst (0xa000000 .| (cond << kConditionShift) .| bits (branch_offset >> 2) 0 23).
Definition b (branch_offset : Z) : Assembler -> outcome Assembler := b_cond AL branch_offset.
Definition bl_cond (cond branch_offset : Z) : Assembler -> outcome Assembler :=
  EmitARMInst (0xb000000 .| (cond << kConditionShift) .| bits (branch_offset >> 2) 0 23).
Definition bl (branch_offset : Z) : Assembler -> outcome Assembler := bl_cond AL branch_offset.
Definition blx (branch_offset : Z) (a : Assembler) : outcome Assembler := Fatal.
Definition bx (target : Register) (a : Assembler) : outcome Assembler := Fatal.

(** ** TurboAssembler *)

(** [AppendRelocLabel]: the vector position stands for the pointer afterwards. *)
Definition AppendRelocLabel (l : RelocDataLabel) (a : Assembler) : nat * Assembler :=
  (length (data_labels a), with_labels (data_labels a ++ [l]) a).

(** Record the instruction about to be emitted as a user of label number [label]. *)
Definition link_label (t : Z) (label : nat) (l : RelocDataLabel) (a : Assembler) : Assembler :=
  with_labels (<[label := link_to t (pc_offset a) l]> (data_labels a)) a.

Definition Ldr (rt : Register) (label : nat) (a : Assembler) : outcome Assembler :=
  match data_labels a !! label with
  | Some l =>
      if negb (pos l =? 0) then ldr rt (MemOp pc (i32 (pos l - size (buffer_ a)))) a
      else ldr rt (MemOp pc 0) (link_label kLdrLiteral label l a)
  | None => UB
  end.

Definition CallFunction (function : Z) (a : Assembler) : outcome Assembler :=
  a ← bl 0 a;
  a ← b 4 a;
  a ← ldr pc (MemOp pc (-4)) a;
  EmitAddress function a.

(** [CodeGen::LiteralLdrBranch] of codegen-arm.cc. *)
Definition LiteralLdrBranch (address : Z) (a : Assembler) : outcome Assembler :=
  a ← ldr pc (MemOp pc (-4)) a;
  EmitAddress address a.

(** [PseudoLabel::link_confused_instructions] of assembler-arm.cc. *)
Definition link_arm_inst (p : Z) (r : ref_inst_t) (b : MemBuffer) : outcome MemBuffer :=
  inst ← LoadARMInst b (inst_offset r);
  inst ← (if link_type r =? kLdrLiteral then
            let pc := inst_offset r + ARM_PC_OFFSET in
            if pc mod 4 =? 0 then
              let imm12 := i32 (p - pc) in
              if 0 <? imm12 then Ret (set_bits (set_bit inst 23 1) 0 11 imm12)
              else Ret (set_bits (set_bit inst 23 0) 0 11 (- imm12))
            else Fatal
          else Ret inst);
  RewriteARMInst b (inst_offset r) inst.

(** [ThumbPseudoLabel::link_confused_instructions]; [set_bits] of a 16-bit object. *)
Definition link_thumb_inst (p : Z) (r : ref_inst_t) (b : MemBuffer) : outcome MemBuffer :=
  _ ← LoadThumb2Inst b (pc_offset_ r);
  insn1 ← LoadThumb1Inst b (pc_offset_ r);
  insn2 ← LoadThumb1Inst b (pc_offset_ r + 2);
  if link_type r =? kThumb1Ldr then Fatal
  else if link_type r =? kThumb2LiteralLdr then
    let pc := pc_offset_ r + Thumb_PC_OFFSET in
    if pc mod 4 =? 0 then
      let imm12 := i32 (p - pc) in
      let '(insn1, imm12) := if 0 <? imm12 then (set_bit insn1 7 1, imm12) else (set_bit insn1 7 0, - imm12) in
      let insn2 := set_bits insn2 0 11 imm12 in
      b ← RewriteThumb1Inst b (pc_offset_ r) (u16 insn1);
      RewriteThumb1Inst b (pc_offset_ r + Thumb1_INST_LEN) (u16 insn2)
    else Fatal
  else Fatal.

Fixpoint link_confused_instructions (link : Z -> ref_inst_t -> MemBuffer -> outcome MemBuffer)
    (p : Z) (refs : list ref_inst_t) (b : MemBuffer) : outcome MemBuffer :=
  match refs with
  | [] => Ret b
  | r :: refs => b ← link p r b; link_confused_instructions link p refs b
  end.

(** [bindLabel], then the data of the label. *)
Definition bind_and_emit (link : Z -> ref_inst_t -> MemBuffer -> outcome MemBuffer) (l : RelocDataLabel) (a : Assembler)
    : outcome (RelocDataLabel * Assembler) :=
  let l := bind_to (pc_offset a) l in
  b ← (if has_confused_instructions l
       then link_confused_instructions link (pos l) (ref_insts l) (buffer_ a) else Ret (buffer_ a));
  b ← EmitBuffer b (data_ l);
  Ret (l, with_buffer b a).

Fixpoint reloc_labels (link : Z -> ref_inst_t -> MemBuffer -> outcome MemBuffer) (ls : list RelocDataLabel)
    (a : Assembler) : outcome (list RelocDataLabel * Assembler) :=
  match ls with
  | [] => Ret ([], a)
  | l :: ls =>
      '(l, a) ← bind_and_emit link l a;
      '(ls, a) ← reloc_labels link ls a;
      Ret (l :: ls, a)
  end.

(** [AssemblerBase::relocDataLabels] and [ThumbTurboAssembler::relocDataLabels]. *)
Definition relocDataLabels (a : Assembler) : outcome Assembler :=
  '(ls, a) ← reloc_labels link_arm_inst (data_labels a) a;
  Ret (with_labels ls a).
Definition thumb_relocDataLabels (a : Assembler) : outcome Assembler :=
  '(ls, a) ← reloc_labels link_thumb_inst (data_labels a) a;
  Ret (with_labels ls a).

(** ** ThumbAssembler *)

Definition EmitInt16 (val : Z) : Assembler -> outcome Assembler := emit_bytes (le_bytes 2 (u16 val)).
Definition Emit2Int16 (val1 val2 : Z) (a : Assembler) : outcome Assembler :=
  a ← EmitInt16 val1 a; EmitInt16 val2 a.

Definition t1_nop : Assembler -> outcome Assembler := EmitInt16 0xbf00.
Definition t1_b (imm : Z) : Assembler -> outcome Assembler := EmitInt16 (0xe000 .| bits (imm >> 1) 0 10).

(** C's [!x] of a bit. *)
Definition lnot (x : Z) : Z := if x =? 0 then 1 else 0.

(** The operand is computed from a signed [imm], so its shifts are arithmetic. *)
Definition EmitThumb2Branch (cond imm : Z) (link : bool) (a : Assembler) : outcome Assembler :=
  let operand := u32 (imm >> 1) in
  let signbit := (imm >> 31) .& 0x1 in
  let i1 := (operand >> 22) .& 0x1 in
  let i2 := (operand >> 21) .& 0x1 in
  let imm10 := (operand >> 11) .& 0x03ff in
  let imm11 := operand .& 0x07ff in
  let j1 := lnot (i1 .^ signbit) in
  let j2 := lnot (i2 .^ signbit) in
  if negb (cond =? AL) then Fatal
  else
    a ← EmitInt16 (0xf000 .| LeftShift signbit 1 10 .| LeftShift imm10 10 0) a;
    if link then
      EmitInt16 (0x9000 .| LeftShift j1 1 13 .| LeftShift j2 1 11 .| LeftShift imm11 11 0 .| B14) a
    else EmitInt16 (0x9000 .| LeftShift j1 1 13 .| LeftShift j2 1 11 .| LeftShift imm11 11 0) a.

(** The parameter [uint32_t imm] is converted to [int32_t]. *)
Definition t2_b (imm : Z) : Assembler -> outcome Assembler := EmitThumb2Branch AL (i32 imm) false.
Definition t2_bl (imm : Z) : Assembler -> outcome Assembler := EmitThumb2Branch AL (i32 imm) true.
Definition t2_blx (imm : Z) (a : Assembler) : outcome Assembler := Fatal.

Definition EmitThumb2LoadLiteral (rt : Register) (x : MemOperand) (a : Assembler) : outcome Assembler :=
  let offset := m_offset x in
  let '(U, imm12) := if 0 <? offset then (B7, offset) else (0, - offset) in
  a ← EmitInt16 (0xf85f .| U) a;
  EmitInt16 (0x0 .| (code rt << 12) .| imm12) a.

(** [load] is not used: both directions emit the load. *)
Definition EmitThumb2LoadStore (load : bool) (rt : Register) (x : MemOperand) (a : Assembler) : outcome Assembler :=
  if Is (m_rn x) pc then EmitThumb2LoadLiteral rt x a
  else if IsRegisterOffset x && (0 <=? m_offset x) then
    a ← EmitInt16 (0xf8d0 .| (code (m_rn x) << 0)) a;
    EmitInt16 (0x0 .| (code rt << 12) .| m_offset x) a
  else
    let imm8 := if 0 <? m_offset x then m_offset x else - m_offset x in
    let U := if 0 <? m_offset x then 0 else B9 in
    let '(P, W) := if IsPostIndex x then (0, B8) else if IsPreIndex x then (B10, B8) else (0, 0) in
    a ← EmitInt16 (0xf850 .| (code (m_rn x) << 0)) a;
    EmitInt16 (0x0800 .| (code rt << 12) .| P .| U .| W .| imm8) a.

Definition t2_ldr (dst : Register) (src : MemOperand) : Assembler -> outcome Assembler := EmitThumb2LoadStore true dst src.

(** ** ThumbTurboAssembler *)

Definition T1_Ldr (rt : Register) (label : nat) (a : Assembler) : outcome Assembler := Fatal.

Definition T2_Ldr (rt : Register) (label : nat) (a : Assembler) : outcome Assembler :=
  match data_labels a !! label with
  | Some l =>
      if negb (pos l =? 0) then t2_ldr rt (MemOp pc (i32 (pos l - size (buffer_ a)))) a
      else t2_ldr rt (MemOp pc 0) (link_label kThumb2LiteralLdr label l a)
  | None => UB
  end.

Definition AlignThumbNop (a : Assembler) : outcome Assembler :=
  let pc := u32 (size (buffer_ a) + realized_addr_ a) in
  if negb (pc mod Thumb2_INST_LEN =? 0) then t1_nop a else Ret a.
