(* ===== verification/Arm32Relocation.v ===== *)
(** * ARM32 instruction relocation (InstructionRelocationARM.cc)

    The A32 and T32 relocators, statement by statement.  The two assemblers of the
    context share one code buffer, which is why the context holds it once and the
    private parts of each assembler next to it.  An instruction is the unsigned word or
    halfword; the source passes it as a signed integer of the same width, of which it
    only takes bit fields. *)

From stdpp Require Import gmap.
From S2P Require Import Prelude UtilityMacro CodeMemBuffer Arm32Assembler.
#[local] Open Scope machine_scope.
#[local] Open Scope Z_scope.

(** ** Helpers *)

Definition is_thumb2 (insn : Z) : bool :=
  let insn1 := insn .& 0x0000ffff in
  let op0 := bits insn1 13 15 in
  let op1 := bits insn1 11 12 in
  (op0 =? 7) && negb (op1 =? 0).

(** [sign_mask] is 0 or 0xffffffff. *)
Definition SignExtend (x M : Z) : Z :=
  let sign_mask := u32 (0 - bit x (M - 1)) in
  i32 (x .| ((sign_mask >> M) << M)).

Inductive arm_shift_type := arm_shift_lsl | arm_shift_lsr | arm_shift_asr | arm_shift_ror | arm_shift_rrx.

(** The result; [carry] is computed but not returned.  Shifting a 32-bit value by 32
    or more is undefined. *)
Definition arm_shift_c (val : Z) (shift_type : arm_shift_type) (shift_count carry_in : Z) : outcome Z :=
  if shift_count =? 0 then Ret val
  else
    match shift_type with
    | arm_shift_lsl => UB
    | arm_shift_lsr => if shift_count - 1 <? 32 then Ret ((val >> (shift_count - 1)) >> 1) else UB
    | arm_shift_asr => if shift_count - 1 <? 32 then Ret ((val >> (shift_count - 1)) >> 1) else UB
    | arm_shift_ror =>
        let n := shift_count mod 32 in
        if n =? 0 then UB else Ret (u32 ((val >> n) .| u32 (val << (32 - n))))
    | arm_shift_rrx => Ret (u32 ((carry_in << 31) .| (val >> 1)))
    end.

Definition arm_expand_imm_c (imm12 : Z) : outcome Z :=
  let unrotated_value := bits imm12 0 7 in
  arm_shift_c unrotated_value arm_shift_ror (2 * bits imm12 8 11) 0.

(** ** One A32 instruction

    [vmaddr] is [relo_cur_src_vmaddr(ctx)], which does not change meanwhile.  The cases
    exclude each other. *)

(** [load_literal_fix_scheme]. *)
Definition arm_load_literal (vmaddr U imm12 Rt : Z) (a : Assembler) : outcome Assembler :=
  let dst_vmaddr := if U =? 1 then u32 (vmaddr + imm12) else u32 (vmaddr - imm12) in
  let regRt := R Rt in
  let '(label, a) := AppendRelocLabel (withData dst_vmaddr) a in
  if code regRt =? code pc then
    a ← Ldr VOLATILE_REGISTER label a;
    ldr regRt (MemOp VOLATILE_REGISTER 0) a
  else
    a ← Ldr regRt label a;
    ldr regRt (MemOp regRt 0) a.

(** [b]/[bl]/[blx]; [dst_vmaddr] is 32 bits wide. *)
Definition arm_branch (vmaddr insn : Z) (a : Assembler) : outcome Assembler :=
  let cond := bits insn 28 31 in
  let H := bit insn 24 in
  let imm24 := bits insn 0 23 in
  let label := SignExtend (imm24 << 2) (2 + 24) in
  let dst_vmaddr := u32 (vmaddr + label) in
  let '(branch_link, cond, dst_vmaddr) :=
    if negb (cond =? 15) && (H =? 0) then (false, cond, dst_vmaddr)
    else if negb (cond =? 15) && (H =? 1) then (true, cond, dst_vmaddr)
    else (true, AL, dst_vmaddr .| 1) in
  a ← (if branch_link then bl_cond cond 0 a else b_cond cond 0 a);
  a ← b 4 a;
  a ← ldr pc (MemOp pc (-4)) a;
  a ← EmitAddress dst_vmaddr a;
  mov r8 (Operand_reg r8) a.

(** The target of ADR; [None] is the [dst_vmaddr] of -1 that means no ADR. *)
Definition arm_adr_target (vmaddr insn : Z) : outcome (option Z) :=
  let opc := bits insn 21 23 in
  let S := bit insn 20 in
  let Rn := bits insn 16 19 in
  imm ← arm_expand_imm_c (bits insn 0 11);
  let dst_vmaddr :=
    if (opc =? 2) && (S =? 0) && (Rn =? 15) then u32 (vmaddr - imm)
    else if (opc =? 4) && (S =? 0) && (Rn =? 15) then u32 (vmaddr + imm)
    else u32 (-1) in
  Ret (if negb (dst_vmaddr =? u32 (-1)) then Some dst_vmaddr else None).

Definition is_arm_load_literal (insn : Z) : bool :=
  let P_W := (bit insn 24 << 1) .| bit insn 21 in
  negb (bits insn 28 31 =? 15) && (bits insn 25 27 =? 2)
  && (bit insn 20 =? 1) && negb (P_W =? 1) && (bits insn 16 19 =? 15).

Definition is_arm_dp_immediate (insn : Z) : bool :=
  negb (bits insn 28 31 =? 15) && (bits insn 25 27 .& 6 =? 0) && (bit insn 25 =? 1)
  && (bits insn 23 24 .& 2 =? 0).

Definition is_arm_branch (insn : Z) : bool := (bits insn 25 27 .& 6 =? 4) && (bit insn 25 =? 1).

Definition ARMRelocateSingleInsn (vmaddr insn : Z) (a : Assembler) : outcome Assembler :=
  if is_arm_load_literal insn then
    arm_load_literal vmaddr (bit insn 23) (bits insn 0 11) (bits insn 12 15) a
  else if is_arm_dp_immediate insn then
    dst ← arm_adr_target vmaddr insn;
    match dst with
    | Some dst_vmaddr =>
        let regRd := R (bits insn 12 15) in
        let '(dst_label, a) := AppendRelocLabel (withData dst_vmaddr) a in
        Ldr regRd dst_label a
    | None => EmitARMInst insn a
    end
  else if is_arm_branch insn then arm_branch vmaddr insn a
  else EmitARMInst insn a.

(** ** One 16-bit Thumb instruction *)

(** The rewritten instruction with [set_bits] on a 16-bit object. *)
Definition set_bits16 (obj st fn v : Z) : Z := u16 (set_bits obj st fn v).

(** [add]/[cmp]/[mov] of the program counter: through [VOLATILE_REGISTER]. *)
Definition thumb1_hireg (vmaddr insn : Z) (a : Assembler) : outcome Assembler :=
  let rewrite_inst := set_bits16 insn 3 6 (code VOLATILE_REGISTER) in
  let '(label, a) := AppendRelocLabel (thumb_withData vmaddr false) a in
  a ← T2_Ldr VOLATILE_REGISTER label a;
  EmitInt16 rewrite_inst a.

Definition thumb1_bx_pc (vmaddr : Z) (a : Assembler) : outcome Assembler :=
  let '(label, a) := AppendRelocLabel (thumb_withData vmaddr true) a in
  T2_Ldr pc label a.

Definition thumb1_blx_pc (vmaddr : Z) (a : Assembler) : outcome Assembler :=
  let '(label, a) := AppendRelocLabel (thumb_withData vmaddr true) a in
  a ← t2_bl 4 a;
  a ← t2_b 4 a;
  T2_Ldr pc label a.

Definition thumb1_ldr_literal (vmaddr insn : Z) (a : Assembler) : outcome Assembler :=
  let imm := bits insn 0 7 << 2 in
  let dst_vmaddr := ALIGN_FLOOR (u32 (vmaddr + imm)) 4 in
  let rt := bits insn 8 10 in
  let '(label, a) := AppendRelocLabel (thumb_withData dst_vmaddr false) a in
  a ← T2_Ldr (R rt) label a;
  t2_ldr (R rt) (MemOp (R rt) 0) a.

Definition thumb1_adr (vmaddr insn : Z) (a : Assembler) : outcome Assembler :=
  let rd := bits insn 8 10 in
  let imm32 := bits insn 0 7 << 2 in
  let dst_vmaddr := u32 (vmaddr + imm32) in
  let '(label, a) := AppendRelocLabel (thumb_withData dst_vmaddr false) a in
  T2_Ldr (R rd) label a.

Definition thumb1_b_cond (vmaddr insn : Z) (a : Assembler) : outcome Assembler :=
  let cond := bits insn 8 11 in
  if 14 <=? cond then Fatal
  else
    let imm := SignExtend (bits insn 0 7 << 1) (8 + 1) in
    let dst_vmaddr := u32 (vmaddr + imm) .| 1 in
    let '(label, a) := AppendRelocLabel (thumb_withData dst_vmaddr true) a in
    let b_cond_insn := set_bits16 0xe000 8 11 cond in
    a ← EmitInt16 (b_cond_insn .| (4 >> 1)) a;
    a ← t1_nop a;
    a ← t2_b 4 a;
    T2_Ldr pc label a.

Definition thumb1_cbz (vmaddr insn : Z) (a : Assembler) : outcome Assembler :=
  let imm := (bit insn 9 << 6) .| (bits insn 3 7 << 1) in
  let dst_vmaddr := u32 (vmaddr + imm) in
  let '(label, a) := AppendRelocLabel (thumb_withData (u32 (dst_vmaddr + 1)) true) a in
  let insn := set_bits16 insn 3 7 (bits 0x4 1 5) in
  let insn := u16 (set_bit insn 9 (bit 0x4 6)) in
  a ← EmitInt16 insn a;
  a ← t1_nop a;
  a ← t2_b 4 a;
  T2_Ldr pc label a.

Definition thumb1_b (vmaddr insn : Z) (a : Assembler) : outcome Assembler :=
  let imm := SignExtend (bits insn 0 10 << 1) (11 + 1) in
  let dst_vmaddr := u32 (vmaddr + imm) in
  let '(label, a) := AppendRelocLabel (thumb_withData (u32 (dst_vmaddr + 1)) true) a in
  T2_Ldr pc label a.

(** The kind of a 16-bit instruction, by the conditions of the source. *)
Inductive thumb1_kind :=
| T1_hireg | T1_bx_pc | T1_blx_pc | T1_ldr_literal | T1_adr | T1_b_cond | T1_cbz | T1_b | T1_copy.

#[export] Instance thumb1_kind_eq_dec : EqDecision thumb1_kind.
Proof. solve_decision. Defined.

Definition thumb1_class (insn : Z) : thumb1_kind :=
  if bits insn 10 15 =? 17 then
    if negb (bits insn 8 9 =? 3) then if bits insn 3 6 =? 15 then T1_hireg else T1_copy
    else if bits insn 3 6 =? code pc then if bit insn 7 =? 0 then T1_bx_pc else T1_blx_pc
    else T1_copy
  else if insn .& 0xf800 =? 0x4800 then T1_ldr_literal
  else if insn .& 0xf800 =? 0xa000 then T1_adr
  else if insn .& 0xf000 =? 0xd000 then T1_b_cond
  else if insn .& 0xf500 =? 0xb100 then T1_cbz
  else if insn .& 0xf800 =? 0xe000 then T1_b
  else T1_copy.

Definition thumb1_body (vmaddr insn : Z) : Assembler -> outcome Assembler :=
  match thumb1_class insn with
  | T1_hireg => thumb1_hireg vmaddr insn
  | T1_bx_pc => thumb1_bx_pc vmaddr
  | T1_blx_pc => thumb1_blx_pc vmaddr
  | T1_ldr_literal => thumb1_ldr_literal vmaddr insn
  | T1_adr => thumb1_adr vmaddr insn
  | T1_b_cond => thumb1_b_cond vmaddr insn
  | T1_cbz => thumb1_cbz vmaddr insn
  | T1_b => thumb1_b vmaddr insn
  | T1_copy => EmitInt16 insn
  end.

(** [bx pc] and [blx pc] record that the code continues in ARM state. *)
Definition thumb1_state_map (vmaddr insn : Z) (m : gmap Z ExecuteState) : gmap Z ExecuteState :=
  match thumb1_class insn with
  | T1_bx_pc | T1_blx_pc => <[vmaddr := ARMExecuteState]> m
  | _ => m
  end.

Definition Thumb1RelocateSingleInsn (vmaddr insn : Z) (a : Assembler) : outcome Assembler :=
  a ← AlignThumbNop a;
  thumb1_body vmaddr insn a.

(** ** One 32-bit Thumb instruction *)

(** The offset of B T4 and BL T1, before the program counter is added. *)
Definition thumb2_branch_imm (insn1 insn2 : Z) : Z :=
  let S := bit insn1 10 in
  let J1 := bit insn2 13 in
  let J2 := bit insn2 11 in
  let i1 := lnot (J1 .^ S) in
  let i2 := lnot (J2 .^ S) in
  SignExtend ((S << 24) .| (i1 << 23) .| (i2 << 22) .| (bits insn1 0 9 << 12) .| (bits insn2 0 10 << 1))
    (1 + 1 + 1 + 10 + 11 + 1).

Definition thumb2_b_cond (vmaddr insn1 insn2 : Z) (a : Assembler) : outcome Assembler :=
  let S := bit insn1 10 in
  let J1 := bit insn2 13 in
  let J2 := bit insn2 11 in
  let imm := SignExtend ((S << 20) .| (J2 << 19) .| (J1 << 18) .| (bits insn1 0 5 << 12) .| (bits insn2 0 10 << 1))
               (1 + 1 + 1 + 6 + 11 + 1) in
  let dst_vmaddr := u32 (vmaddr + imm) .| 1 in
  let b_cond_insn := set_bits16 0xe000 8 11 (bits insn1 6 9) in
  a ← EmitInt16 (b_cond_insn .| (4 >> 1)) a;
  a ← t1_nop a;
  a ← t2_b 8 a;
  a ← t2_ldr pc (MemOp pc 0) a;
  EmitAddress dst_vmaddr a.

Definition thumb2_b (vmaddr insn1 insn2 : Z) (a : Assembler) : outcome Assembler :=
  let dst_vmaddr := u32 (vmaddr + thumb2_branch_imm insn1 insn2) .| 1 in
  a ← t2_ldr pc (MemOp pc 0) a;
  EmitAddress dst_vmaddr a.

(** The common tail of BL and BLX. *)
Definition thumb2_call (dst_vmaddr : Z) (a : Assembler) : outcome Assembler :=
  a ← t2_bl 4 a;
  a ← t2_b 8 a;
  a ← t2_ldr pc (MemOp pc 0) a;
  EmitAddress dst_vmaddr a.

Definition thumb2_bl (vmaddr insn1 insn2 : Z) : Assembler -> outcome Assembler :=
  thumb2_call (u32 (vmaddr + thumb2_branch_imm insn1 insn2) .| 1).

(** The width given to [SignExtend] is 24. *)
Definition thumb2_blx (vmaddr insn1 insn2 : Z) : Assembler -> outcome Assembler :=
  let S := bit insn1 10 in
  let J1 := bit insn2 13 in
  let J2 := bit insn2 11 in
  let i1 := lnot (J1 .^ S) in
  let i2 := lnot (J2 .^ S) in
  let imm := SignExtend ((S << 24) .| (i1 << 23) .| (i2 << 22) .| (bits insn1 0 9 << 12) .| (bits insn2 1 10 << 2))
               (1 + 1 + 1 + 10 + 10 + 1) in
  thumb2_call (u32 (ALIGN_FLOOR vmaddr 4 + imm)).

Definition thumb2_adr (vmaddr insn1 insn2 : Z) (a : Assembler) : outcome Assembler :=
  let o1 := bit insn1 7 in
  let o2 := bit insn1 5 in
  let rd := bits insn2 8 11 in
  let imm := (bit insn1 10 << 11) .| (bits insn2 12 14 << 8) .| bits insn2 0 7 in
  let dst_vmaddr := if (o1 =? 0) && (o2 =? 0) then u32 (vmaddr + imm) else u32 (vmaddr - imm) in
  a ← t2_ldr (R rd) (MemOp pc 4) a;
  a ← t2_b 0 a;
  EmitAddress dst_vmaddr a.

Definition thumb2_ldr_literal (vmaddr insn1 insn2 : Z) (a : Assembler) : outcome Assembler :=
  let imm := bits insn2 0 11 in
  let rt := bits insn2 12 15 in
  let dst_vmaddr := if bit insn1 7 =? 1 then u32 (vmaddr + imm) else u32 (vmaddr - imm) in
  a ← t2_ldr (R rt) (MemOp pc 8) a;
  a ← t2_ldr (R rt) (MemOp (R rt) 0) a;
  a ← t2_b 4 a;
  EmitAddress dst_vmaddr a.

Inductive thumb2_kind := T2_b_cond | T2_b | T2_bl | T2_blx | T2_adr | T2_ldr_literal | T2_copy.

#[export] Instance thumb2_kind_eq_dec : EqDecision thumb2_kind.
Proof. solve_decision. Defined.

Definition thumb2_class (insn1 insn2 : Z) : thumb2_kind :=
  let op1 := bits insn1 6 9 in
  let op3 := bits insn2 12 14 in
  if (insn1 .& 0xf800 =? 0xf000) && (insn2 .& 0x8000 =? 0x8000) then
    if negb (op1 .& 14 =? 14) && (op3 .& 5 =? 0) then T2_b_cond
    else if op3 .& 5 =? 1 then T2_b
    else if op3 .& 5 =? 5 then T2_bl
    else if op3 .& 5 =? 4 then T2_blx
    else T2_copy
  else if (insn1 .& 0xfa10 =? 0xf200) && (insn2 .& 0x8000 =? 0) && (bit insn1 8 =? 0) && (bits insn2 5 6 .& 2 =? 0)
          && (((bit insn1 7 =? 0) && (bit insn1 5 =? 0)) || ((bit insn1 7 =? 1) && (bit insn1 5 =? 1)))
          && (bits insn1 0 3 =? 15) then T2_adr
  else if insn1 .& 0xff7f =? 0xf85f then T2_ldr_literal
  else T2_copy.

Definition thumb2_body (vmaddr insn1 insn2 : Z) : Assembler -> outcome Assembler :=
  match thumb2_class insn1 insn2 with
  | T2_b_cond => thumb2_b_cond vmaddr insn1 insn2
  | T2_b => thumb2_b vmaddr insn1 insn2
  | T2_bl => thumb2_bl vmaddr insn1 insn2
  | T2_blx => thumb2_blx vmaddr insn1 insn2
  | T2_adr => thumb2_adr vmaddr insn1 insn2
  | T2_ldr_literal => thumb2_ldr_literal vmaddr insn1 insn2
  | T2_copy => Emit2Int16 insn1 insn2
  end.

Definition Thumb2RelocateSingleInsn (vmaddr insn1 insn2 : Z) (a : Assembler) : outcome Assembler :=
  a ← AlignThumbNop a;
  thumb2_body vmaddr insn1 insn2 a.

(** ** The context

    [source] is what is readable from [ctx->buffer] on; the cursor is relative to it.  [thumb_assembler] and
    [arm_assembler] are the fields of the assemblers that are not shared. *)

Record asm_priv := { a_state : ExecuteState; a_labels : list RelocDataLabel }.

Record relo_ctx_t := {
  source : list Z;
  buffer_cursor : Z;
  src_size : Z;
  src_vmaddr : Z;
  relocated_buffer : MemBuffer;
  start_state : ExecuteState;
  curr_state : ExecuteState;
  thumb_assembler : asm_priv;
  arm_assembler : asm_priv;
  execute_state_map : gmap Z ExecuteState;
  relocated_offset_map : gmap Z Z;
}.

Definition relo_cur_src_vmaddr (ctx : relo_ctx_t) : Z :=
  u32 (src_vmaddr ctx + buffer_cursor ctx
       + match curr_state ctx with ARMExecuteState => ARM_PC_OFFSET | ThumbExecuteState => Thumb_PC_OFFSET end).

Definition check_execute_state_changed (ctx : relo_ctx_t) (insn_addr : Z) : bool :=
  bool_decide (is_Some (execute_state_map ctx !! insn_addr)).

(** An assembler object of the context, both of which were created for address 0. *)
Definition view (p : asm_priv) (b : MemBuffer) : Assembler :=
  {| realized_addr_ := 0; execute_state_ := a_state p; buffer_ := b; data_labels := a_labels p |}.
Definition priv (a : Assembler) : asm_priv := {| a_state := execute_state_ a; a_labels := data_labels a |}.

Definition arm_view (ctx : relo_ctx_t) : Assembler := view (arm_assembler ctx) (relocated_buffer ctx).
Definition thumb_view (ctx : relo_ctx_t) : Assembler := view (thumb_assembler ctx) (relocated_buffer ctx).
Definition put_arm (a : Assembler) (ctx : relo_ctx_t) : relo_ctx_t :=
  {| source := source ctx; buffer_cursor := buffer_cursor ctx; src_size := src_size ctx; src_vmaddr := src_vmaddr ctx;
     relocated_buffer := buffer_ a; start_state := start_state ctx; curr_state := curr_state ctx;
     thumb_assembler := thumb_assembler ctx; arm_assembler := priv a; execute_state_map := execute_state_map ctx;
     relocated_offset_map := relocated_offset_map ctx |}.
Definition put_thumb (a : Assembler) (ctx : relo_ctx_t) : relo_ctx_t :=
  {| source := source ctx; buffer_cursor := buffer_cursor ctx; src_size := src_size ctx; src_vmaddr := src_vmaddr ctx;
     relocated_buffer := buffer_ a; start_state := start_state ctx; curr_state := curr_state ctx;
     thumb_assembler := priv a; arm_assembler := arm_assembler ctx; execute_state_map := execute_state_map ctx;
     relocated_offset_map := relocated_offset_map ctx |}.

(** [ctx->buffer_cursor += n]. *)
Definition advance (n : Z) (ctx : relo_ctx_t) : relo_ctx_t :=
  {| source := source ctx; buffer_cursor := buffer_cursor ctx + n; src_size := src_size ctx; src_vmaddr := src_vmaddr ctx;
     relocated_buffer := relocated_buffer ctx; start_state := start_state ctx; curr_state := curr_state ctx;
     thumb_assembler := thumb_assembler ctx; arm_assembler := arm_assembler ctx;
     execute_state_map := execute_state_map ctx; relocated_offset_map := relocated_offset_map ctx |}.
(** [ctx->relocated_offset_map[orig_off] = relocated_off]. *)
Definition record_offset (ctx : relo_ctx_t) : relo_ctx_t :=
  {| source := source ctx; buffer_cursor := buffer_cursor ctx; src_size := src_size ctx; src_vmaddr := src_vmaddr ctx;
     relocated_buffer := relocated_buffer ctx; start_state := start_state ctx; curr_state := curr_state ctx;
     thumb_assembler := thumb_assembler ctx; arm_assembler := arm_assembler ctx;
     execute_state_map := execute_state_map ctx;
     relocated_offset_map := <[u32 (buffer_cursor ctx) := size (relocated_buffer ctx)]> (relocated_offset_map ctx) |}.
Definition put_state_map (m : gmap Z ExecuteState) (ctx : relo_ctx_t) : relo_ctx_t :=
  {| source := source ctx; buffer_cursor := buffer_cursor ctx; src_size := src_size ctx; src_vmaddr := src_vmaddr ctx;
     relocated_buffer := relocated_buffer ctx; start_state := start_state ctx; curr_state := curr_state ctx;
     thumb_assembler := thumb_assembler ctx; arm_assembler := arm_assembler ctx;
     execute_state_map := m; relocated_offset_map := relocated_offset_map ctx |}.

(** The four bytes at the cursor: both relocators read a word. *)
Definition load_insn (ctx : relo_ctx_t) : outcome Z :=
  if buffer_cursor ctx + 4 <=? Z.of_nat (length (source ctx))
  then Ret (le_val (take 4 (drop (Z.to_nat (buffer_cursor ctx)) (source ctx)))) else UB.

Definition remaining (ctx : relo_ctx_t) : bool := buffer_cursor ctx <? src_size ctx.

(** ** The loops *)

(** One iteration of [gen_arm_relocate_code] up to the test of the execution state. *)
Definition arm_iteration (ctx : relo_ctx_t) : outcome relo_ctx_t :=
  let ctx := record_offset ctx in
  insn ← load_insn ctx;
  a ← ARMRelocateSingleInsn (relo_cur_src_vmaddr ctx) insn (arm_view ctx);
  Ret (advance ARM_INST_LEN (put_arm a ctx)).

Fixpoint arm_loop (fuel : nat) (ctx : relo_ctx_t) : outcome relo_ctx_t :=
  if remaining ctx then
    match fuel with
    | O => UB
    | S fuel =>
        ctx ← arm_iteration ctx;
        let next_insn_addr := u32 (relo_cur_src_vmaddr ctx - ARM_PC_OFFSET) in
        if check_execute_state_changed ctx next_insn_addr then Ret ctx else arm_loop fuel ctx
    end
  else Ret ctx.

Definition gen_arm_relocate_code (fuel : nat) (ctx : relo_ctx_t) : outcome relo_ctx_t :=
  ctx ← arm_loop fuel ctx;
  Ret (if remaining ctx then put_arm (SetExecuteState ThumbExecuteState (arm_view ctx)) ctx else ctx).

(** One iteration of [gen_thumb_relocate_code]. *)
Definition thumb_iteration (ctx : relo_ctx_t) : outcome relo_ctx_t :=
  let ctx := record_offset ctx in
  a ← t1_nop (thumb_view ctx);
  let ctx := put_thumb a ctx in
  insn ← load_insn ctx;
  let vmaddr := relo_cur_src_vmaddr ctx in
  if is_thumb2 insn then
    a ← Thumb2RelocateSingleInsn vmaddr (u16 insn) (u16 (insn >> 16)) (thumb_view ctx);
    Ret (advance Thumb2_INST_LEN (put_thumb a ctx))
  else
    a ← Thumb1RelocateSingleInsn vmaddr (u16 insn) (thumb_view ctx);
    Ret (advance Thumb1_INST_LEN (put_thumb a (put_state_map (thumb1_state_map vmaddr (u16 insn) (execute_state_map ctx)) ctx))).

Fixpoint thumb_loop (fuel : nat) (ctx : relo_ctx_t) : outcome relo_ctx_t :=
  if remaining ctx then
    match fuel with
    | O => UB
    | S fuel =>
        ctx ← thumb_iteration ctx;
        let next_insn_addr := u32 (relo_cur_src_vmaddr ctx - Thumb_PC_OFFSET) in
        if check_execute_state_changed ctx next_insn_addr then Ret ctx else thumb_loop fuel ctx
    end
  else Ret ctx.

Definition gen_thumb_relocate_code (fuel : nat) (ctx : relo_ctx_t) : outcome relo_ctx_t :=
  ctx ← thumb_loop fuel ctx;
  Ret (if remaining ctx then put_thumb (SetExecuteState ARMExecuteState (thumb_view ctx)) ctx else ctx).

(** From the label [relocate_remain] on.  [curr_state] is never assigned, so code that changes its state goes
    on in the relocator it started with. *)
Fixpoint relocate_remain (fuel : nat) (ctx : relo_ctx_t) : outcome relo_ctx_t :=
  match fuel with
  | O => UB
  | S fuel' =>
      match curr_state ctx with
      | ThumbExecuteState =>
          ctx ← gen_thumb_relocate_code fuel ctx;
          if bool_decide (a_state (thumb_assembler ctx) = ARMExecuteState) && remaining ctx then
            a ← (if negb (pc_offset (thumb_view ctx) mod 4 =? 0) then t1_nop (thumb_view ctx) else Ret (thumb_view ctx));
            relocate_remain fuel' (put_thumb a ctx)
          else Ret ctx
      | ARMExecuteState =>
          ctx ← gen_arm_relocate_code fuel ctx;
          if bool_decide (a_state (arm_assembler ctx) = ThumbExecuteState) && remaining ctx
          then relocate_remain fuel' ctx
          else Ret ctx
      end
  end.

(** [RelocLabelFixup]: a literal whose value is an offset of the block becomes the offset in the relocated code. *)
Definition fixup_label (m : gmap Z Z) (l : RelocDataLabel) : RelocDataLabel :=
  match m !! label_data l with Some off => fixupData off l | None => l end.
Definition RelocLabelFixup (m : gmap Z Z) (a : Assembler) : Assembler :=
  with_labels (map (fixup_label m) (data_labels a)) a.

(** [GenRelocateCode] up to [FinalizeFromTurboAssembler]: the new length of the origin block and the buffer.
    [buffer] is the address of the code, odd for Thumb; [code] is readable from it on. *)
Definition GenRelocateCode (buffer origin_addr origin_size : Z) (code : list Z) (branch : bool)
    : outcome (Z * MemBuffer) :=
  let start := if negb (buffer mod 2 =? 0) then ThumbExecuteState else ARMExecuteState in
  let ctx := {| source := code; buffer_cursor := 0; src_size := origin_size; src_vmaddr := origin_addr;
                relocated_buffer := MemBuffer_new; start_state := start; curr_state := start;
                thumb_assembler := {| a_state := ThumbExecuteState; a_labels := [] |};
                arm_assembler := {| a_state := ARMExecuteState; a_labels := [] |};
                execute_state_map := ∅; relocated_offset_map := ∅ |} in
  ctx ← relocate_remain (S (Z.to_nat origin_size)) ctx;
  let new_origin_len := buffer_cursor ctx in
  ctx ← (if branch then
           match curr_state ctx with
           | ThumbExecuteState =>
               a ← AlignThumbNop (thumb_view ctx);
               a ← t2_ldr pc (MemOp pc 0) a;
               a ← EmitAddress (u32 (origin_addr + new_origin_len + THUMB_ADDRESS_FLAG)) a;
               Ret (put_thumb a ctx)
           | ARMExecuteState =>
               a ← LiteralLdrBranch (u32 (origin_addr + new_origin_len)) (arm_view ctx);
               Ret (put_arm a ctx)
           end
         else Ret ctx);
  let ctx := put_arm (RelocLabelFixup (relocated_offset_map ctx) (arm_view ctx)) ctx in
  let ctx := put_thumb (RelocLabelFixup (relocated_offset_map ctx) (thumb_view ctx)) ctx in
  a ← thumb_relocDataLabels (thumb_view ctx);
  let ctx := put_thumb a ctx in
  a ← relocDataLabels (arm_view ctx);
  let ctx := put_arm a ctx in
  Ret (new_origin_len, relocated_buffer ctx).
