(* ===== verification/Arm32Emission.v ===== *)
(** * What the ARM32 relocator emits

    Every instruction contributes an [item]: its bytes, and where in them a literal is
    loaded.  The relocators are shown to emit exactly the items, and [relocDataLabels] to
    append the literals and to put the distance into each load. *)

From stdpp Require Import gmap.
From S2P Require Import Prelude UtilityMacro CodeMemBuffer Arm32Assembler Arm32Relocation.
#[local] Open Scope machine_scope.
#[local] Open Scope Z_scope.

(** ** Items *)

(** The bytes; the offset in them of the instruction that loads a literal, and the
    literal. *)
Record item := { i_bytes : list Z; i_lit : option (nat * Z) }.

(** Words and halfwords as bytes. *)
Definition flat (n : nat) (ws : list Z) : list Z := concat (map (le_bytes n) ws).

(** *** A32 *)

(** [ldr rt, [rn]] and [ldr rt, [pc, #0]]. *)
Definition arm_ldr (rt rn : Z) : Z := 0xe5900000 + rn * 2 ^ 16 + rt * 2 ^ 12.

Definition arm_literal_item (rt dst : Z) : item :=
  let r := if rt =? 15 then 12 else rt in
  {| i_bytes := flat 4 [arm_ldr r 15; arm_ldr rt r]; i_lit := Some (0%nat, dst) |}.

(** [b<cond> #0; b #4; ldr pc, [pc, #-4]; dst; mov r8, r8]. *)
Definition arm_branch_item (link : bool) (cond dst : Z) : item :=
  {| i_bytes := flat 4 [(if link then 0x0b000000 else 0x0a000000) + cond * 2 ^ 28; 0xea000001; 0xe51ff004; dst; 0xe1a08008];
     i_lit := None |}.

Definition arm_adr_item (rd dst : Z) : item := {| i_bytes := flat 4 [arm_ldr rd 15]; i_lit := Some (0%nat, dst) |}.

(** The rotated immediate. *)
Definition ror_imm (imm12 : Z) : Z :=
  let n := 2 * bits imm12 8 11 in
  if n =? 0 then bits imm12 0 7 else u32 ((bits imm12 0 7 >> n) .| u32 (bits imm12 0 7 << (32 - n))).

Definition adr_dst (vmaddr insn : Z) : option Z :=
  let v := if bits insn 20 23 =? 4 then u32 (vmaddr - ror_imm (bits insn 0 11)) else u32 (vmaddr + ror_imm (bits insn 0 11)) in
  if (bits insn 16 19 =? 15) && ((bits insn 20 23 =? 4) || (bits insn 20 23 =? 8)) && negb (v =? 2 ^ 32 - 1)
  then Some v else None.

Definition branch_dst (vmaddr insn : Z) : Z := u32 (vmaddr + sext 26 (bits insn 0 23 << 2)).

Definition arm_item (vmaddr insn : Z) : item :=
  let copy := {| i_bytes := le_bytes 4 insn; i_lit := None |} in
  if is_arm_load_literal insn then
    arm_literal_item (bits insn 12 15)
      (if bit insn 23 =? 1 then u32 (vmaddr + bits insn 0 11) else u32 (vmaddr - bits insn 0 11))
  else if is_arm_dp_immediate insn then
    match adr_dst vmaddr insn with Some dst => arm_adr_item (bits insn 12 15) dst | None => copy end
  else if is_arm_branch insn then
    if bits insn 28 31 =? 15 then arm_branch_item true AL (branch_dst vmaddr insn .| 1)
    else arm_branch_item (bit insn 24 =? 1) (bits insn 28 31) (branch_dst vmaddr insn)
  else copy.

(** *** T32 *)

Definition NOP : Z := 0xbf00.
(** [ldr.w rt, [pc, #-0]] and [ldr.w rt, [rn]]. *)
Definition t2_lit (rt : Z) : list Z := [0xf85f; rt * 2 ^ 12].
Definition t2_mem (rt rn : Z) : list Z := [0xf8d0 + rn; rt * 2 ^ 12].
(** [b.w #4], [b.w #8], [b.w #0] and [bl #4]. *)
Definition B4 : list Z := [0xf000; 0xb802].
Definition B8 : list Z := [0xf000; 0xb804].
Definition B0 : list Z := [0xf000; 0xb800].
Definition BL4 : list Z := [0xf000; 0xf802].

Definition t1_item (vmaddr insn : Z) : option item :=
  match thumb1_class insn with
  | T1_hireg => Some {| i_bytes := flat 2 (t2_lit 12 ++ [set_bits16 insn 3 6 12]); i_lit := Some (0%nat, vmaddr) |}
  | T1_bx_pc => Some {| i_bytes := flat 2 (t2_lit 15); i_lit := Some (0%nat, vmaddr) |}
  | T1_blx_pc => Some {| i_bytes := flat 2 (BL4 ++ B4 ++ t2_lit 15); i_lit := Some (8%nat, vmaddr) |}
  | T1_ldr_literal =>
      Some {| i_bytes := flat 2 (t2_lit (bits insn 8 10) ++ t2_mem (bits insn 8 10) (bits insn 8 10));
              i_lit := Some (0%nat, ALIGN_FLOOR (u32 (vmaddr + (bits insn 0 7 << 2))) 4) |}
  | T1_adr =>
      Some {| i_bytes := flat 2 (t2_lit (bits insn 8 10)); i_lit := Some (0%nat, u32 (vmaddr + (bits insn 0 7 << 2))) |}
  | T1_b_cond =>
      if 14 <=? bits insn 8 11 then None
      else Some {| i_bytes := flat 2 ([0xe002 + bits insn 8 11 * 2 ^ 8; NOP] ++ B4 ++ t2_lit 15);
                   i_lit := Some (8%nat, u32 (vmaddr + sext 9 (bits insn 0 7 << 1)) .| 1) |}
  | T1_cbz =>
      Some {| i_bytes := flat 2 ([u16 (set_bit (set_bits16 insn 3 7 2) 9 0); NOP] ++ B4 ++ t2_lit 15);
              i_lit := Some (8%nat, u32 (vmaddr + ((bit insn 9 << 6) .| (bits insn 3 7 << 1)) + 1)) |}
  | T1_b => Some {| i_bytes := flat 2 (t2_lit 15); i_lit := Some (0%nat, u32 (vmaddr + sext 12 (bits insn 0 10 << 1) + 1)) |}
  | T1_copy => Some {| i_bytes := le_bytes 2 insn; i_lit := None |}
  end.

Definition call_item (dst : Z) : item :=
  {| i_bytes := flat 2 (BL4 ++ B8 ++ t2_lit 15) ++ le_bytes 4 dst; i_lit := None |}.

Definition blx_imm (insn1 insn2 : Z) : Z :=
  let S := bit insn1 10 in
  let i1 := lnot (bit insn2 13 .^ S) in
  let i2 := lnot (bit insn2 11 .^ S) in
  SignExtend ((S << 24) .| (i1 << 23) .| (i2 << 22) .| (bits insn1 0 9 << 12) .| (bits insn2 1 10 << 2)) 24.

Definition b_cond_imm (insn1 insn2 : Z) : Z :=
  SignExtend ((bit insn1 10 << 20) .| (bit insn2 11 << 19) .| (bit insn2 13 << 18)
              .| (bits insn1 0 5 << 12) .| (bits insn2 0 10 << 1)) 21.

Definition t2_adr_imm (insn1 insn2 : Z) : Z :=
  (bit insn1 10 << 11) .| (bits insn2 12 14 << 8) .| bits insn2 0 7.

Definition t2_item (vmaddr insn1 insn2 : Z) : item :=
  match thumb2_class insn1 insn2 with
  | T2_b_cond =>
      {| i_bytes := flat 2 ([0xe002 + bits insn1 6 9 * 2 ^ 8; NOP] ++ B8 ++ t2_lit 15)
                    ++ le_bytes 4 (u32 (vmaddr + b_cond_imm insn1 insn2) .| 1);
         i_lit := None |}
  | T2_b =>
      {| i_bytes := flat 2 (t2_lit 15) ++ le_bytes 4 (u32 (vmaddr + thumb2_branch_imm insn1 insn2) .| 1); i_lit := None |}
  | T2_bl => call_item (u32 (vmaddr + thumb2_branch_imm insn1 insn2) .| 1)
  | T2_blx => call_item (u32 (ALIGN_FLOOR vmaddr 4 + blx_imm insn1 insn2))
  | T2_adr =>
      let imm := t2_adr_imm insn1 insn2 in
      {| i_bytes := flat 2 ([0xf8df; bits insn2 8 11 * 2 ^ 12 + 4] ++ B0)
                    ++ le_bytes 4 (if bit insn1 7 =? 0 then u32 (vmaddr + imm) else u32 (vmaddr - imm));
         i_lit := None |}
  | T2_ldr_literal =>
      let imm := bits insn2 0 11 in
      let rt := bits insn2 12 15 in
      {| i_bytes := flat 2 ([0xf8df; rt * 2 ^ 12 + 8] ++ (if rt =? 15 then t2_lit 15 else t2_mem rt rt) ++ B4)
                    ++ le_bytes 4 (if bit insn1 7 =? 1 then u32 (vmaddr + imm) else u32 (vmaddr - imm));
         i_lit := None |}
  | T2_copy => {| i_bytes := le_bytes 2 insn1 ++ le_bytes 2 insn2; i_lit := None |}
  end.

(** The nops in front of the sequence of an instruction: the relocator's own, the one that aligns it and, behind a
    change of the execution state, the one that aligns ARM code.  [o] is the offset at which the nops start. *)
Definition pad_count (interrupted : bool) (o : Z) : nat :=
  if o mod 4 =? 0 then 2 else if interrupted then 3 else 1.
Definition padded (n : nat) (it : item) : item :=
  {| i_bytes := flat 2 (replicate n NOP) ++ i_bytes it;
     i_lit := match i_lit it with Some (k, dst) => Some ((2 * n + k)%nat, dst) | None => None end |}.

(** *** Literals and their loads *)

(** The literals of consecutive items with the offset of the instruction that loads each, the first item starting
    at [o]. *)
Fixpoint all_lits (o : nat) (its : list item) : list (nat * Z) :=
  match its with
  | [] => []
  | it :: its =>
      match i_lit it with Some (k, dst) => [((o + k)%nat, dst)] | None => [] end
      ++ all_lits (o + length (i_bytes it)) its
  end.
Definition all_bytes (its : list item) : list Z := concat (map i_bytes its).
Definition lit_bytes (lits : list (nat * Z)) : list Z := concat (map (fun l => le_bytes 4 (snd l)) lits).

(** The instruction with the distance [d] from itself to the literal. *)
Definition arm_slot (d : Z) (slot : list Z) : list Z :=
  let inst := le_val slot in
  let imm12 := d - 8 in
  le_bytes 4 (if 0 <? imm12 then set_bits (set_bit inst 23 1) 0 11 imm12
              else set_bits (set_bit inst 23 0) 0 11 (- imm12)).
Definition thumb_slot (d : Z) (slot : list Z) : list Z :=
  let insn1 := le_val (take 2 slot) in
  let insn2 := le_val (drop 2 slot) in
  let imm12 := d - 4 in
  le_bytes 2 (u16 (set_bit insn1 7 (if 0 <? imm12 then 1 else 0)))
  ++ le_bytes 2 (u16 (set_bits insn2 0 11 (if 0 <? imm12 then imm12 else - imm12))).

Definition slot_at (l : list Z) (off : nat) : list Z := take 4 (drop off l).

(** Literal number [j] is bound at byte [p + 4 * j]. *)
Fixpoint patch (slot : Z -> list Z -> list Z) (lits : list (nat * Z)) (p : Z) (l : list Z) : list Z :=
  match lits with
  | [] => l
  | (off, _) :: lits =>
      patch slot lits (p + 4) (splice l off (slot (p - Z.of_nat off) (slot_at l off)))
  end.

(** ** Emission *)

Lemma a32_flat_app n ws ws' : flat n (ws ++ ws') = flat n ws ++ flat n ws'.
Proof. unfold flat. by rewrite map_app, concat_app. Qed.

Lemma a32_length_flat n ws : length (flat n ws) = (n * length ws)%nat.
Proof.
  induction ws as [|w ws IH]; [simpl; lia|]. unfold flat in *. cbn [map concat]. rewrite length_app, IH, length_le_bytes.
  simpl length. lia.
Qed.

Lemma a32_flat_ok n ws : bytes_ok (flat n ws).
Proof.
  induction ws as [|w ws IH]; [constructor|]. apply bytes_ok_app. split; [apply le_bytes_ok|exact IH].
Qed.

Definition fits (l bs : list Z) : Prop := Z.of_nat (length l) + Z.of_nat (length bs) <= cb_limit.

(** [emits f bs]: [f] appends the bytes and touches nothing else. *)
Definition emits (f : Assembler -> outcome Assembler) (bs : list Z) : Prop :=
  forall a l, membuffer_rep (buffer_ a) l -> fits l bs ->
  exists m, f a = Ret (with_buffer m a) /\ membuffer_rep m (l ++ bs).

Lemma a32_emits_bytes bs : bytes_ok bs -> emits (emit_bytes bs) bs.
Proof.
  intros Hbs a l Hm Hf. unfold emit_bytes.
  destruct (emit_ok (buffer_ a) l bs Hm Hbs Hf) as (m & -> & Hm'). by exists m.
Qed.

Lemma a32_emits_bind f g b1 b2 : emits f b1 -> emits g b2 -> emits (fun a => a ← f a; g a) (b1 ++ b2).
Proof.
  intros Hf Hg a l Hm Hfit. unfold fits in *. rewrite length_app in Hfit.
  destruct (Hf a l Hm) as (m1 & -> & H1); [unfold fits; lia|]. cbn [mbind outcome_bind].
  destruct (Hg (with_buffer m1 a) (l ++ b1) H1) as (m2 & -> & H2); [unfold fits; rewrite length_app; lia|].
  exists m2. rewrite app_assoc. by split.
Qed.

Lemma a32_emits_Ret : emits Ret [].
Proof. intros a l Hm _. exists (buffer_ a). rewrite app_nil_r. split; [by destruct a|done]. Qed.

Lemma a32_emits_ext f bs bs' : emits f bs -> bs = bs' -> emits f bs'.
Proof. by intros ? <-. Qed.

Create HintDb emission.

(** An encoder whose word is known. *)
Lemma emits_word32 v w : u32 v = w -> emits (EmitARMInst v) (le_bytes 4 w).
Proof. intros <-. apply a32_emits_bytes, le_bytes_ok. Qed.
Lemma emits_address v : emits (EmitAddress v) (le_bytes 4 (u32 v)).
Proof. apply a32_emits_bytes, le_bytes_ok. Qed.
Lemma emits_half v w : u16 v = w -> emits (EmitInt16 v) (le_bytes 2 w).
Proof. intros <-. apply a32_emits_bytes, le_bytes_ok. Qed.

(** *** A32 *)

Lemma emits_arm_ldr rt rn : 0 <= rt < 16 -> 0 <= rn < 16 -> emits (ldr rt (MemOp rn 0)) (le_bytes 4 (arm_ldr rt rn)).
Proof.
  intros Ht Hn. unfold ldr, load_store. cbn [enc_MemOperand MemOp m_rm IsValid no_reg Z.eqb negb].
  apply emits_word32. unfold arm_ldr.
  each_index rt 16%nat ltac:(idtac; each_index rn 16%nat ltac:(vm_compute; reflexivity)).
Qed.

Lemma emits_LiteralLdrBranch v : emits (LiteralLdrBranch v) (flat 4 [0xe51ff004; u32 v]).
Proof.
  apply (a32_emits_bind (ldr pc (MemOp pc (-4))) _ (le_bytes 4 0xe51ff004) (flat 4 [u32 v]));
    [by apply emits_word32|]. eapply a32_emits_ext; [apply emits_address|]. cbn. by rewrite ?app_nil_r.
Qed.

Lemma emits_b_cond cond : 0 <= cond < 16 -> emits (b_cond cond 0) (le_bytes 4 (0x0a000000 + cond * 2 ^ 28)).
Proof. intros H. apply emits_word32. each_index cond 16%nat ltac:(vm_compute; reflexivity). Qed.
Lemma emits_bl_cond cond : 0 <= cond < 16 -> emits (bl_cond cond 0) (le_bytes 4 (0x0b000000 + cond * 2 ^ 28)).
Proof. intros H. apply emits_word32. each_index cond 16%nat ltac:(vm_compute; reflexivity). Qed.

(** The five words of a relocated branch. *)
Lemma emits_arm_branch (link : bool) cond dst :
  0 <= cond < 16 -> 0 <= dst < 2 ^ 32 ->
  emits (fun a => a ← (if link then bl_cond cond 0 a else b_cond cond 0 a); a ← b 4 a; a ← ldr pc (MemOp pc (-4)) a;
                  a ← EmitAddress dst a; mov r8 (Operand_reg r8) a)
    (i_bytes (arm_branch_item link cond dst)).
Proof.
  intros Hc Hd. cbn [i_bytes arm_branch_item]. unfold flat. cbn [map concat]. rewrite app_nil_r.
  apply (a32_emits_bind (fun a => if link then bl_cond cond 0 a else b_cond cond 0 a)).
  { destruct link; [by apply emits_bl_cond|by apply emits_b_cond]. }
  apply (a32_emits_bind (b 4)); [by apply emits_word32|].
  apply (a32_emits_bind (ldr pc (MemOp pc (-4)))); [by apply emits_word32|].
  apply (a32_emits_bind (EmitAddress dst)); [|by apply emits_word32].
  eapply a32_emits_ext; [apply emits_address|]. by rewrite wrap_small.
Qed.

(** *** T32 *)

Lemma emits_nop : emits t1_nop (flat 2 [NOP]).
Proof. by apply emits_half. Qed.

Lemma emits_two v1 v2 w1 w2 : u16 v1 = w1 -> u16 v2 = w2 ->
  emits (fun a => a ← EmitInt16 v1 a; EmitInt16 v2 a) (flat 2 [w1; w2]).
Proof.
  intros E1 E2. apply (a32_emits_bind (EmitInt16 v1) (EmitInt16 v2) (le_bytes 2 w1) (flat 2 [w2])); by apply emits_half.
Qed.

Lemma emits_t2_lit rt : 0 <= rt < 16 -> emits (t2_ldr rt (MemOp pc 0)) (flat 2 (t2_lit rt)).
Proof.
  intros H. unfold t2_ldr, EmitThumb2LoadStore. simpl (Is _ _). cbn iota.
  unfold EmitThumb2LoadLiteral. simpl (m_offset _). simpl (0 <? 0). cbn iota zeta.
  apply emits_two; [done|]. each_index rt 16%nat ltac:(vm_compute; reflexivity).
Qed.

Lemma emits_t2_literal_at rt off : 0 <= rt < 16 -> 0 < off < 4096 ->
  emits (t2_ldr rt (MemOp pc off)) (flat 2 [0xf8df; rt * 2 ^ 12 + off]).
Proof.
  intros H Ho. unfold t2_ldr, EmitThumb2LoadStore. simpl (Is _ _). cbn iota.
  unfold EmitThumb2LoadLiteral. simpl (m_offset _). destruct (Z.ltb_spec 0 off); [|lia]. cbn iota zeta.
  apply emits_two; [done|]. unfold code. rewrite Z.lor_0_l, Z.shiftl_mul_pow2 by lia.
  rewrite lor_disjoint_add; [apply wrap_small; lia|].
  apply Z.bits_inj'. intros i Hi. rewrite Z.land_spec, Z.testbit_0_l, <- Z.shiftl_mul_pow2, testbit_shiftl by lia.
  destruct (Z.ltb_spec i 12); [by rewrite Z.testbit_neg_r by lia|].
  rewrite (testbit_high 12 off) by lia. btauto.
Qed.

Lemma emits_t2_mem rt rn : 0 <= rt < 16 -> 0 <= rn < 15 -> emits (t2_ldr rt (MemOp rn 0)) (flat 2 (t2_mem rt rn)).
Proof.
  intros H Hn. unfold t2_ldr, EmitThumb2LoadStore, Is. cbn [m_rn MemOp].
  destruct (Z.eqb_spec pc rn) as [E|]; [unfold pc in E; lia|].
  change (IsRegisterOffset (MemOp rn 0) && (0 <=? m_offset (MemOp rn 0))) with true. cbn iota. unfold t2_mem.
  apply emits_two.
  - each_index rn 15%nat ltac:(vm_compute; reflexivity).
  - each_index rt 16%nat ltac:(vm_compute; reflexivity).
Qed.

Lemma emits_B4 : emits (t2_b 4) (flat 2 B4).
Proof. apply (emits_two 0xf000 0xb802); reflexivity. Qed.
Lemma emits_B8 : emits (t2_b 8) (flat 2 B8).
Proof. apply (emits_two 0xf000 0xb804); reflexivity. Qed.
Lemma emits_B0 : emits (t2_b 0) (flat 2 B0).
Proof. apply (emits_two 0xf000 0xb800); reflexivity. Qed.
Lemma emits_BL4 : emits (t2_bl 4) (flat 2 BL4).
Proof. apply (emits_two 0xf000 0xf802); reflexivity. Qed.

#[export] Hint Resolve emits_nop emits_B4 emits_B8 emits_B0 emits_BL4 emits_t2_lit emits_t2_mem emits_address
  emits_LiteralLdrBranch a32_emits_Ret : emission.

(** ** Pending labels *)

(** A label with its one reference, before it is bound. *)
Record label_rep (t : Z) (r : nat * Z) (l : RelocDataLabel) : Prop := {
  lr_pos : pos l = 0;
  lr_refs : ref_insts l = [{| link_type := t; inst_offset := Z.of_nat (fst r); pc_offset_ := Z.of_nat (fst r) |}];
  lr_data : data_ l = le_bytes 4 (snd r);
}.

(** The assembler holds the bytes [l] and the labels [ls] are pending. *)
Record asm_rep (t : Z) (a : Assembler) (l : list Z) (ls : list (nat * Z)) : Prop := {
  ar_addr : realized_addr_ a = 0;
  ar_buffer : membuffer_rep (buffer_ a) l;
  ar_labels : Forall2 (label_rep t) ls (data_labels a);
}.

Definition lit_list (o : nat) (lit : option (nat * Z)) : list (nat * Z) :=
  match lit with Some (k, dst) => [((o + k)%nat, dst)] | None => [] end.

(** [appends t f bs lit]: [f] appends the bytes and, if [lit] is given, a label loaded at that offset in them. *)
Definition appends (t : Z) (f : Assembler -> outcome Assembler) (bs : list Z) (lit : option (nat * Z)) : Prop :=
  forall a l ls, asm_rep t a l ls -> fits l bs ->
  exists a', f a = Ret a' /\ asm_rep t a' (l ++ bs) (ls ++ lit_list (length l) lit) /\
    execute_state_ a' = execute_state_ a.

Definition appends_item (t : Z) (f : Assembler -> outcome Assembler) (it : item) : Prop :=
  appends t f (i_bytes it) (i_lit it).

Lemma appends_emits t f bs : emits f bs -> appends t f bs None.
Proof.
  intros Hf a l ls [Ha Hb Hl] Hfit. destruct (Hf a l Hb Hfit) as (m & -> & Hm).
  exists (with_buffer m a). cbn [lit_list]. rewrite app_nil_r. by split; [|split].
Qed.

Lemma a32_appends_bind t f g b1 b2 lit :
  appends t f b1 None -> appends t g b2 lit ->
  appends t (fun a => a ← f a; g a) (b1 ++ b2)
    match lit with Some (k, dst) => Some ((length b1 + k)%nat, dst) | None => None end.
Proof.
  intros Hf Hg a l ls Ha Hfit. unfold fits in Hfit. rewrite length_app in Hfit.
  destruct (Hf a l ls Ha) as (a1 & -> & H1 & E1); [unfold fits; lia|]. cbn [mbind outcome_bind].
  cbn [lit_list] in H1. rewrite app_nil_r in H1.
  destruct (Hg a1 _ _ H1) as (a2 & -> & H2 & E2); [unfold fits; rewrite length_app; lia|].
  exists a2. split; [done|]. split; [|by rewrite E2]. rewrite app_assoc. rewrite length_app in H2.
  destruct lit as [[k dst]|]; [|done]. cbn [lit_list] in *. by rewrite Nat.add_assoc.
Qed.

(** Create a label, emit [pre], the load of the label, and [post]. *)
Lemma appends_literal t (load : nat -> Assembler -> outcome Assembler) ld (lab : RelocDataLabel) v pre post bp bl bq :
  (forall a label l, data_labels a !! label = Some l -> pos l = 0 -> load label a = ld (link_label t label l a)) ->
  emits ld bl -> emits pre bp -> emits post bq ->
  pos lab = 0 -> ref_insts lab = [] -> data_ lab = le_bytes 4 v ->
  appends t (fun a => let '(label, a) := AppendRelocLabel lab a in a ← pre a; a ← load label a; post a)
    (bp ++ bl ++ bq) (Some (length bp, v)).
Proof.
  intros Hload Hld Hpre Hpost Hp Hr Hd a l ls [Ha Hb Hl] Hf. unfold fits in Hf. rewrite !length_app in Hf.
  unfold AppendRelocLabel. cbn beta iota zeta.
  set (a0 := with_labels (data_labels a ++ [lab]) a).
  destruct (Hpre a0 l Hb) as (m1 & -> & H1); [unfold fits; lia|]. cbn [mbind outcome_bind].
  rewrite (Hload (with_buffer m1 a0) _ lab); [| |done].
  2:{ change (data_labels (with_buffer m1 a0)) with (data_labels a ++ [lab]). by rewrite list_lookup_middle. }
  set (a1 := link_label _ _ _ _).
  destruct (Hld a1 (l ++ bp)) as (m2 & -> & H2); [done|unfold fits; rewrite length_app; lia|]. cbn [mbind outcome_bind].
  destruct (Hpost (with_buffer m2 a1) ((l ++ bp) ++ bl)) as (m3 & -> & H3);
    [done|unfold fits; rewrite !length_app; lia|].
  eexists. split; [reflexivity|]. split; [|reflexivity].
  split; [done|by rewrite !app_assoc|]. cbn [data_labels with_buffer a1 link_label with_labels a0].
  rewrite insert_app_r_alt, Nat.sub_diag by lia. cbn [insert list_insert lit_list].
  apply Forall2_app; [done|]. constructor; [|constructor].
  split; cbn [fst snd pos ref_insts data_ link_to]; try done.
  rewrite Hr. cbn [app]. unfold pc_offset. cbn [buffer_ with_buffer]. unfold size.
  rewrite (mb_size _ _ H1), length_app, wrap_small; [done|]. unfold cb_limit in Hf. lia.
Qed.

Lemma Ldr_new rt a label l :
  data_labels a !! label = Some l -> pos l = 0 ->
  Ldr rt label a = ldr rt (MemOp pc 0) (link_label kLdrLiteral label l a).
Proof. intros E Hp. unfold Ldr. by rewrite E, Hp. Qed.

Lemma T2_Ldr_new rt a label l :
  data_labels a !! label = Some l -> pos l = 0 ->
  T2_Ldr rt label a = t2_ldr rt (MemOp pc 0) (link_label kThumb2LiteralLdr label l a).
Proof. intros E Hp. unfold T2_Ldr. by rewrite E, Hp. Qed.

(** The shape of the sequences the relocators write: [appends_literal] up to an empty [pre] or [post]. *)
Lemma appends_ext t f g bs lit bs' lit' :
  (forall a, f a = g a) -> bs = bs' -> lit = lit' -> appends t f bs lit -> appends t g bs' lit'.
Proof. intros E <- <- H a. rewrite <- E. apply H. Qed.

Lemma outcome_ret_r {A} (o : outcome A) : (a ← o; Ret a) = o.
Proof. by destruct o. Qed.

(** ** Single instructions *)

Lemma bits_16 insn lo : 0 <= lo -> 0 <= bits insn lo (lo + 3) < 16.
Proof. intros. pose proof (bits_range insn lo (lo + 3) ltac:(lia)) as H'. replace (lo + 3 - lo + 1) with 4 in H' by lia. done. Qed.

Lemma bit_01 x i : 0 <= i -> bit x i = 0 \/ bit x i = 1.
Proof. intros. rewrite bit_testbit by done. destruct (Z.testbit x i); simpl; lia. Qed.

Lemma a32_SignExtend_sext x M : 0 < M < 32 -> 0 <= x < 2 ^ M -> SignExtend x M = sext M x.
Proof.
  intros HM Hx. unfold SignExtend. rewrite bit_testbit by lia.
  assert (E : 2 ^ M = 2 * 2 ^ (M - 1)) by (rewrite <- Z.pow_succ_r by lia; f_equal; lia).
  assert (HM2 : 2 ^ M <= 2 ^ 31) by (apply Z.pow_le_mono_r; lia).
  unfold sext at 2. rewrite (Z.mod_small x) by lia.
  assert (Hb : Z.testbit x (M - 1) = negb (x <? 2 ^ (M - 1))).
  { rewrite Z.testbit_odd, Z.shiftr_div_pow2 by lia. destruct (Z.ltb_spec x (2 ^ (M - 1))).
    - by rewrite Z.div_small by lia.
    - replace (x / 2 ^ (M - 1)) with 1; [done|]. apply (Z.div_unique x (2 ^ (M - 1)) 1 (x - 2 ^ (M - 1))); lia. }
  rewrite Hb. destruct (Z.ltb_spec x (2 ^ (M - 1))); cbn [negb Z.b2z].
  - change (u32 (0 - 0)) with 0. rewrite Z.shiftr_0_l, Z.shiftl_0_l, Z.lor_0_r.
    apply sext_small; [lia|]. change (2 ^ (32 - 1)) with (2 ^ 31). lia.
  - change (u32 (0 - 1)) with (2 ^ 32 - 1).
    assert (Em : ((2 ^ 32 - 1) >> M) << M = 2 ^ 32 - 2 ^ M).
    { rewrite Z.shiftr_div_pow2, Z.shiftl_mul_pow2 by lia.
      assert (Ep : 2 ^ 32 = 2 ^ (32 - M) * 2 ^ M) by (rewrite <- Z.pow_add_r by lia; f_equal; lia).
      replace ((2 ^ 32 - 1) / 2 ^ M) with (2 ^ (32 - M) - 1); [nia|].
      apply (Z.div_unique _ _ _ (2 ^ M - 1)); [lia|]. rewrite Ep. ring. }
    rewrite Em. rewrite lor_disjoint_add.
    + destruct (sext_cong 32 (x + (2 ^ 32 - 2 ^ M)) ltac:(lia)) as [k Ek].
      pose proof (sext_range 32 (x + (2 ^ 32 - 2 ^ M)) ltac:(lia)) as Hr. change (2 ^ (32 - 1)) with (2 ^ 31) in Hr.
      rewrite Ek in *. assert (k = -1) by lia. lia.
    + apply Z.bits_inj'. intros i Hi. rewrite <- Em, Z.land_spec, Z.testbit_0_l, testbit_shiftl by lia.
      destruct (Z.ltb_spec i M); [rewrite (Z.testbit_neg_r _ (i - M)) by lia; btauto|].
      by rewrite (testbit_high M x) by lia.
Qed.

Lemma expand_imm_c imm12 : arm_expand_imm_c imm12 = Ret (ror_imm imm12).
Proof.
  unfold arm_expand_imm_c, arm_shift_c, ror_imm. pose proof (bits_16 imm12 8 ltac:(lia)) as H. change (8 + 3) with 11 in H.
  cbv zeta. destruct (Z.eqb_spec (2 * bits imm12 8 11) 0); [done|].
  rewrite Z.mod_small by lia. by destruct (Z.eqb_spec (2 * bits imm12 8 11) 0).
Qed.

Lemma bits_split_20 insn : bits insn 20 23 = bit insn 20 + 2 * bits insn 21 23.
Proof.
  rewrite bit_testbit, Z.testbit_spec', !bits_alt by lia. change (23 - 20 + 1) with (1 + 3). change (23 - 21 + 1) with 3.
  rewrite Z.pow_add_r, Z.rem_mul_r by lia. change (2 ^ 1) with 2. by rewrite Zdiv_Zdiv by lia.
Qed.

Lemma adr_target_dst vmaddr insn : arm_adr_target vmaddr insn = Ret (adr_dst vmaddr insn).
Proof.
  unfold arm_adr_target. rewrite expand_imm_c. cbn [mbind outcome_bind]. f_equal. unfold adr_dst. rewrite bits_split_20.
  pose proof (bits_range insn 21 23 ltac:(lia)) as Hr. change (u32 (-1)) with (2 ^ 32 - 1).
  destruct (bit_01 insn 20 ltac:(lia)) as [-> | ->]; cbn [Z.eqb].
  - replace (0 + 2 * bits insn 21 23 =? 4) with (bits insn 21 23 =? 2) by (zbit_split; done).
    replace (0 + 2 * bits insn 21 23 =? 8) with (bits insn 21 23 =? 4) by (zbit_split; done).
    destruct (bits insn 21 23 =? 2), (bits insn 21 23 =? 4), (bits insn 16 19 =? 15); cbn [andb orb]; try done;
      rewrite ?Z.eqb_refl; try done; by destruct (_ =? 2 ^ 32 - 1).
  - replace (1 + 2 * bits insn 21 23 =? 4) with false by (zbit_split; done).
    replace (1 + 2 * bits insn 21 23 =? 8) with false by (zbit_split; done).
    rewrite !andb_false_r. cbn [andb orb]. rewrite ?Z.eqb_refl; by rewrite ?andb_false_r.
Qed.

Lemma appends_arm_copy insn :
  0 <= insn < 2 ^ 32 -> appends_item kLdrLiteral (EmitARMInst insn) {| i_bytes := le_bytes 4 insn; i_lit := None |}.
Proof. intros H. apply appends_emits, emits_word32. by apply wrap_small. Qed.

Lemma appends_Ldr r dst pre post bp bq :
  0 <= r < 16 -> emits pre bp -> emits post bq ->
  appends kLdrLiteral
    (fun a => let '(label, a) := AppendRelocLabel (withData dst) a in a ← pre a; a ← Ldr r label a; post a)
    (bp ++ le_bytes 4 (arm_ldr r 15) ++ bq) (Some (length bp, dst)).
Proof.
  intros Hr Hpre Hpost.
  apply (appends_literal kLdrLiteral (Ldr r) (ldr r (MemOp pc 0)));
    [intros; by apply Ldr_new|by apply emits_arm_ldr|done|done|done|done|done].
Qed.

Lemma appends_T2_Ldr r dst ispc pre post bp bq :
  0 <= r < 16 -> emits pre bp -> emits post bq ->
  appends kThumb2LiteralLdr
    (fun a => let '(label, a) := AppendRelocLabel (thumb_withData dst ispc) a in a ← pre a; a ← T2_Ldr r label a; post a)
    (bp ++ flat 2 (t2_lit r) ++ bq) (Some (length bp, dst)).
Proof.
  intros Hr Hpre Hpost.
  apply (appends_literal kThumb2LiteralLdr (T2_Ldr r) (t2_ldr r (MemOp pc 0)));
    [intros; by apply T2_Ldr_new|by apply emits_t2_lit|done|done|done|done|done].
Qed.

Lemma appends_arm_literal vmaddr U imm12 rt :
  0 <= rt < 16 ->
  appends_item kLdrLiteral (arm_load_literal vmaddr U imm12 rt)
    (arm_literal_item rt (if U =? 1 then u32 (vmaddr + imm12) else u32 (vmaddr - imm12))).
Proof.
  intros Hrt. set (dst := if U =? 1 then _ else _). unfold appends_item, arm_literal_item. cbn [i_bytes i_lit].
  assert (Hr : 0 <= (if rt =? 15 then 12 else rt) < 15) by (destruct (Z.eqb_spec rt 15); lia).
  remember (if rt =? 15 then 12 else rt) as r eqn:Er.
  eapply appends_ext; [| | |apply (appends_Ldr r dst Ret (ldr rt (MemOp r 0)));
    [lia|apply a32_emits_Ret|apply emits_arm_ldr; lia]].
  - intros a. unfold arm_load_literal, code, R. fold dst. change pc with 15. subst r. by destruct (Z.eqb_spec rt 15) as [-> |].
  - unfold flat. cbn [map concat app]. by rewrite app_nil_r.
  - reflexivity.
Qed.

Lemma appends_arm_adr rd dst :
  0 <= rd < 16 ->
  appends_item kLdrLiteral
    (fun a => let '(dst_label, a) := AppendRelocLabel (withData dst) a in Ldr rd dst_label a) (arm_adr_item rd dst).
Proof.
  intros Hrt. unfold appends_item, arm_adr_item. cbn [i_bytes i_lit].
  eapply appends_ext; [| | |apply (appends_Ldr rd dst Ret Ret); [lia|apply a32_emits_Ret|apply a32_emits_Ret]].
  - intros a. unfold AppendRelocLabel. cbn [mbind outcome_bind]. apply outcome_ret_r.
  - reflexivity.
  - reflexivity.
Qed.

Lemma SignExtend_26 x : 0 <= x < 2 ^ 24 -> SignExtend (x << 2) (2 + 24) = sext 26 (x << 2).
Proof. intros H. apply a32_SignExtend_sext; [lia|]. rewrite Z.shiftl_mul_pow2 by lia. change (2 ^ (2 + 24)) with (2 ^ 24 * 2 ^ 2). nia. Qed.

Lemma lor1_range x : 0 <= x < 2 ^ 32 -> 0 <= x .| 1 < 2 ^ 32.
Proof. intros. apply lor_lt_pow2; lia. Qed.

Lemma appends_arm_branch vmaddr insn :
  appends_item kLdrLiteral (arm_branch vmaddr insn)
    (if bits insn 28 31 =? 15 then arm_branch_item true AL (branch_dst vmaddr insn .| 1)
     else arm_branch_item (bit insn 24 =? 1) (bits insn 28 31) (branch_dst vmaddr insn)).
Proof.
  pose proof (bits_16 insn 28 ltac:(lia)) as Hc. change (28 + 3) with 31 in Hc.
  pose proof (bits_range insn 0 23 ltac:(lia)) as H24. change (23 - 0 + 1) with 24 in H24.
  pose proof (wrap_range 32 (vmaddr + sext 26 (bits insn 0 23 << 2)) ltac:(lia)) as Hd.
  unfold arm_branch. rewrite SignExtend_26 by done. fold (branch_dst vmaddr insn) in *.
  destruct (Z.eqb_spec (bits insn 28 31) 15); cbn [negb andb].
  - apply appends_emits. apply (emits_arm_branch true); [done|by apply lor1_range].
  - apply appends_emits. destruct (bit_01 insn 24 ltac:(lia)) as [-> | ->]; by apply emits_arm_branch.
Qed.

Lemma appends_ARM vmaddr insn :
  0 <= insn < 2 ^ 32 -> appends_item kLdrLiteral (ARMRelocateSingleInsn vmaddr insn) (arm_item vmaddr insn).
Proof.
  intros Hi. unfold ARMRelocateSingleInsn, arm_item.
  pose proof (bits_16 insn 12 ltac:(lia)) as Hrt. change (12 + 3) with 15 in Hrt.
  destruct (is_arm_load_literal insn); [by apply appends_arm_literal|].
  destruct (is_arm_dp_immediate insn).
  { rewrite adr_target_dst. cbn [mbind outcome_bind].
    destruct (adr_dst vmaddr insn); [by apply appends_arm_adr|by apply appends_arm_copy]. }
  destruct (is_arm_branch insn); [apply appends_arm_branch|by apply appends_arm_copy].
Qed.

(** *** T32 *)

Lemma appends_T2_Ldr_only r dst ispc :
  0 <= r < 16 ->
  appends kThumb2LiteralLdr (fun a => let '(label, a) := AppendRelocLabel (thumb_withData dst ispc) a in T2_Ldr r label a)
    (flat 2 (t2_lit r)) (Some (0%nat, dst)).
Proof.
  intros Hr. eapply appends_ext; [| | |apply (appends_T2_Ldr r dst ispc Ret Ret); [done|apply a32_emits_Ret|apply a32_emits_Ret]].
  - intros a. unfold AppendRelocLabel. cbn [mbind outcome_bind]. apply outcome_ret_r.
  - by rewrite app_nil_r.
  - reflexivity.
Qed.

(** The tail of conditional branches: a halfword, a nop, a branch over the load of the program counter. *)
Lemma appends_skip v w dst ispc :
  u16 v = w ->
  appends kThumb2LiteralLdr
    (fun a => let '(label, a) := AppendRelocLabel (thumb_withData dst ispc) a in
              a ← EmitInt16 v a; a ← t1_nop a; a ← t2_b 4 a; T2_Ldr pc label a)
    (flat 2 ([w; NOP] ++ B4 ++ t2_lit 15)) (Some (8%nat, dst)).
Proof.
  intros Hw. eapply appends_ext; [| | |apply (appends_T2_Ldr 15 dst ispc
    (fun a => a ← EmitInt16 v a; a ← t1_nop a; t2_b 4 a) Ret (le_bytes 2 w ++ flat 2 [NOP] ++ flat 2 B4) []); [lia| |apply a32_emits_Ret]].
  - intros a. unfold AppendRelocLabel.
    destruct (EmitInt16 v _) as [a1| |]; cbn [mbind outcome_bind]; try done.
    destruct (t1_nop a1) as [a2| |]; cbn [mbind outcome_bind]; try done.
    destruct (t2_b 4 a2) as [a3| |]; cbn [mbind outcome_bind]; try done. apply outcome_ret_r.
  - by rewrite !a32_flat_app, app_nil_r, <- !app_assoc.
  - reflexivity.
  - apply (a32_emits_bind (EmitInt16 v)); [by apply emits_half|].
    apply (a32_emits_bind t1_nop); auto with emission.
Qed.

Lemma u16_set_bits16 obj st fn v : u16 (set_bits16 obj st fn v) = set_bits16 obj st fn v.
Proof. apply wrap_wrap. Qed.

Lemma bits_8 insn lo : 0 <= lo -> 0 <= bits insn lo (lo + 2) < 8.
Proof. intros. pose proof (bits_range insn lo (lo + 2) ltac:(lia)) as H'. replace (lo + 2 - lo + 1) with 3 in H' by lia. done. Qed.

Lemma b_cond_half cond : 0 <= cond < 16 -> u16 (set_bits16 0xe000 8 11 cond .| (4 >> 1)) = 0xe002 + cond * 2 ^ 8.
Proof. intros H. each_index cond 16%nat ltac:(vm_compute; reflexivity). Qed.

Lemma SignExtend_shift1 x n : 0 < n < 31 -> 0 <= x < 2 ^ n -> SignExtend (x << 1) (n + 1) = sext (n + 1) (x << 1).
Proof.
  intros Hn Hx. apply a32_SignExtend_sext; [lia|]. rewrite Z.shiftl_mul_pow2, Z.pow_add_r by lia. change (2 ^ 1) with 2. lia.
Qed.

Lemma appends_T1 vmaddr insn it :
  0 <= insn < 2 ^ 16 -> t1_item vmaddr insn = Some it ->
  appends_item kThumb2LiteralLdr (thumb1_body vmaddr insn) it.
Proof.
  intros Hi. pose proof (bits_8 insn 8 ltac:(lia)) as Hrt. change (8 + 2) with 10 in Hrt.
  pose proof (bits_16 insn 8 ltac:(lia)) as Hc. change (8 + 3) with 11 in Hc.
  unfold t1_item, thumb1_body, appends_item. destruct (thumb1_class insn); intros E; [| | | | | | | |].
  - injection E as <-. cbn [i_bytes i_lit]. unfold thumb1_hireg.
    eapply appends_ext; [intros a; reflexivity| | |apply (appends_T2_Ldr 12 vmaddr false Ret
      (EmitInt16 (set_bits16 insn 3 6 12))); [lia|apply a32_emits_Ret|apply emits_half, u16_set_bits16]]; done.
  - injection E as <-. by apply appends_T2_Ldr_only.
  - injection E as <-. cbn [i_bytes i_lit]. unfold thumb1_blx_pc.
    eapply appends_ext; [| | |apply (appends_T2_Ldr 15 vmaddr true (fun a => a ← t2_bl 4 a; t2_b 4 a) Ret
       (flat 2 BL4 ++ flat 2 B4) []); [lia|apply a32_emits_bind; auto with emission|apply a32_emits_Ret]]; [|reflexivity|reflexivity].
    intros a. unfold AppendRelocLabel.
    destruct (t2_bl 4 _) as [a1| |]; cbn [mbind outcome_bind]; try done.
    destruct (t2_b 4 a1) as [a3| |]; cbn [mbind outcome_bind]; try done. apply outcome_ret_r.
  - injection E as <-. cbn [i_bytes i_lit]. unfold thumb1_ldr_literal.
    eapply appends_ext; [intros a; reflexivity| | |apply (appends_T2_Ldr (bits insn 8 10) _ false Ret
      (t2_ldr (bits insn 8 10) (MemOp (bits insn 8 10) 0))); [lia|apply a32_emits_Ret|apply emits_t2_mem; lia]];
      [reflexivity|reflexivity].
  - injection E as <-. apply appends_T2_Ldr_only. unfold R. lia.
  - destruct (Z.leb_spec 14 (bits insn 8 11)) as [|Hlt]; [done|]. injection E as <-. cbn [i_bytes i_lit].
    eapply appends_ext; [| | |apply (appends_skip _ _ (u32 (vmaddr + sext 9 (bits insn 0 7 << 1)) .| 1) true (b_cond_half (bits insn 8 11) Hc))]; [|reflexivity|reflexivity].
    intros a. unfold thumb1_b_cond. destruct (Z.leb_spec 14 (bits insn 8 11)); [lia|].
    rewrite SignExtend_shift1; [reflexivity|lia|apply (bits_range insn 0 7); lia].
  - injection E as <-. unfold thumb1_cbz. rewrite wrap_add_l.
    apply appends_skip. apply wrap_wrap.
  - injection E as <-. unfold thumb1_b. rewrite wrap_add_l, SignExtend_shift1; [|lia|apply (bits_range insn 0 10); lia].
    by apply appends_T2_Ldr_only.
  - injection E as <-. apply appends_emits, emits_half. by apply wrap_small.
Qed.

Lemma T1_fatal vmaddr insn a : t1_item vmaddr insn = None -> thumb1_body vmaddr insn a = Fatal.
Proof.
  unfold t1_item, thumb1_body. destruct (thumb1_class insn); intros E; try discriminate.
  unfold thumb1_b_cond. by destruct (14 <=? bits insn 8 11).
Qed.

Lemma emits_address_bytes dst : 0 <= dst < 2 ^ 32 -> emits (EmitAddress dst) (le_bytes 4 dst).
Proof. intros H. eapply a32_emits_ext; [apply emits_address|]. by rewrite wrap_small. Qed.
#[export] Hint Resolve emits_address_bytes : emission.

Lemma emits_call dst : 0 <= dst < 2 ^ 32 -> emits (thumb2_call dst) (i_bytes (call_item dst)).
Proof.
  intros H. unfold call_item. cbn [i_bytes]. rewrite !a32_flat_app, <- !app_assoc. unfold thumb2_call.
  repeat (apply a32_emits_bind; [by auto with emission|]).
  apply a32_emits_bind; [by apply emits_t2_lit|by auto with emission].
Qed.

Lemma adr_class_bits insn1 insn2 : thumb2_class insn1 insn2 = T2_adr -> bit insn1 5 = bit insn1 7.
Proof.
  unfold thumb2_class. cbn zeta.
  destruct ((insn1 .& 0xf800 =? 0xf000) && (insn2 .& 0x8000 =? 0x8000)); [by repeat destruct (_ : bool)|].
  match goal with |- (if ?c then _ else _) = _ -> _ => destruct c eqn:E end; [intros _|by destruct (_ =? 0xf85f)].
  rewrite !andb_true_iff, orb_true_iff, !andb_true_iff, !Z.eqb_eq in E.
  destruct E as ((_ & [[-> ->]|[-> ->]]) & _); done.
Qed.

Lemma appends_T2 vmaddr insn1 insn2 :
  0 <= insn1 < 2 ^ 16 -> 0 <= insn2 < 2 ^ 16 ->
  appends_item kThumb2LiteralLdr (thumb2_body vmaddr insn1 insn2) (t2_item vmaddr insn1 insn2).
Proof.
  intros H1 H2.
  pose proof (bits_16 insn1 6 ltac:(lia)) as Hc. change (6 + 3) with 9 in Hc.
  pose proof (bits_16 insn2 8 ltac:(lia)) as Hrd. change (8 + 3) with 11 in Hrd.
  pose proof (bits_16 insn2 12 ltac:(lia)) as Hrt. change (12 + 3) with 15 in Hrt.
  unfold t2_item, thumb2_body, appends_item. destruct (thumb2_class insn1 insn2) eqn:Ecl.
  - apply appends_emits. unfold thumb2_b_cond. cbn [i_bytes]. rewrite !a32_flat_app, <- !app_assoc.
    apply (a32_emits_bind (EmitInt16 _) _ (le_bytes 2 (0xe002 + bits insn1 6 9 * 2 ^ 8))
             (flat 2 [NOP] ++ flat 2 B8 ++ flat 2 (t2_lit 15) ++ le_bytes 4 _)); [by apply emits_half, b_cond_half|].
    repeat (apply a32_emits_bind; [by auto with emission|]).
    apply a32_emits_bind; [by apply emits_t2_lit|]. apply emits_address_bytes, lor1_range, wrap_range; lia.
  - apply appends_emits. apply a32_emits_bind; [by apply emits_t2_lit|].
    apply emits_address_bytes, lor1_range, wrap_range; lia.
  - apply appends_emits, emits_call, lor1_range, wrap_range; lia.
  - apply appends_emits, emits_call, wrap_range; lia.
  - apply appends_emits. unfold thumb2_adr. cbn [i_bytes]. rewrite (adr_class_bits _ _ Ecl), andb_diag.
    rewrite a32_flat_app, <- app_assoc.
    apply a32_emits_bind; [by apply emits_t2_literal_at|]. apply a32_emits_bind; [by auto with emission|].
    apply emits_address_bytes. destruct (bit insn1 7 =? 0); apply wrap_range; lia.
  - apply appends_emits. unfold thumb2_ldr_literal. cbn [i_bytes]. rewrite !a32_flat_app, <- !app_assoc.
    apply a32_emits_bind; [by apply emits_t2_literal_at|]. apply a32_emits_bind.
    { destruct (Z.eqb_spec (bits insn2 12 15) 15) as [->|]; [by apply emits_t2_lit|]. apply emits_t2_mem; lia. }
    apply a32_emits_bind; [by auto with emission|].
    apply emits_address_bytes. destruct (bit insn1 7 =? 1); apply wrap_range; lia.
  - apply appends_emits. by apply a32_emits_bind; apply emits_half, wrap_small.
Qed.

(** ** The A32 loop *)

Definition word_from (src : list Z) (c : Z) : Z := le_val (take 4 (drop (Z.to_nat c) src)).

Lemma word_from_range src c : bytes_ok src -> 0 <= word_from src c < 2 ^ 32.
Proof.
  intros H. unfold word_from. set (l := take 4 (drop (Z.to_nat c) src)).
  assert (Hl : bytes_ok l) by (by apply Forall_take, Forall_drop).
  pose proof (le_val_range l Hl) as Hr. assert (length l <= 4)%nat by (unfold l; rewrite length_take; lia).
  assert (2 ^ (8 * Z.of_nat (length l)) <= 2 ^ 32) by (apply Z.pow_le_mono_r; lia). lia.
Qed.

(** The items of [n] instructions from [c] on. *)
Fixpoint arm_items (n : nat) (vm c : Z) (src : list Z) : list item :=
  match n with
  | O => []
  | S n => arm_item (u32 (vm + c + 8)) (word_from src c) :: arm_items n vm (c + 4) src
  end.

(** The state of the relocation at byte [c] of the source: [st] is the relocator at work, [l] what was emitted, [ls] the
    pending labels. *)
Record reloc_inv (st : ExecuteState) (src : list Z) (sz vm c : Z) (l : list Z) (ls : list (nat * Z)) (ctx : relo_ctx_t)
    : Prop := {
  ri_source : source ctx = src;
  ri_size : src_size ctx = sz;
  ri_vm : src_vmaddr ctx = vm;
  ri_state : curr_state ctx = st;
  ri_cursor : buffer_cursor ctx = c;
  ri_rep : match st with
           | ARMExecuteState => asm_rep kLdrLiteral (arm_view ctx) l ls /\ a_labels (thumb_assembler ctx) = []
           | ThumbExecuteState => asm_rep kThumb2LiteralLdr (thumb_view ctx) l ls /\ a_labels (arm_assembler ctx) = []
           end;
  ri_map : forall k v, relocated_offset_map ctx !! k = Some v -> 0 <= k < c;
}.

Lemma load_insn_ok ctx :
  buffer_cursor ctx + 4 <= Z.of_nat (length (source ctx)) -> load_insn ctx = Ret (word_from (source ctx) (buffer_cursor ctx)).
Proof. intros H. unfold load_insn. by destruct (Z.leb_spec (buffer_cursor ctx + 4) (Z.of_nat (length (source ctx)))); [|lia]. Qed.

Lemma record_offset_map ctx c :
  buffer_cursor ctx = c -> 0 <= c < 2 ^ 31 -> (forall k v, relocated_offset_map ctx !! k = Some v -> 0 <= k < c) ->
  forall k v, relocated_offset_map (record_offset ctx) !! k = Some v -> 0 <= k < c + 1.
Proof.
  intros <- Hc Hm k v. cbn [record_offset relocated_offset_map]. rewrite wrap_small by lia.
  rewrite lookup_insert_Some. intros [[<- _]|[_ E]]; [lia|]. apply Hm in E. lia.
Qed.

Lemma arm_iteration_ok src sz vm c l ls ctx :
  reloc_inv ARMExecuteState src sz vm c l ls ctx -> bytes_ok src -> 0 <= c < 2 ^ 31 -> c + 4 <= Z.of_nat (length src) ->
  let it := arm_item (u32 (vm + c + 8)) (word_from src c) in
  fits l (i_bytes it) ->
  exists ctx', arm_iteration ctx = Ret ctx' /\
    reloc_inv ARMExecuteState src sz vm (c + 4) (l ++ i_bytes it) (ls ++ lit_list (length l) (i_lit it)) ctx' /\
    execute_state_map ctx' = execute_state_map ctx /\ a_state (arm_assembler ctx') = a_state (arm_assembler ctx).
Proof.
  intros [Hs Hz Hv Hst Hc [Hrep Hth] Hm] Hok Hcr Hlen it Hf. unfold arm_iteration.
  rewrite load_insn_ok by (change (buffer_cursor ctx + 4 <= Z.of_nat (length (source ctx))); rewrite Hs, Hc; lia). cbn [mbind outcome_bind].
  change (source (record_offset ctx)) with (source ctx). change (buffer_cursor (record_offset ctx)) with (buffer_cursor ctx).
  change (relo_cur_src_vmaddr (record_offset ctx)) with (relo_cur_src_vmaddr ctx).
  unfold relo_cur_src_vmaddr. rewrite Hs, Hc, Hst, Hv. change ARM_PC_OFFSET with 8.
  destruct (appends_ARM (u32 (vm + c + 8)) (word_from src c) (word_from_range _ _ Hok) (arm_view (record_offset ctx)) l ls Hrep Hf)
    as (a & -> & Ha & Hst').
  cbn [mbind outcome_bind]. eexists. split; [reflexivity|]. split; [|split; [done|exact Hst']].
  split; cbn [advance put_arm record_offset source src_size src_vmaddr curr_state buffer_cursor thumb_assembler
              relocated_offset_map]; try done; [by rewrite Hc| |].
  - split; [|done]. destruct Ha as [H1 H2 H3]. by split.
  - intros k v E. apply (record_offset_map ctx c Hc Hcr Hm) in E. lia.
Qed.

Lemma all_bytes_cons it its : all_bytes (it :: its) = i_bytes it ++ all_bytes its.
Proof. reflexivity. Qed.

Lemma a32_fits_cons l it its : fits l (all_bytes (it :: its)) ->
  fits l (i_bytes it) /\ fits (l ++ i_bytes it) (all_bytes its).
Proof. unfold fits. rewrite all_bytes_cons, !length_app. lia. Qed.

Lemma all_lits_cons o it its : all_lits o (it :: its) = lit_list o (i_lit it) ++ all_lits (o + length (i_bytes it)) its.
Proof. cbn [all_lits]. by destruct (i_lit it) as [[k v]|]. Qed.

Lemma arm_loop_ok src sz vm n : forall fuel c l ls ctx,
  reloc_inv ARMExecuteState src sz vm c l ls ctx -> execute_state_map ctx = ∅ -> bytes_ok src ->
  0 <= c -> c + 4 * Z.of_nat n < 2 ^ 31 -> c + 4 * Z.of_nat n <= Z.of_nat (length src) ->
  sz <= c + 4 * Z.of_nat n -> (n <> 0%nat -> c + 4 * Z.of_nat n - 4 < sz) -> (n <= fuel)%nat ->
  fits l (all_bytes (arm_items n vm c src)) ->
  exists ctx', arm_loop fuel ctx = Ret ctx' /\
    reloc_inv ARMExecuteState src sz vm (c + 4 * Z.of_nat n) (l ++ all_bytes (arm_items n vm c src))
      (ls ++ all_lits (length l) (arm_items n vm c src)) ctx' /\
    a_state (arm_assembler ctx') = a_state (arm_assembler ctx).
Proof.
  induction n as [|n IH]; intros fuel c l ls ctx Hinv He Hok Hc Hlim Hlen Hsz Hn Hfuel Hf.
  - exists ctx. cbn [arm_items all_lits]. unfold all_bytes. cbn [map concat]. rewrite !app_nil_r, Z.add_0_r.
    split; [|by split]. pose proof Hinv as [_ Hz _ _ Hcur _ _].
    destruct fuel; cbn [arm_loop]; unfold remaining; rewrite Hz, Hcur; by destruct (Z.ltb_spec c sz); [lia|].
  - specialize (Hn ltac:(done)). destruct fuel as [|fuel]; [lia|]. cbn [arm_loop arm_items] in *.
    apply a32_fits_cons in Hf as [Hf1 Hf2].
    pose proof Hinv as [_ Hz _ _ Hcur _ _]. unfold remaining. rewrite Hz, Hcur.
    destruct (Z.ltb_spec c sz); [|lia].
    destruct (arm_iteration_ok src sz vm c l ls ctx) as (ctx1 & -> & Hinv1 & He1 & Hst1); [done|done|lia|lia|done|].
    cbn [mbind outcome_bind]. unfold check_execute_state_changed. rewrite He1, He, lookup_empty.
    rewrite bool_decide_false by (by intros [? ?]).
    destruct (IH fuel (c + 4) _ _ ctx1 Hinv1) as (ctx2 & -> & Hinv2 & Hst2); try lia; [congruence|done|done|].
    exists ctx2. split; [done|]. split; [|congruence].
    rewrite all_bytes_cons, all_lits_cons, !app_assoc. rewrite length_app in Hinv2.
    replace (c + 4 * Z.of_nat (S n)) with (c + 4 + 4 * Z.of_nat n) by lia. exact Hinv2.
Qed.

(** ** The Thumb loop *)

Definition body_item (vmaddr w : Z) : option item :=
  if is_thumb2 w then Some (t2_item vmaddr (u16 w) (u16 (w >> 16))) else t1_item vmaddr (u16 w).
Definition body_length (w : Z) : Z := if is_thumb2 w then 4 else 2.
Definition next_state_map (vmaddr w : Z) (m : gmap Z ExecuteState) : gmap Z ExecuteState :=
  if is_thumb2 w then m else thumb1_state_map vmaddr (u16 w) m.

(** Whether the relocator stops in front of byte [c]: an earlier [bx pc] leads there. *)
Definition state_change (vm c : Z) (m : gmap Z ExecuteState) : bool :=
  bool_decide (is_Some (m !! u32 (u32 (vm + c + 4) - 4))).

(** The items from byte [c] on, placed at offset [o]; [None] if one of them is fatal.  Code behind a change of the state
    is still taken for Thumb. *)
Fixpoint thumb_items (fuel : nat) (vm sz c o : Z) (interrupted : bool) (m : gmap Z ExecuteState) (src : list Z)
    : option (list item) :=
  if c <? sz then
    match fuel with
    | O => None
    | S fuel =>
        let vmaddr := u32 (vm + c + 4) in
        let w := word_from src c in
        body ← body_item vmaddr w;
        let it := padded (pad_count interrupted o) body in
        let c := c + body_length w in
        let m := next_state_map vmaddr w m in
        its ← thumb_items fuel vm sz c (o + Z.of_nat (length (i_bytes it))) (state_change vm c m) m src;
        Some (it :: its)
    end
  else Some [].

Lemma length_padded n it : length (i_bytes (padded n it)) = (2 * n + length (i_bytes it))%nat.
Proof. cbn [i_bytes padded]. by rewrite length_app, a32_length_flat, length_replicate. Qed.

(** The relocator's nop, the aligning one, then the sequence. *)
Lemma padded_ok f it a l ls :
  appends_item kThumb2LiteralLdr f it -> asm_rep kThumb2LiteralLdr a l ls -> (length l mod 2 = 0)%nat ->
  let it' := padded (pad_count false (Z.of_nat (length l))) it in
  fits l (i_bytes it') ->
  exists a1 a', t1_nop a = Ret (with_buffer a1 a) /\
    membuffer_rep a1 (l ++ flat 2 [NOP]) /\
    (a ← AlignThumbNop (with_buffer a1 a); f a) = Ret a' /\
    asm_rep kThumb2LiteralLdr a' (l ++ i_bytes it') (ls ++ lit_list (length l) (i_lit it')) /\
    execute_state_ a' = execute_state_ a.
Proof.
  intros Hf Ha Heven it' Hfit. unfold it' in *. clear it'. unfold fits in Hfit. rewrite length_padded in Hfit.
  remember (pad_count false (Z.of_nat (length l))) as n eqn:Hpc.
  assert (Hn : (n = 1 \/ n = 2)%nat) by (rewrite Hpc; unfold pad_count; destruct (_ =? _); lia).
  destruct (emits_nop a l (ar_buffer _ _ _ _ Ha)) as (m1 & E1 & H1); [unfold fits; change (length (flat 2 [NOP])) with 2%nat; lia|].
  exists m1.
  assert (Hn' : exists a2, AlignThumbNop (with_buffer m1 a) = Ret a2 /\
            asm_rep kThumb2LiteralLdr a2 (l ++ flat 2 (replicate n NOP)) ls /\ execute_state_ a2 = execute_state_ a).
  { destruct Ha as [Haddr Hb Hl]. unfold AlignThumbNop. cbn [buffer_ with_buffer realized_addr_]. unfold size.
    rewrite Haddr, (mb_size _ _ H1), length_app. change (length (flat 2 [NOP])) with 2%nat. rewrite Z.add_0_r.
    rewrite wrap_small by (unfold cb_limit in Hfit; simpl in Hfit; lia). change Thumb2_INST_LEN with 4.
    assert (Hcase : Z.of_nat (length l) mod 4 = 0 \/ Z.of_nat (length l) mod 4 = 2).
    { assert (Hz : Z.of_nat (length l) mod 2 = 0) by (change 2 with (Z.of_nat 2); rewrite <- Nat2Z.inj_mod; lia).
      rewrite (Z.rem_mul_r _ 2 2) by lia. rewrite Hz. pose proof (Z.mod_pos_bound (Z.of_nat (length l) / 2) 2 ltac:(lia)). lia. }
    destruct Hcase as [E|E].
    - assert (En : n = 2%nat) by (rewrite Hpc; unfold pad_count; by rewrite E). rewrite En in *.
      replace ((Z.of_nat (length l + 2)) mod 4) with 2 by (rewrite Nat2Z.inj_add, <- Zplus_mod_idemp_l, E; done).
      cbn [Z.eqb negb]. destruct (emits_nop (with_buffer m1 a) (l ++ flat 2 [NOP])) as (m2 & -> & H2);
        [done|unfold fits; rewrite length_app; change (length (flat 2 [NOP])) with 2%nat; lia|].
      eexists. split; [reflexivity|]. split; [|done]. split; [done| |done].
      cbn [buffer_ with_buffer]. by rewrite <- app_assoc in H2.
    - assert (En : n = 1%nat) by (rewrite Hpc; unfold pad_count; by rewrite E). rewrite En in *.
      replace ((Z.of_nat (length l + 2)) mod 4) with 0 by (rewrite Nat2Z.inj_add, <- Zplus_mod_idemp_l, E; done).
      cbn [Z.eqb negb]. eexists. split; [reflexivity|]. split; [|done]. by split. }
  destruct Hn' as (a2 & E2 & Ha2 & Hs2). rewrite E2. cbn [mbind outcome_bind].
  destruct (Hf a2 _ _ Ha2) as (a3 & E3 & Ha3 & Hs3).
  { unfold fits. rewrite length_app, a32_length_flat, length_replicate. lia. }
  exists a3. split; [exact E1|]. split; [exact H1|]. split; [exact E3|]. split; [|congruence].
  cbn [padded i_bytes i_lit]. rewrite app_assoc. rewrite length_app, a32_length_flat, length_replicate in Ha3.
  destruct (i_lit it) as [[k v]|]; cbn [lit_list] in *; [|done].
  replace (length l + (2 * n + k))%nat with (length l + 2 * n + k)%nat by lia. exact Ha3.
Qed.

Lemma u16_range x : 0 <= u16 x < 2 ^ 16.
Proof. apply wrap_range; lia. Qed.

Lemma thumb_iteration_ok src sz vm c l ls ctx m body :
  reloc_inv ThumbExecuteState src sz vm c l ls ctx -> execute_state_map ctx = m ->
  0 <= c < 2 ^ 31 -> c + 4 <= Z.of_nat (length src) -> (length l mod 2 = 0)%nat ->
  let w := word_from src c in
  let vmaddr := u32 (vm + c + 4) in
  let it := padded (pad_count false (Z.of_nat (length l))) body in
  body_item vmaddr w = Some body -> fits l (i_bytes it) ->
  exists ctx', thumb_iteration ctx = Ret ctx' /\
    reloc_inv ThumbExecuteState src sz vm (c + body_length w) (l ++ i_bytes it) (ls ++ lit_list (length l) (i_lit it)) ctx' /\
    execute_state_map ctx' = next_state_map vmaddr w m /\ a_state (thumb_assembler ctx') = a_state (thumb_assembler ctx).
Proof.
  intros [Hs Hz Hv Hst Hc [Hrep Hth] Hm] He Hcr Hlen Heven w vmaddr it Hbody Hf.
  assert (Hap : appends_item kThumb2LiteralLdr
            (if is_thumb2 w then thumb2_body vmaddr (u16 w) (u16 (w >> 16)) else thumb1_body vmaddr (u16 w)) body).
  { unfold body_item in Hbody. destruct (is_thumb2 w).
    - injection Hbody as <-. apply appends_T2; apply u16_range.
    - apply appends_T1; [apply u16_range|done]. }
  assert (Hrep' : asm_rep kThumb2LiteralLdr (thumb_view (record_offset ctx)) l ls) by done.
  destruct (padded_ok _ body _ l ls Hap Hrep' Heven Hf) as (m1 & a' & E1 & H1 & E2 & Ha' & Hs').
  unfold thumb_iteration. rewrite E1. cbn [mbind outcome_bind].
  set (ctx1 := put_thumb _ _).
  rewrite load_insn_ok by (change (buffer_cursor ctx + 4 <= Z.of_nat (length (source ctx))); rewrite Hs, Hc; lia).
  cbn [mbind outcome_bind]. change (source ctx1) with (source ctx). change (buffer_cursor ctx1) with (buffer_cursor ctx).
  change (execute_state_map ctx1) with (execute_state_map ctx).
  change (relo_cur_src_vmaddr ctx1) with (relo_cur_src_vmaddr ctx).
  unfold relo_cur_src_vmaddr. rewrite Hs, Hc, Hst, Hv. change Thumb_PC_OFFSET with 4. fold w vmaddr.
  change (thumb_view ctx1) with (with_buffer m1 (thumb_view (record_offset ctx))).
  assert (Hmap : forall n, 1 <= n -> forall k v, relocated_offset_map (record_offset ctx) !! k = Some v -> 0 <= k < c + n).
  { intros n Hn k v E. apply (record_offset_map ctx c Hc Hcr Hm) in E. lia. }
  unfold body_length, next_state_map. destruct (is_thumb2 w).
  - unfold Thumb2RelocateSingleInsn. rewrite E2. cbn [mbind outcome_bind].
    eexists. split; [reflexivity|]. split; [|split; [done|exact Hs']].
    split; cbn [advance put_thumb ctx1 record_offset source src_size src_vmaddr curr_state buffer_cursor arm_assembler
                relocated_offset_map]; try done; [by rewrite Hc| |by apply Hmap].
    split; [|done]. destruct Ha' as [A1 A2 A3]. by split.
  - unfold Thumb1RelocateSingleInsn. rewrite E2. cbn [mbind outcome_bind].
    eexists. split; [reflexivity|]. split; [|split; [by subst m|exact Hs']].
    split; cbn [advance put_thumb put_state_map ctx1 record_offset source src_size src_vmaddr curr_state buffer_cursor
                arm_assembler relocated_offset_map]; try done; [by rewrite Hc| |by apply Hmap].
    split; [|done]. destruct Ha' as [A1 A2 A3]. by split.
Qed.

(** Where the relocator stops: at the first instruction boundary at or behind [sz]. *)
Fixpoint thumb_extent (fuel : nat) (sz c : Z) (src : list Z) : Z :=
  if c <? sz then
    match fuel with O => c | S fuel => thumb_extent fuel sz (c + body_length (word_from src c)) src end
  else c.

Lemma body_length_range w : 2 <= body_length w <= 4.
Proof. unfold body_length. destruct (is_thumb2 w); lia. Qed.

Lemma length_even_app {A} (l l' : list A) :
  (length l mod 2 = 0 -> length l' mod 2 = 0 -> length (l ++ l') mod 2 = 0)%nat.
Proof. intros H H'. rewrite length_app, Nat.Div0.add_mod, H, H'. done. Qed.

Lemma flat2_even ws : (length (flat 2 ws) mod 2 = 0)%nat.
Proof. rewrite a32_length_flat, Nat.mul_comm. apply Nat.Div0.mod_mul. Qed.

Lemma le_bytes_even n v : (n mod 2 = 0 -> length (le_bytes n v) mod 2 = 0)%nat.
Proof. by rewrite length_le_bytes. Qed.

Lemma body_even vmaddr w body : body_item vmaddr w = Some body -> (length (i_bytes body) mod 2 = 0)%nat.
Proof.
  unfold body_item, t1_item, t2_item, call_item. intros E.
  destruct (is_thumb2 w); [destruct (thumb2_class _ _)|destruct (thumb1_class _); try destruct (14 <=? _)];
    try discriminate; apply (inj Some) in E; subst body; cbn [i_bytes];
    repeat match goal with
      | |- (length (_ ++ _) mod _ = _)%nat => apply length_even_app
      | |- (length (flat _ _) mod _ = _)%nat => apply flat2_even
      | |- (length (le_bytes _ _) mod _ = _)%nat => apply le_bytes_even; reflexivity
      end.
Qed.

Lemma padded_even n it : (length (i_bytes it) mod 2 = 0 -> length (i_bytes (padded n it)) mod 2 = 0)%nat.
Proof. intros H. apply length_even_app; [apply flat2_even|done]. Qed.

Lemma state_change_check ctx vm c :
  src_vmaddr ctx = vm -> buffer_cursor ctx = c -> curr_state ctx = ThumbExecuteState ->
  check_execute_state_changed ctx (u32 (relo_cur_src_vmaddr ctx - Thumb_PC_OFFSET)) = state_change vm c (execute_state_map ctx).
Proof. intros <- <- E. unfold check_execute_state_changed, state_change, relo_cur_src_vmaddr. by rewrite E. Qed.

(** [thumb_loop] relocates up to the end or to a change of the state; what is left, [its2], is not empty only then. *)
Lemma thumb_loop_ok src sz vm fi : forall fuel c l ls ctx m its,
  reloc_inv ThumbExecuteState src sz vm c l ls ctx -> execute_state_map ctx = m ->
  thumb_items fi vm sz c (Z.of_nat (length l)) false m src = Some its ->
  0 <= c -> sz + 4 < 2 ^ 31 -> sz + 4 <= Z.of_nat (length src) -> (length l mod 2 = 0)%nat -> (fi <= fuel)%nat ->
  fits l (all_bytes its) ->
  exists ctx' its1 its2 m' c' fi', thumb_loop fuel ctx = Ret ctx' /\ its = its1 ++ its2 /\
    reloc_inv ThumbExecuteState src sz vm c' (l ++ all_bytes its1) (ls ++ all_lits (length l) its1) ctx' /\
    execute_state_map ctx' = m' /\ a_state (thumb_assembler ctx') = a_state (thumb_assembler ctx) /\
    thumb_items fi' vm sz c' (Z.of_nat (length (l ++ all_bytes its1))) true m' src = Some its2 /\
    (length (l ++ all_bytes its1) mod 2 = 0)%nat /\ c <= c' /\
    thumb_extent fi sz c src = thumb_extent fi' sz c' src /\ (c' < sz -> (fi' < fi)%nat).
Proof.
  induction fi as [|fi IH]; intros fuel c l ls ctx m its Hinv Hm Hits Hc Hlim Hlen Heven Hfuel Hf;
    cbn [thumb_items thumb_extent] in *; pose proof Hinv as [_ Hz Hvm Hcs Hcur _ _].
  - destruct (Z.ltb_spec c sz); [done|]. injection Hits as <-. exists ctx, [], [], m, c, 0%nat.
    cbn [all_lits thumb_items thumb_extent]. unfold all_bytes. cbn [map concat]. rewrite !app_nil_r.
    destruct (Z.ltb_spec c sz); [lia|].
    split; [|split_and!; done || lia]. destruct fuel; cbn [thumb_loop]; unfold remaining; rewrite Hz, Hcur;
      by destruct (Z.ltb_spec c sz); [lia|].
  - destruct (Z.ltb_spec c sz) as [Hlt|Hge].
    2:{ injection Hits as <-. exists ctx, [], [], m, c, 0%nat.
        cbn [all_lits thumb_items thumb_extent]. unfold all_bytes. cbn [map concat]. rewrite !app_nil_r.
        destruct (Z.ltb_spec c sz); [lia|].
        split; [|split_and!; done || lia]. destruct fuel; cbn [thumb_loop]; unfold remaining; rewrite Hz, Hcur;
          by destruct (Z.ltb_spec c sz); [lia|]. }
    destruct (body_item (u32 (vm + c + 4)) (word_from src c)) as [body|] eqn:Hbody; [|done]. cbn [mbind option_bind] in Hits.
    set (it := padded (pad_count false (Z.of_nat (length l))) body) in *.
    set (w := word_from src c) in *. set (m1 := next_state_map (u32 (vm + c + 4)) w m) in *.
    destruct (thumb_items fi vm sz (c + body_length w) _ _ m1 src) as [its'|] eqn:Hits'; [|done].
    injection Hits as <-. apply a32_fits_cons in Hf as [Hf1 Hf2].
    destruct fuel as [|fuel]; [lia|]. cbn [thumb_loop]. unfold remaining. rewrite Hz, Hcur.
    destruct (Z.ltb_spec c sz); [|lia].
    destruct (thumb_iteration_ok src sz vm c l ls ctx m body) as (ctx1 & -> & Hinv1 & Hm1 & Hst1); try done; try lia.
    fold w it m1 in Hinv1, Hm1. cbn [mbind outcome_bind].
    rewrite (state_change_check ctx1 vm (c + body_length w)) by apply Hinv1. rewrite Hm1.
    pose proof (body_length_range w) as Hbl.
    assert (Heven1 : (length (l ++ i_bytes it) mod 2 = 0)%nat)
      by (apply length_even_app; [done|by apply padded_even, (body_even _ _ _ Hbody)]).
    assert (Elen : Z.of_nat (length l) + Z.of_nat (length (i_bytes it)) = Z.of_nat (length (l ++ i_bytes it)))
      by (rewrite length_app; lia). rewrite Elen in Hits'.
    destruct (state_change vm (c + body_length w) m1).
    + exists ctx1, [it], its', m1, (c + body_length w), fi. rewrite all_lits_cons. unfold all_bytes.
      cbn [map concat all_lits]. rewrite !app_nil_r. split_and!; done || lia.
    + destruct (IH fuel _ _ _ ctx1 m1 its' Hinv1 Hm1 Hits') as (ctx2 & its1 & its2 & m2 & c2 & fi2 & E2 & -> & Hinv2 & Hm2 & Hst2 & Hi2 & Hev2 & Hc2 & Hex & Hfi);
        try done; try lia.
      exists ctx2, (it :: its1), its2, m2, c2, fi2. rewrite all_lits_cons, all_bytes_cons, !app_assoc.
      rewrite <- app_assoc in Hinv2. rewrite length_app in Hinv2. rewrite !app_assoc in Hinv2.
      rewrite E2. cbn [app]. split_and!; try done; try congruence; lia.
Qed.

(** An interruption at an aligned offset changes nothing; at another one it adds a nop. *)
Lemma interrupted_aligned fi vm sz c o m src :
  o mod 4 = 0 -> thumb_items fi vm sz c o true m src = thumb_items fi vm sz c o false m src.
Proof. intros E. destruct fi; cbn [thumb_items]; [done|]. unfold pad_count. by rewrite E. Qed.

Lemma interrupted_nop fi vm sz c o m src its :
  o mod 4 <> 0 -> (o + 2) mod 4 = 0 -> c < sz -> 0 <= o ->
  thumb_items fi vm sz c o true m src = Some its ->
  exists its', thumb_items fi vm sz c (o + 2) false m src = Some its' /\
    all_bytes its = flat 2 [NOP] ++ all_bytes its' /\ all_lits (Z.to_nat o) its = all_lits (Z.to_nat (o + 2)) its'.
Proof.
  intros Ho Ho2 Hc Hpos. destruct fi as [|fi]; cbn [thumb_items]; [by destruct (Z.ltb_spec c sz); [|lia]|].
  destruct (Z.ltb_spec c sz); [|lia]. unfold pad_count. destruct (Z.eqb_spec (o mod 4) 0); [done|]. rewrite Ho2. cbn [Z.eqb].
  destruct (body_item _ _) as [body|]; [|done]. cbn [mbind option_bind].
  replace (o + 2 + Z.of_nat (length (i_bytes (padded 2 body)))) with (o + Z.of_nat (length (i_bytes (padded 3 body))))
    by (rewrite !length_padded; lia).
  destruct (thumb_items fi _ _ _ _ _ _ _) as [its'|]; [|done]. intros E. apply (inj Some) in E. subst its.
  eexists. split; [reflexivity|]. split; [done|]. rewrite !all_lits_cons, !length_padded. f_equal; [|f_equal; lia].
  cbn [padded i_lit]. destruct (i_lit body) as [[k v]|]; [|done]. cbn [lit_list]. do 2 f_equal. lia.
Qed.

Lemma even_mod4 n : (n mod 2 = 0)%nat -> Z.of_nat n mod 4 <> 0 -> (Z.of_nat n + 2) mod 4 = 0.
Proof.
  intros He Hn. assert (Hz : Z.of_nat n mod 2 = 0) by (change 2 with (Z.of_nat 2); rewrite <- Nat2Z.inj_mod; lia).
  pose proof (Z.div_mod (Z.of_nat n) 4 ltac:(lia)) as H4. pose proof (Z.mod_pos_bound (Z.of_nat n) 4 ltac:(lia)).
  assert (E : Z.of_nat n mod 4 = 2).
  { pose proof (Z.div_mod (Z.of_nat n) 2 ltac:(lia)). lia. }
  by rewrite <- Zplus_mod_idemp_l, E.
Qed.

Lemma all_bytes_app its its' : all_bytes (its ++ its') = all_bytes its ++ all_bytes its'.
Proof. unfold all_bytes. by rewrite map_app, concat_app. Qed.

Lemma a32_all_lits_app its its' : forall o,
  all_lits o (its ++ its') = all_lits o its ++ all_lits (o + length (all_bytes its)) its'.
Proof.
  induction its as [|it its IH]; intros o; [simpl; f_equal; lia|].
  cbn [app]. rewrite !all_lits_cons, IH, all_bytes_cons, length_app, app_assoc. f_equal. f_equal. lia.
Qed.

Lemma reloc_inv_rebuffer src sz vm c l l' ls ctx m :
  reloc_inv ThumbExecuteState src sz vm c l ls ctx -> membuffer_rep m l' ->
  reloc_inv ThumbExecuteState src sz vm c l' ls (put_thumb (with_buffer m (thumb_view ctx)) ctx).
Proof.
  intros [Hs Hz Hv Hst Hc [[Ha _ Hl] Hth] Hm] Hb. by split.
Qed.

Lemma thumb_remain_ok src sz vm : forall fuel fi c l ls ctx m its,
  reloc_inv ThumbExecuteState src sz vm c l ls ctx -> execute_state_map ctx = m ->
  thumb_items fi vm sz c (Z.of_nat (length l)) false m src = Some its ->
  0 <= c -> sz + 4 < 2 ^ 31 -> sz + 4 <= Z.of_nat (length src) -> (length l mod 2 = 0)%nat -> (fi < fuel)%nat ->
  fits l (all_bytes its) ->
  exists ctx', relocate_remain fuel ctx = Ret ctx' /\
    reloc_inv ThumbExecuteState src sz vm (thumb_extent fi sz c src) (l ++ all_bytes its)
      (ls ++ all_lits (length l) its) ctx'.
Proof.
  induction fuel as [|fuel IH]; intros fi c l ls ctx m its Hinv Hm Hits Hc Hlim Hlen Heven Hfuel Hf; [lia|].
  cbn [relocate_remain]. rewrite (ri_state _ _ _ _ _ _ _ _ Hinv).
  destruct (thumb_loop_ok src sz vm fi (S fuel) c l ls ctx m its) as
    (ctx1 & its1 & its2 & m1 & c1 & fi1 & E & -> & Hinv1 & Hm1 & Hst1 & Hi1 & Hev1 & Hc1 & Hex & Hfi); try done; [lia|].
  unfold gen_thumb_relocate_code. rewrite E. cbn [mbind outcome_bind]. rewrite Hex, all_bytes_app, a32_all_lits_app.
  unfold fits in Hf. rewrite all_bytes_app, length_app in Hf.
  pose proof Hinv1 as [_ Hz1 _ _ Hcur1 [Hr1 _] _].
  assert (Hrem : remaining ctx1 = (c1 <? sz)) by (unfold remaining; by rewrite Hz1, Hcur1).
  rewrite Hrem. destruct (Z.ltb_spec c1 sz) as [Hlt|Hge].
  - specialize (Hfi Hlt).
    set (ctx2 := put_thumb (SetExecuteState ARMExecuteState (thumb_view ctx1)) ctx1).
    assert (Hinv2 : reloc_inv ThumbExecuteState src sz vm c1 (l ++ all_bytes its1) (ls ++ all_lits (length l) its1) ctx2).
    { destruct Hinv1 as [? ? ? ? ? [[? ? ?] ?] ?]. by split. }
    change (remaining ctx2) with (remaining ctx1). rewrite Hrem.
    change (a_state (thumb_assembler ctx2)) with ARMExecuteState.
    rewrite bool_decide_true by done. destruct (Z.ltb_spec c1 sz); [|lia]. cbn [andb].
    change (pc_offset (thumb_view ctx2)) with (buffer_size (relocated_buffer ctx1)).
    rewrite (mb_size _ _ (ar_buffer _ _ _ _ Hr1) : buffer_size (relocated_buffer ctx1) = _).
    destruct (Z.eqb_spec (Z.of_nat (length (l ++ all_bytes its1)) mod 4) 0) as [E4|E4]; cbn [negb mbind outcome_bind].
    + rewrite interrupted_aligned in Hi1 by done. fold ctx2.
      destruct (IH fi1 c1 _ _ ctx2 m1 its2 Hinv2 Hm1 Hi1) as (ctx3 & E3 & Hinv3); try done; try lia.
      { unfold fits. rewrite length_app. lia. }
      exists ctx3. rewrite !app_assoc. rewrite length_app in Hinv3. by split.
    + pose proof (even_mod4 _ Hev1 E4) as E42.
      destruct (interrupted_nop _ _ _ _ _ _ _ _ E4 E42 Hlt ltac:(lia) Hi1) as (its2' & Hi2 & Hb2 & Hl2).
      assert (Hlen2 : length (all_bytes its2) = (2 + length (all_bytes its2'))%nat) by (rewrite Hb2, length_app; done).
      destruct (emits_nop (thumb_view ctx2) (l ++ all_bytes its1)) as (mb & En & Hmb);
        [apply Hinv2|unfold fits; rewrite length_app; change (length (flat 2 [NOP])) with 2%nat; lia|].
      fold ctx2. rewrite En. cbn [mbind outcome_bind].
      pose proof (reloc_inv_rebuffer _ _ _ _ _ _ _ _ _ Hinv2 Hmb) as Hinv3.
      destruct (IH fi1 c1 _ _ _ m1 its2' Hinv3 Hm1) as (ctx4 & E5 & Hinv4); try done; try lia.
      { rewrite length_app, Nat2Z.inj_add. exact Hi2. }
      { apply length_even_app; [done|apply flat2_even]. }
      { unfold fits. rewrite !length_app. change (length (flat 2 [NOP])) with 2%nat. lia. }
      exists ctx4. split; [done|]. rewrite !app_assoc. rewrite Hb2, app_assoc.
      replace (all_lits (length l + length (all_bytes its1)) its2) with
        (all_lits (length ((l ++ all_bytes its1) ++ flat 2 [NOP])) its2'); [exact Hinv4|].
      rewrite Nat2Z.id in Hl2. rewrite length_app in Hl2. rewrite Hl2. f_equal. rewrite !length_app.
      change (length (flat 2 [NOP])) with 2%nat. lia.
  - assert (its2 = []) as -> by (destruct fi1; cbn [thumb_items] in Hi1; destruct (Z.ltb_spec c1 sz); (lia || congruence)).
    rewrite Hrem. destruct (Z.ltb_spec c1 sz); [lia|]. rewrite andb_false_r. exists ctx1. split; [done|].
    replace (thumb_extent fi1 sz c1 src) with c1 by (destruct fi1; cbn [thumb_extent]; by destruct (Z.ltb_spec c1 sz); [lia|]).
    cbn [all_lits]. change (all_bytes []) with (@nil Z). rewrite !app_nil_r. exact Hinv1.
Qed.
