(* ===== verification/Arm32Block.v ===== *)
(** * The relocated ARM32 block

    [relocDataLabels] puts the literals behind the code and the distances into the loads;
    with that, what [GenRelocateCode] returns is known byte by byte. *)

From stdpp Require Import gmap.
From S2P Require Import Prelude UtilityMacro CodeMemBuffer Arm32Assembler Arm32Relocation Arm32Emission.
#[local] Open Scope machine_scope.
#[local] Open Scope Z_scope.

(** ** Binding the labels *)

(** [link] gives the instruction at an aligned offset the distance to [p]. *)
Definition links_slot (t : Z) (link : Z -> ref_inst_t -> MemBuffer -> outcome MemBuffer) (slot : Z -> list Z -> list Z) : Prop :=
  forall p b l off, membuffer_rep b l -> (off mod 4 = 0)%nat -> (off + 4 <= length l)%nat ->
  Z.of_nat (length l) <= p <= cb_limit ->
  exists b', link p {| link_type := t; inst_offset := Z.of_nat off; pc_offset_ := Z.of_nat off |} b = Ret b' /\
    membuffer_rep b' (splice l off (slot (p - Z.of_nat off) (slot_at l off))).

Lemma of_nat_mod4 off : (off mod 4 = 0)%nat -> Z.of_nat off mod 4 = 0.
Proof. intros H. change 4 with (Z.of_nat 4). rewrite <- Nat2Z.inj_mod, H. done. Qed.

Lemma link_arm_ok : links_slot kLdrLiteral link_arm_inst arm_slot.
Proof.
  intros p b l off Hb H4 Hoff Hp. unfold link_arm_inst, LoadARMInst. cbn [inst_offset link_type].
  rewrite (load_n_ok 4 b l) by (done || lia). cbn [mbind outcome_bind]. rewrite Nat2Z.id.
  change (kLdrLiteral =? kLdrLiteral) with true. cbn iota.
  change ARM_PC_OFFSET with 8. rewrite <- Zplus_mod_idemp_l, of_nat_mod4 by done. change ((0 + 8) mod 4 =? 0) with true. cbn iota.
  unfold cb_limit in Hp. rewrite sext_small by lia.
  replace (p - (Z.of_nat off + 8)) with (p - Z.of_nat off - 8) by lia.
  fold (slot_at l off). unfold RewriteARMInst.
  assert (E : (if 0 <? p - Z.of_nat off - 8
               then Ret (set_bits (set_bit (le_val (slot_at l off)) 23 1) 0 11 (p - Z.of_nat off - 8))
               else Ret (set_bits (set_bit (le_val (slot_at l off)) 23 0) 0 11 (- (p - Z.of_nat off - 8))))
              = Ret (if 0 <? p - Z.of_nat off - 8
               then set_bits (set_bit (le_val (slot_at l off)) 23 1) 0 11 (p - Z.of_nat off - 8)
               else set_bits (set_bit (le_val (slot_at l off)) 23 0) 0 11 (- (p - Z.of_nat off - 8)))) by (by destruct (0 <? _)).
  rewrite E. cbn [mbind outcome_bind].
  edestruct (store_n_ok 4 b l (Z.of_nat off)) as (b' & -> & Hb'); [done|lia|lia|].
  exists b'. split; [done|]. rewrite Nat2Z.id in Hb'. exact Hb'.
Qed.

Lemma splice_adjacent {A} (l : list A) off x y :
  (off + length x + length y <= length l)%nat -> splice (splice l off x) (off + length x) y = splice l off (x ++ y).
Proof.
  intros H. unfold splice. rewrite length_app.
  rewrite (app_assoc (take off l)). rewrite take_app_length' by (rewrite length_app, length_take; lia).
  rewrite <- !app_assoc. do 3 f_equal.
  rewrite (app_assoc (take off l)). rewrite drop_app_ge by (rewrite length_app, length_take; lia).
  rewrite drop_drop, length_app, length_take. f_equal. lia.
Qed.

Lemma take_drop_splice_after {A} (l : list A) off x n k :
  (off + length x <= k)%nat -> (k + n <= length l)%nat -> take n (drop k (splice l off x)) = take n (drop k l).
Proof.
  intros H Hk. unfold splice. rewrite app_assoc, drop_app_ge by (rewrite length_app, length_take; lia).
  rewrite drop_drop, length_app, length_take. do 2 f_equal. lia.
Qed.

Lemma take_drop_splice_before {A} (l : list A) off x n k :
  (k + n <= off)%nat -> (off + length x <= length l)%nat -> take n (drop k (splice l off x)) = take n (drop k l).
Proof.
  intros H Hl. unfold splice. rewrite skipn_app, length_take.
  rewrite (firstn_app n), length_drop, length_take.
  replace (n - _)%nat with 0%nat by lia. rewrite firstn_O, app_nil_r.
  rewrite skipn_firstn_comm, take_take. f_equal. lia.
Qed.

Lemma take_drop_splice_same {A} (l : list A) off x :
  (off + length x <= length l)%nat -> take (length x) (drop off (splice l off x)) = x.
Proof.
  intros Hl. unfold splice. rewrite drop_app_length' by (rewrite length_take; lia). by rewrite take_app_length.
Qed.

Lemma link_thumb_ok : links_slot kThumb2LiteralLdr link_thumb_inst thumb_slot.
Proof.
  intros p b l off Hb H4 Hoff Hp. unfold link_thumb_inst, LoadThumb2Inst, LoadThumb1Inst. cbn [pc_offset_ link_type].
  rewrite (load_n_ok 4 b l), !(load_n_ok 2 b l) by (done || lia). cbn [mbind outcome_bind].
  change (kThumb2LiteralLdr =? kThumb1Ldr) with false. change (kThumb2LiteralLdr =? kThumb2LiteralLdr) with true. cbn iota.
  change Thumb_PC_OFFSET with 4. rewrite <- Zplus_mod_idemp_l, of_nat_mod4 by done. change ((0 + 4) mod 4 =? 0) with true. cbn iota.
  unfold cb_limit in Hp. rewrite sext_small by lia.
  replace (p - (Z.of_nat off + 4)) with (p - Z.of_nat off - 4) by lia.
  replace (Z.to_nat (Z.of_nat off + 2)) with (off + 2)%nat by lia. rewrite Nat2Z.id.
  set (i1 := le_val (take 2 (drop off l))). set (i2 := le_val (take 2 (drop (off + 2) l))).
  set (d := p - Z.of_nat off - 4).
  assert (E : (if 0 <? d then (set_bit i1 7 1, d) else (set_bit i1 7 0, - d))
              = (set_bit i1 7 (if 0 <? d then 1 else 0), if 0 <? d then d else - d)) by (by destruct (0 <? d)).
  rewrite E. unfold RewriteThumb1Inst. change Thumb1_INST_LEN with 2.
  edestruct (store_n_ok 2 b l (Z.of_nat off)) as (b1 & -> & Hb1); [done|lia|lia|]. cbn [mbind outcome_bind].
  rewrite Nat2Z.id in Hb1.
  edestruct (store_n_ok 2 b1) with (off := Z.of_nat off + 2) as (b2 & -> & Hb2);
    [exact Hb1|lia|rewrite length_splice; rewrite ?length_le_bytes; lia|].
  exists b2. split; [done|]. replace (Z.to_nat (Z.of_nat off + 2)) with (off + 2)%nat in Hb2 by lia.
  match type of Hb2 with membuffer_rep _ (splice (splice _ _ ?x) _ ?y) =>
    pose proof (splice_adjacent l off x y) as Ha end.
  rewrite length_le_bytes in Ha. rewrite Ha in Hb2 by (rewrite length_le_bytes; lia).
  unfold thumb_slot, slot_at. rewrite take_take. change (Nat.min 2 4) with 2%nat. fold i1.
  rewrite skipn_firstn_comm, drop_drop. change (4 - 2)%nat with 2%nat. fold i2 d. exact Hb2.
Qed.

Lemma splice_app_l {A} (l l' : list A) off x :
  (off + length x <= length l)%nat -> splice (l ++ l') off x = splice l off x ++ l'.
Proof.
  intros H. unfold splice. rewrite take_app_le, drop_app_le by lia. by rewrite <- !app_assoc.
Qed.

Lemma slot_at_app l l' off : (off + 4 <= length l)%nat -> slot_at (l ++ l') off = slot_at l off.
Proof. intros H. unfold slot_at. rewrite drop_app_le by lia. by rewrite take_app_le by (rewrite length_drop; lia). Qed.

Definition slot4 (slot : Z -> list Z -> list Z) : Prop := forall d x, length (slot d x) = 4%nat.

Lemma arm_slot4 : slot4 arm_slot.
Proof. intros d x. apply length_le_bytes. Qed.
Lemma thumb_slot4 : slot4 thumb_slot.
Proof. intros d x. unfold thumb_slot. by rewrite length_app, !length_le_bytes. Qed.

Lemma reloc_labels_ok t link slot : links_slot t link slot -> slot4 slot -> forall ls labels a l extra,
  Forall2 (label_rep t) ls labels -> membuffer_rep (buffer_ a) (l ++ extra) ->
  Forall (fun r => (fst r mod 4 = 0 /\ fst r + 4 <= length l)%nat) ls ->
  Z.of_nat (length (l ++ extra)) + 4 * Z.of_nat (length ls) <= cb_limit ->
  exists labels' b, reloc_labels link labels a = Ret (labels', with_buffer b a) /\
    membuffer_rep b (patch slot ls (Z.of_nat (length (l ++ extra))) l ++ extra ++ lit_bytes ls).
Proof.
  intros Hlink H4 ls. induction ls as [|r ls IH]; intros labels a l extra HF Hb Hoff Hlim; inversion HF; subst; clear HF.
  - exists [], (buffer_ a). split; [by destruct a|]. unfold lit_bytes. cbn [map concat patch]. by rewrite app_nil_r.
  - match goal with H : label_rep _ _ ?y |- _ => rename H into Hr; set (lab := y) in * end.
    match goal with H : Forall2 _ ls _ |- _ => rename H into HF end.
    inversion Hoff as [|? ? [Hm4 Hle] Hoff']; subst. cbn [length] in Hlim.
    assert (Hc : forall q, has_confused_instructions (bind_to q lab) = true)
      by (intros q; unfold has_confused_instructions; cbn [ref_insts bind_to]; by rewrite (lr_refs _ _ _ Hr)).
    cbn [reloc_labels]. unfold bind_and_emit. rewrite Hc. cbn [bind_to pos ref_insts data_].
    rewrite (lr_refs _ _ _ Hr). cbn [link_confused_instructions].
    unfold pc_offset, size. rewrite (mb_size _ _ Hb).
    destruct (Hlink (Z.of_nat (length (l ++ extra))) _ _ (fst r) Hb) as (b1 & -> & Hb1);
      [done|rewrite length_app; lia|lia|].
    cbn [mbind outcome_bind]. rewrite (lr_data _ _ _ Hr).
    rewrite slot_at_app in Hb1 by lia. set (x := slot _ _) in Hb1. assert (Hx : length x = 4%nat) by apply H4.
    rewrite splice_app_l in Hb1 by lia.
    assert (Hsl : length (splice l (fst r) x) = length l) by (rewrite length_splice; lia).
    destruct (emit_ok b1 _ (le_bytes 4 (snd r)) Hb1 (le_bytes_ok 4 _)) as (b2 & -> & Hb2).
    { rewrite length_app, Hsl, length_le_bytes. rewrite length_app in Hlim. lia. }
    cbn [mbind outcome_bind]. rewrite <- app_assoc in Hb2.
    destruct (IH _ (with_buffer b2 a) (splice l (fst r) x) (extra ++ le_bytes 4 (snd r)) HF Hb2) as (labels' & b3 & -> & Hb3).
    { eapply Forall_impl; [|exact Hoff']. intros r' [? ?]. by rewrite Hsl. }
    { rewrite app_assoc, !length_app, Hsl, length_le_bytes. rewrite length_app in Hlim. lia. }
    cbn [mbind outcome_bind]. eexists _, b3. split; [reflexivity|].
    destruct r as [off v]. cbn [fst snd patch] in *. unfold lit_bytes. cbn [map concat snd].
    fold x.
    rewrite <- !app_assoc in Hb3. unfold lit_bytes in Hb3.
    replace (Z.of_nat (length (l ++ extra)) + 4) with (Z.of_nat (length (splice l off x ++ extra ++ le_bytes 4 v)));
      [exact Hb3|]. rewrite !length_app, Hsl, length_le_bytes. lia.
Qed.

(** ** Where the literals are loaded *)

Definition lit_in (it : item) : Prop := match i_lit it with Some (k, _) => (k + 4 <= length (i_bytes it))%nat | None => True end.

(** Items that start at [o], each load aligned. *)
Fixpoint lits_aligned (o : nat) (its : list item) : Prop :=
  match its with
  | [] => True
  | it :: its =>
      match i_lit it with Some (k, _) => ((o + k) mod 4 = 0)%nat | None => True end /\
      lits_aligned (o + length (i_bytes it)) its
  end.

Lemma all_lits_bounds its : forall o,
  Forall lit_in its -> Forall (fun r => (o <= fst r /\ fst r + 4 <= o + length (all_bytes its))%nat) (all_lits o its).
Proof.
  induction its as [|it its IH]; intros o HF; inversion HF as [|? ? Hit HF']; subst; [constructor|].
  rewrite all_lits_cons, all_bytes_cons, length_app. apply Forall_app. split.
  - unfold lit_in in Hit. destruct (i_lit it) as [[k v]|]; cbn [lit_list]; constructor; [cbn [fst]; lia|constructor].
  - eapply Forall_impl; [|by apply IH]. intros r [? ?]. lia.
Qed.

Lemma all_lits_slots o its :
  Forall lit_in its -> lits_aligned o its ->
  Forall (fun r => (fst r mod 4 = 0 /\ fst r + 4 <= o + length (all_bytes its))%nat) (all_lits o its).
Proof.
  intros HF HA. apply Forall_and.
  - clear HF. revert o HA. induction its as [|it its IH]; intros o; [constructor|]. cbn [lits_aligned]. intros [Hk Hr].
    rewrite all_lits_cons. apply Forall_app. split; [|by apply IH].
    destruct (i_lit it) as [[k v]|]; cbn [lit_list]; constructor; [done|constructor].
  - eapply Forall_impl; [|by apply all_lits_bounds]. by intros r [_ ?].
Qed.

(** ** Bytes of the patched code *)

Section Patch.
Context (slot : Z -> list Z -> list Z) (H4 : slot4 slot).

Lemma a32_length_patch lits : forall p l, Forall (fun r => (fst r + 4 <= length l)%nat) lits -> length (patch slot lits p l) = length l.
Proof.
  induction lits as [|[off v] lits IH]; intros p l HF; [done|]. inversion HF; subst. cbn [patch fst] in *.
  rewrite IH; rewrite length_splice; rewrite ?H4; done.
Qed.

Lemma patch_app lits lits' : forall p l,
  patch slot (lits ++ lits') p l = patch slot lits' (p + 4 * Z.of_nat (length lits)) (patch slot lits p l).
Proof.
  induction lits as [|[off v] lits IH]; intros p l; cbn [patch app length].
  { by replace (p + 4 * Z.of_nat 0) with p by lia. }
  rewrite IH. f_equal. lia.
Qed.

Lemma patch_outside k n lits : forall p l,
  Forall (fun r => (fst r + 4 <= length l)%nat /\ (fst r + 4 <= k \/ k + n <= fst r)%nat) lits -> (k + n <= length l)%nat ->
  take n (drop k (patch slot lits p l)) = take n (drop k l).
Proof.
  induction lits as [|[off v] lits IH]; intros p l HF Hn; [done|]. inversion HF as [|? ? [Hle Hd] HF']; subst. cbn [patch fst] in *.
  rewrite IH; rewrite ?length_splice; rewrite ?H4; try done.
  destruct Hd; [rewrite take_drop_splice_after|rewrite take_drop_splice_before]; rewrite ?H4; done.
Qed.

(** An item with its distance filled in; [q] is where its literal is, [o] where the item starts. *)
Definition linked (q o : Z) (it : item) : list Z :=
  match i_lit it with
  | Some (k, _) => splice (i_bytes it) k (slot (q - (o + Z.of_nat k)) (slot_at (i_bytes it) k))
  | None => i_bytes it
  end.

Lemma length_linked q o it : lit_in it -> length (linked q o it) = length (i_bytes it).
Proof. unfold linked, lit_in. destruct (i_lit it) as [[k v]|]; [|done]. intros H. rewrite length_splice; rewrite ?H4; done. Qed.

Lemma take_drop_splice_in {A} (l : list A) o n k x :
  (k + length x <= n)%nat -> (o + n <= length l)%nat ->
  take n (drop o (splice l (o + k) x)) = splice (take n (drop o l)) k x.
Proof.
  intros Hk Hn. unfold splice. rewrite skipn_app, length_take.
  replace (o - _)%nat with 0%nat by lia. rewrite drop_0, skipn_firstn_comm.
  replace (o + k - o)%nat with k by lia. rewrite firstn_app, length_take, length_drop.
  rewrite take_take, Nat.min_r by lia. rewrite take_take. f_equal; [f_equal; lia|].
  replace (n - Nat.min k (length l - o))%nat with (n - k)%nat by lia.
  rewrite firstn_app, (firstn_all2 x) by lia. f_equal.
  rewrite skipn_firstn_comm, drop_drop. f_equal; [lia|f_equal; lia].
Qed.

Lemma patch_item its1 it its2 tail p :
  Forall lit_in (its1 ++ it :: its2) ->
  let its := its1 ++ it :: its2 in
  let l := all_bytes its ++ tail in
  let o := length (all_bytes its1) in
  take (length (i_bytes it)) (drop o (patch slot (all_lits 0 its) p l))
  = linked (p + 4 * Z.of_nat (length (all_lits 0 its1))) (Z.of_nat o) it.
Proof.
  intros HF its l o. apply Forall_app in HF as [HF1 HF2]. inversion HF2 as [|? ? Hit HF2']; subst.
  assert (Hl : length l = (o + length (i_bytes it) + length (all_bytes its2) + length tail)%nat).
  { unfold l, its, o. rewrite all_bytes_app, all_bytes_cons, !length_app. lia. }
  assert (Hseg : take (length (i_bytes it)) (drop o l) = i_bytes it).
  { unfold l, its, o. rewrite all_bytes_app, all_bytes_cons, <- !app_assoc, drop_app_length. by rewrite take_app_length. }
  pose proof (all_lits_bounds its1 0 HF1) as B1. pose proof (all_lits_bounds its2 (o + length (i_bytes it)) HF2') as B2.
  unfold its. rewrite a32_all_lits_app, all_lits_cons, !patch_app. cbn [Nat.add]. fold o.
  set (l1 := patch slot (all_lits 0 its1) p l).
  assert (Hl1 : length l1 = length l).
  { apply a32_length_patch. eapply Forall_impl; [|exact B1]. intros r [_ ?]. unfold o in *. lia. }
  assert (Hseg1 : take (length (i_bytes it)) (drop o l1) = i_bytes it).
  { unfold l1. rewrite patch_outside; [done| |lia]. eapply Forall_impl; [|exact B1]. intros r [_ ?]. unfold o in *. lia. }
  rewrite patch_outside.
  - unfold linked, lit_in in *. destruct (i_lit it) as [[k v]|]; cbn [lit_list patch]; [|done].
    rewrite take_drop_splice_in by (rewrite ?H4; lia). rewrite Hseg1, Nat2Z.inj_add. do 2 f_equal.
    unfold slot_at. rewrite <- Hseg1. rewrite skipn_firstn_comm, take_take, drop_drop. f_equal. lia.
  - assert (Hl2 : forall q, length (patch slot (lit_list o (i_lit it)) q l1) = length l).
    { intros q. rewrite a32_length_patch; [done|]. unfold lit_in in Hit. destruct (i_lit it) as [[k v]|]; cbn [lit_list];
        constructor; [cbn [fst]; lia|constructor]. }
    rewrite Hl2. eapply Forall_impl; [|exact B2]. intros r [? ?]. lia.
  - rewrite a32_length_patch; [lia|]. unfold lit_in in Hit. destruct (i_lit it) as [[k v]|]; cbn [lit_list];
      constructor; [cbn [fst]; lia|constructor].
Qed.

Lemma patch_tail its tail p n :
  Forall lit_in its -> (n <= length tail)%nat ->
  take n (drop (length (all_bytes its)) (patch slot (all_lits 0 its) p (all_bytes its ++ tail))) = take n tail.
Proof.
  intros HF Hn. rewrite patch_outside; [by rewrite drop_app_length| |rewrite length_app; lia].
  eapply Forall_impl; [|by apply (all_lits_bounds its 0)]. intros r [_ ?]. rewrite length_app. lia.
Qed.

(** The finished block: patched code and literals. *)
Definition block_bytes (its : list item) (tail : list Z) : list Z :=
  let l := all_bytes its ++ tail in
  patch slot (all_lits 0 its) (Z.of_nat (length l)) l ++ lit_bytes (all_lits 0 its).

Lemma a32_length_lit_bytes lits : length (lit_bytes lits) = (4 * length lits)%nat.
Proof.
  unfold lit_bytes. induction lits as [|r lits IH]; [done|]. cbn [map concat length]. rewrite length_app, length_le_bytes, IH. lia.
Qed.

Lemma lit_bytes_at lits j r : lits !! j = Some r -> take 4 (drop (4 * j) (lit_bytes lits)) = le_bytes 4 (snd r).
Proof.
  revert j. induction lits as [|r' lits IH]; intros [|j] E; try discriminate; unfold lit_bytes in *; cbn [map concat].
  - injection E as ->. by rewrite drop_0, take_app_length' by (by rewrite length_le_bytes).
  - replace (4 * S j)%nat with (4 + 4 * j)%nat by lia.
    rewrite <- drop_drop, drop_app_length' by (by rewrite length_le_bytes). by apply IH.
Qed.

Context (its1 : list item) (it : item) (its2 : list item) (tail : list Z).
Context (HF : Forall lit_in (its1 ++ it :: its2)).
Let its := its1 ++ it :: its2.
Let o := length (all_bytes its1).
Let p := length (all_bytes its ++ tail).

Lemma all_slots_in : Forall (fun r => (fst r + 4 <= p)%nat) (all_lits 0 its).
Proof.
  eapply Forall_impl; [|by apply (all_lits_bounds its 0)]. intros r [_ ?]. unfold p. rewrite length_app. lia.
Qed.

Lemma length_block : length (block_bytes its tail) = (p + 4 * length (all_lits 0 its))%nat.
Proof. unfold block_bytes. rewrite length_app, a32_length_lit_bytes, a32_length_patch; [done|apply all_slots_in]. Qed.

Lemma block_item :
  take (length (i_bytes it)) (drop o (block_bytes its tail))
  = linked (Z.of_nat p + 4 * Z.of_nat (length (all_lits 0 its1))) (Z.of_nat o) it.
Proof.
  unfold block_bytes. rewrite <- patch_item with (its2 := its2) (tail := tail) by done. cbn zeta. fold its o p.
  assert (Hp : (o + length (i_bytes it) <= p)%nat).
  { unfold p, its, o. rewrite all_bytes_app, all_bytes_cons, !length_app. lia. }
  pose proof (a32_length_patch (all_lits 0 its) (Z.of_nat p) (all_bytes its ++ tail) all_slots_in) as Hl. fold p in Hl.
  rewrite drop_app_le, take_app_le by (rewrite ?length_drop; lia). done.
Qed.

Lemma block_literal k dst :
  i_lit it = Some (k, dst) ->
  take 4 (drop (p + 4 * length (all_lits 0 its1)) (block_bytes its tail)) = le_bytes 4 dst.
Proof.
  intros E. unfold block_bytes. fold p.
  rewrite <- drop_drop, drop_app_length' by (rewrite a32_length_patch; [done|apply all_slots_in]).
  apply (lit_bytes_at _ _ ((o + k)%nat, dst)). unfold its. rewrite a32_all_lits_app, all_lits_cons, E.
  cbn [lit_list app Nat.add]. by rewrite list_lookup_middle.
Qed.

End Patch.

(** ** [GenRelocateCode] *)

(** A literal outside the offsets of the block is not touched by [RelocLabelFixup]. *)
Lemma fixup_none m c ls t labels :
  0 <= c -> (forall k v, m !! k = Some v -> 0 <= k < c) -> Forall (fun r : nat * Z => c <= snd r < 2 ^ 32) ls ->
  Forall2 (label_rep t) ls labels -> map (fixup_label m) labels = labels.
Proof.
  intros Hc Hm HF HL. induction HL as [|r lab ls labels Hr HL IH]; [done|]. inversion HF as [|? ? Hv HF']; subst.
  cbn [map]. rewrite IH by done. f_equal. unfold fixup_label, label_data. rewrite (lr_data _ _ _ Hr).
  rewrite take_ge by (by rewrite length_le_bytes). rewrite le_val_bytes. change (2 ^ (8 * Z.of_nat 4)) with (2 ^ 32).
  rewrite Z.mod_small by lia. destruct (m !! i32 (snd r)) as [v|] eqn:E; [|done]. apply Hm in E.
  unfold sext in E. rewrite Z.mod_small in E by lia. destruct (Z.ltb_spec (snd r) (2 ^ (32 - 1))); lia.
Qed.

(** The jump back. *)
Definition arm_tail (branch : bool) (dst : Z) : list Z := if branch then flat 4 [0xe51ff004; u32 dst] else [].

Lemma arm_items_shape n vm src : forall o c, (o mod 4 = 0)%nat ->
  Forall lit_in (arm_items n vm c src) /\ lits_aligned o (arm_items n vm c src) /\
  (length (all_bytes (arm_items n vm c src)) mod 4 = 0)%nat.
Proof.
  induction n as [|n IH]; intros o c Ho; [by split_and!; [constructor| |]|]. cbn [arm_items lits_aligned].
  set (it := arm_item _ _).
  assert (Hit : lit_in it /\ match i_lit it with Some (k, _) => k = 0%nat | None => True end /\ (length (i_bytes it) mod 4 = 0)%nat).
  { unfold it, arm_item, lit_in, arm_literal_item, arm_adr_item, arm_branch_item.
    destruct (is_arm_load_literal _); [|destruct (is_arm_dp_immediate _); [destruct (adr_dst _ _)|destruct (is_arm_branch _); [destruct (_ =? 15)|]]];
      cbn [i_bytes i_lit]; rewrite ?a32_length_flat, ?length_le_bytes; cbn [length]; split_and!; done || lia. }
  destruct Hit as (H1 & H2 & H3).
  assert (Ho' : ((o + length (i_bytes it)) mod 4 = 0)%nat) by (rewrite Nat.Div0.add_mod, Ho, H3; done).
  destruct (IH _ (c + 4) Ho') as (I1 & I2 & I3). rewrite all_bytes_cons, length_app.
  split_and!; [by constructor|by destruct (i_lit it) as [[k v]|]; [subst k; rewrite Nat.add_0_r|]|done|].
  by rewrite Nat.Div0.add_mod, H3, I3.
Qed.

(** What [GenRelocateCode] does with the context when the loops are done. *)
Lemma finish_arm src sz vm c l ls ctx branch :
  0 <= c -> reloc_inv ARMExecuteState src sz vm c l ls ctx ->
  let tail := arm_tail branch (vm + c) in
  Forall (fun r => (fst r mod 4 = 0 /\ fst r + 4 <= length l)%nat) ls -> Forall (fun r => c <= snd r < 2 ^ 32) ls ->
  Z.of_nat (length (l ++ tail)) + 4 * Z.of_nat (length ls) <= cb_limit ->
  exists m,
    (ctx ← (if branch then
              a ← LiteralLdrBranch (u32 (vm + c)) (arm_view ctx); Ret (put_arm a ctx)
            else Ret ctx);
     let ctx := put_arm (RelocLabelFixup (relocated_offset_map ctx) (arm_view ctx)) ctx in
     let ctx := put_thumb (RelocLabelFixup (relocated_offset_map ctx) (thumb_view ctx)) ctx in
     a ← thumb_relocDataLabels (thumb_view ctx);
     let ctx := put_thumb a ctx in
     a ← relocDataLabels (arm_view ctx);
     let ctx := put_arm a ctx in
     Ret (c, relocated_buffer ctx)) = Ret (c, m) /\
    membuffer_rep m (patch arm_slot ls (Z.of_nat (length (l ++ tail))) (l ++ tail) ++ lit_bytes ls).
Proof.
  intros Hc0 [Hs Hz Hv Hst Hc [[Ha Hb Hl] Hth] Hm] tail Hslots Hvals Hlim. unfold tail in *. clear tail.
  assert (Ht : exists b, (if branch then a ← LiteralLdrBranch (u32 (vm + c)) (arm_view ctx); Ret (put_arm a ctx) else Ret ctx)
                         = Ret (put_arm (with_buffer b (arm_view ctx)) ctx) /\ membuffer_rep b (l ++ arm_tail branch (vm + c))).
  { destruct branch; cbn [arm_tail].
    - destruct (emits_LiteralLdrBranch (u32 (vm + c)) (arm_view ctx) l Hb) as (b & -> & Hb').
      { unfold fits. rewrite length_app in Hlim. unfold arm_tail in Hlim. rewrite !a32_length_flat in *. simpl length in *. lia. }
      rewrite wrap_wrap in Hb'. by exists b.
    - exists (relocated_buffer ctx). rewrite app_nil_r. split; [|done].
      destruct ctx as [? ? ? ? ? ? ? ? [? ?] ? ?]. done. }
  destruct Ht as (b & -> & Hb'). cbn [mbind outcome_bind].
  unfold thumb_relocDataLabels, RelocLabelFixup.
  cbn [put_arm put_thumb arm_view thumb_view view data_labels with_labels with_buffer buffer_ priv a_labels thumb_assembler
       arm_assembler relocated_offset_map relocated_buffer execute_state_ a_state realized_addr_].
  rewrite Hth. cbn [map reloc_labels mbind outcome_bind with_labels data_labels buffer_ a_labels a_state
    priv put_thumb put_arm arm_view view arm_assembler relocated_buffer execute_state_].
  unfold relocDataLabels. cbn [data_labels buffer_ a_labels].
  change (data_labels (arm_view ctx)) with (a_labels (arm_assembler ctx)) in Hl.
  rewrite (fixup_none _ _ _ _ _ Hc0 Hm Hvals Hl).
  match goal with |- context [reloc_labels _ ?labels _] => change labels with (a_labels (arm_assembler ctx)) end.
  match goal with |- context [reloc_labels _ _ ?a] =>
    destruct (reloc_labels_ok _ _ _ link_arm_ok arm_slot4 ls (a_labels (arm_assembler ctx)) a (l ++ arm_tail branch (vm + c)) [])
      as (labels' & b2 & E2 & Hb2) end.
  - done.
  - cbn [buffer_]. by rewrite app_nil_r.
  - eapply Forall_impl; [|exact Hslots]. intros r [? ?]. rewrite length_app. lia.
  - rewrite app_nil_r. done.
  - rewrite E2. cbn [mbind outcome_bind]. eexists. split; [reflexivity|]. rewrite app_nil_r in Hb2. exact Hb2.
Qed.

Lemma gen_arm_ok buffer vm sz code branch n :
  buffer mod 2 = 0 -> bytes_ok code -> 4 * Z.of_nat n - 4 < sz <= 4 * Z.of_nat n -> 0 < sz -> 4 * Z.of_nat n < 2 ^ 31 ->
  4 * Z.of_nat n <= Z.of_nat (length code) ->
  let its := arm_items n vm 0 code in
  let tail := arm_tail branch (vm + 4 * Z.of_nat n) in
  Forall (fun r => 4 * Z.of_nat n <= snd r < 2 ^ 32) (all_lits 0 its) ->
  Z.of_nat (length (all_bytes its ++ tail)) + 4 * Z.of_nat (length (all_lits 0 its)) <= cb_limit ->
  exists m, GenRelocateCode buffer vm sz code branch = Ret (4 * Z.of_nat n, m) /\
    membuffer_rep m (block_bytes arm_slot its tail).
Proof.
  intros Hbuf Hok Hsz H0 Hn Hlen its tail Hvals Hlim. unfold GenRelocateCode. rewrite Hbuf. cbn [Z.eqb negb].
  set (ctx0 := Build_relo_ctx_t _ _ _ _ _ _ _ _ _ _ _).
  assert (Hinv0 : reloc_inv ARMExecuteState code sz vm 0 [] [] ctx0).
  { split; try done. split; [|done]. split; [done|apply new_ok|constructor]. }
  assert (Hfits : fits [] (all_bytes its)) by (unfold fits; rewrite length_app in Hlim; simpl; lia).
  destruct (arm_items_shape n vm code 0 0 eq_refl) as (S1 & S2 & _). fold its in S1, S2.
  cbn [relocate_remain]. change (curr_state ctx0) with ARMExecuteState. cbn iota. unfold gen_arm_relocate_code.
  destruct (arm_loop_ok code sz vm n (S (Z.to_nat sz)) 0 [] [] ctx0 Hinv0) as (ctx1 & -> & Hinv1 & Hst1); try done; try lia.
  cbn [app length] in Hinv1. fold its in Hinv1. rewrite Z.add_0_l in Hinv1.
  cbn [mbind outcome_bind]. unfold remaining.
  pose proof Hinv1 as [_ Hz1 Hv1 Hcs1 Hcur1 [Hr1 _] _]. rewrite Hz1, Hcur1.
  destruct (Z.ltb_spec (4 * Z.of_nat n) sz); [lia|]. rewrite Hz1, Hcur1.
  destruct (Z.ltb_spec (4 * Z.of_nat n) sz); [lia|]. rewrite andb_false_r. cbn [mbind outcome_bind]. rewrite Hcs1, Hcur1.
  destruct (finish_arm _ _ _ (4 * Z.of_nat n) _ _ ctx1 branch ltac:(lia) Hinv1) as (m & E & Hm); [by apply (all_lits_slots 0)|done|done|].
  exists m. split; [exact E|exact Hm].
Qed.

(** *** The same in Thumb state *)

Definition thumb_tail (branch : bool) (o : nat) (dst : Z) : list Z :=
  if branch then flat 2 (replicate (if Z.of_nat o mod 4 =? 0 then 0 else 1) NOP ++ t2_lit 15) ++ le_bytes 4 (u32 dst) else [].

Lemma emits_thumb_tail a l dst :
  realized_addr_ a = 0 -> membuffer_rep (buffer_ a) l -> fits l (thumb_tail true (length l) dst) ->
  exists b, (a ← AlignThumbNop a; a ← t2_ldr pc (MemOp pc 0) a; EmitAddress (u32 dst) a) = Ret (with_buffer b a) /\
    membuffer_rep b (l ++ thumb_tail true (length l) dst).
Proof.
  intros Ha Hb Hf. unfold thumb_tail in *. set (n := if Z.of_nat (length l) mod 4 =? 0 then 0%nat else 1%nat) in *.
  rewrite a32_flat_app, <- app_assoc in *.
  assert (Hal : emits (fun a' => if Z.of_nat (length l) mod 4 =? 0 then Ret a' else t1_nop a') (flat 2 (replicate n NOP))).
  { unfold n. destruct (_ =? 0); [apply a32_emits_Ret|apply emits_nop]. }
  assert (E : AlignThumbNop a = if Z.of_nat (length l) mod 4 =? 0 then Ret a else t1_nop a).
  { unfold AlignThumbNop, size. rewrite Ha, (mb_size _ _ Hb), Z.add_0_r, wrap_small.
    - change Thumb2_INST_LEN with 4. by destruct (_ =? 0).
    - unfold fits, cb_limit in Hf. lia. }
  rewrite E. apply (a32_emits_bind _ (fun a => a ← t2_ldr pc (MemOp pc 0) a; EmitAddress (u32 dst) a) _ _ Hal); [|done|done].
  apply a32_emits_bind; [by apply emits_t2_lit|]. apply emits_address_bytes, wrap_range; lia.
Qed.

Lemma finish_thumb src sz vm c l ls ctx branch :
  0 <= c -> reloc_inv ThumbExecuteState src sz vm c l ls ctx ->
  let tail := thumb_tail branch (length l) (vm + c + 1) in
  Forall (fun r => (fst r mod 4 = 0 /\ fst r + 4 <= length l)%nat) ls -> Forall (fun r => c <= snd r < 2 ^ 32) ls ->
  Z.of_nat (length (l ++ tail)) + 4 * Z.of_nat (length ls) <= cb_limit ->
  exists m,
    (ctx ← (if branch then
              a ← AlignThumbNop (thumb_view ctx);
              a ← t2_ldr pc (MemOp pc 0) a;
              a ← EmitAddress (u32 (vm + c + 1)) a;
              Ret (put_thumb a ctx)
            else Ret ctx);
     let ctx := put_arm (RelocLabelFixup (relocated_offset_map ctx) (arm_view ctx)) ctx in
     let ctx := put_thumb (RelocLabelFixup (relocated_offset_map ctx) (thumb_view ctx)) ctx in
     a ← thumb_relocDataLabels (thumb_view ctx);
     let ctx := put_thumb a ctx in
     a ← relocDataLabels (arm_view ctx);
     let ctx := put_arm a ctx in
     Ret (c, relocated_buffer ctx)) = Ret (c, m) /\
    membuffer_rep m (patch thumb_slot ls (Z.of_nat (length (l ++ tail))) (l ++ tail) ++ lit_bytes ls).
Proof.
  intros Hc0 [Hs Hz Hv Hst Hc [[Ha Hb Hl] Hth] Hm] tail Hslots Hvals Hlim. unfold tail in *. clear tail.
  assert (Ht : exists b, (if branch then a ← AlignThumbNop (thumb_view ctx); a ← t2_ldr pc (MemOp pc 0) a;
                            a ← EmitAddress (u32 (vm + c + 1)) a; Ret (put_thumb a ctx) else Ret ctx)
                         = Ret (put_thumb (with_buffer b (thumb_view ctx)) ctx) /\
                         membuffer_rep b (l ++ thumb_tail branch (length l) (vm + c + 1))).
  { destruct branch.
    - destruct (emits_thumb_tail (thumb_view ctx) l (vm + c + 1) Ha Hb) as (b & E & Hb').
      { unfold fits. rewrite length_app in Hlim. lia. }
      exists b. split; [|done].
      destruct (AlignThumbNop (thumb_view ctx)) as [a1| |]; cbn [mbind outcome_bind] in *; try done.
      destruct (t2_ldr pc (MemOp pc 0) a1) as [a2| |]; cbn [mbind outcome_bind] in *; try done. by rewrite E.
    - exists (relocated_buffer ctx). cbn [thumb_tail]. rewrite app_nil_r. split; [|done].
      destruct ctx as [? ? ? ? ? ? ? [? ?] ? ? ?]. done. }
  destruct Ht as (b & -> & Hb'). cbn [mbind outcome_bind].
  unfold thumb_relocDataLabels, RelocLabelFixup.
  change (data_labels (thumb_view ctx)) with (a_labels (thumb_assembler ctx)) in Hl.
  match goal with |- context [reloc_labels _ ?labels _] =>
    change labels with (map (fixup_label (relocated_offset_map ctx)) (a_labels (thumb_assembler ctx))) end.
  rewrite (fixup_none _ _ _ _ _ Hc0 Hm Hvals Hl).
  match goal with |- context [reloc_labels _ _ ?a] =>
    destruct (reloc_labels_ok _ _ _ link_thumb_ok thumb_slot4 ls (a_labels (thumb_assembler ctx)) a
                (l ++ thumb_tail branch (length l) (vm + c + 1)) [])
      as (labels' & b2 & E2 & Hb2) end.
  - done.
  - rewrite app_nil_r. exact Hb'.
  - eapply Forall_impl; [|exact Hslots]. intros r [? ?]. rewrite length_app. lia.
  - rewrite app_nil_r. done.
  - rewrite E2. cbn [mbind outcome_bind]. unfold relocDataLabels.
    match goal with |- context [reloc_labels _ ?labels _] =>
      change labels with (map (fixup_label (relocated_offset_map ctx)) (a_labels (arm_assembler ctx))) end.
    rewrite Hth. cbn [map reloc_labels mbind outcome_bind]. eexists. split; [reflexivity|].
    rewrite app_nil_r in Hb2. exact Hb2.
Qed.

(** The shape of Thumb items: the loads of literals are aligned. *)
Lemma body_shape vmaddr w body :
  body_item vmaddr w = Some body ->
  lit_in body /\ match i_lit body with Some (k, _) => (k mod 4 = 0)%nat | None => True end.
Proof.
  unfold body_item, t1_item, t2_item, call_item, lit_in. intros E.
  destruct (is_thumb2 w); [destruct (thumb2_class _ _)|destruct (thumb1_class _); try destruct (14 <=? _)];
    try discriminate; apply (inj Some) in E; subst body; cbn [i_bytes i_lit]; try done;
    rewrite a32_length_flat; (split; [cbn [length app t2_lit t2_mem B4 BL4]; lia|done]).
Qed.

Lemma pad_aligned intr (o : nat) : (o mod 2 = 0)%nat -> ((o + 2 * pad_count intr (Z.of_nat o)) mod 4 = 0)%nat.
Proof.
  intros He. apply Nat2Z.inj. rewrite Nat2Z.inj_mod, Nat2Z.inj_add, Nat2Z.inj_mul. change (Z.of_nat 4) with 4. change (Z.of_nat 0) with 0.
  unfold pad_count. destruct (Z.eqb_spec (Z.of_nat o mod 4) 0) as [E|E].
  - by rewrite <- Zplus_mod_idemp_l, E.
  - pose proof (even_mod4 o He E) as E2. destruct intr.
    + replace (Z.of_nat o + Z.of_nat 2 * Z.of_nat 3) with (Z.of_nat o + 2 + 4) by lia. by rewrite <- Zplus_mod_idemp_l, E2.
    + exact E2.
Qed.

Lemma thumb_items_shape fi vm sz src : forall c (o : nat) intr m its,
  (o mod 2 = 0)%nat -> thumb_items fi vm sz c (Z.of_nat o) intr m src = Some its ->
  Forall lit_in its /\ lits_aligned o its /\ (length (all_bytes its) mod 2 = 0)%nat.
Proof.
  induction fi as [|fi IH]; intros c o intr m its He E; cbn [thumb_items] in E; destruct (c <? sz); try discriminate;
    try (apply (inj Some) in E; subst its; by split_and!; [constructor| |]).
  destruct (body_item _ _) as [body|] eqn:Hb; [|done]. cbn [mbind option_bind] in E.
  set (it := padded _ body) in *. rewrite <- Nat2Z.inj_add in E.
  destruct (thumb_items fi _ _ _ _ _ _ _) as [its'|] eqn:E'; [|done]. apply (inj Some) in E. subst its.
  pose proof (padded_even (pad_count intr (Z.of_nat o)) body (body_even _ _ _ Hb)) as Hev. fold it in Hev.
  assert (Ho' : ((o + length (i_bytes it)) mod 2 = 0)%nat) by (rewrite Nat.Div0.add_mod, He, Hev; done).
  apply (IH _ _ _ _ _ Ho') in E' as (I1 & I2 & I3).
  destruct (body_shape _ _ _ Hb) as [B1 B2]. pose proof (pad_aligned intr o He) as Hp.
  rewrite all_bytes_cons. cbn [lits_aligned]. split_and!; [constructor; [|done]| |done|by apply length_even_app].
  - unfold lit_in, it in *. rewrite length_padded. cbn [padded i_lit]. destruct (i_lit body) as [[k v]|]; [|done]. lia.
  - cbn [it padded i_lit]. destruct (i_lit body) as [[k v]|]; [|done].
    by rewrite Nat.add_assoc, Nat.Div0.add_mod, Hp, B2.
Qed.

Lemma thumb_extent_ge fi sz src c : c <= thumb_extent fi sz c src.
Proof.
  revert c. induction fi as [|fi IH]; intros c; cbn [thumb_extent]; destruct (c <? sz); try lia.
  pose proof (body_length_range (word_from src c)). specialize (IH (c + body_length (word_from src c))). lia.
Qed.

Lemma gen_thumb_ok buffer vm sz code branch its :
  buffer mod 2 = 1 -> 0 <= sz -> sz + 4 < 2 ^ 31 -> sz + 4 <= Z.of_nat (length code) ->
  thumb_items (Z.to_nat sz) vm sz 0 0 false ∅ code = Some its ->
  let len := thumb_extent (Z.to_nat sz) sz 0 code in
  let tail := thumb_tail branch (length (all_bytes its)) (vm + len + 1) in
  Forall (fun r => len <= snd r < 2 ^ 32) (all_lits 0 its) ->
  Z.of_nat (length (all_bytes its ++ tail)) + 4 * Z.of_nat (length (all_lits 0 its)) <= cb_limit ->
  exists m, GenRelocateCode buffer vm sz code branch = Ret (len, m) /\
    membuffer_rep m (block_bytes thumb_slot its tail).
Proof.
  intros Hbuf H0 Hlim31 Hlen Hits len tail Hvals Hlim. unfold GenRelocateCode. rewrite Hbuf. cbn [Z.eqb negb].
  set (ctx0 := Build_relo_ctx_t _ _ _ _ _ _ _ _ _ _ _).
  assert (Hinv0 : reloc_inv ThumbExecuteState code sz vm 0 [] [] ctx0).
  { split; try done. split; [|done]. split; [done|apply new_ok|constructor]. }
  assert (Hfits : fits [] (all_bytes its)) by (unfold fits; rewrite length_app in Hlim; simpl; lia).
  destruct (thumb_items_shape _ _ _ _ _ 0 _ _ _ eq_refl Hits) as (S1 & S2 & _).
  destruct (thumb_remain_ok code sz vm (S (Z.to_nat sz)) (Z.to_nat sz) 0 [] [] ctx0 ∅ its Hinv0)
    as (ctx1 & -> & Hinv1); try done; try lia.
  cbn [app length] in Hinv1. fold len in Hinv1. cbn [mbind outcome_bind].
  pose proof Hinv1 as [_ Hz1 Hv1 Hcs1 Hcur1 [Hr1 _] _]. rewrite Hcs1, Hcur1.
  destruct (finish_thumb _ _ _ len _ _ ctx1 branch (thumb_extent_ge _ _ _ 0) Hinv1) as (m & E & Hm); [by apply (all_lits_slots 0)|done|done|].
  exists m. split; [exact E|exact Hm].
Qed.
