(* ===== verification/Arm32Machine.v ===== *)
(** * A32 and T32 reference semantics

    The instructions the ARM32 relocator rewrites and the ones the assemblers emit, after the Arm
    Architecture Reference Manual for ARMv7-A and ARMv8-A AArch32 (chapters F3 to F5):
    encodings, the value of the program counter, interworking branches and what is
    UNPREDICTABLE, which is [None].  Nothing here is taken from the relocator.  Code runs
    outside IT blocks.  Registers are 32-bit values, memory is a function from addresses
    to bytes. *)

From S2P Require Import Prelude Arm64Machine.
#[local] Open Scope Z_scope.

Record state := {
  pc : Z;
  thumb : bool;
  regs : Z -> Z;
  flags : flags_t;
  mem : Z -> Z;
}.

Inductive insn :=
| A_B (cond : Z) (link : bool) (offset : Z)
| A_BLX (offset : Z)
| A_LDR (cond : Z) (byte : bool) (rt rn offset : Z)
| A_ADD (cond rd rn imm : Z)
| A_MOV (cond rd rm : Z)
| T_NOP
| T_LDR_lit (rt offset : Z)
| T_ADR (rd offset : Z)
| T_B (cond offset : Z)
| T_CB (nonzero : bool) (rn offset : Z)
| T_BX (rm : Z)
| T_ADD (rdn rm : Z)
| T_MOV (rd rm : Z)
| T_BL (exchange : bool) (offset : Z)
| T_LDR_imm (rt rn offset : Z)
| A_STR (cond rt rn offset : Z)
| A_LDR_post (cond rt rn offset : Z).

#[export] Instance insn_eq_dec : EqDecision insn.
Proof. solve_decision. Defined.

Definition flag (w i : Z) : bool := fld w i 1 =? 1.
(** [imm] with the sign of an add bit. *)
Definition offset_of (U : bool) (imm : Z) : Z := if U then imm else - imm.
Definition ror32 (v n : Z) : Z := v / 2 ^ n + (v mod 2 ^ n) * 2 ^ (32 - n).
(** [A32ExpandImm]. *)
Definition expand_imm (imm12 : Z) : Z := ror32 (fld imm12 0 8) (2 * fld imm12 8 4).

(** ** Decoding *)

Definition decode_a32 (w : Z) : option insn :=
  let cond := fld w 28 4 in
  if cond =? 15 then
    if fld w 25 3 =? 5 then Some (A_BLX (4 * signed 24 (fld w 0 24) + 2 * fld w 24 1)) else None
  else if fld w 25 3 =? 5 then Some (A_B cond (flag w 24) (4 * signed 24 (fld w 0 24)))
  else if fld w 25 3 =? 2 then
    if flag w 20 && flag w 24 && negb (flag w 21)
    then Some (A_LDR cond (flag w 22) (fld w 12 4) (fld w 16 4) (offset_of (flag w 23) (fld w 0 12)))
    else if flag w 22 || flag w 21 then None
    else if flag w 20 then Some (A_LDR_post cond (fld w 12 4) (fld w 16 4) (offset_of (flag w 23) (fld w 0 12)))
    else if flag w 24 then Some (A_STR cond (fld w 12 4) (fld w 16 4) (offset_of (flag w 23) (fld w 0 12)))
    else None
  else if fld w 20 8 =? 0x28 then Some (A_ADD cond (fld w 12 4) (fld w 16 4) (expand_imm (fld w 0 12)))
  else if fld w 20 8 =? 0x24 then Some (A_ADD cond (fld w 12 4) (fld w 16 4) (- expand_imm (fld w 0 12)))
  else if (fld w 16 12 =? 0x1a0) && (fld w 4 8 =? 0) then Some (A_MOV cond (fld w 12 4) (fld w 0 4))
  else None.

(** The first halfword of a 32-bit instruction. *)
Definition is_wide (h : Z) : bool := 29 <=? fld h 11 5.

Definition decode_t16 (h : Z) : option insn :=
  if h =? 0xbf00 then Some T_NOP
  else if fld h 11 5 =? 9 then Some (T_LDR_lit (fld h 8 3) (4 * fld h 0 8))
  else if fld h 11 5 =? 20 then Some (T_ADR (fld h 8 3) (4 * fld h 0 8))
  else if fld h 12 4 =? 13 then
    if fld h 8 4 <? 14 then Some (T_B (fld h 8 4) (2 * signed 8 (fld h 0 8))) else None
  else if fld h 11 5 =? 28 then Some (T_B 14 (2 * signed 11 (fld h 0 11)))
  else if (fld h 12 4 =? 11) && (fld h 10 1 =? 0) && (fld h 8 1 =? 1) then
    Some (T_CB (flag h 11) (fld h 0 3) (2 * (fld h 3 5 + 32 * fld h 9 1)))
  else if fld h 8 8 =? 0x44 then
    let rdn := fld h 0 3 + 8 * fld h 7 1 in
    if (rdn =? 15) && (fld h 3 4 =? 15) then None else Some (T_ADD rdn (fld h 3 4))
  else if fld h 8 8 =? 0x46 then Some (T_MOV (fld h 0 3 + 8 * fld h 7 1) (fld h 3 4))
  else if (fld h 7 9 =? 0x8e) && (fld h 0 3 =? 0) then Some (T_BX (fld h 3 4))
  else None.

(** The I bits of a 25-bit branch offset. *)
Definition inv_xor (j s : Z) : Z := if j =? s then 1 else 0.
Definition branch25 (h1 h2 : Z) : Z :=
  let S := fld h1 10 1 in
  signed 25 (2 * fld h2 0 11 + 2 ^ 12 * fld h1 0 10 + 2 ^ 22 * inv_xor (fld h2 11 1) S
             + 2 ^ 23 * inv_xor (fld h2 13 1) S + 2 ^ 24 * S).

Definition decode_t32 (h1 h2 : Z) : option insn :=
  if (fld h1 11 5 =? 30) && (fld h2 15 1 =? 1) then
    if (fld h2 14 1 =? 0) && (fld h2 12 1 =? 0) then
      if fld h1 6 4 <? 14 then
        Some (T_B (fld h1 6 4)
                (signed 21 (2 * fld h2 0 11 + 2 ^ 12 * fld h1 0 6 + 2 ^ 18 * fld h2 13 1 + 2 ^ 19 * fld h2 11 1
                            + 2 ^ 20 * fld h1 10 1)))
      else None
    else if fld h2 14 1 =? 0 then Some (T_B 14 (branch25 h1 h2))
    else if fld h2 12 1 =? 1 then Some (T_BL false (branch25 h1 h2))
    else if fld h2 0 1 =? 0 then Some (T_BL true (branch25 h1 h2)) else None
  else if (fld h1 11 5 =? 30) && (fld h1 0 10 =? 0x20f) then
    Some (T_ADR (fld h2 8 4) (fld h2 0 8 + 2 ^ 8 * fld h2 12 3 + 2 ^ 11 * fld h1 10 1))
  else if (fld h1 11 5 =? 30) && (fld h1 0 10 =? 0x2af) then
    Some (T_ADR (fld h2 8 4) (- (fld h2 0 8 + 2 ^ 8 * fld h2 12 3 + 2 ^ 11 * fld h1 10 1)))
  else if (fld h1 8 8 =? 0xf8) && (fld h1 0 7 =? 0x5f) then
    Some (T_LDR_lit (fld h2 12 4) (offset_of (flag h1 7) (fld h2 0 12)))
  else if fld h1 4 12 =? 0xf8d then Some (T_LDR_imm (fld h2 12 4) (fld h1 0 4) (fld h2 0 12))
  else None.

(** ** Execution *)

Definition bytes_at (m : Z -> Z) (a : Z) (n : nat) : list Z := map (fun i => m (u32 (a + Z.of_nat i))) (seq 0 n).
Definition load32 (n : nat) (m : Z -> Z) (a : Z) : Z := le_val (bytes_at m a n).

(** Memory with the word [v] at [a]. *)
Definition store32 (m : Z -> Z) (a v : Z) (x : Z) : Z :=
  if u32 (x - a) <? 4 then nth (Z.to_nat (u32 (x - a))) (le_bytes 4 v) 0 else m x.

Definition pc_value (s : state) : Z := u32 (pc s + if thumb s then 4 else 8).
Definition align4 (a : Z) : Z := a - a mod 4.
Definition get (s : state) (r : Z) : Z := if r =? 15 then pc_value s else regs s r.
Definition set (r v : Z) (s : state) : state :=
  {| pc := pc s; thumb := thumb s; regs := fun r' => if r' =? r then v else regs s r'; flags := flags s; mem := mem s |}.
Definition set_mem (m : Z -> Z) (s : state) : state :=
  {| pc := pc s; thumb := thumb s; regs := regs s; flags := flags s; mem := m |}.
(** Continue at [a] in the given state. *)
Definition goto (a : Z) (t : bool) (s : state) : state :=
  {| pc := u32 a; thumb := t; regs := regs s; flags := flags s; mem := mem s |}.
Definition jump (a : Z) (s : state) : state := goto a (thumb s) s.

(** [BXWritePC]. *)
Definition bx_to (v : Z) (s : state) : option state :=
  if v mod 2 =? 1 then Some (goto (v - 1) true s)
  else if v mod 4 =? 0 then Some (goto v false s) else None.

(** A loaded word goes to [rt]; the instruction is [len] bytes long. *)
Definition load_to (len rt address : Z) (s : state) : option state :=
  let v := load32 4 (mem s) address in
  if rt =? 15 then if address mod 4 =? 0 then bx_to v s else None
  else Some (jump (pc s + len) (set rt v s)).

(** A 32-bit result goes to [rd]. *)
Definition result_to (len rd v : Z) (s : state) : option state :=
  if rd =? 15 then if thumb s then Some (jump (v - v mod 2) s) else bx_to v s
  else Some (jump (pc s + len) (set rd v s)).

Definition conditional (len cond : Z) (f : state -> option state) (s : state) : option state :=
  if cond_holds (flags s) cond then f s else Some (jump (pc s + len) s).

Definition exec (len : Z) (i : insn) (s : state) : option state :=
  match i with
  | A_B cond link offset =>
      conditional len cond
        (fun s => Some (jump (pc s + 8 + offset) (if link then set 14 (u32 (pc s + 4)) s else s))) s
  | A_BLX offset => Some (goto (pc s + 8 + offset) true (set 14 (u32 (pc s + 4)) s))
  | A_LDR cond byte rt rn offset =>
      conditional len cond (fun s =>
        if byte then
          if rt =? 15 then None
          else Some (jump (pc s + len) (set rt (load32 1 (mem s) (get s rn + offset)) s))
        else load_to len rt (u32 (get s rn + offset)) s) s
  | A_ADD cond rd rn imm => conditional len cond (fun s => result_to len rd (u32 (get s rn + imm)) s) s
  | A_MOV cond rd rm => conditional len cond (fun s => result_to len rd (get s rm) s) s
  | T_NOP => Some (jump (pc s + len) s)
  | T_LDR_lit rt offset => load_to len rt (u32 (align4 (pc_value s) + offset)) s
  | T_ADR rd offset =>
      if rd =? 15 then None else Some (jump (pc s + len) (set rd (u32 (align4 (pc_value s) + offset)) s))
  | T_B cond offset => conditional len cond (fun s => Some (jump (pc s + 4 + offset) s)) s
  | T_CB nonzero rn offset =>
      if Bool.eqb nonzero (negb (regs s rn =? 0)) then Some (jump (pc s + 4 + offset) s) else Some (jump (pc s + len) s)
  | T_BX rm => bx_to (get s rm) s
  | T_ADD rdn rm => result_to len rdn (u32 (get s rdn + get s rm)) s
  | T_MOV rd rm => result_to len rd (get s rm) s
  | T_BL exchange offset =>
      let s' := set 14 (u32 (pc s + 4) + 1) s in
      Some (if exchange then goto (align4 (pc s + 4) + offset) false s' else jump (pc s + 4 + offset) s')
  | T_LDR_imm rt rn offset => load_to len rt (u32 (get s rn + offset)) s
  | A_STR cond rt rn offset =>
      conditional len cond (fun s =>
        if rt =? 15 then None
        else Some (jump (pc s + len) (set_mem (store32 (mem s) (u32 (get s rn + offset)) (regs s rt)) s))) s
  | A_LDR_post cond rt rn offset =>
      conditional len cond (fun s =>
        if (rn =? 15) || (rn =? rt) then None
        else load_to len rt (get s rn) (set rn (u32 (get s rn + offset)) s)) s
  end.

(** The instruction in two halfwords or in a word, with its length. *)
Definition decode_thumb (h1 h2 : Z) : option (insn * Z) :=
  if is_wide h1 then i ← decode_t32 h1 h2; Some (i, 4) else i ← decode_t16 h1; Some (i, 2).
Definition fetch (t : bool) (m : Z -> Z) (a : Z) : option (insn * Z) :=
  if t then decode_thumb (load32 2 m a) (load32 2 m (a + 2))
  else i ← decode_a32 (load32 4 m a); Some (i, 4).

Definition step (s : state) : option state :=
  '(i, len) ← fetch (thumb s) (mem s) (pc s); exec len i s.

Fixpoint run (n : nat) (s : state) : option state :=
  match n with
  | O => Some s
  | S n => s ← step s; run n s
  end.

(** [s] about to execute at [a]. *)
Definition at_pc (a : Z) (t : bool) (s : state) : state :=
  {| pc := a; thumb := t; regs := regs s; flags := flags s; mem := mem s |}.

(** ** Facts *)

Lemma arm32_run_app n m s t : run n s = Some t -> run (n + m) s = run m t.
Proof.
  revert s. induction n as [|n IH]; intros s E; cbn [run Nat.add] in *; [congruence|].
  destruct (step s) as [s'|]; [|done]. by apply IH.
Qed.

(** [loaded32 m base l]: the bytes [l] are in memory from [base] on. *)
Record loaded32 (m : Z -> Z) (base : Z) (l : list Z) : Prop := {
  l32_low : 0 <= base;
  l32_high : base + Z.of_nat (length l) < 2 ^ 32;
  l32_byte : forall i, (i < length l)%nat -> m (base + Z.of_nat i) = nth i l 0;
}.

Lemma load32_at m base l off n :
  loaded32 m base l -> (off + n <= length l)%nat ->
  load32 n m (base + Z.of_nat off) = le_val (take n (drop off l)).
Proof.
  intros [Hlo Hhi Hb] Hn. unfold load32, bytes_at. f_equal.
  apply nth_ext with (d := 0) (d' := 0).
  { rewrite length_map, length_seq, length_take, length_drop. lia. }
  intros i Hi. rewrite length_map, length_seq in Hi.
  rewrite nth_indep with (d' := m (u32 (base + Z.of_nat off + Z.of_nat 0))) by (rewrite length_map, length_seq; done).
  rewrite (map_nth (fun i => m (u32 (base + Z.of_nat off + Z.of_nat i)))), seq_nth by done.
  rewrite nth_take, nth_drop by done. rewrite wrap_small by lia.
  rewrite <- Hb by lia. f_equal. lia.
Qed.

(** A part of what is loaded. *)
Lemma loaded32_sub m base l off n l' :
  loaded32 m base l -> (off + n <= length l)%nat -> take n (drop off l) = l' -> loaded32 m (base + Z.of_nat off) l'.
Proof.
  intros [Hlo Hhi Hb] Hn <-. split; [lia|rewrite length_take, length_drop; lia|].
  intros i Hi. rewrite length_take, length_drop in Hi.
  rewrite nth_take, nth_drop by lia. rewrite <- Hb by lia. f_equal. lia.
Qed.

Lemma load32_wrap n m a : load32 n m (u32 a) = load32 n m a.
Proof.
  unfold load32, bytes_at. f_equal. apply map_ext. intros i. by rewrite wrap_add_l.
Qed.

Lemma bytes_at_nth n m a i : (i < n)%nat -> nth i (bytes_at m a n) 0 = m (u32 (a + Z.of_nat i)).
Proof.
  intros Hi. unfold bytes_at. rewrite nth_indep with (d' := m (u32 (a + Z.of_nat 0))) by (rewrite length_map, length_seq; done).
  rewrite (map_nth (fun i => m (u32 (a + Z.of_nat i)))), seq_nth by done. done.
Qed.

(** What was stored is loaded back; other words are not affected. *)
Lemma load_store_same m a v : 0 <= a -> a + 4 <= 2 ^ 32 -> load32 4 (store32 m a v) a = u32 v.
Proof.
  intros H0 H1. unfold load32. replace (bytes_at (store32 m a v) a 4) with (le_bytes 4 v); [by rewrite le_val_bytes|].
  apply nth_ext with (d := 0) (d' := 0); [unfold bytes_at; by rewrite length_le_bytes, length_map, length_seq|].
  intros i Hi. rewrite length_le_bytes in Hi. rewrite bytes_at_nth by done. unfold store32. rewrite (wrap_small 32 (a + _)) by lia.
  replace (a + Z.of_nat i - a) with (Z.of_nat i) by lia. rewrite wrap_small, (proj2 (Z.ltb_lt _ _)), Nat2Z.id by lia. done.
Qed.

Lemma store_other m a v x : 0 <= a -> a + 4 <= 2 ^ 32 -> 0 <= x < 2 ^ 32 -> x < a \/ a + 4 <= x -> store32 m a v x = m x.
Proof.
  intros H0 H1 Hx Hd. unfold store32. replace (u32 (x - a) <? 4) with false; [done|]. symmetry. apply Z.ltb_ge.
  destruct Hd; [|rewrite wrap_small; lia].
  replace (u32 (x - a)) with (x - a + 2 ^ 32); [lia|]. apply Z.mod_unique with (-1); lia.
Qed.

Lemma load_store_other n m a v b :
  0 <= a -> a + 4 <= 2 ^ 32 -> 0 <= b -> b + Z.of_nat n <= 2 ^ 32 -> b + Z.of_nat n <= a \/ a + 4 <= b ->
  load32 n (store32 m a v) b = load32 n m b.
Proof.
  intros H0 H1 Hb Hn Hd. unfold load32, bytes_at. f_equal. apply map_ext_in. intros i Hi. apply in_seq in Hi.
  rewrite wrap_small by lia. apply store_other; lia.
Qed.

Lemma loaded32_store m a v base l :
  loaded32 m base l -> 0 <= a -> a + 4 <= 2 ^ 32 -> base + Z.of_nat (length l) <= a \/ a + 4 <= base -> loaded32 (store32 m a v) base l.
Proof.
  intros [H1 H2 H3] H0 Ha Hd. split; [done|done|]. intros i Hi. rewrite <- H3 by done. apply store_other; lia.
Qed.

(** A state with zero registers whose memory holds the bytes [l] at [base] and zeros elsewhere. *)
Definition boot32 (base : Z) (mode : bool) (l : list Z) : state :=
  {| pc := base; thumb := mode; regs := fun _ => 0; flags := {| N := false; Zf := false; C := false; V := false |};
     mem := fun a => nth (Z.to_nat (a - base)) l 0 |}.

Lemma boot32_loaded base mode l :
  0 <= base -> base + Z.of_nat (length l) < 2 ^ 32 -> loaded32 (mem (boot32 base mode l)) base l.
Proof. intros. split; [done|done|]. intros i Hi. cbn [mem boot32]. f_equal. lia. Qed.
