(* ===== verification/Arm32Simulation.v ===== *)
(** * Relocated ARM32 code runs like the original

    On the machine of Arm32Machine, the sequence of each instruction of Arm32Emission is
    compared with the instruction at its original address. *)

From stdpp Require Import gmap.
From S2P Require Import Prelude UtilityMacro CodeMemBuffer Arm32Assembler Arm32Relocation Arm32Emission Arm32Block Arm64Machine BitFields Arm32Machine.
#[local] Open Scope machine_scope.
#[local] Open Scope Z_scope.

(** ** Emitted instructions *)

Definition lit_load (d r : Z) : list Z :=
  if 0 <? d - 4 then [0xf8df; r * 2 ^ 12 + (d - 4)] else [0xf85f; r * 2 ^ 12 + (4 - d)].

Lemma decode_lit_add r imm :
  0 <= r < 16 -> 0 <= imm < 4096 -> decode_thumb 0xf8df (r * 2 ^ 12 + imm) = Some (T_LDR_lit r imm, 4).
Proof.
  intros Hr Hi. unfold decode_thumb. change (is_wide 0xf8df) with true. cbn iota.
  assert (E : decode_t32 0xf8df (r * 2 ^ 12 + imm)
              = Some (T_LDR_lit (fld (r * 2 ^ 12 + imm) 12 4) (fld (r * 2 ^ 12 + imm) 0 12))) by reflexivity.
  rewrite E, fld_high, fld_low by lia. change (12 - 12) with 0.
  by rewrite !fld_all.
Qed.

Lemma decode_lit_sub r imm :
  0 <= r < 16 -> 0 <= imm < 4096 -> decode_thumb 0xf85f (r * 2 ^ 12 + imm) = Some (T_LDR_lit r (- imm), 4).
Proof.
  intros Hr Hi. unfold decode_thumb. change (is_wide 0xf85f) with true. cbn iota.
  assert (E : decode_t32 0xf85f (r * 2 ^ 12 + imm)
              = Some (T_LDR_lit (fld (r * 2 ^ 12 + imm) 12 4) (- fld (r * 2 ^ 12 + imm) 0 12))) by reflexivity.
  rewrite E, fld_high, fld_low by lia. change (12 - 12) with 0.
  by rewrite !fld_all.
Qed.

Lemma decode_mem r : 0 <= r < 15 -> decode_thumb (0xf8d0 + r) (r * 2 ^ 12) = Some (T_LDR_imm r r 0, 4).
Proof. intros H. each_index r 15%nat ltac:(vm_compute; reflexivity). Qed.

(** [thumb_slot] turns the load of a label into the load at its distance. *)
Lemma slot_lit d r : 0 <= r < 16 -> -4092 < d < 4096 -> thumb_slot d (flat 2 (t2_lit r)) = flat 2 (lit_load d r).
Proof.
  intros Hr Hd. unfold thumb_slot, lit_load.
  assert (E1 : le_val (take 2 (flat 2 (t2_lit r))) = 0xf85f) by reflexivity.
  assert (E2 : le_val (drop 2 (flat 2 (t2_lit r))) = r * 2 ^ 12).
  { each_index r 16%nat ltac:(vm_compute; reflexivity). }
  rewrite E1, E2.
  assert (Hset : forall imm, 0 <= imm < 4096 -> u16 (set_bits (r * 2 ^ 12) 0 11 imm) = r * 2 ^ 12 + imm).
  { intros imm Hi. unfold set_bits. rewrite Z.shiftl_0_r. change (submask (11 - 0)) with (Z.ones 12).
    rewrite Z.shiftl_0_r, Z.land_comm, <- Z.ldiff_land, Z.ldiff_ones_r, Z.shiftr_div_pow2, Z.shiftl_mul_pow2, Z.div_mul by lia.
    rewrite lor_disjoint_add.
    - rewrite (wrap_small 32), wrap_small; lia.
    - rewrite <- Z.shiftl_mul_pow2 by lia. apply Z.bits_inj'. intros i Hi0. rewrite Z.land_spec, Z.testbit_0_l, testbit_shiftl by lia.
      destruct (Z.ltb_spec i 12); [by rewrite Z.testbit_neg_r by lia|]. rewrite (testbit_high 12 imm) by lia. btauto. }
  destruct (Z.ltb_spec 0 (d - 4)); rewrite Hset by lia; unfold flat; cbn [map concat]; rewrite app_nil_r;
    [reflexivity|by replace (- (d - 4)) with (4 - d) by lia].
Qed.

(** ** Halfwords and words in memory *)

Definition halves (m : Z -> Z) (P : Z) (hs : list Z) : Prop :=
  forall j h, hs !! j = Some h -> load32 2 m (P + 2 * Z.of_nat j) = u16 h.
Definition words (m : Z -> Z) (P : Z) (ws : list Z) : Prop :=
  forall j w, ws !! j = Some w -> load32 4 m (P + 4 * Z.of_nat j) = u32 w.

Lemma flat_at n ws j w rest :
  ws !! j = Some w -> take n (drop (n * j) (flat n ws ++ rest)) = le_bytes n w.
Proof.
  intros E. pose proof (lookup_lt_Some _ _ _ E) as Hlt.
  rewrite <- (take_drop_middle ws j w E). rewrite a32_flat_app, <- app_assoc.
  rewrite drop_app_length' by (rewrite a32_length_flat, length_take; lia).
  unfold flat. cbn [map concat]. rewrite <- app_assoc. by rewrite take_app_length' by (by rewrite length_le_bytes).
Qed.

Lemma loaded_flat m P n ws rest j w :
  loaded32 m P (flat n ws ++ rest) -> ws !! j = Some w ->
  load32 n m (P + Z.of_nat n * Z.of_nat j) = w mod 2 ^ (8 * Z.of_nat n).
Proof.
  intros Hl E. pose proof (lookup_lt_Some _ _ _ E) as Hlt. rewrite <- Nat2Z.inj_mul.
  rewrite (load32_at m P _ (n * j) n Hl) by (rewrite length_app, a32_length_flat; nia).
  by rewrite (flat_at _ _ _ _ _ E), le_val_bytes.
Qed.

Lemma loaded_halves m P hs rest : loaded32 m P (flat 2 hs ++ rest) -> halves m P hs.
Proof. intros Hl j h E. exact (loaded_flat m P 2 hs rest j h Hl E). Qed.
Lemma loaded_words m P ws rest : loaded32 m P (flat 4 ws ++ rest) -> words m P ws.
Proof. intros Hl j w E. exact (loaded_flat m P 4 ws rest j w Hl E). Qed.

Lemma halves_app m P hs hs' : halves m P (hs ++ hs') -> halves m P hs /\ halves m (P + 2 * Z.of_nat (length hs)) hs'.
Proof.
  intros H. split; intros j h E.
  - apply H. by apply lookup_app_l_Some.
  - replace (P + 2 * Z.of_nat (length hs) + 2 * Z.of_nat j) with (P + 2 * Z.of_nat (length hs + j)) by lia.
    apply H. rewrite lookup_app_r by lia. by replace (length hs + j - length hs)%nat with j by lia.
Qed.

(** ** Steps *)

Lemma run_S n s s' t : step s = Some s' -> run n s' = Some t -> run (S n) s = Some t.
Proof. intros E H. cbn [run]. by rewrite E. Qed.

Lemma step_thumb s h1 h2 i len :
  thumb s = true -> load32 2 (mem s) (pc s) = h1 -> load32 2 (mem s) (pc s + 2) = h2 ->
  decode_thumb h1 h2 = Some (i, len) -> step s = exec len i s.
Proof. intros Ht E1 E2 Ed. unfold step, fetch. rewrite Ht, E1, E2, Ed. done. Qed.

Lemma step_arm s w i : thumb s = false -> load32 4 (mem s) (pc s) = w -> decode_a32 w = Some i -> step s = exec 4 i s.
Proof. intros Ht E Ed. unfold step, fetch. rewrite Ht, E, Ed. done. Qed.

(** A wide instruction at [P]. *)
Lemma step_wide s h1 h2 i :
  thumb s = true -> halves (mem s) (pc s) [h1; h2] -> u16 h1 = h1 -> u16 h2 = h2 ->
  decode_thumb h1 h2 = Some (i, 4) -> step s = exec 4 i s.
Proof.
  intros Ht Hh E1 E2 Ed. apply (step_thumb s h1 h2); try done.
  - rewrite <- E1. replace (pc s) with (pc s + 2 * Z.of_nat 0) by lia. by apply Hh.
  - rewrite <- E2. apply (Hh 1%nat). done.
Qed.

(** A narrow one. *)
Lemma step_narrow s h i :
  thumb s = true -> halves (mem s) (pc s) [h] -> u16 h = h -> is_wide h = false -> decode_t16 h = Some i ->
  step s = exec 2 i s.
Proof.
  intros Ht Hh E1 Hw Ed. unfold step, fetch, decode_thumb. rewrite Ht.
  replace (load32 2 (mem s) (pc s)) with h.
  - by rewrite Hw, Ed.
  - rewrite <- E1 at 1. replace (pc s) with (pc s + 2 * Z.of_nat 0) by lia. symmetry. by apply Hh.
Qed.

(** Nops only move the program counter. *)
Lemma run_nops n : forall s P,
  thumb s = true -> pc s = P -> halves (mem s) P (replicate n NOP) -> 0 <= P -> P + 2 * Z.of_nat n < 2 ^ 32 ->
  run n s = Some (at_pc (P + 2 * Z.of_nat n) true s).
Proof.
  induction n as [|n IH]; intros s P Ht Hp Hh HP Hlt.
  - destruct s as [p t r f m]. cbn [run at_pc thumb pc regs flags mem] in *. subst. by replace (P + 2 * Z.of_nat 0) with P by lia.
  - cbn [replicate] in Hh. apply (halves_app _ _ [NOP]) in Hh as [H1 H2]. cbn [length] in H2.
    eapply run_S.
    + rewrite (step_narrow s NOP T_NOP) by (done || by rewrite Hp). reflexivity.
    + cbn [exec]. rewrite (IH _ (P + 2)).
      * replace (P + 2 + 2 * Z.of_nat n) with (P + 2 * Z.of_nat (S n)) by lia. reflexivity.
      * done.
      * cbn [jump goto pc]. rewrite Hp, wrap_small; lia.
      * exact H2.
      * lia.
      * lia.
Qed.

(** ** The simulation relation *)

(** Returning to [v] leads to [nextP] without changing anything: the return address of a relocated call. *)
Definition resumes (mode : bool) (v nextP : Z) (m : Z -> Z) : Prop :=
  forall s, mem s = m -> exists k s1 t, bx_to v s = Some s1 /\ run k s1 = Some t /\ pc t = nextP /\ thumb t = mode /\
    (forall r, regs t r = regs s r) /\ flags t = flags s /\ mem t = m.

(** [s1] is the state after the original instruction, which ends at [nextA]; [t] the state after its sequence, which
    ends at [nextP].  [scratch] allows r12 to differ, [link] the return address. *)
Record simulates (mode scratch link : bool) (nextA nextP : Z) (s1 t : state) : Prop := {
  a32_sim_regs : forall r, scratch = false \/ r <> 12 -> link = false \/ r <> 14 -> regs t r = regs s1 r;
  a32_sim_link : link = true ->
    regs t 14 = regs s1 14 \/
    (regs s1 14 = (if mode then u32 nextA + 1 else u32 nextA) /\ resumes mode (regs t 14) nextP (mem s1));
  a32_sim_flags : flags t = flags s1;
  a32_sim_mem : mem t = mem s1;
  a32_sim_pc : (pc t = pc s1 /\ thumb t = thumb s1) \/
    (pc s1 = u32 nextA /\ thumb s1 = mode /\ pc t = nextP /\ thumb t = mode);
}.

(** ** Thumb sequences *)

Section Thumb.
Context (s : state) (P : Z).
Context (HP0 : 0 <= P) (HP4 : P mod 4 = 0) (HP : P + 20 < 2 ^ 32).

(** The literal [dst] at distance [d] from the load at [P]. *)
Definition literal_at (Q d dst : Z) : Prop :=
  0 <= Q + d < 2 ^ 32 /\ (Q + d) mod 4 = 0 /\ -4092 < d < 4096 /\ load32 4 (mem s) (Q + d) = dst.

Lemma aligned_at k : 0 <= k -> k mod 4 = 0 -> k <= 16 -> align4 (u32 (P + k + 4)) = P + k + 4.
Proof.
  intros Hk Hk4 Hk16. rewrite wrap_small by lia. unfold align4.
  replace ((P + k + 4) mod 4) with 0; [lia|].
  rewrite <- Z.add_assoc, Z.add_mod, HP4 by lia. replace ((k + 4) mod 4) with 0; [done|].
  by rewrite Z.add_mod, Hk4 by lia.
Qed.

Lemma lit_load_wf d r : 0 <= r < 16 -> -4092 < d < 4096 ->
  exists h1 h2 off, lit_load d r = [h1; h2] /\ u16 h1 = h1 /\ u16 h2 = h2 /\
    decode_thumb h1 h2 = Some (T_LDR_lit r off, 4) /\ off = d - 4.
Proof.
  intros Hr Hd. unfold lit_load. destruct (Z.ltb_spec 0 (d - 4)).
  - exists 0xf8df, (r * 2 ^ 12 + (d - 4)), (d - 4). split; [done|]. split; [done|].
    split; [apply wrap_small; lia|]. split; [apply decode_lit_add; lia|done].
  - exists 0xf85f, (r * 2 ^ 12 + (4 - d)), (- (4 - d)). split; [done|]. split; [done|].
    split; [apply wrap_small; lia|]. split; [apply decode_lit_sub; lia|lia].
Qed.

Lemma step_lit s0 k d r dst :
  pc s0 = P + k -> thumb s0 = true -> mem s0 = mem s -> 0 <= k <= 16 -> k mod 4 = 0 -> 0 <= r < 16 ->
  halves (mem s) (P + k) (lit_load d r) -> literal_at (P + k) d dst ->
  step s0 = if r =? 15 then bx_to dst s0 else Some (jump (P + k + 4) (set r dst s0)).
Proof.
  intros Hpc Ht Hm Hk Hk4 Hr Hh (Hrng & H4 & Hd & Hl).
  destruct (lit_load_wf d r Hr Hd) as (h1 & h2 & off & Ell & E1 & E2 & Ed & ->). rewrite Ell in Hh.
  rewrite (step_wide s0 h1 h2 _ Ht) by (try done; by rewrite Hm, Hpc).
  cbn [exec]. unfold load_to, pc_value. rewrite Ht, Hpc, Hm, aligned_at by lia.
  replace (P + k + 4 + (d - 4)) with (P + k + d) by lia. rewrite (wrap_small 32 (P + k + d)) by lia. rewrite H4, Hl. done.
Qed.

Lemma step_B s0 k (eight : bool) :
  pc s0 = P + k -> thumb s0 = true -> mem s0 = mem s -> 0 <= k <= 8 ->
  halves (mem s) (P + k) (if eight then B8 else B4) ->
  step s0 = Some (at_pc (P + k + (if eight then 12 else 8)) true s0).
Proof.
  intros Hpc Ht Hm Hk Hh.
  assert (E : step s0 = exec 4 (T_B 14 (if eight then 8 else 4)) s0).
  { destruct eight; [apply (step_wide s0 0xf000 0xb804)|apply (step_wide s0 0xf000 0xb802)]; try done; by rewrite Hm, Hpc. }
  rewrite E. cbn [exec]. unfold conditional, jump, goto, at_pc. change (cond_holds (flags s0) 14) with true. cbn iota.
  rewrite Hpc, Ht. do 2 f_equal. destruct eight; rewrite wrap_small; lia.
Qed.

Lemma step_BL s0 :
  pc s0 = P -> thumb s0 = true -> mem s0 = mem s -> halves (mem s) P BL4 ->
  step s0 = Some (at_pc (P + 8) true (set 14 (P + 4 + 1) s0)).
Proof.
  intros Hpc Ht Hm Hh.
  rewrite (step_wide s0 0xf000 0xf802 (T_BL false 4)) by (try done; by rewrite Hm, Hpc).
  cbn [exec]. unfold jump, goto, at_pc. cbn [thumb set pc flags regs mem]. rewrite Hpc, Ht.
  rewrite (wrap_small 32 (P + 4)), wrap_small by lia. do 2 f_equal. lia.
Qed.

Lemma step_mem s0 r :
  pc s0 = P + 4 -> thumb s0 = true -> mem s0 = mem s -> 0 <= r < 15 -> halves (mem s) (P + 4) (t2_mem r r) ->
  step s0 = Some (jump (P + 8) (set r (load32 4 (mem s) (regs s0 r)) s0)).
Proof.
  intros Hpc Ht Hm Hr Hh.
  rewrite (step_wide s0 (0xf8d0 + r) (r * 2 ^ 12) (T_LDR_imm r r 0)).
  - cbn [exec]. unfold load_to, get. destruct (Z.eqb_spec r 15); [lia|]. rewrite Z.add_0_r, load32_wrap, Hm, Hpc.
    do 2 f_equal. lia.
  - done.
  - by rewrite Hm, Hpc.
  - apply wrap_small. lia.
  - apply wrap_small. lia.
  - by apply decode_mem.
Qed.

(** Start of a sequence. *)
Let s0 := at_pc P true s.

Lemma bx_to_regs v s' s1 : bx_to v s' = Some s1 -> regs s1 = regs s' /\ flags s1 = flags s' /\ mem s1 = mem s'.
Proof. unfold bx_to. destruct (_ =? 1); [intros [= <-]; done|]. destruct (_ =? 0); [intros [= <-]; done|done]. Qed.

Lemma bx_to_same v s' s'' s1 :
  bx_to v s' = Some s1 -> exists t, bx_to v s'' = Some t /\ pc t = pc s1 /\ thumb t = thumb s1.
Proof.
  unfold bx_to. destruct (_ =? 1); [intros [= <-]; eexists; split; [reflexivity|done]|].
  destruct (_ =? 0); [intros [= <-]; eexists; split; [reflexivity|done]|done].
Qed.

Lemma bx_to_odd x s' : 0 <= x < 2 ^ 32 -> x mod 2 = 0 -> bx_to (x .| 1) s' = Some (goto x true s').
Proof.
  intros Hx He. unfold bx_to.
  assert (E : x .| 1 = x + 1).
  { apply lor_disjoint_add. change 1 with (Z.ones 1). by rewrite Z.land_ones. }
  rewrite E. replace ((x + 1) mod 2) with 1 by (by rewrite <- Zplus_mod_idemp_l, He). cbn [Z.eqb].
  by replace (x + 1 - 1) with x by lia.
Qed.
End Thumb.

(** [sim mode scratch link A len ins P nextP s]: the sequence at [P] does what [ins] does at [A]. *)
Definition sim (mode scratch link : bool) (A len : Z) (ins : insn) (P nextP : Z) (s : state) : Prop :=
  forall s1, exec len ins (at_pc A mode s) = Some s1 ->
  exists k t, run k (at_pc P mode s) = Some t /\ simulates mode scratch link (A + len) nextP s1 t.

Lemma sim_weaken mode scratch link A len ins P nextP s :
  sim mode false false A len ins P nextP s -> sim mode scratch link A len ins P nextP s.
Proof.
  intros H s1 E. destruct (H s1 E) as (k & t & Hr & [H1 H2 H3 H4 H5]). exists k, t. split; [done|].
  assert (Hregs : forall r, regs t r = regs s1 r) by (intros r; apply H1; by left).
  split; try done. intros _. left. apply Hregs.
Qed.

Section ThumbSim.
Context (s : state) (P A : Z).
Context (HP0 : 0 <= P) (HP4 : P mod 4 = 0) (HP : P + 20 < 2 ^ 32).
Context (HA : 0 <= A < 2 ^ 32) (HA2 : A mod 2 = 0).

(** A jump through the literal [dst], from offset [k] of the sequence. *)
Lemma run_jump s0 k d dst s1 :
  pc s0 = P + k -> thumb s0 = true -> mem s0 = mem s -> 0 <= k <= 16 -> k mod 4 = 0 ->
  halves (mem s) (P + k) (lit_load d 15) -> literal_at s (P + k) d dst -> bx_to dst s0 = Some s1 -> run 1 s0 = Some s1.
Proof.
  intros Hpc Ht Hm Hk Hk4 Hh Hl Hb. cbn [run].
  rewrite (step_lit s P HP0 HP4 HP s0 k d 15 dst) by (done || lia). cbn [Z.eqb]. simpl (15 =? 15). cbn iota. by rewrite Hb.
Qed.

(** An instruction that only jumps, to where [bx_to dst] goes. *)
Lemma sim_jump len ins d dst nextP :
  (forall s1, exec len ins (at_pc A true s) = Some s1 ->
     regs s1 = regs s /\ flags s1 = flags s /\ mem s1 = mem s /\
     exists t, bx_to dst (at_pc P true s) = Some t /\ pc t = pc s1 /\ thumb t = thumb s1) ->
  halves (mem s) P (lit_load d 15) -> literal_at s P d dst ->
  sim true false false A len ins P nextP s.
Proof.
  intros Hins Hh Hl s1 E. destruct (Hins s1 E) as (Hr & Hf & Hm & t & Hb & Hpc & Ht).
  destruct (bx_to_regs _ _ _ Hb) as (Br & Bf & Bm).
  exists 1%nat, t. split.
  - apply (run_jump _ 0 d dst); try done; try lia; try (cbn [pc at_pc]; lia); by rewrite Z.add_0_r.
  - split; [intros r _ _; by rewrite Br, Hr|done|by rewrite Bf, Hf|by rewrite Bm, Hm|by left].
Qed.

Lemma even_add x y : x mod 2 = 0 -> y mod 2 = 0 -> (x + y) mod 2 = 0.
Proof. intros Hx Hy. by rewrite Z.add_mod, Hx, Hy by lia. Qed.

Lemma u32_even x : x mod 2 = 0 -> u32 x mod 2 = 0.
Proof.
  intros H. unfold wrap. change (2 ^ 32) with (2 * 2 ^ 31). rewrite Z.rem_mul_r by lia.
  rewrite H, Z.add_0_l, Z.mul_comm. apply Z_mod_mult.
Qed.

Lemma u32_mod4 x : u32 x mod 4 = x mod 4.
Proof.
  unfold wrap. change (2 ^ 32) with (4 * 2 ^ 30). rewrite Z.rem_mul_r by lia.
  by rewrite (Z.mul_comm 4), Z_mod_plus_full, Zmod_mod.
Qed.

Lemma align4_u32 x : x mod 4 = 0 -> align4 (u32 x) = u32 x.
Proof. intros H. unfold align4. rewrite u32_mod4, H. lia. Qed.

(** Unconditional branches. *)
Lemma thumb_sim_b len off d dst nextP :
  off mod 2 = 0 -> dst = u32 (A + 4 + off) + 1 ->
  halves (mem s) P (lit_load d 15) -> literal_at s P d dst ->
  sim true false false A len (T_B 14 off) P nextP s.
Proof.
  intros Hoff -> Hh Hl. eapply sim_jump; [|done|done]. intros s1 E. cbn [exec] in E. unfold conditional in E.
  change (cond_holds _ 14) with true in E. cbn iota in E. injection E as <-. split_and!; try done.
  pose proof (u32_even (A + 4 + off) ltac:(by repeat apply even_add)) as He.
  eexists. split.
  - unfold bx_to. rewrite <- Zplus_mod_idemp_l, He. simpl ((0 + 1) mod 2 =? 1). cbn iota. reflexivity.
  - cbn [goto pc thumb jump at_pc]. replace (u32 (A + 4 + off) + 1 - 1) with (u32 (A + 4 + off)) by lia. by rewrite wrap_wrap.
Qed.

(** [bx pc]. *)
Lemma sim_bx_pc len d dst nextP :
  dst = u32 (A + 4) -> halves (mem s) P (lit_load d 15) -> literal_at s P d dst ->
  sim true false false A len (T_BX 15) P nextP s.
Proof.
  intros -> Hh Hl. eapply sim_jump; [|done|done]. intros s1 E. cbn [exec] in E. unfold get in E. simpl (15 =? 15) in E. cbn iota in E.
  unfold pc_value in E. cbn [pc at_pc thumb] in E. destruct (bx_to_regs _ _ _ E) as (Er & Ef & Em). split_and!; try done.
  exact (bx_to_same _ _ _ _ E).
Qed.

(** Loading a computed address into a register. *)
Lemma run_set_lit s0 d r dst :
  s0 = at_pc P true s -> 0 <= r < 15 -> halves (mem s) P (lit_load d r) -> literal_at s P d dst ->
  step s0 = Some (jump (P + 4) (set r dst s0)).
Proof.
  intros -> Hr Hh Hl. rewrite (step_lit s P HP0 HP4 HP _ 0 d r dst) by (try done; try lia; try (cbn [pc at_pc]; lia); by rewrite Z.add_0_r).
  destruct (Z.eqb_spec r 15); [lia|]. by rewrite Z.add_0_r.
Qed.

Lemma thumb_sim_adr len off d r dst :
  A mod 4 = 0 -> dst = u32 (A + 4 + off) -> 0 <= r < 15 ->
  halves (mem s) P (lit_load d r) -> literal_at s P d dst ->
  sim true false false A len (T_ADR r off) P (P + 4) s.
Proof.
  intros HA4 -> Hr Hh Hl s1 E. cbn [exec] in E. destruct (Z.eqb_spec r 15); [lia|]. injection E as <-.
  eexists 1%nat, _. split; [cbn [run]; rewrite (run_set_lit _ d r _ eq_refl Hr Hh Hl); reflexivity|].
  assert (Ea : u32 (align4 (pc_value (at_pc A true s)) + off) = u32 (A + 4 + off)).
  { unfold pc_value. cbn [pc at_pc thumb]. rewrite align4_u32 by (by rewrite Z.add_mod, HA4 by lia). by rewrite wrap_add_l. }
  split; try done.
  - intros q _ _. cbn [regs jump goto set at_pc]. destruct (q =? r); [by rewrite Ea|done].
  - right. cbn [pc thumb jump goto at_pc set]. rewrite (wrap_small 32 (P + 4)) by lia. done.
Qed.

(** Two loads: the address, then the word. *)
Lemma run_two_loads d r dst :
  0 <= r < 15 -> halves (mem s) P (lit_load d r ++ t2_mem r r) -> literal_at s P d dst ->
  exists t, run 2 (at_pc P true s) = Some t /\ pc t = P + 8 /\ thumb t = true /\ flags t = flags s /\ mem t = mem s /\
    forall q, regs t q = if q =? r then load32 4 (mem s) dst else regs s q.
Proof.
  intros Hr Hh Hl. apply halves_app in Hh as [Hh1 Hh2].
  replace (P + 2 * Z.of_nat (length (lit_load d r))) with (P + 4) in Hh2 by (unfold lit_load; destruct (0 <? d - 4); simpl; lia).
  eexists. split.
  - eapply run_S; [exact (run_set_lit _ d r _ eq_refl Hr Hh1 Hl)|]. eapply run_S; [|reflexivity].
    apply (step_mem s P _ r); try done. cbn [pc jump goto]. rewrite wrap_small; lia.
  - cbn [pc thumb flags mem regs jump goto set at_pc]. rewrite Z.eqb_refl. split_and!; try done; [rewrite wrap_small; lia|].
    intros q. by destruct (q =? r).
Qed.

Lemma sim_ldr_lit len off r dst nextP k t :
  0 <= r < 15 -> dst = u32 (align4 (u32 (A + 4)) + off) ->
  run k (at_pc P true s) = Some t -> pc t = nextP -> thumb t = true -> flags t = flags s -> mem t = mem s ->
  (forall q, regs t q = if q =? r then load32 4 (mem s) dst else regs s q) ->
  sim true false false A len (T_LDR_lit r off) P nextP s.
Proof.
  intros Hr -> Hrun Hpc Ht Hf Hm Hregs s1 E. cbn [exec] in E. unfold load_to in E. destruct (Z.eqb_spec r 15); [lia|].
  injection E as <-. exists k, t. split; [done|]. split; [|done|done|done|by right].
  intros q _ _. by rewrite Hregs.
Qed.

(** [cbz] and [cbnz]: the inverse is not taken, the branch skips. *)
Lemma sim_cb h nz rn off d dst :
  u16 h = h -> is_wide h = false -> decode_t16 h = Some (T_CB nz rn 4) -> off mod 2 = 0 -> dst = u32 (A + 4 + off) + 1 ->
  halves (mem s) P ([h; NOP] ++ B4 ++ lit_load d 15) -> literal_at s (P + 8) d dst ->
  sim true false false A 2 (T_CB nz rn off) P (P + 12) s.
Proof.
  intros Hu Hw Hdec Hoff -> Hh Hl s1 E. apply (halves_app _ _ [h]) in Hh as [H1 Hh]. cbn [length] in Hh.
  apply (halves_app _ _ [NOP]) in Hh as [H2 Hh]. cbn [length] in Hh. apply (halves_app _ _ B4) in Hh as [H3 H4].
  replace (P + 2 * Z.of_nat 1 + 2 * Z.of_nat 1) with (P + 4) in H3, H4 by lia.
  change (2 * Z.of_nat (length B4)) with 4 in H4. replace (P + 4 + 4) with (P + 8) in H4 by lia.
  change (2 * Z.of_nat 1) with 2 in H2.
  assert (Es : step (at_pc P true s) = exec 2 (T_CB nz rn 4) (at_pc P true s)) by (by apply (step_narrow _ h)).
  cbn [exec] in E, Es. change (regs (at_pc A true s)) with (regs s) in E. change (regs (at_pc P true s)) with (regs s) in Es.
  destruct (Bool.eqb nz (negb (regs s rn =? 0))); injection E as <-.
  - pose proof (u32_even (A + 4 + off) ltac:(by repeat apply even_add)) as He.
    eexists 2%nat, _. split.
    + eapply run_S; [exact Es|]. eapply run_jump with (k := 8); try done; try lia.
      * cbn [pc jump goto at_pc]. rewrite wrap_small; lia.
      * unfold bx_to. rewrite <- Zplus_mod_idemp_l, He. simpl ((0 + 1) mod 2 =? 1). cbn iota. reflexivity.
    + split; try done. left. cbn [pc thumb jump goto at_pc].
      replace (u32 (A + 4 + off) + 1 - 1) with (u32 (A + 4 + off)) by lia. by rewrite wrap_wrap.
  - eexists 3%nat, _. split.
    + eapply run_S; [exact Es|]. eapply run_S.
      { rewrite (step_narrow _ NOP T_NOP); try done. cbn [pc jump goto at_pc mem]. rewrite wrap_small by lia. exact H2. }
      eapply run_S; [|reflexivity]. apply (step_B s P HP0 HP _ 4 false); try done; try lia.
      cbn [exec pc jump goto at_pc]. rewrite (wrap_small 32 (P + 2)), wrap_small; lia.
    + split; try done. right. cbn [pc thumb jump goto at_pc]. split_and!; try done. lia.
Qed.

(** [add rdn, pc] and [mov rd, pc], through r12. *)
Lemma run_scratch h i d dst :
  u16 h = h -> is_wide h = false -> decode_t16 h = Some i ->
  halves (mem s) P (lit_load d 12 ++ [h]) -> literal_at s P d dst ->
  forall t, exec 2 i (at_pc (P + 4) true (set 12 dst s)) = Some t -> run 2 (at_pc P true s) = Some t.
Proof.
  intros Hu Hw Hdec Hh Hl t Ht. apply halves_app in Hh as [Hh1 Hh2].
  replace (P + 2 * Z.of_nat (length (lit_load d 12))) with (P + 4) in Hh2 by (unfold lit_load; destruct (0 <? d - 4); simpl; lia).
  eapply run_S; [exact (run_set_lit _ d 12 _ eq_refl ltac:(lia) Hh1 Hl)|]. eapply run_S; [|reflexivity].
  assert (Ea : jump (P + 4) (set 12 dst (at_pc P true s)) = at_pc (P + 4) true (set 12 dst s)).
  { unfold jump, goto, at_pc. cbn [thumb set regs flags mem]. by rewrite wrap_small by lia. }
  rewrite Ea, (step_narrow _ h i); done.
Qed.

Lemma sim_add_pc h rdn d dst :
  u16 h = h -> is_wide h = false -> decode_t16 h = Some (T_ADD rdn 12) -> rdn <> 12 -> rdn <> 15 -> dst = u32 (A + 4) ->
  halves (mem s) P (lit_load d 12 ++ [h]) -> literal_at s P d dst ->
  sim true true false A 2 (T_ADD rdn 15) P (P + 6) s.
Proof.
  intros Hu Hw Hdec H12 H15 -> Hh Hl s1 E. cbn [exec] in E. unfold result_to, get in E. simpl (15 =? 15) in E. cbn iota in E.
  destruct (Z.eqb_spec rdn 15); [done|]. injection E as <-.
  eexists 2%nat, _. split.
  - apply (run_scratch h _ d _ Hu Hw Hdec Hh Hl). cbn [exec]. unfold result_to, get. rewrite (proj2 (Z.eqb_neq rdn 15) H15).
    change (12 =? 15) with false. cbn iota. reflexivity.
  - split; try done.
    + intros q [|Hq] _; [done|]. cbn [regs jump goto set at_pc]. destruct (Z.eqb_spec q rdn).
      * destruct (Z.eqb_spec rdn 12); [done|]. rewrite Z.eqb_refl. done.
      * by destruct (Z.eqb_spec q 12).
    + right. cbn [pc thumb jump goto set at_pc]. rewrite (wrap_small 32 (P + 4 + 2)) by lia. split_and!; try done. lia.
Qed.

Lemma sim_mov_pc h rd d dst :
  u16 h = h -> is_wide h = false -> decode_t16 h = Some (T_MOV rd 12) -> dst = u32 (A + 4) ->
  halves (mem s) P (lit_load d 12 ++ [h]) -> literal_at s P d dst ->
  sim true true false A 2 (T_MOV rd 15) P (P + 6) s.
Proof.
  intros Hu Hw Hdec -> Hh Hl s1 E. cbn [exec] in E. unfold result_to, get in E. simpl (15 =? 15) in E. cbn iota in E.
  pose proof (run_scratch h _ d _ Hu Hw Hdec Hh Hl) as Hrun. cbn [exec] in Hrun.
  unfold result_to, get in Hrun. change (12 =? 15) with false in Hrun. cbn iota in Hrun.
  destruct (Z.eqb_spec rd 15) as [->|Hne]; injection E as <-; eexists 2%nat, _; (split; [apply Hrun; reflexivity|]).
  - split; try done.
    + intros q [|Hq] _; [done|]. cbn [regs jump goto set at_pc]. by destruct (Z.eqb_spec q 12).
    + by left.
  - split; try done.
    + intros q [|Hq] _; [done|]. cbn [regs jump goto set at_pc]. rewrite Z.eqb_refl.
      destruct (Z.eqb_spec q rd); [done|]. by destruct (Z.eqb_spec q 12).
    + right. cbn [pc thumb jump goto set at_pc]. rewrite (wrap_small 32 (P + 4 + 2)) by lia. split_and!; try done. lia.
Qed.

(** Calls.  The callee returns to the branch at [P + 4], which leads behind the literal. *)
Lemma call_resumes : halves (mem s) (P + 4) B8 -> resumes true (P + 4 + 1) (P + 16) (mem s).
Proof.
  intros Hh s' Hm. exists 1%nat. eexists _, _. split.
  - unfold bx_to. replace ((P + 4 + 1) mod 2) with 1; [reflexivity|].
    pose proof (Z.div_mod P 4 ltac:(lia)) as E. rewrite HP4 in E.
    apply Z.mod_unique with (2 * (P / 4) + 2); lia.
  - split.
    + eapply run_S; [|reflexivity]. apply (step_B s P HP0 HP _ 4 true); try done; try lia.
      cbn [pc goto]. rewrite wrap_small; lia.
    + cbn [pc thumb regs flags mem at_pc goto]. split_and!; try done. lia.
Qed.

Lemma sim_bl exchange off dst :
  off mod 2 = 0 ->
  (exists t, bx_to dst (at_pc P true s) = Some t /\ thumb t = negb exchange /\
     pc t = u32 ((if exchange then align4 (A + 4) else A + 4) + off)) ->
  halves (mem s) P (BL4 ++ B8 ++ lit_load 4 15) -> load32 4 (mem s) (P + 12) = dst ->
  sim true false true A 4 (T_BL exchange off) P (P + 16) s.
Proof.
  intros Hoff (t0 & Hb & Hbt & Hbp) Hh Hl s1 E. apply (halves_app _ _ BL4) in Hh as [H1 Hh].
  apply (halves_app _ _ B8) in Hh as [H2 H3]. change (2 * Z.of_nat (length BL4)) with 4 in H2, H3.
  change (2 * Z.of_nat (length B8)) with 4 in H3. replace (P + 4 + 4) with (P + 8) in H3 by lia.
  set (s2 := at_pc (P + 8) true (set 14 (P + 4 + 1) (at_pc P true s))).
  destruct (bx_to_same _ _ s2 _ Hb) as (t & Ht & Htp & Htt). destruct (bx_to_regs _ _ _ Ht) as (Br & Bf & Bm).
  assert (Hl' : literal_at s (P + 8) 4 dst).
  { unfold literal_at. replace (P + 8 + 4) with (P + 12) by lia. split_and!; try done; try lia.
    by rewrite Z.add_mod, HP4 by lia. }
  exists 2%nat, t. split.
  - eapply run_S; [by apply (step_BL s P HP0 HP)|]. by apply (run_jump s2 8 4 dst).
  - cbn [exec] in E. change (pc (at_pc A true s)) with A in E.
    assert (Hs1 : regs s1 = regs (set 14 (u32 (A + 4) + 1) (at_pc A true s)) /\ flags s1 = flags s /\ mem s1 = mem s /\
              thumb s1 = negb exchange /\ pc s1 = u32 ((if exchange then align4 (A + 4) else A + 4) + off)).
    { destruct exchange; injection E as <-; done. }
    destruct Hs1 as (Sr & Sf & Sm & St & Sp). split.
    + intros q _ [|Hq]; [done|]. rewrite Br, Sr. cbn [regs s2 set at_pc]. by destruct (Z.eqb_spec q 14).
    + intros _. right. rewrite Br, Sr, Sm. cbn [regs s2 set at_pc]. simpl (14 =? 14). cbn iota. split; [done|].
      by apply call_resumes.
    + by rewrite Bf, Sf.
    + by rewrite Bm, Sm.
    + left. split; congruence.
Qed.

(** [ldr.w]: the two loads, then a branch over the literal. *)
Lemma run_ldr_w r dst :
  0 <= r < 15 -> halves (mem s) P (lit_load 12 r ++ t2_mem r r ++ B4) -> load32 4 (mem s) (P + 12) = dst ->
  exists t, run 3 (at_pc P true s) = Some t /\ pc t = P + 16 /\ thumb t = true /\ flags t = flags s /\ mem t = mem s /\
    forall q, regs t q = if q =? r then load32 4 (mem s) dst else regs s q.
Proof.
  intros Hr Hh Hl. rewrite app_assoc in Hh. apply halves_app in Hh as [Hh1 Hh2].
  rewrite length_app in Hh2. change (length (lit_load 12 r) + length (t2_mem r r))%nat with 4%nat in Hh2.
  change (2 * Z.of_nat 4) with 8 in Hh2.
  assert (Hl' : literal_at s P 12 dst).
  { unfold literal_at. split_and!; try done; try lia. by rewrite Z.add_mod, HP4 by lia. }
  destruct (run_two_loads 12 r dst Hr Hh1 Hl') as (t & Hrun & Hpc & Ht & Hf & Hm & Hregs).
  eexists. split.
  - change 3%nat with (2 + 1)%nat. rewrite (arm32_run_app 2 1 _ _ Hrun). eapply run_S; [|reflexivity].
    apply (step_B s P HP0 HP _ 8 false); try done; lia.
  - cbn [pc thumb flags mem regs at_pc]. split_and!; try done. lia.
Qed.
End ThumbSim.

(** ** What the relocator takes an encoding for *)

(** The class, the operands and the rewritten halfword of a 16-bit instruction, against its decoding. *)
Definition t16_agrees (h : Z) : bool :=
  match decode_t16 h with
  | Some (T_LDR_lit r off) =>
      bool_decide (thumb1_class h = T1_ldr_literal /\ r = bits h 8 10 /\ off = bits h 0 7 << 2)
  | Some (T_ADR r off) => bool_decide (thumb1_class h = T1_adr /\ r = bits h 8 10 /\ off = bits h 0 7 << 2)
  | Some (T_B cond off) =>
      if cond =? 14 then bool_decide (thumb1_class h = T1_b /\ off = sext 12 (bits h 0 10 << 1) /\ off mod 2 = 0) else true
  | Some (T_CB nz rn off) =>
      let h' := u16 (set_bit (set_bits16 h 3 7 2) 9 0) in
      bool_decide (thumb1_class h = T1_cbz /\ off = (bit h 9 << 6) .| (bits h 3 7 << 1) /\ off mod 2 = 0 /\
                   decode_t16 h' = Some (T_CB nz rn 4) /\ is_wide h' = false)
  | Some (T_BX rm) => implb (rm =? 15) (bool_decide (thumb1_class h = T1_bx_pc))
  | Some (T_ADD rdn rm) =>
      if rm =? 15 then
        bool_decide (thumb1_class h = T1_hireg /\ decode_t16 (set_bits16 h 3 6 12) = Some (T_ADD rdn 12) /\
                     is_wide (set_bits16 h 3 6 12) = false /\ rdn <> 15)
      else true
  | Some (T_MOV rd rm) =>
      if rm =? 15 then
        bool_decide (thumb1_class h = T1_hireg /\ decode_t16 (set_bits16 h 3 6 12) = Some (T_MOV rd 12) /\
                     is_wide (set_bits16 h 3 6 12) = false)
      else true
  | Some (T_BL _ _) => false
  | _ => true
  end.

(** It is enough to look at the encodings with a rewritten instruction. *)
Definition t16_ranges : list (Z * nat) :=
  [(0x4478, 8%nat); (0x44f8, 8%nat); (0x4678, 8%nat); (0x46f8, 8%nat); (0x4778, 1%nat);
   (0x4800, 2048%nat); (0xa000, 2048%nat); (0xb100, 256%nat); (0xb300, 256%nat); (0xb900, 256%nat); (0xbb00, 256%nat);
   (0xe000, 2048%nat)].
Lemma t16_ranges_ok : forallb (fun r => forallb t16_agrees (Zrange (fst r) (snd r))) t16_ranges = true.
Proof. vm_compute. reflexivity. Qed.

Lemma t16_in_range lo n h : In (lo, n) t16_ranges -> lo <= h < lo + Z.of_nat n -> t16_agrees h = true.
Proof.
  intros Hin Hh. pose proof t16_ranges_ok as H. rewrite forallb_forall in H. specialize (H _ Hin). cbn [fst snd] in H.
  exact (forallb_Zrange _ _ _ H h Hh).
Qed.

Ltac t16_range lo n := apply (t16_in_range lo n); [unfold t16_ranges; cbn [In]; tauto|].

Lemma t16_all h : 0 <= h < 65536 -> t16_agrees h = true.
Proof.
  intros Hh.
  destruct (Z.eqb_spec (fld h 11 5) 9) as [E1|E1]; [t16_range 0x4800 2048%nat; revert E1; field_arith|].
  destruct (Z.eqb_spec (fld h 11 5) 20) as [E2|E2]; [t16_range 0xa000 2048%nat; revert E2; field_arith|].
  destruct (Z.eqb_spec (fld h 11 5) 28) as [E3|E3]; [t16_range 0xe000 2048%nat; revert E3; field_arith|].
  destruct ((fld h 12 4 =? 11) && (fld h 10 1 =? 0) && (fld h 8 1 =? 1)) eqn:E4.
  { rewrite !andb_true_iff, !Z.eqb_eq in E4. destruct E4 as ((X1 & X2) & X3).
    assert (Hr : 0xb100 <= h < 0xb200 \/ 0xb300 <= h < 0xb400 \/ 0xb900 <= h < 0xba00 \/ 0xbb00 <= h < 0xbc00)
      by (revert X1 X2 X3; field_arith).
    destruct Hr as [|[|[|]]]; [t16_range 0xb100 256%nat|t16_range 0xb300 256%nat|t16_range 0xb900 256%nat|t16_range 0xbb00 256%nat]; lia. }
  assert (Hpc : fld h 3 4 = 15 -> fld h 8 8 = 0x44 \/ fld h 8 8 = 0x46 -> t16_agrees h = true).
  { intros X1 X2.
    assert (Hr : 0x4478 <= h < 0x4480 \/ 0x44f8 <= h < 0x4500 \/ 0x4678 <= h < 0x4680 \/ 0x46f8 <= h < 0x4700)
      by (revert X1 X2; field_arith).
    destruct Hr as [|[|[|]]]; [t16_range 0x4478 8%nat|t16_range 0x44f8 8%nat|t16_range 0x4678 8%nat|t16_range 0x46f8 8%nat]; lia. }
  destruct (Z.eqb_spec (fld h 3 4) 15) as [E5|E5].
  - destruct (Z.eqb_spec (fld h 8 8) 0x44) as [E6|E6]; [apply Hpc; by auto|].
    destruct (Z.eqb_spec (fld h 8 8) 0x46) as [E7|E7]; [apply Hpc; by auto|].
    destruct ((fld h 7 9 =? 0x8e) && (fld h 0 3 =? 0)) eqn:E8.
    { rewrite andb_true_iff, !Z.eqb_eq in E8. destruct E8 as [X1 X2].
      t16_range 0x4778 1%nat. revert E5 X1 X2. field_arith. }
    unfold t16_agrees, decode_t16. rewrite (proj2 (Z.eqb_neq _ _) E1), (proj2 (Z.eqb_neq _ _) E2), (proj2 (Z.eqb_neq _ _) E3),
      (proj2 (Z.eqb_neq _ _) E6), (proj2 (Z.eqb_neq _ _) E7), E4, E8.
    destruct (h =? 0xbf00); [done|]. destruct (fld h 12 4 =? 13); [|done].
    destruct (Z.ltb_spec (fld h 8 4) 14); [|done]. by destruct (Z.eqb_spec (fld h 8 4) 14); [lia|].
  - unfold t16_agrees, decode_t16. rewrite (proj2 (Z.eqb_neq _ _) E1), (proj2 (Z.eqb_neq _ _) E2), (proj2 (Z.eqb_neq _ _) E3),
      (proj2 (Z.eqb_neq _ _) E5), E4, andb_false_r.
    destruct (h =? 0xbf00); [done|]. destruct (fld h 12 4 =? 13).
    { destruct (Z.ltb_spec (fld h 8 4) 14); [|done]. by destruct (Z.eqb_spec (fld h 8 4) 14); [lia|]. }
    destruct (fld h 8 8 =? 0x44); [by rewrite (proj2 (Z.eqb_neq _ _) E5)|].
    destruct (fld h 8 8 =? 0x46); [by rewrite (proj2 (Z.eqb_neq _ _) E5)|].
    destruct ((fld h 7 9 =? 0x8e) && (fld h 0 3 =? 0)); [by rewrite (proj2 (Z.eqb_neq _ _) E5)|done].
Qed.

(** ** 32-bit Thumb instructions *)

Lemma fld1_cases w i : fld w i 1 = 0 \/ fld w i 1 = 1.
Proof. pose proof (fld_range w i 1 ltac:(lia)). change (2 ^ 1) with 2 in *. lia. Qed.

(** The three bits the relocator calls [op3]. *)
Lemma op3_bits h : bits h 12 14 = fld h 12 1 + 2 * fld h 13 1 + 4 * fld h 14 1.
Proof. rewrite bits_fld by lia. change (14 - 12 + 1) with 3. field_arith. Qed.

Lemma op3_land h : bits h 12 14 .& 5 = fld h 12 1 + 4 * fld h 14 1.
Proof.
  rewrite op3_bits. destruct (fld1_cases h 12) as [-> | ->], (fld1_cases h 13) as [-> | ->], (fld1_cases h 14) as [-> | ->]; reflexivity.
Qed.

Lemma class_branch h1 h2 :
  fld h1 11 5 = 30 -> fld h2 15 1 = 1 ->
  thumb2_class h1 h2 =
    if negb (bits h1 6 9 .& 14 =? 14) && (fld h2 14 1 =? 0) && (fld h2 12 1 =? 0) then T2_b_cond
    else if fld h2 14 1 =? 0 then if fld h2 12 1 =? 1 then T2_b else T2_copy
    else if fld h2 12 1 =? 1 then T2_bl else T2_blx.
Proof.
  intros E1 E2. unfold thumb2_class. cbn zeta.
  rewrite (class_fld h1 0xf800 0xf000 11 5 30), (class_fld h2 0x8000 0x8000 15 1 1), E1, E2 by done. cbn [Z.eqb Pos.eqb andb].
  rewrite op3_land. destruct (fld1_cases h2 12) as [-> | ->], (fld1_cases h2 14) as [-> | ->];
    cbn [Z.eqb Pos.eqb Z.add Z.mul Pos.add Pos.mul]; rewrite ?andb_true_r, ?andb_false_r; by destruct (bits h1 6 9 .& 14 =? 14).
Qed.

Lemma class_ldr h1 h2 : fld h1 8 8 = 0xf8 -> fld h1 0 7 = 0x5f -> thumb2_class h1 h2 = T2_ldr_literal.
Proof.
  intros E1 E2. unfold thumb2_class. cbn zeta.
  rewrite (class_fld h1 0xf800 0xf000 11 5 30) by done.
  replace (fld h1 11 5 =? 30) with false by (symmetry; apply Z.eqb_neq; revert E1; field_arith). cbn [andb].
  assert (Ef : (h1 .& 0xfa10 =? 0xf200) = false).
  { apply Z.eqb_neq. intros E. assert (Hl : (h1 .& 0xfa10) .& 0xf800 = 0xf200 .& 0xf800) by (by rewrite E).
    rewrite <- Z.land_assoc in Hl. change (0xfa10 .& 0xf800) with 0xf800 in Hl. change (0xf200 .& 0xf800) with 0xf000 in Hl.
    apply Z.eqb_eq in Hl. rewrite (class_fld h1 0xf800 0xf000 11 5 30) in Hl by done. apply Z.eqb_eq in Hl. revert E1 Hl. field_arith. }
  rewrite Ef. cbn [andb].
  rewrite (class_fld2 h1 0xff7f 0xf85f 0 7 0x5f 8 8 0xf8) by (done || lia). by rewrite E1, E2.
Qed.

(** Disjoint fields. *)
Lemma lor_low k a b : 0 <= k -> 0 <= b < 2 ^ k -> (a * 2 ^ k) .| b = a * 2 ^ k + b.
Proof.
  intros Hk Hb. apply lor_disjoint_add. rewrite <- Z.shiftl_mul_pow2 by done. apply Z.bits_inj'. intros i Hi.
  rewrite Z.land_spec, Z.testbit_0_l, testbit_shiftl by done.
  destruct (Z.ltb_spec i k); [by rewrite Z.testbit_neg_r by lia|]. rewrite (testbit_high k b) by lia. apply andb_false_r.
Qed.

Lemma lnot_xor_inv j s : j = 0 \/ j = 1 -> s = 0 \/ s = 1 -> lnot (j .^ s) = inv_xor j s.
Proof. intros [-> | ->] [-> | ->]; reflexivity. Qed.

Lemma inv_xor_01 j s : 0 <= inv_xor j s <= 1.
Proof. unfold inv_xor. destruct (j =? s); lia. Qed.

Lemma branch_fields S i1 i2 hi lo :
  0 <= S <= 1 -> 0 <= i1 <= 1 -> 0 <= i2 <= 1 -> 0 <= hi < 1024 -> 0 <= lo < 4096 ->
  (S << 24) .| (i1 << 23) .| (i2 << 22) .| (hi << 12) .| lo = lo + 2 ^ 12 * hi + 2 ^ 22 * i2 + 2 ^ 23 * i1 + 2 ^ 24 * S.
Proof.
  intros HS H1 H2 Hh Hl. rewrite !Z.shiftl_mul_pow2 by lia.
  rewrite (lor_low 24), <- (Z.mul_1_l (i1 * 2 ^ 23)) by lia.
  replace (S * 2 ^ 24 + 1 * (i1 * 2 ^ 23)) with ((2 * S + i1) * 2 ^ 23) by lia. rewrite (lor_low 23) by lia.
  replace ((2 * S + i1) * 2 ^ 23 + i2 * 2 ^ 22) with ((2 * (2 * S + i1) + i2) * 2 ^ 22) by lia. rewrite (lor_low 22) by lia.
  replace ((2 * (2 * S + i1) + i2) * 2 ^ 22 + hi * 2 ^ 12) with ((1024 * (2 * (2 * S + i1) + i2) + hi) * 2 ^ 12) by lia.
  rewrite (lor_low 12) by lia. lia.
Qed.

Lemma sext_signed_n n v : 0 < n -> 0 <= v < 2 ^ n -> sext n v = signed n v.
Proof. intros Hn Hv. unfold sext, signed. by rewrite Z.mod_small. Qed.

Lemma branch_imm_spec h1 h2 : thumb2_branch_imm h1 h2 = branch25 h1 h2.
Proof.
  unfold thumb2_branch_imm, branch25. rewrite !bit_fld, !bits_fld by lia.
  change (9 - 0 + 1) with 10. change (10 - 0 + 1) with 11. change (1 + 1 + 1 + 10 + 11 + 1) with 25.
  rewrite !lnot_xor_inv by apply fld1_cases.
  pose proof (inv_xor_01 (fld h2 13 1) (fld h1 10 1)) as X1. pose proof (inv_xor_01 (fld h2 11 1) (fld h1 10 1)) as X2.
  pose proof (fld_range h1 0 10 ltac:(lia)) as X3. pose proof (fld_range h2 0 11 ltac:(lia)) as X4.
  pose proof (fld_range h1 10 1 ltac:(lia)) as X5. change (2 ^ 10) with 1024 in X3. change (2 ^ 11) with 2048 in X4. change (2 ^ 1) with 2 in X5.
  rewrite branch_fields by (rewrite ?Z.shiftl_mul_pow2; lia). rewrite (Z.shiftl_mul_pow2 (fld h2 0 11)) by lia.
  rewrite a32_SignExtend_sext, sext_signed_n by lia. f_equal. lia.
Qed.

Lemma branch25_even h1 h2 : branch25 h1 h2 mod 2 = 0.
Proof.
  unfold branch25, signed. set (a := fld h2 0 11). set (b := fld h1 0 10). set (c := inv_xor _ _). set (d := inv_xor _ _). set (e := fld h1 10 1).
  replace (2 * a + 2 ^ 12 * b + 2 ^ 22 * c + 2 ^ 23 * d + 2 ^ 24 * e)
    with ((a + 2 ^ 11 * b + 2 ^ 21 * c + 2 ^ 22 * d + 2 ^ 23 * e) * 2) by lia.
  destruct (_ <? _); [apply Z_mod_mult|].
  replace (2 ^ 25) with (2 ^ 24 * 2) by done. rewrite <- Z.mul_sub_distr_r. apply Z_mod_mult.
Qed.

(** BLX: the sign is taken from the wrong bit, which is right for offsets of 24 bits. *)
Lemma blx_imm_spec h1 h2 :
  fld h2 0 1 = 0 -> -2 ^ 23 <= branch25 h1 h2 < 2 ^ 23 -> blx_imm h1 h2 = branch25 h1 h2.
Proof.
  intros H0. unfold blx_imm, branch25. rewrite !bit_fld, !bits_fld by lia.
  change (9 - 0 + 1) with 10. change (10 - 1 + 1) with 10.
  rewrite !lnot_xor_inv by apply fld1_cases.
  pose proof (inv_xor_01 (fld h2 13 1) (fld h1 10 1)) as X1. pose proof (inv_xor_01 (fld h2 11 1) (fld h1 10 1)) as X2.
  pose proof (fld_range h1 0 10 ltac:(lia)) as X3. pose proof (fld_range h2 1 10 ltac:(lia)) as X4.
  pose proof (fld_range h1 10 1 ltac:(lia)) as X5. change (2 ^ 10) with 1024 in X3, X4. change (2 ^ 1) with 2 in X5.
  assert (E : fld h2 0 11 = 2 * fld h2 1 10) by (revert H0; field_arith). rewrite E.
  rewrite branch_fields by (rewrite ?Z.shiftl_mul_pow2; lia). rewrite (Z.shiftl_mul_pow2 (fld h2 1 10)) by lia.
  set (i1 := inv_xor (fld h2 13 1) _) in *. set (i2 := inv_xor (fld h2 11 1) _) in *. set (S := fld h1 10 1) in *.
  set (x := fld h2 1 10 * 2 ^ 2 + 2 ^ 12 * fld h1 0 10 + 2 ^ 22 * i2).
  replace (fld h2 1 10 * 2 ^ 2 + 2 ^ 12 * fld h1 0 10 + 2 ^ 22 * i2 + 2 ^ 23 * i1 + 2 ^ 24 * S) with (x + 2 ^ 23 * i1 + 2 ^ 24 * S) by lia.
  replace (2 * (2 * fld h2 1 10) + 2 ^ 12 * fld h1 0 10 + 2 ^ 22 * i2 + 2 ^ 23 * i1 + 2 ^ 24 * S) with (x + 2 ^ 23 * i1 + 2 ^ 24 * S) by lia.
  assert (Hx : 0 <= x < 2 ^ 23) by (unfold x; lia). intros Hr. unfold signed in *. change (2 ^ (25 - 1)) with (2 ^ 24) in *.
  assert (Hcase : (S = 0 /\ i1 = 0) \/ (S = 1 /\ i1 = 1)).
  { destruct (Z.ltb_spec (x + 2 ^ 23 * i1 + 2 ^ 24 * S) (2 ^ 24)) in Hr; lia. }
  destruct Hcase as [[-> ->]|[-> ->]].
  - rewrite a32_SignExtend_sext, sext_signed_n by lia. unfold signed. change (2 ^ (24 - 1)) with (2 ^ 23).
    destruct (Z.ltb_spec (x + 2 ^ 23 * 0 + 2 ^ 24 * 0) (2 ^ 24)), (Z.ltb_spec (x + 2 ^ 23 * 0 + 2 ^ 24 * 0) (2 ^ 23)); lia.
  - destruct (Z.ltb_spec (x + 2 ^ 23 * 1 + 2 ^ 24 * 1) (2 ^ 24)); [lia|].
    unfold SignExtend. assert (Eb : bit (x + 2 ^ 23 * 1 + 2 ^ 24 * 1) (24 - 1) = 1).
    { rewrite bit_fld by lia. unfold fld. change (2 ^ 1) with 2. symmetry.
      replace ((x + 2 ^ 23 * 1 + 2 ^ 24 * 1) / 2 ^ (24 - 1)) with 3; [done|]. apply Z.div_unique with x; lia. }
    rewrite Eb. change ((u32 (0 - 1) >> 24) << 24) with (255 * 2 ^ 24).
    assert (El : (x + 2 ^ 23 * 1 + 2 ^ 24 * 1) .| (255 * 2 ^ 24) = 255 * 2 ^ 24 + (x + 2 ^ 23)).
    { replace (x + 2 ^ 23 * 1 + 2 ^ 24 * 1) with (1 * 2 ^ 24 + (x + 2 ^ 23)) by lia.
      rewrite <- (lor_low 24 1 (x + 2 ^ 23)) by lia. rewrite (Z.lor_comm (1 * 2 ^ 24)), <- Z.lor_assoc.
      change ((1 * 2 ^ 24) .| (255 * 2 ^ 24)) with (255 * 2 ^ 24). rewrite Z.lor_comm. apply lor_low; lia. }
    rewrite El. destruct (sext_cong 32 (255 * 2 ^ 24 + (x + 2 ^ 23)) ltac:(lia)) as [k Ek].
    pose proof (sext_range 32 (255 * 2 ^ 24 + (x + 2 ^ 23)) ltac:(lia)) as R. change (2 ^ (32 - 1)) with (2 ^ 31) in R.
    rewrite Ek in *. assert (k = -1) by lia. lia.
Qed.

Lemma decode_t32_kind h1 h2 ins :
  decode_t32 h1 h2 = Some ins ->
  match ins with T_B _ _ | T_BL _ _ | T_ADR _ _ | T_LDR_lit _ _ | T_LDR_imm _ _ _ => True | _ => False end.
Proof.
  unfold decode_t32. intros E.
  repeat match type of E with (if ?c then _ else _) = _ => destruct c end; try discriminate; by injection E as <-.
Qed.

Lemma decode_t32_B h1 h2 off :
  decode_t32 h1 h2 = Some (T_B 14 off) -> thumb2_class h1 h2 = T2_b /\ off = thumb2_branch_imm h1 h2.
Proof.
  unfold decode_t32. rewrite branch_imm_spec. intros E.
  destruct ((fld h1 11 5 =? 30) && (fld h2 15 1 =? 1)) eqn:C.
  - apply andb_true_iff in C as [C1%Z.eqb_eq C2%Z.eqb_eq]. rewrite (class_branch _ _ C1 C2).
    destruct (fld1_cases h2 14) as [E14|E14], (fld1_cases h2 12) as [E12|E12]; rewrite E14, E12 in *; cbn [Z.eqb Pos.eqb andb] in *.
    + destruct (Z.ltb_spec (fld h1 6 4) 14); [|done]. injection E as ? _. lia.
    + rewrite andb_false_r. injection E as <-. done.
    + by destruct (fld h2 0 1 =? 0).
    + done.
  - repeat (match type of E with (if ?c then _ else _) = _ => destruct c end; try done).
Qed.

Lemma decode_t32_BL h1 h2 exchange off :
  decode_t32 h1 h2 = Some (T_BL exchange off) ->
  thumb2_class h1 h2 = (if exchange then T2_blx else T2_bl) /\ off = branch25 h1 h2 /\ (exchange = true -> fld h2 0 1 = 0).
Proof.
  unfold decode_t32. intros E. destruct ((fld h1 11 5 =? 30) && (fld h2 15 1 =? 1)) eqn:C.
  - apply andb_true_iff in C as [C1%Z.eqb_eq C2%Z.eqb_eq]. rewrite (class_branch _ _ C1 C2).
    destruct (fld1_cases h2 14) as [E14|E14], (fld1_cases h2 12) as [E12|E12]; rewrite E14, E12 in *; cbn [Z.eqb Pos.eqb andb] in *.
    + by destruct (fld h1 6 4 <? 14).
    + done.
    + rewrite ?andb_false_r. destruct (Z.eqb_spec (fld h2 0 1) 0); [|done]. injection E as <- <-. done.
    + rewrite ?andb_false_r. injection E as <- <-. done.
  - repeat (match type of E with (if ?c then _ else _) = _ => destruct c end; try done).
Qed.

Lemma decode_t32_LDR h1 h2 r off :
  decode_t32 h1 h2 = Some (T_LDR_lit r off) ->
  thumb2_class h1 h2 = T2_ldr_literal /\ r = bits h2 12 15 /\
  off = (if bit h1 7 =? 1 then bits h2 0 11 else - bits h2 0 11).
Proof.
  unfold decode_t32. intros E. rewrite !bits_fld, bit_fld by lia. change (15 - 12 + 1) with 4. change (11 - 0 + 1) with 12.
  destruct ((fld h1 11 5 =? 30) && (fld h2 15 1 =? 1)).
  { repeat (match type of E with (if ?c then _ else _) = _ => destruct c end; try done). }
  destruct ((fld h1 11 5 =? 30) && (fld h1 0 10 =? 0x20f)); [done|].
  destruct ((fld h1 11 5 =? 30) && (fld h1 0 10 =? 0x2af)); [done|].
  destruct ((fld h1 8 8 =? 0xf8) && (fld h1 0 7 =? 0x5f)) eqn:C; [|by destruct (fld h1 4 12 =? 0xf8d)].
  apply andb_true_iff in C as [C1%Z.eqb_eq C2%Z.eqb_eq]. injection E as <- <-.
  split; [by apply class_ldr|done].
Qed.

Lemma is_thumb2_wide w : is_thumb2 w = is_wide (u16 w).
Proof.
  unfold is_thumb2, is_wide. cbn zeta. change 0x0000ffff with (Z.ones 16). rewrite Z.land_ones by lia.
  fold (u16 w). rewrite !bits_fld by lia. change (15 - 13 + 1) with 3. change (12 - 11 + 1) with 2.
  pose proof (u16_range w) as R. generalize dependent (u16 w). intros h R.
  assert (E : fld h 11 5 = fld h 11 2 + 4 * fld h 13 3) by field_arith.
  pose proof (fld_range h 11 2 ltac:(lia)) as R2. pose proof (fld_range h 13 3 ltac:(lia)) as R3.
  change (2 ^ 2) with 4 in R2. change (2 ^ 3) with 8 in R3. rewrite E. clear E.
  destruct (Z.eqb_spec (fld h 13 3) 7), (Z.eqb_spec (fld h 11 2) 0), (Z.leb_spec 29 (fld h 11 2 + 4 * fld h 13 3)); try done; lia.
Qed.

(** ** One relocated Thumb instruction *)

(** What the relocator gets right.  Not: conditional branches, [adr.w], calls with exchange beyond 8 MiB, [ldr.w] into the
    program counter, aligned addresses computed at an unaligned instruction, and [add r12, pc]. *)
Definition thumb_supported (A len : Z) (ins : insn) : bool :=
  match ins with
  | T_LDR_lit r _ => (len =? 2) || ((A mod 4 =? 0) && negb (r =? 15))
  | T_ADR _ _ => (len =? 2) && (A mod 4 =? 0)
  | T_B cond _ => cond =? 14
  | T_CB _ _ _ => true
  | T_BX rm => rm =? 15
  | T_ADD rdn rm => (rm =? 15) && negb (rdn =? 12)
  | T_MOV _ rm => rm =? 15
  | T_BL exchange off => negb exchange || ((-2 ^ 23 <=? off) && (off <? 2 ^ 23))
  | _ => false
  end.
Definition thumb_scratch (ins : insn) : bool := match ins with T_ADD _ _ | T_MOV _ _ => true | _ => false end.
Definition thumb_links (ins : insn) : bool := match ins with T_BL _ _ => true | _ => false end.

(** The bytes of a sequence with a literal, linked. *)
Lemma linked_lit D pre r post dst n :
  0 <= r < 16 -> n = (2 * length pre)%nat -> -4092 < D - Z.of_nat n < 4096 ->
  linked thumb_slot D 0 {| i_bytes := flat 2 (pre ++ t2_lit r ++ post); i_lit := Some (n, dst) |}
  = flat 2 (pre ++ lit_load (D - Z.of_nat n) r ++ post).
Proof.
  intros Hr -> Hd. unfold linked. cbn [i_lit i_bytes]. rewrite Z.add_0_l.
  assert (Hs : slot_at (flat 2 (pre ++ t2_lit r ++ post)) (2 * length pre) = flat 2 (t2_lit r)).
  { unfold slot_at. rewrite !a32_flat_app, drop_app_length' by (by rewrite a32_length_flat).
    by rewrite take_app_length' by (by rewrite a32_length_flat). }
  rewrite Hs, slot_lit by done. unfold splice. rewrite !a32_flat_app.
  rewrite take_app_length' by (by rewrite a32_length_flat). f_equal. f_equal.
  assert (El : length (flat 2 (lit_load (D - Z.of_nat (2 * length pre)) r)) = 4%nat)
    by (rewrite a32_length_flat; unfold lit_load; by destruct (0 <? _)).
  rewrite El, app_assoc, drop_app_length'; [done|].
  rewrite length_app, !a32_length_flat. done.
Qed.

(** The literal of an item at [P], [D] bytes away from it. *)
Definition lit_reachable (s : state) (P D : Z) (it : item) : Prop :=
  match i_lit it with
  | Some (k, dst) => 0 <= P + D < 2 ^ 32 /\ (P + D) mod 4 = 0 /\ -4092 < D - Z.of_nat k < 4096 /\ load32 4 (mem s) (P + D) = dst
  | None => True
  end.

Lemma align_floor_u32 x : ALIGN_FLOOR (u32 x) 4 = u32 (align4 x).
Proof.
  change 4 with (2 ^ 2) at 1. rewrite ALIGN_FLOOR_alt by lia. change (2 ^ 2) with 4. rewrite u32_mod4. unfold align4.
  pose proof (wrap_range 32 x ltac:(lia)) as R. pose proof (Z.mod_pos_bound x 4 ltac:(lia)) as R4.
  assert (x mod 4 <= u32 x) by (rewrite <- u32_mod4; apply Z.mod_le; lia).
  rewrite <- (wrap_sub_l 32 x (x mod 4)), (wrap_small 32 (u32 x - x mod 4)) by lia. done.
Qed.

Lemma align4_add x k : k mod 4 = 0 -> align4 (x + k) = align4 x + k.
Proof. intros H. unfold align4. rewrite Z.add_mod, H, Z.add_0_r, Zmod_mod by lia. lia. Qed.

Lemma u32_succ_even x : x mod 2 = 0 -> u32 (x + 1) = u32 x + 1.
Proof.
  intros H. pose proof (u32_even x H) as He. pose proof (wrap_range 32 x ltac:(lia)) as R.
  rewrite <- wrap_add_l. apply wrap_small. split; [lia|].
  assert (u32 x <> 2 ^ 32 - 1) by (intros E; rewrite E in He; done). lia.
Qed.

Lemma succ_target A off : A mod 2 = 0 -> off mod 2 = 0 -> u32 (u32 (A + 4) + off + 1) = u32 (A + 4 + off) + 1.
Proof.
  intros HA Ho. rewrite <- Z.add_assoc, wrap_add_l, Z.add_assoc. apply u32_succ_even. by repeat apply even_add.
Qed.

Section ThumbBody.
Context (s : state) (P A D : Z).
Context (HP0 : 0 <= P) (HP4 : P mod 4 = 0) (HP : P + 20 < 2 ^ 32).
Context (HA : 0 <= A < 2 ^ 32) (HA2 : A mod 2 = 0).

Lemma body_halves pre r post dst n :
  0 <= r < 16 -> n = (2 * length pre)%nat ->
  let it := {| i_bytes := flat 2 (pre ++ t2_lit r ++ post); i_lit := Some (n, dst) |} in
  loaded32 (mem s) P (linked thumb_slot D 0 it) -> lit_reachable s P D it ->
  halves (mem s) P (pre ++ lit_load (D - Z.of_nat n) r ++ post) /\ literal_at s (P + Z.of_nat n) (D - Z.of_nat n) dst.
Proof.
  intros Hr Hn it Hl (H1 & H2 & H3 & H4). unfold it in Hl. rewrite linked_lit in Hl by done. split.
  - rewrite <- (app_nil_r (flat 2 _)) in Hl. exact (loaded_halves _ _ _ _ Hl).
  - unfold literal_at. replace (P + Z.of_nat n + (D - Z.of_nat n)) with (P + D) by lia. done.
Qed.

Lemma sim_body16 h body ins :
  0 <= h < 65536 -> t1_item (u32 (A + 4)) h = Some body -> decode_t16 h = Some ins -> thumb_supported A 2 ins = true ->
  loaded32 (mem s) P (linked thumb_slot D 0 body) -> lit_reachable s P D body ->
  sim true (thumb_scratch ins) (thumb_links ins) A 2 ins P (P + Z.of_nat (length (i_bytes body))) s.
Proof.
  intros Hh Hit Hdec Hsup Hld Hlit. pose proof (t16_all h Hh) as Hag. unfold t16_agrees in Hag. rewrite Hdec in Hag.
  unfold t1_item in Hit. pose proof (bits_8 h 8 ltac:(lia)) as Hrt. change (8 + 2) with 10 in Hrt.
  destruct ins as [| | | | | |r off|r off|cond off|nz rn off|rm|rdn rm|rd rm| | | |]; try discriminate;
    cbn [thumb_supported thumb_scratch thumb_links] in *.
  - (* ldr literal *)
    apply bool_decide_eq_true in Hag as (Hc & -> & ->). rewrite Hc in Hit. apply (inj Some) in Hit. subst body.
    destruct (body_halves [] (bits h 8 10) (t2_mem (bits h 8 10) (bits h 8 10)) _ 0 ltac:(lia) eq_refl Hld Hlit) as [Hh1 Hl1].
    rewrite Z.add_0_r, Z.sub_0_r in *.
    destruct (run_two_loads s P HP0 HP4 HP D (bits h 8 10) _ ltac:(lia) Hh1 Hl1) as (t & Hrun & Hpc & Ht & Hf & Hm & Hregs).
    rewrite align_floor_u32, align4_add in Hregs by (rewrite Z.shiftl_mul_pow2 by lia; apply Z_mod_mult).
    eapply (sim_ldr_lit s P A _ _ _ _ _ 2 t); try done. lia.
  - (* adr *)
    apply bool_decide_eq_true in Hag as (Hc & -> & ->). rewrite Hc in Hit. apply (inj Some) in Hit. subst body.
    apply Z.eqb_eq in Hsup.
    destruct (body_halves [] (bits h 8 10) [] _ 0 ltac:(lia) eq_refl Hld Hlit) as [Hh1 Hl1].
    rewrite Z.add_0_r, Z.sub_0_r in *. cbn [app] in Hh1. rewrite app_nil_r in Hh1.
    rewrite wrap_add_l in Hl1. eapply (thumb_sim_adr s P A HP0 HP4 HP); try done. lia.
  - (* b *)
    rewrite Hsup in Hag. apply Z.eqb_eq in Hsup. subst cond. apply bool_decide_eq_true in Hag as (Hc & -> & He).
    rewrite Hc in Hit. apply (inj Some) in Hit. subst body.
    destruct (body_halves [] 15 [] _ 0 ltac:(lia) eq_refl Hld Hlit) as [Hh1 Hl1].
    rewrite Z.add_0_r, Z.sub_0_r in *. cbn [app] in Hh1. rewrite app_nil_r in Hh1.
    rewrite succ_target in Hl1 by done. by eapply (thumb_sim_b s P A HP0 HP4 HP HA2).
  - (* cbz, cbnz *)
    apply bool_decide_eq_true in Hag as (Hc & -> & He & Hd' & Hw'). rewrite Hc in Hit. apply (inj Some) in Hit. subst body.
    destruct (body_halves ([u16 (set_bit (set_bits16 h 3 7 2) 9 0); NOP] ++ B4) 15 [] _ 8 ltac:(lia) eq_refl Hld Hlit) as [Hh1 Hl1].
    rewrite app_nil_r, <- app_assoc in Hh1.
    rewrite succ_target in Hl1 by done. eapply (sim_cb s P A HP0 HP4 HP HA2); try done. apply wrap_wrap.
  - (* bx pc *)
    apply Z.eqb_eq in Hsup. subst rm. cbn [Z.eqb Pos.eqb implb] in Hag. apply bool_decide_eq_true in Hag as Hc.
    rewrite Hc in Hit. apply (inj Some) in Hit. subst body.
    destruct (body_halves [] 15 [] _ 0 ltac:(lia) eq_refl Hld Hlit) as [Hh1 Hl1].
    rewrite Z.add_0_r, Z.sub_0_r in *. cbn [app] in Hh1. rewrite app_nil_r in Hh1.
    by eapply (sim_bx_pc s P A HP0 HP4 HP).
  - (* add *)
    apply andb_true_iff in Hsup as [H15 H12]. rewrite H15 in Hag. apply Z.eqb_eq in H15. subst rm.
    apply bool_decide_eq_true in Hag as (Hc & Hd' & Hw' & Hne). rewrite Hc in Hit. apply (inj Some) in Hit. subst body.
    apply negb_true_iff, Z.eqb_neq in H12.
    destruct (body_halves [] 12 [set_bits16 h 3 6 12] _ 0 ltac:(lia) eq_refl Hld Hlit) as [Hh1 Hl1].
    rewrite Z.add_0_r, Z.sub_0_r in *.
    eapply (sim_add_pc s P A HP0 HP4 HP); try done. apply u16_set_bits16.
  - (* mov *)
    rewrite Hsup in Hag. apply Z.eqb_eq in Hsup. subst rm.
    apply bool_decide_eq_true in Hag as (Hc & Hd' & Hw'). rewrite Hc in Hit. apply (inj Some) in Hit. subst body.
    destruct (body_halves [] 12 [set_bits16 h 3 6 12] _ 0 ltac:(lia) eq_refl Hld Hlit) as [Hh1 Hl1].
    rewrite Z.add_0_r, Z.sub_0_r in *.
    eapply (sim_mov_pc s P A HP0 HP4 HP); try done. apply u16_set_bits16.
Qed.

Lemma inline_data hs v :
  loaded32 (mem s) P (flat 2 hs ++ le_bytes 4 v) -> 0 <= v < 2 ^ 32 -> load32 4 (mem s) (P + 2 * Z.of_nat (length hs)) = v.
Proof.
  intros Hl Hv. replace (2 * Z.of_nat (length hs)) with (Z.of_nat (2 * length hs)) by lia.
  rewrite (load32_at _ _ _ _ 4 Hl) by (rewrite length_app, a32_length_flat, length_le_bytes; lia).
  rewrite drop_app_length' by (by rewrite a32_length_flat). rewrite take_ge by (by rewrite length_le_bytes).
  rewrite le_val_bytes. change (2 ^ (8 * Z.of_nat 4)) with (2 ^ 32). by apply Z.mod_small.
Qed.

Lemma literal_inline hs v :
  loaded32 (mem s) P (flat 2 hs ++ le_bytes 4 v) -> 0 <= v < 2 ^ 32 -> length hs = 2%nat -> literal_at s P 4 v.
Proof.
  intros Hl Hv Hn. pose proof (inline_data hs v Hl Hv) as E. rewrite Hn in E. unfold literal_at.
  split_and!; try done; try lia. by rewrite Z.add_mod, HP4 by lia.
Qed.

Lemma branch25_mod4 h1 h2 : fld h2 0 1 = 0 -> branch25 h1 h2 mod 4 = 0.
Proof.
  intros H0. unfold branch25, signed. assert (E : fld h2 0 11 = 2 * fld h2 1 10) by (revert H0; field_arith). rewrite E.
  set (a := fld h2 1 10). set (b := fld h1 0 10). set (c := inv_xor _ _). set (d := inv_xor _ _). set (e := fld h1 10 1).
  replace (2 * (2 * a) + 2 ^ 12 * b + 2 ^ 22 * c + 2 ^ 23 * d + 2 ^ 24 * e)
    with ((a + 2 ^ 10 * b + 2 ^ 20 * c + 2 ^ 21 * d + 2 ^ 22 * e) * 4) by lia.
  destruct (_ <? _); [apply Z_mod_mult|].
  replace (2 ^ 25) with (2 ^ 23 * 4) by done. rewrite <- Z.mul_sub_distr_r. apply Z_mod_mult.
Qed.

Lemma lor1_even x : x mod 2 = 0 -> x .| 1 = x + 1.
Proof. intros H. apply lor_disjoint_add. change 1 with (Z.ones 1). by rewrite Z.land_ones. Qed.

Lemma sim_body32 h1 h2 ins :
  decode_t32 h1 h2 = Some ins -> thumb_supported A 4 ins = true ->
  let body := t2_item (u32 (A + 4)) h1 h2 in
  loaded32 (mem s) P (i_bytes body) ->
  sim true (thumb_scratch ins) (thumb_links ins) A 4 ins P (P + Z.of_nat (length (i_bytes body))) s.
Proof.
  intros Hdec Hsup body Hld. unfold body, t2_item in *. clear body. pose proof (decode_t32_kind _ _ _ Hdec) as Hkind.
  destruct ins as [| | | | | |r off|r off|cond off|nz rn off|rm|rdn rm|rd rm|exchange off| | |]; try discriminate; try contradiction;
    cbn [thumb_supported thumb_scratch thumb_links] in *.
  - destruct (decode_t32_LDR _ _ _ _ Hdec) as (Hc & -> & Hoff). rewrite Hc in *. cbn [i_bytes] in *.
    apply andb_true_iff in Hsup as [HA4%Z.eqb_eq H15%negb_true_iff]. rewrite H15 in *. apply Z.eqb_neq in H15.
    pose proof (bits_16 h2 12 ltac:(lia)) as Hr. change (12 + 3) with 15 in Hr. set (rt := bits h2 12 15) in *.
    change [0xf8df; rt * 2 ^ 12 + 8] with (lit_load 12 rt) in Hld. pose proof (loaded_halves _ _ _ _ Hld) as Hh.
    set (v := if bit h1 7 =? 1 then u32 (u32 (A + 4) + bits h2 0 11) else u32 (u32 (A + 4) - bits h2 0 11)) in *.
    assert (Hv : 0 <= v < 2 ^ 32) by (unfold v; destruct (_ =? 1); apply wrap_range; lia).
    pose proof (inline_data _ _ Hld Hv) as Hl.
    destruct (run_ldr_w s P HP0 HP4 HP rt v ltac:(lia) Hh Hl) as (t & Hrun & Hpc & Ht & Hf & Hm & Hregs).
    eapply (sim_ldr_lit s P A _ _ _ v _ 3 t); try done; [lia|].
    rewrite align4_u32 by (by rewrite Z.add_mod, HA4 by lia). unfold v. rewrite Hoff. destruct (bit h1 7 =? 1); [done|].
    f_equal.
  - apply Z.eqb_eq in Hsup. subst cond. destruct (decode_t32_B _ _ _ Hdec) as (Hc & ->). rewrite Hc in *. cbn [i_bytes] in *.
    rewrite branch_imm_spec in *. pose proof (branch25_even h1 h2) as He.
    assert (Ev : u32 (u32 (A + 4) + branch25 h1 h2) .| 1 = u32 (A + 4 + branch25 h1 h2) + 1).
    { rewrite wrap_add_l. apply lor1_even, u32_even. by repeat apply even_add. }
    assert (Hv : 0 <= u32 (u32 (A + 4) + branch25 h1 h2) .| 1 < 2 ^ 32) by (apply lor1_range, wrap_range; lia).
    pose proof (literal_inline _ _ Hld Hv eq_refl) as Hl. rewrite Ev in Hl.
    exact (thumb_sim_b s P A HP0 HP4 HP HA2 4 (branch25 h1 h2) 4 _ _ He eq_refl (loaded_halves _ _ _ _ Hld) Hl).
  - destruct (decode_t32_BL _ _ _ _ Hdec) as (Hc & -> & Hx). pose proof (branch25_even h1 h2) as He.
    assert (Hitem : exists dst, 0 <= dst < 2 ^ 32 /\
              loaded32 (mem s) P (i_bytes (call_item dst)) /\
              (exists t, bx_to dst (at_pc P true s) = Some t /\ thumb t = negb exchange /\
                 pc t = u32 ((if exchange then align4 (A + 4) else A + 4) + branch25 h1 h2))).
    { destruct exchange; rewrite Hc in Hld.
      - exists (u32 (ALIGN_FLOOR (u32 (A + 4)) 4 + blx_imm h1 h2)). split; [apply wrap_range; lia|]. split; [exact Hld|].
        cbn [negb orb] in Hsup. apply andb_true_iff in Hsup as [S1%Z.leb_le S2%Z.ltb_lt].
        rewrite blx_imm_spec by (try done; by apply Hx). rewrite align_floor_u32, wrap_add_l.
        exists (goto (u32 (align4 (A + 4) + branch25 h1 h2)) false (at_pc P true s)). split; [|split; [reflexivity|]].
        + assert (E4 : u32 (align4 (A + 4) + branch25 h1 h2) mod 4 = 0).
          { rewrite u32_mod4, Z.add_mod, branch25_mod4 by (try lia; by apply Hx).
            unfold align4. rewrite Zminus_mod, Zmod_mod, Z.sub_diag. done. }
          unfold bx_to. replace (u32 (align4 (A + 4) + branch25 h1 h2) mod 2) with 0.
          * cbn [Z.eqb]. by rewrite E4.
          * revert E4. generalize (u32 (align4 (A + 4) + branch25 h1 h2)). intros x E4.
            pose proof (Z.div_mod x 4 ltac:(lia)) as Ex. rewrite E4 in Ex. apply Z.mod_unique with (2 * (x / 4)); lia.
        + cbn [pc goto]. apply wrap_wrap.
      - exists (u32 (u32 (A + 4) + thumb2_branch_imm h1 h2) .| 1). split; [apply lor1_range, wrap_range; lia|]. split; [exact Hld|].
        rewrite branch_imm_spec, wrap_add_l. rewrite bx_to_odd; [|apply wrap_range; lia|apply u32_even; by repeat apply even_add].
        eexists. split; [reflexivity|]. cbn [thumb pc goto negb]. by rewrite wrap_wrap. }
    destruct Hitem as (dst & Hv & Hld' & Hb). unfold call_item in Hld'. cbn [i_bytes] in Hld'.
    replace (length _) with 16%nat by (destruct exchange; by rewrite Hc).
    eapply (sim_bl s P A HP0 HP4 HP); try done; [|exact (inline_data _ _ Hld' Hv)].
    exact (loaded_halves _ _ _ _ Hld').
Qed.
End ThumbBody.

(** ** Items in a loaded block *)

Definition new_offset (its : list item) (i : nat) : Z := Z.of_nat (length (all_bytes (take i its))).

Lemma new_offset_S its i it : its !! i = Some it -> new_offset its (S i) = new_offset its i + Z.of_nat (length (i_bytes it)).
Proof.
  intros E. unfold new_offset. rewrite (take_S_r _ _ _ E), all_bytes_app, length_app. unfold all_bytes at 2. cbn [map concat].
  rewrite app_nil_r. lia.
Qed.

Lemma linked_shift slot q o it : linked slot q o it = linked slot (q - o) 0 it.
Proof. unfold linked. destruct (i_lit it) as [[k v]|]; [|done]. do 2 f_equal. lia. Qed.

(** Item [i] of a loaded block, with the distance [D] to its literal. *)
Lemma block_at slot its tail base m i it :
  slot4 slot -> Forall lit_in its -> loaded32 m base (block_bytes slot its tail) -> its !! i = Some it ->
  let P := base + new_offset its i in
  let p := Z.of_nat (length (all_bytes its ++ tail)) in
  exists D, loaded32 m P (linked slot D 0 it) /\ (p - new_offset its i) <= D /\ D mod 4 = (p - new_offset its i) mod 4 /\
    match i_lit it with
    | Some (k, dst) => load32 4 m (P + D) = u32 dst /\ D + 4 + new_offset its i <= Z.of_nat (length (block_bytes slot its tail))
    | None => True
    end.
Proof.
  intros H4 HF Hl E P p. pose proof (take_drop_middle its i it E) as Es.
  set (its1 := take i its) in *. set (its2 := drop (S i) its) in *.
  assert (HF' : Forall lit_in (its1 ++ it :: its2)) by (by rewrite Es).
  exists (p + 4 * Z.of_nat (length (all_lits 0 its1)) - new_offset its i).
  pose proof (block_item slot H4 its1 it its2 tail HF') as Hi. pose proof (length_block slot H4 its1 it its2 tail HF') as Hlen.
  cbn zeta in Hi. rewrite Es in Hi, Hlen.
  assert (Hle : (length (all_bytes its1) + length (i_bytes it) <= length (all_bytes its ++ tail))%nat).
  { rewrite <- Es, all_bytes_app, all_bytes_cons, !length_app. lia. }
  split; [|split; [lia|split]].
  - refine (loaded32_sub m base _ (length (all_bytes its1)) (length (i_bytes it)) _ Hl _ _); [rewrite Hlen; lia|].
    rewrite Hi, linked_shift. done.
  - replace (p + 4 * Z.of_nat (length (all_lits 0 its1)) - new_offset its i)
      with (p - new_offset its i + Z.of_nat (length (all_lits 0 its1)) * 4) by lia. apply Z_mod_plus_full.
  - destruct (i_lit it) as [[k dst]|] eqn:El; [|done].
    pose proof (block_literal slot H4 its1 it its2 tail HF' k dst El) as Hb. rewrite Es in Hb.
    assert (Hn : (length (all_lits 0 its1) + 1 <= length (all_lits 0 its))%nat).
    { rewrite <- Es, a32_all_lits_app, all_lits_cons, El, !length_app. cbn [lit_list length]. lia. }
    split; [|rewrite Hlen; unfold p; lia].
    replace (P + (p + 4 * Z.of_nat (length (all_lits 0 its1)) - new_offset its i))
      with (base + Z.of_nat (length (all_bytes its ++ tail) + 4 * length (all_lits 0 its1))) by (unfold P, p; lia).
    rewrite (load32_at _ _ _ _ 4 Hl) by (rewrite Hlen; lia). rewrite Hb, le_val_bytes. done.
Qed.

(** ** Thumb blocks *)

Lemma linked_padded D n it :
  lit_in it -> linked thumb_slot D 0 (padded n it) = flat 2 (replicate n NOP) ++ linked thumb_slot (D - 2 * Z.of_nat n) 0 it.
Proof.
  intros Hin. unfold linked, padded. cbn [i_lit i_bytes]. unfold lit_in in Hin. destruct (i_lit it) as [[k v]|]; [|done].
  set (pre := flat 2 (replicate n NOP)). assert (Hpre : length pre = (2 * n)%nat) by (unfold pre; by rewrite a32_length_flat, length_replicate).
  assert (Hs : slot_at (pre ++ i_bytes it) (2 * n + k) = slot_at (i_bytes it) k).
  { unfold slot_at. rewrite drop_app_ge by lia. f_equal. f_equal. lia. }
  rewrite Hs. replace (D - (0 + Z.of_nat (2 * n + k))) with (D - 2 * Z.of_nat n - (0 + Z.of_nat k)) by lia.
  unfold splice. rewrite take_app_ge, drop_app_ge by lia. rewrite Hpre, <- app_assoc.
  replace (2 * n + k - 2 * n)%nat with k by lia.
  replace (2 * n + k + length (thumb_slot (D - 2 * Z.of_nat n - (0 + Z.of_nat k)) (slot_at (i_bytes it) k)) - 2 * n)%nat
    with (k + length (thumb_slot (D - 2 * Z.of_nat n - (0 + Z.of_nat k)) (slot_at (i_bytes it) k)))%nat by lia. done.
Qed.

(** Where the instructions of the block start. *)
Fixpoint thumb_cursors (fuel : nat) (sz c : Z) (src : list Z) : list Z :=
  if c <? sz then
    match fuel with O => [] | S fuel => c :: thumb_cursors fuel sz (c + body_length (word_from src c)) src end
  else [].

Lemma thumb_items_at fi vm sz src : forall c (o : nat) intr m its i ci,
  thumb_items fi vm sz c (Z.of_nat o) intr m src = Some its -> (o mod 2 = 0)%nat ->
  thumb_cursors fi sz c src !! i = Some ci ->
  exists n body, its !! i = Some (padded n body) /\ body_item (u32 (vm + ci + 4)) (word_from src ci) = Some body /\
    (n <= 3)%nat /\ ((Z.of_nat o + new_offset its i + 2 * Z.of_nat n) mod 4 = 0) /\ (ci - c) mod 2 = 0.
Proof.
  induction fi as [|fi IH]; intros c o intr m its i ci E He Hc; cbn [thumb_items thumb_cursors] in *; destruct (c <? sz); try done.
  destruct (body_item _ _) as [body|] eqn:Hb; [|done]. cbn [mbind option_bind] in E.
  set (it := padded _ body) in *. rewrite <- Nat2Z.inj_add in E.
  destruct (thumb_items fi _ _ _ _ _ _ _) as [its'|] eqn:E'; [|done]. apply (inj Some) in E. subst its.
  pose proof (padded_even (pad_count intr (Z.of_nat o)) body (body_even _ _ _ Hb)) as Hev. fold it in Hev.
  destruct i as [|i]; cbn [lookup list_lookup] in *.
  - injection Hc as <-. exists (pad_count intr (Z.of_nat o)), body. split_and!; try done.
    + unfold pad_count. destruct (_ =? 0); [lia|]. destruct intr; lia.
    + pose proof (of_nat_mod4 _ (pad_aligned intr o He)) as Hp. rewrite Nat2Z.inj_add, Nat2Z.inj_mul in Hp.
      unfold new_offset. cbn [take]. change (Z.of_nat (length (all_bytes []))) with 0. by rewrite Z.add_0_r.
    + by rewrite Z.sub_diag.
  - assert (Ho' : ((o + length (i_bytes it)) mod 2 = 0)%nat) by (rewrite Nat.Div0.add_mod, He, Hev; done).
    destruct (IH _ _ _ _ _ _ _ E' Ho' Hc) as (n & body' & H1 & H2 & H3 & H4 & H5). exists n, body'.
    split_and!; try done.
    + unfold new_offset in *. cbn [take]. rewrite all_bytes_cons, length_app.
      replace (Z.of_nat o + Z.of_nat (length (i_bytes it) + length (all_bytes (take i its'))))
        with (Z.of_nat (o + length (i_bytes it)) + Z.of_nat (length (all_bytes (take i its')))) by lia. done.
    + replace (ci - c) with (ci - (c + body_length (word_from src c)) + body_length (word_from src c)) by lia.
      apply even_add; [done|]. unfold body_length. by destruct (is_thumb2 _).
Qed.
