(* ===== verification/Arm32Thumb.v ===== *)
(** * Relocated Thumb blocks

    The theorems on [GenRelocateCode] in Thumb state: what is returned runs like the
    original, and the encodings for which it does not. *)

From stdpp Require Import gmap.
From S2P Require Import Prelude UtilityMacro CodeMemBuffer Arm32Assembler Arm32Relocation Arm32Emission Arm32Block Arm64Machine BitFields Arm32Machine Arm32Simulation.
#[local] Open Scope machine_scope.
#[local] Open Scope Z_scope.

(** The relocated block with its jump back. *)
Definition thumb_block (vm len : Z) (its : list item) : list Z :=
  block_bytes thumb_slot its (thumb_tail true (length (all_bytes its)) (vm + len + 1)).

Lemma length_thumb_tail o dst : length (thumb_tail true o dst) = (8 + (if (Z.of_nat o mod 4 =? 0)%Z then 0 else 2))%nat.
Proof.
  unfold thumb_tail. rewrite a32_flat_app, !length_app, !a32_length_flat, length_replicate, length_le_bytes.
  destruct (Z.of_nat o mod 4 =? 0); reflexivity.
Qed.

Lemma thumb_literals_aligned o l dst :
  (o mod 2 = 0)%nat -> length l = o -> Z.of_nat (length (l ++ thumb_tail true o dst)) mod 4 = 0.
Proof.
  intros He Hl. rewrite length_app, Hl, length_thumb_tail.
  destruct (Z.eqb_spec (Z.of_nat o mod 4) 0) as [E|E].
  - replace (Z.of_nat (o + (8 + 0))) with (Z.of_nat o + 2 * 4) by lia. by rewrite Z_mod_plus_full.
  - pose proof (even_mod4 o He E) as E2. replace (Z.of_nat (o + (8 + 2))) with (Z.of_nat o + 2 + 2 * 4) by lia. by rewrite Z_mod_plus_full.
Qed.

(** Behind its nops a sequence behaves as it does alone. *)
Lemma sim_padded scratch link A len ins Q n nextP s :
  halves (mem s) Q (replicate n NOP) -> 0 <= Q -> Q + 2 * Z.of_nat n < 2 ^ 32 ->
  sim true scratch link A len ins (Q + 2 * Z.of_nat n) nextP s -> sim true scratch link A len ins Q nextP s.
Proof.
  intros Hh H0 Hlt Hs s1 E. destruct (Hs s1 E) as (k & t & Hr & Ht). exists (n + k)%nat, t. split; [|done].
  by rewrite (arm32_run_app n k _ _ (run_nops n (at_pc Q true s) Q eq_refl eq_refl Hh H0 Hlt)).
Qed.

(** The item at a position of a loaded block. *)
Lemma thumb_block_item vm len its base s i n body :
  Forall lit_in its -> (length (all_bytes its) mod 2 = 0)%nat ->
  loaded32 (mem s) base (thumb_block vm len its) -> base mod 4 = 0 ->
  Z.of_nat (length (thumb_block vm len its)) < 4092 -> its !! i = Some (padded n body) -> lit_in body ->
  match i_lit body with Some (_, dst) => 0 <= dst < 2 ^ 32 | None => True end ->
  let Q := base + new_offset its i in
  let P := Q + 2 * Z.of_nat n in
  (new_offset its i + 2 * Z.of_nat n) mod 4 = 0 ->
  exists D, halves (mem s) Q (replicate n NOP) /\ loaded32 (mem s) P (linked thumb_slot D 0 body) /\ lit_reachable s P D body.
Proof.
  intros HF Heven Hl Hb4 Hsz Hi Hin Hdst Q P Hal. unfold thumb_block in *.
  set (tail := thumb_tail true _ _) in *.
  destruct (block_at thumb_slot its tail base (mem s) i _ thumb_slot4 HF Hl Hi) as (D & H1 & H2 & H3 & H4). fold Q in H1, H4.
  exists (D - 2 * Z.of_nat n). rewrite linked_padded in H1 by done.
  assert (Hp4 : Z.of_nat (length (all_bytes its ++ tail)) mod 4 = 0) by (by apply thumb_literals_aligned).
  split; [exact (loaded_halves _ _ _ _ H1)|]. split.
  - replace P with (Q + Z.of_nat (length (flat 2 (replicate n NOP)))) by (rewrite a32_length_flat, length_replicate; unfold P; lia).
    eapply loaded32_sub; [exact H1| |].
    2:{ rewrite drop_app_length. apply take_ge. reflexivity. }
    rewrite length_app. lia.
  - unfold lit_reachable. cbn [padded i_lit] in H4. unfold lit_in in Hin.
    destruct (i_lit body) as [[k dst]|] eqn:El; [|done]. destruct H4 as [H4 H5].
    replace (P + (D - 2 * Z.of_nat n)) with (Q + D) by (unfold P; lia).
    rewrite wrap_small in H4 by done. pose proof (l32_low _ _ _ Hl) as L0. pose proof (l32_high _ _ _ Hl) as L1.
    assert (Hoff : 0 <= new_offset its i) by (unfold new_offset; lia).
    assert (HnS : new_offset its (S i) <= Z.of_nat (length (all_bytes its ++ tail))).
    { unfold new_offset. rewrite length_app. rewrite <- (take_drop (S i) its) at 2. rewrite all_bytes_app, length_app. lia. }
    rewrite (new_offset_S _ _ _ Hi), length_padded in HnS.
    split_and!; try done; try (unfold Q; lia).
    unfold Q. replace (base + new_offset its i + D) with (base + (new_offset its i + D)) by lia.
    rewrite Z.add_mod, Hb4, Z.add_0_l, Zmod_mod by lia.
    rewrite Z.add_mod, H3, <- Z.add_mod by lia.
    by replace (new_offset its i + (Z.of_nat (length (all_bytes its ++ tail)) - new_offset its i)) with (Z.of_nat (length (all_bytes its ++ tail))) by lia.
Qed.

(** A literal of an item is a literal of the block. *)
Lemma item_lit_in its i it k dst o : its !! i = Some it -> i_lit it = Some (k, dst) -> exists x, In (x, dst) (all_lits o its).
Proof.
  revert i o. induction its as [|it' its IH]; intros [|i] o E El; try discriminate; rewrite all_lits_cons; cbn [lookup list_lookup] in E.
  - injection E as ->. rewrite El. eexists. left. reflexivity.
  - destruct (IH i (o + length (i_bytes it'))%nat E El) as [x Hx]. exists x. apply in_or_app. by right.
Qed.

Lemma block_tail slot its tail :
  slot4 slot -> Forall lit_in its -> take (length tail) (drop (length (all_bytes its)) (block_bytes slot its tail)) = tail.
Proof.
  intros H4 HF. unfold block_bytes. set (l := all_bytes its ++ tail).
  assert (Hlen : length (patch slot (all_lits 0 its) (Z.of_nat (length l)) l) = length l).
  { apply a32_length_patch; [done|]. eapply Forall_impl; [|by apply (all_lits_bounds its 0)]. intros r [_ ?]. unfold l. rewrite length_app. lia. }
  assert (Hl : length l = (length (all_bytes its) + length tail)%nat) by (unfold l; by rewrite length_app).
  rewrite drop_app_le, take_app_le by (rewrite ?length_drop; lia).
  unfold l. rewrite (patch_tail slot H4) by (done || lia). by apply take_ge.
Qed.

Lemma thumb_extent_even fi sz src c : c mod 2 = 0 -> thumb_extent fi sz c src mod 2 = 0.
Proof.
  revert c. induction fi as [|fi IH]; intros c Hc; cbn [thumb_extent]; destruct (c <? sz); try done.
  apply IH, even_add; [done|]. unfold body_length. by destruct (is_thumb2 _).
Qed.

(** The jump back to the byte behind the block. *)
Lemma thumb_jumps_back vm len its base s :
  Forall lit_in its -> (length (all_bytes its) mod 2 = 0)%nat -> (vm + len) mod 2 = 0 ->
  loaded32 (mem s) base (thumb_block vm len its) -> base mod 4 = 0 ->
  base + Z.of_nat (length (thumb_block vm len its)) + 24 < 2 ^ 32 ->
  exists k t, run k (at_pc (base + Z.of_nat (length (all_bytes its))) true s) = Some t /\ pc t = u32 (vm + len) /\
    thumb t = true /\ regs t = regs s /\ flags t = flags s /\ mem t = mem s.
Proof.
  intros HF Heven Hodd Hl Hb4 Hhi. unfold thumb_block in *. set (o := length (all_bytes its)) in *.
  set (tail := thumb_tail true o (vm + len + 1)) in *. pose proof (l32_low _ _ _ Hl) as L0.
  pose proof (block_tail thumb_slot its tail thumb_slot4 HF) as Ht.
  assert (Hlen : (o + length tail <= length (block_bytes thumb_slot its tail))%nat).
  { apply (f_equal length) in Ht. rewrite length_take, length_drop in Ht. unfold tail in *. rewrite length_thumb_tail in *. fold o in Ht. lia. }
  assert (Htail : loaded32 (mem s) (base + Z.of_nat o) tail) by (by apply (loaded32_sub _ _ _ _ (length tail) _ Hl)).
  set (n := if Z.of_nat o mod 4 =? 0 then 0%nat else 1%nat).
  assert (Htl : length tail = (2 * n + 8)%nat).
  { unfold tail. rewrite length_thumb_tail. unfold n. by destruct (Z.of_nat o mod 4 =? 0). }
  assert (E : tail = flat 2 (replicate n NOP ++ t2_lit 15) ++ le_bytes 4 (u32 (vm + len + 1))) by done.
  rewrite E in Htail. pose proof (loaded_halves _ _ _ _ Htail) as Hh. apply halves_app in Hh as [Hn Hlit].
  rewrite length_replicate in Hlit. set (Q := base + Z.of_nat o) in *. set (P := Q + 2 * Z.of_nat n) in *.
  assert (HP4 : P mod 4 = 0).
  { unfold P, Q, n. destruct (Z.eqb_spec (Z.of_nat o mod 4) 0) as [E4|E4].
    - replace (base + Z.of_nat o + 2 * Z.of_nat 0) with (base + Z.of_nat o) by lia. by rewrite Z.add_mod, Hb4, E4 by lia.
    - replace (base + Z.of_nat o + 2 * Z.of_nat 1) with (base + (Z.of_nat o + 2)) by lia.
      by rewrite Z.add_mod, Hb4, (even_mod4 o Heven E4) by lia. }
  assert (Hdata : load32 4 (mem s) (P + 4) = u32 (vm + len) + 1).
  { pose proof (inline_data s Q _ _ Htail ltac:(apply wrap_range; lia)) as Hd. rewrite length_app, length_replicate in Hd.
    rewrite u32_succ_even in Hd by done. rewrite <- Hd. f_equal. unfold P. simpl (length (t2_lit 15)). lia. }
  assert (HQ : 0 <= Q /\ P + 20 < 2 ^ 32) by (unfold P, Q; lia). destruct HQ as [HQ HPhi].
  pose proof (u32_even _ Hodd) as He.
  exists (n + 1)%nat. eexists. split.
  - rewrite (arm32_run_app n 1 _ _ (run_nops n (at_pc Q true s) Q eq_refl eq_refl Hn HQ ltac:(fold P; lia))). fold P.
    apply (run_jump s P ltac:(unfold P; lia) HP4 HPhi _ 0 4 (u32 (vm + len) + 1)); try done; try lia.
    + cbn [pc at_pc]. lia.
    + by rewrite Z.add_0_r.
    + unfold literal_at. rewrite Z.add_0_r. split_and!; try done; try (unfold P; lia). by rewrite Z.add_mod, HP4 by lia.
    + unfold bx_to. rewrite <- Zplus_mod_idemp_l, He. simpl ((0 + 1) mod 2 =? 1). cbn iota. reflexivity.
  - cbn [pc thumb regs flags mem goto at_pc]. split_and!; try done.
    replace (u32 (vm + len) + 1 - 1) with (u32 (vm + len)) by lia. apply wrap_wrap.
Qed.

(** Instructions the relocator does not rewrite. *)
Definition thumb_copied (w : Z) : bool :=
  if is_thumb2 w then bool_decide (thumb2_class (u16 w) (u16 (w >> 16)) = T2_copy)
  else bool_decide (thumb1_class (u16 w) = T1_copy).

Lemma le_bytes_mod n z : le_bytes n (z mod 2 ^ (8 * Z.of_nat n)) = le_bytes n z.
Proof.
  rewrite <- le_val_bytes. pose proof (le_bytes_val (le_bytes n z) (le_bytes_ok n z)) as E. by rewrite length_le_bytes in E.
Qed.

Lemma le_bytes_add n k z : le_bytes (n + k) z = le_bytes n z ++ le_bytes k (z / 2 ^ (8 * Z.of_nat n)).
Proof.
  revert z. induction n as [|n IH]; intros z; [by rewrite Z.div_1_r|]. cbn [Nat.add le_bytes app]. rewrite IH, Zdiv_Zdiv by lia.
  change 256 with (2 ^ 8). rewrite <- Z.pow_add_r by lia. do 5 f_equal. lia.
Qed.

Lemma copied_body vmaddr w body :
  0 <= w < 2 ^ 32 -> thumb_copied w = true -> body_item vmaddr w = Some body ->
  i_lit body = None /\ i_bytes body = le_bytes (Z.to_nat (body_length w)) w.
Proof.
  unfold thumb_copied, body_item, body_length, t2_item, t1_item. intros Hw Hc E.
  destruct (is_thumb2 w); apply bool_decide_eq_true in Hc; rewrite Hc in E; apply (inj Some) in E; subst body; cbn [i_lit i_bytes];
    (split; [done|]).
  - change (Z.to_nat 4) with (2 + 2)%nat. rewrite le_bytes_add. f_equal; [exact (le_bytes_mod 2 w)|].
    rewrite Z.shiftr_div_pow2 by lia. exact (le_bytes_mod 2 (w / 2 ^ 16)).
  - exact (le_bytes_mod 2 w).
Qed.

Lemma block_length_ge slot its tail :
  slot4 slot -> Forall lit_in its -> (length (all_bytes its ++ tail) <= length (block_bytes slot its tail))%nat.
Proof.
  intros H4 HF. unfold block_bytes. rewrite (length_app (patch _ _ _ _)), a32_length_patch; [lia|done|].
  eapply Forall_impl; [|by apply (all_lits_bounds its 0)]. intros r [_ ?]. rewrite length_app. lia.
Qed.

Lemma new_offset_le its i : new_offset its i <= Z.of_nat (length (all_bytes its)).
Proof. unfold new_offset. rewrite <- (take_drop i its) at 2. rewrite all_bytes_app, length_app. lia. Qed.

(** What the theorems ask of a call: a Thumb function whose block is relocated without a fatal error, the literals of
    which are addresses outside of the block, and the result of which is small enough for its literals to be reached. *)
Record thumb_call (buffer vm sz : Z) (code : list Z) (its : list item) : Prop := {
  tc_thumb : buffer mod 2 = 1;
  tc_vm : vm mod 2 = 0;
  tc_code : bytes_ok code;
  tc_size : 0 <= sz;
  tc_size_max : sz + 4 < 2 ^ 31;
  tc_readable : sz + 4 <= Z.of_nat (length code);
  tc_items : thumb_items (Z.to_nat sz) vm sz 0 0 false ∅ code = Some its;
  tc_literals : Forall (fun r => thumb_extent (Z.to_nat sz) sz 0 code <= snd r < 2 ^ 32) (all_lits 0 its);
  tc_small : Z.of_nat (length (thumb_block vm (thumb_extent (Z.to_nat sz) sz 0 code) its)) < 4092;
}.

(** The relocated block in memory, at the address [base]. *)
Record placed (base : Z) (s : state) (block : list Z) : Prop := {
  pl_loaded : loaded32 (mem s) base block;
  pl_aligned : base mod 4 = 0;
  pl_high : base + 4120 < 2 ^ 32;
}.

Lemma thumb_call_returns buffer vm sz code its :
  thumb_call buffer vm sz code its ->
  let len := thumb_extent (Z.to_nat sz) sz 0 code in
  exists m, GenRelocateCode buffer vm sz code true = Ret (len, m) /\ dup m = Ret (map Some (thumb_block vm len its)).
Proof.
  intros [Hbuf Hvm Hok H0 H31 Hlen Hits Hvals Hsz] len. fold len in Hsz.
  destruct (thumb_items_shape _ _ _ _ 0 0 _ _ _ eq_refl Hits) as (S1 & _ & S3).
  destruct (gen_thumb_ok buffer vm sz code true its Hbuf H0 H31 Hlen Hits Hvals) as (m & E & Hm).
  { fold len. unfold thumb_block in Hsz. unfold block_bytes in Hsz. rewrite length_app, a32_length_lit_bytes, a32_length_patch in Hsz.
    - unfold cb_limit. lia.
    - apply thumb_slot4.
    - eapply Forall_impl; [|by apply (all_lits_bounds its 0)]. intros r [_ ?]. rewrite length_app. lia. }
  exists m. split; [exact E|exact (dup_ok _ _ Hm)].
Qed.

Section Block.
Context (buffer vm sz : Z) (code : list Z) (its : list item) (H : thumb_call buffer vm sz code its).
Let len := thumb_extent (Z.to_nat sz) sz 0 code.
Context (base : Z) (s : state) (Hpl : placed base s (thumb_block vm len its)).
Context (i : nat) (c : Z) (Hc : thumb_cursors (Z.to_nat sz) sz 0 code !! i = Some c).
Let w := word_from code c.
Let A := u32 (vm + c).
Let Q := base + new_offset its i.
Let nextP := base + new_offset its (S i).

(** What stands in memory for the instruction at byte [c], the [i]-th of the block: [n] nops and its sequence. *)
Lemma thumb_item_loaded : exists n body D,
  body_item (u32 (A + 4)) w = Some body /\ halves (mem s) Q (replicate n NOP) /\
  loaded32 (mem s) (Q + 2 * Z.of_nat n) (linked thumb_slot D 0 body) /\ lit_reachable s (Q + 2 * Z.of_nat n) D body /\
  (Q + 2 * Z.of_nat n) mod 4 = 0 /\ 0 <= Q /\ Q + 2 * Z.of_nat n + 20 < 2 ^ 32 /\
  nextP = Q + 2 * Z.of_nat n + Z.of_nat (length (i_bytes body)) /\ A mod 2 = 0.
Proof using All.
  destruct H as [Hbuf Hvm Hok H0 H31 Hlen Hits Hvals Hsz]. fold len in Hvals, Hsz. destruct Hpl as [Hl Hb4 Hhi].
  destruct (thumb_items_at _ _ _ _ 0 0 _ _ _ _ _ Hits eq_refl Hc) as (n & body & Hi & Hbody & Hn3 & Hal & Hce).
  destruct (thumb_items_shape _ _ _ _ 0 0 _ _ _ eq_refl Hits) as (S1 & _ & S3).
  destruct (body_shape _ _ _ Hbody) as [Hin _]. change (Z.of_nat 0) with 0 in Hal. rewrite Z.add_0_l in Hal.
  pose proof (thumb_extent_ge (Z.to_nat sz) sz code 0) as Hl0. fold len in Hl0.
  assert (Hdst : match i_lit body with Some (_, dst) => 0 <= dst < 2 ^ 32 | None => True end).
  { destruct (i_lit body) as [[k dst]|] eqn:El; [|done].
    destruct (item_lit_in its i (padded n body) (2 * n + k) dst 0 Hi) as [x Hx]; [cbn [padded i_lit]; by rewrite El|].
    rewrite List.Forall_forall in Hvals. specialize (Hvals _ Hx). cbn [snd] in Hvals. lia. }
  destruct (thumb_block_item vm len its base s i n body S1 S3 Hl Hb4 Hsz Hi Hin Hdst Hal) as (D & Hnop & Hld & Hlit).
  pose proof (l32_low _ _ _ Hl) as L0. assert (Hoff : 0 <= new_offset its i) by (unfold new_offset; lia).
  assert (HnS : new_offset its (S i) <= Z.of_nat (length (thumb_block vm len its))).
  { pose proof (block_length_ge thumb_slot its (thumb_tail true (length (all_bytes its)) (vm + len + 1)) thumb_slot4 S1) as Hge.
    pose proof (new_offset_le its (S i)). unfold thumb_block. rewrite length_app in Hge. lia. }
  rewrite (new_offset_S _ _ _ Hi), length_padded in HnS.
  exists n, body, D. split; [|split_and!; try done; unfold Q, nextP in *].
  - unfold A. rewrite wrap_add_l. exact Hbody.
  - replace (base + new_offset its i + 2 * Z.of_nat n) with (base + (new_offset its i + 2 * Z.of_nat n)) by lia.
    by rewrite Z.add_mod, Hb4, Hal by lia.
  - lia.
  - lia.
  - rewrite (new_offset_S _ _ _ Hi), length_padded. lia.
  - apply u32_even, even_add; [done|by rewrite Z.sub_0_r in Hce].
Qed.

Lemma thumb_item_copied : thumb_copied w = true ->
  loaded32 (mem s) (nextP - body_length w) (le_bytes (Z.to_nat (body_length w)) w) /\
  exists n, halves (mem s) Q (replicate n NOP) /\ Q + 2 * Z.of_nat n = nextP - body_length w.
Proof using All.
  intros Hcp. destruct thumb_item_loaded as (n & body & D & Hbody & Hnop & Hld & Hlit & _ & _ & _ & HnP & _).
  pose proof (word_from_range code c (tc_code _ _ _ _ _ H)) as Hw. fold w in Hw.
  destruct (copied_body _ _ _ Hw Hcp Hbody) as [El Eb]. unfold linked in Hld. rewrite El, Eb in Hld.
  rewrite Eb, length_le_bytes in HnP. pose proof (body_length_range w) as Hbl. rewrite Z2Nat.id in HnP by lia.
  replace (nextP - body_length w) with (Q + 2 * Z.of_nat n) by lia. split; [exact Hld|]. by exists n.
Qed.

Lemma thumb_item_runs ins k : decode_thumb (u16 w) (u16 (w >> 16)) = Some (ins, k) -> thumb_supported A k ins = true ->
  sim true (thumb_scratch ins) (thumb_links ins) A k ins Q nextP s.
Proof using All.
  intros Hdec Hsup. destruct thumb_item_loaded as (n & body & D & Hbody & Hnop & Hld & Hlit & HP4 & HQ & HP & HnP & HA2).
  set (P := Q + 2 * Z.of_nat n) in *.
  apply (sim_padded _ _ _ _ _ _ n); try done; [fold P; lia|]. fold P.
  assert (HP0 : 0 <= P) by (unfold P; lia). assert (HA : 0 <= A < 2 ^ 32) by (apply wrap_range; lia).
  rewrite HnP. unfold body_item in Hbody. unfold decode_thumb in Hdec. rewrite <- is_thumb2_wide in Hdec.
  destruct (is_thumb2 w).
  - destruct (decode_t32 (u16 w) (u16 (w >> 16))) as [ins'|] eqn:Ed; [|done]. cbn [mbind option_bind] in Hdec. injection Hdec as -> <-.
    apply (inj Some) in Hbody. subst body. apply sim_body32; try done.
    unfold linked in Hld. replace (i_lit (t2_item (u32 (A + 4)) (u16 w) (u16 (w >> 16)))) with (@None (nat * Z)) in Hld; [done|].
    unfold t2_item, call_item. by destruct (thumb2_class _ _).
  - destruct (decode_t16 (u16 w)) as [ins'|] eqn:Ed; [|done]. cbn [mbind option_bind] in Hdec. injection Hdec as -> <-.
    eapply (sim_body16 s P A D); try done. apply u16_range.
Qed.
End Block.

(** ** Properties *)

(** C10: Relocated Thumb code is a faithful copy for the encodings the relocator handles.  [GenRelocateCode] returns, and
    wherever the block is placed (4-aligned), running the sequence of a supported instruction has exactly the effect of
    that instruction at its original address: same registers (r12 apart where the sequence uses it as scratch), same flags
    and memory, control at the same absolute target in the same instruction set or, on fall-through, at the sequence of the
    next instruction; a call leaves a return address from which control reaches the next sequence unchanged.  Every
    instruction that is not rewritten stands unchanged behind nops.  Behind the block the jump back reaches the next
    original instruction in Thumb state with nothing changed. *)
Theorem thumb_relocation_simulates buffer vm sz code its :
  thumb_call buffer vm sz code its ->
  let len := thumb_extent (Z.to_nat sz) sz 0 code in
  let block := thumb_block vm len its in
  exists m, GenRelocateCode buffer vm sz code true = Ret (len, m) /\ dup m = Ret (map Some block) /\
  forall base s, placed base s block ->
    (forall i c, thumb_cursors (Z.to_nat sz) sz 0 code !! i = Some c ->
       let w := word_from code c in
       let A := u32 (vm + c) in
       let P := base + new_offset its i in
       let nextP := base + new_offset its (S i) in
       (thumb_copied w = true ->
          loaded32 (mem s) (nextP - body_length w) (le_bytes (Z.to_nat (body_length w)) w) /\
          exists n, halves (mem s) P (replicate n NOP) /\ P + 2 * Z.of_nat n = nextP - body_length w) /\
       (forall ins n, decode_thumb (u16 w) (u16 (w >> 16)) = Some (ins, n) -> thumb_supported A n ins = true ->
          sim true (thumb_scratch ins) (thumb_links ins) A n ins P nextP s)) /\
    exists k t, run k (at_pc (base + Z.of_nat (length (all_bytes its))) true s) = Some t /\ pc t = u32 (vm + len) /\
      thumb t = true /\ regs t = regs s /\ flags t = flags s /\ mem t = mem s.
Proof.
  intros H len block. destruct (thumb_call_returns _ _ _ _ _ H) as (m & E & Hm). exists m. split; [exact E|]. split; [exact Hm|].
  intros base s Hpl. split.
  - intros i c Hc. split; [by eapply thumb_item_copied|by eapply thumb_item_runs].
  - destruct Hpl as [Hl Hb4 Hhi]. destruct (thumb_items_shape _ _ _ _ 0 0 _ _ _ eq_refl (tc_items _ _ _ _ _ H)) as (S1 & _ & S3).
    apply thumb_jumps_back; try done.
    + apply even_add; [exact (tc_vm _ _ _ _ _ H)|by apply thumb_extent_even].
    + pose proof (tc_small _ _ _ _ _ H). fold block. unfold block, len. lia.
Qed.

(** [ldr r0, [pc, #8]; cbz r0, #8; bl #256], then code behind the block. *)
Definition thumb_sample : list Z := flat 2 [0x4802; 0xb110; 0xf000; 0xf880; 0x4770; 0x4770].

Lemma thumb_sample_ok : bytes_ok thumb_sample.
Proof. apply a32_flat_ok. Qed.

(** The second instruction of the block from 0x4000 on, relocated to 0x10000, jumps to the first address behind the
    block. *)
Example thumb_relocation_simulates_witness :
  exists its m, thumb_items 8 0x4000 8 0 0 false ∅ thumb_sample = Some its /\
    GenRelocateCode 0x4001 0x4000 8 thumb_sample true = Ret (8, m) /\
    let s := boot32 0x10000 true (thumb_block 0x4000 8 its) in
    (exists s1 k t, exec 2 (T_CB false 0 4) (at_pc 0x4002 true s) = Some s1 /\
       run k (at_pc (0x10000 + new_offset its 1) true s) = Some t /\
       simulates true false false 0x4004 (0x10000 + new_offset its 2) s1 t) /\
    exists k t, run k (at_pc (0x10000 + Z.of_nat (length (all_bytes its))) true s) = Some t /\ pc t = 0x4008.
Proof.
  destruct (thumb_items 8 0x4000 8 0 0 false ∅ thumb_sample) as [its|] eqn:Hits; [|vm_compute in Hits; discriminate].
  assert (Hc : thumb_call 0x4001 0x4000 8 thumb_sample its).
  { split; [reflexivity|reflexivity|apply thumb_sample_ok|lia|lia|vm_compute; discriminate|exact Hits| |];
      vm_compute in Hits; injection Hits as <-; [|vm_compute; reflexivity].
    repeat (apply Forall_cons; [vm_compute; split; [discriminate|reflexivity]|]). apply Forall_nil. }
  destruct (thumb_relocation_simulates _ _ _ _ _ Hc) as (m & Hm & Hl & Hsim).
  pose proof (tc_small _ _ _ _ _ Hc) as Hsmall. change (thumb_extent (Z.to_nat 8) 8 0 thumb_sample) with 8 in *.
  exists its, m. split; [reflexivity|]. split; [exact Hm|]. intros s.
  destruct (Hsim 0x10000 s) as [Hs Hb]; [split; [apply boot32_loaded; lia|reflexivity|lia]|]. split.
  - eexists. destruct (proj2 (Hs 1%nat 2 eq_refl) (T_CB false 0 4) 2 eq_refl eq_refl _ eq_refl) as (k & t & Hrun & Ht).
    exists k, t. split; [reflexivity|]. split; [exact Hrun|exact Ht].
  - destruct Hb as (k & t & Hrun & Hpc & _). exists k, t. split; [exact Hrun|exact Hpc].
Defined.

(** ** Encodings that are not relocated correctly *)

(** Both conditional branches are rebuilt from 0xe000, the unconditional branch: up to condition 7 the condition has
    become part of the offset. *)
Lemma decode_rebuilt_b cond : 0 <= cond < 8 ->
  let h := 0xe002 + cond * 2 ^ 8 in
  u16 h = h /\ is_wide h = false /\ decode_t16 h = Some (T_B 14 (2 * signed 11 (2 + 256 * cond))).
Proof.
  intros H.
  assert (Hc : cond = 0 \/ cond = 1 \/ cond = 2 \/ cond = 3 \/ cond = 4 \/ cond = 5 \/ cond = 6 \/ cond = 7) by lia.
  by destruct Hc as [->|[->|[->|[->|[->|[->|[->| ->]]]]]]].
Qed.

Lemma class_b_cond h : fld h 12 4 = 13 -> thumb1_class h = T1_b_cond.
Proof.
  intros E1. assert (X : fld h 10 6 <> 17 /\ fld h 11 5 <> 9 /\ fld h 11 5 <> 20) by (revert E1; field_arith).
  destruct X as (X1 & X2 & X3). unfold thumb1_class. rewrite bits_fld by lia. change (15 - 10 + 1) with 6.
  rewrite (class_fld h 0xf800 0x4800 11 5 9), (class_fld h 0xf800 0xa000 11 5 20), (class_fld h 0xf000 0xd000 12 4 13) by done.
  apply Z.eqb_neq in X1, X2, X3. apply Z.eqb_eq in E1. by rewrite X1, X2, X3, E1.
Qed.

Lemma class_b_cond_16 h cond off :
  decode_t16 h = Some (T_B cond off) -> cond < 14 -> thumb1_class h = T1_b_cond /\ bits h 8 11 = cond.
Proof.
  unfold decode_t16. intros E Hc. rewrite bits_fld by lia. change (11 - 8 + 1) with 4.
  destruct (h =? 0xbf00); [done|]. destruct (fld h 11 5 =? 9); [done|]. destruct (fld h 11 5 =? 20); [done|].
  destruct (Z.eqb_spec (fld h 12 4) 13) as [E1|E1].
  - destruct (fld h 8 4 <? 14); [|done]. injection E as <- _. split; [|done].
    by apply class_b_cond.
  - repeat (match type of E with (if ?c then _ else _) = _ => destruct c end; try done). injection E as <- _. lia.
Qed.

Lemma class_b_cond_32 h1 h2 cond off :
  decode_t32 h1 h2 = Some (T_B cond off) -> cond < 14 -> thumb2_class h1 h2 = T2_b_cond /\ bits h1 6 9 = cond.
Proof.
  unfold decode_t32. intros E Hc. rewrite bits_fld by lia. change (9 - 6 + 1) with 4.
  destruct ((fld h1 11 5 =? 30) && (fld h2 15 1 =? 1)) eqn:C.
  - apply andb_true_iff in C as [C1%Z.eqb_eq C2%Z.eqb_eq]. rewrite (class_branch _ _ C1 C2).
    destruct (fld1_cases h2 14) as [E14|E14], (fld1_cases h2 12) as [E12|E12]; rewrite E14, E12 in *; cbn [Z.eqb Pos.eqb andb] in *.
    + destruct (Z.ltb_spec (fld h1 6 4) 14) as [Hl|]; [|done]. injection E as <- _. split; [|done].
      rewrite bits_fld by lia. change (9 - 6 + 1) with 4. change 14 with (Z.shiftl (Z.ones 3) 1).
      rewrite land_fld, shiftl_eqb by lia. replace (fld (fld h1 6 4) 1 3 =? Z.ones 3) with false; [done|].
      symmetry. apply Z.eqb_neq. change (Z.ones 3) with 7. pose proof (fld_range h1 6 4 ltac:(lia)) as Hr.
      revert Hl Hr. generalize (fld h1 6 4). clear. intros x Hl Hr E. revert E. field_arith.
    + injection E as <- _. lia.
    + by destruct (fld h2 0 1 =? 0).
    + done.
  - repeat (match type of E with (if ?c then _ else _) = _ => destruct c end; try done).
Qed.

(** The first halfword of the sequence of a conditional branch. *)
Lemma b_cond_head vmaddr w cond off k body s P D :
  0 <= w < 2 ^ 32 -> decode_thumb (u16 w) (u16 (w >> 16)) = Some (T_B cond off, k) -> cond < 14 ->
  body_item vmaddr w = Some body -> loaded32 (mem s) P (linked thumb_slot D 0 body) -> lit_reachable s P D body ->
  halves (mem s) P [0xe002 + cond * 2 ^ 8] /\ Z.of_nat (length (i_bytes body)) = 8 + 2 * k.
Proof.
  unfold decode_thumb, body_item. rewrite <- is_thumb2_wide. intros Hw Hdec Hc Hb Hl Hr. destruct (is_thumb2 w).
  - destruct (decode_t32 (u16 w) (u16 (w >> 16))) as [ins|] eqn:Ed; [|done]. cbn [mbind option_bind] in Hdec.
    injection Hdec as -> <-. destruct (class_b_cond_32 _ _ _ _ Ed Hc) as [Ec E]. unfold t2_item in Hb. rewrite Ec, E in Hb.
    apply (inj Some) in Hb. subst body. unfold linked in Hl. cbn [i_lit i_bytes] in Hl.
    apply loaded_halves in Hl. cbn [app] in Hl. split; [exact (proj1 (halves_app _ _ [_] _ Hl))|reflexivity].
  - destruct (decode_t16 (u16 w)) as [ins|] eqn:Ed; [|done]. cbn [mbind option_bind] in Hdec.
    injection Hdec as -> <-. destruct (class_b_cond_16 _ _ _ Ed Hc) as [Ec E]. unfold t1_item in Hb. rewrite Ec, E in Hb.
    rewrite (proj2 (Z.leb_gt _ _) Hc) in Hb. apply (inj Some) in Hb. subst body. split; [|reflexivity].
    eapply (body_halves s P D ([_; NOP] ++ B4) 15 [] _ 8) in Hr as [Hh _]; [|lia|reflexivity|exact Hl].
    exact (proj1 (halves_app _ _ [_] _ Hh)).
Qed.

(** C34: The relocated form of a Thumb conditional branch (16 or 32 bits long) with one of the conditions EQ to VC does not
    test its condition: whatever the flags, one jump is made, to a place that the number of the condition determines.  For
    EQ, NE, CS and CC that is 0, 512, 1024 and 1536 bytes behind the place meant for the taken branch, for MI, PL, VS and VC it
    is 2048, 1536, 1024 and 512 bytes before it.  So with EQ the branch is always taken, and with the others
    control leaves the sequence. *)
Theorem thumb_b_cond_ignores_flags buffer vm sz code its base s i c cond off k :
  thumb_call buffer vm sz code its ->
  placed base s (thumb_block vm (thumb_extent (Z.to_nat sz) sz 0 code) its) ->
  thumb_cursors (Z.to_nat sz) sz 0 code !! i = Some c ->
  let w := word_from code c in
  decode_thumb (u16 w) (u16 (w >> 16)) = Some (T_B cond off, k) -> 0 <= cond < 8 ->
  let taken := base + new_offset its (S i) - 2 * k in
  exists n t, run n (at_pc (base + new_offset its i) true s) = Some t /\
    pc t = u32 (taken + (if cond <? 4 then 512 * cond else 512 * cond - 4096)) /\
    thumb t = true /\ regs t = regs s /\ flags t = flags s /\ mem t = mem s.
Proof.
  intros H Hpl Hc w Hdec Hcond taken.
  destruct (thumb_item_loaded _ _ _ _ _ H _ _ Hpl _ _ Hc) as (n & body & D & Hbody & Hnop & Hld & Hlit & HP4 & HQ & HP & HnP & _).
  fold w in Hbody. set (Q := base + new_offset its i) in *. set (P := Q + 2 * Z.of_nat n) in *.
  destruct (b_cond_head _ _ _ _ _ _ _ _ _ (word_from_range code c (tc_code _ _ _ _ _ H)) Hdec ltac:(lia) Hbody Hld Hlit) as [Hh Hlen].
  destruct (decode_rebuilt_b cond Hcond) as (D1 & D2 & D3).
  exists (n + 1)%nat. eexists. split.
  - rewrite (arm32_run_app n 1 _ _ (run_nops n (at_pc Q true s) Q eq_refl eq_refl Hnop HQ ltac:(fold P; lia))). fold P.
    eapply run_S; [|reflexivity].
    etransitivity; [exact (step_narrow (at_pc P true s) (0xe002 + cond * 2 ^ 8) _ eq_refl Hh D1 D2 D3)|reflexivity].
  - cbn [pc thumb regs flags mem jump goto at_pc]. split_and!; try done. f_equal. unfold taken. rewrite HnP, Hlen.
    unfold signed. change (2 ^ (11 - 1)) with 1024. change (2 ^ 11) with 2048.
    destruct (Z.ltb_spec (2 + 256 * cond) 1024), (Z.ltb_spec cond 4); lia.
Qed.

(** [bne] over two instructions, at the start of a block. *)
Definition thumb_bne : list Z := flat 2 [0xd102; 0xbf00; 0xbf00].

(** The conditions of [thumb_call] for a sample block of [n] bytes at 0x4000. *)
Ltac sample_call Hits :=
  split; [reflexivity|reflexivity|apply a32_flat_ok|lia|lia|vm_compute; discriminate|exact Hits| |];
  vm_compute in Hits; injection Hits as <-; [|vm_compute; reflexivity];
  repeat (apply Forall_cons; [vm_compute; split; [discriminate|reflexivity]|]); apply Forall_nil.

Lemma thumb_bne_call its : thumb_items 2 0x4000 2 0 0 false ∅ thumb_bne = Some its -> thumb_call 0x4001 0x4000 2 thumb_bne its.
Proof. intros Hits. sample_call Hits. Qed.

(** Relocated to 0x10000, where the place for the taken branch is 0x1000c, the branch leads to 0x1020c. *)
Example thumb_b_cond_ignores_flags_witness :
  exists its n t, thumb_items 2 0x4000 2 0 0 false ∅ thumb_bne = Some its /\
    run n (boot32 0x10000 true (thumb_block 0x4000 2 its)) = Some t /\ pc t = 0x1020c.
Proof.
  destruct (thumb_items 2 0x4000 2 0 0 false ∅ thumb_bne) as [its|] eqn:Hits; [|vm_compute in Hits; discriminate].
  pose proof (thumb_bne_call its Hits) as Hc.
  assert (Hoff : new_offset its 1 = 16) by (vm_compute in Hits; injection Hits as <-; reflexivity).
  pose proof (tc_small _ _ _ _ _ Hc) as Hsmall. change (thumb_extent (Z.to_nat 2) 2 0 thumb_bne) with 2 in *.
  assert (Hpl : placed 0x10000 (boot32 0x10000 true (thumb_block 0x4000 2 its)) (thumb_block 0x4000 2 its))
    by (split; [apply boot32_loaded; lia|reflexivity|lia]).
  destruct (thumb_b_cond_ignores_flags 0x4001 0x4000 2 thumb_bne its 0x10000 _ 0 0 1 4 2 Hc Hpl eq_refl eq_refl ltac:(lia))
    as (n & t & Hrun & Hpc & _).
  exists its, n, t. split; [reflexivity|]. split; [exact Hrun|]. rewrite Hpc, Hoff. reflexivity.
Defined.

(** A relocated 32-bit ADR has its value, but then runs into the literal: the branch behind the load has offset 0 and
    so leads to the address itself, four bytes in front of the next sequence. *)
Theorem thumb_adr_w_runs_into_literal buffer vm sz code its base s i c :
  thumb_call buffer vm sz code its ->
  placed base s (thumb_block vm (thumb_extent (Z.to_nat sz) sz 0 code) its) ->
  thumb_cursors (Z.to_nat sz) sz 0 code !! i = Some c ->
  let w := word_from code c in
  let rd := bits (u16 (w >> 16)) 8 11 in
  is_thumb2 w = true -> thumb2_class (u16 w) (u16 (w >> 16)) = T2_adr -> rd <> 15 ->
  exists n t, run n (at_pc (base + new_offset its i) true s) = Some t /\
    pc t = base + new_offset its (S i) - 4 /\ thumb t = true /\ load32 4 (mem t) (pc t) = regs t rd.
Proof.
  intros H Hpl Hc w rd Hw Hcl Hrd.
  destruct (thumb_item_loaded _ _ _ _ _ H _ _ Hpl _ _ Hc) as (n & body & D & Hbody & Hnop & Hld & Hlit & HP4 & HQ & HP & HnP & _).
  fold w in Hbody. set (Q := base + new_offset its i) in *. set (P := Q + 2 * Z.of_nat n) in *.
  unfold body_item, t2_item in Hbody. rewrite Hw, Hcl in Hbody. cbn zeta in Hbody. fold rd in Hbody.
  set (v := if bit (u16 w) 7 =? 0 then _ else _) in Hbody.
  assert (Hv : 0 <= v < 2 ^ 32) by (unfold v; destruct (_ =? 0); apply wrap_range; lia).
  apply (inj Some) in Hbody. subst body. unfold linked in Hld. cbn [i_lit i_bytes] in *.
  change [0xf8df; rd * 2 ^ 12 + 4] with (lit_load 8 rd) in *.
  pose proof (inline_data s P _ _ Hld Hv) as Hl. apply loaded_halves in Hld. apply halves_app in Hld as [H1 H2].
  change (2 * Z.of_nat (length (lit_load 8 rd))) with 4 in H2.
  change (2 * Z.of_nat (length (lit_load 8 rd ++ B0))) with 8 in Hl.
  pose proof (bits_16 (u16 (w >> 16)) 8 ltac:(lia)) as Hr. change (8 + 3) with 11 in Hr. fold rd in Hr.
  assert (HP0 : 0 <= P) by (unfold P; lia).
  assert (Hlt : literal_at s P 8 v).
  { unfold literal_at. split_and!; try done; try lia. by rewrite Z.add_mod, HP4 by lia. }
  exists (n + 2)%nat. eexists. split.
  - rewrite (arm32_run_app n 2 _ _ (run_nops n (at_pc Q true s) Q eq_refl eq_refl Hnop HQ ltac:(fold P; lia))). fold P.
    eapply run_S.
    + rewrite (step_lit s P HP0 HP4 HP _ 0 8 rd v); try done; try lia; [|cbn [pc at_pc]; lia|by rewrite Z.add_0_r|by rewrite Z.add_0_r].
      by rewrite (proj2 (Z.eqb_neq _ _) Hrd).
    + eapply run_S; [|reflexivity]. etransitivity; [apply (step_wide _ 0xf000 0xb800 (T_B 14 0)); try done|reflexivity].
      cbn [pc jump goto mem set at_pc]. rewrite wrap_small by lia. by rewrite Z.add_0_r.
  - cbn [pc thumb regs flags mem jump goto at_pc set]. rewrite Z.eqb_refl. rewrite (wrap_small 32 (P + 0 + 4)), wrap_small by lia.
    rewrite HnP. split_and!; [|done|].
    + change (length _) with 12%nat. lia.
    + replace (P + 0 + 4 + 4 + 0) with (P + 8) by lia. exact Hl.
Qed.

(** [adr.w r3, #16] at the start of a block. *)
Definition thumb_adr_w : list Z := flat 2 [0xf20f; 0x0310; 0xbf00; 0xbf00].

Lemma thumb_adr_w_call its :
  thumb_items 4 0x4000 4 0 0 false ∅ thumb_adr_w = Some its -> thumb_call 0x4001 0x4000 4 thumb_adr_w its.
Proof. intros Hits. sample_call Hits. Qed.

Example thumb_adr_w_runs_into_literal_witness :
  exists its n t, thumb_items 4 0x4000 4 0 0 false ∅ thumb_adr_w = Some its /\
    run n (boot32 0x10000 true (thumb_block 0x4000 4 its)) = Some t /\ pc t = 0x1000c /\ load32 4 (mem t) 0x1000c = regs t 3.
Proof.
  destruct (thumb_items 4 0x4000 4 0 0 false ∅ thumb_adr_w) as [its|] eqn:Hits; [|vm_compute in Hits; discriminate].
  pose proof (thumb_adr_w_call its Hits) as Hc.
  assert (Hoff : new_offset its 1 = 16) by (vm_compute in Hits; injection Hits as <-; reflexivity).
  pose proof (tc_small _ _ _ _ _ Hc) as Hsmall. change (thumb_extent (Z.to_nat 4) 4 0 thumb_adr_w) with 4 in *.
  assert (Hpl : placed 0x10000 (boot32 0x10000 true (thumb_block 0x4000 4 its)) (thumb_block 0x4000 4 its))
    by (split; [apply boot32_loaded; lia|reflexivity|lia]).
  destruct (thumb_adr_w_runs_into_literal 0x4001 0x4000 4 thumb_adr_w its 0x10000 _ 0 0 Hc Hpl eq_refl eq_refl eq_refl
              ltac:(vm_compute; discriminate)) as (n & t & Hrun & Hpc & _ & Hl).
  rewrite Hoff in Hpc. exists its, n, t. split; [reflexivity|]. split; [exact Hrun|]. split; [exact Hpc|].
  rewrite Hpc in Hl. exact Hl.
Defined.

(** Whether a 32-bit ADR is relocated depends on a bit of its immediate, which the relocator takes for an opcode bit; for
    the same reason half of the MOVW instructions whose immediate starts with 0xf are relocated as if they were ADR. *)
Theorem thumb_adr_w_class h2 : 0 <= h2 < 0x8000 ->
  thumb2_class 0xf20f h2 = (if bit h2 6 =? 0 then T2_adr else T2_copy) /\
  thumb2_class 0xf24f h2 = (if bit h2 6 =? 0 then T2_adr else T2_copy).
Proof.
  intros H. assert (E : (h2 .& 0x8000 =? 0) = true).
  { rewrite (class_fld h2 0x8000 0 15 1 0) by done. apply Z.eqb_eq. revert H. field_arith. }
  pose proof (proj1 (Z.eqb_eq _ _) E) as E0.
  assert (Eb : (bits h2 5 6 .& 2 =? 0) = (bit h2 6 =? 0)).
  { rewrite bits_fld, bit_fld by lia. change (6 - 5 + 1) with 2. rewrite (class_fld _ 2 0 1 1 0) by done. f_equal. field_arith. }
  unfold thumb2_class. cbn zeta. rewrite E0, Eb. by destruct (bit h2 6 =? 0).
Qed.

(** A Thumb block that starts with a permanently undefined instruction or a supervisor call (0xdeXX, 0xdfXX) ends the
    process: the relocator takes every 0xdXXX for a conditional branch and has no case for these two conditions. *)
Theorem thumb_svc_fatal buffer vm sz code branch :
  buffer mod 2 = 1 -> 0 < sz -> 4 <= Z.of_nat (length code) -> 0xde00 <= u16 (word_from code 0) < 0xe000 ->
  GenRelocateCode buffer vm sz code branch = Fatal.
Proof.
  intros Hbuf Hsz Hlen Hh. unfold GenRelocateCode. rewrite Hbuf. cbn [Z.eqb negb].
  set (ctx0 := Build_relo_ctx_t _ _ _ _ _ _ _ _ _ _ _).
  assert (Hit : thumb_iteration ctx0 = Fatal).
  { assert (Hrep : asm_rep kThumb2LiteralLdr (thumb_view (record_offset ctx0)) [] [])
      by (split; [done|apply new_ok|constructor]).
    destruct (padded_ok t1_nop {| i_bytes := flat 2 [NOP]; i_lit := None |} _ [] [] (appends_emits _ _ _ emits_nop) Hrep eq_refl)
      as (m1 & a' & E1 & _ & E2 & _); [done|].
    unfold thumb_iteration. rewrite E1. cbn [mbind outcome_bind]. rewrite load_insn_ok by exact Hlen. cbn [mbind outcome_bind].
    set (ctx1 := put_thumb _ _). change (source ctx1) with code. change (buffer_cursor ctx1) with 0. set (w := word_from code 0) in *.
    assert (Hn : is_thumb2 w = false).
    { rewrite is_thumb2_wide. unfold is_wide. apply Z.leb_gt. revert Hh. generalize (u16 w). intros x Hh. revert Hh. field_arith. }
    rewrite Hn. unfold Thumb1RelocateSingleInsn. change (thumb_view ctx1) with (with_buffer m1 (thumb_view (record_offset ctx0))).
    destruct (AlignThumbNop (with_buffer m1 (thumb_view (record_offset ctx0)))) as [a| |]; try done. cbn [mbind outcome_bind].
    rewrite T1_fatal; [done|]. unfold t1_item.
    rewrite class_b_cond by (revert Hh; generalize (u16 w); intros x Hh; revert Hh; field_arith). rewrite bits_fld by lia. change (11 - 8 + 1) with 4.
    replace (14 <=? fld (u16 w) 8 4) with true; [done|]. symmetry. apply Z.leb_le. revert Hh. generalize (u16 w). intros x Hh. revert Hh. field_arith. }
  cbn [relocate_remain]. change (curr_state ctx0) with ThumbExecuteState. cbn iota. unfold gen_thumb_relocate_code.
  cbn [thumb_loop]. unfold remaining. change (buffer_cursor ctx0 <? src_size ctx0) with (0 <? sz).
  rewrite (proj2 (Z.ltb_lt _ _) Hsz), Hit. done.
Qed.

(** [svc #0]. *)
Example thumb_svc_fatal_witness : GenRelocateCode 0x4001 0x4000 8 (flat 2 [0xdf00; 0xbf00; 0xbf00; 0xbf00; 0xbf00; 0xbf00]) true = Fatal.
Proof. apply thumb_svc_fatal; [reflexivity|lia|vm_compute; discriminate|vm_compute; split; [discriminate|reflexivity]]. Defined.
