(* ===== verification/Arm32Arm.v ===== *)
(** * Relocated A32 blocks

    The theorems on [GenRelocateCode] in ARM state: what is returned runs like the
    original, and the encodings for which it does not. *)

From stdpp Require Import gmap.
From S2P Require Import Prelude UtilityMacro CodeMemBuffer Arm32Assembler Arm32Relocation Arm32Emission Arm32Block Arm64Machine BitFields Arm32Machine Arm32Simulation Arm32Thumb.
#[local] Open Scope machine_scope.
#[local] Open Scope Z_scope.

(** ** What the relocator takes an encoding for *)

Lemma load_literal_class w :
  is_arm_load_literal w =
    negb (fld w 28 4 =? 15) && (fld w 25 3 =? 2) && (fld w 20 1 =? 1) && negb ((fld w 24 1 =? 0) && (fld w 21 1 =? 1)) && (fld w 16 4 =? 15).
Proof.
  unfold is_arm_load_literal. rewrite !bits_fld, !bit_fld by lia. change (31 - 28 + 1) with 4. change (27 - 25 + 1) with 3.
  change (19 - 16 + 1) with 4. destruct (fld1_cases w 24) as [-> | ->], (fld1_cases w 21) as [-> | ->]; reflexivity.
Qed.

Lemma dp_immediate_class w :
  is_arm_dp_immediate w = negb (fld w 28 4 =? 15) && (fld w 25 3 =? 1) && (fld w 24 1 =? 0).
Proof.
  unfold is_arm_dp_immediate. rewrite !bits_fld, !bit_fld by lia. change (31 - 28 + 1) with 4. change (27 - 25 + 1) with 3.
  change (24 - 23 + 1) with 2. rewrite (class_fld (fld w 23 2) 2 0 1 1 0), (class_fld (fld w 25 3) 6 0 1 2 0) by done.
  replace (fld (fld w 23 2) 1 1) with (fld w 24 1) by field_arith.
  replace (fld w 25 1) with (fld w 25 3 mod 2) by field_arith. pose proof (fld_range w 25 3 ltac:(lia)) as Hr. change (2 ^ 3) with 8 in Hr.
  rewrite <- !andb_assoc. f_equal. rewrite !andb_assoc. f_equal. revert Hr. generalize (fld w 25 3). intros x Hx.
  each_index x 8%nat ltac:(reflexivity).
Qed.

Lemma branch_class w : is_arm_branch w = (fld w 25 3 =? 5).
Proof.
  unfold is_arm_branch. rewrite !bits_fld, !bit_fld by lia. change (27 - 25 + 1) with 3.
  replace (fld w 25 1) with (fld w 25 3 mod 2) by field_arith. pose proof (fld_range w 25 3 ltac:(lia)) as Hr. change (2 ^ 3) with 8 in Hr.
  revert Hr. generalize (fld w 25 3). intros x Hx. each_index x 8%nat ltac:(reflexivity).
Qed.

Lemma ror_expand imm12 : ror_imm imm12 = expand_imm imm12.
Proof.
  unfold ror_imm, expand_imm, ror32. rewrite !bits_fld by lia. change (11 - 8 + 1) with 4. change (7 - 0 + 1) with 8.
  pose proof (fld_range imm12 0 8 ltac:(lia)) as Hx. pose proof (fld_range imm12 8 4 ltac:(lia)) as Hn.
  change (2 ^ 8) with 256 in Hx. change (2 ^ 4) with 16 in Hn. revert Hx Hn. generalize (fld imm12 0 8), (fld imm12 8 4). intros x n Hx Hn.
  destruct (Z.eqb_spec (2 * n) 0) as [E|E].
  - rewrite E. change (2 ^ 0) with 1. rewrite Z.div_1_r, Z.mod_1_r. lia.
  - rewrite Z.shiftr_div_pow2, Z.shiftl_mul_pow2 by lia. set (k := 2 * n) in *.
    assert (Hk : 0 < 2 ^ k) by (apply Z.pow_pos_nonneg; lia). assert (Hk' : 0 < 2 ^ (32 - k)) by (apply Z.pow_pos_nonneg; lia).
    assert (E32 : 2 ^ 32 = 2 ^ k * 2 ^ (32 - k)) by (rewrite <- Z.pow_add_r by lia; f_equal; lia).
    assert (Eu : u32 (x * 2 ^ (32 - k)) = (x mod 2 ^ k) * 2 ^ (32 - k)).
    { unfold u32, wrap. rewrite E32. rewrite Z.mul_mod_distr_r by lia. done. }
    rewrite Eu. assert (H8 : x / 2 ^ k < 2 ^ (32 - k)) by (apply Z.div_lt_upper_bound; nia).
    pose proof (Z.div_pos x (2 ^ k) ltac:(lia) Hk) as H9. pose proof (Z.mod_pos_bound x (2 ^ k) Hk) as H10.
    rewrite Z.lor_comm, lor_low by lia. rewrite wrap_small; [lia|]. rewrite E32. nia.
Qed.

Lemma branch_dst_alt vmaddr w : branch_dst vmaddr w = u32 (vmaddr + 4 * signed 24 (fld w 0 24)).
Proof.
  unfold branch_dst. rewrite bits_fld by lia. change (23 - 0 + 1) with 24. pose proof (fld_range w 0 24 ltac:(lia)) as Hr.
  rewrite Z.shiftl_mul_pow2 by lia. change (2 ^ 2) with 4. rewrite sext_signed_n by lia. do 2 f_equal. unfold signed.
  change (2 ^ (26 - 1)) with (2 ^ 23 * 4). change (2 ^ (24 - 1)) with (2 ^ 23). change (2 ^ 26) with (2 ^ 24 * 4).
  destruct (Z.ltb_spec (fld w 0 24 * 4) (2 ^ 23 * 4)), (Z.ltb_spec (fld w 0 24) (2 ^ 23)); lia.
Qed.

Ltac split_decode E := repeat (match type of E with (if ?c then _ else _) = _ => destruct c eqn:? end; try discriminate).
Ltac eqbs := rewrite ?andb_true_iff, ?negb_true_iff, ?Z.eqb_eq, ?Z.eqb_neq in *.

Lemma item_B vmaddr w cond link off :
  decode_a32 w = Some (A_B cond link off) ->
  arm_item vmaddr w = arm_branch_item link cond (u32 (vmaddr + off)) /\ 0 <= cond < 15 /\ off mod 4 = 0.
Proof.
  unfold decode_a32. cbn zeta. intros E. split_decode E. injection E as <- <- <-. pose proof (fld_range w 28 4 ltac:(lia)) as Hr.
  split; [|split; [eqbs; lia|rewrite Z.mul_comm; apply Z_mod_mult]].
  unfold arm_item. rewrite load_literal_class, dp_immediate_class, branch_class, branch_dst_alt. eqbs. rewrite Heqb0.
  rewrite !bits_fld, !bit_fld by lia. change (31 - 28 + 1) with 4. rewrite (proj2 (Z.eqb_neq _ _) Heqb). done.
Qed.

Lemma item_BLX vmaddr w off :
  decode_a32 w = Some (A_BLX off) -> arm_item vmaddr w = arm_branch_item true 14 (u32 (vmaddr + (off - off mod 4)) .| 1).
Proof.
  unfold decode_a32. cbn zeta. intros E. split_decode E. injection E as <-.
  assert (H0 : 4 * signed 24 (fld w 0 24) + 2 * fld w 24 1 - (4 * signed 24 (fld w 0 24) + 2 * fld w 24 1) mod 4 = 4 * signed 24 (fld w 0 24)).
  { generalize (signed 24 (fld w 0 24)). intros x. destruct (fld1_cases w 24) as [-> | ->]; Z.div_mod_to_equations; lia. }
  rewrite H0. unfold arm_item. rewrite load_literal_class, dp_immediate_class, branch_class, branch_dst_alt. eqbs. rewrite Heqb0.
  rewrite !bits_fld by lia. change (31 - 28 + 1) with 4. rewrite Heqb. done.
Qed.

Lemma item_LDR vmaddr w cond byte rt off :
  decode_a32 w = Some (A_LDR cond byte rt 15 off) -> arm_item vmaddr w = arm_literal_item rt (u32 (vmaddr + off)) /\ 0 <= rt < 16.
Proof.
  unfold decode_a32. cbn zeta. intros E. split_decode E. injection E as E1 E2 E3 E4 E5. subst cond byte rt off.
  pose proof (fld_range w 12 4 ltac:(lia)) as Hr. split; [|exact Hr].
  rewrite !andb_true_iff, negb_true_iff in Heqb2. destruct Heqb2 as [[F20 F24] F21]. unfold flag in F20, F24, F21.
  unfold arm_item. rewrite load_literal_class, Heqb, E4, F20, F21. apply Z.eqb_eq in Heqb1. rewrite Heqb1. cbn [negb andb Z.eqb Pos.eqb].
  rewrite !bits_fld, bit_fld by lia. change (15 - 12 + 1) with 4. change (11 - 0 + 1) with 12. unfold offset_of, flag.
  rewrite !andb_false_r. cbn [negb andb]. by destruct (fld w 23 1 =? 1).
Qed.

Lemma item_ADD vmaddr w cond rd imm :
  decode_a32 w = Some (A_ADD cond rd 15 imm) -> u32 (vmaddr + imm) <> 2 ^ 32 - 1 ->
  arm_item vmaddr w = arm_adr_item rd (u32 (vmaddr + imm)) /\ 0 <= rd < 16.
Proof.
  unfold decode_a32. cbn zeta. intros E Hv. pose proof (fld_range w 12 4 ltac:(lia)) as Hr.
  assert (H : (fld w 28 4 =? 15) = false /\ fld w 16 4 = 15 /\ rd = fld w 12 4 /\
            (fld w 20 8 = 0x28 /\ imm = expand_imm (fld w 0 12) \/ fld w 20 8 = 0x24 /\ imm = - expand_imm (fld w 0 12))).
  { split_decode E; injection E as <- <- <- <-; eqbs; tauto. }
  destruct H as (E1 & E2 & -> & E3). split; [|exact Hr].
  assert (X : fld w 25 3 = 1 /\ fld w 24 1 = 0) by (destruct E3 as [[E3 _]|[E3 _]]; revert E3; field_arith). destruct X as [X1 X2].
  assert (Ead : adr_dst vmaddr w = Some (u32 (vmaddr + imm))).
  { unfold adr_dst. rewrite !bits_fld by lia. change (23 - 20 + 1) with 4. change (19 - 16 + 1) with 4. change (11 - 0 + 1) with 12.
    rewrite ror_expand, E2. cbn [Z.eqb Pos.eqb andb].
    destruct E3 as [[E3 ->]|[E3 ->]].
    - assert (E4 : fld w 20 4 = 8) by (revert E3; field_arith). rewrite E4. cbn [Z.eqb Pos.eqb andb orb].
      by rewrite (proj2 (Z.eqb_neq _ _) Hv).
    - assert (E4 : fld w 20 4 = 4) by (revert E3; field_arith). rewrite E4. cbn [Z.eqb Pos.eqb andb orb].
      replace (vmaddr - expand_imm (fld w 0 12)) with (vmaddr + - expand_imm (fld w 0 12)) by lia.
      by rewrite (proj2 (Z.eqb_neq _ _) Hv). }
  unfold arm_item. rewrite load_literal_class, dp_immediate_class, E1, X1, X2, Ead. cbn [negb andb Z.eqb Pos.eqb].
  rewrite bits_fld by lia. done.
Qed.

Lemma cond_holds_al f : cond_holds f 14 = true.
Proof. done. Qed.

(** ** Emitted instructions *)

(** [ldr r, [pc, #(d - 8)]]: the load of a literal [d] bytes away. *)
Definition arm_lit (d r : Z) : Z :=
  if 0 <? d - 8 then 0xe59f0000 + r * 2 ^ 12 + (d - 8) else 0xe51f0000 + r * 2 ^ 12 + (8 - d).

(** A load with an immediate offset, from its fields. *)
Lemma decode_ldr (up : bool) r rn imm :
  0 <= r < 16 -> 0 <= rn < 16 -> 0 <= imm < 4096 ->
  decode_a32 ((if up then 0xe5900000 else 0xe5100000) + rn * 2 ^ 16 + r * 2 ^ 12 + imm) = Some (A_LDR 14 false r rn (offset_of up imm)).
Proof.
  intros Hr Hn Hi. set (w := _ + imm).
  assert (H : fld w 28 4 = 14 /\ fld w 25 3 = 2 /\ fld w 20 1 = 1 /\ fld w 24 1 = 1 /\ fld w 21 1 = 0 /\ fld w 22 1 = 0 /\
            fld w 12 4 = r /\ fld w 16 4 = rn /\ fld w 0 12 = imm /\ fld w 23 1 = if up then 1 else 0).
  { unfold w. destruct up; split_and!; field_arith. }
  destruct H as (E1 & E2 & E3 & E4 & E5 & E6 & E7 & E8 & E9 & E10).
  unfold decode_a32, flag. cbn zeta. rewrite E1, E2, E3, E4, E5, E6, E7, E8, E9, E10. by destruct up.
Qed.

Lemma decode_arm_ldr r rn : 0 <= r < 16 -> 0 <= rn < 16 -> decode_a32 (arm_ldr r rn) = Some (A_LDR 14 false r rn 0).
Proof.
  intros Hr Hn. pose proof (decode_ldr true r rn 0 Hr Hn ltac:(lia)) as E. cbn [offset_of] in E. rewrite <- E. f_equal. unfold arm_ldr. lia.
Qed.

Lemma decode_arm_lit d r : 0 <= r < 16 -> -4088 < d < 4104 -> decode_a32 (arm_lit d r) = Some (A_LDR 14 false r 15 (d - 8)).
Proof.
  intros Hr Hd. unfold arm_lit. destruct (Z.ltb_spec 0 (d - 8)).
  - pose proof (decode_ldr true r 15 (d - 8) Hr ltac:(lia) ltac:(lia)) as E. cbn [offset_of] in E. rewrite <- E. reflexivity.
  - pose proof (decode_ldr false r 15 (8 - d) Hr ltac:(lia) ltac:(lia)) as E. cbn [offset_of] in E.
    replace (d - 8) with (- (8 - d)) by lia. rewrite <- E. reflexivity.
Qed.

Lemma arm_lit_range d r : 0 <= r < 16 -> -4088 < d < 4104 -> u32 (arm_lit d r) = arm_lit d r.
Proof. intros Hr Hd. apply wrap_small. unfold arm_lit. destruct (0 <? d - 8) eqn:E; lia. Qed.

(** [arm_slot] turns the load of a label into the load at its distance. *)
Lemma slot_arm_lit d r : 0 <= r < 16 -> -4088 < d < 4104 -> arm_slot d (le_bytes 4 (arm_ldr r 15)) = le_bytes 4 (arm_lit d r).
Proof.
  intros Hr Hd. unfold arm_slot. f_equal. rewrite le_val_bytes. change (2 ^ (8 * Z.of_nat 4)) with (2 ^ 32).
  rewrite Z.mod_small by (unfold arm_ldr; lia).
  assert (Hset : forall (up : bool) imm, 0 <= imm < 4096 ->
            set_bits (set_bit (arm_ldr r 15) 23 (if up then 1 else 0)) 0 11 imm
            = (if up then 0xe59f0000 else 0xe51f0000) + r * 2 ^ 12 + imm).
  { intros up imm Hi.
    assert (E : set_bit (arm_ldr r 15) 23 (if up then 1 else 0) = ((if up then 0xe59f0 else 0xe51f0) + r) * 2 ^ 12)
      by (destruct up; each_index r 16%nat ltac:(vm_compute; reflexivity)).
    rewrite E. unfold set_bits. rewrite Z.shiftl_0_r. change (submask (11 - 0)) with (Z.ones 12).
    rewrite Z.shiftl_0_r, Z.land_comm, <- Z.ldiff_land, Z.ldiff_ones_r, Z.shiftr_div_pow2, Z.shiftl_mul_pow2, Z.div_mul by lia.
    rewrite lor_low by lia. rewrite wrap_small; destruct up; lia. }
  unfold arm_lit. destruct (Z.ltb_spec 0 (d - 8)).
  - by rewrite (Hset true) by lia.
  - rewrite (Hset false) by lia. lia.
Qed.

(** ** Sequences *)

Lemma words_app m P ws ws' : words m P (ws ++ ws') -> words m P ws /\ words m (P + 4 * Z.of_nat (length ws)) ws'.
Proof.
  intros H. split; intros j h E.
  - apply H. by apply lookup_app_l_Some.
  - replace (P + 4 * Z.of_nat (length ws) + 4 * Z.of_nat j) with (P + 4 * Z.of_nat (length ws + j)) by lia.
    apply H. rewrite lookup_app_r by lia. by replace (length ws + j - length ws)%nat with j by lia.
Qed.

Section Arm.
Context (s : state) (P : Z).
Context (HP0 : 0 <= P) (HP4 : P mod 4 = 0) (HP : P + 24 < 2 ^ 32).

(** The instruction [j] of a sequence. *)
Lemma step_word ws j w i s0 :
  words (mem s) P ws -> ws !! j = Some w -> u32 w = w -> decode_a32 w = Some i ->
  pc s0 = P + 4 * Z.of_nat j -> thumb s0 = false -> mem s0 = mem s -> step s0 = exec 4 i s0.
Proof. intros Hw Hj Hu Hd Hp Ht Hm. apply (step_arm s0 w); try done. by rewrite Hm, Hp, (Hw _ _ Hj). Qed.

(** A literal at distance [d] from the load at [Q]. *)
Definition arm_literal_at (Q d dst : Z) : Prop :=
  0 <= Q + d < 2 ^ 32 /\ (Q + d) mod 4 = 0 /\ -4088 < d < 4104 /\ load32 4 (mem s) (Q + d) = dst.

Lemma step_arm_lit ws d r dst s0 :
  words (mem s) P ws -> ws !! 0%nat = Some (arm_lit d r) -> 0 <= r < 16 -> arm_literal_at P d dst ->
  pc s0 = P -> thumb s0 = false -> mem s0 = mem s ->
  step s0 = if r =? 15 then bx_to dst s0 else Some (jump (P + 4) (set r dst s0)).
Proof.
  intros Hw Hj Hr (Hrng & H4 & Hd & Hl) Hp Ht Hm.
  rewrite (step_word ws 0 (arm_lit d r) _ s0 Hw Hj (arm_lit_range _ _ Hr Hd) (decode_arm_lit _ _ Hr Hd)) by (done || lia).
  cbn [exec]. unfold conditional, load_to, get, pc_value. change (cond_holds (flags s0) 14) with true. cbn iota.
  change (15 =? 15) with true. cbn iota. rewrite Ht, Hp, Hm, wrap_add_l. replace (P + 8 + (d - 8)) with (P + d) by lia.
  rewrite (wrap_small 32 (P + d)) by done. by rewrite H4, Hl.
Qed.

(** [ldr pc, [pc, #-4]] and its literal, at offset [j] of a sequence. *)
Lemma step_ldr_pc ws j dst s0 :
  words (mem s) P ws -> ws !! j = Some 0xe51ff004 -> ws !! S j = Some dst -> 0 <= dst < 2 ^ 32 -> (j < 4)%nat ->
  pc s0 = P + 4 * Z.of_nat j -> thumb s0 = false -> mem s0 = mem s -> step s0 = bx_to dst s0.
Proof.
  intros Hw Hj Hj' Hd Hj4 Hp Ht Hm. rewrite (step_word ws j 0xe51ff004 (A_LDR 14 false 15 15 (-4)) s0 Hw Hj) by done.
  cbn [exec]. unfold conditional, load_to, get, pc_value. change (cond_holds (flags s0) 14) with true. cbn iota.
  change (15 =? 15) with true. cbn iota. rewrite Ht, Hp, Hm, wrap_add_l.
  replace (P + 4 * Z.of_nat j + 8 + -4) with (P + 4 * Z.of_nat (S j)) by lia. rewrite (wrap_small 32) by lia.
  replace ((P + 4 * Z.of_nat (S j)) mod 4) with 0 by (rewrite Z.mul_comm, Z_mod_plus_full; done). cbn [Z.eqb].
  by rewrite (Hw _ _ Hj'), wrap_small.
Qed.
End Arm.

Section ArmSim.
Context (s : state) (P A : Z).
Context (HP0 : 0 <= P) (HP4 : P mod 4 = 0) (HP : P + 24 < 2 ^ 32).
Context (HA : 0 <= A < 2 ^ 32) (HA4 : A mod 4 = 0).

(** What the relocator puts for a branch to [dst]. *)
Definition branch_words (link : bool) (cond dst : Z) : list Z :=
  [(if link then 0x0b000000 else 0x0a000000) + cond * 2 ^ 28; 0xea000001; 0xe51ff004; dst; 0xe1a08008].

Lemma decode_branch_word (link : bool) cond : 0 <= cond < 15 ->
  let w := (if link then 0x0b000000 else 0x0a000000) + cond * 2 ^ 28 in
  u32 w = w /\ decode_a32 w = Some (A_B cond link 0).
Proof.
  intros Hc. split; [apply wrap_small; destruct link; lia|].
  destruct link; each_index cond 15%nat ltac:(reflexivity).
Qed.

(** From the second word on: over the literal. *)
Lemma run_over_literal link cond dst s0 :
  words (mem s) P (branch_words link cond dst) -> pc s0 = P + 4 -> thumb s0 = false -> mem s0 = mem s ->
  exists t, run 2 s0 = Some t /\ pc t = P + 20 /\ thumb t = false /\ (forall r, regs t r = regs s0 r) /\
    flags t = flags s0 /\ mem t = mem s.
Proof.
  intros Hw Hp Ht Hm. eexists. split.
  - eapply run_S; [rewrite (step_word s P _ 1 0xea000001 (A_B 14 false 4) s0 Hw) by (done || lia); reflexivity|].
    eapply run_S; [|reflexivity].
    rewrite (step_word s P _ 4 0xe1a08008 (A_MOV 14 8 8) _ Hw); try done.
    cbn [pc jump goto]. rewrite Hp, wrap_small; lia.
  - cbn [pc thumb regs flags mem jump goto set]. rewrite Hp, (wrap_small 32 (P + 4 + 8 + 4)), wrap_small by lia. rewrite Ht.
    split_and!; try done; [lia|]. intros r. cbn [get Z.eqb Pos.eqb]. by destruct (Z.eqb_spec r 8) as [->|].
Qed.

Lemma arm_call_resumes cond dst :
  words (mem s) P (branch_words true cond dst) -> resumes false (P + 4) (P + 20) (mem s).
Proof.
  intros Hw s' Hm. exists 2%nat.
  assert (E4 : (P + 4) mod 4 = 0) by (by rewrite Z.add_mod, HP4 by lia).
  assert (E2 : (P + 4) mod 2 = 0).
  { pose proof (Z.div_mod (P + 4) 4 ltac:(lia)) as E. rewrite E4 in E. symmetry. apply Z.mod_unique with (2 * ((P + 4) / 4)); lia. }
  assert (Hp : pc (goto (P + 4) false s') = P + 4) by (cbn [pc goto]; rewrite wrap_small; lia).
  destruct (run_over_literal _ _ _ (goto (P + 4) false s') Hw Hp eq_refl Hm) as (t & Hr & Ht1 & Ht2 & Ht3 & Ht4 & Ht5).
  exists (goto (P + 4) false s'), t. split; [unfold bx_to; by rewrite E2, E4|]. split_and!; done.
Qed.

(** The state in which a branch is taken. *)
Definition linked_state (link : bool) (v : Z) (s : state) : state := if link then set 14 v s else s.

Lemma sim_arm_branch ins link cond dst :
  0 <= cond < 15 -> 0 <= dst < 2 ^ 32 ->
  exec 4 ins (at_pc A false s) =
    (if cond_holds (flags s) cond then bx_to dst (linked_state link (u32 (A + 4)) (at_pc A false s))
     else Some (jump (A + 4) (at_pc A false s))) ->
  words (mem s) P (branch_words link cond dst) -> sim false false link A 4 ins P (P + 20) s.
Proof.
  intros Hc Hd Hex Hw s1 E. rewrite Hex in E. destruct (decode_branch_word link cond Hc) as [D1 D2].
  pose proof (step_word s P _ 0 _ _ (at_pc P false s) Hw eq_refl D1 D2 ltac:(cbn [pc at_pc]; lia) eq_refl eq_refl) as Es.
  cbn [exec] in Es. unfold conditional in Es. change (flags (at_pc P false s)) with (flags s) in Es.
  destruct (cond_holds (flags s) cond).
  - set (s2 := jump (pc (at_pc P false s) + 8 + 0) _) in Es.
    assert (Hs2 : pc s2 = P + 4 * Z.of_nat 2 /\ thumb s2 = false /\ mem s2 = mem s /\ flags s2 = flags s /\
              regs s2 = regs (linked_state link (P + 4) s)).
    { unfold s2, linked_state. cbn [pc at_pc]. split_and!; destruct link; try done; cbn [pc jump goto at_pc].
      - rewrite wrap_small; lia.
      - rewrite wrap_small; lia.
      - cbn [regs jump goto set at_pc pc]. by rewrite (wrap_small 32 (P + 4)) by lia. }
    destruct Hs2 as (S1 & S2 & S3 & S4 & S5). destruct (bx_to_same _ _ s2 _ E) as (t & Ht & Htp & Htt).
    destruct (bx_to_regs _ _ _ Ht) as (Br & Bf & Bm). destruct (bx_to_regs _ _ _ E) as (Cr & Cf & Cm).
    exists 2%nat, t. split.
    + eapply run_S; [exact Es|]. cbn [run]. rewrite (step_ldr_pc s P HP0 HP4 HP _ 2 dst s2 Hw eq_refl eq_refl Hd); try done; [by rewrite Ht|lia].
    + split.
      * intros r _ Hr. rewrite Br, S5, Cr. unfold linked_state. destruct link; [|done]. destruct Hr as [|Hr]; [done|].
        cbn [regs set at_pc]. by destruct (Z.eqb_spec r 14).
      * intros ->. right. rewrite Br, S5, Cr, Cm. cbn [linked_state regs set at_pc mem]. split; [done|].
        change (14 =? 14) with true. cbn iota. by apply (arm_call_resumes cond dst).
      * rewrite Bf, S4, Cf. by destruct link.
      * rewrite Bm, S3, Cm. by destruct link.
      * left. by split.
  - injection E as <-.
    destruct (run_over_literal link cond dst (jump (pc (at_pc P false s) + 4) (at_pc P false s)) Hw) as (t & Hr & Ht1 & Ht2 & Ht3 & Ht4 & Ht5);
      try done; [cbn [pc jump goto at_pc]; rewrite wrap_small; lia|].
    exists 3%nat, t. split; [eapply run_S; [exact Es|exact Hr]|]. split; try done.
    + intros _. left. apply Ht3.
    + right. by split.
Qed.

(** The address of a literal, then the word at it. *)
Lemma sim_arm_ldr rt off d :
  0 <= rt < 16 -> let dst := u32 (u32 (A + 8) + off) in let r := if rt =? 15 then 12 else rt in
  words (mem s) P [arm_lit d r; arm_ldr rt r] -> arm_literal_at s P d dst ->
  sim false (rt =? 15) false A 4 (A_LDR 14 false rt 15 off) P (P + 8) s.
Proof.
  intros Hrt dst r Hw Hl s1 E. assert (Hr : 0 <= r < 15) by (unfold r; destruct (Z.eqb_spec rt 15); lia).
  pose proof (step_arm_lit s P _ d r dst (at_pc P false s) Hw eq_refl ltac:(lia) Hl eq_refl eq_refl eq_refl) as E1.
  rewrite (proj2 (Z.eqb_neq r 15) ltac:(lia)) in E1. set (s2 := jump (P + 4) _) in E1.
  assert (Hp2 : pc s2 = P + 4 * Z.of_nat 1) by (cbn [s2 pc jump goto]; rewrite wrap_small; lia).
  assert (Ew : u32 (arm_ldr rt r) = arm_ldr rt r) by (apply wrap_small; unfold arm_ldr; lia).
  pose proof (step_word s P _ 1 _ _ s2 Hw eq_refl Ew (decode_arm_ldr rt r Hrt ltac:(lia)) Hp2 eq_refl eq_refl) as E2.
  cbn [exec] in E, E2. unfold conditional in E, E2. rewrite !cond_holds_al in E, E2. unfold load_to in E, E2.
  assert (Ea : u32 (get s2 r + 0) = dst).
  { unfold get. rewrite (proj2 (Z.eqb_neq r 15) ltac:(lia)). cbn [s2 regs jump goto set]. rewrite Z.eqb_refl, Z.add_0_r.
    unfold dst. apply wrap_wrap. }
  assert (Eo : u32 (get (at_pc A false s) 15 + off) = dst) by done.
  rewrite Ea in E2. rewrite Eo in E. change (mem s2) with (mem s) in E2. change (mem (at_pc A false s)) with (mem s) in E.
  destruct (Z.eqb_spec rt 15) as [E15|E15].
  - destruct (dst mod 4 =? 0); [|done]. destruct (bx_to_same _ _ s2 _ E) as (t & Ht & Htp & Htt).
    destruct (bx_to_regs _ _ _ Ht) as (Br & Bf & Bm). destruct (bx_to_regs _ _ _ E) as (Cr & Cf & Cm).
    exists 2%nat, t. split; [eapply run_S; [exact E1|]; cbn [run]; by rewrite E2, Ht|]. split; try done; [| | |by left].
    + intros q [|Hq] _; [done|]. rewrite Br, Cr. cbn [s2 regs jump goto set at_pc]. by destruct (Z.eqb_spec q r).
    + by rewrite Bf, Cf.
    + by rewrite Bm, Cm.
  - injection E as <-. eexists 2%nat, _. split; [eapply run_S; [exact E1|]; cbn [run]; rewrite E2; reflexivity|].
    split; try done; [|right; cbn [pc thumb jump goto at_pc set]; split_and!; try done; rewrite Hp2, wrap_small; lia].
    intros q _ _. cbn [s2 regs jump goto set at_pc]. unfold r. by destruct (q =? rt).
Qed.

(** The value of an ADR is loaded. *)
Lemma sim_arm_adr rd imm d :
  0 <= rd < 16 -> let dst := u32 (u32 (A + 8) + imm) in
  words (mem s) P [arm_lit d rd] -> arm_literal_at s P d dst ->
  sim false false false A 4 (A_ADD 14 rd 15 imm) P (P + 4) s.
Proof.
  intros Hrd dst Hw Hl s1 E.
  pose proof (step_arm_lit s P _ d rd dst (at_pc P false s) Hw eq_refl ltac:(lia) Hl eq_refl eq_refl eq_refl) as E1.
  cbn [exec] in E. unfold conditional in E. rewrite cond_holds_al in E. unfold result_to in E.
  assert (Eo : u32 (get (at_pc A false s) 15 + imm) = dst) by done. rewrite Eo in E. cbn [thumb at_pc] in E.
  destruct (rd =? 15).
  - destruct (bx_to_same _ _ (at_pc P false s) _ E) as (t & Ht & Htp & Htt).
    destruct (bx_to_regs _ _ _ Ht) as (Br & Bf & Bm). destruct (bx_to_regs _ _ _ E) as (Cr & Cf & Cm).
    exists 1%nat, t. split; [cbn [run]; by rewrite E1, Ht|]. split; try done; [| | |by left].
    + intros q _ _. by rewrite Br, Cr.
    + by rewrite Bf, Cf.
    + by rewrite Bm, Cm.
  - injection E as <-. eexists 1%nat, _. split; [cbn [run]; rewrite E1; reflexivity|].
    split; try done. right. cbn [pc thumb jump goto at_pc set]. split_and!; try done; rewrite wrap_small; lia.
Qed.

(** *** By instruction *)

(** The encodings that are rewritten, and what the relocator takes them for: it looks at the condition of a branch only,
    takes every literal load for the load of a word and does not look at the last bit of the offset of BLX. *)
Definition arm_rewritten (ins : insn) : bool :=
  match ins with
  | A_B _ _ _ | A_BLX _ => true
  | A_LDR _ _ _ rn _ => rn =? 15
  | A_ADD _ _ rn imm => (rn =? 15) && negb (u32 (u32 (A + 8) + imm) =? 2 ^ 32 - 1)
  | _ => false
  end.
Definition taken_for (ins : insn) : insn :=
  match ins with
  | A_BLX off => A_BLX (off - off mod 4)
  | A_LDR _ _ rt rn off => A_LDR 14 false rt rn off
  | A_ADD _ rd rn imm => A_ADD 14 rd rn imm
  | _ => ins
  end.
(** Those that are relocated correctly. *)
Definition arm_supported (ins : insn) : bool := arm_rewritten ins && bool_decide (taken_for ins = ins).
Definition arm_scratch (ins : insn) : bool := match ins with A_LDR _ _ rt _ _ => rt =? 15 | _ => false end.
Definition arm_links (ins : insn) : bool := match ins with A_B _ link _ => link | A_BLX _ => true | _ => false end.

(** The literal of an item at [P], [D] bytes away from it. *)
Definition arm_reachable (D : Z) (it : item) : Prop :=
  match i_lit it with
  | Some (_, dst) => arm_literal_at s P D dst
  | None => True
  end.

Lemma linked_arm_lit D r post dst :
  0 <= r < 16 -> -4088 < D < 4104 ->
  linked arm_slot D 0 {| i_bytes := flat 4 (arm_ldr r 15 :: post); i_lit := Some (0%nat, dst) |} = flat 4 (arm_lit D r :: post).
Proof.
  intros Hr Hd. unfold linked. cbn [i_lit i_bytes]. change (0 + Z.of_nat 0) with 0. rewrite Z.sub_0_r.
  unfold flat. cbn [map concat]. unfold slot_at. rewrite drop_0.
  rewrite take_app_length' by (by rewrite length_le_bytes). rewrite slot_arm_lit by done.
  unfold splice. rewrite take_0, length_le_bytes. cbn [Nat.add app].
  by rewrite drop_app_length' by (by rewrite length_le_bytes).
Qed.

Lemma target_mod4 off : off mod 4 = 0 -> u32 (u32 (A + 8) + off) mod 4 = 0.
Proof using HA4. intros H. rewrite u32_mod4, Z.add_mod, u32_mod4, H by lia. rewrite (Z.add_mod A 8), HA4 by lia. done. Qed.

Lemma target_even off : off mod 4 = 0 -> u32 (u32 (A + 8) + off) mod 2 = 0.
Proof using HA4.
  intros H. pose proof (target_mod4 off H) as E4. set (x := u32 _) in *.
  pose proof (Z.div_mod x 4 ltac:(lia)) as E. rewrite E4 in E. symmetry. apply Z.mod_unique with (2 * (x / 4)); lia.
Qed.

Lemma sim_arm_item w D ins :
  decode_a32 w = Some ins -> arm_rewritten ins = true ->
  let it := arm_item (u32 (A + 8)) w in
  loaded32 (mem s) P (linked arm_slot D 0 it) -> arm_reachable D it ->
  sim false (arm_scratch ins) (arm_links ins) A 4 (taken_for ins) P (P + Z.of_nat (length (i_bytes it))) s.
Proof.
  intros Hdec Hsup it Hld Hlit. unfold it in *. clear it.
  destruct ins as [cond link off|off|cond byte rt rn off|cond rd rn imm| | | | | | | | | | | | |]; try discriminate Hsup;
    cbn [arm_rewritten taken_for arm_scratch arm_links] in *.
  - destruct (item_B (u32 (A + 8)) w cond link off Hdec) as (Ei & Hc & Ho). rewrite Ei in *. unfold linked in Hld. cbn [i_lit i_bytes arm_branch_item] in *.
    rewrite <- (app_nil_r (flat 4 _)) in Hld. pose proof (loaded_words _ _ _ _ Hld) as Hw.
    change (Z.of_nat (length (flat 4 _))) with 20.
    apply (sim_arm_branch _ link cond (u32 (u32 (A + 8) + off)) Hc ltac:(apply wrap_range; lia)); [|exact Hw].
    cbn [exec]. unfold conditional, bx_to. rewrite (target_even off Ho), (target_mod4 off Ho). cbn [Z.eqb].
    change (flags (at_pc A false s)) with (flags s). destruct (cond_holds (flags s) cond); [|done].
    unfold jump, goto, linked_state. cbn [pc at_pc]. rewrite wrap_add_l, wrap_wrap. by destruct link.
  - pose proof (item_BLX (u32 (A + 8)) w off Hdec) as Ei.
    assert (H4 : (off - off mod 4) mod 4 = 0) by (rewrite Zminus_mod, Zmod_mod, Z.sub_diag; done). revert H4 Ei.
    generalize (off - off mod 4). clear Hdec off. intros off H4 Ei. rewrite Ei in *. unfold linked in Hld. cbn [i_lit i_bytes arm_branch_item] in *.
    rewrite <- (app_nil_r (flat 4 _)) in Hld. pose proof (loaded_words _ _ _ _ Hld) as Hw.
    change (Z.of_nat (length (flat 4 _))) with 20.
    pose proof (wrap_range 32 (u32 (A + 8) + off) ltac:(lia)) as Hr.
    apply (sim_arm_branch _ true 14 (u32 (u32 (A + 8) + off) .| 1) ltac:(lia) (lor1_range _ Hr)); [|exact Hw].
    cbn [exec]. rewrite cond_holds_al, bx_to_odd by (done || by apply target_even). unfold goto, linked_state.
    cbn [pc at_pc set]. rewrite wrap_add_l, wrap_wrap. done.
  - apply Z.eqb_eq in Hsup. subst rn.
    destruct (item_LDR (u32 (A + 8)) w cond byte rt off Hdec) as (Ei & Hrt). rewrite Ei in *. unfold arm_literal_item in *. cbn zeta in *.
    set (r := if rt =? 15 then 12 else rt) in *. assert (Hr : 0 <= r < 16) by (unfold r; destruct (Z.eqb_spec rt 15); lia).
    unfold arm_reachable in Hlit. cbn [i_lit i_bytes] in *. pose proof Hlit as (_ & _ & Hd & _).
    rewrite linked_arm_lit in Hld by done. rewrite <- (app_nil_r (flat 4 _)) in Hld. pose proof (loaded_words _ _ _ _ Hld) as Hw.
    change (Z.of_nat (length (flat 4 _))) with 8. by apply (sim_arm_ldr rt off D).
  - rewrite andb_true_iff, negb_true_iff, Z.eqb_eq, Z.eqb_neq in Hsup. destruct Hsup as (-> & Hne).
    destruct (item_ADD (u32 (A + 8)) w cond rd imm Hdec Hne) as (Ei & Hrd). rewrite Ei in *. unfold arm_adr_item in *.
    unfold arm_reachable in Hlit. cbn [i_lit i_bytes] in *. pose proof Hlit as (_ & _ & Hd & _).
    rewrite linked_arm_lit in Hld by done. rewrite <- (app_nil_r (flat 4 _)) in Hld. pose proof (loaded_words _ _ _ _ Hld) as Hw.
    change (Z.of_nat (length (flat 4 _))) with 4. by apply (sim_arm_adr rd imm D).
Qed.
End ArmSim.

(** ** Blocks *)

(** The relocated block of [n] instructions with its jump back. *)
Definition arm_block (vm : Z) (code : list Z) (n : nat) : list Z :=
  block_bytes arm_slot (arm_items n vm 0 code) (arm_tail true (vm + 4 * Z.of_nat n)).

(** What the theorems ask of a call, as for Thumb; [n] instructions cover the requested size. *)
Record arm_call (buffer vm sz : Z) (code : list Z) (n : nat) : Prop := {
  ac_arm : buffer mod 2 = 0;
  ac_vm : vm mod 4 = 0;
  ac_code : bytes_ok code;
  ac_size : 4 * Z.of_nat n - 4 < sz <= 4 * Z.of_nat n;
  ac_positive : 0 < sz;
  ac_readable : 4 * Z.of_nat n <= Z.of_nat (length code);
  ac_literals : Forall (fun r => 4 * Z.of_nat n <= snd r < 2 ^ 32) (all_lits 0 (arm_items n vm 0 code));
  ac_small : Z.of_nat (length (arm_block vm code n)) < 4092;
}.

Lemma arm_items_lookup n vm src : forall c i, (i < n)%nat ->
  arm_items n vm c src !! i = Some (arm_item (u32 (vm + (c + 4 * Z.of_nat i) + 8)) (word_from src (c + 4 * Z.of_nat i))).
Proof.
  induction n as [|n IH]; intros c [|i] Hi; [lia|lia| |]; cbn [arm_items lookup list_lookup].
  - change (4 * Z.of_nat 0) with 0. by rewrite Z.add_0_r.
  - change (list_lookup i (arm_items n vm (c + 4) src)) with (arm_items n vm (c + 4) src !! i). rewrite IH by lia.
    by replace (c + 4 + 4 * Z.of_nat i) with (c + 4 * Z.of_nat (S i)) by lia.
Qed.

Lemma arm_items_take n vm src : forall c i, (i <= n)%nat -> take i (arm_items n vm c src) = arm_items i vm c src.
Proof. induction n as [|n IH]; intros c [|i] Hi; try done; [lia|]. cbn [arm_items take]. by rewrite IH by lia. Qed.

Lemma arm_items_length n vm src c : length (arm_items n vm c src) = n.
Proof. revert c. induction n as [|n IH]; intros c; [done|]. cbn [arm_items length]. by rewrite IH. Qed.

Lemma arm_offset_mod4 n vm src i : (i <= n)%nat -> new_offset (arm_items n vm 0 src) i mod 4 = 0.
Proof.
  intros Hi. unfold new_offset. rewrite arm_items_take by done. apply of_nat_mod4.
  by destruct (arm_items_shape i vm src 0 0 eq_refl) as (_ & _ & H).
Qed.

Lemma arm_block_length vm code n :
  let its := arm_items n vm 0 code in
  (length (arm_block vm code n) = length (all_bytes its ++ arm_tail true (vm + 4 * Z.of_nat n)) + 4 * length (all_lits 0 its))%nat.
Proof.
  intros its. unfold arm_block. fold its. destruct (arm_items_shape n vm code 0 0 eq_refl) as (S1 & _). fold its in S1.
  unfold block_bytes. rewrite (length_app (patch _ _ _ _)), a32_length_lit_bytes, a32_length_patch; [done|apply arm_slot4|].
  eapply Forall_impl; [|by apply (all_lits_bounds its 0)]. intros r [_ ?]. rewrite length_app. lia.
Qed.

(** Instructions the relocator does not rewrite. *)
Definition arm_copied (w : Z) : bool :=
  negb (is_arm_load_literal w) && negb (is_arm_branch w) &&
  negb (is_arm_dp_immediate w && (bits w 16 19 =? 15) && ((bits w 20 23 =? 4) || (bits w 20 23 =? 8))).

Lemma arm_copied_item vmaddr w : arm_copied w = true -> arm_item vmaddr w = {| i_bytes := le_bytes 4 w; i_lit := None |}.
Proof.
  unfold arm_copied, arm_item, adr_dst. intros H. rewrite !andb_true_iff, !negb_true_iff in H. destruct H as ((-> & ->) & H).
  destruct (is_arm_dp_immediate w); [|done]. cbn [andb] in H. by rewrite H.
Qed.

Section Block.
Context (buffer vm sz : Z) (code : list Z) (n : nat) (H : arm_call buffer vm sz code n).
Let its := arm_items n vm 0 code.
Context (base : Z) (s : state) (Hpl : placed base s (arm_block vm code n)).

Lemma arm_item_loaded i : (i < n)%nat ->
  let A := u32 (vm + 4 * Z.of_nat i) in
  let P := base + new_offset its i in
  let it := arm_item (u32 (A + 8)) (word_from code (4 * Z.of_nat i)) in
  exists D, loaded32 (mem s) P (linked arm_slot D 0 it) /\ arm_reachable s P D it /\
    0 <= P /\ P mod 4 = 0 /\ P + 24 < 2 ^ 32 /\ base + new_offset its (S i) = P + Z.of_nat (length (i_bytes it)) /\ A mod 4 = 0.
Proof using H Hpl.
  intros Hi A P it. destruct H as [Hbuf Hvm Hok Hsz Hpos Hrd Hvals Hsm]. fold its in Hvals. destruct Hpl as [Hl Hb4 Hhi].
  destruct (arm_items_shape n vm code 0 0 eq_refl) as (S1 & _ & S3). fold its in S1, S3.
  assert (Hit : its !! i = Some it).
  { unfold its. rewrite arm_items_lookup by done. rewrite Z.add_0_l. unfold it, A. by rewrite wrap_add_l. }
  destruct (block_at arm_slot its _ base (mem s) i it arm_slot4 S1 Hl Hit) as (D & H1 & H2 & H3 & H4). fold P in H1, H4.
  pose proof (arm_offset_mod4 n vm code i ltac:(lia)) as Ho4. fold its in Ho4.
  pose proof (l32_low _ _ _ Hl) as L0. assert (Hoff : 0 <= new_offset its i) by (unfold new_offset; lia).
  assert (HnS : new_offset its (S i) <= Z.of_nat (length (all_bytes its))) by apply new_offset_le.
  rewrite (new_offset_S _ _ _ Hit) in HnS. pose proof (arm_block_length vm code n) as Hlen. cbn zeta in Hlen. fold its in Hlen.
  rewrite length_app in Hlen. change (length (arm_tail true (vm + 4 * Z.of_nat n))) with 8%nat in Hlen.
  set (p := Z.of_nat (length (all_bytes its ++ _))) in *.
  assert (Hp4 : p mod 4 = 0).
  { unfold p. rewrite length_app, Nat2Z.inj_add. change (Z.of_nat (length (arm_tail true (vm + 4 * Z.of_nat n)))) with (2 * 4).
    rewrite Z_mod_plus_full. by apply of_nat_mod4. }
  assert (HP4 : P mod 4 = 0) by (unfold P; by rewrite Z.add_mod, Hb4, Ho4 by lia).
  exists D. split; [exact H1|]. split; [|split; [unfold P; lia|split; [exact HP4|split; [unfold P; lia|split]]]].
  - unfold arm_reachable. unfold lit_in in S1. destruct (i_lit it) as [[k dst]|] eqn:El; [|done]. destruct H4 as [H4 H5].
    destruct (item_lit_in its i it k dst 0 Hit El) as [x Hx]. rewrite List.Forall_forall in Hvals. specialize (Hvals _ Hx).
    cbn [snd] in Hvals. rewrite wrap_small in H4 by lia. fold (arm_block vm code n) in H5.
    change (block_bytes arm_slot its (arm_tail true (vm + 4 * Z.of_nat n))) with (arm_block vm code n) in H5.
    assert (Hp0 : 0 <= p - new_offset its i) by (unfold p; rewrite length_app; lia).
    unfold arm_literal_at. split; [unfold P; lia|]. split; [|split; [lia|exact H4]].
    rewrite Z.add_mod, HP4, H3, Zminus_mod, Hp4, Ho4 by lia. done.
  - unfold P. rewrite (new_offset_S _ _ _ Hit). lia.
  - unfold A. rewrite u32_mod4, Z.mul_comm, Z_mod_plus_full. done.
Qed.

Lemma arm_jumps_back :
  exists t, run 1 (at_pc (base + Z.of_nat (length (all_bytes its))) false s) = Some t /\ pc t = u32 (vm + 4 * Z.of_nat n) /\
    thumb t = false /\ regs t = regs s /\ flags t = flags s /\ mem t = mem s.
Proof using H Hpl.
  destruct H as [Hbuf Hvm Hok Hsz Hpos Hrd Hvals Hsm]. destruct Hpl as [Hl Hb4 Hhi].
  destruct (arm_items_shape n vm code 0 0 eq_refl) as (S1 & _ & S3). fold its in S1, S3.
  pose proof (arm_block_length vm code n) as Hlen. cbn zeta in Hlen. fold its in Hlen. rewrite length_app in Hlen.
  set (tail := arm_tail true (vm + 4 * Z.of_nat n)) in *. change (length tail) with 8%nat in Hlen. pose proof (l32_low _ _ _ Hl) as L0.
  set (P := base + Z.of_nat (length (all_bytes its))).
  assert (Ht : loaded32 (mem s) P (tail ++ [])).
  { rewrite app_nil_r. apply (loaded32_sub _ _ _ _ 8 _ Hl); [lia|]. exact (block_tail arm_slot its tail arm_slot4 S1). }
  pose proof (loaded_words _ _ _ _ Ht) as Hw.
  assert (HP4 : P mod 4 = 0) by (unfold P; rewrite Z.add_mod, Hb4, (of_nat_mod4 _ S3) by lia; done).
  assert (E4 : u32 (vm + 4 * Z.of_nat n) mod 4 = 0) by (rewrite u32_mod4, Z.mul_comm, Z_mod_plus_full; done).
  assert (E2 : u32 (vm + 4 * Z.of_nat n) mod 2 = 0).
  { set (x := u32 _) in *. pose proof (Z.div_mod x 4 ltac:(lia)) as E. rewrite E4 in E. symmetry. apply Z.mod_unique with (2 * (x / 4)); lia. }
  eexists. split.
  - eapply run_S; [|reflexivity].
    rewrite (step_ldr_pc s P ltac:(unfold P; lia) HP4 ltac:(unfold P; lia) _ 0 (u32 (vm + 4 * Z.of_nat n)) _ Hw eq_refl eq_refl);
      try done; try lia; [|apply wrap_range; lia|cbn [pc at_pc]; lia].
    unfold bx_to. rewrite E2, E4. reflexivity.
  - cbn [pc thumb regs flags mem goto at_pc]. split_and!; try done. apply wrap_wrap.
Qed.
End Block.

Lemma arm_call_returns buffer vm sz code n :
  arm_call buffer vm sz code n ->
  exists m, GenRelocateCode buffer vm sz code true = Ret (4 * Z.of_nat n, m) /\ dup m = Ret (map Some (arm_block vm code n)).
Proof.
  intros [Hbuf Hvm Hok Hsz Hpos Hrd Hvals Hsm]. pose proof (arm_block_length vm code n) as Hlen. cbn zeta in Hlen.
  rewrite length_app in Hlen. change (length (arm_tail true (vm + 4 * Z.of_nat n))) with 8%nat in Hlen.
  assert (Hn : 4 * Z.of_nat n < 2 ^ 31).
  { assert (Hge : forall k c, (4 * k <= length (all_bytes (arm_items k vm c code)))%nat); [|specialize (Hge n 0); lia].
    induction k as [|k IH]; intros c; [lia|]. cbn [arm_items]. rewrite all_bytes_cons, length_app. specialize (IH (c + 4)).
    assert (4 <= length (i_bytes (arm_item (u32 (vm + c + 8)) (word_from code c))))%nat; [|lia].
    unfold arm_item. destruct (is_arm_load_literal _); [|destruct (is_arm_dp_immediate _); [destruct (adr_dst _ _)|destruct (is_arm_branch _); [destruct (_ =? 15)|]]];
      cbn [i_bytes arm_literal_item arm_adr_item arm_branch_item]; rewrite ?a32_length_flat, ?length_le_bytes; cbn [length]; lia. }
  destruct (gen_arm_ok buffer vm sz code true n Hbuf Hok Hsz Hpos Hn Hrd Hvals) as (m & E & Hm).
  { rewrite length_app. change (length (arm_tail true (vm + 4 * Z.of_nat n))) with 8%nat. unfold cb_limit. lia. }
  exists m. split; [exact E|exact (dup_ok _ _ Hm)].
Qed.

(** What became of instruction number [i] of a block. *)
Lemma arm_item_runs buffer vm sz code n base s :
  arm_call buffer vm sz code n -> placed base s (arm_block vm code n) -> forall i, (i < n)%nat ->
  let its := arm_items n vm 0 code in
  let w := word_from code (4 * Z.of_nat i) in
  let A := u32 (vm + 4 * Z.of_nat i) in
  let P := base + new_offset its i in
  let nextP := base + new_offset its (S i) in
  (arm_copied w = true -> nextP = P + 4 /\ load32 4 (mem s) P = w) /\
  (forall ins, decode_a32 w = Some ins -> arm_rewritten A ins = true -> sim false (arm_scratch ins) (arm_links ins) A 4 (taken_for ins) P nextP s) /\
  (forall ins, decode_a32 w = Some ins -> arm_supported A ins = true -> sim false (arm_scratch ins) (arm_links ins) A 4 ins P nextP s).
Proof.
  intros H Hpl i Hi its w A P nextP.
  destruct (arm_item_loaded _ _ _ _ _ H _ _ Hpl i Hi) as (D & Hld & Hlit & HP0 & HP4 & HP & HnP & HA4).
  fold its w A P nextP in Hld, Hlit, HP0, HP4, HP, HnP, HA4. split; [|split].
  - intros Hc. rewrite (arm_copied_item _ _ Hc) in *. unfold linked in Hld. cbn [i_lit i_bytes] in *.
    rewrite HnP, length_le_bytes. split; [done|]. pose proof (word_from_range code (4 * Z.of_nat i) (ac_code _ _ _ _ _ H)) as Hw. fold w in Hw.
    replace P with (P + Z.of_nat 0) by lia. rewrite (load32_at _ _ _ 0 4 Hld) by (rewrite length_le_bytes; lia).
    rewrite drop_0, take_ge, le_val_bytes by (by rewrite length_le_bytes). by apply Z.mod_small.
  - intros ins Hdec Hrw. rewrite HnP. by apply (sim_arm_item s P A HP0 HP4 HP HA4 w D).
  - intros ins Hdec Hsup. unfold arm_supported in Hsup. apply andb_true_iff in Hsup as [Hsup Htf%bool_decide_eq_true].
    rewrite HnP. rewrite <- Htf at 3. by apply (sim_arm_item s P A HP0 HP4 HP HA4 w D).
Qed.

(** ** Properties *)

(** C9: Relocated A32 code is a faithful copy for the encodings the relocator handles.  [GenRelocateCode] returns, and
    wherever the block is placed (4-aligned), running the sequence of a supported instruction has exactly the effect of
    that instruction at its original address, on registers (r12 apart when a literal is loaded to the program counter),
    flags, memory, program counter and instruction set; a call leaves a return address that leads to the next sequence.
    Instructions that are not rewritten stand in the block unchanged, and behind the block one step leads to the next
    original instruction. *)
Theorem arm_relocation_simulates buffer vm sz code n :
  arm_call buffer vm sz code n ->
  let its := arm_items n vm 0 code in
  let block := arm_block vm code n in
  exists m, GenRelocateCode buffer vm sz code true = Ret (4 * Z.of_nat n, m) /\ dup m = Ret (map Some block) /\
  forall base s, placed base s block ->
    (forall i, (i < n)%nat ->
       let w := word_from code (4 * Z.of_nat i) in
       let A := u32 (vm + 4 * Z.of_nat i) in
       let P := base + new_offset its i in
       let nextP := base + new_offset its (S i) in
       (arm_copied w = true -> nextP = P + 4 /\ load32 4 (mem s) P = w) /\
       (forall ins, decode_a32 w = Some ins -> arm_supported A ins = true ->
          sim false (arm_scratch ins) (arm_links ins) A 4 ins P nextP s)) /\
    exists t, run 1 (at_pc (base + Z.of_nat (length (all_bytes its))) false s) = Some t /\ pc t = u32 (vm + 4 * Z.of_nat n) /\
      thumb t = false /\ regs t = regs s /\ flags t = flags s /\ mem t = mem s.
Proof.
  intros H its block. destruct (arm_call_returns _ _ _ _ _ H) as (m & E & Hm). exists m. split; [exact E|]. split; [exact Hm|].
  intros base s Hpl. split; [|exact (arm_jumps_back _ _ _ _ _ H _ _ Hpl)].
  intros i Hi. destruct (arm_item_runs _ _ _ _ _ _ _ H Hpl i Hi) as (Hcopy & _ & Hsup). by split.
Qed.

(** [ldr r0, [pc, #16]; bne #8; bl #256; add r1, pc, #16]. *)
Definition arm_sample : list Z := flat 4 [0xe59f0010; 0x1a000002; 0xeb000040; 0xe28f1010].

Lemma arm_sample_call : arm_call 0x4000 0x4000 16 arm_sample 4.
Proof.
  split; [reflexivity|reflexivity|apply a32_flat_ok|lia|lia|vm_compute; discriminate| |vm_compute; reflexivity].
  set (l := all_lits 0 _). vm_compute in l. subst l.
  repeat (apply Forall_cons; [vm_compute; split; [discriminate|reflexivity]|]). apply Forall_nil.
Qed.

(** The call at 0x4008, relocated to 0x10000. *)
Example arm_relocation_simulates_witness :
  exists m, GenRelocateCode 0x4000 0x4000 16 arm_sample true = Ret (16, m) /\
    let its := arm_items 4 0x4000 0 arm_sample in
    let s := boot32 0x10000 false (arm_block 0x4000 arm_sample 4) in
    exists s1 k t, exec 4 (A_B 14 true 256) (at_pc 0x4008 false s) = Some s1 /\
       run k (at_pc (0x10000 + new_offset its 2) false s) = Some t /\
       simulates false false true 0x400c (0x10000 + new_offset its 3) s1 t.
Proof.
  destruct (arm_relocation_simulates 0x4000 0x4000 16 arm_sample 4 arm_sample_call) as (m & Hm & _ & Hsim).
  exists m. split; [exact Hm|]. intros its s.
  destruct (Hsim 0x10000 s) as [Hs _]; [split; [apply boot32_loaded; [lia|vm_compute; reflexivity]|reflexivity|lia]|].
  eexists. destruct (proj2 (Hs 2%nat ltac:(lia)) (A_B 14 true 256) eq_refl eq_refl _ eq_refl) as (k & t & Hrun & Ht).
  exists k, t. split; [reflexivity|]. split; [exact Hrun|exact Ht].
Defined.

(** C33: What the A32 relocator makes of the encodings it does not tell apart: the sequence of a rewritten instruction does
    what [taken_for] says.  So a literal load or an ADR with a condition is executed whatever the flags are, a byte
    load from a literal loads a word, and BLX to an address that is no multiple of four goes two bytes too low. *)
Theorem arm_relocation_takes_for buffer vm sz code n base s i ins :
  arm_call buffer vm sz code n -> placed base s (arm_block vm code n) -> (i < n)%nat ->
  let its := arm_items n vm 0 code in
  let A := u32 (vm + 4 * Z.of_nat i) in
  decode_a32 (word_from code (4 * Z.of_nat i)) = Some ins -> arm_rewritten A ins = true ->
  sim false (arm_scratch ins) (arm_links ins) A 4 (taken_for ins) (base + new_offset its i) (base + new_offset its (S i)) s.
Proof.
  intros H Hpl Hi its A Hdec Hrw. destruct (arm_item_runs _ _ _ _ _ _ _ H Hpl i Hi) as (_ & Htaken & _). by apply Htaken.
Qed.

(** [ldreq r0, [pc, #16]] at 0x20000, where the word at 0x20018 is 0. *)
Definition arm_ldreq : list Z := flat 4 [0x059f0010].

Lemma arm_ldreq_call : arm_call 0x20000 0x20000 4 arm_ldreq 1.
Proof.
  split; [reflexivity|reflexivity|apply a32_flat_ok|lia|lia|vm_compute; discriminate| |vm_compute; reflexivity].
  set (l := all_lits 0 _). vm_compute in l. subst l.
  repeat (apply Forall_cons; [vm_compute; split; [discriminate|reflexivity]|]). apply Forall_nil.
Qed.

(** With r0 = 7 and the Z flag clear the original keeps r0; the relocated instruction loads 0. *)
Example arm_relocation_takes_for_witness :
  let s := set 0 7 (boot32 0x10000 false (arm_block 0x20000 arm_ldreq 1)) in
  (exists s1, exec 4 (A_LDR 0 false 0 15 16) (at_pc 0x20000 false s) = Some s1 /\ regs s1 0 = 7) /\
  exists k t, run k (at_pc 0x10000 false s) = Some t /\ regs t 0 = 0.
Proof.
  intros s. split; [eexists; split; reflexivity|].
  assert (Hpl : placed 0x10000 s (arm_block 0x20000 arm_ldreq 1)).
  { split; [|reflexivity|lia]. apply (boot32_loaded 0x10000 false); [lia|vm_compute; reflexivity]. }
  destruct (arm_relocation_takes_for 0x20000 0x20000 4 arm_ldreq 1 0x10000 s 0 (A_LDR 0 false 0 15 16) arm_ldreq_call Hpl ltac:(lia)
              eq_refl eq_refl _ eq_refl) as (k & t & Hrun & Ht).
  exists k, t. split; [exact Hrun|].
  rewrite (a32_sim_regs _ _ _ _ _ _ _ Ht 0) by (by left). reflexivity.
Defined.
