(* ===== verification/Arm32Trampoline.v ===== *)
(** * ARM32 trampolines (trampoline_arm.cc) and the hook of an ARM32 function

    The trampoline generators, and the two steps of a hook (InterceptRouting.h) that
    depend on the architecture, as they are compiled for ARM32. *)

From stdpp Require Import gmap.
From S2P Require Import Arm64Trampoline CodePatch MemoryAllocator HookRouting.
From S2P Require Import Prelude UtilityMacro CodeMemBuffer Arm32Assembler Arm32Relocation Arm32Emission Arm32Block Arm64Machine BitFields Arm32Machine Arm32Simulation Arm32Thumb Arm32Arm.
#[local] Open Scope machine_scope.
#[local] Open Scope Z_scope.

(** ** The generators *)

Definition generate_arm_trampoline (from to : Z) : outcome Assembler :=
  LiteralLdrBranch to (TurboAssembler_new from MemBuffer_new).

Definition generate_thumb_trampoline (from to : Z) : outcome Assembler :=
  a ← AlignThumbNop (ThumbTurboAssembler_new from MemBuffer_new);
  a ← t2_ldr Arm32Assembler.pc (MemOp Arm32Assembler.pc 0) a;
  EmitAddress to a.

Definition GenerateNormalTrampolineBuffer (from to : Z) : outcome Trampoline :=
  let execute_state_ := if negb (from mod 2 =? 0) then ThumbExecuteState else ARMExecuteState in
  match execute_state_ with
  | ARMExecuteState =>
      a ← generate_arm_trampoline from to;
      tramp_block ← dup (buffer_ a);
      Ret {| type := TRAMPOLINE_ARM_LDR_PC; Arm64Trampoline.buffer := tramp_block |}
  | ThumbExecuteState =>
      let from := from - THUMB_ADDRESS_FLAG in
      a ← generate_thumb_trampoline from to;
      tramp_block ← dup (buffer_ a);
      Ret {| type := TRAMPOLINE_ARM_LDR_PC; Arm64Trampoline.buffer := tramp_block |}
  end.

Definition GenerateNearTrampolineBuffer (src dst : Z) : option Trampoline := None.

(** ** The hook *)

(** [InterceptRouting::GenerateTrampoline] for the entry address [address]. *)
Definition GenerateTrampoline (g_enable_near_trampoline : bool) (address to : Z) : outcome InterceptRouting :=
  let from := arm_thumb_fix_addr address in
  match (if g_enable_near_trampoline then GenerateNearTrampolineBuffer from to else None) with
  | Some t => Ret {| trampoline := None; near_trampoline := Some t; error := false |}
  | None =>
      t ← GenerateNormalTrampolineBuffer from to;
      Ret {| trampoline := Some t; near_trampoline := None; error := false |}
  end.

Definition GenRelocateCodeAndBranch (buffer : Z) (origin : MemRange) (code : list Z) : outcome (Z * MemBuffer) :=
  GenRelocateCode buffer (start_ origin) (rsize origin) code true.

(** The relocation [InterceptRouting::GenerateRelocatedCode] asks for; [code] is what is readable at the function. *)
Definition relocate_entry (r : InterceptRouting) (address : Z) (code : list Z) : outcome (Z * MemBuffer) :=
  let code_addr := arm_thumb_fix_addr address in
  let preferred_size := trampoline_size r in
  let origin := {| start_ := code_addr; rsize := preferred_size |} in
  GenRelocateCodeAndBranch code_addr origin code.

(** ** What is generated *)

Definition arm_trampoline (to : Z) : list Z := flat 4 [0xe51ff004; u32 to].
Definition thumb_trampoline (from to : Z) : list Z :=
  flat 2 (replicate (if from mod 4 =? 0 then 0 else 1) NOP ++ t2_lit 15) ++ le_bytes 4 (u32 to).

Lemma normal_trampoline_arm from to : from mod 2 = 0 ->
  GenerateNormalTrampolineBuffer from to = Ret {| type := TRAMPOLINE_ARM_LDR_PC; Arm64Trampoline.buffer := map Some (arm_trampoline to) |}.
Proof.
  intros E. unfold GenerateNormalTrampolineBuffer, generate_arm_trampoline. rewrite E. cbn [Z.eqb negb].
  destruct (emits_LiteralLdrBranch to (TurboAssembler_new from MemBuffer_new) [] new_ok) as (m & -> & Hm); [done|].
  cbn [mbind outcome_bind buffer_ with_buffer]. by rewrite (dup_ok _ _ Hm).
Qed.

Lemma normal_trampoline_thumb from to : 0 < from < 2 ^ 32 -> from mod 2 = 1 ->
  GenerateNormalTrampolineBuffer from to = Ret {| type := TRAMPOLINE_ARM_LDR_PC; Arm64Trampoline.buffer := map Some (thumb_trampoline (from - 1) to) |}.
Proof.
  intros Hf E. unfold GenerateNormalTrampolineBuffer, generate_thumb_trampoline. rewrite E. cbn [Z.eqb negb].
  change (from - THUMB_ADDRESS_FLAG) with (from - 1). unfold thumb_trampoline.
  set (a0 := ThumbTurboAssembler_new (from - 1) MemBuffer_new). set (n := if (from - 1) mod 4 =? 0 then 0%nat else 1%nat).
  assert (Hal : emits (fun a' => if (from - 1) mod 4 =? 0 then Ret a' else t1_nop a') (flat 2 (replicate n NOP))).
  { unfold n. destruct (_ =? 0); [apply a32_emits_Ret|apply emits_nop]. }
  assert (Ea : AlignThumbNop a0 = if (from - 1) mod 4 =? 0 then Ret a0 else t1_nop a0).
  { unfold AlignThumbNop. change (size (buffer_ a0) + realized_addr_ a0) with (from - 1). rewrite wrap_small by lia.
    change Thumb2_INST_LEN with 4. by destruct (_ =? 0). }
  rewrite Ea. rewrite a32_flat_app, <- app_assoc.
  destruct (a32_emits_bind _ (fun a => a ← t2_ldr Arm32Assembler.pc (MemOp Arm32Assembler.pc 0) a; EmitAddress to a) _ _ Hal
              (a32_emits_bind _ _ _ _ (emits_t2_lit 15 ltac:(lia)) (emits_address to)) a0 [] new_ok) as (m & E1 & Hm).
  { unfold fits, n, cb_limit. by destruct ((from - 1) mod 4 =? 0). }
  cbn beta in E1. rewrite E1. cbn [mbind outcome_bind buffer_ with_buffer]. by rewrite (dup_ok _ _ Hm).
Qed.

(** ** What the trampolines do *)

(** An address a branch can go to: odd for Thumb, a multiple of four for ARM. *)
Definition code_pointer (to : Z) : Prop := 0 <= to < 2 ^ 32 /\ (to mod 2 = 1 \/ to mod 4 = 0).

(** Control is at [to], in the state its low bit asks for, and nothing else has changed. *)
Record arrives (to : Z) (s t : state) : Prop := {
  ar_pc : pc t = to - to mod 2;
  ar_thumb : thumb t = (to mod 2 =? 1);
  ar_regs : regs t = regs s;
  ar_flags : flags t = flags s;
  ar_mem : mem t = mem s;
}.

Lemma bx_arrives to s s0 : code_pointer to -> regs s0 = regs s -> flags s0 = flags s -> mem s0 = mem s ->
  exists t, bx_to to s0 = Some t /\ arrives to s t.
Proof.
  intros [Hr [E|E]] H1 H2 H3; unfold bx_to.
  - assert (to <> 0) by (intros ->; done). rewrite E. eexists. split; [reflexivity|].
    split; try done; cbn [pc thumb goto]; rewrite E; [rewrite wrap_small; lia|done].
  - assert (E2 : to mod 2 = 0).
    { pose proof (Z.div_mod to 4 ltac:(lia)) as Ed. rewrite E in Ed. symmetry. apply Z.mod_unique with (2 * (to / 4)); lia. }
    rewrite E2, E. eexists. split; [reflexivity|]. split; try done; cbn [pc thumb goto]; rewrite E2; [rewrite wrap_small; lia|done].
Qed.

Lemma arm_trampoline_runs from to s :
  loaded32 (mem s) from (arm_trampoline to) -> from mod 4 = 0 -> from + 24 < 2 ^ 32 -> code_pointer to ->
  exists t, run 1 (at_pc from false s) = Some t /\ arrives to s t.
Proof.
  intros Hl H4 Hhi Hto. pose proof (l32_low _ _ _ Hl) as L0. destruct (bx_arrives to s (at_pc from false s) Hto) as (t & E & Ht); try done.
  exists t. split; [|done]. unfold arm_trampoline in Hl. rewrite <- (app_nil_r (flat 4 _)) in Hl.
  rewrite (wrap_small 32 to) in Hl by apply Hto. cbn [run].
  rewrite (step_ldr_pc s from L0 H4 Hhi _ 0 to _ (loaded_words _ _ _ _ Hl) eq_refl eq_refl);
    [by rewrite E|apply Hto|lia|cbn [pc at_pc]; lia|done|done].
Qed.

Lemma thumb_trampoline_runs from to s :
  loaded32 (mem s) from (thumb_trampoline from to) -> from mod 2 = 0 -> from + 24 < 2 ^ 32 -> code_pointer to ->
  exists k t, run k (at_pc from true s) = Some t /\ arrives to s t.
Proof.
  intros Hl H2 Hhi Hto. pose proof (l32_low _ _ _ Hl) as L0. unfold thumb_trampoline in Hl.
  set (n := if from mod 4 =? 0 then 0%nat else 1%nat) in *. set (P := from + 2 * Z.of_nat n).
  assert (Hn : (n <= 1)%nat /\ P mod 4 = 0).
  { unfold P, n. destruct (Z.eqb_spec (from mod 4) 0) as [E|E]; [split; [lia|by rewrite Z.add_0_r]|split; [lia|]].
    revert E H2. Z.div_mod_to_equations; lia. }
  destruct Hn as [Hn HP4]. rewrite (wrap_small 32 to) in Hl by apply Hto.
  pose proof (inline_data s from _ _ Hl (proj1 Hto)) as Hd. rewrite length_app, length_replicate in Hd.
  pose proof (loaded_halves _ _ _ _ Hl) as Hh. apply halves_app in Hh as [Hnop Hlit]. rewrite length_replicate in Hlit.
  assert (HP0 : 0 <= P) by (unfold P; lia). assert (HP : P + 20 < 2 ^ 32) by (unfold P; lia).
  destruct (bx_arrives to s (at_pc P true (at_pc from true s)) Hto) as (t & E & Ht); try done.
  exists (n + 1)%nat, t. split; [|done].
  rewrite (arm32_run_app n 1 _ _ (run_nops n (at_pc from true s) from eq_refl eq_refl Hnop L0 ltac:(fold P; lia))). fold P.
  apply (run_jump s P HP0 HP4 HP _ 0 4 to t); try done; try lia.
  - cbn [pc at_pc]. lia.
  - rewrite Z.add_0_r. exact Hlit.
  - unfold literal_at. rewrite Z.add_0_r. split_and!; try lia; [by rewrite Z.add_mod, HP4 by lia|].
    rewrite <- Hd. f_equal. unfold P. simpl (length (t2_lit 15)). lia.
Qed.

(** ** Properties *)

(** The generated trampoline leads to its target: at an even address it is ARM code, at an odd one Thumb code for the
    address below, aligned by a nop where that is needed; run in the state of its address it arrives at [to] in the
    instruction set the low bit of [to] asks for, with every register, the flags and memory unchanged. *)
Theorem arm32_trampoline_jumps from to :
  0 < from < 2 ^ 32 - 32 -> from mod 4 <> 2 -> code_pointer to ->
  exists l, GenerateNormalTrampolineBuffer from to = Ret {| type := TRAMPOLINE_ARM_LDR_PC; Arm64Trampoline.buffer := map Some l |} /\
  forall s, loaded32 (mem s) (from - from mod 2) l ->
    exists k t, run k (at_pc (from - from mod 2) (from mod 2 =? 1) s) = Some t /\ arrives to s t.
Proof.
  intros Hf H4 Hto. destruct (Z.eqb_spec (from mod 2) 1) as [E|E].
  - rewrite E. exists (thumb_trampoline (from - 1) to). split; [apply normal_trampoline_thumb; [lia|done]|].
    intros s Hl. apply thumb_trampoline_runs; try done; [|lia]. revert E. Z.div_mod_to_equations; lia.
  - assert (E0 : from mod 2 = 0) by (pose proof (Z.mod_pos_bound from 2 ltac:(lia)); lia). rewrite E0, Z.sub_0_r.
    exists (arm_trampoline to). split; [by apply normal_trampoline_arm|].
    intros s Hl. exists 1%nat. apply arm_trampoline_runs; try done; [|lia]. revert E0 H4. Z.div_mod_to_equations; lia.
Qed.

Example arm32_trampoline_jumps_witness :
  exists l, GenerateNormalTrampolineBuffer 0x4003 0x20001 = Ret {| type := TRAMPOLINE_ARM_LDR_PC; Arm64Trampoline.buffer := map Some l |} /\
    exists k t, run k (at_pc 0x4002 true (boot32 0x4002 true l)) = Some t /\ pc t = 0x20000 /\ thumb t = true.
Proof.
  destruct (arm32_trampoline_jumps 0x4003 0x20001 ltac:(lia) ltac:(vm_compute; discriminate) ltac:(split; [lia|by left])) as (l & E & H).
  exists l. split; [exact E|].
  assert (Hl : Z.of_nat (length l) < 100).
  { rewrite (normal_trampoline_thumb 0x4003 0x20001 ltac:(lia) eq_refl) in E. injection E as E.
    apply (f_equal length) in E. rewrite length_map in E. rewrite <- E. reflexivity. }
  destruct (H (boot32 0x4002 true l)) as (k & t & Hr & [Hp Ht _ _ _]); [apply (boot32_loaded 0x4002); lia|].
  exists k, t. split; [exact Hr|]. split; [exact Hp|exact Ht].
Defined.

Lemma fix_addr_even a : arm_thumb_fix_addr a = a - a mod 2.
Proof.
  unfold arm_thumb_fix_addr. rewrite <- Z.ldiff_land. change 1 with (Z.ones 1) at 1.
  rewrite Z.ldiff_ones_r, Z.shiftr_div_pow2, Z.shiftl_mul_pow2 by lia. change (2 ^ 1) with 2.
  pose proof (Z.div_mod a 2 ltac:(lia)). lia.
Qed.

Lemma fix_addr_arm a : a mod 2 = 0 -> arm_thumb_fix_addr a = a.
Proof. intros E. rewrite fix_addr_even, E. lia. Qed.

(** The routing of an entry at an even address, with or without near trampolines. *)
Lemma routing_arm near address to : address mod 2 = 0 ->
  exists r, GenerateTrampoline near address to = Ret r /\ trampoline_size r = 8 /\
    the_trampoline r = Some {| type := TRAMPOLINE_ARM_LDR_PC; Arm64Trampoline.buffer := map Some (arm_trampoline to) |}.
Proof.
  intros E. unfold GenerateTrampoline. rewrite fix_addr_arm, normal_trampoline_arm by done.
  assert (Hn : (if near then GenerateNearTrampolineBuffer address to else None) = None) by (by destruct near). rewrite Hn.
  cbn [mbind outcome_bind]. eexists. by split_and!.
Qed.

(** C27: A hook of an ARM function.  The trampoline for a 4-aligned entry is 8 bytes of ARM code, exactly the two
    instructions that the relocator then moves.  With the trampoline over the function, a call arrives at the replacement
    with nothing changed.  In the relocated block each of the two instructions stands unchanged if it is not one the
    relocator rewrites.  A branch, a literal load or an ADR (of any address but the last) has at its new place the effect that
    the instruction it is taken for has at its old address; that is the instruction itself when it is a supported one, which
    a literal load or an ADR with a condition, a load of a byte from a literal and BLX to an address that is no multiple
    of four are not.  Behind the two the block continues
    behind the trampoline. *)
Theorem arm32_hook_arm_function near address to code :
  0 < address -> address + 24 < 2 ^ 32 -> code_pointer to -> arm_call address address 8 code 2 ->
  let its := arm_items 2 address 0 code in
  exists r m, GenerateTrampoline near address to = Ret r /\ relocate_entry r address code = Ret (8, m) /\
  dup m = Ret (map Some (arm_block address code 2)) /\
  forall s, loaded32 (mem s) address (arm_trampoline to) ->
    (exists t, run 1 (at_pc address false s) = Some t /\ arrives to s t) /\
    forall base, placed base s (arm_block address code 2) ->
      (forall i, (i < 2)%nat ->
         let A := address + 4 * Z.of_nat i in let w := word_from code (4 * Z.of_nat i) in
         let P := base + new_offset its i in let nextP := base + new_offset its (S i) in
         (arm_copied w = true -> nextP = P + 4 /\ load32 4 (mem s) P = w) /\
         (forall ins, decode_a32 w = Some ins -> arm_rewritten A ins = true ->
            sim false (arm_scratch ins) (arm_links ins) A 4 (taken_for ins) P nextP s) /\
         (forall ins, decode_a32 w = Some ins -> arm_supported A ins = true ->
            sim false (arm_scratch ins) (arm_links ins) A 4 ins P nextP s)) /\
      exists t, run 1 (at_pc (base + new_offset its 2) false s) = Some t /\ pc t = address + 8 /\ thumb t = false /\
        regs t = regs s /\ flags t = flags s /\ mem t = mem s.
Proof.
  intros H0 Hhi Hto Hc its. pose proof (ac_vm _ _ _ _ _ Hc) as H4. pose proof (ac_arm _ _ _ _ _ Hc) as H2.
  destruct (routing_arm near address to H2) as (r & Hr & Hsz & _). destruct (arm_call_returns _ _ _ _ _ Hc) as (m & Hm & Hd).
  exists r, m. split; [exact Hr|]. split; [|split; [exact Hd|]].
  { unfold relocate_entry, GenRelocateCodeAndBranch. rewrite fix_addr_arm, Hsz by done. exact Hm. }
  intros s Hl. split; [by apply arm_trampoline_runs|]. intros base Hpl. split.
  - intros i Hi A w P nextP. pose proof (arm_item_runs _ _ _ _ _ _ _ Hc Hpl i Hi) as H. cbv zeta in H.
    rewrite (wrap_small 32 (address + 4 * Z.of_nat i)) in H by lia. exact H.
  - destruct (arm_jumps_back _ _ _ _ _ Hc _ _ Hpl) as (t & Hrun & Hpc & Ht). exists t. split; [|split; [|exact Ht]].
    + unfold new_offset. rewrite take_ge by (unfold its; by rewrite arm_items_length). exact Hrun.
    + rewrite Hpc. apply wrap_small. lia.
Qed.

(** [ldr r0, [pc, #16]; bne #8], at 0x4000. *)
Definition arm_function : list Z := flat 4 [0xe59f0010; 0x1a000002].

Lemma arm_function_call : arm_call 0x4000 0x4000 8 arm_function 2.
Proof.
  split; [reflexivity|reflexivity|apply a32_flat_ok|lia|lia|vm_compute; discriminate| |vm_compute; reflexivity].
  set (l := all_lits 0 _). vm_compute in l. subst l.
  repeat (apply Forall_cons; [vm_compute; split; [discriminate|reflexivity]|]). apply Forall_nil.
Qed.

(** The trampoline over the function and the relocated block at 0x10000. *)
Definition hooked_memory (a : Z) : Z :=
  if a <? 0x10000 then nth (Z.to_nat (a - 0x4000)) (arm_trampoline 0x20001) 0
  else nth (Z.to_nat (a - 0x10000)) (arm_block 0x4000 arm_function 2) 0.
Definition hooked : state :=
  {| pc := 0x4000; thumb := false; regs := fun _ => 0; flags := flags (boot32 0 false []); mem := hooked_memory |}.

(** A call of the function, and a call of the relocated original whose last step leads back. *)
Example arm32_hook_arm_function_witness :
  (exists t, run 1 (at_pc 0x4000 false hooked) = Some t /\ pc t = 0x20000 /\ thumb t = true) /\
  exists t, run 1 (at_pc (0x10000 + new_offset (arm_items 2 0x4000 0 arm_function) 2) false hooked) = Some t /\ pc t = 0x4008.
Proof.
  destruct (arm32_hook_arm_function true 0x4000 0x20001 arm_function ltac:(lia) ltac:(lia) ltac:(split; [lia|by left]) arm_function_call)
    as (r & m & _ & _ & _ & H).
  assert (Hl : loaded32 (mem hooked) 0x4000 (arm_trampoline 0x20001)).
  { split; [lia|vm_compute; reflexivity|]. intros i Hi. change (length (arm_trampoline 0x20001)) with 8%nat in Hi.
    cbn [mem hooked]. unfold hooked_memory. destruct (Z.ltb_spec (0x4000 + Z.of_nat i) 0x10000); [|lia]. f_equal. lia. }
  destruct (H hooked Hl) as [(t & Hr & Ht) Hb].
  assert (Hpl : placed 0x10000 hooked (arm_block 0x4000 arm_function 2)).
  { split; [|reflexivity|lia]. split; [lia|vm_compute; reflexivity|]. intros i Hi.
    cbn [mem hooked]. unfold hooked_memory. destruct (Z.ltb_spec (0x10000 + Z.of_nat i) 0x10000); [lia|]. f_equal. lia. }
  destruct (Hb 0x10000 Hpl) as [_ (t' & Hr' & Hp' & _)]. split.
  - exists t. split; [exact Hr|]. split; [exact (ar_pc _ _ _ Ht)|exact (ar_thumb _ _ _ Ht)].
  - exists t'. split; [exact Hr'|exact Hp'].
Defined.

(** C32: A Thumb function is hooked as if it were ARM code.  The Thumb bit of its address is cleared before the trampoline is
    generated and before the code is relocated: the trampoline is the ARM one, whose first two halfwords a Thumb caller
    would find undefined, and the relocator runs in ARM state over Thumb instructions. *)
Theorem thumb_function_hooked_as_arm near address to :
  0 < address < 2 ^ 32 -> address mod 2 = 1 ->
  exists r, GenerateTrampoline near address to = Ret r /\ GenerateTrampoline near (address - 1) to = Ret r /\
  the_trampoline r = Some {| type := TRAMPOLINE_ARM_LDR_PC; Arm64Trampoline.buffer := map Some (arm_trampoline to) |} /\
  (forall code, relocate_entry r address code = GenRelocateCode (address - 1) (address - 1) 8 code true) /\
  forall s base, loaded32 (mem s) base (arm_trampoline to) -> step (at_pc base true s) = None.
Proof.
  intros Ha Ho. assert (Ef : arm_thumb_fix_addr address = address - 1) by (rewrite fix_addr_even, Ho; done).
  assert (He : (address - 1) mod 2 = 0) by (revert Ho; Z.div_mod_to_equations; lia).
  destruct (routing_arm near (address - 1) to He) as (r & Hr & Hsz & Ht). exists r. split; [|split; [exact Hr|split; [exact Ht|split]]].
  - rewrite <- Hr. unfold GenerateTrampoline. by rewrite Ef, fix_addr_arm.
  - intros code. unfold relocate_entry, GenRelocateCodeAndBranch. by rewrite Ef, Hsz.
  - intros s base Hl.
    assert (Eb : arm_trampoline to = flat 2 [0xf004; 0xe51f] ++ le_bytes 4 (u32 to)) by (unfold arm_trampoline, flat; cbn [map concat]; by rewrite app_nil_r).
    rewrite Eb in Hl. pose proof (loaded_halves _ _ _ _ Hl) as Hh. pose proof (Hh 0%nat _ eq_refl) as H0. pose proof (Hh 1%nat _ eq_refl) as H1.
    change (2 * Z.of_nat 0) with 0 in H0. rewrite Z.add_0_r in H0. change (2 * Z.of_nat 1) with 2 in H1.
    unfold step, fetch. cbn [thumb mem pc at_pc]. rewrite H0, H1. reflexivity.
Qed.

Example thumb_function_hooked_as_arm_witness :
  exists r, GenerateTrampoline false 0x4001 0x20001 = Ret r /\
    the_trampoline r = Some {| type := TRAMPOLINE_ARM_LDR_PC; Arm64Trampoline.buffer := map Some (arm_trampoline 0x20001) |} /\
    step (at_pc 0x4000 true (boot32 0x4000 true (arm_trampoline 0x20001))) = None.
Proof.
  destruct (thumb_function_hooked_as_arm false 0x4001 0x20001 ltac:(lia) eq_refl) as (r & H1 & _ & H2 & _ & H3).
  exists r. split; [exact H1|]. split; [exact H2|].
  apply H3. apply boot32_loaded; [lia|vm_compute; reflexivity].
Defined.
