(* ===== verification/Arm32Closure.v ===== *)
(** * Instrumentation of ARM32 functions (ClosureTrampolineBridge, InstrumentRouting)

    A closure trampoline carries its own object to the closure bridge, which all
    trampolines share: it saves the registers into a [DobbyRegisterContext] on the
    stack, calls [common_closure_bridge_handler], restores what the context then holds
    and jumps to the saved r12, the next hop.  The static variable with the address of
    the bridge is part of the state; [self] is what [operator new] returned for the
    trampoline object, [dispatch] the address of the handler in the program.  Blocks
    come from the page allocator of MemoryAllocator.v: their addresses are below 2^32,
    where its arithmetic does not depend on the width of an address.  What the handlers
    do is their effect on memory. *)

From stdpp Require Import gmap.
From S2P Require Import Arm64Trampoline CodePatch MemoryAllocator HookRouting InstrumentRouting.
From S2P Require Import Arm64Machine Arm32Machine.
From S2P Require Import Prelude UtilityMacro CodeMemBuffer Arm32Assembler.
#[local] Open Scope machine_scope.
#[local] Open Scope Z_scope.

(** ** DobbyRegisterContext *)

Definition ctx_sp : Z := 12.
Definition ctx_r (i : Z) : Z := 16 + 4 * i.
Definition ctx_lr : Z := 68.
Definition sizeof_DobbyRegisterContext : Z := 72.

(** ** The bridge *)

(** [get_closure_bridge_addr], the code. *)
Definition closure_bridge_code (handler : Z) (a : Assembler) : outcome Assembler :=
  a ← sub sp sp (Operand_imm (14 * 4)) a;
  a ← str lr (MemOp sp (13 * 4)) a;
  a ← str r12 (MemOp sp (12 * 4)) a;
  a ← str r11 (MemOp sp (11 * 4)) a;
  a ← str r10 (MemOp sp (10 * 4)) a;
  a ← str r9 (MemOp sp (9 * 4)) a;
  a ← str r8 (MemOp sp (8 * 4)) a;
  a ← str r7 (MemOp sp (7 * 4)) a;
  a ← str r6 (MemOp sp (6 * 4)) a;
  a ← str r5 (MemOp sp (5 * 4)) a;
  a ← str r4 (MemOp sp (4 * 4)) a;
  a ← str r3 (MemOp sp (3 * 4)) a;
  a ← str r2 (MemOp sp (2 * 4)) a;
  a ← str r1 (MemOp sp (1 * 4)) a;
  a ← str r0 (MemOp sp (0 * 4)) a;
  a ← add r0 sp (Operand_imm (14 * 4)) a;
  a ← sub sp sp (Operand_imm 8) a;
  a ← str r0 (MemOp sp 4) a;
  a ← sub sp sp (Operand_imm 8) a;
  a ← mov r0 (Operand_reg sp) a;
  a ← mov r1 (Operand_reg r12) a;
  a ← CallFunction handler a;
  a ← add sp sp (Operand_imm 8) a;
  a ← add sp sp (Operand_imm 8) a;
  a ← ldr r0 (MemOp_mode sp 4 PostIndex) a;
  a ← ldr r1 (MemOp_mode sp 4 PostIndex) a;
  a ← ldr r2 (MemOp_mode sp 4 PostIndex) a;
  a ← ldr r3 (MemOp_mode sp 4 PostIndex) a;
  a ← ldr r4 (MemOp_mode sp 4 PostIndex) a;
  a ← ldr r5 (MemOp_mode sp 4 PostIndex) a;
  a ← ldr r6 (MemOp_mode sp 4 PostIndex) a;
  a ← ldr r7 (MemOp_mode sp 4 PostIndex) a;
  a ← ldr r8 (MemOp_mode sp 4 PostIndex) a;
  a ← ldr r9 (MemOp_mode sp 4 PostIndex) a;
  a ← ldr r10 (MemOp_mode sp 4 PostIndex) a;
  a ← ldr r11 (MemOp_mode sp 4 PostIndex) a;
  a ← ldr r12 (MemOp_mode sp 4 PostIndex) a;
  a ← ldr lr (MemOp_mode sp 4 PostIndex) a;
  mov pc (Operand_reg r12) a.

(** ** The trampoline *)

(** [TurboAssembler::Ldr] and [bindLabel] for a label that is a local variable. *)
Definition Ldr_local (rt : Register) (l : RelocDataLabel) (a : Assembler) : outcome (RelocDataLabel * Assembler) :=
  if negb (pos l =? 0) then
    a ← ldr rt (MemOp pc (i32 (pos l - size (buffer_ a)))) a; Ret (l, a)
  else
    let l := link_to kLdrLiteral (size (buffer_ a)) l in
    a ← ldr rt (MemOp pc 0) a; Ret (l, a).
Definition bindLabel (l : RelocDataLabel) (a : Assembler) : outcome (RelocDataLabel * Assembler) :=
  let l := bind_to (pc_offset a) l in
  b ← (if has_confused_instructions l
       then link_confused_instructions link_arm_inst (pos l) (ref_insts l) (buffer_ a) else Ret (buffer_ a));
  Ret (l, with_buffer b a).
(** [PseudoLabel label(0)]; the data of a [RelocDataLabel] is not used. *)
Definition PseudoLabel_new : RelocDataLabel := {| pos := 0; ref_insts := []; data_ := []; is_pc_register_ := false |}.

Section Closure.

(** [OSMemory::PageSize()]. *)
Variable PageSize : Z.

(** [AssemblerCodeBuilder::FinalizeFromTurboAssembler] for ARM32. *)
Definition FinalizeFromTurboAssembler (os : os_answer) (assembler : Assembler) (c : core) : outcome (MemRange * core) :=
  code ← dup (buffer_ assembler);
  data ← defined_bytes code;
  '(fixed_addr, c) ←
    (if realized_addr_ assembler =? 0 then
       let buffer_size := size (buffer_ assembler) + 4 in
       '(block, c) ← allocExecBlock PageSize os buffer_size c;
       Ret (addr block, c)
     else Ret (realized_addr_ assembler, c));
  if fixed_addr =? 0 then Ret (MemRange_empty, c)
  else
    '(_, v) ← DobbyCodePatch PageSize fixed_addr data (space c);
    Ret ({| start_ := fixed_addr; rsize := size (buffer_ assembler) |}, with_space c v).

Record bridge_state := { closure_bridge : Z; b_core : core }.

Definition get_closure_bridge_addr (os : os_answer) (handler : Z) (st : bridge_state) : outcome (Z * bridge_state) :=
  if negb (closure_bridge st =? 0) then Ret (closure_bridge st, st)
  else
    a ← closure_bridge_code handler (TurboAssembler_new 0 MemBuffer_new);
    '(code, c) ← FinalizeFromTurboAssembler os a (b_core st);
    Ret (addr code, {| closure_bridge := addr code; b_core := c |}).

(** [GenerateClosureTrampoline]; [os_bridge] and [os_tramp] are the answers to the allocations of the bridge and of the
    trampoline. *)
Definition GenerateClosureTrampoline (os_bridge os_tramp : os_answer) (handler self carry_data carry_handler : Z)
    (st : bridge_state) : outcome (ClosureTrampoline * bridge_state) :=
  let a := TurboAssembler_new 0 MemBuffer_new in
  '(entry_label, a) ← Ldr_local r12 PseudoLabel_new a;
  '(forward_bridge_label, a) ← Ldr_local pc PseudoLabel_new a;
  '(_, a) ← bindLabel entry_label a;
  a ← EmitAddress self a;
  '(_, a) ← bindLabel forward_bridge_label a;
  '(bridge, st) ← get_closure_bridge_addr os_bridge handler st;
  a ← EmitAddress bridge a;
  '(tramp_block, c) ← FinalizeFromTurboAssembler os_tramp a (b_core st);
  Ret ({| ct_type := CLOSURE_TRAMPOLINE_ARM; ct_buffer := tramp_block; carry_data := carry_data; carry_handler := carry_handler |},
       {| closure_bridge := closure_bridge st; b_core := c |}).

(** [GenerateInstrumentClosureTrampoline]: the entry is carried to [instrument_routing_dispatch]. *)
Definition GenerateInstrumentClosureTrampoline (os_bridge os_tramp : os_answer) (handler dispatch self entry : Z)
    (st : bridge_state) : outcome (ClosureTrampoline * bridge_state) :=
  GenerateClosureTrampoline os_bridge os_tramp handler self entry dispatch st.
End Closure.

(** ** The handlers *)

(** The memory of the process.  Objects the handlers read are found by their address: trampolines, entries and the
    routing handlers. *)
Definition memory : Type := Z -> Z.

Definition set_routing_bridge_next_hop (ctx address : Z) (m : memory) : memory := store32 m (ctx + ctx_r 12) address.

Record instrumented := {
  i_addr : Z;
  i_relocated : Z;
  pre_handler : option (Z -> Z -> memory -> memory);
}.

Definition instrument_routing_dispatch (entry : instrumented) (ctx : Z) (m : memory) : memory :=
  let m := match pre_handler entry with Some f => f (i_addr entry) ctx m | None => m end in
  set_routing_bridge_next_hop ctx (i_relocated entry) m.

Definition common_closure_bridge_handler (tramps : Z -> option ClosureTrampoline)
    (handlers : Z -> option (Z -> Z -> memory -> memory)) (ctx tramp : Z) (m : memory) : option memory :=
  t ← tramps tramp;
  routing_handler ← handlers (carry_handler t);
  Some (routing_handler (carry_data t) ctx m).
