(* ===== verification/Arm32Instrument.v ===== *)
(** * What instrumented ARM32 functions do

    The closure trampoline and the bridge of Arm32Closure, run on the machine of
    Arm32Machine.  The compiled handler is a piece of code that follows the procedure
    call standard and has the effect of the C function. *)

From stdpp Require Import gmap.
From S2P Require Import Arm64Trampoline CodePatch MemoryAllocator HookRouting InstrumentRouting.
From S2P Require Import Prelude UtilityMacro CodeMemBuffer Arm32Assembler Arm32Closure Arm32Relocation Arm32Emission Arm32Block Arm64Machine BitFields Arm32Machine Arm32Simulation Arm32Thumb Arm32Arm Arm32Trampoline.
#[local] Open Scope machine_scope.
#[local] Open Scope Z_scope.

(** ** The code of the bridge *)

Definition str_word (rt off : Z) : Z := 0xe58d0000 + rt * 2 ^ 12 + off.
Definition pop_word (rt : Z) : Z := 0xe49d0004 + rt * 2 ^ 12.

Definition saved : list (Z * Z) :=
  [(14, 52); (12, 48); (11, 44); (10, 40); (9, 36); (8, 32); (7, 28); (6, 24); (5, 20); (4, 16); (3, 12); (2, 8); (1, 4); (0, 0)].
Definition popped : list Z := [0; 1; 2; 3; 4; 5; 6; 7; 8; 9; 10; 11; 12; 14].

Definition save_words : list Z := 0xe24dd038 :: map (fun x => str_word (fst x) (snd x)) saved.
Definition args_words : list Z := [0xe28d0038; 0xe24dd008; 0xe58d0004; 0xe24dd008; 0xe1a0000d; 0xe1a0100c].
Definition call_words (handler : Z) : list Z := [0xeb000000; 0xea000001; 0xe51ff004; u32 handler].
Definition restore_words : list Z := [0xe28dd008; 0xe28dd008] ++ map pop_word popped ++ [0xe1a0f00c].
Definition bridge_words (handler : Z) : list Z := save_words ++ args_words ++ call_words handler ++ restore_words.

Lemma emits_cons w ws f g :
  emits f (le_bytes 4 w) -> emits g (flat 4 ws) -> emits (fun a => a ← f a; g a) (flat 4 (w :: ws)).
Proof. intros Hf Hg. exact (a32_emits_bind f g (le_bytes 4 w) (flat 4 ws) Hf Hg). Qed.

Lemma emits_load_store enc cond rt op m w :
  enc_MemOperand op = Ret m -> u32 (enc .| (cond << kConditionShift) .| (Rt rt .| m)) = w ->
  emits (load_store enc cond rt op) (le_bytes 4 w).
Proof. intros E1 E2. unfold load_store. rewrite E1. exact (emits_word32 _ w E2). Qed.

Ltac emit_word :=
  first [eapply emits_load_store; [reflexivity|vm_compute; reflexivity] | apply emits_word32; vm_compute; reflexivity].

Lemma emits_bind_assoc (f g h : Assembler -> outcome Assembler) bs :
  emits (fun a => a ← f a; (a ← g a; h a)) bs -> emits (fun a => a ← (a ← f a; g a); h a) bs.
Proof.
  intros H a l Hm Hf. destruct (H a l Hm Hf) as (m & E & Hm'). exists m. split; [|done]. rewrite <- E. by destruct (f a).
Qed.

Lemma bridge_emits handler : emits (closure_bridge_code handler) (flat 4 (bridge_words handler)).
Proof.
  unfold closure_bridge_code, bridge_words, save_words, args_words, call_words, restore_words, saved, popped. cbn [map app fst snd].
  do 21 (apply emits_cons; [emit_word|]). unfold CallFunction.
  apply emits_bind_assoc, emits_cons; [emit_word|]. apply emits_bind_assoc, emits_cons; [emit_word|].
  apply emits_bind_assoc, emits_cons; [emit_word|]. apply emits_cons; [apply emits_address|].
  do 16 (apply emits_cons; [emit_word|]). unfold flat. cbn [map concat]. rewrite app_nil_r. emit_word.
Qed.

(** ** Machine states in ARM state *)

Definition St (P : Z) (R : Z -> Z) (F : flags_t) (M : Z -> Z) : state := {| pc := P; thumb := false; regs := R; flags := F; mem := M |}.
Definition upd (r v : Z) (R : Z -> Z) (r' : Z) : Z := if r' =? r then v else R r'.

Lemma upd_same r v R : upd r v R r = v.
Proof. unfold upd. by rewrite Z.eqb_refl. Qed.
Lemma upd_other r v R r' : r' <> r -> upd r v R r' = R r'.
Proof. intros H. unfold upd. by rewrite (proj2 (Z.eqb_neq _ _) H). Qed.

(** The instruction [j] of the code at [P]. *)
Lemma St_step ws j w i P R F M :
  words M P ws -> ws !! j = Some w -> u32 w = w -> decode_a32 w = Some i ->
  step (St (P + 4 * Z.of_nat j) R F M) = exec 4 i (St (P + 4 * Z.of_nat j) R F M).
Proof. intros Hw Hj Hu Hd. apply (step_arm _ w); try done. cbn [mem pc St]. by rewrite (Hw _ _ Hj). Qed.

Lemma St_add P R F M rd rn imm : 0 <= P -> P + 4 < 2 ^ 32 -> rd <> 15 -> rn <> 15 -> 
  exec 4 (A_ADD 14 rd rn imm) (St P R F M) = Some (St (P + 4) (upd rd (u32 (R rn + imm)) R) F M).
Proof.
  intros H0 H Hd Hn. cbn [exec]. unfold conditional, result_to, get. rewrite cond_holds_al, (proj2 (Z.eqb_neq _ _) Hd), (proj2 (Z.eqb_neq _ _) Hn).
  unfold jump, goto. cbn [pc set St]. by rewrite (wrap_small 32 (P + 4)) by lia.
Qed.

Lemma St_mov P R F M rd rm : 0 <= P -> P + 4 < 2 ^ 32 -> rd <> 15 -> rm <> 15 -> 
  exec 4 (A_MOV 14 rd rm) (St P R F M) = Some (St (P + 4) (upd rd (R rm) R) F M).
Proof.
  intros H0 H Hd Hn. cbn [exec]. unfold conditional, result_to, get. rewrite cond_holds_al, (proj2 (Z.eqb_neq _ _) Hd), (proj2 (Z.eqb_neq _ _) Hn).
  unfold jump, goto. cbn [pc set St]. by rewrite (wrap_small 32 (P + 4)) by lia.
Qed.

Lemma St_str P R F M rt rn off : 0 <= P -> P + 4 < 2 ^ 32 -> rt <> 15 -> rn <> 15 -> 0 <= R rn + off < 2 ^ 32 ->
  exec 4 (A_STR 14 rt rn off) (St P R F M) = Some (St (P + 4) R F (store32 M (R rn + off) (R rt))).
Proof.
  intros H0 H Ht Hn Ha. cbn [exec]. unfold conditional, get. rewrite cond_holds_al, (proj2 (Z.eqb_neq _ _) Ht), (proj2 (Z.eqb_neq _ _) Hn).
  unfold jump, goto. cbn [pc Arm32Machine.set_mem regs flags mem thumb St]. by rewrite (wrap_small 32 (P + 4)), (wrap_small 32 (R rn + off)) by lia.
Qed.

Lemma St_pop P R F M rt : 0 <= P -> P + 4 < 2 ^ 32 -> rt <> 15 -> rt <> 13 -> 0 <= R 13 -> R 13 + 4 < 2 ^ 32 ->
  exec 4 (A_LDR_post 14 rt 13 4) (St P R F M) = Some (St (P + 4) (upd rt (load32 4 M (R 13)) (upd 13 (R 13 + 4) R)) F M).
Proof.
  intros H0 H Ht Hn Ha Hb. cbn [exec]. unfold conditional, get, load_to. rewrite cond_holds_al.
  replace (13 =? rt) with false by (symmetry; apply Z.eqb_neq; congruence). change ((13 =? 15) || false) with false. change (13 =? 15) with false. cbn iota.
  rewrite (proj2 (Z.eqb_neq _ _) Ht). unfold jump, goto. cbn [pc set regs mem flags thumb St].
  by rewrite (wrap_small 32 (P + 4)), (wrap_small 32 (R 13 + 4)) by lia.
Qed.

(** ** Stores and loads of several registers *)

Definition apart (a n b k : Z) : Prop := a + n <= b \/ b + k <= a.

Lemma words_store m P ws a v :
  words m P ws -> 0 <= P -> P + 4 * Z.of_nat (length ws) <= 2 ^ 32 -> 0 <= a -> a + 4 <= 2 ^ 32 ->
  apart P (4 * Z.of_nat (length ws)) a 4 -> words (store32 m a v) P ws.
Proof.
  intros Hw H0 H1 Ha Hb Hd j w E. pose proof (lookup_lt_Some _ _ _ E). rewrite load_store_other by (unfold apart in Hd; lia). by apply Hw.
Qed.

Definition str_regs (R : Z -> Z) (sp : Z) (l : list (Z * Z)) (m : Z -> Z) : Z -> Z :=
  fold_left (fun m x => store32 m (sp + snd x) (R (fst x))) l m.

Definition str_wf (n : Z) (x : Z * Z) : Prop := 0 <= fst x <= 14 /\ 0 <= snd x /\ snd x + 4 <= n.

Lemma str_regs_cons R sp x l m : str_regs R sp (x :: l) m = str_regs R sp l (store32 m (sp + snd x) (R (fst x))).
Proof. done. Qed.

Lemma words_str_regs R sp n P ws l : forall m,
  words m P ws -> Forall (str_wf n) l -> 0 <= P -> P + 4 * Z.of_nat (length ws) <= 2 ^ 32 -> 0 <= sp -> sp + n <= 2 ^ 32 ->
  apart P (4 * Z.of_nat (length ws)) sp n -> words (str_regs R sp l m) P ws.
Proof.
  induction l as [|x l IH]; intros m Hw Hl H0 H1 Hs Hn Hd; [done|]. apply Forall_cons_iff in Hl as [(_ & Hx0 & Hx1) Hl].
  apply IH; try done. apply words_store; try done; unfold apart in *; lia.
Qed.

(** The saves: [l] lists registers with their offsets from sp. *)
Lemma run_saves R F n P l : forall pre post m,
  words m P (pre ++ map (fun x => str_word (fst x) (snd x)) l ++ post) ->
  Forall (str_wf n) l ->
  Forall (fun x => u32 (str_word (fst x) (snd x)) = str_word (fst x) (snd x) /\ decode_a32 (str_word (fst x) (snd x)) = Some (A_STR 14 (fst x) 13 (snd x))) l ->
  0 <= P -> P + 4 * Z.of_nat (length (pre ++ map (fun x => str_word (fst x) (snd x)) l ++ post)) < 2 ^ 32 -> 0 <= R 13 -> R 13 + n <= 2 ^ 32 ->
  apart P (4 * Z.of_nat (length (pre ++ map (fun x => str_word (fst x) (snd x)) l ++ post))) (R 13) n ->
  run (length l) (St (P + 4 * Z.of_nat (length pre)) R F m)
  = Some (St (P + 4 * Z.of_nat (length pre + length l)) R F (str_regs R (R 13) l m)).
Proof.
  induction l as [|x l IH]; intros pre post m Hw Hwf Hdec H0 H1 Hs Hn Hd.
  { cbn [length run str_regs fold_left]. by rewrite Nat.add_0_r. }
  apply Forall_cons_iff in Hwf as [(Hx15 & Hx0 & Hx1) Hwf]. apply Forall_cons_iff in Hdec as [[Hu Hx] Hdec].
  set (w := str_word (fst x) (snd x)) in *.
  assert (Eapp : pre ++ map (fun x => str_word (fst x) (snd x)) (x :: l) ++ post
                 = (pre ++ [w]) ++ map (fun x => str_word (fst x) (snd x)) l ++ post) by (by rewrite <- app_assoc).
  rewrite Eapp in *. assert (Hlen := H1). rewrite !length_app in Hlen. cbn [length] in Hlen |- *.
  eapply run_S.
  - rewrite (St_step _ (length pre) w (A_STR 14 (fst x) 13 (snd x)) P R F m Hw); [|rewrite <- app_assoc; by apply list_lookup_middle|done|done].
    apply St_str; lia.
  - replace (P + 4 * Z.of_nat (length pre) + 4) with (P + 4 * Z.of_nat (length (pre ++ [w]))) by (rewrite length_app; cbn [length]; lia).
    rewrite (IH (pre ++ [w]) post); try done.
    + cbn [str_regs fold_left]. do 2 f_equal. rewrite length_app. cbn [length]. lia.
    + apply words_store; try done; try lia. unfold apart in *. lia.
Qed.

(** The restores. *)
Fixpoint pop_regs (m : Z -> Z) (l : list Z) (R : Z -> Z) : Z -> Z :=
  match l with
  | [] => R
  | r :: l => pop_regs m l (upd r (load32 4 m (R 13)) (upd 13 (R 13 + 4) R))
  end.

Lemma run_pops F m P l : forall pre post R,
  words m P (pre ++ map pop_word l ++ post) ->
  Forall (fun r => r <> 15 /\ r <> 13 /\ u32 (pop_word r) = pop_word r /\ decode_a32 (pop_word r) = Some (A_LDR_post 14 r 13 4)) l ->
  0 <= P -> P + 4 * Z.of_nat (length (pre ++ map pop_word l ++ post)) < 2 ^ 32 -> 0 <= R 13 -> R 13 + 4 * Z.of_nat (length l) < 2 ^ 32 ->
  run (length l) (St (P + 4 * Z.of_nat (length pre)) R F m)
  = Some (St (P + 4 * Z.of_nat (length pre + length l)) (pop_regs m l R) F m).
Proof.
  induction l as [|r l IH]; intros pre post R Hw Hl H0 H1 Hs Hn.
  { cbn [length run pop_regs]. by rewrite Nat.add_0_r. }
  apply Forall_cons_iff in Hl as [(H15 & H13 & Hu & Hx) Hl].
  assert (Eapp : pre ++ map pop_word (r :: l) ++ post = (pre ++ [pop_word r]) ++ map pop_word l ++ post) by (by rewrite <- app_assoc).
  rewrite Eapp in *. assert (Hlen := H1). rewrite !length_app in Hlen. cbn [length] in Hlen, Hn |- *.
  eapply run_S.
  - rewrite (St_step _ (length pre) (pop_word r) (A_LDR_post 14 r 13 4) P R F m Hw); [|rewrite <- app_assoc; by apply list_lookup_middle|done|done].
    apply St_pop; lia.
  - replace (P + 4 * Z.of_nat (length pre) + 4) with (P + 4 * Z.of_nat (length (pre ++ [pop_word r]))) by (rewrite length_app; cbn [length]; lia).
    assert (E13 : upd r (load32 4 m (R 13)) (upd 13 (R 13 + 4) R) 13 = R 13 + 4) by (rewrite upd_other by congruence; apply upd_same).
    rewrite (IH (pre ++ [pop_word r]) post); [|done|done|done|done|rewrite E13; lia|rewrite E13; lia].
    cbn [pop_regs]. do 2 f_equal. rewrite length_app. cbn [length]. lia.
Qed.

Lemma pop_sp m l : forall R, Forall (fun r => r <> 13) l -> pop_regs m l R 13 = R 13 + 4 * Z.of_nat (length l).
Proof.
  induction l as [|r l IH]; intros R Hl; cbn [pop_regs length]; [lia|]. apply Forall_cons_iff in Hl as [Hr Hl].
  rewrite IH by done. rewrite upd_other by congruence. rewrite upd_same. lia.
Qed.

Lemma pop_keeps m l : forall R r, r <> 13 -> r ∉ l -> pop_regs m l R r = R r.
Proof.
  induction l as [|r0 l IH]; intros R r H13 Hr; cbn [pop_regs]; [done|]. apply not_elem_of_cons in Hr as [H0 Hr].
  rewrite IH by done. by rewrite !upd_other by done.
Qed.

Lemma pop_gets m l : forall R i r, NoDup l -> Forall (fun r => r <> 13) l -> l !! i = Some r ->
  pop_regs m l R r = load32 4 m (R 13 + 4 * Z.of_nat i).
Proof.
  induction l as [|r0 l IH]; intros R i r Hnd Hl Hi; [done|]. inversion_clear Hnd as [|? ? Hn Hnd']. apply Forall_cons_iff in Hl as [H13 Hl].
  cbn [pop_regs]. destruct i as [|i]; cbn [lookup list_lookup] in Hi.
  - injection Hi as ->. rewrite pop_keeps by done. rewrite upd_same. f_equal. lia.
  - rewrite (IH _ i r Hnd' Hl Hi). rewrite upd_other by congruence. rewrite upd_same. f_equal. lia.
Qed.

(** ** The register context on the stack *)

Lemma str_regs_other R sp n l : forall m b, Forall (str_wf n) l -> Forall (fun x => apart (sp + snd x) 4 b 4) l ->
  0 <= sp -> sp + n <= 2 ^ 32 -> 0 <= b -> b + 4 <= 2 ^ 32 -> load32 4 (str_regs R sp l m) b = load32 4 m b.
Proof.
  induction l as [|x l IH]; intros m b Hwf Hap H0 Hn Hb Hb'; [done|]. apply Forall_cons_iff in Hwf as [(_ & Hx0 & Hx1) Hwf].
  apply Forall_cons_iff in Hap as [Hx Hap]. rewrite str_regs_cons, IH by done. apply load_store_other; unfold apart in Hx; lia.
Qed.

Lemma str_regs_get R sp n l r off : forall m, Forall (str_wf n) l -> ForallOrdPairs (fun x y => apart (snd x) 4 (snd y) 4) l -> In (r, off) l ->
  0 <= sp -> sp + n <= 2 ^ 32 -> load32 4 (str_regs R sp l m) (sp + off) = u32 (R r).
Proof.
  induction l as [|x l IH]; intros m Hwf Hap Hin H0 Hn; [done|]. apply Forall_cons_iff in Hwf as [(_ & Hx0 & Hx1) Hwf].
  inversion_clear Hap as [|? ? Hx Hap']. rewrite str_regs_cons. destruct Hin as [->|Hin]; [|by apply IH]. cbn [fst snd] in *.
  rewrite (str_regs_other R sp n) by (done || lia || (refine (Forall_impl _ _ Hx); unfold apart; cbn; lia)).
  apply load_store_same; lia.
Qed.

Lemma str_regs_outside R sp n l a : forall m, Forall (str_wf n) l -> 0 <= sp -> sp + n <= 2 ^ 32 -> 0 <= a < 2 ^ 32 -> a < sp \/ sp + n <= a ->
  str_regs R sp l m a = m a.
Proof.
  induction l as [|x l IH]; intros m Hwf H0 Hn Ha Hd; [done|]. apply Forall_cons_iff in Hwf as [(_ & Hx0 & Hx1) Hwf].
  rewrite str_regs_cons, IH by done. apply store_other; lia.
Qed.

Lemma saved_wf : Forall (str_wf 56) saved.
Proof. repeat (apply Forall_cons; [unfold str_wf; cbn; lia|]). apply Forall_nil. Qed.
Lemma saved_apart : ForallOrdPairs (fun x y => apart (snd x) 4 (snd y) 4) saved.
Proof. unfold apart. repeat (apply FOP_cons; [repeat (apply Forall_cons; [cbn; lia|]); apply Forall_nil|]). apply FOP_nil. Qed.

(** Memory when the handler is called: the registers, with r13 for sp, in the context that ends at [sp]. *)
Definition context_mem (R : Z -> Z) (sp : Z) (m : Z -> Z) : Z -> Z := store32 (str_regs R (sp - 56) saved m) (sp - 60) sp.

(** What a context at [ctx] holds. *)
Record context (m : Z -> Z) (ctx : Z) (R : Z -> Z) : Prop := {
  cx_r : forall i, 0 <= i <= 12 -> load32 4 m (ctx + ctx_r i) = R i;
  cx_lr : load32 4 m (ctx + ctx_lr) = R 14;
  cx_sp : load32 4 m (ctx + ctx_sp) = R 13;
}.

Lemma context_saved R sp m : R 13 = sp -> 72 <= sp < 2 ^ 32 -> (forall r, 0 <= r <= 14 -> 0 <= R r < 2 ^ 32) -> context (context_mem R sp m) (sp - 72) R.
Proof.
  intros E Hs HR. unfold context_mem.
  assert (Hget : forall r off, In (r, off) saved -> load32 4 (store32 (str_regs R (sp - 56) saved m) (sp - 60) sp) (sp - 56 + off) = R r).
  { intros r off Hin. pose proof (proj1 (Forall_forall _ _) saved_wf _ Hin) as (Hr & Ho1 & Ho2). cbn [fst snd] in *.
    rewrite load_store_other by lia. rewrite (str_regs_get R (sp - 56) 56 saved r off m saved_wf saved_apart Hin) by lia. by rewrite wrap_small by (apply HR; lia). }
  split; unfold ctx_r, ctx_lr, ctx_sp.
  - intros i Hi. replace (sp - 72 + (16 + 4 * i)) with (sp - 56 + 4 * i) by lia. apply Hget.
    each_index i 13%nat ltac:(vm_compute; tauto).
  - replace (sp - 72 + 68) with (sp - 56 + 52) by lia. apply Hget. vm_compute. tauto.
  - replace (sp - 72 + 12) with (sp - 60) by lia. rewrite load_store_same by lia. rewrite E. apply wrap_small. lia.
Qed.

Lemma context_mem_outside R sp m a : 72 <= sp < 2 ^ 32 -> 0 <= a < 2 ^ 32 -> a < sp - 60 \/ sp <= a -> context_mem R sp m a = m a.
Proof.
  intros Hs Ha Hd. unfold context_mem. rewrite store_other by lia. apply (str_regs_outside R (sp - 56) 56); [exact saved_wf|lia..].
Qed.

Lemma words_ext m m' P ws : words m P ws -> 0 <= P -> P + 4 * Z.of_nat (length ws) <= 2 ^ 32 ->
  (forall a, P <= a < P + 4 * Z.of_nat (length ws) -> m' a = m a) -> words m' P ws.
Proof.
  intros Hw H0 H1 Hm j w E. pose proof (lookup_lt_Some _ _ _ E). rewrite <- (Hw j w E).
  unfold load32, Arm32Machine.bytes_at. f_equal. apply map_ext_in. intros i Hi%in_seq. rewrite wrap_small by lia. apply Hm. lia.
Qed.

(** ** Running the bridge *)

Lemma St_at ws j w i P P' R F M :
  words M P ws -> ws !! j = Some w -> u32 w = w -> decode_a32 w = Some i -> P' = P + 4 * Z.of_nat j ->
  step (St P' R F M) = exec 4 i (St P' R F M).
Proof. intros Hw Hj Hu Hd ->. by apply (St_step ws j w i). Qed.

Ltac upds := repeat first [rewrite upd_same | rewrite upd_other by lia].

Section Bridge.
Context (B h sp : Z) (F : flags_t).
Context (HB0 : 0 <= B) (HB4 : B mod 4 = 0) (HB : B + 200 < 2 ^ 32) (Hsp : 72 <= sp < 2 ^ 32).

Abbreviation bridge := (bridge_words h).

(** One instruction of the bridge: the [j]th, decoded. *)
Ltac go Hw j ins lem := eapply run_S; [rewrite (St_at bridge j _ ins B _ _ _ _ Hw eq_refl eq_refl eq_refl) by lia; apply lem; lia|].

Lemma bridge_saves R m : words m B bridge -> R 13 = sp -> apart B 168 (sp - 56) 56 ->
  run 15 (St B R F m) = Some (St (B + 60) (upd 13 (sp - 56) R) F (str_regs R (sp - 56) saved m)).
Proof.
  intros Hw HR Hap. go Hw 0%nat (A_ADD 14 13 13 (-56)) St_add. rewrite HR, (wrap_small 32 (sp + -56)) by lia. replace (sp + -56) with (sp - 56) by lia.
  pose proof (run_saves (upd 13 (sp - 56) R) F 56 B saved [0xe24dd038] (args_words ++ call_words h ++ restore_words) m Hw saved_wf) as E.
  cbn [length app] in E. change (length saved) with 14%nat in E.
  change (B + 4 * Z.of_nat 1) with (B + 4) in E. change (B + 4 * Z.of_nat (1 + 14)) with (B + 60) in E.
  rewrite E; clear E; rewrite ?upd_same; try lia; [reflexivity| |change (length _) with 41%nat; lia|exact Hap].
  repeat (apply Forall_cons; [split; reflexivity|]). apply Forall_nil.
Qed.

Lemma bridge_args R m : words m B bridge -> R 13 = sp - 56 -> apart B 168 (sp - 60) 4 ->
  exists R', run 6 (St (B + 60) R F m) = Some (St (B + 84) R' F (store32 m (sp - 60) sp)) /\
    R' 0 = sp - 72 /\ R' 1 = R 12 /\ R' 13 = sp - 72 /\ forall r, 2 <= r <= 12 -> R' r = R r.
Proof.
  intros Hw HR Hap.
  assert (Hw' : words (store32 m (sp - 60) sp) B bridge) by (apply words_store; try done; try lia; change (length bridge) with 42%nat; lia).
  exists (upd 1 (R 12) (upd 0 (sp - 72) (upd 13 (sp - 72) (upd 13 (sp - 64) (upd 0 sp R))))). split; [|split_and!; upds; try done; intros; by upds].
  go Hw 15%nat (A_ADD 14 0 13 56) St_add. rewrite HR, (wrap_small 32) by lia. replace (sp - 56 + 56) with sp by lia.
  go Hw 16%nat (A_ADD 14 13 13 (-8)) St_add. rewrite upd_other, HR, (wrap_small 32) by lia. replace (sp - 56 + -8) with (sp - 64) by lia.
  eapply run_S; [rewrite (St_at bridge 17 _ (A_STR 14 0 13 4) B _ _ _ _ Hw eq_refl eq_refl eq_refl) by lia; apply St_str; try lia; rewrite upd_same; lia|].
  rewrite upd_same, (upd_other 13 _ _ 0), upd_same by lia. replace (sp - 64 + 4) with (sp - 60) by lia.
  go Hw' 18%nat (A_ADD 14 13 13 (-8)) St_add. rewrite upd_same, (wrap_small 32) by lia. replace (sp - 64 + -8) with (sp - 72) by lia.
  go Hw' 19%nat (A_MOV 14 0 13) St_mov. rewrite upd_same.
  go Hw' 20%nat (A_MOV 14 1 12) St_mov. upds. cbn [run]. do 2 f_equal. lia.
Qed.

(** The call: control goes to the handler, with the address behind the call in lr. *)
Lemma bridge_calls R m : words m B bridge -> code_pointer h ->
  exists t, run 2 (St (B + 84) R F m) = Some t /\ arrives h (St (B + 92) (upd 14 (B + 88) R) F m) t.
Proof.
  intros Hw Hh. destruct (bx_arrives h (St (B + 92) (upd 14 (B + 88) R) F m) (St (B + 92) (upd 14 (B + 88) R) F m) Hh) as (t & E & Ht); try done.
  exists t. split; [|done]. eapply run_S.
  - rewrite (St_at bridge 21 _ (A_B 14 true 0) B _ _ _ _ Hw eq_refl eq_refl eq_refl) by lia.
    cbn [exec]. unfold conditional. rewrite cond_holds_al. unfold jump, goto. cbn [pc set thumb regs flags mem St].
    rewrite (wrap_small 32 (B + 84 + 4)), (wrap_small 32 (B + 84 + 8 + 0)) by lia. reflexivity.
  - apply (run_S 0 _ t); [|done]. rewrite <- E. replace (B + 84 + 8 + 0) with (B + 92) by lia. replace (B + 84 + 4) with (B + 88) by lia.
    change {| pc := _; thumb := _; regs := _; flags := _; mem := _ |} with (St (B + 92) (upd 14 (B + 88) R) F m).
    rewrite (St_at bridge 23 _ (A_LDR 14 false 15 15 (-4)) B _ _ _ _ Hw eq_refl eq_refl eq_refl) by lia.
    cbn [exec]. unfold conditional, load_to, get, pc_value. rewrite cond_holds_al. change (15 =? 15) with true. cbn iota. cbn [thumb pc mem St].
    rewrite wrap_add_l, (wrap_small 32) by lia. replace (B + 92 + 8 + -4) with (B + 4 * Z.of_nat 24) by lia.
    replace ((B + 4 * Z.of_nat 24) mod 4) with 0 by (rewrite Z.mul_comm, Z_mod_plus_full; done). cbn [Z.eqb].
    rewrite (Hw 24%nat (u32 h) eq_refl), !(wrap_small 32 h) by apply Hh. done.
Qed.

(** The way back: everything is loaded from the context, and control goes to its r12. *)
Lemma bridge_restores R m : words m B bridge -> R 13 = sp - 72 -> code_pointer (load32 4 m (sp - 72 + ctx_r 12)) ->
  exists R' t, run 18 (St (B + 88) R F m) = Some t /\ arrives (load32 4 m (sp - 72 + ctx_r 12)) (St (B + 164) R' F m) t /\
    R' 13 = sp /\ (forall i, 0 <= i <= 12 -> R' i = load32 4 m (sp - 72 + ctx_r i)) /\ R' 14 = load32 4 m (sp - 72 + ctx_lr).
Proof.
  intros Hw HR Hnh. set (R1 := upd 13 (sp - 56) (upd 13 (sp - 64) R)). set (R' := pop_regs m popped R1).
  assert (Hne : Forall (fun r => r <> 13) popped) by (repeat (apply Forall_cons; [lia|]); apply Forall_nil).
  assert (Hget : forall i r, popped !! i = Some r -> R' r = load32 4 m (sp - 56 + 4 * Z.of_nat i)).
  { intros i r Hi. unfold R'. rewrite (pop_gets m popped R1 i r) by (done || (apply (bool_decide_unpack _); vm_compute; exact I)). by unfold R1; rewrite upd_same. }
  assert (Hr : forall i, 0 <= i <= 12 -> R' i = load32 4 m (sp - 72 + ctx_r i)).
  { intros i Hi. rewrite (Hget (Z.to_nat i) i) by (each_index i 13%nat ltac:(reflexivity)). f_equal. unfold ctx_r. lia. }
  destruct (bx_arrives _ (St (B + 164) R' F m) (St (B + 164) R' F m) Hnh) as (t & E & Ht); try done.
  exists R', t. split; [|split; [exact Ht|split; [|split; [exact Hr|]]]].
  - eapply run_S.
    { rewrite (St_at bridge 22 _ (A_B 14 false 4) B _ _ _ _ Hw eq_refl eq_refl eq_refl) by lia. cbn [exec]. unfold conditional. rewrite cond_holds_al.
      unfold jump, goto. cbn [pc thumb regs flags mem St]. rewrite (wrap_small 32) by lia. reflexivity. }
    replace (B + 88 + 8 + 4) with (B + 100) by lia.
    change {| pc := _; thumb := _; regs := _; flags := _; mem := _ |} with (St (B + 100) R F m).
    go Hw 25%nat (A_ADD 14 13 13 8) St_add. rewrite HR, (wrap_small 32) by lia. replace (sp - 72 + 8) with (sp - 64) by lia.
    go Hw 26%nat (A_ADD 14 13 13 8) St_add. rewrite upd_same, (wrap_small 32) by lia. replace (sp - 64 + 8) with (sp - 56) by lia. fold R1.
    pose proof (run_pops F m B popped (save_words ++ args_words ++ call_words h ++ [0xe28dd008; 0xe28dd008]) [0xe1a0f00c] R1 Hw) as Ep.
    change (length popped) with 14%nat in Ep. change (length (_ ++ args_words ++ _)) with 27%nat in Ep.
    rewrite (arm32_run_app 14 1 _ (St (B + 164) R' F m)).
    + apply (run_S 0 _ t); [|done]. rewrite <- E.
      rewrite (St_at bridge 41 _ (A_MOV 14 15 12) B _ _ _ _ Hw eq_refl eq_refl eq_refl) by lia. cbn [exec]. unfold conditional, result_to, get.
      rewrite cond_holds_al. change (15 =? 15) with true. change (12 =? 15) with false. cbn iota. cbn [thumb regs St]. by rewrite Hr by lia.
    + replace (B + 100 + 4 + 4) with (B + 4 * Z.of_nat 27) by lia. rewrite Ep; [do 2 f_equal; lia| |done| |unfold R1; rewrite upd_same; lia..].
      * repeat (apply Forall_cons; [split_and!; [lia|lia|reflexivity|reflexivity]|]). apply Forall_nil.
      * change (length _) with 42%nat. lia.
  - unfold R'. rewrite pop_sp by done. unfold R1. rewrite upd_same. change (length popped) with 14%nat. lia.
  - rewrite (Hget 13%nat 14 eq_refl). f_equal. unfold ctx_lr. lia.
Qed.
End Bridge.

(** ** A call of an instrumented function *)

Definition closure_words (self bridge : Z) : list Z := [0xe51fc000; 0xe51ff000; u32 self; u32 bridge].

Lemma closure_runs T self B R F m :
  words m T (closure_words self B) -> 0 <= T -> T mod 4 = 0 -> T + 16 < 2 ^ 32 -> 0 <= self < 2 ^ 32 -> 0 <= B < 2 ^ 32 -> B mod 4 = 0 ->
  run 2 (St T R F m) = Some (St B (upd 12 self R) F m).
Proof.
  intros Hw H0 H4 Hhi Hs HB HB4. eapply run_S.
  - rewrite (St_at (closure_words self B) 0 _ (A_LDR 14 false 12 15 0) T _ _ _ _ Hw eq_refl eq_refl eq_refl) by lia.
    cbn [exec]. unfold conditional, load_to, get, pc_value. rewrite cond_holds_al. change (15 =? 15) with true. change (12 =? 15) with false. cbn iota.
    cbn [thumb pc mem St]. rewrite wrap_add_l, load32_wrap. replace (T + 8 + 0) with (T + 4 * Z.of_nat 2) by lia.
    rewrite (Hw 2%nat (u32 self) eq_refl), !(wrap_small 32 self) by done. unfold jump, goto. cbn [pc set regs flags mem thumb St].
    rewrite (wrap_small 32) by lia. reflexivity.
  - change {| pc := _; thumb := _; regs := _; flags := _; mem := _ |} with (St (T + 4) (upd 12 self R) F m).
    apply (run_S 0 _ (St B (upd 12 self R) F m)); [|done].
    rewrite (St_at (closure_words self B) 1 _ (A_LDR 14 false 15 15 0) T _ _ _ _ Hw eq_refl eq_refl eq_refl) by lia.
    cbn [exec]. unfold conditional, load_to, get, pc_value. rewrite cond_holds_al. change (15 =? 15) with true. cbn iota.
    cbn [thumb pc mem St]. rewrite wrap_add_l. replace (T + 4 + 8 + 0) with (T + 4 * Z.of_nat 3) by lia. rewrite (wrap_small 32) by lia.
    replace ((T + 4 * Z.of_nat 3) mod 4) with 0 by (rewrite Z.mul_comm, Z_mod_plus_full; done). cbn [Z.eqb].
    rewrite (Hw 3%nat (u32 B) eq_refl), !(wrap_small 32 B) by done. unfold bx_to, goto.
    assert (E2 : B mod 2 = 0) by (revert HB4; Z.div_mod_to_equations; lia). rewrite E2, HB4. cbn [Z.eqb thumb regs flags mem St]. by rewrite (wrap_small 32 B) by done.
Qed.

(** The code at [h] is the compiled function [eff], a function of two words that changes memory: called by the procedure
    call standard where [ok] holds of its first argument and of memory, it returns to lr, with sp and r4 to r11 unchanged, and has the effect of [eff]
    but for [K] bytes below sp. *)
Definition compiled (h K : Z) (ok : Z -> memory -> Prop) (eff : Z -> Z -> memory -> option memory) : Prop :=
  forall s m', pc s = h - h mod 2 -> thumb s = (h mod 2 =? 1) -> ok (regs s 0) (mem s) ->
    regs s 13 mod 8 = 0 -> K <= regs s 13 < 2 ^ 32 -> 0 <= regs s 14 < 2 ^ 32 -> regs s 14 mod 4 = 0 ->
    eff (regs s 0) (regs s 1) (mem s) = Some m' ->
    exists n t, run n s = Some t /\ pc t = regs s 14 /\ thumb t = false /\ regs t 13 = regs s 13 /\
      (forall r, 4 <= r <= 11 -> regs t r = regs s r) /\
      forall a, 0 <= a < 2 ^ 32 -> a < regs s 13 - K \/ regs s 13 <= a -> mem t a = m' a.

(** A closure trampoline at [T] and the bridge at [B] in the memory of [s], and room on the stack for the context and the
    handler's [K] bytes. *)
Record instrumented_state (s : state) (T B h K self : Z) : Prop := {
  is_tramp : words (mem s) T (closure_words self B);
  is_bridge : words (mem s) B (bridge_words h);
  is_T : 0 <= T /\ T mod 4 = 0 /\ T + 16 < 2 ^ 32;
  is_B : 0 <= B /\ B mod 4 = 0 /\ B + 200 < 2 ^ 32;
  is_self : 0 <= self < 2 ^ 32;
  is_handler : code_pointer h;
  is_regs : forall r, 0 <= r <= 14 -> 0 <= regs s r < 2 ^ 32;
  is_stack : 0 <= K /\ 72 + K <= regs s 13 /\ regs s 13 mod 8 = 0;
  is_apart : apart B 168 (regs s 13 - 72 - K) (72 + K);
}.


(** Into the handler. *)
Lemma instrumented_enters s T B h K self : instrumented_state s T B h K self ->
  let m := context_mem (upd 12 self (regs s)) (regs s 13) (mem s) in
  words m B (bridge_words h) /\
  exists t, run 25 (at_pc T false s) = Some t /\ pc t = h - h mod 2 /\ thumb t = (h mod 2 =? 1) /\ mem t = m /\
    regs t 0 = regs s 13 - 72 /\ regs t 1 = self /\ regs t 13 = regs s 13 - 72 /\ regs t 14 = B + 88.
Proof.
  intros [Ht Hb (HT0 & HT4 & HT) (HB0 & HB4 & HB) Hself Hh Hregs (HK & Hst & Hs8) Hap] m. set (sp := regs s 13) in *.
  pose proof (Hregs 13 ltac:(lia)) as Hsp. fold sp in Hsp.
  pose proof (closure_runs T self B (regs s) (flags s) (mem s) Ht HT0 HT4 HT Hself ltac:(lia) HB4) as E1.
  set (R := upd 12 self (regs s)) in *. assert (HR : R 13 = sp) by done.
  pose proof (bridge_saves B h sp (flags s) HB0 HB ltac:(lia) R (mem s) Hb HR ltac:(unfold apart in *; lia)) as E2.
  assert (Hw1 : words (str_regs R (sp - 56) saved (mem s)) B (bridge_words h)).
  { apply (words_str_regs R (sp - 56) 56); [done|exact saved_wf|done|change (length _) with 42%nat; lia|lia|lia|].
    change (length _) with 42%nat. unfold apart in *. lia. }
  destruct (bridge_args B h sp (flags s) HB0 HB ltac:(lia) (upd 13 (sp - 56) R) _ Hw1 (upd_same _ _ _) ltac:(unfold apart in *; lia))
    as (R2 & E3 & A0 & A1 & A13 & _).
  change (store32 (str_regs R (sp - 56) saved (mem s)) (sp - 60) sp) with m in E3.
  assert (Hw2 : words m B (bridge_words h)).
  { apply words_store; [done|done|change (length _) with 42%nat; lia|lia|lia|]. change (length _) with 42%nat. unfold apart in *. lia. }
  split; [exact Hw2|]. destruct (bridge_calls B h (flags s) HB0 HB4 HB R2 m Hw2 Hh) as (t & E4 & [P1 P2 P3 _ P5]).
  exists t. split; [|rewrite P3; by split_and!].
  change (at_pc T false s) with (St T (regs s) (flags s) (mem s)).
  change 25%nat with (2 + (15 + (6 + 2)))%nat. rewrite (arm32_run_app _ _ _ _ E1), (arm32_run_app _ _ _ _ E2), (arm32_run_app _ _ _ _ E3). exact E4.
Qed.

(** And back, to the r12 the handler left in the context. *)
Lemma instrumented_returns s T B h K self t m' : instrumented_state s T B h K self ->
  let sp := regs s 13 in
  pc t = B + 88 -> thumb t = false -> regs t 13 = sp - 72 ->
  (forall a, 0 <= a < 2 ^ 32 -> a < sp - 72 - K \/ sp - 72 <= a -> mem t a = m' a) -> words m' B (bridge_words h) ->
  code_pointer (load32 4 m' (sp - 72 + ctx_r 12)) ->
  exists u, run 18 t = Some u /\ pc u = load32 4 m' (sp - 72 + ctx_r 12) - load32 4 m' (sp - 72 + ctx_r 12) mod 2 /\
    thumb u = (load32 4 m' (sp - 72 + ctx_r 12) mod 2 =? 1) /\ context m' (sp - 72) (upd 13 (load32 4 m' (sp - 72 + ctx_sp)) (regs u)) /\
    regs u 13 = sp /\ mem u = mem t.
Proof.
  intros [Ht Hb (HT0 & HT4 & HT) (HB0 & HB4 & HB) Hself Hh Hregs (HK & Hst & Hs8) Hap] sp Hpc Hth H13 Hm Hw Hnh.
  pose proof (Hregs 13 ltac:(lia)) as Hsp. fold sp in Hsp, Hst, Hap.
  assert (Hld : forall off, 0 <= off -> off + 4 <= 72 -> load32 4 (mem t) (sp - 72 + off) = load32 4 m' (sp - 72 + off)).
  { intros off H1 H2. unfold load32, Arm32Machine.bytes_at. f_equal. apply map_ext_in. intros i Hi%in_seq. rewrite wrap_small by lia. apply Hm; lia. }
  assert (Hw' : words (mem t) B (bridge_words h)).
  { apply (words_ext m'); [done|done|change (length _) with 42%nat; lia|]. change (length _) with 42%nat. intros a Ha. apply Hm; unfold apart in *; lia. }
  assert (Er : forall i, 0 <= i <= 12 -> load32 4 (mem t) (sp - 72 + ctx_r i) = load32 4 m' (sp - 72 + ctx_r i)) by (intros i Hi; apply Hld; unfold ctx_r; lia).
  rewrite <- (Er 12) in * by lia.
  assert (Et : t = St (B + 88) (regs t) (flags t) (mem t)) by (destruct t; cbn in *; by rewrite Hpc, Hth).
  destruct (bridge_restores B h sp (flags t) HB0 HB ltac:(lia) (regs t) (mem t) Hw' H13 Hnh) as (R & u & E & [P1 P2 P3 _ P5] & Q13 & Qr & Qlr).
  exists u. rewrite Et at 1. split; [exact E|]. split; [exact P1|]. split; [exact P2|]. rewrite P3. split; [|by split].
  split.
  - intros i Hi. rewrite upd_other by lia. rewrite <- Er by done. symmetry. by apply Qr.
  - rewrite upd_other by lia. rewrite <- Hld by (unfold ctx_lr; lia). by symmetry.
  - by rewrite upd_same.
Qed.

(** The context with the next hop. *)
Lemma next_hop_context m ctx a R : 0 <= ctx -> ctx + 72 <= 2 ^ 32 -> context (set_routing_bridge_next_hop ctx a m) ctx R ->
  R 12 = u32 a /\ context m ctx (upd 12 (load32 4 m (ctx + ctx_r 12)) R).
Proof.
  intros H0 H1 [Hr Hlr Hsp].
  assert (Hoth : forall off, 0 <= off -> off + 4 <= ctx_r 12 \/ ctx_r 12 + 4 <= off -> off + 4 <= 72 ->
                   load32 4 (set_routing_bridge_next_hop ctx a m) (ctx + off) = load32 4 m (ctx + off)).
  { intros off Ho1 Ho2 Ho3. apply load_store_other; unfold ctx_r in *; lia. }
  split; [|split].
  - rewrite <- Hr by lia. apply load_store_same; unfold ctx_r; lia.
  - intros i Hi. destruct (decide (i = 12)) as [->|]; [by rewrite upd_same|]. rewrite upd_other, <- Hr by lia. symmetry. apply Hoth; unfold ctx_r; lia.
  - rewrite upd_other, <- Hlr by lia. symmetry. apply Hoth; unfold ctx_r, ctx_lr; lia.
  - rewrite upd_other, <- Hsp by lia. symmetry. apply Hoth; unfold ctx_r, ctx_sp; lia.
Qed.

(** The memory the pre-handler of an entry leaves. *)
Definition pre_handled (e : instrumented) (ctx : Z) (m : memory) : memory :=
  match pre_handler e with Some f => f (i_addr e) ctx m | None => m end.

(** C12: A call of an instrumented function.  Entered at its closure trampoline, the function's registers, sp and lr are in the
    register context the pre-handler is given (r12 holds the trampoline).  When the pre-handler is done, control arrives at
    the relocated function with the registers as the pre-handler left them in the context, sp as at the call whatever the
    context says, and r12 the relocated function itself; memory is what the pre-handler left, but for the handler's stack and
    the next hop in the context.  Without a pre-handler no register but r12 changes. *)
Theorem instrumented_call_resumes s T B h K self ok tramps handlers tr e :
  instrumented_state s T B h K self ->
  compiled h K ok (common_closure_bridge_handler tramps handlers) ->
  tramps self = Some tr -> handlers (carry_handler tr) = Some (fun _ => instrument_routing_dispatch e) -> code_pointer (i_relocated e) ->
  let sp := regs s 13 in let ctx := sp - 72 in
  let m := context_mem (upd 12 self (regs s)) sp (mem s) in let m' := pre_handled e ctx m in
  ok ctx m -> (forall a, B <= a < B + 168 -> m' a = m a) ->
  context m ctx (upd 12 self (regs s)) /\
  exists n t, run n (at_pc T false s) = Some t /\ pc t = i_relocated e - i_relocated e mod 2 /\ thumb t = (i_relocated e mod 2 =? 1) /\
    context m' ctx (upd 12 (load32 4 m' (ctx + ctx_r 12)) (upd 13 (load32 4 m' (ctx + ctx_sp)) (regs t))) /\
    regs t 13 = sp /\ regs t 12 = i_relocated e /\
    (pre_handler e = None -> forall r, 0 <= r <= 14 -> r <> 12 -> regs t r = regs s r) /\
    forall a, 0 <= a < 2 ^ 32 -> a < ctx - K \/ ctx + sizeof_DobbyRegisterContext <= a -> mem t a = m' a.
Proof.
  intros Hi Hcomp Htr Hha Hrel sp ctx m m' Hok Hkeep. pose proof Hi as [_ _ _ (HB0 & HB4 & HB) Hself Hh Hregs (HK & Hst & Hs8) Hap].
  pose proof (Hregs 13 ltac:(lia)) as Hsp. fold sp in Hsp, Hst, Hap, Hs8.
  assert (Hctx : context m ctx (upd 12 self (regs s))).
  { apply context_saved; [done|lia|]. intros r Hr. unfold upd. destruct (r =? 12); [done|by apply Hregs]. }
  split; [exact Hctx|]. destruct (instrumented_enters _ _ _ _ _ _ Hi) as (Hw & t1 & E1 & P1 & P2 & P3 & P4 & P5 & P6 & P7). fold sp ctx m in Hw, P3, P4, P6.
  set (m3 := set_routing_bridge_next_hop ctx (i_relocated e) m').
  destruct (Hcomp t1 m3) as (n & t2 & E2 & Q1 & Q2 & Q3 & _ & Q4); try done.
  { by rewrite P3, P4. } { rewrite P6. unfold ctx. revert Hs8. Z.div_mod_to_equations; lia. } { rewrite P6. unfold ctx. lia. } { rewrite P7. lia. }
  { rewrite P7. revert HB4. Z.div_mod_to_equations; lia. }
  { rewrite P3, P4, P5. unfold common_closure_bridge_handler. rewrite Htr. cbn [mbind option_bind]. rewrite Hha. done. }
  rewrite P7 in Q1. rewrite P6 in Q3, Q4.
  assert (Hnh : load32 4 m3 (ctx + ctx_r 12) = i_relocated e).
  { unfold m3, set_routing_bridge_next_hop. rewrite load_store_same by (unfold ctx, ctx_r; lia). by rewrite wrap_small by apply Hrel. }
  destruct (instrumented_returns _ _ _ _ _ _ t2 m3 Hi Q1 Q2 Q3) as (u & E3 & U1 & U2 & Uc & U13 & Um); fold sp ctx.
  { exact Q4. }
  { apply (words_ext m); [done|done|change (length _) with 42%nat; lia|]. change (length _) with 42%nat. intros a Ha.
    unfold m3, set_routing_bridge_next_hop. rewrite <- Hkeep by done. apply store_other; unfold apart, ctx, ctx_r in *; lia. }
  { by rewrite Hnh. }
  fold sp ctx in U1, U2, Uc, U13. rewrite Hnh in U1, U2.
  apply (next_hop_context m' ctx) in Uc as [U12 Hc']; [|unfold ctx; lia..]. rewrite upd_other, wrap_small in U12 by (lia || apply Hrel).
  assert (Esp : load32 4 m3 (ctx + ctx_sp) = load32 4 m' (ctx + ctx_sp)) by (apply load_store_other; unfold ctx, ctx_r, ctx_sp; lia).
  rewrite Esp in Hc'.
  exists (25 + (n + 18))%nat, u. rewrite (arm32_run_app _ _ _ _ E1), (arm32_run_app _ _ _ _ E2).
  split; [exact E3|]. split; [exact U1|]. split; [exact U2|]. split; [exact Hc'|]. split; [exact U13|]. split; [|split].
  - exact U12.
  - intros Hnone r Hr H12. destruct (decide (r = 13)) as [->|H13]; [exact U13|].
    assert (Em : m' = m) by (unfold m', pre_handled; by rewrite Hnone). rewrite Em in Hc'. destruct (decide (r = 14)) as [->|H14].
    + pose proof (cx_lr _ _ _ Hctx) as X. rewrite (cx_lr _ _ _ Hc') in X. by rewrite !upd_other in X by lia.
    + pose proof (cx_r _ _ _ Hctx r ltac:(lia)) as X. rewrite (cx_r _ _ _ Hc' r ltac:(lia)) in X. by rewrite !upd_other in X by lia.
  - intros a Ha Hout. rewrite Um, Q4 by (unfold sizeof_DobbyRegisterContext, ctx in *; lia). unfold m3, set_routing_bridge_next_hop.
    apply store_other; unfold sizeof_DobbyRegisterContext, ctx, ctx_r in *; lia.
Qed.

(** A handler that stores 0x9001, the address of the relocated function, as the next hop: [ldr r2, [pc, #4];
    str r2, [r0, #64]; mov pc, lr] and the address. *)
Definition sample_handler : list Z := [0xe59f2004; 0xe5802040; 0xe1a0f00e; 0x9001].
Definition sample_closure : ClosureTrampoline :=
  {| ct_type := CLOSURE_TRAMPOLINE_ARM; ct_buffer := {| start_ := 0x1000; rsize := 16 |}; carry_data := 0x7100; carry_handler := 0x7200 |}.
Definition sample_entry : instrumented := {| i_addr := 0x4000; i_relocated := 0x9001; pre_handler := None |}.
Definition sample_tramps (a : Z) : option ClosureTrampoline := if a =? 0x7000 then Some sample_closure else None.
Definition sample_handlers (a : Z) : option (Z -> Z -> memory -> memory) := if a =? 0x7200 then Some (fun _ => instrument_routing_dispatch sample_entry) else None.

Definition sample_ok (ctx : Z) (m : memory) : Prop := words m 0x3000 sample_handler /\ 0x4000 <= ctx /\ ctx + 72 <= 2 ^ 32.

Lemma sample_compiled : compiled 0x3000 0 sample_ok (common_closure_bridge_handler sample_tramps sample_handlers).
Proof.
  intros [p th R F M] m' Hp Ht (Hw & Hc1 & Hc2) H8 HK Hlr Hlr4 Heff. cbn [pc thumb regs mem] in *. change (p = 0x3000) in Hp. change (th = false) in Ht. subst p th.
  change {| pc := _; thumb := _; regs := _; flags := _; mem := _ |} with (St 0x3000 R F M).
  assert (Em : m' = store32 M (R 0 + 64) 0x9001).
  { unfold common_closure_bridge_handler, sample_tramps in Heff. destruct (R 1 =? _); [|done]. cbn [mbind option_bind] in Heff.
    change (sample_handlers (carry_handler sample_closure)) with (Some (fun _ : Z => instrument_routing_dispatch sample_entry)) in Heff. by injection Heff as <-. }
  subst m'. set (R' := upd 2 0x9001 R).
  assert (Hw' : words (store32 M (R 0 + 64) 0x9001) 0x3000 sample_handler).
  { apply words_store; [done|lia|change (length _) with 4%nat; lia|lia|lia|]. change (length _) with 4%nat. unfold apart. lia. }
  exists 3%nat, (St (R 14) R' F (store32 M (R 0 + 64) 0x9001)). split; [|split_and!; try done; intros r Hr; exact (upd_other 2 _ R r ltac:(lia))].
  eapply run_S.
  { rewrite (St_at sample_handler 0 _ (A_LDR 14 false 2 15 4) 0x3000 _ _ _ _ Hw eq_refl eq_refl eq_refl) by lia. cbn [exec].
    unfold conditional, load_to, get, pc_value. rewrite cond_holds_al. change (2 =? 15) with false. change (15 =? 15) with true. cbn iota. cbn [thumb pc mem St].
    change (u32 (u32 (0x3000 + 8) + 4)) with (0x3000 + 4 * Z.of_nat 3). rewrite (Hw 3%nat 0x9001 eq_refl). reflexivity. }
  eapply run_S.
  { change (jump _ _) with (St (0x3000 + 4) R' F M).
    rewrite (St_at sample_handler 1 _ (A_STR 14 2 0 64) 0x3000 _ _ _ _ Hw eq_refl eq_refl eq_refl) by lia.
    apply St_str; try lia. change (R' 0) with (R 0). lia. }
  change (R' 0) with (R 0). change (R' 2) with 0x9001.
  apply (run_S 0 _ (St (R 14) R' F (store32 M (R 0 + 64) 0x9001))); [|done].
  rewrite (St_at sample_handler 2 _ (A_MOV 14 15 14) 0x3000 _ _ _ _ Hw' eq_refl eq_refl eq_refl) by lia. cbn [exec].
  unfold conditional, result_to, get. rewrite cond_holds_al. change (15 =? 15) with true. change (14 =? 15) with false. cbn iota. cbn [thumb regs St].
  change (R' 14) with (R 14). unfold bx_to, goto. assert (E2 : R 14 mod 2 = 0) by (revert Hlr4; Z.div_mod_to_equations; lia).
  rewrite E2, Hlr4. cbn [Z.eqb thumb regs flags mem St]. by rewrite (wrap_small 32 (R 14)) by done.
Qed.

(** The trampoline at 0x1000, the bridge at 0x2000, the handler at 0x3000; each register holds its number, sp 0x8000. *)
Definition sample_memory (a : Z) : Z :=
  if a <? 0x2000 then nth (Z.to_nat (a - 0x1000)) (flat 4 (closure_words 0x7000 0x2000)) 0
  else if a <? 0x3000 then nth (Z.to_nat (a - 0x2000)) (flat 4 (bridge_words 0x3000)) 0
  else nth (Z.to_nat (a - 0x3000)) (flat 4 sample_handler) 0.
Definition sample_call : state :=
  {| pc := 0x1000; thumb := false; regs := upd 13 0x8000 (fun r => r); flags := flags (boot32 0 false []); mem := sample_memory |}.

Lemma sample_loaded : loaded32 sample_memory 0x1000 (flat 4 (closure_words 0x7000 0x2000)) /\
  loaded32 sample_memory 0x2000 (flat 4 (bridge_words 0x3000)) /\ loaded32 sample_memory 0x3000 (flat 4 sample_handler).
Proof.
  split_and!; split; try lia; try (vm_compute; reflexivity); intros i Hi; rewrite a32_length_flat in Hi; unfold sample_memory.
  - change (length _) with 4%nat in Hi. rewrite (proj2 (Z.ltb_lt _ _)) by lia. f_equal. lia.
  - change (length _) with 42%nat in Hi. rewrite (proj2 (Z.ltb_ge _ _)), (proj2 (Z.ltb_lt _ _)) by lia. f_equal. lia.
  - change (length _) with 4%nat in Hi. rewrite !(proj2 (Z.ltb_ge _ _)) by lia. f_equal. lia.
Qed.

Lemma sample_words P ws : loaded32 sample_memory P (flat 4 ws) -> words sample_memory P ws.
Proof. intros H. apply (loaded_words _ _ _ []). by rewrite app_nil_r. Qed.

Lemma sample_instrumented : instrumented_state sample_call 0x1000 0x2000 0x3000 0 0x7000.
Proof.
  destruct sample_loaded as (H1 & H2 & H3).
  split; [by apply sample_words|by apply sample_words|vm_compute; by split_and!|vm_compute; by split_and!|lia|split; [lia|by right]| | |].
  - intros r Hr. cbn [regs sample_call]. unfold upd. destruct (r =? 13); lia.
  - change (regs sample_call 13) with 0x8000. split_and!; [lia|lia|reflexivity].
  - change (regs sample_call 13) with 0x8000. unfold apart. lia.
Qed.

Example instrumented_call_resumes_witness :
  exists n t, run n (at_pc 0x1000 false sample_call) = Some t /\ pc t = 0x9000 /\ thumb t = true /\ regs t 13 = 0x8000 /\ regs t 0 = 0 /\ regs t 14 = 14.
Proof.
  destruct (instrumented_call_resumes sample_call 0x1000 0x2000 0x3000 0 0x7000 sample_ok sample_tramps sample_handlers sample_closure sample_entry
              sample_instrumented sample_compiled eq_refl eq_refl ltac:(split; [by vm_compute|by left])) as (_ & n & t & Hr & Hpc & Ht & _ & Hsp & _ & Hregs & _).
  - split; [|by vm_compute]. apply (words_ext sample_memory); [apply sample_words, sample_loaded|lia|vm_compute; discriminate|].
    intros a Ha. change (length sample_handler) with 4%nat in Ha. apply context_mem_outside; change (regs sample_call 13) with 0x8000; lia.
  - intros a Ha. reflexivity.
  - exists n, t. split; [exact Hr|]. split; [exact Hpc|]. split; [exact Ht|]. split; [exact Hsp|].
    split; [exact (Hregs eq_refl 0 ltac:(lia) ltac:(lia))|exact (Hregs eq_refl 14 ltac:(lia) ltac:(lia))].
Defined.
