(* ===== verification/Arm32ClosureSpec.v ===== *)
(** * The closure trampolines of ARM32 are generated correctly

    What [GenerateClosureTrampoline] leaves in the address space: the words of the
    trampoline in a block of its own, and one bridge that all trampolines share. *)

From stdpp Require Import gmap.
From S2P Require Import Arm64Trampoline CodePatch MemoryAllocator MemoryAllocatorSpec HookRouting InstrumentRouting HookBlocks.
From S2P Require Import Prelude UtilityMacro CodeMemBuffer Arm32Assembler Arm32Closure Arm32Relocation Arm32Emission Arm32Block Arm32Instrument.
#[local] Open Scope machine_scope.
#[local] Open Scope Z_scope.

(** ** The code of the trampoline *)

(** A local label that the instruction at [off] refers to. *)
Definition pending (off : nat) : RelocDataLabel :=
  {| pos := 0; ref_insts := [{| link_type := kLdrLiteral; inst_offset := Z.of_nat off; pc_offset_ := Z.of_nat off |}]; data_ := []; is_pc_register_ := false |}.

Lemma Ldr_local_ok rt a l : 0 <= rt < 16 -> membuffer_rep (buffer_ a) l -> fits l (le_bytes 4 (arm_ldr rt 15)) ->
  exists m, Ldr_local rt PseudoLabel_new a = Ret (pending (length l), with_buffer m a) /\ membuffer_rep m (l ++ le_bytes 4 (arm_ldr rt 15)).
Proof.
  intros Hr Hm Hf. destruct (emits_arm_ldr rt 15 Hr ltac:(lia) a l Hm Hf) as (m & E & Hm'). exists m. split; [|exact Hm'].
  unfold Ldr_local. change (negb (pos PseudoLabel_new =? 0)) with false. cbn iota. change Arm32Assembler.pc with 15. rewrite E. cbn [mbind outcome_bind].
  unfold link_to, pending, size. cbn [ref_insts PseudoLabel_new app pos data_ is_pc_register_]. rewrite (mb_size _ _ Hm).
  unfold fits, cb_limit in Hf. by rewrite wrap_small by lia.
Qed.

Lemma bindLabel_ok off a l : membuffer_rep (buffer_ a) l -> (off mod 4 = 0)%nat -> (off + 4 <= length l)%nat -> Z.of_nat (length l) <= cb_limit ->
  exists lab m, bindLabel (pending off) a = Ret (lab, with_buffer m a) /\
    membuffer_rep m (splice l off (arm_slot (Z.of_nat (length l) - Z.of_nat off) (slot_at l off))).
Proof.
  intros Hm H4 Hoff Hlim. destruct (link_arm_ok (Z.of_nat (length l)) _ l off Hm H4 Hoff) as (m & E & Hm'); [lia|].
  do 2 eexists. split; [|exact Hm']. unfold bindLabel, pc_offset, size. rewrite (mb_size _ _ Hm).
  cbn [bind_to pending has_confused_instructions ref_insts pos link_confused_instructions]. rewrite E. reflexivity.
Qed.

(** All but the last word is emitted before the bridge is asked for. *)
Lemma closure_prefix self : exists m1 m2 m3 m4 m5 x1 x2,
  let a0 := TurboAssembler_new 0 MemBuffer_new in
  Ldr_local r12 PseudoLabel_new a0 = Ret (pending 0, with_buffer m1 a0) /\
  Ldr_local Arm32Assembler.pc PseudoLabel_new (with_buffer m1 a0) = Ret (pending 4, with_buffer m2 a0) /\
  bindLabel (pending 0) (with_buffer m2 a0) = Ret (x1, with_buffer m3 a0) /\
  EmitAddress self (with_buffer m3 a0) = Ret (with_buffer m4 a0) /\
  bindLabel (pending 4) (with_buffer m4 a0) = Ret (x2, with_buffer m5 a0) /\
  membuffer_rep m5 (flat 4 [0xe51fc000; 0xe51ff000; u32 self]).
Proof.
  set (a0 := TurboAssembler_new 0 MemBuffer_new).
  destruct (Ldr_local_ok 12 a0 [] ltac:(lia) new_ok ltac:(by vm_compute)) as (m1 & E1 & H1).
  destruct (Ldr_local_ok 15 (with_buffer m1 a0) _ ltac:(lia) H1 ltac:(by vm_compute)) as (m2 & E2 & H2).
  destruct (bindLabel_ok 0 (with_buffer m2 a0) _ H2 eq_refl ltac:(vm_compute; lia) ltac:(by vm_compute)) as (x1 & m3 & E3 & H3).
  set (l3 := splice _ _ _) in H3. change l3 with (flat 4 [0xe51fc000; 0xe59ff000]) in H3. clear l3.
  destruct (emits_address self (with_buffer m3 a0) _ H3 ltac:(by vm_compute)) as (m4 & E4 & H4).
  destruct (bindLabel_ok 4 (with_buffer m4 a0) _ H4 eq_refl) as (x2 & m5 & E5 & H5);
    [rewrite length_app, length_le_bytes; vm_compute; lia|rewrite length_app, length_le_bytes; by vm_compute|].
  exists m1, m2, m3, m4, m5, x1, x2. by split_and!.
Qed.

(** ** The address space *)

Section Space.
Context (PageSize pk : Z).
Hypothesis page_size : PageSize = 2 ^ pk.
Hypothesis pk_range : 12 <= pk < 31.
Context (handler : Z).

Abbreviation blocks c := (live (gMemoryAllocator c)).
Abbreviation core_ok := (core_ok PageSize).
Abbreviation answer_ok := (answer_ok PageSize).
Abbreviation stored := (stored PageSize).

Lemma finalize32_cases os a l c :
  core_ok c -> answer_ok os c -> quiet c -> realized_addr_ a = 0 -> membuffer_rep (buffer_ a) l -> 0 < Z.of_nat (length l) -> Z.of_nat (length l) + 4 <= PageSize ->
  exists b c', Arm32Closure.FinalizeFromTurboAssembler PageSize os a c = Ret (b, c') /\
    ((b = MemRange_empty /\ core_ok c' /\ undisturbed PageSize c c' /\ blocks c' = blocks c /\ (os_page os = None \/ os_permission os = false)) \/
     exists r, b = {| start_ := r_addr r; rsize := Z.of_nat (length l) |} /\ stored c c' r l).
Proof.
  intros Hc Han Hq Hf Hrep Hn HnP. unfold Arm32Closure.FinalizeFromTurboAssembler, CodeMemBuffer.size.
  rewrite (dup_ok _ _ Hrep), (mb_size _ _ Hrep), Hf. cbn [mbind outcome_bind Z.eqb]. rewrite defined_bytes_ok. cbn [mbind outcome_bind].
  destruct (alloc_and_patch PageSize pk page_size pk_range os (Z.of_nat (length l) + 4) l c Hc Han Hq ltac:(lia) HnP) as (b & c1 & -> & _ & Hcase).
  cbn [mbind outcome_bind]. destruct Hcase as [(-> & Hrest)|(r & v & -> & Hr0 & _ & Ev & _ & Hst)].
  { exists MemRange_empty, c1. split; [done|]. by left. }
  cbn [addr start_]. rewrite (proj2 (Z.eqb_neq _ _) Hr0), Ev. cbn [mbind outcome_bind]. do 2 eexists. split; [reflexivity|]. right. by exists r.
Qed.

(** The block [r] is handed out, executable, and holds the bytes [l]. *)
Definition holds (c : core) (r : AllocationRecord) (l : list Z) : Prop :=
  r ∈ blocks c /\ r_exec r = true /\ Z.of_nat (length l) <= r_size r /\
  forall i, (i < length l)%nat -> vm_mem (space c) (r_addr r + Z.of_nat i) = nth i l 0.

(** The bridge was not built yet, or it is in a block of its own. *)
Record bridge_ok (st : bridge_state) : Prop := {
  bo_core : core_ok (b_core st);
  bo_quiet : quiet (b_core st);
  bo_bridge : closure_bridge st <> 0 -> exists r, r_addr r = closure_bridge st /\ holds (b_core st) r (flat 4 (bridge_words handler));
}.

(** Blocks that stay handed out keep what they hold. *)
Lemma holds_undisturbed c c' r l : undisturbed PageSize c c' -> (forall r0, r0 ∈ blocks c -> r0 ∈ blocks c') -> holds c r l -> holds c' r l.
Proof.
  intros Hun Hbl (Hin & He & Hsz & Hb). split; [by apply Hbl|]. split; [done|]. split; [done|]. intros i Hi. rewrite <- Hb by done.
  apply (un_mem _ _ _ Hun). left. split; exists r; (split; [|lia]); [done|by apply Hbl].
Qed.

Lemma stored_holds c c' r l : stored c c' r l ->
  core_ok c' /\ undisturbed PageSize c c' /\ (forall r0, r0 ∈ blocks c -> r0 ∈ blocks c') /\ holds c' r l /\ 0 < r_addr r /\ (forall r0, r0 ∈ blocks c -> MemoryAllocatorSpec.disjoint r0 r).
Proof.
  intros (Hc & Hun & Hbl & He & Hsz & _ & Hpos & Hd & Hb). split; [done|]. split; [done|]. split; [intros r0 Hr0; rewrite Hbl; by right|].
  split; [|done]. split; [rewrite Hbl; by left|done].
Qed.

Lemma bridge_length : length (flat 4 (bridge_words handler)) = 168%nat.
Proof. by rewrite a32_length_flat. Qed.

(** [get_closure_bridge_addr]: the bridge is built at the first call; a second call returns it. *)
Lemma get_bridge_ok os st : bridge_ok st -> (closure_bridge st = 0 -> answer_ok os (b_core st)) ->
  exists st', get_closure_bridge_addr PageSize os handler st = Ret (closure_bridge st', st') /\ bridge_ok st' /\
    undisturbed PageSize (b_core st) (b_core st') /\ (forall r, r ∈ blocks (b_core st) -> r ∈ blocks (b_core st')) /\
    (closure_bridge st <> 0 -> st' = st) /\ (closure_bridge st' = 0 -> os_page os = None \/ os_permission os = false).
Proof.
  intros [Hc Hq Hb] Han. unfold get_closure_bridge_addr. destruct (Z.eqb_spec (closure_bridge st) 0) as [E|E]; cbn [negb].
  - destruct (bridge_emits handler (TurboAssembler_new 0 MemBuffer_new) [] new_ok) as (m & -> & Hm); [unfold fits; rewrite bridge_length; by vm_compute|].
    cbn [mbind outcome_bind app] in *. pose proof (PageSize_4096 PageSize pk page_size pk_range) as HP.
    destruct (finalize32_cases os (with_buffer m (TurboAssembler_new 0 MemBuffer_new)) _ (b_core st) Hc (Han E) Hq eq_refl Hm) as (b & c' & -> & Hcase);
      [rewrite bridge_length; lia|rewrite bridge_length; lia|].
    cbn [mbind outcome_bind]. exists {| closure_bridge := addr b; b_core := c' |}. split; [done|]. cbn [b_core closure_bridge].
    destruct Hcase as [(-> & Hc' & Hun & Ebl & Hno)|(r & -> & Hst)].
    + split_and!; try done; [split; try done; by apply (un_quiet _ _ _ Hun)|by rewrite Ebl].
    + apply stored_holds in Hst as (Hc' & Hun & Hsub & Hh & Hpos & _). split_and!; try done; [|cbn [addr start_]; lia].
      split; [done|by apply (un_quiet _ _ _ Hun)|]. intros _. by exists r.
  - exists st. by split_and!.
Qed.

(** C18: Generating closure trampolines keeps the address space in order.  Whatever trampolines exist already, a new one is
    either not made, when the kernel gives no page for it, or is in an executable block of its own that holds the two loads and
    the two literals, the trampoline object and the bridge; the bridge is built once, stays where it is, and everything in
    blocks handed out before is unchanged. *)
Theorem closure_trampoline_generated os_bridge os_tramp self data carried st :
  bridge_ok st -> (closure_bridge st = 0 -> answer_ok os_bridge (b_core st)) ->
  (forall b st1, get_closure_bridge_addr PageSize os_bridge handler st = Ret (b, st1) -> answer_ok os_tramp (b_core st1)) ->
  exists t st', GenerateClosureTrampoline PageSize os_bridge os_tramp handler self data carried st = Ret (t, st') /\ bridge_ok st' /\
    carry_data t = data /\ carry_handler t = carried /\ (closure_bridge st <> 0 -> closure_bridge st' = closure_bridge st) /\
    (closure_bridge st' = 0 -> os_page os_bridge = None \/ os_permission os_bridge = false) /\
    (forall r l, holds (b_core st) r l -> holds (b_core st') r l) /\
    ((ct_buffer t = MemRange_empty /\ (os_page os_tramp = None \/ os_permission os_tramp = false)) \/
     exists r, ct_buffer t = {| start_ := r_addr r; rsize := 16 |} /\ holds (b_core st') r (flat 4 (closure_words self (closure_bridge st'))) /\
       forall r0, r0 ∈ blocks (b_core st) -> MemoryAllocatorSpec.disjoint r0 r).
Proof.
  intros Hst Han Han'. destruct (closure_prefix self) as (m1 & m2 & m3 & m4 & m5 & x1 & x2 & E1 & E2 & E3 & E4 & E5 & H5).
  set (a0 := TurboAssembler_new 0 MemBuffer_new) in *.
  destruct (get_bridge_ok os_bridge st Hst Han) as (st1 & Eb & [Hc1 Hq1 Hb1] & Hun1 & Hsub1 & Hsame & Hno1). specialize (Han' _ _ Eb).
  destruct (emits_address (closure_bridge st1) (with_buffer m5 a0) _ H5 ltac:(unfold fits; rewrite a32_length_flat; by vm_compute)) as (m6 & E6 & H6).
  set (l := _ ++ _) in H6. assert (El : l = flat 4 (closure_words self (closure_bridge st1))) by reflexivity. clearbody l. subst l.
  assert (Hlen : length (flat 4 (closure_words self (closure_bridge st1))) = 16%nat) by (by rewrite a32_length_flat).
  pose proof (PageSize_4096 PageSize pk page_size pk_range) as HP.
  destruct (finalize32_cases os_tramp (with_buffer m6 a0) _ (b_core st1) Hc1 Han' Hq1 eq_refl H6) as (b & c' & Ef & Hcase); [rewrite Hlen; lia|rewrite Hlen; lia|].
  unfold GenerateClosureTrampoline. cbv zeta. fold a0. change (with_buffer ?m (with_buffer ?m' ?a)) with (with_buffer m a) in E6.
  rewrite E1. cbn [mbind outcome_bind]. rewrite E2. cbn [mbind outcome_bind]. rewrite E3. cbn [mbind outcome_bind]. rewrite E4. cbn [mbind outcome_bind].
  rewrite E5. cbn [mbind outcome_bind]. rewrite Eb. cbn [mbind outcome_bind]. rewrite E6. cbn [mbind outcome_bind]. rewrite Ef. cbn [mbind outcome_bind].
  do 2 eexists. split; [reflexivity|]. cbn [carry_data carry_handler closure_bridge b_core ct_buffer].
  assert (Hmono : undisturbed PageSize (b_core st1) c' -> (forall r0, r0 ∈ blocks (b_core st1) -> r0 ∈ blocks c') -> core_ok c' ->
    bridge_ok {| closure_bridge := closure_bridge st1; b_core := c' |} /\ forall r l, holds (b_core st) r l -> holds c' r l).
  { intros Hun Hsub Hc'. split; [split; [done|by apply (un_quiet _ _ _ Hun)|]|].
    - intros (r & Er & Hr)%Hb1. exists r. split; [done|]. by apply (holds_undisturbed (b_core st1)).
    - intros r l0 Hr. apply (holds_undisturbed (b_core st1)); [done|done|]. by apply (holds_undisturbed (b_core st)). }
  destruct Hcase as [(-> & Hc' & Hun & Ebl & Hno)|(r & -> & (Hc' & Hun & Hsub & Hh & Hpos & Hd)%stored_holds)].
  - destruct Hmono as [M1 M2]; [done|by rewrite Ebl|done|]. split_and!; try done; [by intros ->%Hsame|by left].
  - destruct Hmono as [M1 M2]; [done|done|done|]. split_and!; try done; [by intros ->%Hsame|]. right. exists r. rewrite Hlen. split_and!; try done.
    intros r0 Hr0. apply Hd, Hsub1, Hr0.
Qed.
End Space.

(** ** The first trampoline of a process: nothing is allocated, the kernel gives pages. *)

Definition sample_bridge_state : bridge_state :=
  {| closure_bridge := 0;
     b_core := {| space := {| vm_mem := fun _ => 0; vm_prot := ∅; vm_answers := [] |}; gMemoryAllocator := MemoryAllocator_new |} |}.
Definition second_page : os_answer := {| os_page := Some 0x20000; os_permission := true; os_new := 2 |}.

Lemma sample_bridge_ok : bridge_ok 4096 0x30000 sample_bridge_state.
Proof.
  split; [|by intros ?%elem_of_nil|done]. split; [apply (mem_ok_new 4096)|]. intros p Hp. by apply not_elem_of_empty in Hp.
Qed.

Lemma second_page_ok b st1 :
  get_closure_bridge_addr 4096 sample_os 0x30000 sample_bridge_state = Ret (b, st1) -> answer_ok 4096 second_page (b_core st1).
Proof.
  assert (E : match get_closure_bridge_addr 4096 sample_os 0x30000 sample_bridge_state with
              | Ret (_, st) => bool_decide (0x20000 ∉ os_pages (gMemoryAllocator (b_core st))) && bool_decide (2 ∉ dom (heap (gMemoryAllocator (b_core st))))
                               && bool_decide (vm_prot (space (b_core st)) !! 0x20000 = None)
              | _ => false
              end = true) by (vm_compute; reflexivity).
  intros Eb. rewrite Eb in E. rewrite !andb_true_iff, !bool_decide_eq_true in E. destruct E as [[E1 E2] E3].
  split; [split; [|done]|].
  - intros page [= <-]. by split_and!.
  - by intros p [= <-].
Qed.

Example closure_trampoline_generated_witness :
  exists t st' r, GenerateClosureTrampoline 4096 sample_os second_page 0x30000 0x7000 0x7100 0x7200 sample_bridge_state = Ret (t, st') /\
    closure_bridge st' <> 0 /\ ct_buffer t = {| start_ := r_addr r; rsize := 16 |} /\
    holds (b_core st') r (flat 4 (closure_words 0x7000 (closure_bridge st'))).
Proof.
  destruct (closure_trampoline_generated 4096 12 eq_refl ltac:(lia) 0x30000 sample_os second_page 0x7000 0x7100 0x7200 sample_bridge_state
              sample_bridge_ok) as (t & st' & E & _ & _ & _ & _ & Hno & _ & Hcase).
  - intros _. split; [apply sample_os_ok|]. by intros p [= <-].
  - exact second_page_ok.
  - destruct Hcase as [[_ [H|H]]|(r & Hb & Hh & _)]; [discriminate H|discriminate H|].
    exists t, st', r. split; [exact E|]. split; [|by split]. intros H0. destruct (Hno H0) as [H|H]; discriminate H.
Defined.
