(* ===== verification/V2Util.v ===== *)
(** * The second engine: memory, stealth and events (src/util.cpp, src/stealth.cpp, src/events.cpp)

    The engine under src/ runs in a 32-bit ARM process under Android.  Its address space is
    the record [vm] of CodePatch with pages of 4 KiB: an access to a page without the
    permission it needs is a fault ([UB]), and the kernel's answers to mprotect come from
    the list in [vm].  The page mmap returns, if any, is an argument of the operations
    that map one. *)

From stdpp Require Import gmap.
From S2P Require Import Prelude UtilityMacro CodePatch.
#[local] Open Scope Z_scope.
#[local] Open Scope machine_scope.

(** ** Status codes (include/dobby.h) *)

Definition DOBBY_OK : Z := 0.
Definition DOBBY_ERR_INVALID : Z := -1.
Definition DOBBY_ERR_NOT_FOUND : Z := -2.
Definition DOBBY_ERR_ALREADY : Z := -3.
Definition DOBBY_ERR_FAILED : Z := -4.
Definition DOBBY_ERR_UNSUPPORTED : Z := -5.

(** ** Memory *)

Definition page : Z := 0x1000.
Definition RX : Z := PROT_READ .| PROT_EXEC.
Definition RW : Z := PROT_READ .| PROT_WRITE.
Definition RWX : Z := RW .| PROT_EXEC.

(** Typed accesses. *)
Definition store (n : nat) (v : vm) (a x : Z) : outcome vm := memcpy_to page v a (le_bytes n x).
Definition load (n : nat) (v : vm) (a : Z) : outcome Z := bs ← memcpy_from page v a n; Ret (le_val bs).

Definition set_prot (p prot : Z) (v : vm) : vm := {| vm_mem := vm_mem v; vm_prot := <[p := prot]> (vm_prot v); vm_answers := vm_answers v |}.

(** The pages of [mprotect(pg, 4096 n, prot)], up to the first that is not mapped. *)
Fixpoint protect_pages (n : nat) (pg prot : Z) (v : vm) : Z * vm :=
  match n with
  | O => (0, v)
  | S n => match vm_prot v !! pg with
           | Some _ => protect_pages n (pg + page) prot (set_prot pg prot v)
           | None => (-1, v)
           end
  end.
Definition mprotect_range (pg : Z) (n : nat) (prot : Z) (v : vm) : Z * vm :=
  let ok := match vm_answers v with [] => true | b :: _ => b end in
  let v := {| vm_mem := vm_mem v; vm_prot := vm_prot v; vm_answers := tail (vm_answers v) |} in
  if ok then protect_pages n pg prot v else (-1, v).

(** [Util::Protect], [Write], [Read], [Nop]. *)
Definition Protect (addr len prot : Z) (v : vm) : Z * vm :=
  let pg := addr .& Z.lnot 0xFFF in
  let plen := u32 (addr + len - pg + 0xFFF) .& Z.lnot 0xFFF in
  mprotect_range pg (Z.to_nat (plen / page)) prot v.

(** [buf] reads the bytes to write, once the pages are writable. *)
Definition Write_from (addr : Z) (len : nat) (buf : vm -> outcome (list Z)) (v : vm) : outcome (Z * vm) :=
  let '(rc, v) := Protect addr (Z.of_nat len) RW v in
  if negb (rc =? 0) then Ret (-1, v)
  else
    bs ← buf v;
    v ← memcpy_to page v addr bs;
    let '(_, v) := Protect addr (Z.of_nat len) RX v in
    Ret (0, v).
Definition Write (addr : Z) (buf : list Z) (v : vm) : outcome (Z * vm) :=
  Write_from addr (length buf) (fun _ => Ret buf) v.

Definition Read (addr : Z) (len : nat) (v : vm) : outcome (list Z) := memcpy_from page v addr len.

(** The loop of [Nop]: [n] instructions of [w] bytes. *)
Fixpoint nop_loop (n w : nat) (insn base : Z) (v : vm) : outcome vm :=
  match n with
  | O => Ret v
  | S n =>
      '(_, v) ← Write base (le_bytes w insn) v;
      nop_loop n w insn (base + Z.of_nat w) v
  end.
Definition Nop (addr len : Z) (v : vm) : outcome vm :=
  if addr mod 2 =? 1 then nop_loop (Z.to_nat (len / 2)) 2 0x46C0 (addr - 1) v
  else nop_loop (Z.to_nat (len / 4)) 4 0xE1A00000 addr v.

(** mmap of one page, readable, writable and executable, and munmap. *)
Definition mmap_page (p : Z) (v : vm) : vm :=
  {| vm_mem := fun a => if decide (p <= a < p + page) then 0 else vm_mem v a; vm_prot := <[p := RWX]> (vm_prot v); vm_answers := vm_answers v |}.
Definition munmap_page (p : Z) (v : vm) : vm :=
  {| vm_mem := vm_mem v; vm_prot := delete p (vm_prot v); vm_answers := vm_answers v |}.

(** ** Stealth *)

(** [g_integrity]: addresses and the words they held. *)
Definition integrity_size : nat := 64.
Definition SnapshotIntegrity (addr installed_head : Z) (g_integrity : list (Z * Z)) : list (Z * Z) :=
  if (length g_integrity <? integrity_size)%nat then g_integrity ++ [(addr, installed_head)] else g_integrity.
Fixpoint VerifyIntegrity (addr : Z) (g_integrity : list (Z * Z)) (v : vm) : outcome bool :=
  match g_integrity with
  | [] => Ret true
  | (a, head) :: rest => if a =? addr then now ← load 4 v addr; Ret (now =? head) else VerifyIntegrity addr rest v
  end.

(** [RandomizeJump]: the new state of the generator and the instruction. *)
Definition RandomizeJump (s_state preferred from to : Z) : Z * Z :=
  let h := from .^ to in
  let s_state := s_state .^ u32 (s_state << 13) in
  let s_state := s_state .^ (s_state >> 17) in
  let s_state := s_state .^ u32 (s_state << 5) in
  (s_state, if s_state mod 3 =? 0 then preferred
            else if s_state mod 3 =? 1 then 0xe51ff004
            else 0xe1a0f000 .| ((h >> 4) .& 0xf)).

(** ** Events *)

Record DobbyHookEvent := {
  ev_target : Z;
  ev_replace : Z;
  ev_origin : Z;
  ev_lib : option (list Z);
  ev_symbol : option (list Z);
  ev_status : Z;
}.

(** The callback, if one is set, is given the event; what it was given so far is the second component. *)
Record bus := { g_ev_cb : bool; delivered : list DobbyHookEvent }.
Definition DobbyOnHookEvent (cb : bool) (b : bus) : bus := {| g_ev_cb := cb; delivered := delivered b |}.
Definition EmitEvent (ev : DobbyHookEvent) (b : bus) : bus :=
  if g_ev_cb b then {| g_ev_cb := g_ev_cb b; delivered := delivered b ++ [ev] |} else b.
