(* ===== verification/V2Memory.v ===== *)
(** * The second engine: facts about its memory

    What Protect, Write and the typed accesses of V2Util do to the address space. *)

From stdpp Require Import gmap.
From S2P Require Import Prelude UtilityMacro CodePatch V2Util.
#[local] Open Scope Z_scope.
#[local] Open Scope machine_scope.

(** ** Pages *)

(** The page of an address. *)
Definition pg (a : Z) : Z := ALIGN_FLOOR a page.

Lemma pg_alt a : pg a = a - a mod 4096.
Proof. unfold pg. change page with (2 ^ 12). by rewrite ALIGN_FLOOR_alt. Qed.

Lemma pg_bounds a : pg a <= a < pg a + 4096 /\ pg a mod 4096 = 0.
Proof.
  rewrite pg_alt. pose proof (Z.mod_pos_bound a 4096 ltac:(lia)). split; [lia|].
  rewrite Zminus_mod, Zmod_mod, Z.sub_diag. done.
Qed.

Lemma pg_unique p a : p mod 4096 = 0 -> p <= a < p + 4096 -> pg a = p.
Proof.
  intros Hp Ha. rewrite pg_alt. pose proof (Z.div_mod p 4096 ltac:(lia)) as E.
  replace (a mod 4096) with (a - p); [lia|]. apply Z.mod_unique with (p / 4096); lia.
Qed.

(** The page of a byte of a range is a multiple of the page size after the first one. *)
Lemma pg_between a b : a <= b -> exists i, pg b = pg a + Z.of_nat i * 4096 /\ Z.of_nat i * 4096 <= b - pg a.
Proof.
  intros H. pose proof (pg_bounds a) as [Ha Ea]. pose proof (pg_bounds b) as [Hb Eb].
  apply Z.div_exact in Ea; [|lia]. apply Z.div_exact in Eb; [|lia].
  exists (Z.to_nat (pg b / 4096 - pg a / 4096)). assert (pg a / 4096 <= pg b / 4096) by lia. lia.
Qed.

(** ** Accesses *)

(** Every byte of the range is on a page with one of the permissions. *)
Definition allows (v : vm) (prot a n : Z) : Prop := forall b, a <= b < a + n -> page_has v prot (pg b) = true.

Lemma bytes_have_allows v prot a n : allows v prot a (Z.of_nat n) -> bytes_have page v prot a n = true.
Proof. intros H. apply forallb_forall. intros i Hi%in_seq. apply H. lia. Qed.

Lemma memcpy_to_ok v a bs : allows v PROT_WRITE a (Z.of_nat (length bs)) ->
  memcpy_to page v a bs = Ret (set_mem v (patch_mem (vm_mem v) a bs)).
Proof. intros H. unfold memcpy_to. by rewrite bytes_have_allows. Qed.

(** The [n] bytes at [a]. *)
Definition bytes (m : Z -> Z) (a : Z) (n : nat) : list Z := map (fun i => m (a + Z.of_nat i)) (seq 0 n).

Lemma length_bytes m a n : length (bytes m a n) = n.
Proof. unfold bytes. by rewrite length_map, length_seq. Qed.

Lemma nth_bytes m a n i : (i < n)%nat -> nth i (bytes m a n) 0 = m (a + Z.of_nat i).
Proof.
  intros H. unfold bytes. rewrite nth_indep with (d' := m (a + Z.of_nat 0)) by (rewrite length_map, length_seq; done).
  by rewrite (map_nth (fun i => m (a + Z.of_nat i))), seq_nth.
Qed.

Lemma bytes_ext m m' a n : (forall b, a <= b < a + Z.of_nat n -> m' b = m b) -> bytes m' a n = bytes m a n.
Proof. intros H. apply map_ext_in. intros i Hi%in_seq. apply H. lia. Qed.

Lemma memcpy_from_ok v a n : allows v PROT_READ a (Z.of_nat n) -> memcpy_from page v a n = Ret (bytes (vm_mem v) a n).
Proof. intros H. unfold memcpy_from. by rewrite bytes_have_allows. Qed.

Lemma store_allowed n v a x : allows v PROT_WRITE a (Z.of_nat n) ->
  store n v a x = Ret (set_mem v (patch_mem (vm_mem v) a (le_bytes n x))).
Proof. intros H. apply memcpy_to_ok. by rewrite length_le_bytes. Qed.

Lemma load_allowed n v a : allows v PROT_READ a (Z.of_nat n) -> load n v a = Ret (le_val (bytes (vm_mem v) a n)).
Proof. intros H. unfold load. by rewrite memcpy_from_ok. Qed.

Lemma patch_in m a bs b : a <= b < a + Z.of_nat (length bs) -> patch_mem m a bs b = nth (Z.to_nat (b - a)) bs 0.
Proof. intros H. unfold patch_mem. by rewrite (proj2 (Z.leb_le _ _)), (proj2 (Z.ltb_lt _ _)) by lia. Qed.

Lemma patch_out m a bs b : ~ (a <= b < a + Z.of_nat (length bs)) -> patch_mem m a bs b = m b.
Proof.
  intros H. unfold patch_mem. destruct (Z.leb_spec a b), (Z.ltb_spec b (a + Z.of_nat (length bs))); cbn [andb]; try done; lia.
Qed.

Lemma bytes_patch m a bs : bytes (patch_mem m a bs) a (length bs) = bs.
Proof.
  apply nth_ext with (d := 0) (d' := 0); [apply length_bytes|]. rewrite length_bytes. intros i Hi.
  rewrite nth_bytes, patch_in by lia. f_equal. lia.
Qed.

(** ** Protect *)

(** The next mprotect is granted. *)
Definition granted (v : vm) : Prop := head (vm_answers v) <> Some false.

(** [p] is the page of a byte of the range. *)
Definition touches (a n p : Z) : Prop := exists b, a <= b < a + n /\ p = pg b.

Lemma touches_iff a n p : 0 < n -> touches a n p <-> p mod 4096 = 0 /\ pg a <= p < a + n.
Proof.
  intros Hn. pose proof (pg_bounds a) as [Ha Ea]. split.
  - intros (b & Hb & ->). pose proof (pg_bounds b). destruct (pg_between a b) as (i & -> & Hi); [lia|].
    split; [by rewrite Z_mod_plus_full|]. lia.
  - intros [Hp Hr]. exists (Z.max a p). split; [lia|]. symmetry. apply pg_unique; [done|].
    destruct (Z.max_spec a p) as [[? ->]|[? ->]]; [lia|]. assert (p = pg a); [|lia].
    apply Z.div_exact in Ea, Hp; lia.
Qed.

Lemma touches_dec a n p : 0 < n -> touches a n p \/ ~ touches a n p.
Proof.
  intros Hn. destruct (decide (p mod 4096 = 0 /\ pg a <= p < a + n)) as [H|H]; [left|right]; by rewrite touches_iff.
Qed.

(** [v'] is [v] after a granted mprotect of the pages of the range. *)
Record protected (a n prot : Z) (v v' : vm) : Prop := {
  pr_mem : vm_mem v' = vm_mem v;
  pr_answers : vm_answers v' = tail (vm_answers v);
  pr_in : forall p, touches a n p -> vm_prot v' !! p = Some prot;
  pr_out : forall p, ~ touches a n p -> vm_prot v' !! p = vm_prot v !! p;
}.

Lemma protect_pages_spec prot n : forall p v,
  (forall i, (i < n)%nat -> is_Some (vm_prot v !! (p + Z.of_nat i * 4096))) ->
  exists v', protect_pages n p prot v = (0, v') /\ vm_mem v' = vm_mem v /\ vm_answers v' = vm_answers v /\
    (forall i, (i < n)%nat -> vm_prot v' !! (p + Z.of_nat i * 4096) = Some prot) /\
    (forall q, (forall i, (i < n)%nat -> q <> p + Z.of_nat i * 4096) -> vm_prot v' !! q = vm_prot v !! q).
Proof.
  induction n as [|n IH]; intros p v Hm; cbn [protect_pages].
  { exists v. split; [done|]. split; [done|]. split; [done|]. split; [lia|done]. }
  destruct (Hm O ltac:(lia)) as [q0 E]. rewrite Z.mul_0_l, Z.add_0_r in E. rewrite E.
  destruct (IH (p + page) (set_prot p prot v)) as (v' & -> & Hmem & Hans & Hin & Hout).
  { intros i Hi. cbn [vm_prot set_prot]. rewrite lookup_insert_ne by (unfold page; lia).
    destruct (Hm (S i) ltac:(lia)) as [q Eq]. exists q. rewrite <- Eq. f_equal. unfold page. lia. }
  exists v'. split; [done|]. split; [done|]. split; [done|]. split.
  - intros [|i] Hi.
    + rewrite Z.mul_0_l, Z.add_0_r. rewrite Hout; [cbn; apply lookup_insert_eq|]. intros i _. unfold page. lia.
    + rewrite <- (Hin i) by lia. f_equal. unfold page. lia.
  - intros q Hq. rewrite Hout; [|intros i Hi; specialize (Hq (S i) ltac:(lia)); unfold page; lia].
    cbn. rewrite lookup_insert_ne; [done|]. specialize (Hq O ltac:(lia)). lia.
Qed.

Lemma protect_length a n : 0 <= a -> 0 < n -> a + n <= 2 ^ 32 - 4096 ->
  Z.of_nat (Z.to_nat ((u32 (a + n - pg a + 0xFFF) .& Z.lnot 0xFFF) / page)) = (a + n - 1 - pg a) / 4096 + 1.
Proof.
  intros Ha Hn Hhi. pose proof (pg_bounds a) as [Hp Ep]. assert (0 <= pg a) by (apply Z.div_exact in Ep; lia). rewrite wrap_small by lia.
  change (Z.land ?x (Z.lnot 0xFFF)) with (ALIGN_FLOOR x (2 ^ 12)). rewrite ALIGN_FLOOR_alt by done. change (2 ^ 12) with 4096.
  unfold page. set (x := a + n - 1 - pg a). replace (a + n - pg a + 0xFFF) with (x + 1 * 4096) by lia.
  pose proof (Z.div_mod (x + 1 * 4096) 4096 ltac:(lia)) as E.
  replace (x + 1 * 4096 - (x + 1 * 4096) mod 4096) with ((x + 1 * 4096) / 4096 * 4096) by lia.
  rewrite Z.div_mul, Z.div_add by lia. pose proof (Z.div_pos x 4096). lia.
Qed.

Lemma Protect_granted a n prot v :
  granted v -> 0 <= a -> 0 < n -> a + n <= 2 ^ 32 - 4096 -> (forall p, touches a n p -> is_Some (vm_prot v !! p)) ->
  exists v', Protect a n prot v = (0, v') /\ protected a n prot v v'.
Proof.
  intros Hg Ha Hn Hhi Hm. unfold Protect. change (a .& Z.lnot 0xFFF) with (pg a). unfold mprotect_range.
  assert (Hok : match vm_answers v with [] => true | b :: _ => b end = true).
  { unfold granted in Hg. destruct (vm_answers v) as [|[] ?]; cbn in *; congruence. }
  rewrite Hok. set (k := Z.to_nat _). set (v1 := {| vm_mem := _; vm_prot := _; vm_answers := _ |}).
  pose proof (protect_length a n Ha Hn Hhi) as Hk. fold k in Hk. pose proof (pg_bounds a) as [Hp Ep].
  assert (Hpage : forall i, (i < k)%nat -> touches a n (pg a + Z.of_nat i * 4096)).
  { intros i Hi. exists (Z.max a (pg a + Z.of_nat i * 4096)).
    split; [revert Hk; Z.div_mod_to_equations; lia|]. symmetry. apply pg_unique; [|lia].
    rewrite Z_mod_plus_full. done. }
  destruct (protect_pages_spec prot k (pg a) v1) as (v' & -> & Hmem & Hans & Hin & Hout).
  { intros i Hi. apply Hm, Hpage, Hi. }
  exists v'. split; [done|]. split; [done|done| |].
  - intros p (b & Hb & ->). destruct (pg_between a b) as (i & E & Hi); [lia|]. rewrite E. apply Hin.
    revert Hk. Z.div_mod_to_equations. lia.
  - intros p Hn'. apply Hout. intros i Hi ->. by apply Hn', Hpage.
Qed.

Lemma protected_allows a n prot v v' q b m :
  protected a n prot v v' -> negb (Z.land prot q =? 0) = true -> a <= b -> b + m <= a + n -> allows v' q b m.
Proof.
  intros [_ _ Hin _] Hq Hb Hm c Hc. unfold page_has. rewrite (Hin (pg c)); [done|]. exists c. split; [lia|done].
Qed.

(** Accesses the old permissions allowed are allowed when the new ones include them. *)
Lemma protected_keeps a n prot v v' q b m : 0 < n ->
  protected a n prot v v' -> negb (Z.land prot q =? 0) = true -> allows v q b m -> allows v' q b m.
Proof.
  intros Hn [_ _ Hin Hout] Hq Hal c Hc. unfold page_has.
  destruct (touches_dec a n (pg c) Hn) as [Ht|Ht]; [by rewrite (Hin _ Ht)|]. rewrite (Hout _ Ht). apply Hal, Hc.
Qed.

Lemma allows_sub v q a n b m : allows v q a n -> a <= b -> b + m <= a + n -> allows v q b m.
Proof. intros H ? ? c Hc. apply H. lia. Qed.

Lemma allows_set_mem v m q a n : allows v q a n -> allows (set_mem v m) q a n.
Proof. done. Qed.

Lemma allows_mapped v q a n p : allows v q a n -> touches a n p -> is_Some (vm_prot v !! p).
Proof. intros H (b & Hb & ->). specialize (H b Hb). unfold page_has in H. destruct (vm_prot v !! pg b); [done|discriminate]. Qed.

(** ** mmap *)

Lemma mmap_allows_new p v q a n : p mod 4096 = 0 -> negb (Z.land RWX q =? 0) = true -> p <= a -> a + n <= p + 4096 ->
  allows (mmap_page p v) q a n.
Proof.
  intros Hp Hq Ha Hn b Hb. unfold page_has. cbn [vm_prot mmap_page]. rewrite (pg_unique p b) by (done || lia).
  rewrite lookup_insert_eq. done.
Qed.

Lemma mmap_allows_old p v q a n : vm_prot v !! p = None -> allows v q a n -> allows (mmap_page p v) q a n.
Proof.
  intros Hp H b Hb. specialize (H b Hb). unfold page_has in *. cbn [vm_prot mmap_page].
  rewrite lookup_insert_ne; [done|]. intros E. rewrite <- E, Hp in H. done.
Qed.

(** A mapped range does not meet a page that is not mapped. *)
Lemma allows_apart p v q a n b : p mod 4096 = 0 -> vm_prot v !! p = None -> allows v q a n -> a <= b < a + n -> ~ (p <= b < p + 4096).
Proof. intros Hp Hn H Hb Hin. specialize (H b Hb). unfold page_has in H. rewrite (pg_unique p b) in H by done. by rewrite Hn in H. Qed.

(** ** Write *)

Lemma Write_from_granted a (n : nat) buf bs v :
  vm_answers v = [] -> 0 <= a -> (0 < n)%nat -> a + Z.of_nat n <= 2 ^ 32 - 4096 -> length bs = n ->
  (forall p, touches a (Z.of_nat n) p -> is_Some (vm_prot v !! p)) ->
  (forall v', protected a (Z.of_nat n) RW v v' -> buf v' = Ret bs) ->
  exists v', Write_from a n buf v = Ret (0, v') /\ vm_mem v' = patch_mem (vm_mem v) a bs /\ vm_answers v' = [] /\
    (forall p, touches a (Z.of_nat n) p -> vm_prot v' !! p = Some RX) /\
    (forall p, ~ touches a (Z.of_nat n) p -> vm_prot v' !! p = vm_prot v !! p).
Proof.
  intros Hg Ha Hn Hhi Hl Hm Hb. unfold Write_from.
  destruct (Protect_granted a (Z.of_nat n) RW v) as (v1 & -> & H1); [by unfold granted; rewrite Hg|done|lia|done|done|].
  cbn [Z.eqb negb]. rewrite (Hb v1 H1). cbn [mbind outcome_bind].
  rewrite memcpy_to_ok by (apply (protected_allows _ _ _ _ _ _ _ _ H1); [done|lia|lia]). cbn [mbind outcome_bind].
  set (v2 := set_mem v1 _). assert (Ha1 : vm_answers v2 = []) by (cbn; by rewrite (pr_answers _ _ _ _ _ H1), Hg).
  destruct (Protect_granted a (Z.of_nat n) RX v2) as (v3 & -> & H3); [by unfold granted; rewrite Ha1|done|lia|done| |].
  { intros p Hp. cbn. rewrite (pr_in _ _ _ _ _ H1 p Hp). done. }
  exists v3. split; [done|]. split; [rewrite (pr_mem _ _ _ _ _ H3); cbn; by rewrite (pr_mem _ _ _ _ _ H1)|].
  split; [by rewrite (pr_answers _ _ _ _ _ H3), Ha1|]. split; [apply H3|].
  intros p Hp. rewrite (pr_out _ _ _ _ _ H3 p Hp). apply (pr_out _ _ _ _ _ H1 p Hp).
Qed.

(** A refused Write changes nothing but the answers left. *)
Lemma Write_from_refused a (n : nat) buf v rest : vm_answers v = false :: rest ->
  Write_from a n buf v = Ret (-1, {| vm_mem := vm_mem v; vm_prot := vm_prot v; vm_answers := rest |}).
Proof. intros H. unfold Write_from, Protect, mprotect_range. by rewrite H. Qed.
