(* ===== verification/V2Hooker.v ===== *)
(** * The second engine: inline hooks (src/hooker.cpp)

    A hook overwrites the first eight bytes of a function with a load of PC from the word
    that follows, after copying them to a page of their own, the trampoline, which ends
    with a jump back to the ninth byte.  [engine] is the state the operations share: the
    address space, the table of hooks, the table of the integrity check and the event
    bus.  A pointer that may be null is 0; [mm] is the page mmap returns, [None] for
    MAP_FAILED. *)

From stdpp Require Import gmap.
From S2P Require Import Prelude UtilityMacro CodePatch V2Util.
#[local] Open Scope Z_scope.
#[local] Open Scope machine_scope.

Record HookSlot := {
  target : Z;
  replace : Z;
  trampoline : Z;
  head_len : Z;
}.

Record engine := {
  space : vm;
  g_slots : list HookSlot;
  g_integrity : list (Z * Z);
  events : bus;
}.
Definition with_space (v : vm) (st : engine) : engine :=
  {| space := v; g_slots := g_slots st; g_integrity := g_integrity st; events := events st |}.
Definition emit (ev : DobbyHookEvent) (st : engine) : engine :=
  {| space := space st; g_slots := g_slots st; g_integrity := g_integrity st; events := EmitEvent ev (events st) |}.

Definition max_slots : nat := 128.

(** The index of the first slot of [t]. *)
Fixpoint FindSlot (t : Z) (slots : list HookSlot) : option nat :=
  match slots with
  | [] => None
  | s :: slots => if target s =? t then Some O else S <$> FindSlot t slots
  end.

(** ** Relocation of Thumb code *)

(** The offset of the branch [hw; hw2], as the engine computes it. *)
Definition bl_offset (hw hw2 : Z) : Z :=
  let S := (hw >> 10) .& 1 in
  let imm10 := hw .& 0x3FF in
  let J1 := (hw2 >> 13) .& 1 in
  let J2 := (hw2 >> 11) .& 1 in
  let imm11 := hw2 .& 0x7FF in
  let I1 := 1 - (J1 .^ S) in
  let I2 := 1 - (J2 .^ S) in
  let off := (S << 24) .| (I1 << 23) .| (I2 << 22) .| (imm10 << 12) .| (imm11 << 1) in
  if negb (off .& 0x800000 =? 0) then off - (1 << 24) else off.

(** The halfword at index [i] of the bytes [l]; the bytes [l] with the halfword [h] there. *)
Definition half_at (l : list Z) (i : nat) : Z := le_val (take 2 (drop i l)).
Definition put_half (i : nat) (h : Z) (l : list Z) : list Z := take i l ++ le_bytes 2 h ++ drop (i + 2) l.

(** The halfwords that replace the branch [hw; hw2] at [src_pc + i], if the distance allows. *)
Definition relocate_bl (hw hw2 src_pc dst_pc i : Z) : option (Z * Z) :=
  let kind := hw2 .& 0x2800 in
  let is_blx := kind =? 0x2800 in
  let off := bl_offset hw hw2 in
  let old_target := u32 (src_pc + i + 4 + off) in
  let old_target := if is_blx then old_target .& Z.lnot 3 else old_target in
  let new_off := i32 (old_target - (dst_pc + i + 4)) in
  let new_off := if is_blx then new_off .& Z.lnot 3 else new_off in
  if (0x7FFFFF <? new_off) || (new_off <? - 0x800000) then None
  else
    let nS := (new_off >> 24) .& 1 in
    let nI1 := (new_off >> 23) .& 1 in
    let nI2 := (new_off >> 22) .& 1 in
    let nimm10 := (new_off >> 12) .& 0x3FF in
    let nimm11 := (new_off >> 1) .& 0x7FF in
    Some (0xF000 .| (nS << 10) .| nimm10,
          (if is_blx then 0xC000 else 0xD000) .| (nI1 << 13) .| (nI2 << 11) .| nimm11).

(** The scan from halfword [i] on; [None] is [return false].  The fuel is the number of halfwords left. *)
Fixpoint relocate_scan (fuel : nat) (src : list Z) (src_pc dst_pc : Z) (i : nat) (dst : list Z) : option (list Z) :=
  match fuel with
  | O => Some dst
  | S fuel =>
      if (i + 4 <=? length src)%nat then
        let hw := half_at src i in
        if hw .& 0xF800 =? 0xF000 then
          let hw2 := half_at src (i + 2) in
          let kind := hw2 .& 0x2800 in
          if (kind =? 0) || (kind =? 0x2800) then
            match relocate_bl hw hw2 src_pc dst_pc (Z.of_nat i) with
            | None => None
            | Some (nh, nh2) => relocate_scan fuel src src_pc dst_pc (i + 4) (put_half (i + 2) nh2 (put_half i nh dst))
            end
          else relocate_scan fuel src src_pc dst_pc (i + 2) dst
        else relocate_scan fuel src src_pc dst_pc (i + 2) dst
      else Some dst
  end.
Definition RelocateThumb (src : list Z) (src_pc dst_pc : Z) : option (list Z) :=
  relocate_scan (length src) src src_pc dst_pc 0 src.

(** ** Hook *)

Definition HEAD : Z := 8.

(** What both branches do once the head is written: the snapshot of the integrity check, the slot, [*origin]. *)
Definition register_slot (t r tramp origin origin_value : Z) (v : vm) (st : engine) : outcome engine :=
  head ← load 4 v tramp;
  let integrity := SnapshotIntegrity t head (g_integrity st) in
  let slot := {| target := t; replace := r; trampoline := tramp; head_len := HEAD |} in
  v ← (if origin =? 0 then Ret v else store 4 v origin origin_value);
  Ret {| space := v; g_slots := g_slots st ++ [slot]; g_integrity := integrity; events := events st |}.

Definition hook_arm (tramp fn t r origin : Z) (st : engine) : outcome (Z * engine) :=
  let v := mmap_page tramp (space st) in
  head ← memcpy_from page v fn 8;
  v ← memcpy_to page v tramp head;
  v ← store 4 v (tramp + HEAD) 0xE51FF004;
  v ← store 4 v (tramp + HEAD + 4) (u32 (fn + HEAD));
  let '(rc, v) := Protect fn HEAD RWX v in
  if negb (rc =? 0) then Ret (DOBBY_ERR_FAILED, with_space (munmap_page tramp v) st)
  else
    v ← store 4 v fn 0xE51FF004;
    v ← store 4 v (fn + 4) r;
    st ← register_slot t r tramp origin tramp v st;
    Ret (DOBBY_OK, st).

Definition hook_thumb (tramp fn t r origin : Z) (st : engine) : outcome (Z * engine) :=
  let v := mmap_page tramp (space st) in
  let tramp_pc := tramp + 4 in
  head ← memcpy_from page v fn 8;
  match RelocateThumb head (fn + 4) tramp_pc with
  | None => Ret (DOBBY_ERR_UNSUPPORTED, with_space (munmap_page tramp v) st)
  | Some code =>
      v ← memcpy_to page v tramp code;
      let back := tramp + HEAD in
      v ← store 2 v back 0xF8DF;
      v ← store 2 v (back + 2) 0x0000;
      v ← store 4 v (back + 4) (u32 (fn + HEAD + 1));
      let '(rc, v) := Protect fn HEAD RWX v in
      if negb (rc =? 0) then Ret (DOBBY_ERR_FAILED, with_space (munmap_page tramp v) st)
      else
        v ← store 2 v fn 0xF8DF;
        v ← store 2 v (fn + 2) 0x0000;
        v ← store 4 v (fn + 4) (r .| 1);
        st ← register_slot t r tramp origin (tramp .| 1) v st;
        o ← (if origin =? 0 then Ret 0 else load 4 (space st) origin);
        Ret (DOBBY_OK, emit {| ev_target := t; ev_replace := r; ev_origin := o; ev_lib := None; ev_symbol := None; ev_status := DOBBY_OK |} st)
  end.

Definition Hook (mm : option Z) (t r origin : Z) (st : engine) : outcome (Z * engine) :=
  if (t =? 0) || (r =? 0) then Ret (DOBBY_ERR_INVALID, st)
  else
    let thumb := t mod 2 =? 1 in
    let fn := if thumb then t - 1 else t in
    if bool_decide (is_Some (FindSlot t (g_slots st))) then Ret (DOBBY_ERR_ALREADY, st)
    else if (max_slots <=? length (g_slots st))%nat then Ret (DOBBY_ERR_FAILED, st)
    else
      match mm with
      | None => Ret (DOBBY_ERR_FAILED, st)
      | Some tramp => if thumb then hook_thumb tramp fn t r origin st else hook_arm tramp fn t r origin st
      end.

(** ** Unhook, IsHooked, Count *)

(** [g[idx] = g[--count]]. *)
Definition swap_remove {A} (idx : nat) (l : list A) : list A :=
  match l !! (length l - 1)%nat with
  | Some x => take (length l - 1) (<[idx := x]> l)
  | None => l
  end.

Definition Unhook (t : Z) (st : engine) : outcome (Z * engine) :=
  match FindSlot t (g_slots st) with
  | None => Ret (DOBBY_ERR_NOT_FOUND, st)
  | Some idx =>
      match g_slots st !! idx with
      | None => UB
      | Some s =>
          let fn := t .& Z.lnot 1 in
          '(_, v) ← Write_from fn 8 (fun v => memcpy_from page v (trampoline s) 8) (space st);
          let v := munmap_page (trampoline s) v in
          let st := {| space := v; g_slots := swap_remove idx (g_slots st); g_integrity := g_integrity st; events := events st |} in
          Ret (DOBBY_OK, emit {| ev_target := t; ev_replace := 0; ev_origin := 0; ev_lib := None; ev_symbol := None; ev_status := DOBBY_OK |} st)
      end
  end.

Definition IsHooked (t : Z) (st : engine) : bool := bool_decide (is_Some (FindSlot t (g_slots st))).
Definition Count (st : engine) : Z := Z.of_nat (length (g_slots st)).
