(* ===== verification/V2Branch.v ===== *)
(** * The second engine: the encoding of Thumb calls

    The halfwords hooker.cpp and callsite.cpp take apart and put together, in terms of
    the decoder of Arm32Machine. *)

From S2P Require Import Prelude Arm64Machine Arm32Machine Arm32Simulation.
From S2P Require Import V2Hooker.
#[local] Open Scope Z_scope.
#[local] Open Scope machine_scope.

Definition is_bit (b : Z) : Prop := b = 0 \/ b = 1.
Lemma is_bit_0 : is_bit 0.
Proof. by left. Qed.
Lemma is_bit_1 : is_bit 1.
Proof. by right. Qed.
Create HintDb v2bits.
#[export] Hint Resolve is_bit_0 is_bit_1 : v2bits.

Lemma get_field x n k : 0 <= n -> 0 <= k -> (x >> n) .& Z.ones k = fld x n k.
Proof. intros Hn Hk. by rewrite Z.land_ones, Z.shiftr_div_pow2. Qed.

Lemma get_low x k : 0 <= k -> x .& Z.ones k = fld x 0 k.
Proof. intros Hk. rewrite Z.land_ones by done. unfold fld. change (2 ^ 0) with 1. by rewrite Z.div_1_r. Qed.

Lemma get_bit x n : 0 <= n -> is_bit ((x >> n) .& 1).
Proof.
  intros Hn. change 1 with (Z.ones 1) at 1. rewrite get_field by done. unfold fld, is_bit.
  pose proof (Z.mod_pos_bound (x / 2 ^ n) (2 ^ 1) ltac:(done)). change (2 ^ 1) with 2 in *. lia.
Qed.

(** The two halfwords of a branch, from their fields. *)
Lemma first_half S i : is_bit S -> 0 <= i < 1024 -> 0xF000 .| (S << 10) .| i = 0xF000 + 1024 * S + i.
Proof.
  intros [->| ->] Hi; [change (0xF000 .| (0 << 10)) with (60 * 2 ^ 10)|change (0xF000 .| (1 << 10)) with (61 * 2 ^ 10)];
    rewrite lor_low by (done || lia); lia.
Qed.

Lemma second_half (x : bool) J1 J2 i : is_bit J1 -> is_bit J2 -> 0 <= i < 2048 ->
  (if x then 0xC000 else 0xD000) .| (J1 << 13) .| (J2 << 11) .| i
  = (if x then 0xC000 else 0xD000) + 8192 * J1 + 2048 * J2 + i.
Proof.
  intros H1 H2 Hi.
  assert (E : (if x then 0xC000 else 0xD000) .| (J1 << 13) .| (J2 << 11) = ((if x then 24 else 26) + 4 * J1 + J2) * 2 ^ 11)
    by (destruct x, H1 as [->| ->], H2 as [->| ->]; done).
  rewrite E, lor_low by (done || lia). destruct x; lia.
Qed.

Lemma fld_bit_cases x n : fld x n 1 = 0 \/ fld x n 1 = 1.
Proof. unfold fld. pose proof (Z.mod_pos_bound (x / 2 ^ n) (2 ^ 1) ltac:(done)). change (2 ^ 1) with 2 in *. lia. Qed.

(** What the two halfwords decode to. *)
Lemma decode_call (x : bool) S i J1 J2 j : is_bit S -> 0 <= i < 1024 -> is_bit J1 -> is_bit J2 -> 0 <= j < 2048 ->
  let h1 := 0xF000 + 1024 * S + i in
  let h2 := (if x then 0xC000 else 0xD000) + 8192 * J1 + 2048 * J2 + j in
  is_wide h1 = true /\
  decode_t32 h1 h2 = (if x && (j mod 2 =? 1) then None else
    Some (T_BL x (signed 25 (2 * j + 2 ^ 12 * i + 2 ^ 22 * inv_xor J2 S + 2 ^ 23 * inv_xor J1 S + 2 ^ 24 * S)))).
Proof.
  intros HS Hi H1 H2 Hj h1 h2.
  assert (F : fld h1 11 5 = 30 /\ fld h1 10 1 = S /\ fld h1 0 10 = i).
  { unfold h1, fld. destruct HS as [->| ->]; Z.div_mod_to_equations; lia. }
  destruct F as (F1 & F2 & F3). split; [unfold is_wide; by rewrite F1|].
  assert (G : fld h2 15 1 = 1 /\ fld h2 14 1 = 1 /\ fld h2 12 1 = (if x then 0 else 1) /\ fld h2 13 1 = J1 /\ fld h2 11 1 = J2 /\ fld h2 0 11 = j).
  { unfold h2, fld. destruct x, H1 as [->| ->], H2 as [->| ->]; Z.div_mod_to_equations; lia. }
  destruct G as (G1 & G2 & G3 & G4 & G5 & G6).
  assert (G7 : fld h2 0 1 = j mod 2).
  { unfold h2, fld. change (2 ^ 0) with 1. rewrite Z.div_1_r. change (2 ^ 1) with 2. destruct x, H1 as [->| ->], H2 as [->| ->]; Z.div_mod_to_equations; lia. }
  unfold decode_t32. rewrite F1, G1, G2, G3. unfold branch25. rewrite G4, G5, G6, G7, F2, F3. destruct x; cbn; [|done].
  pose proof (Z.mod_pos_bound j 2 ltac:(lia)). destruct (Z.eqb_spec (j mod 2) 0) as [->|]; [done|].
  by replace (j mod 2) with 1 by lia.
Qed.
