(* ===== verification/V2HookTable.v ===== *)
(** * The second engine: the table of hooks against a finite map

    The operations of the hook table refine insertion into and deletion from a finite
    map from targets to replacements and trampolines; along every run the targets and the
    trampolines of the table are distinct and every trampoline stays mapped. *)

From stdpp Require Import gmap.
From S2P Require Import Prelude CodePatch V2Util V2Hooker.
#[local] Open Scope Z_scope.
#[local] Open Scope machine_scope.

(** ** What the operations do to the table *)

Lemma FindSlot_Some t slots i : FindSlot t slots = Some i -> exists s, slots !! i = Some s /\ target s = t.
Proof.
  revert i. induction slots as [|s slots IH]; intros i; cbn [FindSlot]; [done|].
  destruct (Z.eqb_spec (target s) t) as [E|]; [intros [= <-]; by exists s|].
  destruct (FindSlot t slots) as [j|]; [|done]. intros [= <-]. by apply IH.
Qed.

Lemma FindSlot_None t slots : FindSlot t slots = None <-> t ∉ map target slots.
Proof.
  induction slots as [|s slots IH]; cbn [FindSlot map]; [split; [intros _ H; by apply elem_of_nil in H|done]|].
  rewrite not_elem_of_cons, <- IH. destruct (Z.eqb_spec (target s) t) as [->|Hne]; [split; [done|by intros [? _]]|].
  destruct (FindSlot t slots); [by split; [|intros [_ ?]]|]. split; [|done]. intros _. split; [by apply not_eq_sym|done].
Qed.

(** Removing a slot, up to order. *)
Lemma swap_remove_perm {A} (l : list A) i x : l !! i = Some x -> l ≡ₚ x :: swap_remove i l.
Proof.
  intros H. destruct l as [|z l0] using rev_ind; [done|]. clear IHl0. unfold swap_remove.
  rewrite length_app, Nat.add_sub, list_lookup_middle by done.
  apply lookup_app_Some in H as [H|[Hi H]].
  - pose proof (lookup_lt_Some _ _ _ H) as Hi. rewrite insert_app_l, take_app_length' by (by rewrite ?length_insert).
    rewrite insert_take_drop by done. rewrite <- (take_drop_middle l0 i x H) at 1. rewrite <- app_assoc. cbn.
    rewrite (Permutation_app_comm (drop _ _) [z]). cbn. by rewrite <- !Permutation_middle.
  - apply list_lookup_singleton_Some in H as [H <-]. replace i with (length l0) by lia.
    rewrite insert_app_r_alt, Nat.sub_diag by done. cbn. rewrite take_app_length. by rewrite Permutation_app_comm.
Qed.

(** The pages that are mapped. *)
Definition pages (v : vm) : gset Z := dom (vm_prot v).

Lemma protect_pages_dom n : forall p prot v, pages (snd (protect_pages n p prot v)) = pages v.
Proof.
  induction n as [|n IH]; intros p prot v; cbn [protect_pages]; [done|]. destruct (vm_prot v !! p) eqn:E; [|done].
  rewrite IH. unfold pages. cbn. rewrite dom_insert_L. apply elem_of_dom_2 in E. set_solver.
Qed.

Lemma Protect_dom a n prot v : pages (snd (Protect a n prot v)) = pages v.
Proof. unfold Protect, mprotect_range. destruct (match vm_answers v with [] => true | b :: _ => b end); [|done]. by rewrite protect_pages_dom. Qed.

Lemma memcpy_to_dom v a bs v' : memcpy_to page v a bs = Ret v' -> pages v' = pages v.
Proof. unfold memcpy_to. destruct (bytes_have _ _ _ _ _); [|done]. by intros [= <-]. Qed.

Lemma Write_from_dom a n buf v rc v' : Write_from a n buf v = Ret (rc, v') -> pages v' = pages v.
Proof.
  unfold Write_from. pose proof (Protect_dom a (Z.of_nat n) RW v) as H1. destruct (Protect _ _ RW v) as [rc1 v1]. cbn [snd] in H1.
  destruct (negb _); [by intros [= _ <-]|]. intros E. peel. apply memcpy_to_dom in E1.
  pose proof (Protect_dom a (Z.of_nat n) RX a1) as H2. destruct (Protect _ _ RX a1) as [rc2 v2]. cbn [snd] in H2.
  injection E as <- <-. congruence.
Qed.

(** What Hook leaves as it was, and what it adds. *)
Inductive hook_effect (mm : option Z) (t r : Z) (st : engine) : Z -> engine -> Prop :=
| hook_refuses rc st' : rc = DOBBY_ERR_FAILED \/ rc = DOBBY_ERR_UNSUPPORTED -> g_slots st' = g_slots st ->
    (forall q, mm <> Some q -> q ∈ pages (space st) -> q ∈ pages (space st')) -> hook_effect mm t r st rc st'
| hook_adds p st' : mm = Some p -> pages (space st') = {[p]} ∪ pages (space st) ->
    g_slots st' = g_slots st ++ [{| target := t; replace := r; trampoline := p; head_len := HEAD |}] -> hook_effect mm t r st DOBBY_OK st'.

Lemma register_slot_effect t r p origin ov v st st' : register_slot t r p origin ov v st = Ret st' ->
  pages (space st') = pages v /\
  g_slots st' = g_slots st ++ [{| target := t; replace := r; trampoline := p; head_len := HEAD |}].
Proof.
  unfold register_slot. intros H. apply outcome_bind_Ret in H as (head & _ & H). apply outcome_bind_Ret in H as (v' & E & H).
  injection H as <-. split; [|done]. cbn. destruct (origin =? 0); [by injection E as <-|]. by apply memcpy_to_dom in E.
Qed.

Lemma mmap_dom p v : pages (mmap_page p v) = {[p]} ∪ pages v.
Proof. unfold pages. cbn. by rewrite dom_insert_L. Qed.

(** Follow the stores of a hypothesis. *)
Ltac follow_dom :=
  repeat match goal with
    | H : store _ _ _ _ = Ret _ |- _ => apply memcpy_to_dom in H
    | H : memcpy_to _ _ _ _ = Ret _ |- _ => apply memcpy_to_dom in H
    end.

Lemma munmap_dom p v v' : pages v' = {[p]} ∪ pages v ->
  forall q, Some p <> Some q -> q ∈ pages v -> q ∈ pages (munmap_page p v').
Proof. intros E q Hq Hv. unfold pages in *. cbn. rewrite dom_delete_L, E. set_solver. Qed.

Lemma hook_arm_effect p fn t r origin st rc st' :
  hook_arm p fn t r origin st = Ret (rc, st') -> hook_effect (Some p) t r st rc st'.
Proof.
  unfold hook_arm. intros H. peel. follow_dom. pose proof (Protect_dom fn HEAD RWX a2) as HP.
  destruct (Protect fn HEAD RWX a2) as [rc1 v1]. cbn [snd] in HP.
  assert (Ev : pages v1 = {[p]} ∪ pages (space st)) by (rewrite HP, E2, E1, E0; apply mmap_dom).
  destruct (negb _).
  - injection H as <- <-. apply hook_refuses; [by auto|done|]. by apply munmap_dom.
  - peel. follow_dom. apply register_slot_effect in E5 as [H1 H2]. apply (hook_adds _ _ _ _ p); [done| |done]. congruence.
Qed.

Lemma hook_thumb_effect p fn t r origin st rc st' :
  hook_thumb p fn t r origin st = Ret (rc, st') -> hook_effect (Some p) t r st rc st'.
Proof.
  unfold hook_thumb. intros H. apply outcome_bind_Ret in H as (head & _ & H). destruct (RelocateThumb _ _ _) as [code|].
  - peel. follow_dom. pose proof (Protect_dom fn HEAD RWX a2) as HP.
    destruct (Protect fn HEAD RWX a2) as [rc1 v1]. cbn [snd] in HP.
    assert (Ev : pages v1 = {[p]} ∪ pages (space st)) by (rewrite HP, E2, E1, E0, E; apply mmap_dom).
    destruct (negb _).
    + injection H as <- <-. apply hook_refuses; [by auto|done|]. by apply munmap_dom.
    + peel. follow_dom. apply register_slot_effect in E6 as [H1 H2]. apply (hook_adds _ _ _ _ p); [done| |done]. cbn. congruence.
  - injection H as <- <-. apply hook_refuses; [by auto|done|]. apply munmap_dom, mmap_dom.
Qed.

(** ** The abstract table *)

(** Targets with their replacements and trampolines. *)
Abbreviation hooks := (gmap Z (Z * Z)).

Inductive op :=
| OpHook (mm : option Z) (t r origin : Z)
| OpUnhook (t : Z).

Definition exec_op (o : op) (st : engine) : outcome (Z * engine) :=
  match o with
  | OpHook mm t r origin => Hook mm t r origin st
  | OpUnhook t => Unhook t st
  end.

Inductive spec_step (m : hooks) : op -> Z -> hooks -> Prop :=
| spec_invalid mm t r origin : t = 0 \/ r = 0 -> spec_step m (OpHook mm t r origin) DOBBY_ERR_INVALID m
| spec_already mm t r origin : t <> 0 -> r <> 0 -> is_Some (m !! t) -> spec_step m (OpHook mm t r origin) DOBBY_ERR_ALREADY m
| spec_full mm t r origin : t <> 0 -> r <> 0 -> m !! t = None -> (max_slots <= size m)%nat ->
    spec_step m (OpHook mm t r origin) DOBBY_ERR_FAILED m
| spec_refused mm t r origin rc : t <> 0 -> r <> 0 -> m !! t = None -> (size m < max_slots)%nat ->
    rc = DOBBY_ERR_FAILED \/ rc = DOBBY_ERR_UNSUPPORTED -> spec_step m (OpHook mm t r origin) rc m
| spec_hook p t r origin : t <> 0 -> r <> 0 -> m !! t = None -> (size m < max_slots)%nat ->
    spec_step m (OpHook (Some p) t r origin) DOBBY_OK (<[t := (r, p)]> m)
| spec_unhook t : is_Some (m !! t) -> spec_step m (OpUnhook t) DOBBY_OK (delete t m)
| spec_missing t : m !! t = None -> spec_step m (OpUnhook t) DOBBY_ERR_NOT_FOUND m.

Definition entry (s : HookSlot) : Z * (Z * Z) := (target s, (replace s, trampoline s)).
Definition abs (slots : list HookSlot) : hooks := list_to_map (map entry slots).

Record table_ok (st : engine) : Prop := {
  tb_targets : NoDup (map target (g_slots st));
  tb_room : (length (g_slots st) <= max_slots)%nat;
  tb_pages : NoDup (map trampoline (g_slots st));
  tb_mapped : forall s, s ∈ g_slots st -> trampoline s ∈ pages (space st);
}.

Lemma fst_entries slots : (map entry slots).*1 = map target slots.
Proof. induction slots as [|s slots IH]; [done|]. cbn. by f_equal. Qed.

Lemma abs_lookup_None t slots : abs slots !! t = None <-> FindSlot t slots = None.
Proof. rewrite FindSlot_None. unfold abs. by rewrite <- not_elem_of_list_to_map, fst_entries. Qed.

Lemma abs_lookup_Some t slots : is_Some (abs slots !! t) <-> is_Some (FindSlot t slots).
Proof. rewrite <- !not_eq_None_Some. by rewrite abs_lookup_None. Qed.

Lemma abs_size slots : NoDup (map target slots) -> size (abs slots) = length slots.
Proof.
  induction slots as [|s slots IH]; [done|]. intros H. cbn [map] in H. inversion_clear H as [|? ? Hn Hd].
  unfold abs in *. cbn [map entry list_to_map length foldr]. rewrite map_size_insert_None, IH by (done || (apply not_elem_of_list_to_map_1; by rewrite fst_entries)). done.
Qed.

Lemma abs_app slots s : FindSlot (target s) slots = None -> abs (slots ++ [s]) = <[target s := (replace s, trampoline s)]> (abs slots).
Proof.
  intros H. apply FindSlot_None in H. unfold abs. rewrite map_app. apply (list_to_map_snoc (M := gmap Z)). by rewrite fst_entries.
Qed.

Lemma abs_perm slots slots' : NoDup (map target slots) -> slots ≡ₚ slots' -> abs slots = abs slots'.
Proof.
  intros Hd Hp. unfold abs. apply list_to_map_proper; [by rewrite fst_entries|]. by rewrite Hp.
Qed.

Lemma NoDup_map_cons {A B} (f : A -> B) x l : NoDup (map f (x :: l)) -> (f x ∉ map f l) /\ NoDup (map f l).
Proof. cbn [map]. intros H. by inversion_clear H. Qed.


(** ** Refinement of one operation *)

Lemma Hook_refines mm t r origin st rc st' :
  table_ok st -> (forall p, mm = Some p -> p ∉ pages (space st)) -> Hook mm t r origin st = Ret (rc, st') ->
  spec_step (abs (g_slots st)) (OpHook mm t r origin) rc (abs (g_slots st')) /\ table_ok st'.
Proof.
  intros [Hd Hr Hp Hm] Hmm. unfold Hook. destruct (Z.eqb_spec t 0) as [Ht|Ht]; cbn [orb].
  { intros [= <- <-]. split; [apply spec_invalid; by left|by split]. }
  destruct (Z.eqb_spec r 0) as [Hr0|Hr0]. { intros [= <- <-]. split; [apply spec_invalid; by right|by split]. }
  case_bool_decide as Hf. { intros [= <- <-]. split; [apply spec_already; [done|done|by apply abs_lookup_Some]|by split]. }
  apply eq_None_not_Some in Hf. pose proof (proj2 (abs_lookup_None _ _) Hf) as Hn. pose proof (abs_size _ Hd) as Hs.
  destruct (Nat.leb_spec max_slots (length (g_slots st))) as [Hfull|Hroom].
  { intros [= <- <-]. split; [apply spec_full; [done|done|done|lia]|by split]. }
  destruct mm as [p|]. 2:{ intros [= <- <-]. split; [apply spec_refused; [done|done|done|lia|by left]|by split]. }
  intros E. assert (He : hook_effect (Some p) t r st rc st') by (destruct (_ =? 1); [by eapply hook_thumb_effect|by eapply hook_arm_effect]).
  clear E. specialize (Hmm p eq_refl). destruct He as [rc st' Hrc Hsl Hpg|p' st' [= <-] Hpg Hsl].
  - rewrite Hsl. split; [apply spec_refused; [done|done|done|lia|done]|]. split; rewrite ?Hsl; try done.
    intros s Hin. specialize (Hm s Hin). apply Hpg; [|done]. intros [= E]. by rewrite E in Hmm.
  - rewrite Hsl, abs_app by done. split; [apply spec_hook; [done|done|done|lia]|]. split; rewrite ?Hsl, ?map_app; cbn [map target trampoline].
    + rewrite <- Permutation_cons_append. apply NoDup_cons_2; [by apply FindSlot_None|done].
    + rewrite length_app. cbn. lia.
    + rewrite <- Permutation_cons_append. apply NoDup_cons_2; [|done]. intros Hin. apply list_elem_of_fmap in Hin as (s & -> & Hs').
      by apply Hmm, Hm.
    + intros s Hin. rewrite Hpg. apply elem_of_app in Hin as [Hin|Hin%list_elem_of_singleton]; [specialize (Hm s Hin); set_solver|subst s; cbn; set_solver].
Qed.

Lemma Unhook_refines t st rc st' :
  table_ok st -> Unhook t st = Ret (rc, st') ->
  spec_step (abs (g_slots st)) (OpUnhook t) rc (abs (g_slots st')) /\ table_ok st'.
Proof.
  intros [Hd Hr Hp Hm]. unfold Unhook. destruct (FindSlot t (g_slots st)) as [i|] eqn:Hf.
  2:{ intros [= <- <-]. split; [apply spec_missing; by apply abs_lookup_None|by split]. }
  destruct (FindSlot_Some _ _ _ Hf) as (s & Hi & <-). rewrite Hi. intros E.
  apply outcome_bind_Ret in E as ([rc1 v] & Ew & E). injection E as <- <-. apply Write_from_dom in Ew.
  pose proof (swap_remove_perm _ _ _ Hi) as HP. cbn [emit g_slots].
  assert (Hd' : NoDup (map target (s :: swap_remove i (g_slots st)))) by (by rewrite <- HP).
  assert (Hp' : NoDup (map trampoline (s :: swap_remove i (g_slots st)))) by (by rewrite <- HP).
  apply NoDup_map_cons in Hp' as [Hp1 Hp2]. pose proof (NoDup_map_cons _ _ _ Hd') as [Hd1 Hd2]. split.
  - replace (abs (swap_remove i (g_slots st))) with (delete (target s) (abs (g_slots st))).
    + apply spec_unhook, abs_lookup_Some. by rewrite Hf.
    + rewrite (abs_perm _ _ Hd HP). unfold abs. cbn [map entry list_to_map foldr]. apply delete_insert_id.
      apply not_elem_of_list_to_map_1. by rewrite fst_entries.
  - split; cbn [emit g_slots space]; [done| |done|].
    + apply Permutation_length in HP. cbn [length] in HP. lia.
    + intros s' Hs'. unfold pages. cbn. rewrite dom_delete_L. fold (pages v). rewrite Ew.
      apply elem_of_difference. split; [apply Hm; rewrite HP; by right|].
      rewrite not_elem_of_singleton. intros Eq. apply Hp1. rewrite <- Eq. by apply list_elem_of_fmap_2.
Qed.

(** ** Refinement of a run *)

(** mmap returns a page that is not mapped. *)
Definition fresh_page (o : op) (st : engine) : Prop :=
  match o with
  | OpHook (Some p) _ _ _ => p ∉ pages (space st)
  | _ => True
  end.

(** The operations done and what they returned; in between the process may do what it likes to its memory but unmap
    the trampolines. *)
Inductive runs (st0 : engine) : list (op * Z) -> engine -> Prop :=
| runs_start : runs st0 [] st0
| runs_op tr st o rc st' :
    runs st0 tr st -> fresh_page o st -> exec_op o st = Ret (rc, st') -> runs st0 (tr ++ [(o, rc)]) st'
| runs_process tr st st' :
    runs st0 tr st -> g_slots st' = g_slots st -> (forall s, s ∈ g_slots st -> trampoline s ∈ pages (space st')) -> runs st0 tr st'.

Inductive spec_runs : list (op * Z) -> hooks -> Prop :=
| spec_start : spec_runs [] ∅
| spec_next tr m o rc m' : spec_runs tr m -> spec_step m o rc m' -> spec_runs (tr ++ [(o, rc)]) m'.

(** C8: The hook table refines a finite map.  From an empty table, what a sequence of Hook and Unhook calls returns and
    leaves in the table is what insertion and deletion in a map of at most 128 targets gives: a second hook
    of a target is [DOBBY_ERR_ALREADY], Unhook of an unknown one [DOBBY_ERR_NOT_FOUND], and so on; IsHooked is
    membership and Count the size; the targets and the trampolines of the table are pairwise distinct and every
    trampoline is mapped. *)
Theorem hooker_refines st0 tr st :
  g_slots st0 = [] -> runs st0 tr st ->
  spec_runs tr (abs (g_slots st)) /\ table_ok st /\
  (forall t, IsHooked t st = bool_decide (is_Some (abs (g_slots st) !! t))) /\ Count st = Z.of_nat (size (abs (g_slots st))).
Proof.
  intros H0 H. assert (Hr : spec_runs tr (abs (g_slots st)) /\ table_ok st).
  { induction H as [|tr st o rc st' _ [Hs Ht] Hf E|tr st st' _ [Hs Ht] Eg Hm].
    - rewrite H0. split; [constructor|]. split; rewrite H0; [constructor|cbn; lia|constructor|]. intros s Hs. by apply elem_of_nil in Hs.
    - assert (Hstep : spec_step (abs (g_slots st)) o rc (abs (g_slots st')) /\ table_ok st').
      { destruct o as [mm t r origin|t]; [|by apply Unhook_refines]. apply Hook_refines; [done| |done]. intros p ->. exact Hf. }
      split; [exact (spec_next _ _ _ _ _ Hs (proj1 Hstep))|apply Hstep].
    - rewrite Eg. split; [done|]. destruct Ht as [H1 H2 H3 H4]. by split; rewrite ?Eg. }
  destruct Hr as [Hs Ht]. split; [done|]. split; [done|]. split.
  - intros t. apply bool_decide_ext. by rewrite abs_lookup_Some.
  - unfold Count. by rewrite abs_size by apply Ht.
Qed.

(** A process with one page of code, at 0x10000, and one of data, at 0x20000. *)
Definition sample_space (code : list Z) (answers : list bool) : vm :=
  {| vm_mem := fun a => nth (Z.to_nat (a - 0x10000)) code 0; vm_prot := {[ 0x10000 := RX; 0x20000 := RW ]}; vm_answers := answers |}.
Definition sample_engine (code : list Z) (answers : list bool) : engine :=
  {| space := sample_space code answers; g_slots := []; g_integrity := []; events := {| g_ev_cb := true; delivered := [] |} |}.
Definition after (o : op) (st : engine) : engine := match exec_op o st with Ret (_, st) => st | _ => st end.


(** Every operation of the list succeeds, with a fresh page where it needs one. *)
Fixpoint all_ok (ops : list op) (st : engine) : bool :=
  match ops with
  | [] => true
  | o :: ops =>
      match o with OpHook (Some p) _ _ _ => match vm_prot (space st) !! p with None => true | _ => false end | _ => true end
      && match exec_op o st with Ret (rc, _) => rc =? DOBBY_OK | _ => false end && all_ok ops (after o st)
  end.

Lemma runs_fold st0 ops : forall tr st, runs st0 tr st -> all_ok ops st = true ->
  runs st0 (tr ++ map (fun o => (o, DOBBY_OK)) ops) (fold_left (fun st o => after o st) ops st).
Proof.
  induction ops as [|o ops IH]; intros tr st H; cbn [all_ok map fold_left]; [by rewrite app_nil_r|].
  intros E. apply andb_true_iff in E as [E E3]. apply andb_true_iff in E as [E1 E2].
  change ((o, DOBBY_OK) :: ?l) with ([(o, DOBBY_OK)] ++ l). rewrite app_assoc. apply IH; [|done]. apply (runs_op _ _ st); [done| |].
  - destruct o as [[p|] ? ? ?|]; try done. apply not_elem_of_dom. by destruct (vm_prot (space st) !! p).
  - unfold after. destruct (exec_op o st) as [[rc st']| |]; try done. by apply Z.eqb_eq in E2 as ->.
Qed.

(** Two hooks and an Unhook. *)
Definition sample_ops : list op := [OpHook (Some 0x30000) 0x10000 0x50000 0x20000; OpHook (Some 0x31000) 0x10008 0x60000 0; OpUnhook 0x10000].
Definition sample_code : list Z := [0; 0x40; 0x2d; 0xe9; 1; 0; 0xa0; 0xe1; 2; 0; 0xa0; 0xe1; 3; 0; 0xa0; 0xe1].
Definition sample_end : engine := fold_left (fun st o => after o st) sample_ops (sample_engine sample_code []).

Lemma sample_all_ok : all_ok sample_ops (sample_engine sample_code []) = true.
Proof. vm_compute. reflexivity. Qed.

Lemma hooker_refines_witness :
  g_slots sample_end = [{| target := 0x10008; replace := 0x60000; trampoline := 0x31000; head_len := 8 |}] /\
  spec_runs (map (fun o => (o, DOBBY_OK)) sample_ops) (abs (g_slots sample_end)).
Proof.
  split; [vm_compute; reflexivity|].
  apply (hooker_refines (sample_engine sample_code []) (map (fun o => (o, DOBBY_OK)) sample_ops) sample_end); [reflexivity|].
  exact (runs_fold _ sample_ops [] _ (runs_start _) sample_all_ok).
Defined.
