(* ===== verification/V2HookerSpec.v ===== *)
(** * The second engine: what its inline hooks do

    Hook and Unhook of V2Hooker against the address space they edit and, for the code
    they write, against the A32 and T32 semantics of Arm32Machine. *)

From stdpp Require Import gmap.
From S2P Require Import Arm64Machine Arm32Emission Arm32Machine Arm32Simulation Arm32Arm Arm32Trampoline.
From S2P Require Import Prelude UtilityMacro CodePatch V2Util V2Memory V2Hooker V2Branch V2HookTable.
#[local] Open Scope Z_scope.
#[local] Open Scope machine_scope.

(** ** Memory up to pointwise equality *)

#[export] Instance patch_mem_Proper : Proper (pointwise_relation Z eq ==> eq ==> eq ==> pointwise_relation Z eq) patch_mem.
Proof. intros m m' Hm a a' <- l l' <- b. unfold patch_mem. by destruct (_ && _). Qed.

Lemma patch_split m a a2 l1 l2 : a2 = a + Z.of_nat (length l1) ->
  pointwise_relation Z eq (patch_mem (patch_mem m a l1) a2 l2) (patch_mem m a (l1 ++ l2)).
Proof.
  intros -> b. destruct (decide (a + Z.of_nat (length l1) <= b < a + Z.of_nat (length l1) + Z.of_nat (length l2))) as [H2|H2].
  { rewrite patch_in, (patch_in m a (l1 ++ l2)), app_nth2 by (rewrite ?length_app; lia). f_equal. lia. }
  rewrite patch_out by done. destruct (decide (a <= b < a + Z.of_nat (length l1))) as [H1|H1].
  - rewrite !patch_in, app_nth1 by (rewrite ?length_app; lia). done.
  - rewrite !patch_out by (rewrite ?length_app; lia). done.
Qed.

Lemma bytes_Proper m m' a n : pointwise_relation Z eq m m' -> bytes m a n = bytes m' a n.
Proof. intros H. apply bytes_ext. intros b _. apply H. Qed.

(** ** A hook that is installed *)

(** The pages, the table and the answers of the kernel are as Hook needs them. *)
Record hookable (p fn t origin : Z) (st : engine) : Prop := {
  hk_range : 0 < fn /\ fn + 8 <= 2 ^ 32 - 4096;
  hk_free : FindSlot t (g_slots st) = None;
  hk_room : (length (g_slots st) < max_slots)%nat;
  hk_page : p mod 4096 = 0 /\ vm_prot (space st) !! p = None;
  hk_read : allows (space st) PROT_READ fn 8;
  hk_granted : granted (space st);
  hk_origin : origin = 0 \/ allows (space st) PROT_WRITE origin 4 /\ (origin + 4 <= fn \/ fn + 8 <= origin);
}.

Abbreviation mem st := (vm_mem (space st)).

(** [st'] is [st] with the head [hb] in place, the trampoline [tb] on the page [p] and [ov] in [*origin]. *)
Record installed (fn : Z) (hb tb : list Z) (p origin ov : Z) (slot : HookSlot) (st st' : engine) : Prop := {
  in_head : bytes (mem st') fn 8 = hb;
  in_tramp : bytes (mem st') p 16 = tb;
  in_origin : origin <> 0 -> bytes (mem st') origin 4 = le_bytes 4 ov;
  in_other : forall b, ~ (fn <= b < fn + 8) -> ~ (p <= b < p + 4096) -> origin = 0 \/ ~ (origin <= b < origin + 4) ->
             mem st' b = mem st b;
  in_code : forall q, touches fn 8 q -> vm_prot (space st') !! q = Some RWX;
  in_page : vm_prot (space st') !! p = Some RWX;
  in_rest : forall q, ~ touches fn 8 q -> q <> p -> vm_prot (space st') !! q = vm_prot (space st) !! q;
  in_answers : vm_answers (space st') = tail (vm_answers (space st));
  in_slots : g_slots st' = g_slots st ++ [slot];
  in_integrity : g_integrity st' = SnapshotIntegrity (target slot) (le_val (take 4 tb)) (g_integrity st);
}.

Section Install.
Context (p fn t r origin : Z) (st : engine).
Hypothesis Hk : hookable p fn t origin st.

Abbreviation mapped := (mmap_page p (space st)).

Lemma fn_apart b : fn <= b < fn + 8 -> ~ (p <= b < p + 4096).
Proof. apply (allows_apart p (space st) PROT_READ); apply Hk. Qed.

Lemma origin_apart b : origin <> 0 -> origin <= b < origin + 4 -> ~ (p <= b < p + 4096).
Proof. intros H0. destruct (hk_origin _ _ _ _ _ Hk) as [|[H _]]; [done|]. apply (allows_apart p (space st) PROT_WRITE); [apply Hk|apply Hk|done]. Qed.

Lemma fn_read : allows mapped PROT_READ fn 8.
Proof. apply mmap_allows_old; apply Hk. Qed.

(** The permissions after the head's pages are opened, whatever has been written before. *)
Lemma fn_opened m : exists v, Protect fn HEAD RWX (set_mem mapped m) = (0, v) /\ protected fn 8 RWX (set_mem mapped m) v.
Proof.
  pose proof (hk_range _ _ _ _ _ Hk). apply Protect_granted; [apply Hk|lia|done|lia|].
  intros q Hq. apply (allows_mapped _ _ _ _ _ fn_read Hq).
Qed.

Lemma tramp_writable q a n : negb (Z.land RWX q =? 0) = true -> p <= a -> a + n <= p + 4096 -> allows mapped q a n.
Proof. apply mmap_allows_new, Hk. Qed.

(** The end of both branches. *)
Lemma register_installed hb tb ov m v m2 :
  length hb = 8%nat -> length tb = 16%nat ->
  pointwise_relation Z eq m (patch_mem (vm_mem mapped) p tb) -> protected fn 8 RWX (set_mem mapped m) v ->
  pointwise_relation Z eq m2 (patch_mem (vm_mem v) fn hb) ->
  exists st', register_slot t r p origin ov (set_mem v m2) st = Ret st' /\ events st' = events st /\
    installed fn hb tb p origin ov {| target := t; replace := r; trampoline := p; head_len := HEAD |} st st'.
Proof.
  intros Hh Ht Em Hp Em2. set (m0 := vm_mem mapped) in *.
  assert (Ev : vm_mem v = m) by apply (pr_mem _ _ _ _ _ Hp). rewrite Ev in Em2.
  assert (Hw : origin <> 0 -> allows v PROT_WRITE origin 4).
  { intros H0. destruct (hk_origin _ _ _ _ _ Hk) as [|[Ho _]]; [done|].
    apply (protected_keeps fn 8 RWX _ v _ _ _ eq_refl Hp); [done|]. apply allows_set_mem, mmap_allows_old; [apply Hk|done]. }
  assert (Hr : allows v PROT_READ p 4).
  { apply (protected_keeps fn 8 RWX _ v _ _ _ eq_refl Hp); [done|]. apply allows_set_mem, tramp_writable; [done|lia|lia]. }
  unfold register_slot. rewrite load_allowed by (apply allows_set_mem, Hr). cbn [mbind outcome_bind].
  set (m3 := if origin =? 0 then m2 else patch_mem m2 origin (le_bytes 4 ov)).
  assert (Es : (if origin =? 0 then Ret (set_mem v m2) else store 4 (set_mem v m2) origin ov) = Ret (set_mem v m3)).
  { unfold m3. destruct (Z.eqb_spec origin 0); [done|]. rewrite store_allowed by (by apply allows_set_mem, Hw). done. }
  rewrite Es. cbn [mbind outcome_bind]. eexists. split; [reflexivity|]. split; [done|].
  assert (H2 : forall b, m2 b = patch_mem (patch_mem m0 p tb) fn hb b) by (intros b; by rewrite (Em2 b), (patch_mem_Proper _ _ Em _ _ eq_refl _ _ eq_refl b)).
  assert (H3 : forall b, origin = 0 \/ ~ (origin <= b < origin + 4) -> m3 b = patch_mem (patch_mem m0 p tb) fn hb b).
  { intros b Hb. unfold m3. destruct (Z.eqb_spec origin 0); [apply H2|]. rewrite patch_out by (rewrite length_le_bytes; lia). apply H2. }
  assert (Hof : forall b, fn <= b < fn + 8 -> origin = 0 \/ ~ (origin <= b < origin + 4)).
  { intros b Hb. destruct (hk_origin _ _ _ _ _ Hk) as [|[_ Ho]]; [by left|right; lia]. }
  assert (Hop : forall b, p <= b < p + 4096 -> origin = 0 \/ ~ (origin <= b < origin + 4)).
  { intros b Hb. destruct (decide (origin = 0)); [by left|right]. intros Hc. by apply (origin_apart b). }
  split; cbn [space vm_mem vm_prot vm_answers set_mem V2Hooker.g_slots V2Hooker.g_integrity].
  - rewrite <- (bytes_patch (patch_mem m0 p tb) fn hb), Hh. apply bytes_ext. intros b Hb. apply H3, Hof. lia.
  - rewrite <- (bytes_patch m0 p tb), Ht. apply bytes_ext. intros b Hb. rewrite H3 by (apply Hop; lia).
    apply patch_out. intros Hc. apply (fn_apart b); lia.
  - intros H0. unfold m3. destruct (Z.eqb_spec origin 0); [done|].
    rewrite <- (bytes_patch m2 origin (le_bytes 4 ov)) at 2. by rewrite length_le_bytes.
  - intros b Hb1 Hb2 Hb3. rewrite H3, !patch_out by (rewrite ?Hh, ?Ht; done || lia).
    unfold m0. cbn [vm_mem mmap_page]. by rewrite decide_False by (unfold page; lia).
  - intros q Hq. apply (pr_in _ _ _ _ _ Hp), Hq.
  - destruct (touches_dec fn 8 p eq_refl) as [Hq|Hq]; [apply (pr_in _ _ _ _ _ Hp), Hq|].
    rewrite (pr_out _ _ _ _ _ Hp _ Hq). cbn. apply lookup_insert_eq.
  - intros q Hq Hne. rewrite (pr_out _ _ _ _ _ Hp _ Hq). cbn. by rewrite lookup_insert_ne.
  - apply (pr_answers _ _ _ _ _ Hp).
  - done.
  - cbn [target]. f_equal. f_equal. replace (take 4 tb) with (bytes (patch_mem m0 p tb) p 4).
    + apply bytes_ext. intros b Hb. rewrite H2. apply patch_out. intros Hc. apply (fn_apart b); lia.
    + rewrite <- (bytes_patch m0 p tb) at 2. rewrite Ht. done.
Qed.


(** ** The ARM branch *)

Definition arm_head (r : Z) : list Z := le_bytes 4 0xE51FF004 ++ le_bytes 4 r.
Definition arm_tramp (head : list Z) : list Z := head ++ le_bytes 4 0xE51FF004 ++ le_bytes 4 (u32 (fn + HEAD)).

Lemma Hook_unfold : r <> 0 -> t <> 0 ->
  Hook (Some p) t r origin st =
  if t mod 2 =? 1 then hook_thumb p (t - 1) t r origin st else hook_arm p t t r origin st.
Proof.
  intros Hr Ht. unfold Hook. rewrite (proj2 (Z.eqb_neq t 0)), (proj2 (Z.eqb_neq r 0)) by done. cbn [orb].
  rewrite bool_decide_eq_false_2 by (rewrite (hk_free _ _ _ _ _ Hk); by intros [? ?]).
  rewrite (proj2 (Nat.leb_gt _ _)) by apply Hk. by destruct (_ =? 1).
Qed.

Lemma fn_head_mapped : bytes (vm_mem mapped) fn 8 = bytes (mem st) fn 8.
Proof. apply bytes_ext. intros b Hb. cbn [vm_mem mmap_page]. rewrite decide_False; [done|]. apply fn_apart. lia. Qed.

Lemma hook_arm_installed : exists st',
  hook_arm p fn t r origin st = Ret (DOBBY_OK, st') /\ events st' = events st /\
  installed fn (arm_head r) (arm_tramp (bytes (mem st) fn 8)) p origin p
    {| target := t; replace := r; trampoline := p; head_len := HEAD |} st st'.
Proof.
  unfold hook_arm. rewrite memcpy_from_ok by apply fn_read. rewrite fn_head_mapped. set (head := bytes (mem st) fn 8).
  assert (Hl : length head = 8%nat) by apply length_bytes. cbn [mbind outcome_bind].
  rewrite memcpy_to_ok by (apply tramp_writable; [done|lia|rewrite Hl; lia]). cbn [mbind outcome_bind].
  rewrite store_allowed by (apply allows_set_mem, tramp_writable; unfold HEAD; [done|lia|lia]). cbn [mbind outcome_bind].
  rewrite store_allowed by (do 2 apply allows_set_mem; apply tramp_writable; unfold HEAD; [done|lia|lia]). cbn [mbind outcome_bind].
  cbn [vm_mem set_mem]. set (m := patch_mem _ (p + HEAD + 4) _). change (set_mem _ m) with (set_mem mapped m).
  destruct (fn_opened m) as (v & -> & Hv). cbn [Z.eqb negb].
  rewrite store_allowed by (apply (protected_allows _ _ _ _ _ _ _ _ Hv); [done|lia|lia]). cbn [mbind outcome_bind].
  rewrite store_allowed by (apply allows_set_mem, (protected_allows _ _ _ _ _ _ _ _ Hv); [done|lia|lia]). cbn [mbind outcome_bind].
  cbn [vm_mem set_mem]. set (m2 := patch_mem _ (fn + 4) _). change (set_mem _ m2) with (set_mem v m2).
  destruct (register_installed (arm_head r) (arm_tramp head) p m v m2) as (st' & -> & Hev & Hi); [done| | |done| |].
  - unfold arm_tramp. by rewrite !length_app, Hl.
  - unfold m, arm_tramp. rewrite patch_split, patch_split; [done|by rewrite Hl|done].
  - unfold m2, arm_head. by rewrite patch_split.
  - exists st'. done.
Qed.

End Install.

(** ** Taking a hook back *)

Lemma FindSlot_app t slots slot : FindSlot t slots = None -> target slot = t ->
  FindSlot t (slots ++ [slot]) = Some (length slots).
Proof.
  intros H <-. induction slots as [|s slots IH]; cbn [FindSlot app length] in *; [by rewrite Z.eqb_refl|].
  destruct (target s =? target slot); [done|]. rewrite IH; [done|]. by destruct (FindSlot (target slot) slots).
Qed.

Lemma swap_remove_last {A} (l : list A) x : swap_remove (length l) (l ++ [x]) = l.
Proof.
  unfold swap_remove. rewrite length_app, Nat.add_sub, list_lookup_middle by done. rewrite insert_app_r_alt by done.
  rewrite Nat.sub_diag. cbn. by rewrite take_app_length.
Qed.

(** Unhook of the hook installed last: the head is what the trampoline begins with, the page is gone. *)
Lemma unhook_installed p fn t r origin st hb tb ov st' :
  hookable p fn t origin st -> fn = t .& Z.lnot 1 -> length tb = 16%nat -> vm_answers (space st') = [] ->
  installed fn hb tb p origin ov {| target := t; replace := r; trampoline := p; head_len := HEAD |} st st' ->
  exists st'', Unhook t st' = Ret (DOBBY_OK, st'') /\ g_slots st'' = g_slots st /\
    (forall b, mem st'' b = patch_mem (mem st') fn (take 8 tb) b) /\ vm_prot (space st'') !! p = None /\
    (forall q, touches fn 8 q -> vm_prot (space st'') !! q = Some RX) /\
    (forall q, ~ touches fn 8 q -> vm_prot (space st'') !! q = vm_prot (space st) !! q).
Proof.
  intros Hk Hfn Htb Ha Hi. unfold Unhook. rewrite (in_slots _ _ _ _ _ _ _ _ _ Hi).
  rewrite FindSlot_app by (try done; apply Hk). rewrite list_lookup_middle by done. rewrite <- Hfn. cbn [trampoline].
  pose proof (hk_range _ _ _ _ _ Hk) as Hr. pose proof (hk_page _ _ _ _ _ Hk) as [Hp0 Hp].
  assert (Hpt : ~ touches fn 8 p).
  { intros Ht. pose proof (allows_mapped _ _ _ _ _ (hk_read _ _ _ _ _ Hk) Ht) as [? E]. by rewrite Hp in E. }
  destruct (Write_from_granted fn 8 (fun v => memcpy_from page v p 8) (take 8 tb) (space st')) as (v & -> & Hm & _ & Hin & Hout).
  - done.
  - lia.
  - lia.
  - cbn. lia.
  - by rewrite length_take, Htb.
  - intros q Hq. by rewrite (in_code _ _ _ _ _ _ _ _ _ Hi q Hq).
  - intros v' Hv. rewrite memcpy_from_ok.
    + rewrite (pr_mem _ _ _ _ _ Hv), <- (in_tramp _ _ _ _ _ _ _ _ _ Hi). done.
    + intros b Hb. unfold page_has. rewrite (pg_unique p b) by (done || lia). change (Z.of_nat 8) with 8 in Hv.
      by rewrite (pr_out _ _ _ _ _ Hv p Hpt), (in_page _ _ _ _ _ _ _ _ _ Hi).
  - cbn [mbind outcome_bind]. eexists. split; [reflexivity|]. cbn [emit g_slots space munmap_page vm_mem vm_prot].
    rewrite swap_remove_last. split; [done|]. split; [intros b; by rewrite Hm|]. split; [apply lookup_delete_eq|].
    change (Z.of_nat 8) with 8 in *. split.
    + intros q Hq. rewrite lookup_delete_ne by (intros <-; done). by apply Hin.
    + intros q Hq. destruct (decide (q = p)) as [->|Hne]; [by rewrite lookup_delete_eq, Hp|].
      rewrite lookup_delete_ne, (Hout q Hq) by done. by apply (in_rest _ _ _ _ _ _ _ _ _ Hi).
Qed.

(** ** Theorems on the ARM branch *)

Lemma clear_low t : t .& Z.lnot 1 = t - t mod 2.
Proof. change (Z.land t (Z.lnot 1)) with (ALIGN_FLOOR t (2 ^ 1)). by rewrite ALIGN_FLOOR_alt. Qed.

Lemma bytes_loaded m a n l : bytes m a n = l -> 0 <= a -> a + Z.of_nat n < 2 ^ 32 -> loaded32 m a l.
Proof.
  intros <- H0 Hn. split; [done|by rewrite length_bytes|]. intros i. rewrite length_bytes. intros Hi. by rewrite nth_bytes.
Qed.

Lemma mod4_even t : t mod 4 = 0 -> t mod 2 = 0.
Proof. intros H. apply Z.div_exact in H; [|lia]. rewrite H. rewrite (Z.mul_comm 4), (Z.mul_assoc _ 2 2). apply Z.mod_mul. lia. Qed.

(** C2: A hook of an ARM function.  Hook returns [DOBBY_OK]; from then on control that reaches the function
    arrives, in one instruction, at the replacement in the state its address asks for, with registers, flags and memory
    unchanged; the trampoline holds the two instructions that were there, and control that comes to its
    end arrives at the third instruction of the function; the caller's variable holds the trampoline;
    nothing else in memory has changed. *)
Theorem arm_hook_redirects p t r origin st :
  hookable p t t origin st -> t mod 4 = 0 -> code_pointer r -> r <> 0 -> 0 <= p -> p + 4096 <= 2 ^ 32 ->
  exists st', Hook (Some p) t r origin st = Ret (DOBBY_OK, st') /\ IsHooked t st' = true /\
    bytes (mem st') p 8 = bytes (mem st) t 8 /\ (origin <> 0 -> le_val (bytes (mem st') origin 4) = p) /\
    (forall b, ~ (t <= b < t + 8) -> ~ (p <= b < p + 4096) -> origin = 0 \/ ~ (origin <= b < origin + 4) -> mem st' b = mem st b) /\
    (forall s, Arm32Machine.mem s = mem st' ->
       (exists s', run 1 (at_pc t false s) = Some s' /\ arrives r s s') /\
       (exists s', run 1 (at_pc (p + 8) false s) = Some s' /\ arrives (t + 8) s s')).
Proof.
  intros Hk H4 Hr Hr0 Hp0 Hp. pose proof (hk_range _ _ _ _ _ Hk) as Ht. pose proof (hk_page _ _ _ _ _ Hk) as [Hpa _].
  rewrite (Hook_unfold _ _ _ _ _ _ Hk), (mod4_even t H4) by (done || lia). cbn [Z.eqb].
  destruct (hook_arm_installed _ _ _ r _ _ Hk) as (st' & -> & _ & Hi). exists st'. split; [done|].
  assert (Hpr : bytes (mem st') p 8 = bytes (mem st) t 8).
  { transitivity (take 8 (bytes (mem st') p 16)); [done|]. rewrite (in_tramp _ _ _ _ _ _ _ _ _ Hi). done. }
  split; [|split; [done|split; [|split]]].
  - unfold IsHooked. apply bool_decide_eq_true_2. rewrite (in_slots _ _ _ _ _ _ _ _ _ Hi), FindSlot_app by (try done; apply Hk). done.
  - intros H0. rewrite (in_origin _ _ _ _ _ _ _ _ _ Hi H0), le_val_bytes. apply Z.mod_small. cbn. lia.
  - apply (in_other _ _ _ _ _ _ _ _ _ Hi).
  - intros s Hs. assert (Hmod : forall a, a mod 4 = 0 -> (a + 8) mod 4 = 0) by (intros a Ha; change 8 with (2 * 4); by rewrite Z_mod_plus_full).
    split; apply arm_trampoline_runs; try lia; try done; rewrite ?Hs.
    + apply (bytes_loaded _ _ 8); [|lia|cbn; lia]. rewrite (in_head _ _ _ _ _ _ _ _ _ Hi). unfold arm_trampoline.
      rewrite wrap_small by apply Hr. done.
    + apply (bytes_loaded _ _ 8); [|lia|cbn; lia]. transitivity (drop 8 (bytes (mem st') p 16)).
      * cbn. rewrite <- !Z.add_assoc. done.
      * rewrite (in_tramp _ _ _ _ _ _ _ _ _ Hi). unfold arm_trampoline. done.
    + apply Hmod. apply Z.div_exact in Hpa; [|lia]. rewrite Hpa. rewrite (Z.mul_comm 4096), (Z.mul_assoc _ 1024 4). apply Z.mod_mul. lia.
    + split; [lia|]. right. by apply Hmod.
Qed.

(** C7: Round trip of an ARM function that can be hooked (its head is readable, it is not hooked yet, the table has room, mmap
    gives a page, the caller's variable can be written), where the kernel grants every mprotect.  Hook and then Unhook
    return [DOBBY_OK], and give back the table of hooks and every byte of memory other than the caller's variable and the trampoline's page, which is unmapped again.  Every
    page has the protection it had, except those of the function's first eight bytes: these are left readable and
    executable, whatever they were. *)
Theorem arm_hook_unhook p t r origin st :
  hookable p t t origin st -> t mod 4 = 0 -> r <> 0 -> vm_answers (space st) = [] ->
  exists st' st'', Hook (Some p) t r origin st = Ret (DOBBY_OK, st') /\ Unhook t st' = Ret (DOBBY_OK, st'') /\
    g_slots st'' = g_slots st /\ vm_prot (space st'') !! p = None /\
    (forall q, touches t 8 q -> vm_prot (space st'') !! q = Some RX) /\
    (forall q, ~ touches t 8 q -> vm_prot (space st'') !! q = vm_prot (space st) !! q) /\
    (forall b, ~ (p <= b < p + 4096) -> origin = 0 \/ ~ (origin <= b < origin + 4) -> mem st'' b = mem st b).
Proof.
  intros Hk H4 Hr0 Ha. pose proof (hk_range _ _ _ _ _ Hk) as Ht. pose proof (mod4_even t H4) as H2.
  rewrite (Hook_unfold _ _ _ _ _ _ Hk), H2 by (done || lia). cbn [Z.eqb].
  destruct (hook_arm_installed _ _ _ r _ _ Hk) as (st' & -> & _ & Hi). exists st'.
  assert (Ha' : vm_answers (space st') = []) by (rewrite (in_answers _ _ _ _ _ _ _ _ _ Hi), Ha; done).
  assert (Hfn : t = t .& Z.lnot 1) by (rewrite clear_low; lia).
  destruct (unhook_installed _ _ _ _ _ _ _ (arm_tramp t (bytes (mem st) t 8)) _ _ Hk Hfn eq_refl Ha' Hi) as (st'' & -> & Hs & Hm & Hp & Hin & Hout).
  exists st''. do 6 (split; [done|]). intros b Hb Ho. rewrite Hm. unfold arm_tramp. set (l := bytes (mem st) t 8). change (take 8 (l ++ _)) with l.
  destruct (decide (t <= b < t + 8)) as [Hin'|Hout'].
  - rewrite patch_in by (unfold l; rewrite length_bytes; lia). unfold l. rewrite nth_bytes by lia. f_equal. lia.
  - rewrite patch_out by (unfold l; rewrite length_bytes; lia). by apply (in_other _ _ _ _ _ _ _ _ _ Hi).
Qed.

(** ** The Thumb branch *)

Lemma length_put_half i h l : (i + 2 <= length l)%nat -> length (put_half i h l) = length l.
Proof. intros H. unfold put_half. rewrite !length_app, length_take, length_drop, length_le_bytes. lia. Qed.

Lemma take_put_half j i h l : (j <= i <= length l)%nat -> take j (put_half i h l) = take j l.
Proof. intros H. unfold put_half. rewrite take_app_le by (rewrite length_take; lia). rewrite take_take. f_equal. lia. Qed.

(** The scan keeps the length and leaves alone what it has passed. *)
Lemma relocate_scan_spec src src_pc dst_pc fuel : forall i dst out,
  length dst = length src -> relocate_scan fuel src src_pc dst_pc i dst = Some out ->
  length out = length src /\ take i out = take i dst.
Proof.
  induction fuel as [|fuel IH]; intros i dst out Hl; cbn [relocate_scan]; [by intros [= <-]|].
  destruct (Nat.leb_spec (i + 4) (length src)); [|by intros [= <-]].
  assert (Hskip : relocate_scan fuel src src_pc dst_pc (i + 2) dst = Some out -> length out = length src /\ take i out = take i dst).
  { intros E. destruct (IH _ _ _ Hl E) as [H1 H2]. split; [done|]. apply (f_equal (take i)) in H2. rewrite !take_take in H2.
    by replace (i `min` (i + 2))%nat with i in H2 by lia. }
  destruct (_ =? _); [|done]. destruct (_ || _); [|done].
  destruct (relocate_bl _ _ _ _ _) as [[nh nh2]|]; [|done]. intros E.
  destruct (IH (i + 4)%nat (put_half (i + 2) nh2 (put_half i nh dst)) out) as [H1 H2]; [by rewrite !length_put_half by (rewrite ?length_put_half; lia)|done|].
  split; [done|]. apply (f_equal (take i)) in H2. rewrite !take_take in H2. replace (i `min` (i + 4))%nat with i in H2 by lia.
  rewrite H2, !take_put_half by (rewrite ?length_put_half; lia). done.
Qed.

Definition thumb_head (r : Z) : list Z := le_bytes 2 0xF8DF ++ le_bytes 2 0 ++ le_bytes 4 (r .| 1).
Definition thumb_tramp (fn : Z) (code : list Z) : list Z :=
  code ++ le_bytes 2 0xF8DF ++ le_bytes 2 0 ++ le_bytes 4 (u32 (fn + HEAD + 1)).

Lemma hook_thumb_installed p fn t r origin st code :
  hookable p fn t origin st -> RelocateThumb (bytes (mem st) fn 8) (fn + 4) (p + 4) = Some code ->
  origin = 0 \/ allows (space st) PROT_READ origin 4 ->
  exists st', hook_thumb p fn t r origin st = Ret (DOBBY_OK, st') /\
    installed fn (thumb_head r) (thumb_tramp fn code) p origin (p .| 1)
      {| target := t; replace := r; trampoline := p; head_len := HEAD |} st st'.
Proof.
  intros Hk Hc Hor. unfold hook_thumb. rewrite memcpy_from_ok by apply (fn_read _ _ _ _ _ Hk).
  rewrite (fn_head_mapped _ _ _ _ _ Hk). cbn [mbind outcome_bind]. rewrite Hc.
  assert (Hl : length code = 8%nat).
  { unfold RelocateThumb in Hc. apply relocate_scan_spec in Hc as [-> _]; [apply length_bytes|done]. }
  pose proof (tramp_writable _ _ _ _ _ Hk) as Hw.
  rewrite memcpy_to_ok by (apply Hw; [done|lia|rewrite Hl; lia]). cbn [mbind outcome_bind].
  rewrite store_allowed by (apply allows_set_mem, Hw; unfold HEAD; [done|lia|lia]). cbn [mbind outcome_bind].
  rewrite store_allowed by (do 2 apply allows_set_mem; apply Hw; unfold HEAD; [done|lia|lia]). cbn [mbind outcome_bind].
  rewrite store_allowed by (do 3 apply allows_set_mem; apply Hw; unfold HEAD; [done|lia|lia]). cbn [mbind outcome_bind].
  cbn [vm_mem set_mem]. set (m := patch_mem _ (p + HEAD + 4) _). change (set_mem _ m) with (set_mem (mmap_page p (space st)) m).
  destruct (fn_opened _ _ _ _ _ Hk m) as (v & -> & Hv). cbn [Z.eqb negb].
  pose proof (fun b n H => protected_allows _ _ _ _ _ PROT_WRITE b n Hv H) as Hf.
  rewrite store_allowed by (apply Hf; [done|lia|lia]). cbn [mbind outcome_bind].
  rewrite store_allowed by (apply allows_set_mem, Hf; [done|lia|lia]). cbn [mbind outcome_bind].
  rewrite store_allowed by (do 2 apply allows_set_mem; apply Hf; [done|lia|lia]). cbn [mbind outcome_bind].
  cbn [vm_mem set_mem]. set (m2 := patch_mem _ (fn + 4) _). change (set_mem _ m2) with (set_mem v m2).
  destruct (register_installed _ _ _ r _ _ Hk (thumb_head r) (thumb_tramp fn code) (p .| 1) m v m2) as (st' & -> & Hev & Hi); [done| | |done| |].
  - unfold thumb_tramp. by rewrite !length_app, Hl.
  - unfold m, thumb_tramp. rewrite !patch_split; [done|by rewrite Hl|done|unfold HEAD; cbn; lia].
  - unfold m2, thumb_head. rewrite !patch_split; [done|done|cbn; lia].
  - cbn [mbind outcome_bind].
    assert (E : exists o, (if origin =? 0 then Ret 0 else load 4 (space st') origin) = Ret o).
    { destruct (Z.eqb_spec origin 0); [by eexists|]. eexists. apply load_allowed. intros b Hb. unfold page_has.
      destruct Hor as [|Hor]; [done|]. specialize (Hor b Hb). unfold page_has in Hor.
      destruct (touches_dec fn 8 (pg b) eq_refl) as [Hq|Hq]; [by rewrite (in_code _ _ _ _ _ _ _ _ _ Hi _ Hq)|].
      rewrite (in_rest _ _ _ _ _ _ _ _ _ Hi _ Hq); [done|]. intros Ep. rewrite Ep, (proj2 (hk_page _ _ _ _ _ Hk)) in Hor. done. }
    destruct E as [o ->]. cbn [mbind outcome_bind]. eexists. split; [reflexivity|]. by destruct Hi; split.
Qed.

(** The instruction the Thumb branch writes, [F8DF 0000], at [a]: a load of R0. *)
Lemma ldr_r0_step m a w s : bytes m a 8 = le_bytes 2 0xF8DF ++ le_bytes 2 0 ++ le_bytes 4 w -> 0 <= a -> a + 8 < 2 ^ 32 ->
  Arm32Machine.mem s = m ->
  exists s', run 1 (at_pc a true s) = Some s' /\ pc s' = a + 4 /\ Arm32Machine.thumb s' = true /\ Arm32Machine.mem s' = m /\
    (forall q, q <> 0 -> regs s' q = regs s q) /\ (a mod 4 = 0 -> regs s' 0 = u32 w).
Proof.
  intros Hb Ha Hhi <-. apply bytes_loaded in Hb; [|done|cbn; lia].
  assert (Hh : halves (Arm32Machine.mem s) a [0xF8DF; 0]) by apply (loaded_halves _ _ [0xF8DF; 0] (le_bytes 4 w) Hb).
  cbn [run]. rewrite (step_wide (at_pc a true s) 0xF8DF 0 (T_LDR_lit 0 0) eq_refl Hh eq_refl eq_refl eq_refl).
  cbn [exec]. unfold load_to. cbn [Z.eqb mbind option_bind]. eexists. split; [reflexivity|].
  cbn [pc Arm32Machine.thumb Arm32Machine.mem regs jump goto set at_pc]. rewrite wrap_small by lia.
  split; [done|]. split; [done|]. split; [done|]. split; [intros q Hq; by rewrite (proj2 (Z.eqb_neq _ _))|].
  intros H4. cbn [Z.eqb]. rewrite load32_wrap. unfold pc_value. cbn [pc Arm32Machine.thumb at_pc]. rewrite wrap_small by lia.
  unfold align4. change (a + 4) with (a + 1 * 4). rewrite Z_mod_plus_full, H4, Z.add_0_r, Z.sub_0_r.
  change (1 * 4) with (Z.of_nat 4). rewrite (load32_at _ _ _ 4 4 Hb) by done. cbn [take drop app le_bytes].
  change [_; _; _; _] with (le_bytes 4 w). by rewrite le_val_bytes.
Qed.

(** C22: A hook of a Thumb function never transfers control.  Hook returns [DOBBY_OK], but the instruction it puts at the
    function's entry, and at the end of the trampoline, loads R0 and not PC: from either, control goes on
    to the next halfword, in Thumb state, into the address that follows, with R0 lost. *)
Theorem thumb_hook_falls_through p t r origin st code :
  hookable p (t - 1) t origin st -> t mod 2 = 1 -> r <> 0 -> 0 <= p -> p + 4096 <= 2 ^ 32 ->
  origin = 0 \/ allows (space st) PROT_READ origin 4 ->
  RelocateThumb (bytes (mem st) (t - 1) 8) (t - 1 + 4) (p + 4) = Some code ->
  exists st', Hook (Some p) t r origin st = Ret (DOBBY_OK, st') /\
    forall s, Arm32Machine.mem s = mem st' ->
      (exists s', run 1 (at_pc (t - 1) true s) = Some s' /\ pc s' = t - 1 + 4 /\ Arm32Machine.thumb s' = true /\
         bytes (Arm32Machine.mem s') (pc s') 4 = le_bytes 4 (r .| 1) /\ ((t - 1) mod 4 = 0 -> regs s' 0 = u32 (r .| 1))) /\
      (exists s', run 1 (at_pc (p + 8) true s) = Some s' /\ pc s' = p + 12 /\ Arm32Machine.thumb s' = true /\ regs s' 0 = u32 (u32 (t + 8))).
Proof.
  intros Hk Hodd Hr Hp0 Hp Ho Hc. pose proof (hk_range _ _ _ _ _ Hk) as Ht.
  rewrite (Hook_unfold _ _ _ _ _ _ Hk), Hodd by lia. cbn [Z.eqb].
  destruct (hook_thumb_installed _ _ _ r _ _ _ Hk Hc Ho) as (st' & -> & Hi). exists st'. split; [done|].
  assert (Hl : length code = 8%nat).
  { unfold RelocateThumb in Hc. apply relocate_scan_spec in Hc as [-> _]; [apply length_bytes|done]. }
  intros s Hs. split.
  - destruct (ldr_r0_step (mem st') (t - 1) (r .| 1) s) as (s' & E & Epc & Et & Em & _ & E0); [apply (in_head _ _ _ _ _ _ _ _ _ Hi)|lia|lia|done|].
    exists s'. rewrite Epc. split; [done|]. split; [done|]. split; [done|]. rewrite Em. split; [|done].
    transitivity (drop 4 (bytes (mem st') (t - 1) 8)); [cbn; by rewrite <- !Z.add_assoc|].
    by rewrite (in_head _ _ _ _ _ _ _ _ _ Hi).
  - destruct (ldr_r0_step (mem st') (p + 8) (u32 (t - 1 + HEAD + 1)) s) as (s' & E & Epc & Et & _ & _ & E0); [|lia|lia|done|].
    + transitivity (drop 8 (bytes (mem st') p 16)); [cbn; by rewrite <- !Z.add_assoc|].
      rewrite (in_tramp _ _ _ _ _ _ _ _ _ Hi). unfold thumb_tramp. by rewrite drop_app_length' by done.
    + exists s'. split; [done|]. split; [lia|]. split; [done|]. rewrite E0; [unfold HEAD; do 2 f_equal; lia|].
      pose proof (hk_page _ _ _ _ _ Hk) as [Hpa _]. apply Z.div_exact in Hpa; [|lia]. rewrite Hpa.
      replace (4096 * (p / 4096) + 8) with ((1024 * (p / 4096) + 2) * 4) by lia. apply Z.mod_mul. lia.
Qed.

(** ** The integrity check *)

(** The first value recorded for a function. *)
Fixpoint recorded (t : Z) (l : list (Z * Z)) : option Z :=
  match l with
  | [] => None
  | (a, h) :: l => if a =? t then Some h else recorded t l
  end.

Lemma VerifyIntegrity_recorded t l v :
  VerifyIntegrity t l v = match recorded t l with Some h => now ← load 4 v t; Ret (now =? h) | None => Ret true end.
Proof. induction l as [|[a h] l IH]; cbn [VerifyIntegrity recorded]; [done|]. by destruct (a =? t). Qed.

Lemma recorded_snapshot t h l :
  recorded t (SnapshotIntegrity t h l) =
    match recorded t l with Some h' => Some h' | None => if (length l <? integrity_size)%nat then Some h else None end.
Proof.
  unfold SnapshotIntegrity. destruct (_ <? _)%nat; [|by destruct (recorded t l)].
  induction l as [|[a h'] l IH]; cbn [recorded app]; [by rewrite Z.eqb_refl|]. by destruct (a =? t).
Qed.

(** C36: The integrity check of an ARM function is the wrong way round.  The function can be hooked (its head is readable, it is not
    hooked yet, the table of hooks has room, the kernel gives a page and grants every mprotect, the caller's variable can be
    written) and does not begin with the instruction the hook writes.  Hook records the instruction it found, not the one it
    wrote.  If the table has room and nothing is recorded for the function yet, [VerifyIntegrity] reports right after the hook that
    the function has been tampered with, and once the original instruction is back that the hook is intact.  If the table is
    full nothing is recorded, and [VerifyIntegrity] reports the hook intact whatever is in memory.  If there is a record
    for the function already, from an earlier hook, the check goes on comparing with that one. *)
Theorem integrity_inverted p t r origin st :
  hookable p t t origin st -> t mod 4 = 0 -> r <> 0 -> le_val (bytes (mem st) t 4) <> 0xE51FF004 ->
  exists st', Hook (Some p) t r origin st = Ret (DOBBY_OK, st') /\
    match recorded t (g_integrity st) with
    | Some h => forall v, VerifyIntegrity t (g_integrity st') v = (now ← load 4 v t; Ret (now =? h))
    | None =>
        if (length (g_integrity st) <? integrity_size)%nat then
          VerifyIntegrity t (g_integrity st') (space st') = Ret false /\
          (forall v, allows v PROT_READ t 4 -> bytes (vm_mem v) t 4 = bytes (mem st) t 4 -> VerifyIntegrity t (g_integrity st') v = Ret true)
        else forall v, VerifyIntegrity t (g_integrity st') v = Ret true
    end.
Proof.
  intros Hk H4 Hr0 Hw. pose proof (hk_range _ _ _ _ _ Hk) as Ht.
  rewrite (Hook_unfold _ _ _ _ _ _ Hk), (mod4_even t H4) by (done || lia). cbn [Z.eqb].
  destruct (hook_arm_installed _ _ _ r _ _ Hk) as (st' & -> & _ & Hi). exists st'. split; [done|].
  assert (Hv : forall v, VerifyIntegrity t (g_integrity st') v =
    match recorded t (g_integrity st) with Some h => now ← load 4 v t; Ret (now =? h)
    | None => if (length (g_integrity st) <? integrity_size)%nat then now ← load 4 v t; Ret (now =? le_val (bytes (mem st) t 4)) else Ret true end).
  { intros v. rewrite VerifyIntegrity_recorded, (in_integrity _ _ _ _ _ _ _ _ _ Hi). cbn [target]. rewrite recorded_snapshot.
    destruct (recorded t _); [done|]. by destruct (_ <? _)%nat. }
  destruct (recorded t (g_integrity st)); [exact Hv|]. destruct (_ <? _)%nat; [|exact Hv]. split.
  - assert (Hrd : allows (space st') PROT_READ t 4).
    { intros b Hb. unfold page_has. rewrite (in_code _ _ _ _ _ _ _ _ _ Hi); [done|]. exists b. split; [lia|done]. }
    rewrite Hv, load_allowed by done. cbn [mbind outcome_bind]. f_equal. apply Z.eqb_neq.
    replace (bytes (mem st') t 4) with (le_bytes 4 0xE51FF004); [by apply not_eq_sym|].
    transitivity (take 4 (bytes (mem st') t 8)); [by rewrite (in_head _ _ _ _ _ _ _ _ _ Hi)|done].
  - intros v Hrd Hb. rewrite Hv, load_allowed, Hb by done. cbn [mbind outcome_bind]. by rewrite Z.eqb_refl.
Qed.

(** ** Calls in the head of a Thumb function *)

(** A relocated branch whose J bits are both set: the halfwords of a BLX. *)
Lemma relocate_bl_exchange h1 h2 src_pc dst_pc i n1 n2 :
  h2 .& 0x2800 = 0x2800 -> relocate_bl h1 h2 src_pc dst_pc i = Some (n1, n2) ->
  exists S k J1 J2 j, is_bit S /\ 0 <= k < 1024 /\ is_bit J1 /\ is_bit J2 /\ 0 <= j < 2048 /\
    n1 = 0xF000 + 1024 * S + k /\ n2 = (if true then 0xC000 else 0xD000) + 8192 * J1 + 2048 * J2 + j.
Proof.
  intros Hk. unfold relocate_bl. rewrite Hk. cbn [Z.eqb Pos.eqb]. set (off := Z.land (i32 _) _).
  destruct (_ || _); [done|].
  assert (Hf : forall n k, 0 <= n -> 0 <= k -> 0 <= (off >> n) .& Z.ones k < 2 ^ k).
  { intros n k Hn Hk'. rewrite Z.land_ones by done. apply Z.mod_pos_bound. lia. }
  pose proof (Hf 12 10 ltac:(done) ltac:(done)) as Hi. pose proof (Hf 1 11 ltac:(done) ltac:(done)) as Hj.
  change (Z.ones 10) with 0x3FF in Hi. change (Z.ones 11) with 0x7FF in Hj. change (2 ^ 10) with 1024 in Hi. change (2 ^ 11) with 2048 in Hj.
  pose proof (get_bit off 24 ltac:(done)) as H1. pose proof (get_bit off 23 ltac:(done)) as H2. pose proof (get_bit off 22 ltac:(done)) as H3.
  rewrite (first_half _ _ H1 Hi), (second_half true _ _ _ H2 H3 Hj). intros [= <- <-].
  do 5 eexists. split; [exact H1|]. split; [exact Hi|]. split; [exact H2|]. split; [exact H3|]. split; [exact Hj|]. done.
Qed.

(** A function that begins with a call that does not leave its 4 MiB: BL with both J bits set. *)
Definition near_bl (h1 h2 : Z) : Prop :=
  exists S i j, is_bit S /\ 0 <= i < 1024 /\ 0 <= j < 2048 /\ h1 = 0xF000 + 1024 * S + i /\ h2 = 0xD000 + 8192 * 1 + 2048 * 1 + j.

Lemma near_bl_masks h1 h2 : near_bl h1 h2 -> h1 .& 0xF800 = 0xF000 /\ h2 .& 0x2800 = 0x2800 /\ u16 h1 = h1 /\ u16 h2 = h2 /\
  exists off, decode_thumb h1 h2 = Some (T_BL false off, 4).
Proof.
  intros (S & i & j & HS & Hi & Hj & E1 & E2).
  assert (F1 : fld h1 11 5 = 30) by (unfold fld; subst h1; destruct HS as [->| ->]; Z.div_mod_to_equations; lia).
  assert (F2 : fld h2 11 1 = 1 /\ fld h2 13 1 = 1) by (unfold fld; subst h2; split; Z.div_mod_to_equations; lia).
  split; [change 0xF800 with (Z.shiftl (Z.ones 5) 11); rewrite BitFields.land_fld by done; by rewrite F1|].
  split.
  { change 0x2800 with ((Z.shiftl (Z.ones 1) 11) .| (Z.shiftl (Z.ones 1) 13)) at 1. rewrite Z.land_lor_distr_r, !BitFields.land_fld by done.
    destruct F2 as [-> ->]. done. }
  split; [apply wrap_small; subst h1; destruct HS as [->| ->]; lia|]. split; [apply wrap_small; subst h2; lia|].
  destruct (decode_call false S i 1 1 j HS Hi ltac:(by right) ltac:(by right) Hj) as [W D]. cbn zeta in W, D. rewrite <- E1 in W, D.
  cbn iota in D. rewrite <- E2 in D. unfold decode_thumb. rewrite W, D. cbn. eauto.
Qed.

Lemma relocated_first src src_pc dst_pc out :
  length src = 8%nat -> half_at src 0 .& 0xF800 = 0xF000 -> half_at src 2 .& 0x2800 = 0x2800 ->
  RelocateThumb src src_pc dst_pc = Some out ->
  exists n1 n2, relocate_bl (half_at src 0) (half_at src 2) src_pc dst_pc 0 = Some (n1, n2) /\ take 4 out = le_bytes 2 n1 ++ le_bytes 2 n2.
Proof.
  intros Hl H1 H2. unfold RelocateThumb. rewrite Hl. generalize 7%nat. intros n. cbn [relocate_scan Nat.add Z.of_nat]. rewrite Hl, H1, H2. cbn [Nat.leb Z.eqb Pos.eqb orb].
  destruct (relocate_bl _ _ _ _ _) as [[n1 n2]|]; [|done]. intros E. exists n1, n2. split; [done|].
  apply relocate_scan_spec in E as [_ E]; [|by rewrite !length_put_half by (rewrite ?length_put_half; lia)]. rewrite E.
  unfold put_half. do 8 (destruct src as [|? src]; [done|]). done.
Qed.

(** A word of memory that holds the two halfwords of an exchanging call: the next step leaves Thumb state or faults. *)
Lemma exchange_step m a n1 n2 s S k J1 J2 j :
  loaded32 m a (le_bytes 2 n1 ++ le_bytes 2 n2) -> Arm32Machine.mem s = m ->
  is_bit S -> 0 <= k < 1024 -> is_bit J1 -> is_bit J2 -> 0 <= j < 2048 ->
  n1 = 0xF000 + 1024 * S + k -> n2 = (if true then 0xC000 else 0xD000) + 8192 * J1 + 2048 * J2 + j ->
  forall s', step (at_pc a true s) = Some s' -> Arm32Machine.thumb s' = false.
Proof.
  intros Hl Hm HS Hk H1 H2 Hj -> -> s' E. destruct (decode_call true S k J1 J2 j HS Hk H1 H2 Hj) as [W D]. cbn zeta in W, D.
  rewrite <- Hm in Hl.
  set (n1 := 0xF000 + _ + _) in *. set (n2 := _ + j) in *.
  assert (R : u16 n1 = n1 /\ u16 n2 = n2) by (split; apply wrap_small; [unfold n1; destruct HS as [->| ->]|unfold n2; destruct H1 as [->| ->], H2 as [->| ->]]; lia).
  pose proof (loaded_halves _ _ [n1; n2] [] Hl) as Hh.
  assert (L1 : load32 2 (Arm32Machine.mem s) a = n1) by (rewrite <- (proj1 R), <- (Hh 0%nat n1 eq_refl); f_equal; lia).
  assert (L2 : load32 2 (Arm32Machine.mem s) (a + 2) = n2) by (rewrite <- (proj2 R); apply (Hh 1%nat n2 eq_refl)).
  unfold step, fetch in E. cbn [Arm32Machine.thumb Arm32Machine.mem pc at_pc] in E. rewrite L1, L2 in E. unfold decode_thumb in E. rewrite W, D in E.
  destruct (true && _); [done|]. cbn in E. by injection E as <-.
Qed.

(** C35: A Thumb function that begins with a call to code within 4 MiB is not what it was after Hook and Unhook.
    Both return [DOBBY_OK]; but the relocator takes the call's J bits for the mark of BLX and Unhook copies the
    relocated instructions back: where the call stayed in Thumb state, the function's first instruction now
    enters its callee in ARM state, or is undefined. *)
Theorem thumb_unhook_corrupts p t r origin st code h1 h2 :
  hookable p (t - 1) t origin st -> t mod 2 = 1 -> r <> 0 -> vm_answers (space st) = [] ->
  origin = 0 \/ allows (space st) PROT_READ origin 4 ->
  RelocateThumb (bytes (mem st) (t - 1) 8) (t - 1 + 4) (p + 4) = Some code ->
  half_at (bytes (mem st) (t - 1) 8) 0 = h1 -> half_at (bytes (mem st) (t - 1) 8) 2 = h2 -> near_bl h1 h2 ->
  (exists off, decode_thumb h1 h2 = Some (T_BL false off, 4)) /\
  exists st' st'', Hook (Some p) t r origin st = Ret (DOBBY_OK, st') /\ Unhook t st' = Ret (DOBBY_OK, st'') /\
    forall s, Arm32Machine.mem s = mem st'' -> forall s', step (at_pc (t - 1) true s) = Some s' -> Arm32Machine.thumb s' = false.
Proof.
  intros Hk Hodd Hr Ha Ho Hc E1 E2 Hn. pose proof (hk_range _ _ _ _ _ Hk) as Ht.
  destruct (near_bl_masks _ _ Hn) as (M1 & M2 & _ & _ & Hd). split; [done|].
  rewrite (Hook_unfold _ _ _ _ _ _ Hk), Hodd by lia. cbn [Z.eqb].
  destruct (hook_thumb_installed _ _ _ r _ _ _ Hk Hc Ho) as (st' & -> & Hi). exists st'.
  assert (Hl : length code = 8%nat).
  { unfold RelocateThumb in Hc. apply relocate_scan_spec in Hc as [-> _]; [apply length_bytes|done]. }
  destruct (relocated_first _ _ _ _ (length_bytes _ _ _) ltac:(by rewrite E1) ltac:(by rewrite E2) Hc) as (n1 & n2 & Hb & Ht4). rewrite E1, E2 in Hb.
  destruct (relocate_bl_exchange _ _ _ _ _ _ _ M2 Hb) as (S & k & J1 & J2 & j & HS & Hk' & H1 & H2 & Hj & En1 & En2).
  assert (Ha' : vm_answers (space st') = []) by (rewrite (in_answers _ _ _ _ _ _ _ _ _ Hi), Ha; done).
  assert (Hfn : t - 1 = t .& Z.lnot 1) by (rewrite clear_low; lia).
  destruct (unhook_installed _ _ _ _ _ _ _ (thumb_tramp (t - 1) code) _ _ Hk Hfn ltac:(unfold thumb_tramp; by rewrite !length_app, Hl) Ha' Hi)
    as (st'' & -> & _ & Hm & _). exists st''. split; [done|]. split; [done|]. intros s Hs.
  assert (H8 : take 8 (thumb_tramp (t - 1) code) = code) by (unfold thumb_tramp; by rewrite take_app_length' by done). rewrite H8 in Hm.
  apply (exchange_step (mem st'') (t - 1) n1 n2 s S k J1 J2 j); try done. apply (bytes_loaded _ _ 4); [|lia|cbn; lia].
  rewrite (bytes_Proper _ _ _ 4 Hm). transitivity (take 4 (bytes (patch_mem (mem st') (t - 1) code) (t - 1) 8)); [done|].
  rewrite <- Hl, bytes_patch. done.
Qed.

(** Unhook reports success when it has failed.  If the kernel refuses to make the function writable again, Unhook
    returns [DOBBY_OK] and forgets the hook; the function still jumps to the replacement, and the trampoline, which
    [origin] points to and the replacement calls, is unmapped. *)
Theorem unhook_refused p t r origin st rest :
  hookable p t t origin st -> t mod 4 = 0 -> r <> 0 -> vm_answers (space st) = true :: false :: rest ->
  exists st' st'', Hook (Some p) t r origin st = Ret (DOBBY_OK, st') /\ Unhook t st' = Ret (DOBBY_OK, st'') /\
    IsHooked t st'' = false /\ bytes (mem st'') t 8 = le_bytes 4 0xE51FF004 ++ le_bytes 4 r /\ vm_prot (space st'') !! p = None.
Proof.
  intros Hk H4 Hr0 Ha. pose proof (hk_range _ _ _ _ _ Hk) as Ht. pose proof (mod4_even t H4) as H2.
  rewrite (Hook_unfold _ _ _ _ _ _ Hk), H2 by (done || lia). cbn [Z.eqb].
  destruct (hook_arm_installed _ _ _ r _ _ Hk) as (st' & -> & _ & Hi). exists st'.
  unfold Unhook. rewrite (in_slots _ _ _ _ _ _ _ _ _ Hi). rewrite FindSlot_app by (try done; apply Hk). rewrite list_lookup_middle by done.
  rewrite (Write_from_refused _ _ _ _ rest) by (rewrite (in_answers _ _ _ _ _ _ _ _ _ Hi), Ha; done). cbn [mbind outcome_bind].
  eexists. split; [done|]. split; [reflexivity|]. cbn [emit g_slots space munmap_page vm_mem vm_prot]. split; [|split].
  - apply bool_decide_eq_false_2. cbn [emit g_slots]. rewrite swap_remove_last. rewrite (hk_free _ _ _ _ _ Hk). by intros [? ?].
  - apply (in_head _ _ _ _ _ _ _ _ _ Hi).
  - apply lookup_delete_eq.
Qed.

(** ** The theorems at a concrete process *)

Lemma sample_allows code answers q p : vm_prot (sample_space code answers) !! p = Some q -> p mod 4096 = 0 ->
  forall prot a n, p <= a -> a + n <= p + 4096 -> negb (Z.land q prot =? 0) = true -> allows (sample_space code answers) prot a n.
Proof. intros H Hp prot a n Ha Hn Hq b Hb. unfold page_has. by rewrite (pg_unique p b), H by (done || lia). Qed.

Lemma sample_engine_hookable code answers t : head answers <> Some false -> hookable 0x30000 0x10000 t 0x20000 (sample_engine code answers).
Proof.
  intros Hg. split; try done; [cbn; unfold max_slots; lia| |].
  - by apply (sample_allows code answers RX 0x10000).
  - right. split; [by apply (sample_allows code answers RW 0x20000)|lia].
Qed.

Definition sample_arm : engine := sample_engine sample_code [].

Lemma arm_hook_redirects_witness : exists st', Hook (Some 0x30000) 0x10000 0x50001 0x20000 sample_arm = Ret (DOBBY_OK, st') /\
  forall s, Arm32Machine.mem s = mem st' -> exists s', run 1 (at_pc 0x10000 false s) = Some s' /\ pc s' = 0x50000 /\ Arm32Machine.thumb s' = true.
Proof.
  destruct (arm_hook_redirects 0x30000 0x10000 0x50001 0x20000 sample_arm) as (st' & E & _ & _ & _ & _ & H);
    [by apply sample_engine_hookable|reflexivity|split; [lia|left; reflexivity]|lia|lia|lia|].
  exists st'. split; [exact E|]. intros s Hs. destruct (H s Hs) as [(s' & Er & Har) _]. exists s'. split; [exact Er|].
  split; [exact (ar_pc _ _ _ Har)|exact (ar_thumb _ _ _ Har)].
Defined.

Lemma arm_hook_unhook_witness : exists st' st'', Hook (Some 0x30000) 0x10000 0x50000 0x20000 sample_arm = Ret (DOBBY_OK, st') /\
  Unhook 0x10000 st' = Ret (DOBBY_OK, st'') /\ mem st'' 0x10002 = 0x2d.
Proof.
  destruct (arm_hook_unhook 0x30000 0x10000 0x50000 0x20000 sample_arm) as (st' & st'' & E1 & E2 & _ & _ & _ & _ & H);
    [by apply sample_engine_hookable|reflexivity|lia|reflexivity|].
  exists st', st''. split; [exact E1|]. split; [exact E2|]. rewrite H; [reflexivity|lia|right; lia].
Defined.

Lemma integrity_inverted_witness : exists st', Hook (Some 0x30000) 0x10000 0x50000 0x20000 sample_arm = Ret (DOBBY_OK, st') /\
  VerifyIntegrity 0x10000 (g_integrity st') (space st') = Ret false /\
  VerifyIntegrity 0x10000 (g_integrity st') (space sample_arm) = Ret true.
Proof.
  destruct (integrity_inverted 0x30000 0x10000 0x50000 0x20000 sample_arm) as (st' & E & H1 & H2);
    [by apply sample_engine_hookable|reflexivity|lia|vm_compute; discriminate|].
  exists st'. split; [exact E|]. split; [exact H1|]. apply H2; [|reflexivity]. by apply (sample_allows _ _ RX 0x10000).
Defined.

Lemma unhook_refused_witness : exists st' st'',
  Hook (Some 0x30000) 0x10000 0x50000 0x20000 (sample_engine sample_code [true; false]) = Ret (DOBBY_OK, st') /\
  Unhook 0x10000 st' = Ret (DOBBY_OK, st'') /\ vm_prot (space st'') !! 0x30000 = None.
Proof.
  destruct (unhook_refused 0x30000 0x10000 0x50000 0x20000 (sample_engine sample_code [true; false]) []) as (st' & st'' & E1 & E2 & _ & _ & H);
    [by apply sample_engine_hookable|reflexivity|lia|reflexivity|]. exists st', st''. done.
Defined.

(** [push {r4, lr}; mov r4, r0; ...] and [bl .+8; ...] in Thumb code. *)
Definition sample_thumb : engine := sample_engine [0x10; 0xb5; 0x04; 0x46; 0x0d; 0x46; 0x16; 0x46] [].
Definition sample_bl : engine := sample_engine [0x00; 0xf0; 0x02; 0xf8; 0x0d; 0x46; 0x16; 0x46] [].

Lemma thumb_hook_falls_through_witness : exists st', Hook (Some 0x30000) 0x10001 0x50001 0x20000 sample_thumb = Ret (DOBBY_OK, st') /\
  forall s, Arm32Machine.mem s = mem st' -> exists s', run 1 (at_pc 0x10000 true s) = Some s' /\ pc s' = 0x10004 /\ regs s' 0 = 0x50001.
Proof.
  destruct (thumb_hook_falls_through 0x30000 0x10001 0x50001 0x20000 sample_thumb [0x10; 0xb5; 0x04; 0x46; 0x0d; 0x46; 0x16; 0x46]) as (st' & E & H);
    [by apply sample_engine_hookable|reflexivity|lia|lia|lia|right; by apply (sample_allows _ _ RW 0x20000)|vm_compute; reflexivity|].
  exists st'. split; [exact E|]. intros s Hs. destruct (H s Hs) as [(s' & Er & Hpc & _ & _ & Hr) _]. exists s'.
  split; [exact Er|]. split; [exact Hpc|]. exact (Hr eq_refl).
Defined.

Lemma thumb_unhook_corrupts_witness : exists st' st'', Hook (Some 0x30000) 0x10001 0x50001 0x20000 sample_bl = Ret (DOBBY_OK, st') /\
  Unhook 0x10001 st' = Ret (DOBBY_OK, st'') /\
  forall s, Arm32Machine.mem s = mem st'' -> forall s', step (at_pc 0x10000 true s) = Some s' -> Arm32Machine.thumb s' = false.
Proof.
  destruct (thumb_unhook_corrupts 0x30000 0x10001 0x50001 0x20000 sample_bl [0xe0; 0xf7; 0x02; 0xe8; 0x0d; 0x46; 0x16; 0x46] 0xf000 0xf802) as (_ & st' & st'' & H);
    [by apply sample_engine_hookable|reflexivity|lia|reflexivity|right; by apply (sample_allows _ _ RW 0x20000)|vm_compute; reflexivity|reflexivity|reflexivity| |].
  { exists 0, 0, 2. unfold is_bit. lia. }
  exists st', st''. exact H.
Defined.
