(* ===== verification/V2CallSite.v ===== *)
(** * The second engine: hooks of single calls (src/callsite.cpp)

    A call-site hook rewrites one Thumb BL or BLX so that it calls another function.  The
    state is the address space and the table of rewritten sites.  The theorems run the
    rewritten instruction on Arm32Machine. *)

From stdpp Require Import gmap.
From S2P Require Import Arm64Machine BitFields Arm32Emission Arm32Machine Arm32Simulation.
From S2P Require Import Prelude UtilityMacro CodePatch V2Util V2Memory V2Hooker V2Branch V2HookTable V2HookerSpec.
#[local] Open Scope Z_scope.
#[local] Open Scope machine_scope.

Record CsRec := {
  site : Z;
  orig_callee : Z;
  stub : Z;
}.

Record sites := {
  cs_space : vm;
  g_sites : list CsRec;
}.
Definition max_sites : nat := 32.

(** [rewrite_thumb_bl]; [cs_hook], [cs_unhook] and [OrigCallee] are [CallSite::Hook], [Unhook] and [OrigCallee]. *)
Definition rewrite_thumb_bl (a new_callee : Z) (v : vm) : outcome (bool * vm) :=
  let base := if a mod 2 =? 1 then a - 1 else a in
  hw ← load 2 v base;
  hw2 ← load 2 v (base + 2);
  if negb (hw .& 0xF800 =? 0xF000) then Ret (false, v)
  else
    let kind := hw2 .& 0x2800 in
    if negb (kind =? 0) && negb (kind =? 0x2800) then Ret (false, v)
    else
      let is_blx := kind =? 0x2800 in
      let off := i32 (new_callee - (base + 4)) in
      let off := if is_blx then off .& Z.lnot 3 else off in
      if (0x7FFFFF <? off) || (off <? - 0x800000) then Ret (false, v)
      else
        let S := (off >> 24) .& 1 in
        let I1 := (off >> 23) .& 1 in
        let I2 := (off >> 22) .& 1 in
        let imm10 := (off >> 12) .& 0x3FF in
        let imm11 := (off >> 1) .& 0x7FF in
        let J1 := 1 - (I1 .^ S) in
        let J2 := 1 - (I2 .^ S) in
        v ← store 2 v base (0xF000 .| (S << 10) .| imm10);
        v ← store 2 v (base + 2) ((if is_blx then 0xC000 else 0xD000) .| (J1 << 13) .| (J2 << 11) .| imm11);
        Ret (true, v).

Definition cs_hook (a orig_callee_out new_callee : Z) (st : sites) : outcome (Z * sites) :=
  if (a =? 0) || (new_callee =? 0) then Ret (DOBBY_ERR_INVALID, st)
  else if negb (a mod 2 =? 1) then Ret (DOBBY_ERR_UNSUPPORTED, st)
  else
    let base := a - 1 in
    let v := cs_space st in
    hw ← load 2 v base;
    hw2 ← load 2 v (base + 2);
    if negb (hw .& 0xF800 =? 0xF000) then Ret (DOBBY_ERR_UNSUPPORTED, st)
    else
      let is_blx := hw2 .& 0x2800 =? 0x2800 in
      let callee := u32 (base + 4 + bl_offset hw hw2) in
      let callee := if is_blx then callee .& Z.lnot 3 else callee in
      v ← (if orig_callee_out =? 0 then Ret v else store 4 v orig_callee_out callee);
      if (max_sites <=? length (g_sites st))%nat then Ret (DOBBY_ERR_FAILED, {| cs_space := v; g_sites := g_sites st |})
      else
        let '(rc, v) := Protect a 4 RWX v in
        if negb (rc =? 0) then Ret (DOBBY_ERR_FAILED, {| cs_space := v; g_sites := g_sites st |})
        else
          '(ok, v) ← rewrite_thumb_bl a new_callee v;
          if negb ok then Ret (DOBBY_ERR_FAILED, {| cs_space := v; g_sites := g_sites st |})
          else Ret (DOBBY_OK, {| cs_space := v; g_sites := g_sites st ++ [{| site := a; orig_callee := callee; stub := 0 |}] |}).

(** The first record of a site, with its index. *)
Fixpoint find_site (a : Z) (l : list CsRec) : option (nat * CsRec) :=
  match l with
  | [] => None
  | r :: l => if site r =? a then Some (O, r) else match find_site a l with Some (i, r) => Some (S i, r) | None => None end
  end.

Definition cs_unhook (a : Z) (st : sites) : outcome (Z * sites) :=
  match find_site a (g_sites st) with
  | None => Ret (DOBBY_ERR_NOT_FOUND, st)
  | Some (i, r) =>
      '(_, v) ← rewrite_thumb_bl a (orig_callee r) (cs_space st);
      Ret (DOBBY_OK, {| cs_space := v; g_sites := swap_remove i (g_sites st) |})
  end.

Definition OrigCallee (a : Z) (st : sites) : Z :=
  match find_site a (g_sites st) with Some (_, r) => orig_callee r | None => 0 end.

(** ** Offsets *)

Lemma get_bit_fld x n : 0 <= n -> (x >> n) .& 1 = fld x n 1.
Proof. intros Hn. change 1 with (Z.ones 1) at 1. by apply get_field. Qed.

Lemma bit_xor b s : is_bit b -> is_bit s -> 1 - (b .^ s) = inv_xor b s.
Proof. intros [->| ->] [->| ->]; done. Qed.

Lemma inv_xor_bit b s : is_bit (inv_xor b s).
Proof. unfold inv_xor. destruct (_ =? _); [by right|by left]. Qed.

(** The 25 bits of an offset. *)
Definition pack (S I1 I2 i j : Z) : Z := 2 ^ 24 * S + 2 ^ 23 * I1 + 2 ^ 22 * I2 + 2 ^ 12 * i + 2 * j.

Lemma pack_lor S I1 I2 i j : is_bit S -> is_bit I1 -> is_bit I2 -> 0 <= i < 1024 -> 0 <= j < 2048 ->
  (S << 24) .| (I1 << 23) .| (I2 << 22) .| (i << 12) .| (j << 1) = pack S I1 I2 i j.
Proof.
  intros HS H1 H2 Hi Hj.
  assert (E : (S << 24) .| (I1 << 23) .| (I2 << 22) = (4 * S + 2 * I1 + I2) * 2 ^ 22) by (destruct HS as [->| ->], H1 as [->| ->], H2 as [->| ->]; done).
  rewrite E. rewrite !Z.shiftl_mul_pow2 by done. rewrite lor_low by (done || lia).
  replace ((4 * S + 2 * I1 + I2) * 2 ^ 22 + i * 2 ^ 12) with (((4 * S + 2 * I1 + I2) * 2 ^ 10 + i) * 2 ^ 12) by lia.
  rewrite lor_low by (done || lia). unfold pack. lia.
Qed.

(** The halfwords of a BL or BLX with the given fields. *)
Definition call1 (S i : Z) : Z := 0xF000 + 1024 * S + i.
Definition call2 (x : bool) (J1 J2 j : Z) : Z := (if x then 0xC000 else 0xD000) + 8192 * J1 + 2048 * J2 + j.

Lemma call1_fields S i : is_bit S -> 0 <= i < 1024 -> fld (call1 S i) 11 5 = 30 /\ fld (call1 S i) 10 1 = S /\ fld (call1 S i) 0 10 = i.
Proof. intros HS Hi. unfold call1, fld. destruct HS as [->| ->]; Z.div_mod_to_equations; lia. Qed.

Lemma call2_fields (x : bool) J1 J2 j : is_bit J1 -> is_bit J2 -> 0 <= j < 2048 ->
  fld (call2 x J1 J2 j) 13 1 = J1 /\ fld (call2 x J1 J2 j) 11 1 = J2 /\ fld (call2 x J1 J2 j) 0 11 = j.
Proof. intros H1 H2 Hj. unfold call2, fld. destruct x, H1 as [->| ->], H2 as [->| ->]; Z.div_mod_to_equations; lia. Qed.

Lemma call1_mask S i : is_bit S -> 0 <= i < 1024 -> call1 S i .& 0xF800 = 0xF000.
Proof. intros HS Hi. change 0xF800 with (Z.shiftl (Z.ones 5) 11). rewrite land_fld by done. by rewrite (proj1 (call1_fields S i HS Hi)). Qed.

Lemma call2_mask (x : bool) J1 J2 j : is_bit J1 -> is_bit J2 -> 0 <= j < 2048 -> call2 x J1 J2 j .& 0x2800 = 8192 * J1 + 2048 * J2.
Proof.
  intros H1 H2 Hj. change 0x2800 with ((Z.shiftl (Z.ones 1) 11) .| (Z.shiftl (Z.ones 1) 13)). rewrite Z.land_lor_distr_r, !land_fld by done.
  destruct (call2_fields x J1 J2 j H1 H2 Hj) as (F1 & F2 & _). rewrite F1, F2. by destruct H1 as [->| ->], H2 as [->| ->].
Qed.

Lemma call_range (x : bool) S i J1 J2 j : is_bit S -> 0 <= i < 1024 -> is_bit J1 -> is_bit J2 -> 0 <= j < 2048 ->
  0 <= call1 S i < 2 ^ 16 /\ 0 <= call2 x J1 J2 j < 2 ^ 16.
Proof. intros HS Hi H1 H2 Hj. unfold call1, call2. destruct x, HS as [->| ->], H1 as [->| ->], H2 as [->| ->]; lia. Qed.

(** The engine's reading of the offset: the sign is taken from bit 23 of a 25-bit number. *)
Lemma bl_offset_call (x : bool) S i J1 J2 j : is_bit S -> 0 <= i < 1024 -> is_bit J1 -> is_bit J2 -> 0 <= j < 2048 ->
  let I1 := inv_xor J1 S in let I2 := inv_xor J2 S in
  bl_offset (call1 S i) (call2 x J1 J2 j) = pack S I1 I2 i j - 2 ^ 24 * I1.
Proof.
  intros HS Hi H1 H2 Hj I1 I2. unfold bl_offset. change 0x3FF with (Z.ones 10). change 0x7FF with (Z.ones 11).
  rewrite !get_bit_fld, !get_low by done. destruct (call1_fields S i HS Hi) as (_ & F1 & F2), (call2_fields x J1 J2 j H1 H2 Hj) as (F3 & F4 & F5). rewrite F1, F2, F3, F4, F5.
  rewrite !bit_xor by done. fold I1 I2. rewrite pack_lor by (done || apply inv_xor_bit).
  change 0x800000 with (Z.shiftl (Z.ones 1) 23). rewrite land_fld by done.
  assert (F : fld (pack S I1 I2 i j) 23 1 = I1).
  { unfold pack, fld. destruct (inv_xor_bit J1 S) as [E|E], (inv_xor_bit J2 S) as [E'|E'], HS as [->| ->]; unfold I1, I2; rewrite E, E'; Z.div_mod_to_equations; lia. }
  rewrite F. destruct (inv_xor_bit J1 S) as [E|E]; fold I1 in E; rewrite E; [by rewrite Z.mul_0_r, Z.sub_0_r|reflexivity].
Qed.

Lemma fld_cat x lo n k : 0 <= lo -> 0 <= n -> 0 <= k -> fld x lo n + 2 ^ n * fld x (lo + n) k = fld x lo (n + k).
Proof.
  intros Hl Hn Hk. unfold fld. rewrite (Z.pow_add_r 2 n k), Z.rem_mul_r by (try apply Z.pow_nonzero; lia).
  by rewrite Z.div_div, <- Z.pow_add_r by (try apply Z.pow_nonzero; lia).
Qed.

(** The fields of an even offset in range give it back. *)
Lemma pack_fields off : - 2 ^ 24 <= off < 2 ^ 24 -> off mod 2 = 0 ->
  signed 25 (2 * fld off 1 11 + 2 ^ 12 * fld off 12 10 + 2 ^ 22 * fld off 22 1 + 2 ^ 23 * fld off 23 1 + 2 ^ 24 * fld off 24 1) = off.
Proof.
  intros Hr He. pose proof (fld_cat off 1 11 10 ltac:(done) ltac:(done) ltac:(done)) as E1. pose proof (fld_cat off 1 21 1 ltac:(done) ltac:(done) ltac:(done)) as E2.
  pose proof (fld_cat off 1 22 1 ltac:(done) ltac:(done) ltac:(done)) as E3. pose proof (fld_cat off 1 23 1 ltac:(done) ltac:(done) ltac:(done)) as E4.
  pose proof (fld_cat off 0 1 24 ltac:(done) ltac:(done) ltac:(done)) as E5.
  change (1 + 11) with 12 in E1. change (11 + 10) with 21 in E1. change (1 + 21) with 22 in E2. change (21 + 1) with 22 in E2.
  change (1 + 22) with 23 in E3. change (22 + 1) with 23 in E3. change (1 + 23) with 24 in E4. change (23 + 1) with 24 in E4.
  change (0 + 1) with 1 in E5. change (1 + 24) with 25 in E5.
  assert (E0 : fld off 0 1 = 0) by (unfold fld; change (2 ^ 0) with 1; by rewrite Z.div_1_r).
  replace (2 * fld off 1 11 + _ + _ + _ + _) with (fld off 0 25) by lia. unfold fld. change (2 ^ 0) with 1. rewrite Z.div_1_r.
  exact (sext_small 25 off eq_refl Hr).
Qed.

(** ** The rewritten instruction *)

Definition new_half1 (off : Z) : Z := call1 (fld off 24 1) (fld off 12 10).
Definition new_half2 (x : bool) (off : Z) : Z :=
  call2 x (inv_xor (fld off 23 1) (fld off 24 1)) (inv_xor (fld off 22 1) (fld off 24 1)) (fld off 1 11).

Lemma fld_is_bit y n : is_bit (fld y n 1).
Proof. apply fld_bit_cases. Qed.

Lemma inv_xor_twice b s : is_bit b -> is_bit s -> inv_xor (inv_xor b s) s = b.
Proof. intros [->| ->] [->| ->]; done. Qed.

Lemma new_decodes (x : bool) off : - 2 ^ 24 <= off < 2 ^ 24 -> off mod (if x then 4 else 2) = 0 ->
  decode_thumb (new_half1 off) (new_half2 x off) = Some (T_BL x off, 4).
Proof.
  intros Hr He. assert (H2 : off mod 2 = 0) by (destruct x; [by apply mod4_even|done]).
  destruct (decode_call x (fld off 24 1) (fld off 12 10) (inv_xor (fld off 23 1) (fld off 24 1)) (inv_xor (fld off 22 1) (fld off 24 1)) (fld off 1 11)) as [W D];
    try apply fld_is_bit; try apply inv_xor_bit; try (apply (fld_range off); done).
  fold (call1 (fld off 24 1) (fld off 12 10)) (call2 x (inv_xor (fld off 23 1) (fld off 24 1)) (inv_xor (fld off 22 1) (fld off 24 1)) (fld off 1 11)) in W, D.
  unfold decode_thumb, new_half1, new_half2. rewrite W, D, !inv_xor_twice, pack_fields by (done || apply fld_is_bit).
  replace (x && (fld off 1 11 mod 2 =? 1)) with false; [done|]. destruct x; [|done]. symmetry. apply Z.eqb_neq.
  unfold fld. change (2 ^ 1) with 2. change (2 ^ 11) with (2 * 1024). rewrite Z.rem_mul_r by lia. revert He. Z.div_mod_to_equations. lia.
Qed.

(** The distance the engine encodes. *)
Definition site_off (x : bool) (base nc : Z) : Z :=
  let off := i32 (nc - (base + 4)) in if x then off .& Z.lnot 3 else off.

Lemma load_half m a h rest n : bytes m a n = le_bytes 2 h ++ rest -> (2 <= n)%nat -> 0 <= h < 2 ^ 16 -> le_val (bytes m a 2) = h.
Proof.
  intros E Hn Hh. replace (bytes m a 2) with (take 2 (bytes m a n)); [rewrite E; change (take 2 (le_bytes 2 h ++ rest)) with (le_bytes 2 h); rewrite le_val_bytes; apply Z.mod_small; lia|].
  unfold bytes. do 2 (destruct n as [|n]; [lia|]). done.
Qed.

Lemma rewrite_ok (x : bool) a nc v h1 h2 :
  a mod 2 = 1 -> allows v PROT_READ (a - 1) 4 -> allows v PROT_WRITE (a - 1) 4 ->
  bytes (vm_mem v) (a - 1) 4 = le_bytes 2 h1 ++ le_bytes 2 h2 -> 0 <= h1 < 2 ^ 16 -> 0 <= h2 < 2 ^ 16 ->
  h1 .& 0xF800 = 0xF000 -> h2 .& 0x2800 = (if x then 0x2800 else 0) -> - 2 ^ 23 <= site_off x (a - 1) nc < 2 ^ 23 ->
  exists m, rewrite_thumb_bl a nc v = Ret (true, set_mem v m) /\
    forall b, m b = patch_mem (vm_mem v) (a - 1) (le_bytes 2 (new_half1 (site_off x (a - 1) nc)) ++ le_bytes 2 (new_half2 x (site_off x (a - 1) nc))) b.
Proof.
  intros Ha Hr Hw Hb R1 R2 M1 M2 Ho. unfold rewrite_thumb_bl. rewrite Ha. cbn [Z.eqb Pos.eqb].
  assert (Hb2 : bytes (vm_mem v) (a - 1 + 2) 2 = le_bytes 2 h2).
  { transitivity (drop 2 (bytes (vm_mem v) (a - 1) 4)); [cbn; by rewrite <- !Z.add_assoc|]. by rewrite Hb. }
  rewrite (load_allowed 2 v (a - 1)) by (apply (allows_sub _ _ _ _ _ _ Hr); lia). rewrite (load_half _ _ h1 _ 4 Hb ltac:(lia) R1). cbn [mbind outcome_bind].
  rewrite (load_allowed 2 v (a - 1 + 2)) by (apply (allows_sub _ _ _ _ _ _ Hr); lia). rewrite (load_half _ _ h2 [] 2 Hb2 ltac:(lia) R2). cbn [mbind outcome_bind].
  rewrite M1, M2. fold (site_off x (a - 1) nc). set (off := site_off x (a - 1) nc) in *.
  assert (Ek : negb ((if x then 0x2800 else 0) =? 0) && negb ((if x then 0x2800 else 0) =? 0x2800) = false) by (by destruct x).
  assert (Ex : ((if x then 0x2800 else 0) =? 0x2800) = x) by (by destruct x). rewrite Ek, Ex. cbn [Z.eqb Pos.eqb negb].
  fold (site_off x (a - 1) nc). fold off.
  replace ((0x7FFFFF <? off) || (off <? - 0x800000)) with false by (symmetry; apply orb_false_intro; apply Z.ltb_ge; lia).
  rewrite !get_bit_fld by done. change 0x3FF with (Z.ones 10). change 0x7FF with (Z.ones 11). rewrite !get_field by done.
  rewrite !bit_xor by apply fld_is_bit.
  rewrite first_half by (apply fld_is_bit || (apply (fld_range off); done)).
  rewrite second_half by (apply inv_xor_bit || (apply (fld_range off); done)).
  fold (call1 (fld off 24 1) (fld off 12 10)) (new_half1 off) (call2 x (inv_xor (fld off 23 1) (fld off 24 1)) (inv_xor (fld off 22 1) (fld off 24 1)) (fld off 1 11)) (new_half2 x off).
  rewrite store_allowed by (apply (allows_sub _ _ _ _ _ _ Hw); lia). cbn [mbind outcome_bind].
  rewrite store_allowed by (apply allows_set_mem, (allows_sub _ _ _ _ _ _ Hw); lia). cbn [mbind outcome_bind].
  eexists. split; [reflexivity|]. intros b. cbn [vm_mem set_mem]. by apply patch_split.
Qed.

(** ** Hooking a site *)

Record site_ok (a out : Z) (st : sites) : Prop := {
  so_odd : a mod 2 = 1;
  so_range : 1 < a /\ a + 4 <= 2 ^ 32 - 4096;
  so_room : (length (g_sites st) < max_sites)%nat;
  so_read : allows (cs_space st) PROT_READ (a - 1) 4;
  so_map : forall p, touches a 4 p -> is_Some (vm_prot (cs_space st) !! p);
  so_granted : granted (cs_space st);
  so_out : out = 0 \/ allows (cs_space st) PROT_WRITE out 4 /\ (out + 4 <= a - 1 \/ a + 3 <= out);
}.

Abbreviation cmem st := (vm_mem (cs_space st)).

(** What the engine takes for the callee of the call [h1; h2] at [base]. *)
Definition read_callee (x : bool) (base h1 h2 : Z) : Z :=
  let c := u32 (base + 4 + bl_offset h1 h2) in if x then c .& Z.lnot 3 else c.

Record site_hooked (x : bool) (a out nc callee : Z) (st st' : sites) : Prop := {
  sh_code : bytes (cmem st') (a - 1) 4 = le_bytes 2 (new_half1 (site_off x (a - 1) nc)) ++ le_bytes 2 (new_half2 x (site_off x (a - 1) nc));
  sh_out : out <> 0 -> bytes (cmem st') out 4 = le_bytes 4 callee;
  sh_other : forall b, ~ (a - 1 <= b < a + 3) -> out = 0 \/ ~ (out <= b < out + 4) -> cmem st' b = cmem st b;
  sh_sites : g_sites st' = g_sites st ++ [{| site := a; orig_callee := callee; stub := 0 |}];
  sh_open : forall q, negb (Z.land RWX q =? 0) = true -> allows (cs_space st') q (a - 1) 4;
}.

(** Hook of a site that may be a call: the callee is stored for the caller, the page is opened, and the rest is up to
    [rewrite_thumb_bl]. *)
Lemma cs_hook_opens a out nc st h1 h2 :
  site_ok a out st -> nc <> 0 -> bytes (cmem st) (a - 1) 4 = le_bytes 2 h1 ++ le_bytes 2 h2 -> 0 <= h1 < 2 ^ 16 -> 0 <= h2 < 2 ^ 16 ->
  h1 .& 0xF800 = 0xF000 ->
  let callee := read_callee (h2 .& 0x2800 =? 0x2800) (a - 1) h1 h2 in
  exists v, cs_hook a out nc st =
      ('(ok, v) ← rewrite_thumb_bl a nc v;
       if negb ok then Ret (DOBBY_ERR_FAILED, {| cs_space := v; g_sites := g_sites st |})
       else Ret (DOBBY_OK, {| cs_space := v; g_sites := g_sites st ++ [{| site := a; orig_callee := callee; stub := 0 |}] |})) /\
    (forall b, out = 0 \/ ~ (out <= b < out + 4) -> vm_mem v b = cmem st b) /\
    (out <> 0 -> bytes (vm_mem v) out 4 = le_bytes 4 callee) /\
    (forall q, negb (Z.land RWX q =? 0) = true -> allows v q (a - 1) 4) /\
    bytes (vm_mem v) (a - 1) 4 = le_bytes 2 h1 ++ le_bytes 2 h2.
Proof.
  intros [Hodd Hr Hroom Hrd Hmap Hg Hout] Hnc Hb R1 R2 M1 callee. unfold cs_hook.
  rewrite (proj2 (Z.eqb_neq a 0)), (proj2 (Z.eqb_neq nc 0)), Hodd by lia. cbn [orb Z.eqb Pos.eqb negb].
  assert (Hb2 : bytes (cmem st) (a - 1 + 2) 2 = le_bytes 2 h2).
  { transitivity (drop 2 (bytes (cmem st) (a - 1) 4)); [cbn; by rewrite <- !Z.add_assoc|]. by rewrite Hb. }
  rewrite (load_allowed 2 (cs_space st) (a - 1)) by (apply (allows_sub _ _ _ _ _ _ Hrd); lia). rewrite (load_half _ _ h1 _ 4 Hb ltac:(lia) R1). cbn [mbind outcome_bind].
  rewrite (load_allowed 2 (cs_space st) (a - 1 + 2)) by (apply (allows_sub _ _ _ _ _ _ Hrd); lia). rewrite (load_half _ _ h2 [] 2 Hb2 ltac:(lia) R2). cbn [mbind outcome_bind].
  rewrite M1. cbn [Z.eqb Pos.eqb negb]. fold (read_callee (h2 .& 0x2800 =? 0x2800) (a - 1) h1 h2). fold callee.
  set (m1 := if out =? 0 then cmem st else patch_mem (cmem st) out (le_bytes 4 callee)).
  assert (Es : (if out =? 0 then Ret (cs_space st) else store 4 (cs_space st) out callee) = Ret (set_mem (cs_space st) m1)).
  { unfold m1. destruct (Z.eqb_spec out 0); [by destruct (cs_space st)|]. destruct Hout as [|[Hw _]]; [done|]. by rewrite store_allowed. }
  rewrite Es. cbn [mbind outcome_bind]. rewrite (proj2 (Nat.leb_gt _ _)) by done.
  assert (E1 : forall b, out = 0 \/ ~ (out <= b < out + 4) -> m1 b = cmem st b).
  { intros b Hb'. unfold m1. destruct (Z.eqb_spec out 0); [done|]. apply patch_out. rewrite length_le_bytes. lia. }
  destruct (Protect_granted a 4 RWX (set_mem (cs_space st) m1)) as (v & -> & Hv); [done|lia|done|lia|done|]. cbn [Z.eqb negb].
  exists v. split; [reflexivity|]. rewrite (pr_mem _ _ _ _ _ Hv). cbn [vm_mem set_mem]. split; [exact E1|]. split; [|split].
  - intros H0. unfold m1. rewrite (proj2 (Z.eqb_neq out 0)) by done. exact (bytes_patch (cmem st) out (le_bytes 4 callee)).
  - intros q Hq b Hb'. unfold page_has. rewrite (pr_in _ _ _ _ _ Hv (pg b)); [done|]. exists (Z.max a b). split; [lia|].
    destruct (Z.max_spec a b) as [[? ->]|[? ->]]; [done|]. symmetry. pose proof (pg_bounds b) as [? Eb]. apply pg_unique; [done|].
    apply Z.div_exact in Eb; [|lia]. pose proof (Z.div_mod a 2 ltac:(lia)). assert (b = a \/ b = a - 1) as [->| ->] by lia; lia.
  - rewrite <- Hb. apply bytes_ext. intros b Hb'. apply E1. destruct Hout as [|[_ Ho']]; [by left|right; lia].
Qed.

Lemma cs_hook_ok (x : bool) a out nc st h1 h2 :
  site_ok a out st -> nc <> 0 -> bytes (cmem st) (a - 1) 4 = le_bytes 2 h1 ++ le_bytes 2 h2 -> 0 <= h1 < 2 ^ 16 -> 0 <= h2 < 2 ^ 16 ->
  h1 .& 0xF800 = 0xF000 -> h2 .& 0x2800 = (if x then 0x2800 else 0) -> - 2 ^ 23 <= site_off x (a - 1) nc < 2 ^ 23 ->
  exists st', cs_hook a out nc st = Ret (DOBBY_OK, st') /\ site_hooked x a out nc (read_callee x (a - 1) h1 h2) st st'.
Proof.
  intros Hok Hnc Hb R1 R2 M1 M2 Ho. destruct (cs_hook_opens a out nc st h1 h2 Hok Hnc Hb R1 R2 M1) as (v & -> & Hoth & Hstored & Hopen & Hbv).
  rewrite M2 in *. assert (Ex : ((if x then 0x2800 else 0) =? 0x2800) = x) by (by destruct x). rewrite Ex in *. set (callee := read_callee x (a - 1) h1 h2) in *.
  destruct (rewrite_ok x a nc v h1 h2) as (m & -> & Hm); try done; try (by apply Hopen); [apply (so_odd _ _ _ Hok)|]. cbn [mbind outcome_bind negb].
  set (new := le_bytes 2 (new_half1 _) ++ _) in *. eexists. split; [reflexivity|].
  assert (Em : forall b, ~ (a - 1 <= b < a + 3) -> m b = vm_mem v b) by (intros b Hb'; rewrite Hm, patch_out by (change (length new) with 4%nat; lia); done).
  split; cbn [cs_space g_sites vm_mem set_mem]; try done.
  - transitivity (bytes (patch_mem (vm_mem v) (a - 1) new) (a - 1) 4); [by apply bytes_Proper|exact (bytes_patch (vm_mem v) (a - 1) new)].
  - intros H0. rewrite <- (Hstored H0). apply bytes_ext. intros b Hb'. apply Em. destruct (so_out _ _ _ Hok) as [|[_ Ho']]; [done|lia].
  - intros b Hb1 Hb2'. rewrite Em by done. by apply Hoth.
Qed.

(** A rewrite that is refused: the second halfword is neither of the two the engine knows, or the new callee is too far. *)
Lemma rewrite_refused a nc v h1 h2 : a mod 2 = 1 -> allows v PROT_READ (a - 1) 4 ->
  bytes (vm_mem v) (a - 1) 4 = le_bytes 2 h1 ++ le_bytes 2 h2 -> 0 <= h1 < 2 ^ 16 -> 0 <= h2 < 2 ^ 16 ->
  h2 .& 0x2800 <> 0 -> h2 .& 0x2800 <> 0x2800 \/ 2 ^ 23 <= site_off true (a - 1) nc -> rewrite_thumb_bl a nc v = Ret (false, v).
Proof.
  intros Ha Hr Hb R1 R2 M2 Ho. unfold rewrite_thumb_bl. rewrite Ha. cbn [Z.eqb Pos.eqb].
  assert (Hb2 : bytes (vm_mem v) (a - 1 + 2) 2 = le_bytes 2 h2).
  { transitivity (drop 2 (bytes (vm_mem v) (a - 1) 4)); [cbn; by rewrite <- !Z.add_assoc|]. by rewrite Hb. }
  rewrite (load_allowed 2 v (a - 1)) by (apply (allows_sub _ _ _ _ _ _ Hr); lia). rewrite (load_half _ _ h1 _ 4 Hb ltac:(lia) R1). cbn [mbind outcome_bind].
  rewrite (load_allowed 2 v (a - 1 + 2)) by (apply (allows_sub _ _ _ _ _ _ Hr); lia). rewrite (load_half _ _ h2 [] 2 Hb2 ltac:(lia) R2). cbn [mbind outcome_bind].
  destruct (negb (_ =? 0xF000)); [done|]. rewrite (proj2 (Z.eqb_neq _ 0)) by done. cbn [negb andb].
  destruct (Z.eqb_spec (h2 .& 0x2800) 0x2800); [|done]. destruct Ho as [|Ho]; [done|]. cbn [negb]. fold (site_off true (a - 1) nc).
  by rewrite (proj2 (Z.ltb_lt _ _)) by lia.
Qed.

(** ** Theorems *)

(** One step from a site that holds [h1; h2]. *)
Lemma site_step s a h1 h2 i : loaded32 (Arm32Machine.mem s) a (le_bytes 2 h1 ++ le_bytes 2 h2) -> 0 <= h1 < 2 ^ 16 -> 0 <= h2 < 2 ^ 16 ->
  decode_thumb h1 h2 = Some (i, 4) -> step (at_pc a true s) = exec 4 i (at_pc a true s).
Proof.
  intros Hl R1 R2 D. apply (step_wide _ h1 h2); [done| |by apply wrap_small|by apply wrap_small|done].
  exact (loaded_halves _ _ [h1; h2] [] Hl).
Qed.

Lemma new_range x off : 0 <= new_half1 off < 2 ^ 16 /\ 0 <= new_half2 x off < 2 ^ 16.
Proof.
  apply call_range; try apply fld_is_bit; try apply inv_xor_bit; apply (fld_range off); done.
Qed.

(** The offset the fields of a short forward call stand for. *)
Lemma short_fields i j : 0 <= i < 1024 -> 0 <= j < 2048 -> let off := 2 ^ 12 * i + 2 * j in
  new_half1 off = call1 0 i /\ new_half2 true off = call2 true 1 1 j.
Proof.
  intros Hi Hj off. unfold new_half1, new_half2.
  assert (F : fld off 24 1 = 0 /\ fld off 23 1 = 0 /\ fld off 22 1 = 0 /\ fld off 12 10 = i /\ fld off 1 11 = j).
  { unfold off, fld. Z.div_mod_to_equations. lia. }
  destruct F as (-> & -> & -> & -> & ->). done.
Qed.

Lemma clear_two a : a .& Z.lnot 3 = a - a mod 4.
Proof. change (Z.land a (Z.lnot 3)) with (ALIGN_FLOOR a (2 ^ 2)). by rewrite ALIGN_FLOOR_alt. Qed.

Lemma find_site_app a l c : Forall (fun r => site r <> a) l ->
  find_site a (l ++ [{| site := a; orig_callee := c; stub := 0 |}]) = Some (length l, {| site := a; orig_callee := c; stub := 0 |}).
Proof.
  induction 1 as [|r l Hr _ IH]; cbn [find_site app length site]; [by rewrite Z.eqb_refl|].
  by rewrite (proj2 (Z.eqb_neq _ _)), IH by done.
Qed.

Lemma off0_mod i j : j mod 2 = 0 -> (2 ^ 12 * i + 2 * j) mod 4 = 0.
Proof. intros Hj. replace (2 ^ 12 * i + 2 * j) with (2 * j + i * 1024 * 4) by lia. rewrite Z_mod_plus_full. revert Hj. Z.div_mod_to_equations. lia. Qed.

Lemma mod4_next b : b mod 4 = 0 -> (b + 4) mod 4 = 0.
Proof. intros H. change (b + 4) with (b + 1 * 4). by rewrite Z_mod_plus_full. Qed.

Lemma site_off_aligned base c : base mod 4 = 0 -> c mod 4 = 0 -> - 2 ^ 23 <= c - (base + 4) < 2 ^ 23 -> site_off true base c = c - (base + 4).
Proof.
  intros H4 Hc Hr. unfold site_off. rewrite clear_two, sext_small by lia.
  replace ((c - (base + 4)) mod 4) with 0; [lia|]. by rewrite Zminus_mod, Hc, (mod4_next _ H4).
Qed.

(** The engine reads a short forward BLX right. *)
Lemma read_callee_blx base i j : 0 <= i < 1024 -> 0 <= j < 2048 -> j mod 2 = 0 -> base mod 4 = 0 -> 0 <= base ->
  base + 4 + (2 ^ 12 * i + 2 * j) < 2 ^ 32 -> read_callee true base (call1 0 i) (call2 true 1 1 j) = base + 4 + (2 ^ 12 * i + 2 * j).
Proof.
  intros Hi Hj Hj2 H4 H0 Hlt. unfold read_callee. rewrite (bl_offset_call true 0 i 1 1 j) by auto with v2bits. unfold pack. cbn [inv_xor Z.eqb].
  replace (base + 4 + _) with (base + 4 + (2 ^ 12 * i + 2 * j)) by (change (inv_xor 1 0) with 0; lia). rewrite wrap_small, clear_two by lia.
  replace ((base + 4 + (2 ^ 12 * i + 2 * j)) mod 4) with 0; [lia|]. by rewrite Z.add_mod, (off0_mod i j Hj2), (mod4_next _ H4) by lia.
Qed.

(** A BLX at a word boundary. *)
Lemma blx_step a s m h1 h2 d : 0 < a /\ a + 8 < 2 ^ 32 -> (a - 1) mod 4 = 0 -> Arm32Machine.mem s = m ->
  bytes m (a - 1) 4 = le_bytes 2 h1 ++ le_bytes 2 h2 -> 0 <= h1 < 2 ^ 16 -> 0 <= h2 < 2 ^ 16 ->
  decode_thumb h1 h2 = Some (T_BL true d, 4) -> 0 <= a - 1 + 4 + d < 2 ^ 32 -> exists s', run 1 (at_pc (a - 1) true s) = Some s' /\
  pc s' = a - 1 + 4 + d /\ Arm32Machine.thumb s' = false /\ regs s' 14 = a + 4 /\ forall q, q <> 14 -> regs s' q = regs s q.
Proof.
  intros Ha H4 Hs Hb Q1 Q2 D Hd. apply bytes_loaded in Hb; [|lia|cbn; lia]. rewrite <- Hs in Hb.
  cbn [run]. rewrite (site_step s (a - 1) h1 h2 _ Hb Q1 Q2 D). cbn [exec mbind option_bind]. eexists. split; [reflexivity|].
  unfold align4. cbn [pc at_pc Arm32Machine.thumb goto regs set]. rewrite (mod4_next _ H4).
  rewrite Z.sub_0_r, !wrap_small by lia. split; [done|]. split; [done|]. split; [cbn; lia|]. intros q Hq. by rewrite (proj2 (Z.eqb_neq _ _)).
Qed.

(** The bits above bit 23 of an offset in range are its sign. *)
Lemma fld_sign off : - 2 ^ 23 <= off < 2 ^ 23 -> fld off 23 1 = fld off 24 1.
Proof. intros H. unfold fld. Z.div_mod_to_equations. lia. Qed.

(** A BL. *)
Lemma bl_step a s m h1 h2 d : 0 < a /\ a + 8 < 2 ^ 32 -> Arm32Machine.mem s = m ->
  bytes m (a - 1) 4 = le_bytes 2 h1 ++ le_bytes 2 h2 -> 0 <= h1 < 2 ^ 16 -> 0 <= h2 < 2 ^ 16 ->
  decode_thumb h1 h2 = Some (T_BL false d, 4) -> 0 <= a - 1 + 4 + d < 2 ^ 32 -> exists s', run 1 (at_pc (a - 1) true s) = Some s' /\
  pc s' = a - 1 + 4 + d /\ Arm32Machine.thumb s' = true.
Proof.
  intros Ha Hs Hb Q1 Q2 D Hd. apply bytes_loaded in Hb; [|lia|cbn; lia]. rewrite <- Hs in Hb.
  cbn [run]. rewrite (site_step s (a - 1) h1 h2 _ Hb Q1 Q2 D). cbn [exec mbind option_bind]. eexists. split; [reflexivity|].
  cbn [pc at_pc Arm32Machine.thumb goto jump regs set]. by rewrite wrap_small by lia.
Qed.

(** The length of a forward BLX. *)
Definition blx_reach (J1 J2 i j : Z) : Z := 2 ^ 23 * (1 - J1) + 2 ^ 22 * (1 - J2) + 2 ^ 12 * i + 2 * j.

Lemma forward_decodes J1 J2 i j : is_bit J1 -> is_bit J2 -> 0 <= i < 1024 -> 0 <= j < 2048 -> j mod 2 = 0 ->
  decode_thumb (call1 0 i) (call2 true J1 J2 j) = Some (T_BL true (blx_reach J1 J2 i j), 4).
Proof.
  intros H1 H2 Hi Hj Hj2. destruct (decode_call true 0 i J1 J2 j is_bit_0 Hi H1 H2 Hj) as [W D]. fold (call1 0 i) (call2 true J1 J2 j) in W, D.
  unfold decode_thumb. rewrite W, D, Hj2. cbn [Z.eqb andb mbind option_bind]. do 3 f_equal. unfold blx_reach.
  assert (Ei : forall b, is_bit b -> inv_xor b 0 = 1 - b) by (intros b [->| ->]; done). rewrite !Ei by done. unfold signed.
  rewrite (proj2 (Z.ltb_lt _ _)) by (destruct H1 as [->| ->], H2 as [->| ->]; lia). lia.
Qed.

(** Unhook of a site that was rewritten to a BLX of [off]: if [off] is within 4 MiB the original is back, otherwise the
    second halfword is one the engine does not know, and the instruction stays. *)
Lemma unhook_blx a out nc callee i j st st' : site_ok a out st -> site_hooked true a out nc callee st st' ->
  0 <= i < 1024 -> 0 <= j < 2048 -> (a - 1) mod 4 = 0 -> callee mod 4 = 0 -> callee = a - 1 + 4 + (2 ^ 12 * i + 2 * j) ->
  site_off true (a - 1) nc = nc - (a - 1 + 4) -> - 2 ^ 23 <= nc - (a - 1 + 4) < 2 ^ 23 -> Forall (fun r => site r <> a) (g_sites st) ->
  bytes (cmem st) (a - 1) 4 = le_bytes 2 (call1 0 i) ++ le_bytes 2 (call2 true 1 1 j) ->
  exists st'', cs_unhook a st' = Ret (DOBBY_OK, st'') /\ g_sites st'' = g_sites st /\
    if bool_decide (- 2 ^ 22 <= nc - (a - 1 + 4) < 2 ^ 22) then forall b, out = 0 \/ ~ (out <= b < out + 4) -> cmem st'' b = cmem st b
    else cs_space st'' = cs_space st'.
Proof.
  intros Hok Hh Hi Hj H4 Hc4 Hcal Hso Hr Hno Hcode. pose proof (sh_code _ _ _ _ _ _ _ Hh) as Hcode'. rewrite Hso in Hcode'. set (off := nc - (a - 1 + 4)) in *.
  pose proof (new_range true off) as [N1 N2]. unfold cs_unhook. rewrite (sh_sites _ _ _ _ _ _ _ Hh), find_site_app by done. cbn [orig_callee].
  assert (Hmask : new_half2 true off .& 0x2800 = 8192 + 2048 * inv_xor (fld off 22 1) (fld off 24 1)).
  { unfold new_half2. rewrite call2_mask by (apply inv_xor_bit || (apply (fld_range off); done)). rewrite (fld_sign off) by done. unfold inv_xor at 1. rewrite Z.eqb_refl. lia. }
  case_bool_decide as Hnear.
  - assert (F : fld off 22 1 = fld off 24 1) by (unfold fld; Z.div_mod_to_equations; lia).
    assert (Hso' : site_off true (a - 1) callee = 2 ^ 12 * i + 2 * j) by (rewrite site_off_aligned by (done || lia); lia).
    destruct (rewrite_ok true a callee (cs_space st') (new_half1 off) (new_half2 true off)) as (m & Er & Hm); try done; try (by apply (sh_open _ _ _ _ _ _ _ Hh)).
    { apply (so_odd _ _ _ Hok). }
    { apply call1_mask; [apply fld_is_bit|apply (fld_range off); done]. }
    { rewrite Hmask, F. unfold inv_xor. by rewrite Z.eqb_refl. }
    { rewrite Hso'. lia. }
    rewrite Er. cbn [mbind outcome_bind]. eexists. split; [reflexivity|]. cbn [g_sites cs_space set_mem vm_mem]. split; [by rewrite swap_remove_last|].
    rewrite Hso' in Hm. destruct (short_fields i j Hi Hj) as [S1 S2]. rewrite S1, S2, <- Hcode in Hm.
    intros b Hb. rewrite Hm. destruct (decide (a - 1 <= b < a - 1 + 4)) as [Hin|Hout].
    + rewrite patch_in by (rewrite length_bytes; lia). rewrite nth_bytes by lia. f_equal. lia.
    + rewrite patch_out by (rewrite length_bytes; lia). apply (sh_other _ _ _ _ _ _ _ Hh); [lia|done].
  - assert (F : fld off 22 1 <> fld off 24 1) by (unfold fld; Z.div_mod_to_equations; lia).
    assert (Hk : new_half2 true off .& 0x2800 = 8192) by (rewrite Hmask; unfold inv_xor; by rewrite (proj2 (Z.eqb_neq _ _))).
    rewrite (rewrite_refused a callee (cs_space st') _ _ (so_odd _ _ _ Hok) ltac:(by apply (sh_open _ _ _ _ _ _ _ Hh)) Hcode' N1 N2) by (rewrite Hk; first [lia|left; lia]).
    cbn [mbind outcome_bind]. eexists. split; [reflexivity|]. cbn [g_sites]. split; [by rewrite swap_remove_last|done].
Qed.


(** A call-site hook of a BL to code within 4 MiB calls the new function in the wrong state.  The engine takes the J
    bits of such a call for the mark of BLX: Hook returns [DOBBY_OK], and where the call stayed in Thumb state the
    instruction now enters the word-aligned address at or below the new callee in ARM state. *)
Theorem callsite_bl_exchanges a out nc st h1 h2 :
  site_ok a out st -> (a - 1) mod 4 = 0 -> 0 < nc < 2 ^ 32 -> near_bl h1 h2 -> bytes (cmem st) (a - 1) 4 = le_bytes 2 h1 ++ le_bytes 2 h2 ->
  - 2 ^ 23 + 4 <= nc - (a + 3) < 2 ^ 23 ->
  (exists off, decode_thumb h1 h2 = Some (T_BL false off, 4)) /\
  exists st', cs_hook a out nc st = Ret (DOBBY_OK, st') /\
    forall s, Arm32Machine.mem s = cmem st' -> exists s', run 1 (at_pc (a - 1) true s) = Some s' /\
      pc s' = nc - nc mod 4 /\ Arm32Machine.thumb s' = false.
Proof.
  intros Hok H4 Hn Hbl Hcode Hnear. pose proof (so_range _ _ _ Hok) as Hra.
  destruct (near_bl_masks _ _ Hbl) as (M1 & M2 & W1 & W2 & Hd). split; [done|].
  pose proof (wrap_range 16 h1 ltac:(lia)) as R1. pose proof (wrap_range 16 h2 ltac:(lia)) as R2. rewrite W1 in R1. rewrite W2 in R2.
  pose proof (Z.mod_pos_bound nc 4 ltac:(lia)) as Hm4.
  assert (Hso : site_off true (a - 1) nc = nc - nc mod 4 - (a - 1 + 4)).
  { unfold site_off. rewrite clear_two, sext_small by lia. rewrite Zminus_mod, (mod4_next _ H4), Z.sub_0_r, Zmod_mod. lia. }
  destruct (cs_hook_ok true a out nc st h1 h2) as (st' & -> & Hh); try done; [lia|rewrite Hso; lia|].
  exists st'. split; [done|]. intros s Hs. pose proof (sh_code _ _ _ _ _ _ _ Hh) as Hc. rewrite Hso in Hc. set (off := nc - nc mod 4 - (a - 1 + 4)) in *.
  pose proof (new_range true off) as [N1 N2].
  destruct (blx_step a s _ _ _ off ltac:(lia) H4 Hs Hc N1 N2) as (s' & E & Epc & Et & _).
  - apply new_decodes; [unfold off; lia|]. unfold off. rewrite Zminus_mod, (mod4_next _ H4), Z.sub_0_r, Zmod_mod, Zminus_mod, Zmod_mod, Z.sub_diag. done.
  - pose proof (Z.div_mod nc 4 ltac:(lia)). pose proof (Z.div_pos nc 4). unfold off. lia.
  - exists s'. split; [done|]. split; [rewrite Epc; unfold off; lia|done].
Qed.

(** A call-site hook of a call backwards cannot be taken back.  The engine subtracts 2^24 where the offset has 25 bits: the
    original callee it reports, and stores for its caller, is 16 MiB too high; Unhook finds that address out of range,
    leaves the instruction as it is and returns [DOBBY_OK], having forgotten the site. *)
Theorem callsite_backward_stuck (x : bool) a out nc i j st :
  site_ok a out st -> 0 <= i < 1024 -> 0 <= j < 2048 -> j mod 2 = 0 -> (a - 1) mod 4 = 0 -> 0 < nc < 2 ^ 32 ->
  bytes (cmem st) (a - 1) 4 = le_bytes 2 (call1 1 i) ++ le_bytes 2 (call2 x 1 1 j) -> a + 3 + 2 ^ 24 < 2 ^ 32 ->
  - 2 ^ 23 + 4 <= nc - (a + 3) < 2 ^ 23 -> Forall (fun r => site r <> a) (g_sites st) ->
  exists off st' st'', decode_thumb (call1 1 i) (call2 x 1 1 j) = Some (T_BL x off, 4) /\ - 2 ^ 22 <= off < 0 /\
    cs_hook a out nc st = Ret (DOBBY_OK, st') /\ OrigCallee a st' = a + 3 + off + 2 ^ 24 /\
    cs_unhook a st' = Ret (DOBBY_OK, st'') /\ cs_space st'' = cs_space st' /\ g_sites st'' = g_sites st.
Proof.
  intros Hok Hi Hj Hj2 H4 Hn Hcode Hhi Hnear Hno. pose proof (so_range _ _ _ Hok) as Hra. pose proof (so_odd _ _ _ Hok) as Hodd.
  set (o := 2 ^ 23 + 2 ^ 22 + 2 ^ 12 * i + 2 * j). pose proof (Z.mod_pos_bound nc 4 ltac:(lia)) as Hm4.
  assert (Hcal : read_callee true (a - 1) (call1 1 i) (call2 x 1 1 j) = a + 3 + o).
  { unfold read_callee. rewrite (bl_offset_call x 1 i 1 1 j) by auto with v2bits. unfold pack. change (inv_xor 1 1) with 1.
    replace (a - 1 + 4 + _) with (a - 1 + 4 + o) by (unfold o; lia). rewrite wrap_small, clear_two by (unfold o; lia).
    replace ((a - 1 + 4 + o) mod 4) with 0; [lia|]. rewrite Z.add_mod, (mod4_next _ H4) by lia. unfold o.
    replace (2 ^ 23 + 2 ^ 22 + 2 ^ 12 * i + 2 * j) with (2 ^ 12 * (3 * 2 ^ 10 + i) + 2 * j) by lia. by rewrite off0_mod. }
  destruct (call_range x 1 i 1 1 j is_bit_1 Hi is_bit_1 is_bit_1 Hj) as [R1 R2].
  pose proof (call1_mask 1 i is_bit_1 Hi) as M1. pose proof (call2_mask x 1 1 j is_bit_1 is_bit_1 Hj) as M2.
  assert (Hso : site_off true (a - 1) nc = nc - nc mod 4 - (a - 1 + 4)).
  { unfold site_off. rewrite clear_two, sext_small by lia. rewrite Zminus_mod, (mod4_next _ H4), Z.sub_0_r, Zmod_mod. lia. }
  destruct (cs_hook_ok true a out nc st (call1 1 i) (call2 x 1 1 j)) as (st' & E & Hh); try done; [lia|rewrite Hso; lia|].
  rewrite Hcal in Hh. pose proof (sh_code _ _ _ _ _ _ _ Hh) as Hc. pose proof (new_range true (site_off true (a - 1) nc)) as [N1 N2].
  exists (o - 2 ^ 24), st'. eexists. split; [|split; [unfold o; lia|]].
  { destruct (decode_call x 1 i 1 1 j is_bit_1 Hi is_bit_1 is_bit_1 Hj) as [W D]. fold (call1 1 i) (call2 x 1 1 j) in W, D. unfold decode_thumb. rewrite W, D.
    rewrite Hj2, andb_false_r. cbn [mbind option_bind]. do 3 f_equal. change (inv_xor 1 1) with 1. unfold signed.
    rewrite (proj2 (Z.ltb_ge _ _)) by lia. unfold o. lia. }
  split; [done|]. split; [unfold OrigCallee; rewrite (sh_sites _ _ _ _ _ _ _ Hh), find_site_app by done; cbn; lia|].
  unfold cs_unhook. rewrite (sh_sites _ _ _ _ _ _ _ Hh), find_site_app by done. cbn [orig_callee].
  rewrite (rewrite_refused a (a + 3 + o) (cs_space st') _ _ Hodd ltac:(by apply (sh_open _ _ _ _ _ _ _ Hh)) Hc N1 N2).
  - split; [reflexivity|]. split; [done|]. cbn [g_sites]. by rewrite swap_remove_last.
  - unfold new_half2. rewrite call2_mask by (apply inv_xor_bit || (apply (fld_range (site_off true (a - 1) nc)); done)).
    assert (F : fld (site_off true (a - 1) nc) 23 1 = fld (site_off true (a - 1) nc) 24 1) by (apply fld_sign; rewrite Hso; lia).
    rewrite F. unfold inv_xor at 1. rewrite Z.eqb_refl. pose proof (inv_xor_bit (fld (site_off true (a - 1) nc) 22 1) (fld (site_off true (a - 1) nc) 24 1)) as [->| ->]; lia.
  - right. unfold site_off. rewrite clear_two. rewrite sext_small by (unfold o; lia). pose proof (Z.mod_pos_bound (a + 3 + o - (a - 1 + 4)) 4 ltac:(lia)). unfold o in *. lia.
Qed.

(** ** The theorems at a concrete process *)

Definition sample_sites (h1 h2 : Z) : sites := {| cs_space := sample_space (le_bytes 2 h1 ++ le_bytes 2 h2) []; g_sites := [] |}.

Lemma sample_site_ok h1 h2 : site_ok 0x10001 0x20000 (sample_sites h1 h2).
Proof.
  split; try done; [cbn; unfold max_sites; lia| | |].
  - by apply (sample_allows _ [] RX 0x10000).
  - intros p (b & Hb & ->). rewrite (pg_unique 0x10000 b) by (done || lia). cbn. done.
  - right. split; [by apply (sample_allows _ [] RW 0x20000)|lia].
Qed.


Lemma callsite_bl_exchanges_witness : exists st', cs_hook 0x10001 0x20000 0x18001 (sample_sites 0xf001 0xf804) = Ret (DOBBY_OK, st') /\
  forall s, Arm32Machine.mem s = cmem st' -> exists s', run 1 (at_pc 0x10000 true s) = Some s' /\ pc s' = 0x18000 /\ Arm32Machine.thumb s' = false.
Proof.
  destruct (callsite_bl_exchanges 0x10001 0x20000 0x18001 (sample_sites 0xf001 0xf804) 0xf001 0xf804) as (_ & st' & E & H);
    [apply sample_site_ok|reflexivity|lia|exists 0, 1, 4; unfold is_bit; lia|reflexivity|lia|].
  exists st'. split; [exact E|exact H].
Defined.

Lemma callsite_backward_stuck_witness : exists st' st'', cs_hook 0x10001 0x20000 0x18001 (sample_sites (call1 1 1022) (call2 false 1 1 4)) = Ret (DOBBY_OK, st') /\
  cs_unhook 0x10001 st' = Ret (DOBBY_OK, st'') /\ cs_space st'' = cs_space st'.
Proof.
  destruct (callsite_backward_stuck false 0x10001 0x20000 0x18001 1022 4 (sample_sites (call1 1 1022) (call2 false 1 1 4))) as (off & st' & st'' & _ & _ & E1 & _ & E2 & E3 & _);
    [apply sample_site_ok|lia|lia|reflexivity|reflexivity|lia|reflexivity|lia|lia|constructor|].
  exists st', st''. split; [exact E1|]. split; [exact E2|exact E3].
Defined.
