(* ===== verification/V2Waiter.v ===== *)
(** * The second engine: waiting for a library (src/waiter.cpp)

    A wait-hook is a task: a library and a symbol or an offset in it, to be hooked as soon as
    they resolve.  Submit tries at once and queues the task if they do not; the worker
    goes through the queue every 200 ms; Cancel takes tasks out.  Everything runs
    with the queue locked, so that operations are atomic and a history is a sequence
    of them.  What Symbols::Find and Symbols::Base answer, the page mmap picks and the clock are
    arguments; a callback is recorded with what it was given. *)

From stdpp Require Import gmap.
From S2P Require Import Prelude CodePatch V2Util V2Hooker V2HookTable.
#[local] Open Scope Z_scope.

Definition DOBBY_WAIT_PENDING : Z := 0.
Definition DOBBY_WAIT_INSTALLED : Z := 1.
Definition DOBBY_WAIT_TIMEOUT : Z := -2.
Definition DOBBY_WAIT_CANCELLED : Z := -3.
Definition DOBBY_WAIT_INVALID : Z := -4.

Record WaitTask := {
  lib : list Z;
  symbol : list Z;
  offset : Z;
  use_offset : bool;
  t_replace : Z;
  origin : Z;
  flags : Z;
  timeout_ms : Z;
  cb : bool;
  user_data : Z;
  start_ms : Z;
  done_ : bool;
}.

(** A call of a callback. *)
Record wait_call := {
  c_status : Z;
  c_lib : list Z;
  c_symbol : list Z;
  c_resolved : Z;
  c_user : Z;
}.

Record waiter := {
  w_engine : engine;
  g_tasks : list WaitTask;
  calls : list wait_call;
}.

Definition call_back (status resolved : Z) (t : WaitTask) (w : waiter) : waiter :=
  {| w_engine := w_engine w; g_tasks := g_tasks w;
     calls := calls w ++ (if cb t then [{| c_status := status; c_lib := lib t; c_symbol := symbol t; c_resolved := resolved; c_user := user_data t |}] else []) |}.
Definition with_engine (st : engine) (w : waiter) : waiter := {| w_engine := st; g_tasks := g_tasks w; calls := calls w |}.
Definition with_tasks (l : list WaitTask) (w : waiter) : waiter := {| w_engine := w_engine w; g_tasks := l; calls := calls w |}.

Section Waiter.
Context (mmap : engine -> option Z) (Find : list Z -> list Z -> Z) (Base : list Z -> Z).

(** The address a task resolves to, 0 if it does not. *)
Definition resolve (t : WaitTask) : Z :=
  if use_offset t then (if Base (lib t) =? 0 then 0 else u32 (Base (lib t) + offset t)) else Find (lib t) (symbol t).

(** The return value and the new state; [done] is set when the value is [true]. *)
Definition try_install (t : WaitTask) (w : waiter) : outcome (bool * waiter) :=
  let sym := resolve t in
  if sym =? 0 then Ret (false, w)
  else
    '(_, st) ← Hook (mmap (w_engine w)) sym (t_replace t) (origin t) (w_engine w);
    o ← (if origin t =? 0 then Ret 0 else load 4 (space st) (origin t));
    let st := emit {| ev_target := sym; ev_replace := t_replace t; ev_origin := o; ev_lib := Some (lib t); ev_symbol := Some (symbol t);
                      ev_status := DOBBY_WAIT_INSTALLED |} st in
    Ret (true, call_back DOBBY_WAIT_INSTALLED sym t (with_engine st w)).

Definition expired (now : Z) (t : WaitTask) : bool := negb (timeout_ms t =? 0) && (timeout_ms t <? u64 (now - start_ms t)).

(** One pass of the worker over the queue; the tasks it keeps, in order. *)
Fixpoint worker_pass (now : Z) (tasks : list WaitTask) (w : waiter) : outcome (list WaitTask * waiter) :=
  match tasks with
  | [] => Ret ([], w)
  | t :: tasks =>
      if done_ t then worker_pass now tasks w
      else if expired now t then worker_pass now tasks (call_back DOBBY_WAIT_TIMEOUT 0 t w)
      else
        '(ok, w) ← try_install t w;
        '(rest, w) ← worker_pass now tasks w;
        if (ok : bool) then Ret (rest, w) else Ret (t :: rest, w)
  end.
Definition worker_round (now : Z) (w : waiter) : outcome waiter :=
  '(tasks, w') ← worker_pass now (g_tasks w) w; Ret (with_tasks tasks w').

Definition Submit (lib symbol : option (list Z)) (offset : Z) (use_offset : bool) (replace origin flags timeout_ms : Z) (cb : bool)
    (user_data now : Z) (w : waiter) : outcome (Z * waiter) :=
  match lib with
  | None => Ret (DOBBY_WAIT_INVALID, w)
  | Some lib =>
      if replace =? 0 then Ret (DOBBY_WAIT_INVALID, w)
      else
        let t := {| lib := lib; symbol := default [] symbol; offset := offset; use_offset := use_offset; t_replace := replace; origin := origin;
                    flags := flags; timeout_ms := timeout_ms; cb := cb; user_data := user_data; start_ms := now; done_ := false |} in
        '(ok, w) ← try_install t w;
        if (ok : bool) then Ret (DOBBY_WAIT_INSTALLED, w) else Ret (DOBBY_WAIT_PENDING, with_tasks (g_tasks w ++ [t]) w)
  end.

End Waiter.

Definition matches (l : list Z) (s : option (list Z)) (t : WaitTask) : bool :=
  bool_decide (lib t = l) && match s with None => true | Some s => bool_decide (symbol t = s) end.

(** The loop of Cancel: the tasks kept, the number taken out. *)
Fixpoint cancel_pass (l : list Z) (s : option (list Z)) (tasks : list WaitTask) (w : waiter) : list WaitTask * Z * waiter :=
  match tasks with
  | [] => ([], 0, w)
  | t :: tasks =>
      if matches l s t then
        let '(rest, n, w) := cancel_pass l s tasks (call_back DOBBY_WAIT_CANCELLED 0 t w) in (rest, n + 1, w)
      else let '(rest, n, w) := cancel_pass l s tasks w in (t :: rest, n, w)
  end.
Definition Cancel (l : list Z) (s : option (list Z)) (w : waiter) : Z * waiter :=
  let '(tasks, n, w) := cancel_pass l s (g_tasks w) w in (n, with_tasks tasks w).

Definition PendingCount (w : waiter) : Z := Z.of_nat (length (g_tasks w)).

(** ** What a pass does *)

Section Facts.
Context (mmap : engine -> option Z) (Find : list Z -> list Z -> Z) (Base : list Z -> Z).

Definition waiting (now : Z) (t : WaitTask) : bool := negb (done_ t) && negb (expired now t) && (resolve Find Base t =? 0).
(** The call a task's callback gets when the task leaves the queue. *)
Definition told (status resolved : Z) (t : WaitTask) : list wait_call :=
  if cb t then [{| c_status := status; c_lib := lib t; c_symbol := symbol t; c_resolved := resolved; c_user := user_data t |}] else [].
Definition round_call (now : Z) (t : WaitTask) : list wait_call :=
  if done_ t then [] else if expired now t then told DOBBY_WAIT_TIMEOUT 0 t
  else if resolve Find Base t =? 0 then [] else told DOBBY_WAIT_INSTALLED (resolve Find Base t) t.

Lemma try_install_spec t w ok w' : try_install mmap Find Base t w = Ret (ok, w') ->
  ok = negb (resolve Find Base t =? 0) /\ g_tasks w' = g_tasks w /\
  calls w' = calls w ++ (if resolve Find Base t =? 0 then [] else told DOBBY_WAIT_INSTALLED (resolve Find Base t) t).
Proof.
  unfold try_install. destruct (_ =? 0); [intros [= <- <-]; by rewrite app_nil_r|].
  intros E. apply outcome_bind_Ret in E as ([rc st] & _ & E). apply outcome_bind_Ret in E as (o & _ & E). by injection E as <- <-.
Qed.

Lemma worker_pass_spec now tasks : forall w out w', worker_pass mmap Find Base now tasks w = Ret (out, w') ->
  out = List.filter (waiting now) tasks /\ calls w' = calls w ++ concat (map (round_call now) tasks).
Proof.
  induction tasks as [|t tasks IH]; intros w out w'; cbn [worker_pass map concat List.filter].
  { intros [= <- <-]. by rewrite app_nil_r. }
  unfold round_call at 1. unfold waiting at 1. destruct (done_ t); cbn [negb andb app]; [by apply IH|].
  destruct (expired now t); cbn [negb andb].
  { intros E. apply IH in E as [-> ->]. split; [done|]. cbn [call_back calls]. by rewrite <- app_assoc. }
  intros E. apply outcome_bind_Ret in E as ([ok w1] & E1 & E). apply outcome_bind_Ret in E as ([rest w2] & E2 & E).
  apply try_install_spec in E1 as (-> & _ & Hc). apply IH in E2 as [-> Hc2]. rewrite Hc in Hc2. clear Hc.
  destruct (resolve Find Base t =? 0); injection E as <- <-; rewrite Hc2, <- app_assoc; done.
Qed.

End Facts.

(** ** Histories *)

(** What a task and a call are recognised by. *)
Definition task_key (t : WaitTask) : list Z * list Z * Z := (lib t, symbol t, user_data t).
Definition call_key (c : wait_call) : list Z * list Z * Z := (c_lib c, c_symbol c, c_user c).

(** The tasks accepted so far that have a callback. *)
Definition accepted_keys (l : option (list Z)) (s : option (list Z)) (replace : Z) (cb : bool) (user : Z) : list (list Z * list Z * Z) :=
  match l with
  | Some l => if negb (replace =? 0) && cb then [(l, default [] s, user)] else []
  | None => []
  end.

Inductive history (w0 : waiter) : list (list Z * list Z * Z) -> waiter -> Prop :=
| history_start : history w0 [] w0
| history_submit mmap Find Base acc w l s off uo r o fl tm cb u now rc w' :
    history w0 acc w -> Submit mmap Find Base l s off uo r o fl tm cb u now w = Ret (rc, w') ->
    history w0 (acc ++ accepted_keys l s r cb u) w'
| history_round mmap Find Base acc w now w' :
    history w0 acc w -> worker_round mmap Find Base now w = Ret w' -> history w0 acc w'
| history_cancel acc w l s n w' : history w0 acc w -> Cancel l s w = (n, w') -> history w0 acc w'.

Definition key_of (t : WaitTask) : list (list Z * list Z * Z) := if cb t then [task_key t] else [].
Definition pending_keys (l : list WaitTask) : list (list Z * list Z * Z) := concat (map key_of l).
Definition called_keys (l : list wait_call) : list (list Z * list Z * Z) := map call_key l.

Lemma told_keys status r t : called_keys (told status r t) = key_of t.
Proof. unfold told, key_of. by destruct (cb t). Qed.

Lemma cancel_pass_spec l s tasks : forall w out n w', cancel_pass l s tasks w = (out, n, w') ->
  out = List.filter (fun t => negb (matches l s t)) tasks /\ n = Z.of_nat (length tasks - length out) /\
  (length out <= length tasks)%nat /\ calls w' = calls w ++ concat (map (fun t => if matches l s t then told DOBBY_WAIT_CANCELLED 0 t else []) tasks).
Proof.
  induction tasks as [|t tasks IH]; intros w out n w'; cbn [cancel_pass map concat List.filter].
  { intros [= <- <- <-]. by rewrite app_nil_r. }
  destruct (matches l s t); cbn [negb].
  - destruct (cancel_pass _ _ _ _) as [[rest n1] w1] eqn:E. intros [= <- <- <-]. apply IH in E as (-> & -> & Hl & ->).
    split; [done|]. cbn [length]. split; [lia|]. split; [lia|]. cbn [call_back calls]. by rewrite <- app_assoc.
  - destruct (cancel_pass _ _ _ _) as [[rest n1] w1] eqn:E. intros [= <- <- <-]. apply IH in E as (-> & -> & Hl & ->).
    cbn [length]. split; [done|]. split; [lia|]. split; [lia|done].
Qed.

Lemma called_keys_app l l' : called_keys (l ++ l') = called_keys l ++ called_keys l'.
Proof. apply map_app. Qed.

(** Tasks are split between those kept and those told. *)
Lemma split_keys (keep : WaitTask -> bool) (tell : WaitTask -> list wait_call) tasks :
  (forall t, t ∈ tasks -> if keep t then tell t = [] else called_keys (tell t) = key_of t) ->
  pending_keys tasks ≡ₚ pending_keys (List.filter keep tasks) ++ called_keys (concat (map tell tasks)).
Proof.
  unfold pending_keys. induction tasks as [|t tasks IH]; intros H; [done|]. cbn [map concat List.filter].
  pose proof (H t ltac:(left)) as Ht. rewrite called_keys_app, IH by (intros t' Ht'; apply H; by right).
  destruct (keep t); cbn [map concat].
  - rewrite Ht. by rewrite <- app_assoc.
  - rewrite Ht. apply Permutation_app_swap_app.
Qed.

(** Everything the waiter knows of: queued or called. *)
Definition keys (w : waiter) : list (list Z * list Z * Z) := pending_keys (g_tasks w) ++ called_keys (calls w).

Lemma pass_keys (keep : WaitTask -> bool) (tell : WaitTask -> list wait_call) w w' :
  (forall t, t ∈ g_tasks w -> if keep t then tell t = [] else called_keys (tell t) = key_of t) ->
  g_tasks w' = List.filter keep (g_tasks w) -> calls w' = calls w ++ concat (map tell (g_tasks w)) -> keys w ≡ₚ keys w'.
Proof.
  intros H Et Ec. unfold keys. rewrite Et, Ec, called_keys_app, (split_keys keep tell _ H).
  rewrite <- !app_assoc. apply Permutation_app_head, Permutation_app_comm.
Qed.

Lemma Submit_keys mmap Find Base l s off uo r o fl tm c u now w rc w' :
  Submit mmap Find Base l s off uo r o fl tm c u now w = Ret (rc, w') -> keys w ++ accepted_keys l s r c u ≡ₚ keys w'.
Proof.
  unfold Submit, accepted_keys. destruct l as [l|]; [|intros [= _ <-]; by rewrite app_nil_r].
  destruct (r =? 0); [intros [= _ <-]; by rewrite app_nil_r|]. cbn [negb andb]. set (t := {| lib := l |}).
  replace (if c then [(l, default [] s, u)] else []) with (key_of t) by done.
  intros E. apply outcome_bind_Ret in E as ([ok w1] & E1 & E). apply try_install_spec in E1 as (-> & Et & Ec).
  unfold keys. destruct (resolve Find Base t =? 0); cbn [negb] in E; injection E as _ <-; cbn [with_tasks g_tasks calls]; rewrite Ec, Et.
  - rewrite app_nil_r. unfold pending_keys. rewrite map_app, concat_app. cbn [map concat]. rewrite app_nil_r, <- !app_assoc.
    apply Permutation_app_head, Permutation_app_comm.
  - by rewrite called_keys_app, told_keys, app_assoc.
Qed.

Lemma round_keys mmap Find Base now w w' : Forall (fun t => done_ t = false) (g_tasks w) ->
  worker_round mmap Find Base now w = Ret w' -> keys w ≡ₚ keys w'.
Proof.
  intros Hw E. unfold worker_round in E. apply outcome_bind_Ret in E as ([out w1] & E1 & E). injection E as <-. apply worker_pass_spec in E1 as [-> Ec].
  apply (pass_keys (waiting Find Base now) (round_call Find Base now)); [|done|done].
  intros t Ht. rewrite Forall_forall in Hw. unfold waiting, round_call. rewrite (Hw t) by (by apply list_elem_of_In).
  destruct (expired now t); cbn [negb andb]; [apply told_keys|]. destruct (_ =? 0); [done|apply told_keys].
Qed.

Lemma Cancel_keys l s w n w' : Cancel l s w = (n, w') -> keys w ≡ₚ keys w'.
Proof.
  unfold Cancel. destruct (cancel_pass _ _ _ _) as [[out n1] w1] eqn:E1. intros [= _ <-]. apply cancel_pass_spec in E1 as (-> & _ & _ & Ec).
  apply (pass_keys (fun t => negb (matches l s t)) (fun t => if matches l s t then told DOBBY_WAIT_CANCELLED 0 t else [])); [|done|done].
  intros t _. destruct (matches l s t); cbn [negb]; [apply told_keys|done].
Qed.

Lemma history_open w0 acc w : Forall (fun t => done_ t = false) (g_tasks w0) -> history w0 acc w -> Forall (fun t => done_ t = false) (g_tasks w).
Proof.
  intros H0. induction 1 as [|mmap Find Base acc w l s off uo r o fl tm c u now rc w' _ IH E|mmap Find Base acc w now w' _ IH E|acc w l s n w' _ IH E]; [done| | |].
  - unfold Submit in E. destruct l as [l|]; [|by injection E as <- <-]. destruct (r =? 0); [by injection E as <- <-|].
    apply outcome_bind_Ret in E as ([ok w1] & E1 & E). apply try_install_spec in E1 as (_ & Et & _).
    destruct ok; injection E as <- <-; [by rewrite Et|]. cbn. rewrite Et. apply Forall_app. split; [done|]. by constructor.
  - unfold worker_round in E. apply outcome_bind_Ret in E as ([out w1] & E1 & E). injection E as <-. apply worker_pass_spec in E1 as [-> _].
    cbn. apply Forall_forall. intros t Ht. apply filter_In in Ht as [Ht _]. rewrite Forall_forall in IH. by apply IH.
  - unfold Cancel in E. destruct (cancel_pass _ _ _ _) as [[out n1] w1] eqn:E1. injection E as _ <-. apply cancel_pass_spec in E1 as [-> _].
    cbn. apply Forall_forall. intros t Ht. apply filter_In in Ht as [Ht _]. rewrite Forall_forall in IH. by apply IH.
Qed.

(** C15: No wait-hook is lost and none is reported twice.  From an empty queue, after any sequence of submissions, passes of
    the worker and cancellations, whatever the libraries loaded, the clock and the hooks' outcomes, the accepted
    tasks with a callback are, counted with their multiplicity, those still queued together with those whose callback
    has been called, once each. *)
Theorem waiter_conserves w0 acc w :
  g_tasks w0 = [] -> calls w0 = [] -> history w0 acc w -> acc ≡ₚ pending_keys (g_tasks w) ++ called_keys (calls w).
Proof.
  intros H0 Hc0 H. change (acc ≡ₚ keys w).
  induction H as [|mmap Find Base acc w l s off uo r o fl tm c u now rc w' H IH E|mmap Find Base acc w now w' H IH E|acc w l s n w' H IH E].
  - unfold keys. by rewrite H0, Hc0.
  - rewrite IH. by apply Submit_keys in E.
  - rewrite IH. apply round_keys in E; [done|]. apply (history_open w0 acc w); [by rewrite H0|done].
  - rewrite IH. by apply Cancel_keys in E.
Qed.

(** When nothing resolves a pass returns, and only tells the tasks that have expired. *)
Lemma worker_pass_idle mmap Find Base now tasks : forall w,
  (forall t, t ∈ tasks -> done_ t = false -> expired now t = false -> resolve Find Base t = 0) ->
  exists w', worker_pass mmap Find Base now tasks w = Ret (List.filter (waiting Find Base now) tasks, w') /\ w_engine w' = w_engine w.
Proof.
  induction tasks as [|t tasks IH]; intros w H; cbn [worker_pass List.filter]; [by exists w|].
  assert (Htl : forall t', t' ∈ tasks -> done_ t' = false -> expired now t' = false -> resolve Find Base t' = 0) by (intros; apply H; [by right|done|done]).
  unfold waiting at 1. destruct (done_ t) eqn:Ed; cbn [negb andb]; [by apply IH|]. destruct (expired now t) eqn:Ee; cbn [negb andb].
  - destruct (IH (call_back DOBBY_WAIT_TIMEOUT 0 t w) Htl) as (w' & -> & Hw). by exists w'.
  - unfold try_install. rewrite (H t ltac:(left) Ed Ee). cbn [Z.eqb mbind outcome_bind]. destruct (IH w Htl) as (w' & -> & Hw). by exists w'.
Qed.

(** C40: A pass of the worker.  The tasks that stay are, in order, those that have not expired and whose library or symbol
    still does not resolve; every other task is told, in order, that it timed out or that it was installed at the address
    it resolved to.  A pass in which nothing resolves returns and leaves the hooks alone. *)
Theorem worker_round_waits mmap Find Base now w :
  (forall w', worker_round mmap Find Base now w = Ret w' ->
     g_tasks w' = List.filter (waiting Find Base now) (g_tasks w) /\ calls w' = calls w ++ concat (map (round_call Find Base now) (g_tasks w))) /\
  ((forall t, t ∈ g_tasks w -> done_ t = false -> expired now t = false -> resolve Find Base t = 0) ->
   exists w', worker_round mmap Find Base now w = Ret w' /\ w_engine w' = w_engine w).
Proof.
  unfold worker_round. split.
  - intros w' E. apply outcome_bind_Ret in E as ([out w1] & E1 & E). injection E as <-. by apply worker_pass_spec in E1 as [-> E1].
  - intros H. destruct (worker_pass_idle mmap Find Base now (g_tasks w) w H) as (w' & -> & Hw). cbn [mbind outcome_bind]. by eexists.
Qed.

(** C39: A wait-hook that could not be installed is reported as installed.  When the symbol resolves to a function that is already
    hooked, or the table of hooks is full, Submit returns [DOBBY_WAIT_INSTALLED], the callback is told so, and the task is
    dropped, though the table of hooks is what it was. *)
Theorem submit_hides_failed_hook mmap Find Base l s replace fl tm c u now w :
  replace <> 0 -> Find l (default [] s) <> 0 ->
  is_Some (FindSlot (Find l (default [] s)) (g_slots (w_engine w))) \/ (max_slots <= length (g_slots (w_engine w)))%nat ->
  exists w', Submit mmap Find Base (Some l) s 0 false replace 0 fl tm c u now w = Ret (DOBBY_WAIT_INSTALLED, w') /\
    g_slots (w_engine w') = g_slots (w_engine w) /\ space (w_engine w') = space (w_engine w) /\ g_tasks w' = g_tasks w /\
    calls w' = calls w ++ (if c then [{| c_status := DOBBY_WAIT_INSTALLED; c_lib := l; c_symbol := default [] s; c_resolved := Find l (default [] s); c_user := u |}] else []).
Proof.
  intros Hr Hs Hf. unfold Submit, try_install. rewrite (proj2 (Z.eqb_neq replace 0)) by done. unfold resolve. cbn [use_offset lib symbol t_replace origin].
  rewrite (proj2 (Z.eqb_neq _ 0)) by done.
  assert (E : exists rc, Hook (mmap (w_engine w)) (Find l (default [] s)) replace 0 (w_engine w) = Ret (rc, w_engine w)).
  { unfold Hook. rewrite (proj2 (Z.eqb_neq _ 0)), (proj2 (Z.eqb_neq replace 0)) by done. cbn [orb]. case_bool_decide as Hd; [by eexists|].
    destruct Hf as [Hf|Hf]; [done|]. rewrite (proj2 (Nat.leb_le _ _)) by done. by eexists. }
  destruct E as [rc ->]. cbn [mbind outcome_bind Z.eqb]. eexists. split; [reflexivity|]. by destruct (w_engine w).
Qed.

(** ** The theorems at a concrete history *)

(** One hook of 0x10000; the symbol [1] of every library is there, the symbol [2] is nowhere. *)
Definition sample_waiter : waiter :=
  {| w_engine := after (OpHook (Some 0x30000) 0x10000 0x50000 0x20000) (sample_engine sample_code []); g_tasks := []; calls := [] |}.
Definition sample_find (l s : list Z) : Z := if bool_decide (s = [1]) then 0x10000 else 0.
Definition sample_submit (s : list Z) (u : Z) (w : waiter) : outcome (Z * waiter) :=
  Submit (fun _ => None) sample_find (fun _ => 0) (Some [7]) (Some s) 0 false 0x60000 0 0 100 true u 1000 w.

Lemma submit_hides_failed_hook_witness : exists w', sample_submit [1] 5 sample_waiter = Ret (DOBBY_WAIT_INSTALLED, w') /\
  g_slots (w_engine w') = g_slots (w_engine sample_waiter).
Proof.
  destruct (submit_hides_failed_hook (fun _ => None) sample_find (fun _ => 0) [7] (Some [1]) 0x60000 0 100 true 5 1000 sample_waiter) as (w' & E & H & _);
    [lia|vm_compute; discriminate|left; vm_compute; by eexists|]. exists w'. split; [exact E|exact H].
Defined.

Definition sample_task (u : Z) : WaitTask :=
  {| lib := [7]; symbol := [2]; offset := 0; use_offset := false; t_replace := 0x60000; origin := 0; flags := 0; timeout_ms := 100; cb := true;
     user_data := u; start_ms := 1000; done_ := false |}.
Definition sample_queue : waiter := {| w_engine := w_engine sample_waiter; g_tasks := [sample_task 5; sample_task 6]; calls := [] |}.

Lemma worker_round_waits_witness : exists w', worker_round (fun _ => None) sample_find (fun _ => 0) 1200 sample_queue = Ret w' /\ g_tasks w' = [] /\ length (calls w') = 2%nat.
Proof.
  destruct (worker_round_waits (fun _ => None) sample_find (fun _ => 0) 1200 sample_queue) as [H1 H2].
  destruct H2 as (w' & E & _).
  - intros t Ht _ _. apply elem_of_cons in Ht as [->|Ht]; [reflexivity|]. apply list_elem_of_singleton in Ht as ->. reflexivity.
  - exists w'. destruct (H1 w' E) as [Ht Hc]. split; [exact E|]. rewrite Ht, Hc. split; reflexivity.
Defined.

(** Two submissions of a symbol that does not resolve, then a cancellation. *)
Lemma waiter_conserves_witness : exists w, [([7], [2], 5); ([7], [2], 6)] ≡ₚ pending_keys (g_tasks w) ++ called_keys (calls w) /\ g_tasks w = [].
Proof.
  set (w2 := with_tasks [sample_task 5; sample_task 6] sample_waiter). exists (snd (Cancel [7] None w2)). split; [|reflexivity].
  apply (waiter_conserves sample_waiter); [reflexivity|reflexivity|].
  apply (history_cancel _ _ w2 [7] None 2); [|reflexivity].
  apply (history_submit _ (fun _ => None) sample_find (fun _ => 0) [([7], [2], 5)] (with_tasks [sample_task 5] sample_waiter) (Some [7]) (Some [2]) 0 false 0x60000 0 0 100 true 6 1000 DOBBY_WAIT_PENDING); [|reflexivity].
  apply (history_submit _ (fun _ => None) sample_find (fun _ => 0) [] sample_waiter (Some [7]) (Some [2]) 0 false 0x60000 0 0 100 true 5 1000 DOBBY_WAIT_PENDING); [constructor|reflexivity].
Defined.
