(* ===== verification/V2Breakpoint.v ===== *)
(** * The second engine: software breakpoints (src/breakpoint.cpp)

    A breakpoint replaces a Thumb instruction by BKPT; the handler of SIGTRAP gives the
    registers to a callback, puts the instruction back and returns.  The table is the array of
    the source, with entries past the count kept as they are; a callback may do anything to
    the registers it is given and to the state. *)

From stdpp Require Import gmap.
From S2P Require Import Prelude UtilityMacro CodePatch V2Util V2Memory V2Hooker V2HookTable V2HookerSpec.
#[local] Open Scope Z_scope.
#[local] Open Scope machine_scope.

Record BpRec := {
  addr : Z;
  original : Z;
  bp_cb : Z;
  bp_user : Z;
  active : bool;
}.

Record breakpoints := {
  bp_space : vm;
  g_bps : list BpRec;
  g_bp_count : nat;
  g_handler_installed : bool;
}.
Definition max_bps : nat := 8.
Definition no_bp : BpRec := {| addr := 0; original := 0; bp_cb := 0; bp_user := 0; active := false |}.

(** The registers the kernel saved; R11 and R12 are its [arm_fp] and [arm_ip]. *)
Record mcontext := {
  arm_r : Z -> Z;
  arm_sp : Z;
  arm_lr : Z;
  arm_pc : Z;
  arm_cpsr : Z;
}.
Record DobbyRegContext := {
  named_r : Z -> Z;
  SP : Z;
  LR : Z;
  ctx_pc : Z;
  ctx_cpsr : Z;
}.

Definition set_bp (i : nat) (b : BpRec) (st : breakpoints) : breakpoints :=
  {| bp_space := bp_space st; g_bps := <[i := b]> (g_bps st); g_bp_count := g_bp_count st; g_handler_installed := g_handler_installed st |}.
Definition with_bp_space (v : vm) (st : breakpoints) : breakpoints :=
  {| bp_space := v; g_bps := g_bps st; g_bp_count := g_bp_count st; g_handler_installed := g_handler_installed st |}.
Definition set_active (a : bool) (b : BpRec) : BpRec :=
  {| addr := addr b; original := original b; bp_cb := bp_cb b; bp_user := bp_user b; active := a |}.

(** BKPT #0. *)
Definition bkpt : list Z := [0x00; 0xbe].

(** [sa_ok]: sigaction succeeds. *)
Definition Install (sa_ok : bool) (a cb user : Z) (st : breakpoints) : outcome (Z * breakpoints) :=
  if (a =? 0) || (cb =? 0) then Ret (DOBBY_ERR_INVALID, st)
  else if negb (a mod 2 =? 1) then Ret (DOBBY_ERR_UNSUPPORTED, st)
  else
    let fn := a - 1 in
    if (max_bps <=? g_bp_count st)%nat then Ret (DOBBY_ERR_FAILED, st)
    else if negb (g_handler_installed st) && negb sa_ok then Ret (DOBBY_ERR_FAILED, st)
    else
      orig ← load 2 (bp_space st) fn;
      let b := {| addr := a; original := orig; bp_cb := cb; bp_user := user; active := true |} in
      '(_, v) ← Write fn bkpt (bp_space st);
      Ret (DOBBY_OK, {| bp_space := v; g_bps := <[g_bp_count st := b]> (g_bps st); g_bp_count := S (g_bp_count st); g_handler_installed := true |}).

(** The index of the first record of [a] below the count. *)
Fixpoint find_bp (a : Z) (l : list BpRec) : option nat :=
  match l with
  | [] => None
  | b :: l => if addr b =? a then Some O else S <$> find_bp a l
  end.
Definition bp_index (a : Z) (st : breakpoints) : option nat := find_bp a (take (g_bp_count st) (g_bps st)).

Definition ReArm (a : Z) (st : breakpoints) : outcome (Z * breakpoints) :=
  match bp_index a st with
  | None => Ret (DOBBY_ERR_NOT_FOUND, st)
  | Some i =>
      let fn := a .& Z.lnot 1 in
      let st := set_bp i (set_active true (nth i (g_bps st) no_bp)) st in
      '(_, v) ← Write fn bkpt (bp_space st);
      Ret (DOBBY_OK, with_bp_space v st)
  end.

Definition Remove (a : Z) (st : breakpoints) : outcome (Z * breakpoints) :=
  match bp_index a st with
  | None => Ret (DOBBY_ERR_NOT_FOUND, st)
  | Some i =>
      let fn := a .& Z.lnot 1 in
      '(_, v) ← Write fn (le_bytes 2 (original (nth i (g_bps st) no_bp))) (bp_space st);
      let last := (g_bp_count st - 1)%nat in
      Ret (DOBBY_OK, {| bp_space := v; g_bps := <[i := nth last (g_bps st) no_bp]> (g_bps st); g_bp_count := last; g_handler_installed := g_handler_installed st |})
  end.

(** ** The handler *)

Section Handler.
(** A callback, by its address, with its user pointer. *)
Context (callback : Z -> Z -> DobbyRegContext -> breakpoints -> outcome (DobbyRegContext * breakpoints)).

(** A hit of the breakpoint [i]. *)
Definition bp_hit (i : nat) (b : BpRec) (uc : mcontext) (st : breakpoints) : outcome (mcontext * breakpoints) :=
  let bpaddr := addr b .& Z.lnot 1 in
  let ctx := {| named_r := arm_r uc; SP := arm_sp uc; LR := arm_lr uc; ctx_pc := arm_pc uc; ctx_cpsr := arm_cpsr uc |} in
  '(ctx, st) ← (if bp_cb b =? 0 then Ret (ctx, st) else callback (bp_cb b) (bp_user b) ctx st);
  let uc := {| arm_r := fun r => if (0 <=? r) && (r <=? 12) then named_r ctx r else arm_r uc r;
               arm_sp := arm_sp uc; arm_lr := arm_lr uc; arm_pc := arm_pc uc; arm_cpsr := arm_cpsr uc |} in
  let b := nth i (g_bps st) no_bp in
  v ← store 2 (bp_space st) bpaddr (original b);
  Ret (uc, set_bp i (set_active false b) (with_bp_space v st)).

(** The loop over the records [l] that are left, the first of index [i]. *)
Fixpoint bp_scan (l : list BpRec) (i : nat) (uc : mcontext) (st : breakpoints) : outcome (mcontext * breakpoints) :=
  match l with
  | [] => Ret (uc, st)
  | b :: l =>
      if negb (active b) then bp_scan l (S i) uc st
      else if negb (arm_pc uc =? addr b .& Z.lnot 1) then bp_scan l (S i) uc st
      else bp_hit i b uc st
  end.
Definition bp_handler (uc : mcontext) (st : breakpoints) : outcome (mcontext * breakpoints) :=
  bp_scan (take (g_bp_count st) (g_bps st)) 0 uc st.

End Handler.

(** ** Installing and removing *)

(** The pages and the table are as Install needs them. *)
Record breakable (a : Z) (st : breakpoints) : Prop := {
  bk_odd : a mod 2 = 1;
  bk_range : 1 < a /\ a + 1 <= 2 ^ 32 - 4096;
  bk_array : length (g_bps st) = max_bps;
  bk_room : (g_bp_count st < max_bps)%nat;
  bk_free : find_bp a (take (g_bp_count st) (g_bps st)) = None;
  bk_read : allows (bp_space st) PROT_READ (a - 1) 2;
  bk_granted : vm_answers (bp_space st) = [];
}.

Abbreviation bmem st := (vm_mem (bp_space st)).

(** A granted Write of two bytes. *)
Lemma Write2 a bs v : length bs = 2%nat -> 0 < a -> a + 2 <= 2 ^ 32 - 4096 -> vm_answers v = [] ->
  (forall p, touches a 2 p -> is_Some (vm_prot v !! p)) ->
  exists v', Write a bs v = Ret (0, v') /\ vm_mem v' = patch_mem (vm_mem v) a bs /\ vm_answers v' = [] /\
    (forall p, touches a 2 p -> vm_prot v' !! p = Some RX) /\ (forall p, ~ touches a 2 p -> vm_prot v' !! p = vm_prot v !! p).
Proof.
  intros Hl Ha Hhi Hg Hm. unfold Write. rewrite Hl. apply (Write_from_granted a 2 _ bs v Hg); try done; lia.
Qed.

Lemma Install_ok sa_ok a cb user st : breakable a st -> cb <> 0 -> g_handler_installed st = true \/ sa_ok = true ->
  exists v, Install sa_ok a cb user st = Ret (DOBBY_OK, {| bp_space := v;
      g_bps := <[g_bp_count st := {| addr := a; original := le_val (bytes (bmem st) (a - 1) 2); bp_cb := cb; bp_user := user; active := true |}]> (g_bps st);
      g_bp_count := S (g_bp_count st); g_handler_installed := true |}) /\
    vm_mem v = patch_mem (bmem st) (a - 1) bkpt /\ vm_answers v = [] /\
    (forall p, touches (a - 1) 2 p -> vm_prot v !! p = Some RX) /\ (forall p, ~ touches (a - 1) 2 p -> vm_prot v !! p = vm_prot (bp_space st) !! p).
Proof.
  intros [Hodd Hr Harr Hroom Hfree Hrd Hg] Hcb Hsa. unfold Install. rewrite (proj2 (Z.eqb_neq a 0)), (proj2 (Z.eqb_neq cb 0)), Hodd by lia.
  cbn [orb Z.eqb Pos.eqb negb]. rewrite (proj2 (Nat.leb_gt _ _)) by done.
  assert (E : negb (g_handler_installed st) && negb sa_ok = false) by (destruct Hsa as [-> | ->]; [done|by rewrite andb_false_r]). rewrite E.
  rewrite load_allowed by done. cbn [mbind outcome_bind].
  destruct (Write2 (a - 1) bkpt (bp_space st)) as (v & -> & H); [done|lia|lia|done|by intros p; apply allows_mapped with PROT_READ|].
  cbn [mbind outcome_bind]. by exists v.
Qed.

Lemma find_bp_app a l b : find_bp a l = None -> addr b = a -> find_bp a (l ++ [b]) = Some (length l).
Proof.
  intros H <-. induction l as [|s l IH]; cbn [find_bp app length] in *; [by rewrite Z.eqb_refl|].
  destruct (addr s =? addr b); [done|]. rewrite IH; [done|]. by destruct (find_bp (addr b) l).
Qed.

Lemma take_insert_last {A} (l : list A) n x : (n < length l)%nat -> take (S n) (<[n := x]> l) = take n l ++ [x].
Proof.
  intros H. rewrite (take_S_r _ n x) by (by apply list_lookup_insert_eq). by rewrite take_insert_ge.
Qed.

(** Round trip.  Install then Remove of a breakpoint, with the kernel granting every mprotect, gives back every byte of
    memory and the number of breakpoints, and the protection of every page if the instruction's was read and execute. *)
Theorem breakpoint_roundtrip sa_ok a cb user st :
  breakable a st -> cb <> 0 -> g_handler_installed st = true \/ sa_ok = true ->
  (forall b, is_byte (bmem st b)) -> (forall p, touches (a - 1) 2 p -> vm_prot (bp_space st) !! p = Some RX) ->
  exists st' st'', Install sa_ok a cb user st = Ret (DOBBY_OK, st') /\ Remove a st' = Ret (DOBBY_OK, st'') /\
    bytes (bmem st') (a - 1) 2 = bkpt /\ (forall b, bmem st'' b = bmem st b) /\
    g_bp_count st'' = g_bp_count st /\ (forall p, vm_prot (bp_space st'') !! p = vm_prot (bp_space st) !! p).
Proof.
  intros Hbk Hcb Hsa Hby Hrx. destruct (Install_ok sa_ok a cb user st Hbk Hcb Hsa) as (v & -> & Hm & Hg & Hin & Hout).
  destruct Hbk as [Hodd Hr Harr Hroom Hfree Hrd _]. match goal with |- exists _ _, Ret (_, ?x) = _ /\ _ => exists x end. unfold Remove, bp_index. cbn [g_bp_count g_bps bp_space].
  rewrite take_insert_last by lia. rewrite find_bp_app by done. rewrite length_take, Harr. replace (g_bp_count st `min` max_bps)%nat with (g_bp_count st) by lia.
  set (b := {| addr := a |}). assert (En : nth (g_bp_count st) (<[g_bp_count st := b]> (g_bps st)) no_bp = b).
  { apply nth_lookup_Some with (d := no_bp). apply list_lookup_insert_eq. lia. }
  rewrite En. cbn [original b]. rewrite clear_low, Hodd.
  replace (le_bytes 2 _) with (bytes (bmem st) (a - 1) 2) by (symmetry; apply (le_bytes_val (bytes (bmem st) (a - 1) 2)); apply Forall_forall; intros y Hy; apply in_map_iff in Hy as (i & <- & _); apply Hby).
  destruct (Write2 (a - 1) (bytes (bmem st) (a - 1) 2) v) as (v' & -> & Hm' & _ & Hin' & Hout'); [apply length_bytes|lia|lia|done|intros p Hp; by rewrite (Hin p Hp)|].
  cbn [mbind outcome_bind]. eexists. split; [reflexivity|]. split; [reflexivity|]. cbn [g_bp_count g_bps bp_space].
  split; [rewrite Hm; apply (bytes_patch (bmem st) (a - 1) bkpt)|]. split; [|split; [lia|]].
  - intros y. rewrite Hm', Hm. apply (patch_mem_undo 12 ltac:(lia) (bmem st) (a - 1) bkpt).
  - intros p. destruct (touches_dec (a - 1) 2 p eq_refl) as [Hp|Hp]; [by rewrite Hin', Hrx|by rewrite Hout', Hout].
Qed.

(** C37: Hitting a breakpoint crashes the process.  Install leaves the page readable and executable but not writable; the handler
    stores the original instruction into it directly: whatever the registers, and whatever the callback does to them, the
    store faults. *)
Theorem breakpoint_hit_faults sa_ok a cb user st callback uc :
  breakable a st -> cb <> 0 -> g_handler_installed st = true \/ sa_ok = true ->
  Forall (fun b => active b = false \/ addr b .& Z.lnot 1 <> a - 1) (take (g_bp_count st) (g_bps st)) -> arm_pc uc = a - 1 ->
  (forall c u ctx st0, exists ctx', callback c u ctx st0 = Ret (ctx', st0)) ->
  exists st', Install sa_ok a cb user st = Ret (DOBBY_OK, st') /\ bp_handler callback uc st' = UB.
Proof.
  intros Hbk Hcb Hsa Hother Hpc Hcall. destruct (Install_ok sa_ok a cb user st Hbk Hcb Hsa) as (v & -> & Hm & Hg & Hin & Hout).
  eexists. split; [reflexivity|]. unfold bp_handler. cbn [g_bp_count g_bps]. rewrite take_insert_last by (rewrite (bk_array _ _ Hbk); apply (bk_room _ _ Hbk)).
  set (st' := {| bp_space := v |}). set (b := {| addr := a |}). generalize 0%nat. revert Hother. generalize (take (g_bp_count st) (g_bps st)).
  induction 1 as [|b0 l Hb0 _ IH]; intros i; cbn [bp_scan app].
  - cbn [active addr b negb]. rewrite clear_low, (bk_odd _ _ Hbk), Hpc, Z.eqb_refl. cbn [negb]. unfold bp_hit. cbn [bp_cb bp_user addr b].
    rewrite (proj2 (Z.eqb_neq cb 0)) by done. destruct (Hcall cb user {| named_r := arm_r uc; SP := arm_sp uc; LR := arm_lr uc; ctx_pc := arm_pc uc; ctx_cpsr := arm_cpsr uc |} st') as [ctx' ->].
    cbn [mbind outcome_bind]. rewrite clear_low, (bk_odd _ _ Hbk). unfold store, memcpy_to, bytes_have. rewrite length_le_bytes. cbn [seq forallb].
    assert (E : page_has (bp_space st') PROT_WRITE (ALIGN_FLOOR (a - 1 + Z.of_nat 0) page) = false).
    { unfold page_has. cbn [bp_space st']. fold (pg (a - 1 + Z.of_nat 0)). rewrite (Hin (pg (a - 1 + Z.of_nat 0))); [done|]. exists (a - 1). split; [lia|f_equal; lia]. }
    by rewrite E.
  - destruct Hb0 as [->|Hne]; [apply IH|]. destruct (active b0); [|apply IH]. cbn [negb]. rewrite Hpc, (proj2 (Z.eqb_neq _ _)) by (by apply not_eq_sym). apply IH.
Qed.

(** ** The theorems at a concrete process *)

Definition sample_bps : breakpoints :=
  {| bp_space := sample_space sample_code []; g_bps := replicate 8 no_bp; g_bp_count := 0; g_handler_installed := false |}.

Lemma sample_breakable : breakable 0x10003 sample_bps.
Proof.
  split; try done; [cbn; unfold max_bps; lia|]. by apply (sample_allows _ [] RX 0x10000).
Qed.

Lemma breakpoint_roundtrip_witness : exists st' st'', Install true 0x10003 0x70000 9 sample_bps = Ret (DOBBY_OK, st') /\
  Remove 0x10003 st' = Ret (DOBBY_OK, st'') /\ bytes (bmem st') 0x10002 2 = bkpt /\ bmem st'' 0x10002 = 0x2d.
Proof.
  destruct (breakpoint_roundtrip true 0x10003 0x70000 9 sample_bps) as (st' & st'' & E1 & E2 & Hb & Hm & _).
  - exact sample_breakable.
  - lia.
  - by right.
  - intros b. cbn. unfold sample_code. destruct (Z.to_nat (b - 0x10000)) as [|n]; [unfold is_byte; lia|]. do 15 (destruct n as [|n]; [cbn; unfold is_byte; lia|]). destruct n; cbn; unfold is_byte; lia.
  - intros p (b & Hb & ->). by rewrite (pg_unique 0x10000 b) by (done || lia).
  - exists st', st''. split; [exact E1|]. split; [exact E2|]. split; [exact Hb|]. rewrite Hm. reflexivity.
Defined.

Lemma breakpoint_hit_faults_witness : exists st', Install true 0x10003 0x70000 9 sample_bps = Ret (DOBBY_OK, st') /\
  bp_handler (fun _ _ ctx st => Ret (ctx, st)) {| arm_r := fun _ => 0; arm_sp := 0x20800; arm_lr := 0; arm_pc := 0x10002; arm_cpsr := 0x30 |} st' = UB.
Proof.
  apply (breakpoint_hit_faults true 0x10003 0x70000 9 sample_bps);
    [exact sample_breakable|lia|by right|constructor|reflexivity|intros c u ctx st0; by exists ctx].
Defined.
