(* ===== verification/V2Guard.v ===== *)
(** * The second engine: guarded slots and instrumentation (src/guard_slot.cpp, src/instrument.cpp)

    A guard is a word of memory and the value it is to have: every second the worker puts
    the value back where it has changed.  An intercept is an inline hook with a record of
    its callback; the stub the caller gets is the address of the record, here its index
    in the array. *)

From stdpp Require Import gmap.
From S2P Require Import Prelude CodePatch V2Util V2Memory V2Hooker V2HookTable V2HookerSpec.
#[local] Open Scope Z_scope.
#[local] Open Scope machine_scope.

(** ** Guards *)

Record GuardSlotRec := {
  g_addr : Z;
  expected : Z;
  enabled : bool;
}.
#[export] Instance GuardSlotRec_eq_dec : EqDecision GuardSlotRec.
Proof. solve_decision. Defined.

Definition guard_Add (slot expected_value : Z) (g_guards : list GuardSlotRec) : Z * list GuardSlotRec :=
  (DOBBY_OK, g_guards ++ [{| g_addr := slot; expected := expected_value; enabled := true |}]).

(** The first guard of the slot is erased. *)
Fixpoint guard_Remove (slot : Z) (g_guards : list GuardSlotRec) : Z * list GuardSlotRec :=
  match g_guards with
  | [] => (DOBBY_ERR_NOT_FOUND, [])
  | r :: rest => if g_addr r =? slot then (DOBBY_OK, rest) else let '(rc, rest) := guard_Remove slot rest in (rc, r :: rest)
  end.

(** One turn of the worker. *)
Fixpoint guard_round (g_guards : list GuardSlotRec) (v : vm) : outcome vm :=
  match g_guards with
  | [] => Ret v
  | r :: rest =>
      if negb (enabled r) then guard_round rest v
      else
        cur ← load 4 v (g_addr r);
        v ← (if cur =? expected r then Ret v else store 4 v (g_addr r) (expected r));
        guard_round rest v
  end.

(** The values are words, and two slots are the same guard or do not overlap. *)
Record guardable (l : list GuardSlotRec) : Prop := {
  gd_word : forall r, r ∈ l -> 0 <= expected r < 2 ^ 32;
  gd_apart : forall r r', r ∈ l -> r' ∈ l -> r = r' \/ g_addr r + 4 <= g_addr r' \/ g_addr r' + 4 <= g_addr r;
}.

Definition holds (v : vm) (r : GuardSlotRec) : Prop := le_val (bytes (vm_mem v) (g_addr r) 4) = expected r.

(** The worker can deal with the slot: it can be read, and it holds its value or can be written. *)
Definition serviceable (v : vm) (r : GuardSlotRec) : bool :=
  negb (enabled r) ||
  bytes_have page v PROT_READ (g_addr r) 4 && ((le_val (bytes (vm_mem v) (g_addr r) 4) =? expected r) || bytes_have page v PROT_WRITE (g_addr r) 4).

Lemma guardable_cons r l : guardable (r :: l) -> guardable l.
Proof. intros [H1 H2]. split; [intros; apply H1; by right|intros; apply H2; by right]. Qed.

Lemma bytes_have_inv v prot a n : bytes_have page v prot a n = true -> allows v prot a (Z.of_nat n).
Proof.
  unfold bytes_have. rewrite forallb_forall. intros H b Hb. specialize (H (Z.to_nat (b - a))). rewrite Z2Nat.id in H by lia.
  replace (a + (b - a)) with b in H by lia. apply H, in_seq. lia.
Qed.

(** One guard. *)
Definition guard_slot (r : GuardSlotRec) (v : vm) : outcome vm :=
  cur ← load 4 v (g_addr r); if cur =? expected r then Ret v else store 4 v (g_addr r) (expected r).

Lemma guard_round_cons r l v : enabled r = true -> guard_round (r :: l) v = (v ← guard_slot r v; guard_round l v).
Proof. intros E. cbn [guard_round]. rewrite E. cbn [negb]. unfold guard_slot. by destruct (load 4 v (g_addr r)). Qed.

Lemma guard_slot_ok r v : enabled r = true -> serviceable v r = true -> 0 <= expected r < 2 ^ 32 ->
  exists m, guard_slot r v = Ret (set_mem v m) /\
    holds (set_mem v m) r /\ (forall b, ~ (g_addr r <= b < g_addr r + 4) -> m b = vm_mem v b) /\ (holds v r -> m = vm_mem v).
Proof.
  unfold serviceable, guard_slot. intros ->. cbn [negb orb]. intros [Hr Hw]%andb_true_iff He. rewrite load_allowed by (by apply bytes_have_inv in Hr). cbn [mbind outcome_bind].
  destruct (Z.eqb_spec (le_val (bytes (vm_mem v) (g_addr r) 4)) (expected r)) as [E|E].
  - exists (vm_mem v). split; [by destruct v|]. split; [done|]. split; [done|done].
  - rewrite store_allowed by (by apply bytes_have_inv in Hw). eexists. split; [reflexivity|]. split; [|split; [|done]].
    + unfold holds. cbn [vm_mem set_mem]. pose proof (bytes_patch (vm_mem v) (g_addr r) (le_bytes 4 (expected r))) as Hb. rewrite length_le_bytes in Hb.
      rewrite Hb, le_val_bytes. apply Z.mod_small. cbn. lia.
    + intros b Hb. apply patch_out. rewrite length_le_bytes. lia.
Qed.

Lemma guard_slot_faults r v : serviceable v r = false -> guard_slot r v = UB.
Proof.
  unfold serviceable, guard_slot, load, store, memcpy_from, memcpy_to. rewrite length_le_bytes. destruct (enabled r); [|done]. cbn [negb orb].
  destruct (bytes_have page v PROT_READ _ 4); [|done]. cbn [andb mbind outcome_bind]. fold (bytes (vm_mem v) (g_addr r) 4).
  destruct (_ =? expected r); [done|]. cbn [orb]. by intros ->.
Qed.

(** Dealing with one guard leaves the others as they were. *)
Lemma serviceable_others r l v m : guardable (r :: l) -> serviceable v r = true -> holds (set_mem v m) r ->
  (forall b, ~ (g_addr r <= b < g_addr r + 4) -> m b = vm_mem v b) ->
  forallb (serviceable (set_mem v m)) l = forallb (serviceable v) l.
Proof.
  intros [_ Hap] Hs Hh Ho.
  assert (Hr : forall r', r' ∈ l -> serviceable (set_mem v m) r' = serviceable v r').
  { intros r' Hr'. destruct (Hap r r' ltac:(left) ltac:(by right)) as [<-|Hd].
    - rewrite Hs. unfold serviceable in *. destruct (enabled r); [|done]. cbn [negb orb] in *. apply andb_true_iff in Hs as [Hr _].
      apply andb_true_iff. split; [exact Hr|]. unfold holds in Hh. by rewrite Hh, Z.eqb_refl.
    - unfold serviceable. cbn [vm_mem set_mem]. rewrite (bytes_ext (vm_mem v) m) by (intros b Hb; apply Ho; lia). done. }
  revert Hr. clear. induction l as [|x l IH]; intros H; [done|]. cbn [forallb]. rewrite H by left. f_equal. apply IH. intros r' Hr'. apply H. by right.
Qed.

Lemma guard_round_spec l : forall v, guardable l -> forallb (serviceable v) l = true -> exists m, guard_round l v = Ret (set_mem v m) /\
  (forall r, r ∈ l -> enabled r = true -> holds (set_mem v m) r) /\
  (forall b, (forall r, r ∈ l -> enabled r = true -> ~ (g_addr r <= b < g_addr r + 4)) -> m b = vm_mem v b) /\
  ((forall r, r ∈ l -> enabled r = true -> holds v r) -> m = vm_mem v).
Proof.
  induction l as [|r l IH]; intros v Hg Hs.
  { exists (vm_mem v). split; [by destruct v|]. split; [intros r Hr; by apply elem_of_nil in Hr|done]. }
  pose proof (guardable_cons _ _ Hg) as Hl. cbn [forallb] in Hs. apply andb_true_iff in Hs as [H1 H2]. pose proof Hg as [Hwd Hap].
  destruct (enabled r) eqn:En.
  - destruct (guard_slot_ok r v En H1 (Hwd r ltac:(left))) as (m1 & E1 & Hh & Ho & Hi). rewrite guard_round_cons, E1 by done. cbn [mbind outcome_bind].
    destruct (IH (set_mem v m1) Hl) as (m & E & Hall & Hoth & Hidle); [by rewrite (serviceable_others r)|]. exists m. split; [exact E|]. split; [|split].
    + intros r' Hr' Ee. destruct (decide (r' ∈ l)) as [Hin|Hout]; [by apply Hall|].
      apply elem_of_cons in Hr' as [->|Hr']; [|done]. unfold holds in *. rewrite <- Hh. f_equal. apply bytes_ext. intros b Hb. apply Hoth.
      intros r2 Hr2 _. destruct (Hap r r2 ltac:(left) ltac:(by right)) as [->|Hd]; [done|lia].
    + intros b Hb. rewrite Hoth by (intros r2 Hr2; apply Hb; by right). apply Ho. apply Hb; [left|done].
    + intros Hall'. specialize (Hi (Hall' r ltac:(left) En)). rewrite Hidle; [exact Hi|]. intros r2 Hr2 Ee. unfold holds. cbn [set_mem vm_mem]. rewrite Hi. apply Hall'; [by right|done].
  - cbn [guard_round]. rewrite En. cbn [negb]. destruct (IH v Hl H2) as (m & E & Hall & Hoth & Hidle). exists m. split; [done|]. split; [|split].
    + intros r' Hr' Ee. apply elem_of_cons in Hr' as [->|Hr']; [congruence|by apply Hall].
    + intros b Hb. apply Hoth. intros r2 Hr2. apply Hb. by right.
    + intros H. apply Hidle. intros r2 Hr2. apply H. by right.
Qed.

Lemma guard_round_faults l : forall v, guardable l -> forallb (serviceable v) l = false -> guard_round l v = UB.
Proof.
  induction l as [|r l IH]; intros v Hg Hs; [done|]. pose proof (guardable_cons _ _ Hg) as Hl. cbn [forallb] in Hs.
  destruct (enabled r) eqn:En.
  - rewrite guard_round_cons by done. destruct (serviceable v r) eqn:H1; [|by rewrite guard_slot_faults]. cbn [andb] in Hs.
    destruct (guard_slot_ok r v En H1 (gd_word _ Hg r ltac:(left))) as (m1 & -> & Hh & Ho & _). cbn [mbind outcome_bind].
    apply IH; [done|]. by rewrite (serviceable_others r).
  - cbn [guard_round]. rewrite En. cbn [negb]. apply IH; [done|]. unfold serviceable at 1 in Hs. by rewrite En in Hs.
Qed.

(** C24: A turn of the guard worker, over guards whose slots do not overlap.  If every enabled slot can be read, and those
    that have lost their value can be written, the turn returns, after it every enabled slot holds the value it is to have, no
    other byte of memory and no protection has changed, and a second turn changes nothing.  Otherwise the worker faults:
    it does not open the page of a slot, so a slot on a page without write permission, such as the head of a function,
    ends the process as soon as it has changed. *)
Theorem guard_round_restores l v : guardable l ->
  if forallb (serviceable v) l then
    exists v', guard_round l v = Ret v' /\
      (forall r, r ∈ l -> enabled r = true -> holds v' r) /\ vm_prot v' = vm_prot v /\
      (forall b, (forall r, r ∈ l -> enabled r = true -> ~ (g_addr r <= b < g_addr r + 4)) -> vm_mem v' b = vm_mem v b) /\
      guard_round l v' = Ret v'
  else guard_round l v = UB.
Proof.
  intros Hg. destruct (forallb (serviceable v) l) eqn:Hs; [|by apply guard_round_faults].
  destruct (guard_round_spec l v Hg Hs) as (m & E & Hall & Hoth & _). exists (set_mem v m). split; [done|]. split; [done|]. split; [done|].
  split; [exact Hoth|]. destruct (guard_round_spec l (set_mem v m) Hg) as (m' & E' & _ & _ & Hidle).
  - apply forallb_forall. intros r Hr. rewrite forallb_forall in Hs. specialize (Hs r Hr). unfold serviceable in *. destruct (enabled r) eqn:En; [|done].
    cbn [negb orb] in *. apply andb_true_iff in Hs as [Hs _]. apply list_elem_of_In in Hr. specialize (Hall r Hr En). unfold holds in Hall.
    apply andb_true_iff. split; [exact Hs|]. by rewrite Hall, Z.eqb_refl.
  - rewrite E', Hidle by exact Hall. done.
Qed.

(** ** Instrumentation *)

Record InstrCtx := {
  interceptor : Z;
  i_user : Z;
  i_flags : Z;
  hit_count : Z;
  skip_count : Z;
}.
Definition max_instr : nat := 32.

Record instruments := {
  i_engine : engine;
  g_instr : list InstrCtx;
}.

(** [pre_stub_entry]: the counter of the record and the arguments the callback leaves. *)
Definition pre_stub_entry (callback : Z -> Z -> list Z -> list Z) (ic : InstrCtx) (args : list Z) : InstrCtx * list Z :=
  ({| interceptor := interceptor ic; i_user := i_user ic; i_flags := i_flags ic;
      hit_count := if u64 (hit_count ic + 1) =? 0 then hit_count ic else u64 (hit_count ic + 1); skip_count := skip_count ic |},
   take 4 (callback (interceptor ic) (i_user ic) args)).

(** [InterceptAddr] in an initialised library: the stub, [None] for null.  [entry] is what [dobby_pre_dispatch_entry] returns. *)
Definition InterceptAddr (mm : option Z) (entry a f user flags : Z) (st : instruments) : outcome (option nat * instruments) :=
  if (a =? 0) || (f =? 0) then Ret (None, st)
  else if (max_instr <=? length (g_instr st))%nat then Ret (None, st)
  else
    let ic := {| interceptor := f; i_user := user; i_flags := flags; hit_count := 0; skip_count := 0 |} in
    '(rc, e) ← Hook mm a entry 0 (i_engine st);
    if negb (rc =? DOBBY_OK) then Ret (None, {| i_engine := e; g_instr := g_instr st |})
    else Ret (Some (length (g_instr st)), {| i_engine := e; g_instr := g_instr st ++ [ic] |}).

Definition Unintercept (stub : nat) (st : instruments) : Z * instruments :=
  if (stub <? length (g_instr st))%nat then (DOBBY_OK, {| i_engine := i_engine st; g_instr := swap_remove stub (g_instr st) |})
  else (DOBBY_ERR_NOT_FOUND, st).

Definition StatsGet (stub : nat) (st : instruments) : option (Z * Z) := (fun ic => (hit_count ic, skip_count ic)) <$> g_instr st !! stub.

(** [Patch]: the return value, the bytes saved in the caller's buffer if it gave one, and the address space. *)
Definition Patch (a : Z) (patch : list Z) (backup : bool) (v : vm) : outcome (Z * list Z * vm) :=
  saved ← (if backup then memcpy_from page v a (length patch) else Ret []);
  '(rc, v) ← Write a patch v;
  Ret (rc, saved, v).
Definition PatchRestore (a : Z) (original : list Z) (v : vm) : outcome (Z * vm) := Write a original v.

(** Unintercept does not remove the intercept and confuses the others.  It returns [DOBBY_OK], but the hook stays in place;
    and, as the last record moves into the freed place while the caller's stub is the old address, the stub of the last
    intercept is no longer known, and the stub that was removed stands for the last intercept. *)
Theorem unintercept_confuses stub c st :
  (S stub < length (g_instr st))%nat -> g_instr st !! (length (g_instr st) - 1)%nat = Some c ->
  exists st', Unintercept stub st = (DOBBY_OK, st') /\ i_engine st' = i_engine st /\
    StatsGet (length (g_instr st) - 1) st' = None /\ fst (Unintercept (length (g_instr st) - 1) st') = DOBBY_ERR_NOT_FOUND /\
    StatsGet stub st' = Some (hit_count c, skip_count c).
Proof.
  intros Hs Hc. unfold Unintercept. rewrite (proj2 (Nat.ltb_lt _ _)) by lia. eexists. split; [reflexivity|]. split; [done|].
  assert (Hl : length (swap_remove stub (g_instr st)) = (length (g_instr st) - 1)%nat).
  { unfold swap_remove. rewrite Hc, length_take, length_insert. lia. }
  unfold StatsGet. cbn [g_instr]. split; [|split].
  - rewrite lookup_ge_None_2; [done|]. lia.
  - rewrite (proj2 (Nat.ltb_ge _ _)) by lia. done.
  - unfold swap_remove. rewrite Hc, lookup_take_lt, list_lookup_insert_eq by lia. done.
Qed.

(** Round trip of a static patch.  With the kernel granting every mprotect, Patch puts the bytes in place and saves those
    that were there, and PatchRestore of the saved bytes gives back every byte of memory, and the protection of every page if the
    patched ones were read and execute. *)
Theorem patch_roundtrip a patch v :
  (0 < length patch)%nat -> 0 <= a -> a + Z.of_nat (length patch) <= 2 ^ 32 - 4096 -> vm_answers v = [] ->
  (forall p, touches a (Z.of_nat (length patch)) p -> vm_prot v !! p = Some RX) ->
  exists saved v' v'', Patch a patch true v = Ret (0, saved, v') /\ PatchRestore a saved v' = Ret (0, v'') /\
    bytes (vm_mem v') a (length patch) = patch /\ (forall b, vm_mem v'' b = vm_mem v b) /\ (forall p, vm_prot v'' !! p = vm_prot v !! p).
Proof.
  intros Hn Ha Hhi Hg Hrx. unfold Patch, PatchRestore. set (n := length patch) in *.
  assert (Hrd : allows v PROT_READ a (Z.of_nat n)) by (intros b Hb; unfold page_has; rewrite Hrx; [done|by exists b]).
  rewrite memcpy_from_ok by done. cbn [mbind outcome_bind]. set (saved := bytes (vm_mem v) a n). assert (Hl : length saved = n) by apply length_bytes.
  unfold Write. fold n. destruct (Write_from_granted a n (fun _ => Ret patch) patch v Hg Ha Hn Hhi eq_refl) as (v1 & -> & Hm1 & Hg1 & Hin1 & Hout1);
    [intros p Hp; by rewrite Hrx|done|]. cbn [mbind outcome_bind]. exists saved, v1. rewrite Hl.
  destruct (Write_from_granted a n (fun _ => Ret saved) saved v1 Hg1 Ha Hn Hhi Hl) as (v2 & -> & Hm2 & _ & Hin2 & Hout2);
    [intros p Hp; by rewrite Hin1|done|]. exists v2. split; [done|]. split; [done|]. split; [rewrite Hm1; apply bytes_patch|]. split.
  - intros b. rewrite Hm2, Hm1. apply (patch_mem_undo 12 ltac:(lia) (vm_mem v) a patch).
  - intros p. destruct (touches_dec a (Z.of_nat n) p ltac:(lia)) as [Hp|Hp]; [by rewrite Hin2, Hrx|by rewrite Hout2, Hout1].
Qed.

(** ** The theorems at a concrete process *)

Definition sample_guards : list GuardSlotRec := [{| g_addr := 0x20000; expected := 0x1234; enabled := true |}; {| g_addr := 0x20004; expected := 0x5678; enabled := true |}].

Lemma sample_guards_ok : guardable sample_guards.
Proof.
  split.
  - intros r Hr. apply elem_of_cons in Hr as [->|Hr]; [|apply list_elem_of_singleton in Hr as ->]; cbn; lia.
  - intros r r' Hr Hr'. apply elem_of_cons in Hr as [->|Hr]; [|apply list_elem_of_singleton in Hr as ->];
      (apply elem_of_cons in Hr' as [->|Hr']; [|apply list_elem_of_singleton in Hr' as ->]); cbn; first [by left|right; lia].
Qed.

(** Two slots on a data page; and a guard of the head of a function. *)
Lemma guard_round_restores_witness :
  (exists v', guard_round sample_guards (sample_space sample_code []) = Ret v' /\
     holds v' {| g_addr := 0x20004; expected := 0x5678; enabled := true |}) /\
  guard_round [{| g_addr := 0x10000; expected := 0x1234; enabled := true |}] (sample_space sample_code []) = UB.
Proof.
  split.
  - destruct (guard_round_restores sample_guards (sample_space sample_code []) sample_guards_ok) as (v' & E & H & _).
    exists v'. split; [exact E|]. apply H; [right; left|reflexivity].
  - assert (Hg : guardable [{| g_addr := 0x10000; expected := 0x1234; enabled := true |}]).
    { split; [intros r ->%list_elem_of_singleton; cbn; lia|]. intros r r' ->%list_elem_of_singleton ->%list_elem_of_singleton. by left. }
    exact (guard_round_restores _ (sample_space sample_code []) Hg).
Defined.

Definition sample_ctx (h : Z) : InstrCtx := {| interceptor := 0x70000; i_user := h; i_flags := 0; hit_count := h; skip_count := 0 |}.

Lemma unintercept_confuses_witness : exists st',
  Unintercept 0 {| i_engine := sample_engine sample_code []; g_instr := [sample_ctx 3; sample_ctx 4; sample_ctx 5] |} = (DOBBY_OK, st') /\
  StatsGet 2 st' = None /\ StatsGet 0 st' = Some (5, 0).
Proof.
  destruct (unintercept_confuses 0 (sample_ctx 5) {| i_engine := sample_engine sample_code []; g_instr := [sample_ctx 3; sample_ctx 4; sample_ctx 5] |})
    as (st' & E & _ & H1 & _ & H2); [cbn; lia|reflexivity|]. exists st'. split; [exact E|]. split; [exact H1|exact H2].
Defined.

Lemma patch_roundtrip_witness : exists saved v' v'', Patch 0x10004 [0x00; 0xbf; 0x00; 0xbf] true (sample_space sample_code []) = Ret (0, saved, v') /\
  PatchRestore 0x10004 saved v' = Ret (0, v'') /\ vm_mem v'' 0x10006 = 0xa0.
Proof.
  destruct (patch_roundtrip 0x10004 [0x00; 0xbf; 0x00; 0xbf] (sample_space sample_code [])) as (saved & v' & v'' & E1 & E2 & _ & H & _).
  - cbn. lia.
  - lia.
  - cbn. lia.
  - reflexivity.
  - intros p (b & Hb & ->). cbn in Hb. by rewrite (pg_unique 0x10000 b) by (done || lia).
  - exists saved, v', v''. split; [exact E1|]. split; [exact E2|]. rewrite H. reflexivity.
Defined.
