(* ===== verification/V2Plt.v ===== *)
(** * The second engine: import-table hooks (src/plt_hooker.cpp, src/plt_regex.cpp, src/initarray.cpp, src/symbols.cpp)

    A PLT hook is a library, a symbol and a replacement; the worker finds the library among
    the mappings of the process, reads its ELF headers and dynamic section in memory, and
    stores the replacement into the slot of every relocation of the symbol.  The
    mappings are a list of start addresses and file names, as the lines of
    /proc/self/maps give them; the regular expressions of the C library are an
    argument.  A C string is the list of its bytes without the final zero. *)

From stdpp Require Import gmap.
From S2P Require Import Prelude CodePatch V2Util V2Memory V2Hooker V2HookTable V2HookerSpec.
#[local] Open Scope Z_scope.
#[local] Open Scope machine_scope.

(** ** ELF in memory *)

Definition PT_DYNAMIC : Z := 2.
Definition DT_NULL : Z := 0.
Definition DT_PLTRELSZ : Z := 2.
Definition DT_STRTAB : Z := 5.
Definition DT_SYMTAB : Z := 6.
Definition DT_REL : Z := 17.
Definition DT_RELSZ : Z := 18.
Definition DT_JMPREL : Z := 23.
Definition DT_INIT_ARRAY : Z := 25.
Definition DT_INIT_ARRAYSZ : Z := 27.

Record Elf32_Ehdr := {
  e_ident0 : Z;
  e_phoff : Z;
  e_phentsize : Z;
  e_phnum : Z;
}.
Definition field (bs : list Z) (off n : nat) : Z := le_val (take n (drop off bs)).
Definition read_ehdr (base : Z) (v : vm) : outcome Elf32_Ehdr :=
  bs ← memcpy_from page v base 52;
  Ret {| e_ident0 := field bs 0 1; e_phoff := field bs 28 4; e_phentsize := field bs 42 2; e_phnum := field bs 44 2 |}.

(** The loop over the program headers: address and size of the dynamic section, (0, 0) if there is none. *)
Fixpoint find_dynamic (n : nat) (i base : Z) (eh : Elf32_Ehdr) (v : vm) : outcome (Z * Z) :=
  match n with
  | O => Ret (0, 0)
  | S n =>
      ph ← memcpy_from page v (u32 (base + e_phoff eh + i * e_phentsize eh)) 32;
      if field ph 0 4 =? PT_DYNAMIC then Ret (u32 (base + field ph 8 4), field ph 20 4)
      else find_dynamic n (i + 1) base eh v
  end.

(** The loop over the dynamic section: the last value of each tag of [wanted] before DT_NULL, 0 for a tag that is absent. *)
Fixpoint read_dynamic (n : nat) (d : Z) (wanted : list Z) (f : Z -> Z) (v : vm) : outcome (Z -> Z) :=
  match n with
  | O => Ret f
  | S n =>
      tag ← load 4 v d;
      if tag =? DT_NULL then Ret f
      else if bool_decide (tag ∈ wanted) then
        val ← load 4 v (d + 4);
        read_dynamic n (d + 8) wanted (fun t => if t =? tag then val else f t) v
      else read_dynamic n (d + 8) wanted f v
  end.
Definition dynamic_tags (dyn dynsz : Z) (wanted : list Z) (v : vm) : outcome (Z -> Z) :=
  read_dynamic (Z.to_nat (dynsz / 8)) dyn wanted (fun _ => 0) v.

(** [strcmp(a, s) == 0]. *)
Fixpoint cstr_eq (a : Z) (s : list Z) (v : vm) : outcome bool :=
  c ← load 1 v a;
  match s with
  | [] => Ret (c =? 0)
  | x :: s => if c =? x then cstr_eq (a + 1) s v else Ret false
  end.

(** [strstr(s, needle) != NULL]. *)
Fixpoint strstr (s needle : list Z) : bool :=
  bool_decide (take (length needle) s = needle) || match s with [] => false | _ :: s => strstr s needle end.

(** ** Relocations *)

(** The body of a match: [*origin] gets the slot's value if it is still null, the slot gets [replace]. *)
Definition replace_slot (slot origin replace : Z) (v : vm) : outcome vm :=
  v ← (if origin =? 0 then Ret v
       else
         o ← load 4 v origin;
         if o =? 0 then cur ← load 4 v slot; store 4 v origin cur else Ret v);
  store 4 v slot replace.

(** The lambda [scan] from entry [j] on, [n] entries: how many slots were replaced. *)
Fixpoint scan_loop (n : nat) (rp j symtab strtab : Z) (sym : list Z) (origin replace : Z) (v : vm) : outcome (Z * vm) :=
  match n with
  | O => Ret (0, v)
  | S n =>
      info ← load 4 v (rp + 8 * j + 4);
      let idx := info >> 8 in
      if idx =? 0 then scan_loop n rp (j + 1) symtab strtab sym origin replace v
      else
        sy ← memcpy_from page v (u32 (symtab + idx * 16)) 16;
        eq ← cstr_eq (u32 (strtab + field sy 0 4)) sym v;
        if (eq : bool) then
          slot ← load 4 v (rp + 8 * j);
          v ← replace_slot slot origin replace v;
          '(k, v) ← scan_loop n rp (j + 1) symtab strtab sym origin replace v;
          Ret (k + 1, v)
        else scan_loop n rp (j + 1) symtab strtab sym origin replace v
  end.
Definition scan (rp sz symtab strtab : Z) (sym : list Z) (origin replace : Z) (v : vm) : outcome (Z * vm) :=
  if (rp =? 0) || (symtab =? 0) || (strtab =? 0) then Ret (0, v)
  else scan_loop (Z.to_nat (sz / 8)) rp 0 symtab strtab sym origin replace v.

(** ** PLT hooks *)

Record PltSlot := {
  p_lib : list Z;
  p_sym : list Z;
  p_replace : Z;
  p_origin : Z;
  p_orig : Z;
}.
Definition max_plt : nat := 64.

(** [hook_one]: -1 for a mapping that is not an ELF image with a dynamic section. *)
Definition hook_one (base : Z) (s : PltSlot) (v : vm) : outcome (Z * vm) :=
  eh ← read_ehdr base v;
  if negb (e_ident0 eh =? 0x7f) then Ret (-1, v)
  else
    '(dyn, dynsz) ← find_dynamic (Z.to_nat (e_phnum eh)) 0 base eh v;
    if dyn =? 0 then Ret (-1, v)
    else
      d ← dynamic_tags dyn dynsz [DT_SYMTAB; DT_STRTAB; DT_JMPREL; DT_PLTRELSZ; DT_REL; DT_RELSZ] v;
      let '(_, v) := Protect base 0x1000 RW v in
      '(n1, v) ← scan (d DT_JMPREL) (d DT_PLTRELSZ) (d DT_SYMTAB) (d DT_STRTAB) (p_sym s) (p_origin s) (p_replace s) v;
      '(n2, v) ← scan (d DT_REL) (d DT_RELSZ) (d DT_SYMTAB) (d DT_STRTAB) (p_sym s) (p_origin s) (p_replace s) v;
      Ret (n1 + n2, v).

(** [snprintf] into an array of 128. *)
Definition fit128 (s : list Z) : list Z := take 127 s.

Definition plt_Hook (lib sym : option (list Z)) (replace origin : Z) (g_plt : list PltSlot) : Z * list PltSlot :=
  match lib, sym with
  | Some lib, Some sym =>
      if replace =? 0 then (DOBBY_ERR_INVALID, g_plt)
      else if (max_plt <=? length g_plt)%nat then (DOBBY_ERR_FAILED, g_plt)
      else (DOBBY_OK, g_plt ++ [{| p_lib := fit128 lib; p_sym := fit128 sym; p_replace := replace; p_origin := origin; p_orig := 0 |}])
  | _, _ => (DOBBY_ERR_INVALID, g_plt)
  end.

Fixpoint plt_Unhook (lib sym : list Z) (g_plt : list PltSlot) : Z * list PltSlot :=
  match g_plt with
  | [] => (DOBBY_ERR_NOT_FOUND, [])
  | s :: rest =>
      if bool_decide (p_lib s = lib) && bool_decide (p_sym s = sym)
      then (DOBBY_OK, {| p_lib := p_lib s; p_sym := p_sym s; p_replace := 0; p_origin := p_origin s; p_orig := p_orig s |} :: rest)
      else let '(rc, rest) := plt_Unhook lib sym rest in (rc, s :: rest)
  end.

(** ** Rules with regular expressions *)

Record RegexRule := {
  pattern : list Z;
  r_symbol : list Z;
  r_replace : Z;
  r_origin : Z;
}.
Definition max_rules : nat := 32.

Definition HookRegex (path_regex symbol : option (list Z)) (replace origin : Z) (g_rules : list RegexRule) : Z * list RegexRule :=
  match path_regex, symbol with
  | Some path_regex, Some symbol =>
      if replace =? 0 then (DOBBY_ERR_INVALID, g_rules)
      else if (max_rules <=? length g_rules)%nat then (DOBBY_ERR_FAILED, g_rules)
      else (DOBBY_OK, g_rules ++ [{| pattern := fit128 path_regex; r_symbol := fit128 symbol; r_replace := replace; r_origin := origin |}])
  | _, _ => (DOBBY_ERR_INVALID, g_rules)
  end.

Section Worker.
(** [regexec] of a compiled pattern on a path; [None] when [regcomp] refuses the pattern. *)
Context (regex : list Z -> list Z -> option bool).

(** One rule of [ApplyRules]. *)
Definition apply_rule (base : Z) (path : list Z) (rule : RegexRule) (v : vm) : outcome (Z * vm) :=
  match regex (pattern rule) path with
  | Some true =>
      eh ← read_ehdr base v;
      if negb (e_ident0 eh =? 0x7f) then Ret (0, v)
      else
        '(dyn, dynsz) ← find_dynamic (Z.to_nat (e_phnum eh)) 0 base eh v;
        if dyn =? 0 then Ret (0, v)
        else
          d ← dynamic_tags dyn dynsz [DT_SYMTAB; DT_STRTAB; DT_JMPREL; DT_PLTRELSZ] v;
          scan (d DT_JMPREL) (d DT_PLTRELSZ) (d DT_SYMTAB) (d DT_STRTAB) (r_symbol rule) (r_origin rule) (r_replace rule) v
  | _ => Ret (0, v)
  end.
Fixpoint ApplyRules (base : Z) (path : list Z) (g_rules : list RegexRule) (v : vm) : outcome (Z * vm) :=
  match g_rules with
  | [] => Ret (0, v)
  | rule :: rest =>
      '(n, v) ← apply_rule base path rule v;
      '(m, v) ← ApplyRules base path rest v;
      Ret (n + m, v)
  end.

(** The mappings of the files whose line contains ".so": start and the name after the last slash. *)
Fixpoint plt_lines (maps : list (Z * list Z)) (g_rules : list RegexRule) (s : PltSlot) (v : vm) : outcome vm :=
  match maps with
  | [] => Ret v
  | (start, path) :: maps =>
      '(_, v) ← ApplyRules start path g_rules v;
      if strstr path (p_lib s) then '(_, v) ← hook_one start s v; Ret v
      else plt_lines maps g_rules s v
  end.
(** One turn of [plt_worker]. *)
Fixpoint plt_round (maps : list (Z * list Z)) (g_rules : list RegexRule) (g_plt : list PltSlot) (v : vm) : outcome vm :=
  match g_plt with
  | [] => Ret v
  | s :: rest =>
      v ← (if p_replace s =? 0 then Ret v else plt_lines maps g_rules s v);
      plt_round maps g_rules rest v
  end.

End Worker.

(** [Symbols::Base]: the start of the first mapping whose file name contains [lib]; 0 if there is none. *)
Fixpoint Symbols_Base (maps : list (Z * list Z)) (lib : list Z) : Z :=
  match maps with
  | [] => 0
  | (start, name) :: maps => if strstr name lib then start else Symbols_Base maps lib
  end.

(** [Symbols::Find]; [open], [sym] and [dsym] are xDL's. *)
Definition Symbols_Find (open : list Z -> Z) (sym dsym : Z -> list Z -> Z) (lib name : option (list Z)) : Z :=
  match lib, name with
  | Some lib, Some name =>
      let h := open lib in
      if h =? 0 then 0 else let p := sym h name in if p =? 0 then dsym h name else p
  | _, _ => 0
  end.

(** ** [InitArray::Read] *)

Fixpoint read_array (n : nat) (a : Z) (v : vm) : outcome (list Z) :=
  match n with
  | O => Ret []
  | S n => w ← load 4 v a; ws ← read_array n (a + 4) v; Ret (w :: ws)
  end.
(** The return value and the words stored into the caller's array of [max]; [base] is the start of the library's first mapping. *)
Definition InitArray_Read (base max : Z) (v : vm) : outcome (Z * list Z) :=
  if base =? 0 then Ret (-1, [])
  else
    eh ← read_ehdr base v;
    '(dyn, dynsz) ← find_dynamic (Z.to_nat (e_phnum eh)) 0 base eh v;
    if dyn =? 0 then Ret (-1, [])
    else
      d ← dynamic_tags dyn dynsz [DT_INIT_ARRAY; DT_INIT_ARRAYSZ] v;
      let arr := d DT_INIT_ARRAY in
      let cnt := d DT_INIT_ARRAYSZ / 4 in
      if arr =? 0 then Ret (-1, [])
      else
        ws ← read_array (Z.to_nat (Z.min cnt max)) arr v;
        Ret (Z.of_nat (length ws), ws).

(** ** What a scan does *)

(** A relocation as the tables in memory describe it. *)
Record rel_entry := {
  e_slot : Z;
  e_idx : Z;
  e_stname : Z;
  e_name : list Z;
}.

Abbreviation word m a := (le_val (bytes m a 4)).

Record cstring (a : Z) (s : list Z) (v : vm) : Prop := {
  cs_read : allows v PROT_READ a (Z.of_nat (length s) + 1);
  cs_bytes : bytes (vm_mem v) a (S (length s)) = s ++ [0];
  cs_chars : Forall (fun c => c <> 0) s;
}.

(** The [j]th relocation at [rp] is [e]. *)
Record entry_in (rp symtab strtab j : Z) (e : rel_entry) (v : vm) : Prop := {
  ei_rel : allows v PROT_READ (rp + 8 * j) 8;
  ei_slot : word (vm_mem v) (rp + 8 * j) = e_slot e;
  ei_idx : word (vm_mem v) (rp + 8 * j + 4) >> 8 = e_idx e;
  ei_sym : e_idx e <> 0 -> 0 <= symtab + e_idx e * 16 < 2 ^ 32 /\ 0 <= strtab + e_stname e < 2 ^ 32 /\
    allows v PROT_READ (symtab + e_idx e * 16) 16 /\ word (vm_mem v) (symtab + e_idx e * 16) = e_stname e /\ cstring (strtab + e_stname e) (e_name e) v;
}.

(** The bytes it is read from. *)
Definition entry_reads (rp symtab strtab j : Z) (e : rel_entry) (b : Z) : Prop :=
  rp + 8 * j <= b < rp + 8 * j + 8 \/
  e_idx e <> 0 /\ (symtab + e_idx e * 16 <= b < symtab + e_idx e * 16 + 16 \/
                   strtab + e_stname e <= b <= strtab + e_stname e + Z.of_nat (length (e_name e))).

Lemma entry_in_stable rp symtab strtab j e v m :
  entry_in rp symtab strtab j e v -> (forall b, entry_reads rp symtab strtab j e b -> m b = vm_mem v b) ->
  entry_in rp symtab strtab j e (set_mem v m).
Proof.
  intros [H1 H2 H3 H4] Hm. split; cbn [vm_mem set_mem].
  - exact H1.
  - rewrite <- H2. f_equal. apply bytes_ext. intros b Hb. apply Hm. left. lia.
  - rewrite <- H3. f_equal. f_equal. apply bytes_ext. intros b Hb. apply Hm. left. lia.
  - intros Hi. destruct (H4 Hi) as (R1 & R2 & R3 & R4 & [C1 C2 C3]). split; [done|]. split; [done|]. split; [exact R3|]. split.
    + rewrite <- R4. f_equal. apply bytes_ext. intros b Hb. apply Hm. right. split; [done|]. left. lia.
    + split; [exact C1| |done]. cbn [vm_mem set_mem]. rewrite <- C2. apply bytes_ext. intros b Hb. apply Hm. right. split; [done|]. right. lia.
Qed.

(** [strcmp] decides equality of strings. *)
Lemma bytes_S m a n : bytes m a (S n) = m a :: bytes m (a + 1) n.
Proof. unfold bytes. cbn [seq map]. rewrite Z.add_0_r. f_equal. rewrite <- seq_shift, map_map. apply map_ext. intros i. f_equal. lia. Qed.

Lemma cstr_eq_spec s : forall a name v, cstring a name v -> Forall (fun c => c <> 0) s -> cstr_eq a s v = Ret (bool_decide (name = s)).
Proof.
  induction s as [|x s IH]; intros a name v [H1 H2 H3] Hs; cbn [cstr_eq]; rewrite (load_allowed 1) by (apply (allows_sub _ _ _ _ _ _ H1); cbn; lia); cbn [mbind outcome_bind].
  - rewrite bytes_S in *. cbn [bytes seq map le_val]. destruct name as [|c name]; [injection H2 as E2|injection H2 as E2 E3]; rewrite E2.
    + done.
    + inversion_clear H3 as [|? ? Hc _]. rewrite bool_decide_eq_false_2 by done. f_equal. apply Z.eqb_neq. lia.
  - inversion_clear Hs as [|? ? Hx Hs']. rewrite bytes_S in *. cbn [bytes seq map le_val]. destruct name as [|c name]; [injection H2 as E2|injection H2 as E2 E3]; rewrite E2.
    + rewrite (proj2 (Z.eqb_neq _ _)) by lia. by rewrite bool_decide_eq_false_2.
    + inversion_clear H3 as [|? ? Hc Hn]. replace (c + 256 * 0) with c by lia. destruct (Z.eqb_spec c x) as [->|Hne].
      * rewrite (IH _ name); [f_equal; apply bool_decide_ext; split; [by intros ->|by intros [= ->]]| |done].
        split; [|done|done]. apply (allows_sub _ _ _ _ _ _ H1); cbn [length]; lia.
      * rewrite bool_decide_eq_false_2; [done|]. by intros [= ? _].
Qed.

Section Scan.
Context (rp symtab strtab : Z) (sym : list Z) (origin replace : Z).

Definition selected (e : rel_entry) : bool := negb (e_idx e =? 0) && bool_decide (e_name e = sym).

(** The memory after one relocation, and after all of them. *)
Definition apply_entry (m : Z -> Z) (e : rel_entry) : Z -> Z :=
  if selected e then
    let m := if origin =? 0 then m else if word m origin =? 0 then patch_mem m origin (le_bytes 4 (word m (e_slot e))) else m in
    patch_mem m (e_slot e) (le_bytes 4 replace)
  else m.
Definition apply_entries (es : list rel_entry) (m : Z -> Z) : Z -> Z := fold_left apply_entry es m.

(** What a relocation may write. *)
Definition entry_writes (e : rel_entry) (b : Z) : Prop :=
  selected e = true /\ (e_slot e <= b < e_slot e + 4 \/ origin <> 0 /\ origin <= b < origin + 4).

Lemma apply_entry_other m e b : ~ entry_writes e b -> apply_entry m e b = m b.
Proof.
  intros H. unfold apply_entry. destruct (selected e) eqn:E; [|done]. unfold entry_writes in H. rewrite patch_out by (rewrite length_le_bytes; intros Hc; apply H; split; [done|left; lia]).
  destruct (Z.eqb_spec origin 0); [done|]. destruct (_ =? 0); [|done]. apply patch_out. rewrite length_le_bytes. intros Hc. apply H. split; [done|]. right. split; [done|lia].
Qed.

Record scannable (es : list rel_entry) (v : vm) : Prop := {
  sc_slots : forall e, e ∈ es -> selected e = true -> allows v PROT_READ (e_slot e) 4 /\ allows v PROT_WRITE (e_slot e) 4;
  sc_origin : origin = 0 \/ allows v PROT_READ origin 4 /\ allows v PROT_WRITE origin 4;
}.

Lemma replace_slot_ok e v : selected e = true -> allows v PROT_READ (e_slot e) 4 -> allows v PROT_WRITE (e_slot e) 4 ->
  origin = 0 \/ allows v PROT_READ origin 4 /\ allows v PROT_WRITE origin 4 ->
  replace_slot (e_slot e) origin replace v = Ret (set_mem v (apply_entry (vm_mem v) e)).
Proof.
  intros Hs Hr Hw Ho. unfold replace_slot, apply_entry. rewrite Hs. destruct (Z.eqb_spec origin 0) as [E|E]; cbn [mbind outcome_bind].
  - by rewrite store_allowed.
  - destruct Ho as [|[Hor How]]; [done|]. rewrite (load_allowed 4 v origin) by done. cbn [mbind outcome_bind]. destruct (_ =? 0).
    + rewrite (load_allowed 4 v (e_slot e)) by done. cbn [mbind outcome_bind]. rewrite store_allowed by done. cbn [mbind outcome_bind]. by rewrite store_allowed.
    + cbn [mbind outcome_bind]. by rewrite store_allowed.
Qed.

(** The scan is the fold of its relocations. *)
Lemma scan_loop_spec es : forall j v, Forall (fun c => c <> 0) sym -> scannable es v ->
  (forall i e, es !! i = Some e -> entry_in rp symtab strtab (j + Z.of_nat i) e v) ->
  (forall i e e' b, es !! i = Some e -> e' ∈ es -> entry_reads rp symtab strtab (j + Z.of_nat i) e b -> ~ entry_writes e' b) ->
  scan_loop (length es) rp j symtab strtab sym origin replace v =
  Ret (Z.of_nat (length (List.filter selected es)), set_mem v (apply_entries es (vm_mem v))).
Proof.
  induction es as [|e es IH]; intros j v Hsym [Hsl Hor] Hin Hap; cbn [scan_loop length apply_entries fold_left List.filter]; [by destruct v|].
  pose proof (Hin 0%nat e eq_refl) as [E1 E2 E3 E4]. rewrite Z.add_0_r in *.
  rewrite (load_allowed 4 v (rp + 8 * j + 4)) by (apply (allows_sub _ _ _ _ _ _ E1); lia). cbn [mbind outcome_bind]. rewrite E3.
  assert (Hnext : forall m, (forall b, ~ entry_writes e b -> m b = vm_mem v b) ->
    scan_loop (length es) rp (j + 1) symtab strtab sym origin replace (set_mem v m) =
    Ret (Z.of_nat (length (List.filter selected es)), set_mem v (apply_entries es m))).
  { intros m Hm. rewrite (IH (j + 1) (set_mem v m)); [done|done| | |].
    - split; [intros; apply Hsl; [by right|done]|done].
    - intros i e' Hi. apply entry_in_stable; [replace (j + 1 + Z.of_nat i) with (j + Z.of_nat (S i)) by lia; by apply Hin|].
      intros b Hb. apply Hm. apply (Hap (S i) e' e b); [done|left|]. by replace (j + Z.of_nat (S i)) with (j + 1 + Z.of_nat i) by lia.
    - intros i e1 e2 b Hi He2 Hb. apply (Hap (S i) e1); [done|by right|]. by replace (j + Z.of_nat (S i)) with (j + 1 + Z.of_nat i) by lia. }
  assert (Hskip : selected e = false -> scan_loop (length es) rp (j + 1) symtab strtab sym origin replace v =
    Ret (Z.of_nat (length (List.filter selected es)), set_mem v (apply_entries es (apply_entry (vm_mem v) e)))).
  { intros Hn. unfold apply_entry. rewrite Hn. rewrite <- (Hnext (vm_mem v)) by done. by destruct v. }
  unfold selected at 1 in Hskip. unfold selected at 1. destruct (Z.eqb_spec (e_idx e) 0) as [Ei|Ei]; cbn [negb andb] in *; [by apply Hskip|].
  destruct (E4 Ei) as (R1 & R2 & R3 & R4 & Hcs). rewrite !(wrap_small 32 (symtab + _)) by done.
  rewrite memcpy_from_ok by done. cbn [mbind outcome_bind]. change (field (bytes (vm_mem v) (symtab + e_idx e * 16) 16) 0 4) with (word (vm_mem v) (symtab + e_idx e * 16)).
  rewrite R4, wrap_small, (cstr_eq_spec sym _ (e_name e)) by done. cbn [mbind outcome_bind].
  destruct (bool_decide (e_name e = sym)) eqn:En; [|by apply Hskip].
  assert (Hs : selected e = true) by (unfold selected; rewrite En, (proj2 (Z.eqb_neq _ _)) by done; done).
  rewrite (load_allowed 4 v (rp + 8 * j)) by (apply (allows_sub _ _ _ _ _ _ E1); lia). cbn [mbind outcome_bind]. rewrite E2.
  destruct (Hsl e ltac:(left) Hs) as [Hr Hw]. rewrite (replace_slot_ok e v Hs Hr Hw Hor). cbn [mbind outcome_bind].
  rewrite Hnext by (intros b Hb; by apply apply_entry_other). cbn [mbind outcome_bind]. cbn [length]. do 2 f_equal. lia.
Qed.

Definition apart (a b : Z) : Prop := a + 4 <= b \/ b + 4 <= a.

Lemma word_patch m a x : 0 <= x < 2 ^ 32 -> word (patch_mem m a (le_bytes 4 x)) a = x.
Proof.
  intros Hx. pose proof (bytes_patch m a (le_bytes 4 x)) as E. rewrite length_le_bytes in E. rewrite E, le_val_bytes. apply Z.mod_small. cbn. lia.
Qed.

Lemma word_apart m a b x : apart a b -> word (patch_mem m a (le_bytes 4 x)) b = word m b.
Proof. intros H. f_equal. apply bytes_ext. intros c Hc. apply patch_out. rewrite length_le_bytes. unfold apart in H. lia. Qed.

(** A word away from the origin and away from, or equal to, every slot keeps the value [replace]. *)
Lemma slot_kept es : forall m a, 0 <= replace < 2 ^ 32 -> word m a = replace -> origin = 0 \/ apart origin a ->
  (forall e, e ∈ es -> selected e = true -> e_slot e = a \/ apart (e_slot e) a) -> word (apply_entries es m) a = replace.
Proof.
  induction es as [|e es IH]; intros m a Hr Hm Ho He; [done|]. cbn [apply_entries fold_left]. apply IH; [done| |done|intros; apply He; [by right|done]].
  unfold apply_entry. destruct (selected e) eqn:Es; [|done]. destruct (He e ltac:(left) Es) as [->|Hap]; [by apply word_patch|].
  rewrite word_apart by done. destruct (Z.eqb_spec origin 0); [done|]. destruct Ho; [done|]. destruct (_ =? 0); [|done]. by rewrite word_apart.
Qed.

Lemma origin_kept es : forall m, word m origin <> 0 -> (forall e, e ∈ es -> selected e = true -> apart (e_slot e) origin) ->
  word (apply_entries es m) origin = word m origin.
Proof.
  induction es as [|e es IH]; intros m Hm He; [done|]. cbn [apply_entries fold_left].
  assert (E : word (apply_entry m e) origin = word m origin).
  { unfold apply_entry. destruct (selected e) eqn:Es; [|done]. rewrite word_apart by (apply He; [left|done]).
    destruct (origin =? 0); [done|]. by rewrite (proj2 (Z.eqb_neq _ _)). }
  fold (apply_entries es (apply_entry m e)). rewrite IH; [done|by rewrite E|]. intros; apply He; [by right|done].
Qed.

Lemma apply_unselected es m : Forall (fun e => selected e = false) es -> apply_entries es m = m.
Proof. induction 1 as [|e es He _ IH]; [done|]. cbn [apply_entries fold_left]. unfold apply_entry at 2. by rewrite He. Qed.

Lemma apply_entries_other es : forall m b, (forall e, e ∈ es -> ~ entry_writes e b) -> apply_entries es m b = m b.
Proof.
  induction es as [|e es IH]; intros m b H; [done|]. cbn [apply_entries fold_left]. fold (apply_entries es (apply_entry m e)).
  rewrite IH by (intros; apply H; by right). apply apply_entry_other, H. left.
Qed.

(** C14: A scan of a relocation table replaces exactly the slots of the symbol.  For tables that describe the relocations [es]
    and do not overlap what the scan writes, it returns their number; every slot of the symbol holds the replacement, no other
    byte changes but the caller's variable, and that, if it was null, holds what the first of the slots held. *)
Theorem plt_scan_replaces sz es v :
  rp <> 0 -> symtab <> 0 -> strtab <> 0 -> sz / 8 = Z.of_nat (length es) -> Forall (fun c => c <> 0) sym -> 0 <= replace < 2 ^ 32 ->
  scannable es v -> (forall i e, es !! i = Some e -> entry_in rp symtab strtab (Z.of_nat i) e v) ->
  (forall i e e' b, es !! i = Some e -> e' ∈ es -> entry_reads rp symtab strtab (Z.of_nat i) e b -> ~ entry_writes e' b) ->
  (forall e e', e ∈ es -> e' ∈ es -> selected e = true -> selected e' = true -> e_slot e = e_slot e' \/ apart (e_slot e) (e_slot e')) ->
  (forall e, e ∈ es -> selected e = true -> apart (e_slot e) origin) ->
  exists v', scan rp sz symtab strtab sym origin replace v = Ret (Z.of_nat (length (List.filter selected es)), v') /\
    vm_prot v' = vm_prot v /\ (forall e, e ∈ es -> selected e = true -> word (vm_mem v') (e_slot e) = replace) /\
    (forall b, (forall e, e ∈ es -> ~ entry_writes e b) -> vm_mem v' b = vm_mem v b) /\
    (forall before e after, es = before ++ e :: after -> Forall (fun e => selected e = false) before -> selected e = true ->
       origin <> 0 -> word (vm_mem v) origin = 0 -> 0 < word (vm_mem v) (e_slot e) < 2 ^ 32 ->
       word (vm_mem v') origin = word (vm_mem v) (e_slot e)).
Proof.
  intros H1 H2 H3 Hsz Hsym Hrep Hsc Hin Hap Hslots Horig. unfold scan. rewrite (proj2 (Z.eqb_neq rp 0)), (proj2 (Z.eqb_neq symtab 0)), (proj2 (Z.eqb_neq strtab 0)), Hsz, Nat2Z.id by done. cbn [orb].
  rewrite (scan_loop_spec es 0 v Hsym Hsc Hin Hap). eexists. split; [reflexivity|]. split; [done|]. cbn [vm_mem set_mem]. split; [|split].
  - intros e He Hs. apply list_elem_of_split in He as (l1 & l2 & ->). unfold apply_entries. rewrite fold_left_app. cbn [fold_left].
    fold (apply_entries l1 (vm_mem v)). set (m := apply_entries l1 (vm_mem v)). apply (slot_kept l2); [done| | |].
    + unfold apply_entry. rewrite Hs. by apply word_patch.
    + right. destruct (Horig e ltac:(apply elem_of_app; right; left) Hs); [by right|by left].
    + intros e' He' Hs'. apply Hslots; [apply elem_of_app; right; by right|apply elem_of_app; right; left|done|done].
  - intros b Hb. by apply apply_entries_other.
  - intros before e after -> Hbef Hs H0 Hz Hw. unfold apply_entries. rewrite fold_left_app. fold (apply_entries before (vm_mem v)). rewrite (apply_unselected before (vm_mem v) Hbef).
    cbn [fold_left]. set (m := apply_entry (vm_mem v) e). fold (apply_entries after m).
    assert (Em : word m origin = word (vm_mem v) (e_slot e)).
    { unfold m, apply_entry. rewrite Hs, (proj2 (Z.eqb_neq origin 0)), Hz by done. cbn [Z.eqb].
      rewrite word_apart by (apply Horig; [apply elem_of_app; right; left|done]). apply word_patch. lia. }
    rewrite origin_kept; [done|lia|]. intros e' He' Hs'. apply Horig; [apply elem_of_app; right; by right|done].
Qed.

End Scan.

(** ** The theorem at a concrete image *)

(** Strings "", "a" and "b" at 0x10000, symbols "a" and "b" at 0x10010, relocations of a, b and a at 0x10040. *)
Definition sample_image : list Z :=
  [0; 97; 0; 98; 0] ++ replicate 11 0 ++ replicate 16 0 ++ (le_bytes 4 1 ++ replicate 12 0) ++ (le_bytes 4 3 ++ replicate 12 0) ++
  le_bytes 4 0x20000 ++ le_bytes 4 0x100 ++ le_bytes 4 0x20004 ++ le_bytes 4 0x200 ++ le_bytes 4 0x20008 ++ le_bytes 4 0x100.
Definition sample_entry (slot idx : Z) (name : list Z) (st : Z) : rel_entry := {| e_slot := slot; e_idx := idx; e_stname := st; e_name := name |}.
Definition sample_entries : list rel_entry := [sample_entry 0x20000 1 [97] 1; sample_entry 0x20004 2 [98] 3; sample_entry 0x20008 1 [97] 1].

Lemma sample_entry_in i e : sample_entries !! i = Some e -> entry_in 0x10040 0x10010 0x10000 (Z.of_nat i) e (sample_space sample_image []).
Proof.
  intros H. assert (Hr : forall a n, 0x10000 <= a -> a + n <= 0x11000 -> allows (sample_space sample_image []) PROT_READ a n)
    by (intros; by apply (sample_allows _ [] RX 0x10000)).
  destruct i as [|[|[|i]]]; cbn in H; [injection H as <-|injection H as <-|injection H as <-|done];
    (split; [apply Hr; cbn; lia|reflexivity|reflexivity|]; intros _; cbn [e_idx e_stname e_name sample_entry]; split; [lia|]; split; [lia|];
     split; [apply Hr; lia|]; split; [reflexivity|]; split; [apply Hr; cbn; lia|reflexivity|by repeat constructor]).
Qed.

Lemma sample_entry_range e b : e ∈ sample_entries -> entry_writes [97] 0x20010 e b -> 0x20000 <= b < 0x20020.
Proof.
  intros He [_ Hb]. assert (0x20000 <= e_slot e <= 0x20008); [|lia].
  apply elem_of_cons in He as [->|He]; [cbn; lia|]. apply elem_of_cons in He as [->|He]; [cbn; lia|]. apply list_elem_of_singleton in He as ->. cbn. lia.
Qed.

Lemma plt_scan_replaces_witness : exists v', scan 0x10040 24 0x10010 0x10000 [97] 0x20010 0x50000 (sample_space sample_image []) = Ret (2, v') /\
  word (vm_mem v') 0x20008 = 0x50000 /\ vm_mem v' 0x20004 = 0.
Proof.
  destruct (plt_scan_replaces 0x10040 0x10010 0x10000 [97] 0x20010 0x50000 24 sample_entries (sample_space sample_image [])) as (v' & E & _ & H1 & H2 & _).
  - lia.
  - lia.
  - lia.
  - reflexivity.
  - by repeat constructor.
  - lia.
  - split; [|right; split; by apply (sample_allows _ [] RW 0x20000)]. intros e He _.
    assert (0x20000 <= e_slot e <= 0x20008).
    { apply elem_of_cons in He as [->|He]; [cbn; lia|]. apply elem_of_cons in He as [->|He]; [cbn; lia|]. apply list_elem_of_singleton in He as ->. cbn. lia. }
    split; apply (sample_allows _ [] RW 0x20000); done || lia.
  - exact sample_entry_in.
  - intros i e e' b Hi He' Hr Hw. apply (sample_entry_range e' b He') in Hw.
    destruct i as [|[|[|i]]]; cbn in Hi; [injection Hi as <-|injection Hi as <-|injection Hi as <-|done]; destruct Hr as [Hr|[_ [Hr|Hr]]]; cbn in Hr; lia.
  - intros e e' He He' _ _. unfold apart. apply elem_of_cons in He as [->|He]; [|apply elem_of_cons in He as [->|He]; [|apply list_elem_of_singleton in He as ->]];
      (apply elem_of_cons in He' as [->|He']; [|apply elem_of_cons in He' as [->|He']; [|apply list_elem_of_singleton in He' as ->]]); cbn; lia.
  - intros e He _. unfold apart. apply elem_of_cons in He as [->|He]; [|apply elem_of_cons in He as [->|He]; [|apply list_elem_of_singleton in He as ->]]; cbn; lia.
  - exists v'. split; [exact E|]. split; [apply (H1 (sample_entry 0x20008 1 [97] 1)); [right; right; left|reflexivity]|].
    rewrite H2; [reflexivity|]. intros e He [Hs Hb]. apply elem_of_cons in He as [->|He]; [cbn in Hb; lia|]. apply elem_of_cons in He as [->|He]; [done|].
    apply list_elem_of_singleton in He as ->. cbn in Hb. lia.
Defined.

(** ** Protections and removal *)

Lemma store_prot n v a x v' : store n v a x = Ret v' -> vm_prot v' = vm_prot v.
Proof. unfold store, memcpy_to. destruct (bytes_have _ _ _ _ _); [|done]. by intros [= <-]. Qed.

Lemma replace_slot_prot slot origin replace v v' : replace_slot slot origin replace v = Ret v' -> vm_prot v' = vm_prot v.
Proof.
  unfold replace_slot. intros E. apply outcome_bind_Ret in E as (v1 & E1 & E). apply store_prot in E. rewrite E.
  destruct (origin =? 0); [by injection E1 as <-|]. apply outcome_bind_Ret in E1 as (o & _ & E1). destruct (o =? 0); [|by injection E1 as <-].
  apply outcome_bind_Ret in E1 as (cur & _ & E1). by apply store_prot in E1.
Qed.

Lemma scan_prot rp sz symtab strtab sym origin replace v n v' : scan rp sz symtab strtab sym origin replace v = Ret (n, v') -> vm_prot v' = vm_prot v.
Proof.
  unfold scan. destruct (_ || _); [by intros [= _ <-]|]. generalize (Z.to_nat (sz / 8)) as k, 0 as j. intros k. revert v n.
  induction k as [|k IH]; intros v n j; cbn [scan_loop]; [by intros [= _ <-]|].
  intros E. apply outcome_bind_Ret in E as (info & _ & E). destruct (_ =? 0); [by eapply IH|].
  apply outcome_bind_Ret in E as (sy & _ & E). apply outcome_bind_Ret in E as (eq & _ & E). destruct eq; [|by eapply IH].
  apply outcome_bind_Ret in E as (slot & _ & E). apply outcome_bind_Ret in E as (v1 & E1 & E). apply outcome_bind_Ret in E as ([k1 v2] & E2 & E).
  injection E as _ <-. apply IH in E2. apply replace_slot_prot in E1. congruence.
Qed.

(** A PLT hook takes the execute permission of the library's first page away.  When it has gone through the relocations
    of an image, [hook_one] has made the page at its base readable and writable only, and leaves it so. *)
Theorem plt_hook_drops_exec base s v n v' :
  hook_one base s v = Ret (n, v') -> n <> -1 -> granted v -> base mod 4096 = 0 -> 0 <= base -> base + 0x1000 <= 2 ^ 32 - 4096 ->
  is_Some (vm_prot v !! base) -> vm_prot v' !! base = Some RW.
Proof.
  unfold hook_one. intros E Hn Hg H4 H0 Hhi Hm. apply outcome_bind_Ret in E as (eh & _ & E). destruct (negb _); [by injection E as <- _|].
  apply outcome_bind_Ret in E as ([dyn dynsz] & _ & E). destruct (dyn =? 0); [by injection E as <- _|]. apply outcome_bind_Ret in E as (d & _ & E).
  destruct (Protect_granted base 0x1000 RW v) as (v1 & EP & HP); [done|done|done|done| |].
  { intros p (b & Hb & ->). by rewrite (pg_unique base b) by (done || lia). }
  rewrite EP in E. apply outcome_bind_Ret in E as ([n1 v2] & E1 & E). apply outcome_bind_Ret in E as ([n2 v3] & E2 & E). injection E as _ <-.
  apply scan_prot in E1. apply scan_prot in E2. rewrite E2, E1. apply (pr_in _ _ _ _ _ HP). exists base. split; [lia|]. symmetry. apply pg_unique; [done|lia].
Qed.

(** Removing a PLT hook does not restore anything.  Unhook returns [DOBBY_OK] and clears the replacement of the record; from
    then on the worker skips the record, so that the slots keep the replacement. *)
Theorem plt_unhook_restores_nothing regex s :
  exists l, plt_Unhook (p_lib s) (p_sym s) [s] = (DOBBY_OK, l) /\ forall maps rules v, plt_round regex maps rules l v = Ret v.
Proof. eexists. cbn [plt_Unhook]. rewrite !bool_decide_eq_true_2 by done. split; [reflexivity|]. done. Qed.

(** An image at 0x20000 with one program header, a dynamic section and one relocation of "a" whose slot is at 0x20100. *)
Definition sample_elf : list Z :=
  [0x7f; 69; 76; 70] ++ replicate 24 0 ++ le_bytes 4 52 ++ replicate 10 0 ++ le_bytes 2 32 ++ le_bytes 2 1 ++ replicate 6 0 ++
  le_bytes 4 2 ++ le_bytes 4 0 ++ le_bytes 4 84 ++ replicate 8 0 ++ le_bytes 4 40 ++ replicate 8 0 ++
  le_bytes 4 6 ++ le_bytes 4 0x2007c ++ le_bytes 4 5 ++ le_bytes 4 0x2009c ++ le_bytes 4 23 ++ le_bytes 4 0x200a0 ++ le_bytes 4 2 ++ le_bytes 4 8 ++ le_bytes 4 0 ++ le_bytes 4 0 ++
  replicate 16 0 ++ le_bytes 4 1 ++ replicate 12 0 ++ [0; 97; 0; 0] ++ le_bytes 4 0x20100 ++ le_bytes 4 0x100.
Definition sample_elf_space : vm :=
  {| vm_mem := fun a => nth (Z.to_nat (a - 0x20000)) sample_elf 0; vm_prot := {[ 0x20000 := RWX ]}; vm_answers := [] |}.
Definition sample_plt : PltSlot := {| p_lib := [108]; p_sym := [97]; p_replace := 0x50000; p_origin := 0; p_orig := 0 |}.
Definition sample_plt_end : vm := match hook_one 0x20000 sample_plt sample_elf_space with Ret (_, v) => v | _ => sample_elf_space end.

Lemma sample_hook_one : hook_one 0x20000 sample_plt sample_elf_space = Ret (1, sample_plt_end).
Proof.
  assert (E : match hook_one 0x20000 sample_plt sample_elf_space with Ret (n, _) => n | _ => 0 end = 1) by (vm_compute; reflexivity).
  unfold sample_plt_end. destruct (hook_one 0x20000 sample_plt sample_elf_space) as [[n v]| |]; [by subst n|done|done].
Qed.

Lemma plt_hook_drops_exec_witness : vm_prot sample_elf_space !! 0x20000 = Some RWX /\ vm_prot sample_plt_end !! 0x20000 = Some RW.
Proof.
  split; [reflexivity|]. apply (plt_hook_drops_exec 0x20000 sample_plt sample_elf_space 1); [exact sample_hook_one|lia|discriminate|reflexivity|lia|lia|by eexists].
Defined.
