(* ===== verification/V2Init.v ===== *)
(** * The second engine: initialisation and dispatch (src/main.cpp, src/linker_monitor.cpp, src/initarray_linker.cpp, src/android_api.cpp)

    DobbyInit starts the workers and the linker monitor, which hooks android_dlopen_ext
    through the public entry point DobbyHook, which calls DobbyInit when the library is not
    initialised.  The functions that call each other so take the depth of nested calls
    they may use; [None] is a nesting deeper than that.  What dlopen and dlsym answer
    are arguments.  The other entry points that initialise the library first lead on to the hooker, the import-table
    hooks (V2Plt) and the waiter. *)

From stdpp Require Import gmap.
From S2P Require Import V2Plt.
From S2P Require Import Prelude CodePatch V2Util V2Hooker V2HookTable V2Waiter.
#[local] Open Scope Z_scope.
#[local] Open Scope machine_scope.

(** A subscription: the callback's address, 0 if null, and its user pointer. *)
Record Sub := { on_load : Z; sub_user : Z }.
Definition MAX_SUBS : nat := 16.

Record library := {
  core : waiter;
  g_init : bool;
  plt_started : bool;
  g_worker_started : bool;
  monitor_started : bool;
  g_guard_started : bool;
  g_subs : list Sub;
}.
Definition core_engine (st : library) : engine := w_engine (core st).
Definition with_core (w : waiter) (st : library) : library :=
  {| core := w; g_init := g_init st; plt_started := plt_started st; g_worker_started := g_worker_started st;
     monitor_started := monitor_started st; g_guard_started := g_guard_started st; g_subs := g_subs st |}.
Definition set_monitor (b : bool) (st : library) : library :=
  {| core := core st; g_init := g_init st; plt_started := plt_started st; g_worker_started := g_worker_started st;
     monitor_started := b; g_guard_started := g_guard_started st; g_subs := g_subs st |}.

(** ** Nested calls *)

Definition nested (A : Type) : Type := option (outcome A).
Definition nbind {A B} (m : nested A) (f : A -> nested B) : nested B :=
  match m with
  | None => None
  | Some (Ret a) => f a
  | Some UB => Some UB
  | Some Fatal => Some Fatal
  end.

Section Library.
(** [libc_opens]: dlopen of libc.so; [android_dlopen_ext]: the answer of dlsym, 0 for null; the addresses of the engine's own
    [fake_dlopen_ext] and [orig_dlopen_ext]; the page mmap picks. *)
Context (libc_opens : bool) (android_dlopen_ext fake_dlopen_ext orig_dlopen_ext : Z) (mmap : engine -> option Z).

(** [Hooker::Hook] on the library's state. *)
Definition Hooker_Hook (t r o : Z) (st : library) : nested (Z * library) :=
  Some ('(rc, e) ← Hook (mmap (core_engine st)) t r o (core_engine st); Ret (rc, with_core (with_engine e (core st)) st)).

(** [LinkerMonitor::Start], given [DobbyHook]. *)
Definition LinkerMonitor_Start (DobbyHook : Z -> Z -> Z -> library -> nested (Z * library)) (st : library) : nested (bool * library) :=
  if monitor_started st then Some (Ret (true, st))
  else if negb libc_opens then Some (Ret (false, st))
  else if android_dlopen_ext =? 0 then Some (Ret (monitor_started st, st))
  else
    nbind (DobbyHook android_dlopen_ext fake_dlopen_ext orig_dlopen_ext st) (fun '(rc, st) =>
      let st := if rc =? DOBBY_OK then set_monitor true st else st in
      Some (Ret (monitor_started st, st))).

(** [DobbyInit], given [DobbyHook]. *)
Definition DobbyInit_with (DobbyHook : Z -> Z -> Z -> library -> nested (Z * library)) (st : library) : nested (Z * library) :=
  if g_init st then Some (Ret (DOBBY_OK, st))
  else
    let st := {| core := core st; g_init := g_init st; plt_started := true; g_worker_started := true;
                 monitor_started := monitor_started st; g_guard_started := g_guard_started st; g_subs := g_subs st |} in
    nbind (LinkerMonitor_Start DobbyHook st) (fun '(_, st) =>
      Some (Ret (DOBBY_OK, {| core := core st; g_init := true; plt_started := plt_started st; g_worker_started := g_worker_started st;
                              monitor_started := monitor_started st; g_guard_started := true; g_subs := g_subs st |}))).

Fixpoint DobbyHook (depth : nat) (t r o : Z) (st : library) : nested (Z * library) :=
  match depth with
  | O => None
  | S depth =>
      nbind (if g_init st then Some (Ret (DOBBY_OK, st)) else DobbyInit_with (DobbyHook depth) st) (fun '(_, st) =>
        Hooker_Hook t r o st)
  end.
Definition DobbyInit (depth : nat) (st : library) : nested (Z * library) := DobbyInit_with (DobbyHook depth) st.

(** [DobbyShutdown]. *)
Definition DobbyShutdown (st : library) : library :=
  {| core := core st; g_init := false; plt_started := plt_started st; g_worker_started := g_worker_started st;
     monitor_started := monitor_started st; g_guard_started := g_guard_started st; g_subs := g_subs st |}.

(** [DobbyUnhook]. *)
Definition DobbyUnhook (t : Z) (st : library) : outcome (Z * library) :=
  '(rc, e) ← Unhook t (core_engine st); Ret (rc, with_core (with_engine e (core st)) st).

(** [LinkerMonitor::Subscribe]. *)
Definition Subscribe (depth : nat) (f user : Z) (st : library) : nested (bool * library) :=
  if (MAX_SUBS <=? length (g_subs st))%nat then Some (Ret (false, st))
  else
    let st := {| core := core st; g_init := g_init st; plt_started := plt_started st; g_worker_started := g_worker_started st;
                 monitor_started := monitor_started st; g_guard_started := g_guard_started st;
                 g_subs := g_subs st ++ [{| on_load := f; sub_user := user |}] |} in
    nbind (LinkerMonitor_Start (DobbyHook depth) st) (fun '(_, st) => Some (Ret (true, st))).

(** [notify]: the callbacks called, with their user pointers, and the event. *)
Definition notify (path : list Z) (st : library) : list (Z * Z) * library :=
  (map (fun s => (on_load s, sub_user s)) (List.filter (fun s => negb (on_load s =? 0)) (g_subs st)),
   with_core (with_engine (emit {| ev_target := 0; ev_replace := 0; ev_origin := 0; ev_lib := Some path; ev_symbol := None; ev_status := DOBBY_OK |}
                             (core_engine st)) (core st)) st).
(** [fake_dlopen_ext] and [fake_loader_dlopen] after the original has returned [h]. *)
Definition fake_dlopen (h : Z) (filename : option (list Z)) (st : library) : Z * list (Z * Z) * library :=
  match filename with
  | Some path => if h =? 0 then (h, [], st) else let '(called, st) := notify path st in (h, called, st)
  | None => (h, [], st)
  end.

(** [DobbyHookEx2]; [verify] is the flag [DOBBY_HOOK_VERIFY] of the options. *)
Definition DobbyHookEx2 (t r o : Z) (verify : bool) (st : engine) : outcome (Z * engine) :=
  if (t =? 0) || (r =? 0) then Ret (DOBBY_ERR_INVALID, st)
  else
    '(rc, st) ← Hook (mmap st) t r o st;
    if negb (rc =? DOBBY_OK) then Ret (rc, st)
    else if verify then
      head ← load 4 (space st) t;
      Ret (DOBBY_OK, {| space := space st; g_slots := g_slots st; g_integrity := SnapshotIntegrity t head (g_integrity st); events := events st |})
    else Ret (DOBBY_OK, st).

(** [InitArray::HookLinkerCall]; [sym] is the answer of dlsym, the other addresses are those of the engine's proxy and of its variable
    [orig_call_array]. *)
Record LinkerCallHook := { pre_cb : Z; lc_user : Z; installed : bool }.
Definition HookLinkerCall (sym call_array_proxy orig_call_array cb user : Z) (g_lc : LinkerCallHook) (st : engine) : outcome (Z * LinkerCallHook * engine) :=
  if sym =? 0 then Ret (DOBBY_ERR_NOT_FOUND, g_lc, st)
  else
    v ← store 4 (space st) orig_call_array sym;
    '(rc, st) ← Hook (mmap st) sym call_array_proxy orig_call_array (with_space v st);
    Ret (rc, {| pre_cb := cb; lc_user := user; installed := if rc =? DOBBY_OK then true else installed g_lc |}, st).
(** [call_array_proxy]: what the callback is given, if it is called; the original is called in any case. *)
Definition call_array_proxy (g_lc : LinkerCallHook) (functions count : Z) (caller : option (list Z)) : option (list Z * Z * Z * Z) :=
  if negb (pre_cb g_lc =? 0) && negb (functions =? 0) && negb (count =? 0) then Some (default [] caller, functions, count, lc_user g_lc) else None.

Section Symbols.
Context (Find : list Z -> list Z -> Z) (Base : list Z -> Z).

(** [DobbyAndroidHookSymbol] and [DobbyAndroidHookOffset]. *)
Definition DobbyAndroidHookSymbol (l s : list Z) (r o : Z) (st : engine) : outcome (Z * engine) :=
  let sym := Find l s in
  if sym =? 0 then Ret (DOBBY_ERR_NOT_FOUND, st) else Hook (mmap st) sym r o st.
Definition DobbyAndroidHookOffset (l : list Z) (off r o : Z) (st : engine) : outcome (Z * engine) :=
  let base := Base l in
  if base =? 0 then Ret (DOBBY_ERR_NOT_FOUND, st) else Hook (mmap st) (u32 (base + off)) r o st.

(** [DobbyWaitHook] and [DobbyWaitHookOffset]. *)
Definition DobbyWaitHook (depth : nat) (l s : option (list Z)) (r o tm : Z) (cb : bool) (user now : Z) (st : library) : nested (Z * library) :=
  nbind (DobbyInit depth st) (fun '(_, st) =>
    Some ('(rc, w) ← Submit mmap Find Base l s 0 false r o 0 tm cb user now (core st); Ret (rc, with_core w st))).
Definition DobbyWaitHookOffset (depth : nat) (l : option (list Z)) (off r o tm : Z) (cb : bool) (user now : Z) (st : library) : nested (Z * library) :=
  nbind (DobbyInit depth st) (fun '(_, st) =>
    Some ('(rc, w) ← Submit mmap Find Base l None off true r o 0 tm cb user now (core st); Ret (rc, with_core w st))).

(** [DobbyWaitEx]; without options [timeout] and [user] are 0 and there is no callback. *)
Definition DobbyWaitEx (depth : nat) (l s : option (list Z)) (off : Z) (use_offset : bool) (r o : Z) (opt : option (Z * bool * Z)) (now : Z)
    (st : library) : nested (Z * library) :=
  nbind (DobbyInit depth st) (fun '(_, st) =>
    let '(tm, cb, user) := default (0, false, 0) opt in
    Some ('(rc, w) ← Submit mmap Find Base l s off use_offset r o 0 tm cb user now (core st); Ret (rc, with_core w st))).

End Symbols.

(** [DobbyHookAddr], [DobbyPltHook] and [DobbyPltHookRegex]; the tables of the last two are those of V2Plt. *)
Definition DobbyHookAddr (depth : nat) (func_addr r o : Z) (st : library) : nested (Z * library) := DobbyHook depth func_addr r o st.
Definition DobbyPltHook (depth : nat) (lib sym : option (list Z)) (r o : Z) (g_plt : list PltSlot) (st : library)
    : nested (Z * list PltSlot * library) :=
  nbind (if g_init st then Some (Ret (DOBBY_OK, st)) else DobbyInit depth st) (fun '(_, st) =>
    let '(rc, g_plt) := plt_Hook lib sym r o g_plt in Some (Ret (rc, g_plt, st))).
Definition DobbyPltHookRegex (depth : nat) (path_regex sym : option (list Z)) (r o : Z) (g_rules : list RegexRule) (st : library)
    : nested (Z * list RegexRule * library) :=
  nbind (if g_init st then Some (Ret (DOBBY_OK, st)) else DobbyInit depth st) (fun '(_, st) =>
    let '(rc, g_rules) := HookRegex path_regex sym r o g_rules in Some (Ret (rc, g_rules, st))).

(** ** Theorems *)

(** The state in which a process loads the library. *)
Definition fresh (st : library) : Prop := g_init st = false /\ monitor_started st = false.

Lemma init_nests (hook : Z -> Z -> Z -> library -> nested (Z * library)) st :
  libc_opens = true -> android_dlopen_ext <> 0 -> fresh st -> (forall t r o st', fresh st' -> hook t r o st' = None) -> DobbyInit_with hook st = None.
Proof.
  intros Hl Hs [Hi Hm] Hh. unfold DobbyInit_with. rewrite Hi. unfold LinkerMonitor_Start. cbn [monitor_started]. rewrite Hm, Hl. cbn [negb].
  rewrite (proj2 (Z.eqb_neq _ _)) by done. by rewrite Hh.
Qed.

Lemma hook_nests depth : libc_opens = true -> android_dlopen_ext <> 0 -> forall t r o st, fresh st -> DobbyHook depth t r o st = None.
Proof.
  intros Hl Hs. induction depth as [|depth IH]; intros t r o st Hf; cbn [DobbyHook]; [done|].
  rewrite (proj1 Hf), (init_nests (DobbyHook depth) st) by done. done.
Qed.

Lemma DobbyInit_nests depth st : libc_opens = true -> android_dlopen_ext <> 0 -> fresh st -> DobbyInit depth st = None.
Proof. intros Hl Hs Hf. unfold DobbyInit. apply init_nests; [done|done|done|]. intros. by apply hook_nests. Qed.

(** C17: Initialisation never returns.  In a process where libc.so opens and android_dlopen_ext resolves, and where the library
    is neither initialised nor monitoring the linker, none of these calls comes back, however deep the stack is: DobbyInit,
    DobbyHook, DobbyHookAddr, DobbyPltHook, DobbyPltHookRegex, DobbyWaitHook, DobbyWaitHookOffset, DobbyWaitEx, and
    LinkerMonitor::Subscribe while it has room.  The linker monitor is installed through DobbyHook, which finds the library
    not initialised and starts over, since the flag is set only when all is done. *)
Theorem init_never_returns depth st : libc_opens = true -> android_dlopen_ext <> 0 -> fresh st ->
  DobbyInit depth st = None /\ (forall t r o, DobbyHook depth t r o st = None) /\
  (forall f r o, DobbyHookAddr depth f r o st = None) /\
  (forall l s r o g_plt, DobbyPltHook depth l s r o g_plt st = None) /\
  (forall re s r o g_rules, DobbyPltHookRegex depth re s r o g_rules st = None) /\
  (forall Find Base l s r o tm cb user now, DobbyWaitHook Find Base depth l s r o tm cb user now st = None) /\
  (forall Find Base l off r o tm cb user now, DobbyWaitHookOffset Find Base depth l off r o tm cb user now st = None) /\
  (forall Find Base l s off use r o opt now, DobbyWaitEx Find Base depth l s off use r o opt now st = None) /\
  (forall f user, (length (g_subs st) < MAX_SUBS)%nat -> Subscribe depth f user st = None).
Proof.
  intros Hl Hs Hf. pose proof (DobbyInit_nests depth st Hl Hs Hf) as Hi. split_and!; intros.
  - exact Hi.
  - by apply hook_nests.
  - by apply hook_nests.
  - unfold DobbyPltHook. by rewrite (proj1 Hf), Hi.
  - unfold DobbyPltHookRegex. by rewrite (proj1 Hf), Hi.
  - unfold DobbyWaitHook. by rewrite Hi.
  - unfold DobbyWaitHookOffset. by rewrite Hi.
  - unfold DobbyWaitEx. by rewrite Hi.
  - unfold Subscribe. rewrite (proj2 (Nat.leb_gt _ _)) by done. unfold LinkerMonitor_Start. cbn [monitor_started].
    rewrite (proj2 Hf), Hl. cbn [negb]. rewrite (proj2 (Z.eqb_neq _ _)) by done. by rewrite hook_nests by (done || (split; [apply Hf|done])).
Qed.

(** Where android_dlopen_ext does not resolve, DobbyInit returns [DOBBY_OK] with the workers marked as started and the
    hooks, the queue and the subscriptions as they were; calling it again changes nothing; and DobbyHook is Hooker::Hook. *)
Theorem init_returns st : android_dlopen_ext = 0 \/ libc_opens = false -> fresh st ->
  exists st', (forall depth, DobbyInit depth st = Some (Ret (DOBBY_OK, st'))) /\ (forall depth, DobbyInit depth st' = Some (Ret (DOBBY_OK, st'))) /\
    g_init st' = true /\ plt_started st' = true /\ g_worker_started st' = true /\ g_guard_started st' = true /\
    core st' = core st /\ g_subs st' = g_subs st /\
    (forall depth t r o, DobbyHook (S depth) t r o st = Hooker_Hook t r o st').
Proof.
  intros Hn [Hi Hm].
  assert (E : forall hook, DobbyInit_with hook st = Some (Ret (DOBBY_OK, {| core := core st; g_init := true; plt_started := true; g_worker_started := true;
     monitor_started := monitor_started st; g_guard_started := true; g_subs := g_subs st |}))).
  { intros hook. unfold DobbyInit_with. rewrite Hi. unfold LinkerMonitor_Start. cbn [monitor_started]. rewrite Hm.
    destruct Hn as [-> | ->]; [|done]. by destruct (negb libc_opens). }
  eexists. split; [intros depth; apply E|]. do 7 (split; [done|]). intros depth t r o. cbn [DobbyHook]. by rewrite Hi, E.
Qed.

End Library.

(** ** The theorems at a concrete process *)

Definition sample_library : library :=
  {| core := {| w_engine := sample_engine sample_code []; g_tasks := []; calls := [] |}; g_init := false; plt_started := false; g_worker_started := false;
     monitor_started := false; g_guard_started := false; g_subs := [] |}.

Lemma init_never_returns_witness : DobbyInit true 0x10000 0x10008 0x20000 (fun _ => Some 0x30000) 1000 sample_library = None.
Proof. apply (init_never_returns true 0x10000 0x10008 0x20000 (fun _ => Some 0x30000) 1000 sample_library); [reflexivity|lia|by split]. Defined.

Lemma init_returns_witness : exists st', DobbyHook true 0 0x10008 0x20000 (fun _ => Some 0x30000) 1 0x10000 0x50000 0 sample_library =
  Hooker_Hook (fun _ => Some 0x30000) 0x10000 0x50000 0 st' /\ g_init st' = true.
Proof.
  destruct (init_returns true 0 0x10008 0x20000 (fun _ => Some 0x30000) sample_library) as (st' & _ & _ & Hi & _ & _ & _ & _ & _ & H); [by left|by split|].
  exists st'. split; [exact (H 0%nat 0x10000 0x50000 0)|exact Hi].
Defined.
